(* ===== verification/_CoqProject ===== *)
-Q . S2P
Prelude.v
CMem.v
Machine.v
Sv32.v
Spinlock.v
Kalloc.v
KallocProof.v
KallocSpec.v
Printf.v
PrintfProof.v
Sched.v
AddrSpace.v
Regions.v
PageTable.v
UserMem.v
UserCopy.v
UserSpec.v
UserFrame.v
ForkCopy.v
ForkSpec.v
SchedProof.v
SchedSpec.v
SleepProof.v
Sleeplock.v
Bio.v
BioProof.v
BioSpec.v
Virtio.v
VirtioProof.v
VirtioSpec.v
Codec.v
Log.v
LogProof.v
LogSpec.v
Fs.v
FsInode.v
FsTx.v
FsBitmap.v
FsFile.v
FsCopy.v
FsIo.v
FsDir.v
FsSpec.v
FsDirSpec.v
Mkfs.v
MkfsProof.v
MkfsSpec.v
Console.v
Pipe.v
PipeProof.v
PipeWait.v
PipeSpec.v
ConsoleProof.v
ConsoleSpec.v
File.v
Proc.v
Exec.v
Syscall.v
SemSpec.v
Trap.v
Boot.v
Umalloc.v
UmallocProof.v
UmallocSpec.v
Div64.v
Grep.v
GrepRead.v
UserPrintf.v
UserProgs.v
Shell.v
ShellSpec.v
ShellRun.v
ShellConc.v
ShellRunSpec.v
