(* ===== verification/Prelude.v ===== *)
(** * YHsys: a verification of the kernel and its user programs

    YHsys is a small Unix-like kernel for a single 32-bit RISC-V CPU
    ([src/os/kernel]), with user programs ([src/os/user]) and a file system image
    builder ([src/os/mkfs]).  This library
    translates its C code into executable definitions and proves what makes the
    parts correct.

    ** The program and the model

    The kernel is one state, the record [kstate] of [Machine.v]: physical
    memory as bytes, the process, file, inode and buffer tables, the log, the
    console, the disk, the locks, and the registers the code reads.  A routine is
    a function in the monad [M] of this file: it returns ([Ok]), stops the
    machine ([Stop]: a panic, undefined behaviour, or an exhausted loop bound),
    or gives up the CPU in [sched] ([Block]: the state left behind and the rest
    of the routine, resumed on the state the machine has by then).  Integers are
    [Z] reduced to their width where C reduces them.  Pages, page tables and
    free lists are bytes of physical memory, as in the source; arrays of
    structures are lists and pointers into them are indices.

    The monad's program logic is [runs] (the routine returns, in a state
    satisfying the postcondition) and [wp] (it may also stop or block as stated).

    ** Files

    - [Prelude]: the monad, loops, [runs] and [wp].  [CMem]: byte memory and
      [string.c], the string half of [ulib.c].  [Machine]: constants, structures
      and [kstate]; class [Layout] (addresses the linker chooses) and class
      [WaitFuel] (bound on waiting loops).
    - [Spinlock]: [spinlock.c]; [acquire] and [release] as entering and leaving
      an atomic section.
    - [Kalloc], [KallocProof], [KallocSpec]: the buddy allocator [kalloc.c].
      Invariant of the free lists kept inside free pages; refinement of a table
      of reference counts over a memory, for every sequence of calls.
    - [Sv32], [AddrSpace], [Regions], [PageTable], [UserMem], [UserCopy],
      [UserSpec]: [addrspace.c].  The region table; [walk], [mappages] and
      [uvmunmap] against the hardware's walk of the bytes; copy-on-write, lazy
      allocation and the copies between kernel and user memory, stated on the
      bytes each address space can read.  [UserFrame]: what such copies leave
      alone, for the routines that make several of them.
    - [ForkCopy], [ForkSpec]: the copy-on-write copy [as_copy] makes for [fork]:
      parent and child read the same bytes, and a later store of one is not
      seen by the other.
    - [Sched], [SchedProof], [SchedSpec]: scheduling in [taskmgr.c]: which
      process runs next, who is woken or killed, the feedback queue, locks.
    - [Printf], [PrintfProof]: [printf.c] and the transmit half of [uart.c]:
      the characters sent are the rendered format.
    - [SleepProof]: [sleep] inside a critical section, and the rely-guarantee
      triple [rely] for a routine that gives up the CPU half way.
    - [Sleeplock]; [Bio], [BioProof], [BioSpec]: [bio.c] over the interface
      [BlockDev] of the disk driver: the cache shows each block's last content.
    - [Virtio], [VirtioProof], [VirtioSpec]: [virtio_disk.c].  Descriptor chains
      and rings as the memory shared with the device, the device as a step
      relation; [virtio_disk_rw] beside other requests, device and interrupts.
    - [Codec]; [Log], [LogProof], [LogSpec]: [log.c]: transactions are atomic
      across a crash at any disk write.
    - [Pipe], [PipeProof], [PipeWait], [PipeSpec]: [pipe.c]: the ring buffer is a
      bounded queue; reads and writes move bytes in order, also when they sleep
      on an empty or full pipe while other processes run.
    - [Fs], [FsInode], [FsTx], [FsBitmap], [FsFile], [FsCopy], [FsIo], [FsSpec]:
      [fs.c].  A transaction as laws on the content of blocks; [balloc] and
      [bfree] on the bitmap; a file as a function from offsets to bytes, which
      [bmap] keeps, [readi] returns and [writei] changes where it writes; the log
      space this needs.  The other end of the copy is a class ([CopiesTo],
      [CopiesFrom]) with kernel variables, pages and user memory as instances.
      Path names are definitions.
    - [FsDir], [FsDirSpec]: directories and the inode table: [dirlookup] finds the
      entry of a name, [dirlink] adds one and leaves the others.
    - [Mkfs], [MkfsProof], [MkfsSpec]: [mkfs.c]: the image built from a list of
      files is one the kernel's view of a disk reads back as those files, each
      named in the root directory.
    - [Console], [ConsoleProof], [ConsoleSpec]: [console.c], receive half of
      [uart.c].  Typed characters are steps of a line discipline on the ring
      buffer; a read delivers the next committed line.
    - [File]: [file.c], [pipealloc], objects of [sem.c].  [Proc]: process life
      cycle in [taskmgr.c].  [Exec]: [loader_exec.c].  [Syscall]: [syscall_gate.c],
      [sysproc.c], [sysfile.c], calls of [sem.c].  [Trap]: [irqtrap.c] and the
      order of initialisation of [bootflow.c].  These are definitions, composed
      the way the kernel composes them.
    - [SemSpec]: the wait of [sem.c] takes one unit, atomically, beside other
      processes; the post adds one and wakes the waiters.
    - [Boot]: [start.c], [plic.c] and the device half of [uartinit]: the registers
      they write, and what those writes mean to the hart, the interrupt
      controller and the serial line.
    - [Umalloc], [UmallocProof], [UmallocSpec]: [umalloc.c] over byte memory and the
      class of [sbrk]: the circular free list as the set of free blocks.
    - [Div64]: [div64.c] is division.  [Grep], [GrepRead]: [grep.c]: the matcher
      decides its pattern language, and the lines selected do not depend on how
      the input is read.  [UserPrintf]: [printf.c] against a relational meaning
      of formats, over the interface [Output] of a program's state.
      [UserProgs]: [cat.c], [wc.c], [echo.c] on both.
    - [Shell], [ShellSpec], [ShellRun], [ShellConc], [ShellRunSpec]: [sh.c].  The
      parser decides the grammar of command lines.  [runcmd] and [fork1] leave
      what each process does as a list of events (programs run, children forked,
      waits); [ShellConc] interleaves the processes of such a tree in every way
      [wait] allows, and [ShellRunSpec] shows that they carry out what the
      grammatical reading means, with each program's descriptors.

    A file [XProof] holds the lemmas about [X]; [XSpec], or the end of [X], holds
    the results with concrete instances.

    ** Bounds and fuel

    A loop whose length the code bounds (table scans, pages of a range, bits of a
    word) recurses on that bound.  Loops that end only because memory or disk is
    well formed carry fuel that the theorems show to be enough: free lists (the
    number of managed pages), the shell's recursion (four calls for each
    character), the matcher of grep (twice the pattern plus the text), the free
    list of [malloc] (the number of blocks), loops that read a file (each read
    but the last returns something, so the length of the input is enough), the
    copy of a file into an image (its length).  Waiting
    loops ([sleep] in a [while]) are bounded by [wait_fuel], an arbitrary
    positive number: it counts how often a process is woken to find its
    condition still false; where a theorem needs only that the first test
    succeeds it asks for [0 < wait_fuel], and where it follows a process through
    its waits it holds for every bound.

    ** Assumptions on the environment

    A process that slept resumes ([resumed] in [SleepProof]) with the locks, the
    CPU record and all control registers as [sched] left them; of the registers
    the code needs only the interrupt-enable bit, but the model asks for all.  What
    else others may have done is stated for each component: the relations that
    the theorems pass to [rely].  The device of [VirtioProof] serves requests in
    any order and never reports an error, so the panic of the interrupt handler
    on a bad status is a branch of the definition that no theorem reaches.  The
    shell's theorem is for kernels whose [fork] and [pipe] succeed; [writei] is
    described for sources that can be read throughout; [mkfs] for root
    directories that do not end at a block boundary.

    ** Not modelled

    The buffer cache, log and file system are proved against [BlockDevOk], the
    contract of a driver whose transfers are done when it returns, with a RAM
    disk as instance; that the driver's sleeping processes see this contract
    through the locks of the cache is not shown.  The device's registers are
    the class [VirtioDev].  The debugging printer [as_print] only prints.  Assembly
    ([entry.S], [trampoline.S], [swtch.S], [kernelvec.S]) is represented by
    [Block] and by the entry points of the trap handlers.  Of the user programs,
    [ls.c], [init.c], the games and the one-call utilities are not modelled: they
    are sequences of system calls and prints; [usertests.c] and its like are
    tests.  System calls of user programs are classes ([Reader], [Writer],
    [Output], the answers of the kernel in [ShellRun], [sbrk] in [Umalloc]): that
    the kernel's routines satisfy them is not shown.  The compiler and the
    processor description elsewhere in the repository are not C code. *)

From stdpp Require Export base list gmap strings.
From Stdlib Require Export ZArith Lia.

#[global] Set Default Goal Selector "!".
#[global] Set Warnings "-clear-no-such-hyp".

Create HintDb kernel discriminated.

(** Linear arithmetic with division and remainder by constants. *)
Ltac zlia := Z.div_mod_to_equations; lia.

(** * Outcomes of kernel code

    A kernel routine runs on the kernel state [S].  It returns a value
    ([Ok]), stops the machine ([Stop]), or gives up the CPU inside [sched()]
    ([Block]): the state it leaves behind and the rest of the routine, to be
    resumed on the state the machine has by then. *)
Inductive stop :=
| Panicked (msg : string)   (** [panic(msg)] *)
| Undefined (msg : string)  (** C undefined behaviour: a wild access *)
| OutOfFuel.                (** the bound given to an unbounded loop ran out *)

Inductive res (S A : Type) : Type :=
| Ok (a : A) (s : S)
| Stop (w : stop)
| Block (s : S) (k : S -> res S A).
Arguments Ok {S A} _ _.
Arguments Stop {S A} _.
Arguments Block {S A} _ _.

Definition M (S A : Type) : Type := S -> res S A.

Fixpoint rbind {S A B} (r : res S A) (f : A -> M S B) : res S B :=
  match r with
  | Ok a s => f a s
  | Stop w => Stop w
  | Block s k => Block s (fun s' => rbind (k s') f)
  end.

Definition ret {S A} (a : A) : M S A := fun s => Ok a s.
Definition bind {S A B} (m : M S A) (f : A -> M S B) : M S B :=
  fun s => rbind (m s) f.
Definition gets {S A} (f : S -> A) : M S A := fun s => Ok (f s) s.
Definition modify {S} (f : S -> S) : M S unit := fun s => Ok tt (f s).
Definition panic {S A} (msg : string) : M S A := fun _ => Stop (Panicked msg).
Definition undefined {S A} (msg : string) : M S A := fun _ => Stop (Undefined msg).
Definition nofuel {S A} : M S A := fun _ => Stop OutOfFuel.

Declare Scope kernel_scope.
Delimit Scope kernel_scope with K.
Bind Scope kernel_scope with M.
Notation "x <- m ;; k" := (bind m (fun x => k))
  (at level 100, m at next level, right associativity) : kernel_scope.
Notation "m ;; k" := (bind m (fun _ => k))
  (at level 100, right associativity) : kernel_scope.
Open Scope Z_scope.
Open Scope kernel_scope.

(** [for(i = lo; i < lo + n; i++) body(i)] *)
Fixpoint for_ {S} (n : nat) (lo : Z) (body : Z -> M S unit) : M S unit :=
  match n with
  | O => ret tt
  | Datatypes.S n' => body lo ;; for_ n' (lo + 1) body
  end.

(** The same loop whose body may leave it early with a value
    ([return] or [break]). *)
Fixpoint for_find {S R} (n : nat) (lo : Z) (body : Z -> M S (option R))
    : M S (option R) :=
  match n with
  | O => ret None
  | Datatypes.S n' =>
      r <- body lo ;;
      match r with
      | Some v => ret (Some v)
      | None => for_find n' (lo + 1) body
      end
  end.

(** * Weakest preconditions

    [wp E I r Q]: outcome [r] never stops except as [E] allows, returns only
    values and states in [Q], and whenever it blocks the state satisfies [I],
    which is also all it relies on when it is resumed. *)
Fixpoint wp {S A} (E : stop -> Prop) (I : S -> Prop) (r : res S A)
    (Q : A -> S -> Prop) : Prop :=
  match r with
  | Ok a s => Q a s
  | Stop w => E w
  | Block s k => I s /\ forall s', I s' -> wp E I (k s') Q
  end.

(** Runs to completion: no stop, no blocking. *)
Definition runs {S A} (r : res S A) (Q : A -> S -> Prop) : Prop :=
  match r with Ok a s => Q a s | _ => False end.

Section wp.
Context {S A B : Type} (E : stop -> Prop) (I : S -> Prop).

Lemma wp_mono (r : res S A) (Q Q' : A -> S -> Prop) :
  wp E I r Q -> (forall a s, Q a s -> Q' a s) -> wp E I r Q'.
Proof.
  induction r as [a s|w|s k IH]; simpl; auto.
  intros [HI Hk] HQ. split; [done|]. intros s' Hs'. auto.
Qed.

Lemma wp_bind (m : M S A) (f : A -> M S B) s Q :
  wp E I (m s) (fun a s' => wp E I (f a s') Q) -> wp E I (bind m f s) Q.
Proof.
  unfold bind. generalize (m s) as r.
  induction r as [a s1|w|s1 k IH]; simpl; auto.
  intros [HI Hk]. split; [done|]. intros s' Hs'. auto.
Qed.

Lemma runs_mono (r : res S A) (Q Q' : A -> S -> Prop) :
  runs r Q -> (forall a s, Q a s -> Q' a s) -> runs r Q'.
Proof. destruct r; simpl; auto. Qed.

Lemma runs_bind (m : M S A) (f : A -> M S B) s Q :
  runs (m s) (fun a s' => runs (f a s') Q) -> runs (bind m f s) Q.
Proof. unfold bind. destruct (m s); simpl; auto. Qed.

Lemma runs_assoc {C} (m : M S A) (f : A -> M S B) (g : B -> M S C) s Q :
  runs (bind (bind m f) g s) Q -> runs (bind m (fun x => bind (f x) g) s) Q.
Proof. unfold bind. by destruct (m s). Qed.

Lemma runs_and (r : res S A) Q1 Q2 :
  runs r Q1 -> runs r Q2 -> runs r (fun a s => Q1 a s /\ Q2 a s).
Proof. by destruct r. Qed.

Lemma runs_bind_inv (m : M S A) (f : A -> M S B) s Q :
  runs (bind m f s) Q -> runs (m s) (fun a s' => runs (f a s') Q).
Proof. unfold bind. destruct (m s); simpl; auto. Qed.

Lemma runs_ok (r : res S A) Q :
  runs r Q <-> exists a s, r = Ok a s /\ Q a s.
Proof.
  split.
  - destruct r as [a s| |]; simpl; [eauto|done|done].
  - intros (a & s & -> & H). exact H.
Qed.

Lemma runs_wp (r : res S A) Q : runs r Q -> wp E I r Q.
Proof. destruct r; simpl; tauto. Qed.

Lemma bind_ok (m : M S A) (f : A -> M S B) s a s' :
  m s = Ok a s' -> bind m f s = f a s'.
Proof. intros H. unfold bind. rewrite H. done. Qed.

End wp.

(** Loop rules: an invariant indexed by the loop counter. *)
Lemma runs_for {S} (Inv : Z -> S -> Prop) body n lo s Q :
  Inv lo s ->
  (forall i s, lo <= i < lo + Z.of_nat n -> Inv i s ->
     runs (body i s) (fun _ s' => Inv (i + 1) s')) ->
  (forall s', Inv (lo + Z.of_nat n) s' -> Q tt s') ->
  runs (for_ n lo body s) Q.
Proof.
  revert lo s. induction n as [|n IH]; intros lo s H0 Hb HQ; simpl.
  - apply HQ. by rewrite Z.add_0_r in HQ |- *.
  - apply runs_bind. eapply runs_mono; [apply Hb; [lia|done]|].
    intros [] s1 H1. apply IH; [done| |].
    + intros i s2 Hi H2. apply Hb; [lia|done].
    + intros s' H'. apply HQ. by replace (lo + Z.of_nat (Datatypes.S n))
        with (lo + 1 + Z.of_nat n) by lia.
Qed.

Lemma runs_for_find {S R} (Inv : Z -> S -> Prop) (body : Z -> M S (option R))
    n lo s Q :
  Inv lo s ->
  (forall i s, lo <= i < lo + Z.of_nat n -> Inv i s ->
     runs (body i s) (fun r s' =>
       match r with Some v => Q (Some v) s' | None => Inv (i + 1) s' end)) ->
  (forall s', Inv (lo + Z.of_nat n) s' -> Q None s') ->
  runs (for_find n lo body s) Q.
Proof.
  revert lo s. induction n as [|n IH]; intros lo s H0 Hb HQ; simpl.
  - apply HQ. by rewrite Z.add_0_r in HQ |- *.
  - apply runs_bind. eapply runs_mono; [apply Hb; [lia|done]|].
    intros [v|] s1 H1; [exact H1|]. apply IH; [done| |].
    + intros i s2 Hi H2. apply Hb; [lia|done].
    + intros s' H'. apply HQ. by replace (lo + Z.of_nat (Datatypes.S n))
        with (lo + 1 + Z.of_nat n) by lia.
Qed.
