(* ===== verification/CMem.v ===== *)
(** * Byte-addressed memory and the C string routines

    Models [src/os/kernel/string.c] and the memory/string half of
    [src/os/user/ulib.c] on an explicit byte memory.  An address is a [Z];
    memory is a finite map from addresses to bytes, zero where never written
    (RAM and BSS start cleared).  A [char] is an unsigned byte, as on RISC-V. *)

From S2P Require Import Prelude.

Abbreviation mem := (gmap Z Z).

Definition load8 (m : mem) (a : Z) : Z := default 0 (m !! a) mod 256.
Definition store8 (m : mem) (a v : Z) : mem := <[a := v mod 256]> m.

(** 32-bit little-endian words: page-table entries and list links. *)
Definition load32 (m : mem) (a : Z) : Z :=
  load8 m a + 2^8 * load8 m (a + 1) + 2^16 * load8 m (a + 2)
  + 2^24 * load8 m (a + 3).
Definition store32 (m : mem) (a v : Z) : mem :=
  store8 (store8 (store8 (store8 m a v) (a + 1) (v / 2^8)) (a + 2) (v / 2^16))
    (a + 3) (v / 2^24).

(** The bytes of an object, and an object's bytes laid out in memory. *)
Fixpoint read_bytes (n : nat) (m : mem) (a : Z) : list Z :=
  match n with
  | O => []
  | S n' => load8 m a :: read_bytes n' m (a + 1)
  end.
Fixpoint write_bytes (m : mem) (a : Z) (bs : list Z) : mem :=
  match bs with
  | [] => m
  | b :: bs' => write_bytes (store8 m a b) (a + 1) bs'
  end.

(** ** string.c *)

Fixpoint memset_loop (n : nat) (m : mem) (cdst i c : Z) : mem :=
  match n with
  | O => m
  | S n' => memset_loop n' (store8 m (cdst + i) c) cdst (i + 1) c
  end.
Definition memset (m : mem) (dst c n : Z) : mem :=
  memset_loop (Z.to_nat n) m dst 0 c.

Fixpoint memcmp_loop (n : nat) (m : mem) (s1 s2 : Z) : Z :=
  match n with
  | O => 0
  | S n' =>
      if load8 m s1 =? load8 m s2 then memcmp_loop n' m (s1 + 1) (s2 + 1)
      else load8 m s1 - load8 m s2
  end.
Definition memcmp (m : mem) (v1 v2 n : Z) : Z := memcmp_loop (Z.to_nat n) m v1 v2.

(** [while(n-- > 0) *--d = *--s;] *)
Fixpoint copy_down (n : nat) (m : mem) (d s : Z) : mem :=
  match n with
  | O => m
  | S n' => copy_down n' (store8 m (d - 1) (load8 m (s - 1))) (d - 1) (s - 1)
  end.
(** [while(n-- > 0) *d++ = *s++;] *)
Fixpoint copy_up (n : nat) (m : mem) (d s : Z) : mem :=
  match n with
  | O => m
  | S n' => copy_up n' (store8 m d (load8 m s)) (d + 1) (s + 1)
  end.
Definition memmove (m : mem) (dst src n : Z) : mem :=
  if n =? 0 then m
  else if (src <? dst) && (src + n >? dst)
  then copy_down (Z.to_nat n) m (dst + n) (src + n)
  else copy_up (Z.to_nat n) m dst src.
Definition memcpy (m : mem) (dst src n : Z) : mem := memmove m dst src n.

Fixpoint strncmp_loop (n : nat) (m : mem) (p q : Z) : Z :=
  match n with
  | O => 0
  | S n' =>
      if negb (load8 m p =? 0) && (load8 m p =? load8 m q)
      then strncmp_loop n' m (p + 1) (q + 1)
      else load8 m p - load8 m q
  end.
Definition strncmp (m : mem) (p q n : Z) : Z := strncmp_loop (Z.to_nat n) m p q.

(** [while(n-- > 0) *s++ = 0;] *)
Fixpoint zero_fill (n : nat) (m : mem) (s : Z) : mem :=
  match n with
  | O => m
  | S n' => zero_fill n' (store8 m s 0) (s + 1)
  end.
Fixpoint strncpy_loop (n : nat) (m : mem) (s t : Z) : mem :=
  match n with
  | O => m
  | S n' =>
      let c := load8 m t in
      let m' := store8 m s c in
      if c =? 0 then zero_fill n' m' (s + 1)
      else strncpy_loop n' m' (s + 1) (t + 1)
  end.
Definition strncpy (m : mem) (s t n : Z) : mem := strncpy_loop (Z.to_nat n) m s t.

(** The copying loop of safestrcpy and the final [*s = 0]; [n] is the count
    left after the first [--n].  A copied NUL has already advanced [s]. *)
Fixpoint safestrcpy_loop (n : nat) (m : mem) (s t : Z) : mem :=
  match n with
  | O => store8 m s 0
  | S n' =>
      let c := load8 m t in
      let m' := store8 m s c in
      if c =? 0 then store8 m' (s + 1) 0
      else safestrcpy_loop n' m' (s + 1) (t + 1)
  end.
Definition safestrcpy (m : mem) (s t n : Z) : mem :=
  if n <=? 0 then m else safestrcpy_loop (Z.to_nat (n - 1)) m s t.

Fixpoint strlen_loop (fuel : nat) (m : mem) (s n : Z) : option Z :=
  match fuel with
  | O => None
  | S f => if load8 m (s + n) =? 0 then Some n else strlen_loop f m s (n + 1)
  end.
(** [None]: no terminator within [fuel] bytes. *)
Definition strlen (fuel : nat) (m : mem) (s : Z) : option Z :=
  strlen_loop fuel m s 0.

(** ** ulib.c *)

(** The user library picks the copy direction by [src > dst] alone. *)
Definition ulib_memmove (m : mem) (vdst vsrc n : Z) : mem :=
  if vsrc >? vdst then copy_up (Z.to_nat n) m vdst vsrc
  else copy_down (Z.to_nat n) m (vdst + n) (vsrc + n).

Fixpoint strcpy_loop (fuel : nat) (m : mem) (s t : Z) : option mem :=
  match fuel with
  | O => None
  | S f =>
      let c := load8 m t in
      let m' := store8 m s c in
      if c =? 0 then Some m' else strcpy_loop f m' (s + 1) (t + 1)
  end.
Definition strcpy (fuel : nat) (m : mem) (s t : Z) : option mem :=
  strcpy_loop fuel m s t.

Fixpoint strcmp (fuel : nat) (m : mem) (p q : Z) : option Z :=
  match fuel with
  | O => None
  | S f =>
      if negb (load8 m p =? 0) && (load8 m p =? load8 m q)
      then strcmp f m (p + 1) (q + 1)
      else Some (load8 m p - load8 m q)
  end.

(** [Some 0] is the null pointer: the character does not occur. *)
Fixpoint strchr (fuel : nat) (m : mem) (s c : Z) : option Z :=
  match fuel with
  | O => None
  | S f =>
      if load8 m s =? 0 then Some 0
      else if load8 m s =? c then Some s
      else strchr f m (s + 1) c
  end.

Fixpoint atoi_loop (fuel : nat) (m : mem) (s n : Z) : option Z :=
  match fuel with
  | O => None
  | S f =>
      if (48 <=? load8 m s) && (load8 m s <=? 57)
      then atoi_loop f m (s + 1) (n * 10 + load8 m s - 48)
      else Some n
  end.
Definition atoi (fuel : nat) (m : mem) (s : Z) : option Z := atoi_loop fuel m s 0.

(** * Load/store laws *)

Lemma load8_range m a : 0 <= load8 m a < 256.
Proof. unfold load8. apply Z.mod_pos_bound. lia. Qed.

Lemma load8_store8_eq m a v : load8 (store8 m a v) a = v mod 256.
Proof.
  unfold load8, store8. rewrite lookup_insert_eq. simpl.
  by rewrite Z.mod_mod by lia.
Qed.

Lemma load8_store8_ne m a b v : a <> b -> load8 (store8 m a v) b = load8 m b.
Proof. intros H. unfold load8, store8. by rewrite lookup_insert_ne. Qed.

Lemma load8_store8 m a b v :
  load8 (store8 m a v) b = if decide (a = b) then v mod 256 else load8 m b.
Proof.
  case_decide as H; [subst; apply load8_store8_eq|by apply load8_store8_ne].
Qed.

Lemma store8_load8 m a b : load8 (store8 m a (load8 m a)) b = load8 m b.
Proof.
  rewrite load8_store8. case_decide; [subst|done].
  apply Z.mod_small, load8_range.
Qed.

Lemma read_bytes_length n m a : length (read_bytes n m a) = n.
Proof. revert a. induction n as [|n IH]; intros a; simpl; [done|by rewrite IH]. Qed.

Lemma read_bytes_lookup n m a i :
  (i < n)%nat -> read_bytes n m a !! i = Some (load8 m (a + Z.of_nat i)).
Proof.
  revert a i. induction n as [|n IH]; intros a i Hi; [lia|]. destruct i as [|i]; simpl.
  - by rewrite Z.add_0_r.
  - rewrite IH by lia. do 2 f_equal. lia.
Qed.

Lemma read_bytes_ext n m m' a :
  (forall b, a <= b < a + Z.of_nat n -> load8 m' b = load8 m b) ->
  read_bytes n m' a = read_bytes n m a.
Proof.
  revert a. induction n as [|n IH]; intros a H; simpl; [done|].
  rewrite H by lia. f_equal. apply IH. intros b Hb. apply H. lia.
Qed.

Lemma read_bytes_app n1 n2 m a :
  read_bytes (n1 + n2) m a = read_bytes n1 m a ++ read_bytes n2 m (a + Z.of_nat n1).
Proof.
  revert a. induction n1 as [|n IH]; intros a; simpl; [by rewrite Z.add_0_r|].
  rewrite IH. do 3 f_equal. lia.
Qed.

Lemma write_bytes_out m a bs b :
  ~ (a <= b < a + Z.of_nat (length bs)) -> load8 (write_bytes m a bs) b = load8 m b.
Proof.
  revert m a. induction bs as [|c bs IH]; intros m a H; simpl in *; [done|].
  rewrite IH by lia. apply load8_store8_ne. lia.
Qed.

Lemma write_bytes_read m a bs :
  Forall (fun b => 0 <= b < 256) bs ->
  read_bytes (length bs) (write_bytes m a bs) a = bs.
Proof.
  intros H. revert m a. induction H as [|c bs Hc H IH]; intros m a; simpl; [done|].
  rewrite write_bytes_out by lia. rewrite load8_store8_eq, Z.mod_small by done.
  by rewrite IH.
Qed.

Lemma load32_range m a : 0 <= load32 m a < 2^32.
Proof.
  unfold load32.
  pose proof (load8_range m a). pose proof (load8_range m (a + 1)).
  pose proof (load8_range m (a + 2)). pose proof (load8_range m (a + 3)). lia.
Qed.

Lemma load32_ext m m' a :
  (forall k, 0 <= k < 4 -> load8 m' (a + k) = load8 m (a + k)) ->
  load32 m' a = load32 m a.
Proof.
  intros H. unfold load32. pose proof (H 0 ltac:(lia)) as H0.
  rewrite Z.add_0_r in H0. rewrite H0, !H by lia. done.
Qed.

Lemma load8_store32_out m a v b :
  ~ (a <= b < a + 4) -> load8 (store32 m a v) b = load8 m b.
Proof.
  intros H. unfold store32. by rewrite !load8_store8_ne by lia.
Qed.

Lemma load32_store32_eq m a v : load32 (store32 m a v) a = v mod 2^32.
Proof.
  unfold load32, store32. rewrite !load8_store8.
  repeat case_decide; try lia. zlia.
Qed.

Lemma load32_store32_ne m a v b :
  a + 4 <= b \/ b + 4 <= a -> load32 (store32 m a v) b = load32 m b.
Proof.
  intros H. apply load32_ext. intros k Hk. apply load8_store32_out. lia.
Qed.

Create HintDb mem discriminated.
Create Rewrite HintDb mem.
#[export] Hint Resolve load8_range load32_range : mem.
#[export] Hint Rewrite load8_store8_eq load32_store32_eq : mem.

(** * memset *)

Lemma memset_loop_load n m cdst i c a :
  load8 (memset_loop n m cdst i c) a =
  if decide (cdst + i <= a < cdst + i + Z.of_nat n) then c mod 256 else load8 m a.
Proof.
  revert m i. induction n as [|n IH]; intros m i; simpl.
  - case_decide; [lia|done].
  - rewrite IH, load8_store8. repeat case_decide; try lia; done.
Qed.

Lemma memset_load m dst c n a :
  load8 (memset m dst c n) a =
  if decide (dst <= a < dst + n) then c mod 256 else load8 m a.
Proof.
  unfold memset. rewrite memset_loop_load. repeat case_decide; try lia; done.
Qed.

Lemma load32_memset_out m dst c n a :
  a + 4 <= dst \/ dst + n <= a -> load32 (memset m dst c n) a = load32 m a.
Proof.
  intros H. apply load32_ext. intros k Hk. rewrite memset_load.
  case_decide; [lia|done].
Qed.

Lemma load32_memset0 m dst n a :
  dst <= a -> a + 4 <= dst + n -> load32 (memset m dst 0 n) a = 0.
Proof.
  intros H1 H2. unfold load32. rewrite !memset_load.
  repeat case_decide; try lia; done.
Qed.

(** * memmove *)

Lemma copy_up_load n m d s a :
  d <= s \/ s + Z.of_nat n <= d ->
  load8 (copy_up n m d s) a =
  if decide (d <= a < d + Z.of_nat n) then load8 m (a - d + s) else load8 m a.
Proof.
  revert m d s. induction n as [|n IH]; intros m d s H; simpl.
  - case_decide; [lia|done].
  - rewrite IH by lia. rewrite !load8_store8.
    repeat case_decide; try lia; try (f_equal; lia).
    replace (a - d + s) with s by lia. apply Z.mod_small, load8_range.
Qed.

Lemma copy_down_load n m d s a :
  s <= d \/ d + Z.of_nat n <= s ->
  load8 (copy_down n m (d + Z.of_nat n) (s + Z.of_nat n)) a =
  if decide (d <= a < d + Z.of_nat n) then load8 m (a - d + s) else load8 m a.
Proof.
  revert m. induction n as [|n IH]; intros m H; cbn [copy_down].
  - case_decide; [lia|done].
  - replace (d + Z.of_nat (S n) - 1) with (d + Z.of_nat n) by lia.
    replace (s + Z.of_nat (S n) - 1) with (s + Z.of_nat n) by lia.
    rewrite IH by lia. rewrite !load8_store8.
    repeat case_decide; try lia; try (f_equal; lia).
    replace (a - d + s) with (s + Z.of_nat n) by lia.
    apply Z.mod_small, load8_range.
Qed.

Lemma memmove_load m dst src n a :
  0 <= n ->
  load8 (memmove m dst src n) a =
  if decide (dst <= a < dst + n) then load8 m (a - dst + src) else load8 m a.
Proof.
  intros Hn. unfold memmove.
  destruct (Z.eqb_spec n 0); [case_decide; [lia|done]|].
  destruct ((src <? dst) && (src + n >? dst)) eqn:Hov.
  - pose proof (copy_down_load (Z.to_nat n) m dst src a) as H.
    rewrite Z2Nat.id in H by lia. apply H. lia.
  - rewrite copy_up_load by lia. by rewrite Z2Nat.id by lia.
Qed.

Lemma ulib_memmove_load m dst src n a :
  0 <= n ->
  load8 (ulib_memmove m dst src n) a =
  if decide (dst <= a < dst + n) then load8 m (a - dst + src) else load8 m a.
Proof.
  intros Hn. unfold ulib_memmove. destruct (src >? dst) eqn:Hd.
  - rewrite copy_up_load by lia. by rewrite Z2Nat.id by lia.
  - pose proof (copy_down_load (Z.to_nat n) m dst src a) as H.
    rewrite Z2Nat.id in H by lia. apply H. lia.
Qed.

(** * C strings bounded by a field width

    [cstrn n m a]: the characters at [a], up to the first NUL or [n] bytes,
    the reading that [strncmp] and the directory code give to a name field. *)
Fixpoint cstrn (n : nat) (m : mem) (a : Z) : list Z :=
  match n with
  | O => []
  | S n' =>
      if load8 m a =? 0 then [] else load8 m a :: cstrn n' m (a + 1)
  end.

Lemma cstrn_ext n m m' a :
  (forall b, a <= b < a + Z.of_nat n -> load8 m' b = load8 m b) ->
  cstrn n m' a = cstrn n m a.
Proof.
  revert a. induction n as [|n IH]; intros a H; simpl; [done|].
  rewrite !H by lia. destruct (_ =? 0); [done|].
  f_equal. apply IH. intros b Hb. apply H. lia.
Qed.

Lemma strncmp_loop_eq0 n m p q :
  strncmp_loop n m p q = 0 <-> cstrn n m p = cstrn n m q.
Proof.
  revert p q. induction n as [|n IH]; intros p q; simpl; [done|].
  destruct (Z.eqb_spec (load8 m p) 0) as [Hp|Hp]; simpl.
  - rewrite Hp. destruct (Z.eqb_spec (load8 m q) 0); split; intros H;
      try done; lia.
  - destruct (Z.eqb_spec (load8 m p) (load8 m q)) as [Hpq|Hpq].
    + rewrite <- Hpq. destruct (Z.eqb_spec (load8 m p) 0); [lia|].
      rewrite IH. split; intros H; [by rewrite H|by simplify_eq].
    + split; [lia|]. destruct (Z.eqb_spec (load8 m q) 0); intros H; simplify_eq.
Qed.

Lemma zero_fill_load n m s a :
  load8 (zero_fill n m s) a =
  if decide (s <= a < s + Z.of_nat n) then 0 else load8 m a.
Proof.
  revert m s. induction n as [|n IH]; intros m s; simpl.
  - case_decide; [lia|done].
  - rewrite IH, load8_store8. repeat case_decide; try lia; done.
Qed.

Lemma strncpy_loop_frame n m s t a :
  ~ (s <= a < s + Z.of_nat n) -> load8 (strncpy_loop n m s t) a = load8 m a.
Proof.
  revert m s t. induction n as [|n IH]; intros m s t H; simpl; [done|].
  destruct (_ =? 0).
  - rewrite zero_fill_load, load8_store8. repeat case_decide; try lia; done.
  - rewrite IH by lia. apply load8_store8_ne. lia.
Qed.

Lemma strncpy_loop_cstrn n m s t :
  s + Z.of_nat n <= t \/ t + Z.of_nat n <= s ->
  cstrn n (strncpy_loop n m s t) s = cstrn n m t.
Proof.
  revert m s t. induction n as [|n IH]; intros m s t H; simpl; [done|].
  destruct (Z.eqb_spec (load8 m t) 0) as [Ht|Ht].
  - rewrite zero_fill_load, load8_store8, Ht.
    repeat case_decide; try lia; done.
  - rewrite strncpy_loop_frame by lia. rewrite load8_store8_eq.
    rewrite Z.mod_small by apply load8_range.
    destruct (Z.eqb_spec (load8 m t) 0); [lia|]. f_equal.
    rewrite IH by lia. apply cstrn_ext. intros b Hb.
    apply load8_store8_ne. lia.
Qed.

Lemma safestrcpy_loop_frame n m s t a :
  ~ (s <= a < s + Z.of_nat n + 1) ->
  load8 (safestrcpy_loop n m s t) a = load8 m a.
Proof.
  revert m s t. induction n as [|n IH]; intros m s t H; simpl.
  - apply load8_store8_ne. lia.
  - destruct (_ =? 0).
    + by rewrite !load8_store8_ne by lia.
    + rewrite IH by lia. apply load8_store8_ne. lia.
Qed.

Lemma safestrcpy_loop_cstrn n m s t :
  s + Z.of_nat n + 1 <= t \/ t + Z.of_nat n <= s ->
  cstrn (S n) (safestrcpy_loop n m s t) s = cstrn n m t /\
  exists k, 0 <= k <= Z.of_nat n /\
    load8 (safestrcpy_loop n m s t) (s + k) = 0.
Proof.
  revert m s t. induction n as [|n IH]; intros m s t H;
    cbn [safestrcpy_loop].
  - split.
    + cbn [cstrn]. by rewrite load8_store8_eq.
    + exists 0. split; [lia|]. rewrite Z.add_0_r. apply load8_store8_eq.
  - destruct (Z.eqb_spec (load8 m t) 0) as [Ht|Ht].
    + assert (Hz : forall m', load8 (store8 (store8 m' s (load8 m t)) (s + 1) 0) s = 0).
      { intros m'. rewrite load8_store8_ne, load8_store8_eq by lia. by rewrite Ht. }
      split; [cbn [cstrn]; by rewrite Hz, Ht|].
      exists 0. split; [lia|]. by rewrite Z.add_0_r.
    + destruct (IH (store8 m s (load8 m t)) (s + 1) (t + 1)) as [IH1 [k [Hk IH2]]];
        [lia|]. split.
      * change (cstrn (S n) m t) with
          (if load8 m t =? 0 then [] else load8 m t :: cstrn n m (t + 1)).
        cbn [cstrn] in IH1 |- *.
        rewrite (safestrcpy_loop_frame n _ (s + 1)) by lia.
        rewrite load8_store8_eq, Z.mod_small by apply load8_range.
        destruct (Z.eqb_spec (load8 m t) 0); [lia|].
        rewrite IH1. f_equal. apply cstrn_ext. intros b Hb.
        apply load8_store8_ne. lia.
      * exists (k + 1). split; [lia|].
        by replace (s + (k + 1)) with (s + 1 + k) by lia.
Qed.

Lemma strlen_loop_some fuel m s n r :
  strlen_loop fuel m s n = Some r <->
  n <= r < n + Z.of_nat fuel /\ load8 m (s + r) = 0 /\
  forall j, n <= j < r -> load8 m (s + j) <> 0.
Proof.
  revert n. induction fuel as [|f IH]; intros n; simpl.
  - split; [done|lia].
  - destruct (Z.eqb_spec (load8 m (s + n)) 0) as [Hz|Hz].
    + split.
      * intros [= ->]. split; [lia|]. split; [done|]. intros j. lia.
      * intros (Hr & H0 & Hj). destruct (decide (r = n)) as [->|Hne]; [done|].
        by destruct (Hj n); [lia|].
    + rewrite IH. split; intros (Hr & H0 & Hj).
      * split; [lia|]. split; [done|]. intros j Hjr.
        destruct (decide (j = n)) as [->|]; [done|apply Hj; lia].
      * assert (r <> n) by congruence. split; [lia|]. split; [done|].
        intros j Hjr. apply Hj. lia.
Qed.
