(* ===== verification/Machine.v ===== *)
(** * The kernel's data: constants, structures and the machine state

    The types of [proc.h], [spinlock.h], [sleeplock.h], [file.h], [riscv.h],
    [memlayout.h] and [param.h], the file-local structures of [kalloc.c],
    [pipe.c], [sem.c] and [console.c], and one record [kstate] holding every
    global variable of the modelled kernel with the CPU registers it uses.

    Pointers to statically allocated structures are array indices ([None] is
    the null pointer); pointers to pages are physical addresses ([0] is null). *)

From S2P Require Import Prelude CMem.

(** ** Machine integers *)

Definition u16 (x : Z) : Z := x mod 2^16.
Definition u32 (x : Z) : Z := x mod 2^32.
Definition u64 (x : Z) : Z := x mod 2^64.
(** Conversion to a signed 32-bit [int]. *)
Definition i32 (x : Z) : Z :=
  let y := x mod 2^32 in if y <? 2^31 then y else y - 2^32.

(** ** param.h *)

Definition NPROC : Z := 64.
Definition NOFILE : Z := 16.
Definition NFILE : Z := 100.
Definition NDEV : Z := 10.
Definition NINODE : Z := 50.
Definition ROOTDEV : Z := 1.
Definition MAXARG : Z := 32.
Definition MAXOPBLOCKS : Z := 10.
Definition LOGBLOCKS : Z := MAXOPBLOCKS * 3.
Definition NBUF : Z := MAXOPBLOCKS * 3.
Definition FSSIZE : Z := 2000.
Definition MAXPATH : Z := 128.
Definition USERSTACK : Z := 1.
Definition ASLR_CODE_MAX_PAGES : Z := 2.
Definition ASLR_STACK_GAP_MAX_PAGES : Z := 1.
Definition ASLR_HEAP_GAP_MAX_PAGES : Z := 0.
Definition MLFQ_LEVELS : Z := 3.
Definition MLFQ_Q0_SLICE : Z := 1.
Definition MLFQ_Q1_SLICE : Z := 2.
Definition MLFQ_Q2_SLICE : Z := 4.
Definition MLFQ_BOOST_TICKS : Z := 64.

(** ** riscv.h: pages and Sv32 page-table entries *)

Definition PGSIZE : Z := 4096.
Definition PGSHIFT : Z := 12.
Definition PGROUNDUP (sz : Z) : Z :=
  Z.land (u32 (sz + PGSIZE - 1)) (u32 (Z.lnot (PGSIZE - 1))).
Definition PGROUNDDOWN (a : Z) : Z := Z.land a (u32 (Z.lnot (PGSIZE - 1))).

Definition PTE_V : Z := Z.shiftl 1 0.
Definition PTE_R : Z := Z.shiftl 1 1.
Definition PTE_W : Z := Z.shiftl 1 2.
Definition PTE_X : Z := Z.shiftl 1 3.
Definition PTE_U : Z := Z.shiftl 1 4.
Definition PTE_COW : Z := Z.shiftl 1 8.

Definition PA2PTE (pa : Z) : Z := u32 (Z.shiftl (Z.shiftr pa 12) 10).
Definition PTE2PA (pte : Z) : Z := u32 (Z.shiftl (Z.shiftr pte 10) 12).
Definition PTE_FLAGS (pte : Z) : Z := Z.land pte 0x3FF.

Definition PXMASK : Z := 0x3FF.
Definition PXSHIFT (level : Z) : Z := PGSHIFT + 10 * level.
Definition PX (level va : Z) : Z := Z.land (Z.shiftr va (PXSHIFT level)) PXMASK.

(** One beyond the highest virtual address; a 64-bit constant in the source. *)
Definition MAXVA : Z := Z.shiftl 1 32.

Definition SATP_SV32 : Z := Z.shiftl 1 31.
Definition MAKE_SATP (pagetable : Z) : Z :=
  Z.lor SATP_SV32 (Z.shiftr pagetable 12).

Definition SSTATUS_SPP : Z := Z.shiftl 1 8.
Definition SSTATUS_SPIE : Z := Z.shiftl 1 5.
Definition SSTATUS_SIE : Z := Z.shiftl 1 1.

(** ** memlayout.h *)

Definition KERNBASE : Z := 0x80000000.
Definition PHYSTOP : Z := KERNBASE + 128 * 1024 * 1024.
Definition TRAMPOLINE : Z := MAXVA - PGSIZE.
Definition KSTACK (p : Z) : Z := TRAMPOLINE - (p + 1) * 2 * PGSIZE.
Definition TRAPFRAME : Z := TRAMPOLINE - PGSIZE.
Definition UART0 : Z := 0x10000000.
Definition VIRTIO0 : Z := 0x10001000.
Definition PLIC : Z := 0x0c000000.

(** Addresses the linker script and the assembly files fix. *)
Class Layout := {
  end_ : Z;          (** [end]: first address after the kernel image *)
  etext : Z;         (** end of the kernel text *)
  trampoline : Z;    (** the page holding uservec and userret *)
  uservec : Z;
  kernelvec : Z;
  usertrap_addr : Z;
  forkret_addr : Z;
  userret : Z;
}.

(** What the kernel relies on of the linked image. *)
Class LayoutOk (L : Layout) : Prop := {
  end_in_ram : KERNBASE <= end_ <= PHYSTOP;
}.

(** ** spinlock.h and sleeplock.h *)

(** The single CPU is the only possible holder, so [cpu] is whether the
    holder field points to it. *)
Record spinlock := mkLock {
  sl_locked : Z;
  sl_cpu : bool;
  sl_name : string;
}.

(** The locks of the kernel, each named by the structure it lives in. *)
Inductive lockid :=
| LKmem | LPid | LWait | LProc (i : Z) | LFtable | LPipe (pa : Z) | LSem (pa : Z)
| LTicks | LCons | LPr | LUart | LBcache | LLog | LItable | LVdisk
| LBuf (i : Z) | LInode (i : Z).

#[export] Instance lockid_eq_dec : EqDecision lockid.
Proof. solve_decision. Defined.

Definition lockid_enc (l : lockid) : Z * Z :=
  match l with
  | LKmem => (0, 0) | LPid => (1, 0) | LWait => (2, 0) | LProc i => (3, i)
  | LFtable => (4, 0) | LPipe p => (5, p) | LSem p => (6, p) | LTicks => (7, 0)
  | LCons => (8, 0) | LPr => (9, 0) | LUart => (10, 0) | LBcache => (11, 0)
  | LLog => (12, 0) | LItable => (13, 0) | LVdisk => (14, 0)
  | LBuf i => (15, i) | LInode i => (16, i)
  end.
Definition lockid_dec (c : Z * Z) : lockid :=
  let i := c.2 in
  match c.1 with
  | 0 => LKmem | 1 => LPid | 2 => LWait | 3 => LProc i | 4 => LFtable
  | 5 => LPipe i | 6 => LSem i | 7 => LTicks | 8 => LCons | 9 => LPr
  | 10 => LUart | 11 => LBcache | 12 => LLog | 13 => LItable | 14 => LVdisk
  | 15 => LBuf i | _ => LInode i
  end.
#[export] Instance lockid_countable : Countable lockid.
Proof. refine (inj_countable' lockid_enc lockid_dec _). by intros []. Defined.

(** Wait channels: the distinct addresses passed to [sleep] and [wakeup]. *)
Inductive chan :=
| ChProc (i : Z) | ChTicks | ChSleepLock (l : lockid) | ChLog
| ChPipeRead (pa : Z) | ChPipeWrite (pa : Z) | ChSem (pa : Z) | ChCons
| ChUart | ChDiskFree | ChBuf (i : Z).
#[export] Instance chan_eq_dec : EqDecision chan.
Proof. solve_decision. Defined.

(** ** proc.h *)

Record cpu := mkCpu {
  c_proc : option Z;  (** index of the running process *)
  c_noff : Z;
  c_intena : Z;
}.

Record csrs := mkCsrs {
  r_sstatus : Z; r_sepc : Z; r_scause : Z; r_stval : Z; r_stvec : Z;
  r_satp : Z; r_time : Z; r_stimecmp : Z;
}.

Definition MR_FREE : Z := 0.
Definition MR_TEXT : Z := 1.
Definition MR_HEAP : Z := 2.
Definition MR_STACK : Z := 3.
Definition MR_MMIO : Z := 4.
Definition MR_TRAPFRAME : Z := 5.
Definition MR_TRAMPOLINE : Z := 6.
Definition MAX_MREGIONS : Z := 16.

Record mem_region := mkRegion {
  va_start : Z; va_end : Z; rtype : Z; perm : Z;
}.

Record addr_space := mkAS {
  pagetable : Z;               (** root page table, 0 when absent *)
  regions : list mem_region;   (** [regions[MAX_MREGIONS]] *)
  region_count : Z;
}.
Definition zero_region : mem_region := mkRegion 0 0 0 0.
(** [memset(&as, 0, sizeof(as))] *)
Definition zero_as : addr_space :=
  mkAS 0 (replicate (Z.to_nat MAX_MREGIONS) zero_region) 0.

Record context := mkContext { ctx_ra : Z; ctx_sp : Z; ctx_s : list Z }.
Definition zero_context : context := mkContext 0 0 (replicate 12 0).

(** Byte offsets of the [struct trapframe] fields the kernel uses; the
    trapframe itself is the memory of its page. *)
Definition tf_kernel_satp : Z := 0.
Definition tf_kernel_sp : Z := 4.
Definition tf_kernel_trap : Z := 8.
Definition tf_epc : Z := 12.
Definition tf_kernel_hartid : Z := 16.
Definition tf_sp : Z := 24.
Definition tf_a0 : Z := 56.
Definition tf_a1 : Z := 60.
Definition tf_a7 : Z := 84.
Definition tf_size : Z := 144.

Inductive procstate := UNUSED | USED | SLEEPING | RUNNABLE | RUNNING | ZOMBIE.
#[export] Instance procstate_eq_dec : EqDecision procstate.
Proof. solve_decision. Defined.

Record proc := mkProc {
  p_state : procstate;
  p_chan : option chan;
  p_killed : Z;
  p_xstate : Z;
  p_pid : Z;
  p_parent : option Z;
  p_kstack : Z;
  p_as : addr_space;
  p_trapframe : Z;
  p_context : context;
  p_ofile : list (option Z);
  p_cwd : option Z;
  p_mlfq_level : Z;
  p_mlfq_ticks_used : Z;
  p_mlfq_stamp : Z;
  p_name : list Z;
}.

(** The globals of taskmgr.c. *)
Record ptab := mkPtab {
  initproc : option Z;
  nextpid : Z;
  mlfq_seq : Z;
  mlfq_need_boost : Z;
}.

(** ** kalloc.c *)

Definition MAX_ORDER : Z := 15.
Definition NPAGES : Z := (PHYSTOP - KERNBASE) / PGSIZE.
Definition PG_BUDDY_FREE : Z := 1.

Record free_area := mkArea {
  freelist : Z;   (** address of the first free block, 0 when empty *)
  nr_free : Z;
}.
Record kmem_t := mkKmem {
  free_areas : list free_area;
  refcnt : gmap Z Z;
  page_state : gmap Z Z;
}.

(** ** file.h, pipe.c, sem.c, console.c *)

Inductive ftype := FD_NONE | FD_PIPE | FD_INODE | FD_DEVICE | FD_SEM.
#[export] Instance ftype_eq_dec : EqDecision ftype.
Proof. solve_decision. Defined.

Record file := mkFile {
  f_type : ftype;
  f_ref : Z;
  f_readable : Z;
  f_writable : Z;
  f_pipe : Z;
  f_sem : Z;
  f_ip : option Z;
  f_off : Z;
  f_major : Z;
}.

Definition PIPESIZE : Z := 512.
Record pipe := mkPipe {
  pi_data : gmap Z Z;
  pi_nread : Z;
  pi_nwrite : Z;
  pi_readopen : Z;
  pi_writeopen : Z;
}.

Record semaphore := mkSem {
  sem_value : Z;
  sem_ref_count : Z;
  sem_destroyed : Z;
}.

Definition INPUT_BUF_SIZE : Z := 128.
Record cons_t := mkCons {
  cons_buf : gmap Z Z;
  cons_r : Z;
  cons_w : Z;
  cons_e : Z;
}.

(** The UART: bytes sent (oldest first), bytes received and not yet read, and
    [tx_busy] of uart.c. *)
Record uart_t := mkUart {
  u_out : list Z;
  u_in : list Z;
  u_tx_busy : Z;
}.

(** ** sleeplock.h, buf.h, fs.h, log.c *)

(** The spin lock inside is found under the same [lockid]. *)
Record sleeplock := mkSleep {
  slk_locked : Z;
  slk_name : string;
  slk_pid : Z;
}.

Definition BSIZE : Z := 1024.
Definition ROOTINO : Z := 1.
Definition FSMAGIC : Z := 0x10203040.
Definition NDIRECT : Z := 12.
Definition NINDIRECT : Z := BSIZE / 4.
Definition MAXFILE : Z := NDIRECT + NINDIRECT.
Definition DIRSIZ : Z := 14.
(** [sizeof(struct dinode)] and [sizeof(struct dirent)] *)
Definition DINODE_SIZE : Z := 64.
Definition DIRENT_SIZE : Z := 16.
Definition IPB : Z := BSIZE / DINODE_SIZE.
Definition BPB : Z := BSIZE * 8.
Definition T_DIR : Z := 1.
Definition T_FILE : Z := 2.
Definition T_DEVICE : Z := 3.

(** [prev] and [next] are indices into [bcache.buf]; [NBUF] is the list head. *)
Record buf := mkBuf {
  b_valid : Z;
  b_disk : Z;
  b_dev : Z;
  b_blockno : Z;
  b_refcnt : Z;
  b_prev : Z;
  b_next : Z;
  b_data : list Z;
}.

Record superblock := mkSB {
  sb_magic : Z;
  sb_size : Z;
  sb_nblocks : Z;
  sb_ninodes : Z;
  sb_nlog : Z;
  sb_logstart : Z;
  sb_inodestart : Z;
  sb_bmapstart : Z;
}.

Record inode := mkInode {
  i_dev : Z;
  i_inum : Z;
  i_ref : Z;
  i_valid : Z;
  i_type : Z;
  i_major : Z;
  i_minor : Z;
  i_nlink : Z;
  i_size : Z;
  i_addrs : list Z;
}.

Record log_t := mkLog {
  lg_start : Z;
  lg_outstanding : Z;
  lg_committing : Z;
  lg_dev : Z;
  lh_n : Z;
  lh_block : list Z;   (** [lh.block[LOGBLOCKS]] *)
}.

(** ** Field assignment *)

Definition set_p_state (v : procstate) (r : proc) : proc :=
  mkProc v r.(p_chan) r.(p_killed) r.(p_xstate) r.(p_pid) r.(p_parent)
    r.(p_kstack) r.(p_as) r.(p_trapframe) r.(p_context) r.(p_ofile)
    r.(p_cwd) r.(p_mlfq_level) r.(p_mlfq_ticks_used) r.(p_mlfq_stamp)
    r.(p_name).
Definition set_p_chan (v : option chan) (r : proc) : proc :=
  mkProc r.(p_state) v r.(p_killed) r.(p_xstate) r.(p_pid) r.(p_parent)
    r.(p_kstack) r.(p_as) r.(p_trapframe) r.(p_context) r.(p_ofile)
    r.(p_cwd) r.(p_mlfq_level) r.(p_mlfq_ticks_used) r.(p_mlfq_stamp)
    r.(p_name).
Definition set_p_killed (v : Z) (r : proc) : proc :=
  mkProc r.(p_state) r.(p_chan) v r.(p_xstate) r.(p_pid) r.(p_parent)
    r.(p_kstack) r.(p_as) r.(p_trapframe) r.(p_context) r.(p_ofile)
    r.(p_cwd) r.(p_mlfq_level) r.(p_mlfq_ticks_used) r.(p_mlfq_stamp)
    r.(p_name).
Definition set_p_xstate (v : Z) (r : proc) : proc :=
  mkProc r.(p_state) r.(p_chan) r.(p_killed) v r.(p_pid) r.(p_parent)
    r.(p_kstack) r.(p_as) r.(p_trapframe) r.(p_context) r.(p_ofile)
    r.(p_cwd) r.(p_mlfq_level) r.(p_mlfq_ticks_used) r.(p_mlfq_stamp)
    r.(p_name).
Definition set_p_pid (v : Z) (r : proc) : proc :=
  mkProc r.(p_state) r.(p_chan) r.(p_killed) r.(p_xstate) v r.(p_parent)
    r.(p_kstack) r.(p_as) r.(p_trapframe) r.(p_context) r.(p_ofile)
    r.(p_cwd) r.(p_mlfq_level) r.(p_mlfq_ticks_used) r.(p_mlfq_stamp)
    r.(p_name).
Definition set_p_parent (v : option Z) (r : proc) : proc :=
  mkProc r.(p_state) r.(p_chan) r.(p_killed) r.(p_xstate) r.(p_pid) v
    r.(p_kstack) r.(p_as) r.(p_trapframe) r.(p_context) r.(p_ofile)
    r.(p_cwd) r.(p_mlfq_level) r.(p_mlfq_ticks_used) r.(p_mlfq_stamp)
    r.(p_name).
Definition set_p_kstack (v : Z) (r : proc) : proc :=
  mkProc r.(p_state) r.(p_chan) r.(p_killed) r.(p_xstate) r.(p_pid)
    r.(p_parent) v r.(p_as) r.(p_trapframe) r.(p_context) r.(p_ofile)
    r.(p_cwd) r.(p_mlfq_level) r.(p_mlfq_ticks_used) r.(p_mlfq_stamp)
    r.(p_name).
Definition set_p_as (v : addr_space) (r : proc) : proc :=
  mkProc r.(p_state) r.(p_chan) r.(p_killed) r.(p_xstate) r.(p_pid)
    r.(p_parent) r.(p_kstack) v r.(p_trapframe) r.(p_context) r.(p_ofile)
    r.(p_cwd) r.(p_mlfq_level) r.(p_mlfq_ticks_used) r.(p_mlfq_stamp)
    r.(p_name).
Definition set_p_trapframe (v : Z) (r : proc) : proc :=
  mkProc r.(p_state) r.(p_chan) r.(p_killed) r.(p_xstate) r.(p_pid)
    r.(p_parent) r.(p_kstack) r.(p_as) v r.(p_context) r.(p_ofile) r.(p_cwd)
    r.(p_mlfq_level) r.(p_mlfq_ticks_used) r.(p_mlfq_stamp) r.(p_name).
Definition set_p_context (v : context) (r : proc) : proc :=
  mkProc r.(p_state) r.(p_chan) r.(p_killed) r.(p_xstate) r.(p_pid)
    r.(p_parent) r.(p_kstack) r.(p_as) r.(p_trapframe) v r.(p_ofile)
    r.(p_cwd) r.(p_mlfq_level) r.(p_mlfq_ticks_used) r.(p_mlfq_stamp)
    r.(p_name).
Definition set_p_ofile (v : list (option Z)) (r : proc) : proc :=
  mkProc r.(p_state) r.(p_chan) r.(p_killed) r.(p_xstate) r.(p_pid)
    r.(p_parent) r.(p_kstack) r.(p_as) r.(p_trapframe) r.(p_context) v
    r.(p_cwd) r.(p_mlfq_level) r.(p_mlfq_ticks_used) r.(p_mlfq_stamp)
    r.(p_name).
Definition set_p_cwd (v : option Z) (r : proc) : proc :=
  mkProc r.(p_state) r.(p_chan) r.(p_killed) r.(p_xstate) r.(p_pid)
    r.(p_parent) r.(p_kstack) r.(p_as) r.(p_trapframe) r.(p_context)
    r.(p_ofile) v r.(p_mlfq_level) r.(p_mlfq_ticks_used) r.(p_mlfq_stamp)
    r.(p_name).
Definition set_p_mlfq_level (v : Z) (r : proc) : proc :=
  mkProc r.(p_state) r.(p_chan) r.(p_killed) r.(p_xstate) r.(p_pid)
    r.(p_parent) r.(p_kstack) r.(p_as) r.(p_trapframe) r.(p_context)
    r.(p_ofile) r.(p_cwd) v r.(p_mlfq_ticks_used) r.(p_mlfq_stamp)
    r.(p_name).
Definition set_p_mlfq_ticks_used (v : Z) (r : proc) : proc :=
  mkProc r.(p_state) r.(p_chan) r.(p_killed) r.(p_xstate) r.(p_pid)
    r.(p_parent) r.(p_kstack) r.(p_as) r.(p_trapframe) r.(p_context)
    r.(p_ofile) r.(p_cwd) r.(p_mlfq_level) v r.(p_mlfq_stamp) r.(p_name).
Definition set_p_mlfq_stamp (v : Z) (r : proc) : proc :=
  mkProc r.(p_state) r.(p_chan) r.(p_killed) r.(p_xstate) r.(p_pid)
    r.(p_parent) r.(p_kstack) r.(p_as) r.(p_trapframe) r.(p_context)
    r.(p_ofile) r.(p_cwd) r.(p_mlfq_level) r.(p_mlfq_ticks_used) v
    r.(p_name).
Definition set_p_name (v : list Z) (r : proc) : proc :=
  mkProc r.(p_state) r.(p_chan) r.(p_killed) r.(p_xstate) r.(p_pid)
    r.(p_parent) r.(p_kstack) r.(p_as) r.(p_trapframe) r.(p_context)
    r.(p_ofile) r.(p_cwd) r.(p_mlfq_level) r.(p_mlfq_ticks_used)
    r.(p_mlfq_stamp) v.

Definition set_initproc (v : option Z) (r : ptab) : ptab :=
  mkPtab v r.(nextpid) r.(mlfq_seq) r.(mlfq_need_boost).
Definition set_nextpid (v : Z) (r : ptab) : ptab :=
  mkPtab r.(initproc) v r.(mlfq_seq) r.(mlfq_need_boost).
Definition set_mlfq_seq (v : Z) (r : ptab) : ptab :=
  mkPtab r.(initproc) r.(nextpid) v r.(mlfq_need_boost).
Definition set_mlfq_need_boost (v : Z) (r : ptab) : ptab :=
  mkPtab r.(initproc) r.(nextpid) r.(mlfq_seq) v.

Definition set_f_type (v : ftype) (r : file) : file :=
  mkFile v r.(f_ref) r.(f_readable) r.(f_writable) r.(f_pipe) r.(f_sem)
    r.(f_ip) r.(f_off) r.(f_major).
Definition set_f_ref (v : Z) (r : file) : file :=
  mkFile r.(f_type) v r.(f_readable) r.(f_writable) r.(f_pipe) r.(f_sem)
    r.(f_ip) r.(f_off) r.(f_major).
Definition set_f_readable (v : Z) (r : file) : file :=
  mkFile r.(f_type) r.(f_ref) v r.(f_writable) r.(f_pipe) r.(f_sem) r.(f_ip)
    r.(f_off) r.(f_major).
Definition set_f_writable (v : Z) (r : file) : file :=
  mkFile r.(f_type) r.(f_ref) r.(f_readable) v r.(f_pipe) r.(f_sem) r.(f_ip)
    r.(f_off) r.(f_major).
Definition set_f_pipe (v : Z) (r : file) : file :=
  mkFile r.(f_type) r.(f_ref) r.(f_readable) r.(f_writable) v r.(f_sem)
    r.(f_ip) r.(f_off) r.(f_major).
Definition set_f_sem (v : Z) (r : file) : file :=
  mkFile r.(f_type) r.(f_ref) r.(f_readable) r.(f_writable) r.(f_pipe) v
    r.(f_ip) r.(f_off) r.(f_major).
Definition set_f_ip (v : option Z) (r : file) : file :=
  mkFile r.(f_type) r.(f_ref) r.(f_readable) r.(f_writable) r.(f_pipe)
    r.(f_sem) v r.(f_off) r.(f_major).
Definition set_f_off (v : Z) (r : file) : file :=
  mkFile r.(f_type) r.(f_ref) r.(f_readable) r.(f_writable) r.(f_pipe)
    r.(f_sem) r.(f_ip) v r.(f_major).
Definition set_f_major (v : Z) (r : file) : file :=
  mkFile r.(f_type) r.(f_ref) r.(f_readable) r.(f_writable) r.(f_pipe)
    r.(f_sem) r.(f_ip) r.(f_off) v.

Definition set_pi_data (v : gmap Z Z) (r : pipe) : pipe :=
  mkPipe v r.(pi_nread) r.(pi_nwrite) r.(pi_readopen) r.(pi_writeopen).
Definition set_pi_nread (v : Z) (r : pipe) : pipe :=
  mkPipe r.(pi_data) v r.(pi_nwrite) r.(pi_readopen) r.(pi_writeopen).
Definition set_pi_nwrite (v : Z) (r : pipe) : pipe :=
  mkPipe r.(pi_data) r.(pi_nread) v r.(pi_readopen) r.(pi_writeopen).
Definition set_pi_readopen (v : Z) (r : pipe) : pipe :=
  mkPipe r.(pi_data) r.(pi_nread) r.(pi_nwrite) v r.(pi_writeopen).
Definition set_pi_writeopen (v : Z) (r : pipe) : pipe :=
  mkPipe r.(pi_data) r.(pi_nread) r.(pi_nwrite) r.(pi_readopen) v.

Definition set_sem_value (v : Z) (r : semaphore) : semaphore :=
  mkSem v r.(sem_ref_count) r.(sem_destroyed).
Definition set_sem_ref_count (v : Z) (r : semaphore) : semaphore :=
  mkSem r.(sem_value) v r.(sem_destroyed).
Definition set_sem_destroyed (v : Z) (r : semaphore) : semaphore :=
  mkSem r.(sem_value) r.(sem_ref_count) v.

Definition set_cons_buf (v : gmap Z Z) (r : cons_t) : cons_t :=
  mkCons v r.(cons_r) r.(cons_w) r.(cons_e).
Definition set_cons_r (v : Z) (r : cons_t) : cons_t :=
  mkCons r.(cons_buf) v r.(cons_w) r.(cons_e).
Definition set_cons_w (v : Z) (r : cons_t) : cons_t :=
  mkCons r.(cons_buf) r.(cons_r) v r.(cons_e).
Definition set_cons_e (v : Z) (r : cons_t) : cons_t :=
  mkCons r.(cons_buf) r.(cons_r) r.(cons_w) v.

Definition set_u_out (v : list Z) (r : uart_t) : uart_t :=
  mkUart v r.(u_in) r.(u_tx_busy).
Definition set_u_in (v : list Z) (r : uart_t) : uart_t :=
  mkUart r.(u_out) v r.(u_tx_busy).
Definition set_u_tx_busy (v : Z) (r : uart_t) : uart_t :=
  mkUart r.(u_out) r.(u_in) v.

Definition set_b_valid (v : Z) (r : buf) : buf :=
  mkBuf v r.(b_disk) r.(b_dev) r.(b_blockno) r.(b_refcnt) r.(b_prev)
    r.(b_next) r.(b_data).
Definition set_b_disk (v : Z) (r : buf) : buf :=
  mkBuf r.(b_valid) v r.(b_dev) r.(b_blockno) r.(b_refcnt) r.(b_prev)
    r.(b_next) r.(b_data).
Definition set_b_dev (v : Z) (r : buf) : buf :=
  mkBuf r.(b_valid) r.(b_disk) v r.(b_blockno) r.(b_refcnt) r.(b_prev)
    r.(b_next) r.(b_data).
Definition set_b_blockno (v : Z) (r : buf) : buf :=
  mkBuf r.(b_valid) r.(b_disk) r.(b_dev) v r.(b_refcnt) r.(b_prev)
    r.(b_next) r.(b_data).
Definition set_b_refcnt (v : Z) (r : buf) : buf :=
  mkBuf r.(b_valid) r.(b_disk) r.(b_dev) r.(b_blockno) v r.(b_prev)
    r.(b_next) r.(b_data).
Definition set_b_prev (v : Z) (r : buf) : buf :=
  mkBuf r.(b_valid) r.(b_disk) r.(b_dev) r.(b_blockno) r.(b_refcnt) v
    r.(b_next) r.(b_data).
Definition set_b_next (v : Z) (r : buf) : buf :=
  mkBuf r.(b_valid) r.(b_disk) r.(b_dev) r.(b_blockno) r.(b_refcnt)
    r.(b_prev) v r.(b_data).
Definition set_b_data (v : list Z) (r : buf) : buf :=
  mkBuf r.(b_valid) r.(b_disk) r.(b_dev) r.(b_blockno) r.(b_refcnt)
    r.(b_prev) r.(b_next) v.

Definition set_i_dev (v : Z) (r : inode) : inode :=
  mkInode v r.(i_inum) r.(i_ref) r.(i_valid) r.(i_type) r.(i_major)
    r.(i_minor) r.(i_nlink) r.(i_size) r.(i_addrs).
Definition set_i_inum (v : Z) (r : inode) : inode :=
  mkInode r.(i_dev) v r.(i_ref) r.(i_valid) r.(i_type) r.(i_major)
    r.(i_minor) r.(i_nlink) r.(i_size) r.(i_addrs).
Definition set_i_ref (v : Z) (r : inode) : inode :=
  mkInode r.(i_dev) r.(i_inum) v r.(i_valid) r.(i_type) r.(i_major)
    r.(i_minor) r.(i_nlink) r.(i_size) r.(i_addrs).
Definition set_i_valid (v : Z) (r : inode) : inode :=
  mkInode r.(i_dev) r.(i_inum) r.(i_ref) v r.(i_type) r.(i_major)
    r.(i_minor) r.(i_nlink) r.(i_size) r.(i_addrs).
Definition set_i_type (v : Z) (r : inode) : inode :=
  mkInode r.(i_dev) r.(i_inum) r.(i_ref) r.(i_valid) v r.(i_major)
    r.(i_minor) r.(i_nlink) r.(i_size) r.(i_addrs).
Definition set_i_major (v : Z) (r : inode) : inode :=
  mkInode r.(i_dev) r.(i_inum) r.(i_ref) r.(i_valid) r.(i_type) v
    r.(i_minor) r.(i_nlink) r.(i_size) r.(i_addrs).
Definition set_i_minor (v : Z) (r : inode) : inode :=
  mkInode r.(i_dev) r.(i_inum) r.(i_ref) r.(i_valid) r.(i_type) r.(i_major)
    v r.(i_nlink) r.(i_size) r.(i_addrs).
Definition set_i_nlink (v : Z) (r : inode) : inode :=
  mkInode r.(i_dev) r.(i_inum) r.(i_ref) r.(i_valid) r.(i_type) r.(i_major)
    r.(i_minor) v r.(i_size) r.(i_addrs).
Definition set_i_size (v : Z) (r : inode) : inode :=
  mkInode r.(i_dev) r.(i_inum) r.(i_ref) r.(i_valid) r.(i_type) r.(i_major)
    r.(i_minor) r.(i_nlink) v r.(i_addrs).
Definition set_i_addrs (v : list Z) (r : inode) : inode :=
  mkInode r.(i_dev) r.(i_inum) r.(i_ref) r.(i_valid) r.(i_type) r.(i_major)
    r.(i_minor) r.(i_nlink) r.(i_size) v.

Definition set_lg_start (v : Z) (r : log_t) : log_t :=
  mkLog v r.(lg_outstanding) r.(lg_committing) r.(lg_dev) r.(lh_n)
    r.(lh_block).
Definition set_lg_outstanding (v : Z) (r : log_t) : log_t :=
  mkLog r.(lg_start) v r.(lg_committing) r.(lg_dev) r.(lh_n) r.(lh_block).
Definition set_lg_committing (v : Z) (r : log_t) : log_t :=
  mkLog r.(lg_start) r.(lg_outstanding) v r.(lg_dev) r.(lh_n) r.(lh_block).
Definition set_lg_dev (v : Z) (r : log_t) : log_t :=
  mkLog r.(lg_start) r.(lg_outstanding) r.(lg_committing) v r.(lh_n)
    r.(lh_block).
Definition set_lh_n (v : Z) (r : log_t) : log_t :=
  mkLog r.(lg_start) r.(lg_outstanding) r.(lg_committing) r.(lg_dev) v
    r.(lh_block).
Definition set_lh_block (v : list Z) (r : log_t) : log_t :=
  mkLog r.(lg_start) r.(lg_outstanding) r.(lg_committing) r.(lg_dev)
    r.(lh_n) v.

Definition set_pagetable (v : Z) (r : addr_space) : addr_space :=
  mkAS v r.(regions) r.(region_count).
Definition set_regions (v : list mem_region) (r : addr_space) : addr_space :=
  mkAS r.(pagetable) v r.(region_count).
Definition set_region_count (v : Z) (r : addr_space) : addr_space :=
  mkAS r.(pagetable) r.(regions) v.

(** ** virtio.h and [struct disk] of virtio_disk.c

    The three pages of the queue hold arrays of structures; the addresses a
    descriptor can carry are those of a command header, of a buffer's data and
    of a status byte. *)
Definition NUM : Z := 8.
Definition VRING_DESC_F_NEXT : Z := 1.
Definition VRING_DESC_F_WRITE : Z := 2.
Definition VIRTIO_BLK_T_IN : Z := 0.
Definition VIRTIO_BLK_T_OUT : Z := 1.

Inductive dma :=
| DNull
| DReq (i : Z)      (** [&disk.ops[i]] *)
| DData (b : Z)     (** [b->data] *)
| DStatus (i : Z).  (** [&disk.info[i].status] *)
#[export] Instance dma_eq_dec : EqDecision dma.
Proof. solve_decision. Defined.

Record virtq_desc := mkDesc {
  d_addr : dma;
  d_len : Z;
  d_flags : Z;
  d_next : Z;
}.
Record virtio_blk_req := mkReq {
  rq_type : Z;
  rq_reserved : Z;
  rq_sector : Z;
}.
(** [disk.info[i]]: the buffer of the request, a null pointer or an index. *)
Record vinfo := mkInfo {
  in_b : option Z;
  in_status : Z;
}.
Record vdisk := mkVdisk {
  vd_pages : Z * Z * Z;          (** [disk.desc], [disk.avail], [disk.used] *)
  vd_desc : list virtq_desc;     (** [disk.desc[NUM]] *)
  vd_avail_idx : Z;              (** [disk.avail->idx] *)
  vd_avail_ring : list Z;        (** [disk.avail->ring] *)
  vd_used_dev : Z;               (** [disk.used->idx], written by the device *)
  vd_used_ring : list Z;         (** [disk.used->ring[].id] *)
  vd_free : list Z;
  vd_used_idx : Z;
  vd_info : list vinfo;
  vd_ops : list virtio_blk_req;
  vd_mmio : list (Z * Z);        (** register writes so far *)
}.

Definition set_vd_pages (v : Z * Z * Z) (r : vdisk) : vdisk :=
  mkVdisk v r.(vd_desc) r.(vd_avail_idx) r.(vd_avail_ring) r.(vd_used_dev)
    r.(vd_used_ring) r.(vd_free) r.(vd_used_idx) r.(vd_info) r.(vd_ops)
    r.(vd_mmio).
Definition set_vd_desc (v : list virtq_desc) (r : vdisk) : vdisk :=
  mkVdisk r.(vd_pages) v r.(vd_avail_idx) r.(vd_avail_ring) r.(vd_used_dev)
    r.(vd_used_ring) r.(vd_free) r.(vd_used_idx) r.(vd_info) r.(vd_ops)
    r.(vd_mmio).
Definition set_vd_avail_idx (v : Z) (r : vdisk) : vdisk :=
  mkVdisk r.(vd_pages) r.(vd_desc) v r.(vd_avail_ring) r.(vd_used_dev)
    r.(vd_used_ring) r.(vd_free) r.(vd_used_idx) r.(vd_info) r.(vd_ops)
    r.(vd_mmio).
Definition set_vd_avail_ring (v : list Z) (r : vdisk) : vdisk :=
  mkVdisk r.(vd_pages) r.(vd_desc) r.(vd_avail_idx) v r.(vd_used_dev)
    r.(vd_used_ring) r.(vd_free) r.(vd_used_idx) r.(vd_info) r.(vd_ops)
    r.(vd_mmio).
Definition set_vd_used_dev (v : Z) (r : vdisk) : vdisk :=
  mkVdisk r.(vd_pages) r.(vd_desc) r.(vd_avail_idx) r.(vd_avail_ring) v
    r.(vd_used_ring) r.(vd_free) r.(vd_used_idx) r.(vd_info) r.(vd_ops)
    r.(vd_mmio).
Definition set_vd_used_ring (v : list Z) (r : vdisk) : vdisk :=
  mkVdisk r.(vd_pages) r.(vd_desc) r.(vd_avail_idx) r.(vd_avail_ring)
    r.(vd_used_dev) v r.(vd_free) r.(vd_used_idx) r.(vd_info) r.(vd_ops)
    r.(vd_mmio).
Definition set_vd_free (v : list Z) (r : vdisk) : vdisk :=
  mkVdisk r.(vd_pages) r.(vd_desc) r.(vd_avail_idx) r.(vd_avail_ring)
    r.(vd_used_dev) r.(vd_used_ring) v r.(vd_used_idx) r.(vd_info)
    r.(vd_ops) r.(vd_mmio).
Definition set_vd_used_idx (v : Z) (r : vdisk) : vdisk :=
  mkVdisk r.(vd_pages) r.(vd_desc) r.(vd_avail_idx) r.(vd_avail_ring)
    r.(vd_used_dev) r.(vd_used_ring) r.(vd_free) v r.(vd_info) r.(vd_ops)
    r.(vd_mmio).
Definition set_vd_info (v : list vinfo) (r : vdisk) : vdisk :=
  mkVdisk r.(vd_pages) r.(vd_desc) r.(vd_avail_idx) r.(vd_avail_ring)
    r.(vd_used_dev) r.(vd_used_ring) r.(vd_free) r.(vd_used_idx) v
    r.(vd_ops) r.(vd_mmio).
Definition set_vd_ops (v : list virtio_blk_req) (r : vdisk) : vdisk :=
  mkVdisk r.(vd_pages) r.(vd_desc) r.(vd_avail_idx) r.(vd_avail_ring)
    r.(vd_used_dev) r.(vd_used_ring) r.(vd_free) r.(vd_used_idx) r.(vd_info)
    v r.(vd_mmio).
Definition set_vd_mmio (v : list (Z * Z)) (r : vdisk) : vdisk :=
  mkVdisk r.(vd_pages) r.(vd_desc) r.(vd_avail_idx) r.(vd_avail_ring)
    r.(vd_used_dev) r.(vd_used_ring) r.(vd_free) r.(vd_used_idx) r.(vd_info)
    r.(vd_ops) v.

(** The disk: its contents at boot and the block writes since, oldest first.
    A block write is atomic; a crash keeps some prefix of the writes. *)
Record disk_t := mkDisk {
  d_init : gmap Z (list Z);
  d_writes : list (Z * list Z);
}.
Fixpoint disk_apply (m : gmap Z (list Z)) (ws : list (Z * list Z)) : gmap Z (list Z) :=
  match ws with
  | [] => m
  | (b, bs) :: ws' => disk_apply (<[b := bs]> m) ws'
  end.
Definition zero_block : list Z := replicate (Z.to_nat BSIZE) 0.
(** Content of block [b]. *)
Definition disk_block (d : disk_t) (b : Z) : list Z :=
  default zero_block (disk_apply d.(d_init) d.(d_writes) !! b).
Definition disk_write (b : Z) (bs : list Z) (d : disk_t) : disk_t :=
  mkDisk d.(d_init) (d.(d_writes) ++ [(b, bs)]).

(** ** The kernel state *)

Record kstate := mkK {
  k_cpu : cpu;  (** [bootcpu] *)
  k_csr : csrs;  (** control and status registers *)
  k_locks : gmap lockid spinlock;  (** every [struct spinlock] *)
  k_mem : mem;  (** physical memory *)
  k_kmem : kmem_t;  (** [kmem] and [page_state] of kalloc.c *)
  k_procs : list proc;  (** [proc[NPROC]] *)
  k_ptab : ptab;  (** the globals of taskmgr.c *)
  k_ftable : list file;  (** [ftable.file] *)
  k_pipes : gmap Z pipe;  (** the pipe in each page [pipealloc] took *)
  k_sems : gmap Z semaphore;  (** the semaphore in each page [sem_alloc] took *)
  k_ticks : Z;  (** [ticks] of irqtrap.c *)
  k_cons : cons_t;  (** [cons] of console.c *)
  k_uart : uart_t;  (** the UART *)
  k_sleep : gmap lockid sleeplock;  (** every [struct sleeplock] *)
  k_bufs : list buf;  (** [bcache.buf], then [bcache.head] *)
  k_sb : superblock;  (** [sb] of fs.c *)
  k_inodes : list inode;  (** [itable.inode] *)
  k_log : log_t;  (** [log] of log.c *)
  k_disk : disk_t;  (** the disk *)
  k_kpt : Z;  (** [kernel_pagetable] *)
  k_aslr : Z;  (** [aslr_state] of loader_exec.c *)
  k_first : Z;  (** [first] of forkret *)
  k_vdisk : vdisk;  (** [disk] of virtio_disk.c *)
}.

Definition set_cpu (v : cpu) (s : kstate) : kstate :=
  mkK v s.(k_csr) s.(k_locks) s.(k_mem) s.(k_kmem) s.(k_procs) s.(k_ptab)
    s.(k_ftable) s.(k_pipes) s.(k_sems) s.(k_ticks) s.(k_cons) s.(k_uart)
    s.(k_sleep) s.(k_bufs) s.(k_sb) s.(k_inodes) s.(k_log) s.(k_disk)
    s.(k_kpt) s.(k_aslr) s.(k_first) s.(k_vdisk).
Definition set_csr (v : csrs) (s : kstate) : kstate :=
  mkK s.(k_cpu) v s.(k_locks) s.(k_mem) s.(k_kmem) s.(k_procs) s.(k_ptab)
    s.(k_ftable) s.(k_pipes) s.(k_sems) s.(k_ticks) s.(k_cons) s.(k_uart)
    s.(k_sleep) s.(k_bufs) s.(k_sb) s.(k_inodes) s.(k_log) s.(k_disk)
    s.(k_kpt) s.(k_aslr) s.(k_first) s.(k_vdisk).
Definition set_locks (v : gmap lockid spinlock) (s : kstate) : kstate :=
  mkK s.(k_cpu) s.(k_csr) v s.(k_mem) s.(k_kmem) s.(k_procs) s.(k_ptab)
    s.(k_ftable) s.(k_pipes) s.(k_sems) s.(k_ticks) s.(k_cons) s.(k_uart)
    s.(k_sleep) s.(k_bufs) s.(k_sb) s.(k_inodes) s.(k_log) s.(k_disk)
    s.(k_kpt) s.(k_aslr) s.(k_first) s.(k_vdisk).
Definition set_mem (v : mem) (s : kstate) : kstate :=
  mkK s.(k_cpu) s.(k_csr) s.(k_locks) v s.(k_kmem) s.(k_procs) s.(k_ptab)
    s.(k_ftable) s.(k_pipes) s.(k_sems) s.(k_ticks) s.(k_cons) s.(k_uart)
    s.(k_sleep) s.(k_bufs) s.(k_sb) s.(k_inodes) s.(k_log) s.(k_disk)
    s.(k_kpt) s.(k_aslr) s.(k_first) s.(k_vdisk).
Definition set_kmem (v : kmem_t) (s : kstate) : kstate :=
  mkK s.(k_cpu) s.(k_csr) s.(k_locks) s.(k_mem) v s.(k_procs) s.(k_ptab)
    s.(k_ftable) s.(k_pipes) s.(k_sems) s.(k_ticks) s.(k_cons) s.(k_uart)
    s.(k_sleep) s.(k_bufs) s.(k_sb) s.(k_inodes) s.(k_log) s.(k_disk)
    s.(k_kpt) s.(k_aslr) s.(k_first) s.(k_vdisk).
Definition set_procs (v : list proc) (s : kstate) : kstate :=
  mkK s.(k_cpu) s.(k_csr) s.(k_locks) s.(k_mem) s.(k_kmem) v s.(k_ptab)
    s.(k_ftable) s.(k_pipes) s.(k_sems) s.(k_ticks) s.(k_cons) s.(k_uart)
    s.(k_sleep) s.(k_bufs) s.(k_sb) s.(k_inodes) s.(k_log) s.(k_disk)
    s.(k_kpt) s.(k_aslr) s.(k_first) s.(k_vdisk).
Definition set_ptab (v : ptab) (s : kstate) : kstate :=
  mkK s.(k_cpu) s.(k_csr) s.(k_locks) s.(k_mem) s.(k_kmem) s.(k_procs) v
    s.(k_ftable) s.(k_pipes) s.(k_sems) s.(k_ticks) s.(k_cons) s.(k_uart)
    s.(k_sleep) s.(k_bufs) s.(k_sb) s.(k_inodes) s.(k_log) s.(k_disk)
    s.(k_kpt) s.(k_aslr) s.(k_first) s.(k_vdisk).
Definition set_ftable (v : list file) (s : kstate) : kstate :=
  mkK s.(k_cpu) s.(k_csr) s.(k_locks) s.(k_mem) s.(k_kmem) s.(k_procs)
    s.(k_ptab) v s.(k_pipes) s.(k_sems) s.(k_ticks) s.(k_cons) s.(k_uart)
    s.(k_sleep) s.(k_bufs) s.(k_sb) s.(k_inodes) s.(k_log) s.(k_disk)
    s.(k_kpt) s.(k_aslr) s.(k_first) s.(k_vdisk).
Definition set_pipes (v : gmap Z pipe) (s : kstate) : kstate :=
  mkK s.(k_cpu) s.(k_csr) s.(k_locks) s.(k_mem) s.(k_kmem) s.(k_procs)
    s.(k_ptab) s.(k_ftable) v s.(k_sems) s.(k_ticks) s.(k_cons) s.(k_uart)
    s.(k_sleep) s.(k_bufs) s.(k_sb) s.(k_inodes) s.(k_log) s.(k_disk)
    s.(k_kpt) s.(k_aslr) s.(k_first) s.(k_vdisk).
Definition set_sems (v : gmap Z semaphore) (s : kstate) : kstate :=
  mkK s.(k_cpu) s.(k_csr) s.(k_locks) s.(k_mem) s.(k_kmem) s.(k_procs)
    s.(k_ptab) s.(k_ftable) s.(k_pipes) v s.(k_ticks) s.(k_cons)
    s.(k_uart) s.(k_sleep) s.(k_bufs) s.(k_sb) s.(k_inodes) s.(k_log)
    s.(k_disk) s.(k_kpt) s.(k_aslr) s.(k_first) s.(k_vdisk).
Definition set_ticks (v : Z) (s : kstate) : kstate :=
  mkK s.(k_cpu) s.(k_csr) s.(k_locks) s.(k_mem) s.(k_kmem) s.(k_procs)
    s.(k_ptab) s.(k_ftable) s.(k_pipes) s.(k_sems) v s.(k_cons) s.(k_uart)
    s.(k_sleep) s.(k_bufs) s.(k_sb) s.(k_inodes) s.(k_log) s.(k_disk)
    s.(k_kpt) s.(k_aslr) s.(k_first) s.(k_vdisk).
Definition set_cons (v : cons_t) (s : kstate) : kstate :=
  mkK s.(k_cpu) s.(k_csr) s.(k_locks) s.(k_mem) s.(k_kmem) s.(k_procs)
    s.(k_ptab) s.(k_ftable) s.(k_pipes) s.(k_sems) s.(k_ticks) v
    s.(k_uart) s.(k_sleep) s.(k_bufs) s.(k_sb) s.(k_inodes) s.(k_log)
    s.(k_disk) s.(k_kpt) s.(k_aslr) s.(k_first) s.(k_vdisk).
Definition set_uart (v : uart_t) (s : kstate) : kstate :=
  mkK s.(k_cpu) s.(k_csr) s.(k_locks) s.(k_mem) s.(k_kmem) s.(k_procs)
    s.(k_ptab) s.(k_ftable) s.(k_pipes) s.(k_sems) s.(k_ticks) s.(k_cons)
    v s.(k_sleep) s.(k_bufs) s.(k_sb) s.(k_inodes) s.(k_log) s.(k_disk)
    s.(k_kpt) s.(k_aslr) s.(k_first) s.(k_vdisk).
Definition set_sleep (v : gmap lockid sleeplock) (s : kstate) : kstate :=
  mkK s.(k_cpu) s.(k_csr) s.(k_locks) s.(k_mem) s.(k_kmem) s.(k_procs)
    s.(k_ptab) s.(k_ftable) s.(k_pipes) s.(k_sems) s.(k_ticks) s.(k_cons)
    s.(k_uart) v s.(k_bufs) s.(k_sb) s.(k_inodes) s.(k_log) s.(k_disk)
    s.(k_kpt) s.(k_aslr) s.(k_first) s.(k_vdisk).
Definition set_bufs (v : list buf) (s : kstate) : kstate :=
  mkK s.(k_cpu) s.(k_csr) s.(k_locks) s.(k_mem) s.(k_kmem) s.(k_procs)
    s.(k_ptab) s.(k_ftable) s.(k_pipes) s.(k_sems) s.(k_ticks) s.(k_cons)
    s.(k_uart) s.(k_sleep) v s.(k_sb) s.(k_inodes) s.(k_log) s.(k_disk)
    s.(k_kpt) s.(k_aslr) s.(k_first) s.(k_vdisk).
Definition set_sb (v : superblock) (s : kstate) : kstate :=
  mkK s.(k_cpu) s.(k_csr) s.(k_locks) s.(k_mem) s.(k_kmem) s.(k_procs)
    s.(k_ptab) s.(k_ftable) s.(k_pipes) s.(k_sems) s.(k_ticks) s.(k_cons)
    s.(k_uart) s.(k_sleep) s.(k_bufs) v s.(k_inodes) s.(k_log) s.(k_disk)
    s.(k_kpt) s.(k_aslr) s.(k_first) s.(k_vdisk).
Definition set_inodes (v : list inode) (s : kstate) : kstate :=
  mkK s.(k_cpu) s.(k_csr) s.(k_locks) s.(k_mem) s.(k_kmem) s.(k_procs)
    s.(k_ptab) s.(k_ftable) s.(k_pipes) s.(k_sems) s.(k_ticks) s.(k_cons)
    s.(k_uart) s.(k_sleep) s.(k_bufs) s.(k_sb) v s.(k_log) s.(k_disk)
    s.(k_kpt) s.(k_aslr) s.(k_first) s.(k_vdisk).
Definition set_log (v : log_t) (s : kstate) : kstate :=
  mkK s.(k_cpu) s.(k_csr) s.(k_locks) s.(k_mem) s.(k_kmem) s.(k_procs)
    s.(k_ptab) s.(k_ftable) s.(k_pipes) s.(k_sems) s.(k_ticks) s.(k_cons)
    s.(k_uart) s.(k_sleep) s.(k_bufs) s.(k_sb) s.(k_inodes) v s.(k_disk)
    s.(k_kpt) s.(k_aslr) s.(k_first) s.(k_vdisk).
Definition set_disk (v : disk_t) (s : kstate) : kstate :=
  mkK s.(k_cpu) s.(k_csr) s.(k_locks) s.(k_mem) s.(k_kmem) s.(k_procs)
    s.(k_ptab) s.(k_ftable) s.(k_pipes) s.(k_sems) s.(k_ticks) s.(k_cons)
    s.(k_uart) s.(k_sleep) s.(k_bufs) s.(k_sb) s.(k_inodes) s.(k_log) v
    s.(k_kpt) s.(k_aslr) s.(k_first) s.(k_vdisk).
Definition set_kpt (v : Z) (s : kstate) : kstate :=
  mkK s.(k_cpu) s.(k_csr) s.(k_locks) s.(k_mem) s.(k_kmem) s.(k_procs)
    s.(k_ptab) s.(k_ftable) s.(k_pipes) s.(k_sems) s.(k_ticks) s.(k_cons)
    s.(k_uart) s.(k_sleep) s.(k_bufs) s.(k_sb) s.(k_inodes) s.(k_log)
    s.(k_disk) v s.(k_aslr) s.(k_first) s.(k_vdisk).
Definition set_aslr (v : Z) (s : kstate) : kstate :=
  mkK s.(k_cpu) s.(k_csr) s.(k_locks) s.(k_mem) s.(k_kmem) s.(k_procs)
    s.(k_ptab) s.(k_ftable) s.(k_pipes) s.(k_sems) s.(k_ticks) s.(k_cons)
    s.(k_uart) s.(k_sleep) s.(k_bufs) s.(k_sb) s.(k_inodes) s.(k_log)
    s.(k_disk) s.(k_kpt) v s.(k_first) s.(k_vdisk).
Definition set_first (v : Z) (s : kstate) : kstate :=
  mkK s.(k_cpu) s.(k_csr) s.(k_locks) s.(k_mem) s.(k_kmem) s.(k_procs)
    s.(k_ptab) s.(k_ftable) s.(k_pipes) s.(k_sems) s.(k_ticks) s.(k_cons)
    s.(k_uart) s.(k_sleep) s.(k_bufs) s.(k_sb) s.(k_inodes) s.(k_log)
    s.(k_disk) s.(k_kpt) s.(k_aslr) v s.(k_vdisk).
Definition set_vdisk (v : vdisk) (s : kstate) : kstate :=
  mkK s.(k_cpu) s.(k_csr) s.(k_locks) s.(k_mem) s.(k_kmem) s.(k_procs)
    s.(k_ptab) s.(k_ftable) s.(k_pipes) s.(k_sems) s.(k_ticks) s.(k_cons)
    s.(k_uart) s.(k_sleep) s.(k_bufs) s.(k_sb) s.(k_inodes) s.(k_log)
    s.(k_disk) s.(k_kpt) s.(k_aslr) s.(k_first) v.

Abbreviation K := (M kstate).

(** Access to a C array kept as a finite map, zero where never written. *)
Definition aget (m : gmap Z Z) (i : Z) : Z := default 0 (m !! i).

(** [f] applied in place: read, compute, write back. *)
Definition upd_cpu (f : cpu -> cpu) : K unit :=
  modify (fun s => set_cpu (f s.(k_cpu)) s).
Definition upd_csr (f : csrs -> csrs) : K unit :=
  modify (fun s => set_csr (f s.(k_csr)) s).
Definition upd_mem (f : mem -> mem) : K unit :=
  modify (fun s => set_mem (f s.(k_mem)) s).
Definition upd_kmem (f : kmem_t -> kmem_t) : K unit :=
  modify (fun s => set_kmem (f s.(k_kmem)) s).

Definition set_free_areas v (k : kmem_t) := mkKmem v k.(refcnt) k.(page_state).
Definition set_refcnt v (k : kmem_t) := mkKmem k.(free_areas) v k.(page_state).
Definition set_page_state v (k : kmem_t) := mkKmem k.(free_areas) k.(refcnt) v.

Definition set_sstatus v (c : csrs) :=
  mkCsrs v c.(r_sepc) c.(r_scause) c.(r_stval) c.(r_stvec) c.(r_satp)
    c.(r_time) c.(r_stimecmp).

Definition upd_ptab (f : ptab -> ptab) : K unit :=
  modify (fun s => set_ptab (f s.(k_ptab)) s).
Definition upd_cons (f : cons_t -> cons_t) : K unit :=
  modify (fun s => set_cons (f s.(k_cons)) s).
Definition upd_uart (f : uart_t -> uart_t) : K unit :=
  modify (fun s => set_uart (f s.(k_uart)) s).
Definition upd_vdisk (f : vdisk -> vdisk) : K unit :=
  modify (fun s => set_vdisk (f s.(k_vdisk)) s).
Definition upd_log (f : log_t -> log_t) : K unit :=
  modify (fun s => set_log (f s.(k_log)) s).

(** [a[i]] of a statically allocated array; outside it, undefined behaviour. *)
Definition get_elt {A} (arr : kstate -> list A) (i : Z) : K A :=
  fun s => match (if 0 <=? i then arr s !! Z.to_nat i else None) with
           | Some x => Ok x s
           | None => Stop (Undefined "array index")
           end.
Definition upd_elt {A} (arr : kstate -> list A) (set : list A -> kstate -> kstate)
    (i : Z) (f : A -> A) : K unit :=
  fun s => match (if 0 <=? i then arr s !! Z.to_nat i else None) with
           | Some x => Ok tt (set (<[Z.to_nat i := f x]> (arr s)) s)
           | None => Stop (Undefined "array index")
           end.

Definition get_proc : Z -> K proc := get_elt k_procs.
Definition upd_proc : Z -> (proc -> proc) -> K unit := upd_elt k_procs set_procs.
Definition get_file : Z -> K file := get_elt k_ftable.
Definition upd_file : Z -> (file -> file) -> K unit := upd_elt k_ftable set_ftable.
Definition get_buf : Z -> K buf := get_elt k_bufs.
Definition upd_buf : Z -> (buf -> buf) -> K unit := upd_elt k_bufs set_bufs.
Definition get_inode : Z -> K inode := get_elt k_inodes.
Definition upd_inode : Z -> (inode -> inode) -> K unit := upd_elt k_inodes set_inodes.

(** Bound on the rounds of a loop that waits for a condition in [sleep]. *)
Class WaitFuel := wait_fuel : nat.

(** [while(cond) body;] where [body] sleeps: at most [fuel] rounds. *)
Fixpoint while_wait (fuel : nat) (cond : K bool) (body : K unit) : K unit :=
  match fuel with
  | O => nofuel
  | S f => c <- cond ;; if (c : bool) then body ;; while_wait f cond body else ret tt
  end.

(** ** The state at boot: every global zeroed, initialised ones as declared *)

Definition zero_proc : proc :=
  mkProc UNUSED None 0 0 0 None 0 zero_as 0 zero_context
    (replicate (Z.to_nat NOFILE) None) None 0 0 0 (replicate 16 0).
Definition zero_file : file := mkFile FD_NONE 0 0 0 0 0 None 0 0.
Definition zero_buf : buf := mkBuf 0 0 0 0 0 0 0 (replicate (Z.to_nat BSIZE) 0).
Definition zero_inode : inode := mkInode 0 0 0 0 0 0 0 0 0 (replicate 13 0).
Definition zero_desc : virtq_desc := mkDesc DNull 0 0 0.
Definition zero_vdisk : vdisk :=
  mkVdisk (0, 0, 0) (replicate (Z.to_nat NUM) zero_desc) 0 (replicate (Z.to_nat NUM) 0) 0
    (replicate (Z.to_nat NUM) 0) (replicate (Z.to_nat NUM) 0) 0
    (replicate (Z.to_nat NUM) (mkInfo None 0)) (replicate (Z.to_nat NUM) (mkReq 0 0 0)) [].
Definition boot_state : kstate := {|
  k_cpu := mkCpu None 0 0;
  k_csr := mkCsrs 0 0 0 0 0 0 0 0;
  k_locks := ∅;
  k_mem := ∅;
  k_kmem := mkKmem [] ∅ ∅;
  k_procs := replicate (Z.to_nat NPROC) zero_proc;
  k_ptab := mkPtab None 1 1 0;
  k_ftable := replicate (Z.to_nat NFILE) zero_file;
  k_pipes := ∅;
  k_sems := ∅;
  k_ticks := 0;
  k_cons := mkCons ∅ 0 0 0;
  k_uart := mkUart [] [] 0;
  k_sleep := ∅;
  k_bufs := replicate (Z.to_nat (NBUF + 1)) zero_buf;
  k_sb := mkSB 0 0 0 0 0 0 0 0;
  k_inodes := replicate (Z.to_nat NINODE) zero_inode;
  k_log := mkLog 0 0 0 0 0 (replicate (Z.to_nat LOGBLOCKS) 0);
  k_disk := mkDisk ∅ [];
  k_kpt := 0;
  k_aslr := 0x9e3779b9;
  k_first := 1;
  k_vdisk := zero_vdisk;
|}.
