(* ===== verification/Sv32.v ===== *)
(** * Sv32 page arithmetic and page-table entries

    Facts about the macros of [src/os/kernel/riscv.h]: page rounding, the
    split of a virtual address into two ten-bit indices and an offset, and
    the packing of a physical page number with ten flag bits in an entry. *)

From S2P Require Import Prelude CMem Machine.

(** A C test [(x & flag)] of a word against a flag mask. *)
Definition has (x flag : Z) : bool := negb (Z.land x flag =? 0).

(** The entry [PA2PTE(pa) | flags]. *)
Definition mkpte (pa flags : Z) : Z := Z.lor (PA2PTE pa) flags.

(** ** Masks as arithmetic *)

Lemma land_high a k n :
  0 <= k <= n -> 0 <= a < 2^n -> Z.land a (2^n - 2^k) = a - a mod 2^k.
Proof.
  intros Hk Ha.
  assert (Hm : 2^n - 2^k = Z.ldiff (Z.ones n) (Z.ones k)).
  { rewrite Z.ldiff_ones_r by lia.
    rewrite Z.shiftl_mul_pow2, Z.shiftr_div_pow2, Z.ones_equiv by lia.
    replace n with (n - k + k) at 1 by lia.
    replace (Z.pred (2 ^ n)) with ((2^(n-k) - 1) * 2^k + (2^k - 1)).
    - rewrite Z.div_add_l, Z.div_small, Z.pow_add_r by lia. lia.
    - replace n with (n - k + k) at 2 by lia. rewrite Z.pow_add_r by lia. lia. }
  rewrite Hm. transitivity (Z.ldiff a (Z.ones k)).
  - apply Z.bits_inj'. intros i Hi.
    rewrite Z.land_spec, !Z.ldiff_spec, !Z.testbit_ones_nonneg by lia.
    destruct (Z.ltb_spec i n) as [|Hin]; [by rewrite andb_true_l|].
    replace a with (a mod 2^n) by (apply Z.mod_small; lia).
    by rewrite Z.mod_pow2_bits_high by lia.
  - rewrite Z.ldiff_ones_r, Z.shiftl_mul_pow2, Z.shiftr_div_pow2 by lia.
    pose proof (Z.div_mod a (2^k)). lia.
Qed.

Lemma lor_low x f k : 0 <= k -> 0 <= f < 2^k -> Z.lor (x * 2^k) f = x * 2^k + f.
Proof.
  intros Hk Hf.
  rewrite Z.add_nocarry_lxor, <- Z.lxor_lor; [done| |].
  all: apply Z.bits_inj'; intros i Hi; rewrite Z.land_spec, Z.bits_0.
  all: destruct (Z.ltb_spec i k);
    [by rewrite Z.mul_pow2_bits_low by lia|].
  all: replace f with (f mod 2^k) by (apply Z.mod_small; lia).
  all: rewrite (Z.mod_pow2_bits_high f) by lia; apply andb_false_r.
Qed.

Lemma has_testbit x k : 0 <= k -> has x (Z.shiftl 1 k) = Z.testbit x k.
Proof.
  intros Hk. unfold has. rewrite Z.shiftl_1_l.
  destruct (Z.testbit x k) eqn:Hb.
  - destruct (Z.eqb_spec (Z.land x (2^k)) 0) as [H0|]; [|done].
    assert (Z.testbit (Z.land x (2^k)) k = true) as Ht
      by (rewrite Z.land_spec, Hb, Z.pow2_bits_true by lia; done).
    by rewrite H0, Z.bits_0 in Ht.
  - replace (Z.land x (2^k)) with 0; [done|]. symmetry.
    apply Z.bits_inj'. intros i Hi. rewrite Z.land_spec, Z.bits_0.
    destruct (decide (i = k)) as [->|]; [by rewrite Hb|].
    rewrite Z.pow2_bits_false by done. apply andb_false_r.
Qed.

(** ** Page rounding *)

Lemma PGROUNDDOWN_eq a : 0 <= a < 2^32 -> PGROUNDDOWN a = a - a mod PGSIZE.
Proof. intros Ha. apply (land_high a 12 32); lia. Qed.

Lemma PGROUNDUP_eq sz :
  0 <= sz -> sz + 4095 < 2^32 ->
  PGROUNDUP sz = (sz + 4095) - (sz + 4095) mod PGSIZE.
Proof.
  intros H0 H1. unfold PGROUNDUP, u32.
  replace (sz + PGSIZE - 1) with (sz + 4095) by (unfold PGSIZE; lia).
  rewrite (Z.mod_small (sz + 4095)) by lia. apply (land_high _ 12 32); lia.
Qed.

Lemma PGROUNDDOWN_aligned a :
  0 <= a < 2^32 -> a mod PGSIZE = 0 -> PGROUNDDOWN a = a.
Proof. intros Ha H. rewrite PGROUNDDOWN_eq; lia. Qed.

Lemma PGROUNDUP_aligned sz :
  0 <= sz -> sz + 4095 < 2^32 -> sz mod PGSIZE = 0 -> PGROUNDUP sz = sz.
Proof. intros. rewrite PGROUNDUP_eq by done. unfold PGSIZE in *. zlia. Qed.

(** The rounded value is the least page boundary not below [sz]. *)
Lemma PGROUNDUP_bounds sz :
  0 <= sz -> sz + 4095 < 2^32 ->
  sz <= PGROUNDUP sz < sz + PGSIZE /\ PGROUNDUP sz mod PGSIZE = 0.
Proof. intros. rewrite PGROUNDUP_eq by done. unfold PGSIZE. zlia. Qed.

Lemma PGROUNDDOWN_bounds a :
  0 <= a < 2^32 ->
  a - PGSIZE < PGROUNDDOWN a <= a /\ 0 <= PGROUNDDOWN a /\
  PGROUNDDOWN a mod PGSIZE = 0.
Proof. intros. rewrite PGROUNDDOWN_eq by done. unfold PGSIZE. zlia. Qed.

(** ** Entries *)

Lemma PA2PTE_eq pa : 0 <= pa < 2^32 -> PA2PTE pa = pa / PGSIZE * 1024.
Proof.
  intros H. unfold PA2PTE, u32, PGSIZE.
  rewrite Z.shiftl_mul_pow2, Z.shiftr_div_pow2 by lia.
  rewrite Z.mod_small; [done|]. zlia.
Qed.

Lemma PTE2PA_eq pte : 0 <= pte < 2^32 -> PTE2PA pte = u32 (pte / 1024 * PGSIZE).
Proof.
  intros H. unfold PTE2PA.
  by rewrite Z.shiftl_mul_pow2, Z.shiftr_div_pow2 by lia.
Qed.

Lemma PTE_FLAGS_eq pte : PTE_FLAGS pte = pte mod 1024.
Proof. apply (Z.land_ones pte 10). lia. Qed.

Lemma mkpte_eq pa f :
  0 <= pa < 2^32 -> 0 <= f < 1024 -> mkpte pa f = pa / PGSIZE * 1024 + f.
Proof.
  intros Hp Hf. unfold mkpte. rewrite PA2PTE_eq by done.
  by rewrite (lor_low _ _ 10) by lia.
Qed.

Lemma mkpte_range pa f :
  0 <= pa < 2^32 -> 0 <= f < 1024 -> 0 <= mkpte pa f < 2^32.
Proof. intros. rewrite mkpte_eq by done. unfold PGSIZE. zlia. Qed.

Lemma PTE2PA_mkpte pa f :
  0 <= pa < 2^32 -> 0 <= f < 1024 -> PTE2PA (mkpte pa f) = pa - pa mod PGSIZE.
Proof.
  intros Hp Hf. rewrite PTE2PA_eq by by apply mkpte_range.
  rewrite mkpte_eq by done. unfold u32, PGSIZE. zlia.
Qed.

Lemma PTE_FLAGS_mkpte pa f :
  0 <= pa < 2^32 -> 0 <= f < 1024 -> PTE_FLAGS (mkpte pa f) = f.
Proof.
  intros Hp Hf. rewrite PTE_FLAGS_eq, mkpte_eq by done. zlia.
Qed.

(** A flag of an entry is a flag of its ten low bits. *)
Lemma has_mkpte pa f k :
  0 <= pa < 2^32 -> 0 <= f < 1024 -> 0 <= k < 10 ->
  has (mkpte pa f) (Z.shiftl 1 k) = has f (Z.shiftl 1 k).
Proof.
  intros Hp Hf Hk. rewrite !has_testbit by lia.
  rewrite mkpte_eq by done.
  replace (Z.testbit f k) with (Z.testbit ((pa / PGSIZE * 1024 + f) mod 2^10) k).
  - by rewrite Z.mod_pow2_bits_low by lia.
  - f_equal. change (2^10) with 1024. zlia.
Qed.

Lemma has_lor x y f : has (Z.lor x y) f = has x f || has y f.
Proof.
  unfold has. rewrite Z.land_lor_distr_l.
  destruct (Z.eqb_spec (Z.land x f) 0) as [Hx|Hx];
  destruct (Z.eqb_spec (Z.land y f) 0) as [Hy|Hy]; simpl.
  - by rewrite Hx, Hy.
  - rewrite Hx, Z.lor_0_l. by destruct (Z.eqb_spec (Z.land y f) 0).
  - rewrite Hy, Z.lor_0_r. by destruct (Z.eqb_spec (Z.land x f) 0).
  - destruct (Z.eqb_spec (Z.lor (Z.land x f) (Z.land y f)) 0) as [H|]; [|done].
    by apply Z.lor_eq_0_iff in H as [??].
Qed.

(** ** Indices *)

Lemma PX_range level va : 0 <= PX level va < 1024.
Proof.
  unfold PX, PXMASK. change 0x3FF with (Z.ones 10).
  rewrite Z.land_ones by lia. apply Z.mod_pos_bound. lia.
Qed.

Lemma PX0_eq va : PX 0 va = va / PGSIZE mod 1024.
Proof.
  unfold PX, PXMASK. change 0x3FF with (Z.ones 10).
  rewrite Z.land_ones, Z.shiftr_div_pow2 by (unfold PXSHIFT, PGSHIFT; lia).
  done.
Qed.

Lemma PX1_eq va : PX 1 va = va / 2^22 mod 1024.
Proof.
  unfold PX, PXMASK. change 0x3FF with (Z.ones 10).
  rewrite Z.land_ones, Z.shiftr_div_pow2 by (unfold PXSHIFT, PGSHIFT; lia).
  done.
Qed.

(** The two indices and the page offset determine the address. *)
Lemma va_split va :
  0 <= va < 2^32 -> va = PX 1 va * 2^22 + PX 0 va * PGSIZE + va mod PGSIZE.
Proof.
  intros H. rewrite PX0_eq, PX1_eq. unfold PGSIZE. zlia.
Qed.

Lemma PX_inj va va' :
  0 <= va < 2^32 -> 0 <= va' < 2^32 ->
  va mod PGSIZE = 0 -> va' mod PGSIZE = 0 ->
  PX 1 va = PX 1 va' -> PX 0 va = PX 0 va' -> va = va'.
Proof.
  intros H H' Ha Ha' E1 E0.
  rewrite (va_split va), (va_split va') by done. lia.
Qed.
