(* ===== verification/Spinlock.v ===== *)
(** * Spin locks and interrupt nesting

    Models [src/os/kernel/spinlock.c] and the interrupt-enable helpers of
    [riscv.h].  On the single CPU an interrupt handler is the only thing that
    can run between two instructions, so a section between [acquire] and the
    matching [release] is atomic once interrupts are shown to stay off. *)

From S2P Require Import Prelude CMem Machine Sv32.

(** ** riscv.h: interrupt enable *)

Definition w_sstatus (x : Z) : K unit := upd_csr (set_sstatus x).
Definition intr_on : K unit :=
  x <- gets (fun s => r_sstatus (k_csr s)) ;; w_sstatus (Z.lor x SSTATUS_SIE).
Definition intr_off : K unit :=
  x <- gets (fun s => r_sstatus (k_csr s)) ;;
  w_sstatus (Z.land x (u32 (Z.lnot SSTATUS_SIE))).
Definition intr_get : K Z :=
  x <- gets (fun s => r_sstatus (k_csr s)) ;;
  ret (if has x SSTATUS_SIE then 1 else 0).

(** ** spinlock.c *)

Definition zero_lock : spinlock := mkLock 0 false "".
Definition lock_of (s : kstate) (lk : lockid) : spinlock :=
  default zero_lock (k_locks s !! lk).
Definition put_lock (lk : lockid) (l : spinlock) : K unit :=
  modify (fun s => set_locks (<[lk := l]> (k_locks s)) s).

Definition initlock (lk : lockid) (name : string) : K unit :=
  put_lock lk (mkLock 0 false name).

(** Check whether this cpu is holding the lock. *)
Definition holding (lk : lockid) : K bool :=
  l <- gets (fun s => lock_of s lk) ;;
  ret (negb (l.(sl_locked) =? 0) && l.(sl_cpu)).

Definition push_off : K unit :=
  old <- intr_get ;;
  intr_off ;;
  c <- gets k_cpu ;;
  (if c.(c_noff) =? 0
   then upd_cpu (fun c => mkCpu c.(c_proc) c.(c_noff) old)
   else ret tt) ;;
  upd_cpu (fun c => mkCpu c.(c_proc) (c.(c_noff) + 1) c.(c_intena)).

Definition pop_off : K unit :=
  i <- intr_get ;;
  if negb (i =? 0) then panic "pop_off - interruptible" else
  c <- gets k_cpu ;;
  if c.(c_noff) <? 1 then panic "pop_off" else
  upd_cpu (fun c => mkCpu c.(c_proc) (c.(c_noff) - 1) c.(c_intena)) ;;
  c <- gets k_cpu ;;
  if (c.(c_noff) =? 0) && negb (c.(c_intena) =? 0) then intr_on else ret tt.

Definition acquire (lk : lockid) : K unit :=
  push_off ;;
  h <- holding lk ;;
  if (h : bool) then panic "acquire" else
  l <- gets (fun s => lock_of s lk) ;;
  if negb (l.(sl_locked) =? 0) then panic "acquire busy" else
  put_lock lk (mkLock 1 l.(sl_cpu) l.(sl_name)) ;;
  l <- gets (fun s => lock_of s lk) ;;
  put_lock lk (mkLock l.(sl_locked) true l.(sl_name)).

Definition release (lk : lockid) : K unit :=
  h <- holding lk ;;
  if negb h then panic "release" else
  l <- gets (fun s => lock_of s lk) ;;
  put_lock lk (mkLock l.(sl_locked) false l.(sl_name)) ;;
  l <- gets (fun s => lock_of s lk) ;;
  put_lock lk (mkLock 0 l.(sl_cpu) l.(sl_name)) ;;
  pop_off.

(** * Properties *)

(** Interrupts are on. *)
Definition ints_on (s : kstate) : bool := has (r_sstatus (k_csr s)) SSTATUS_SIE.

(** Well-formed CPU state: the register is a 32-bit word, nesting is not
    negative, and nesting disables interrupts. *)
Definition cpu_ok (s : kstate) : Prop :=
  0 <= r_sstatus (k_csr s) < 2^32 /\ 0 <= c_noff (k_cpu s) /\
  (0 < c_noff (k_cpu s) -> ints_on s = false).

(** A lock that has been initialised and is not held. *)
Definition lock_free (s : kstate) (lk : lockid) : Prop :=
  exists name, k_locks s !! lk = Some (mkLock 0 false name).

(** The state [push_off] leaves. *)
Definition off_state (s : kstate) : kstate :=
  let c := k_cpu s in
  set_cpu (mkCpu (c_proc c) (c_noff c + 1)
             (if c_noff c =? 0 then (if ints_on s then 1 else 0) else c_intena c))
    (set_csr (set_sstatus (Z.land (r_sstatus (k_csr s)) (u32 (Z.lnot SSTATUS_SIE)))
                (k_csr s)) s).

(** The state [acquire lk] leaves. *)
Definition enter (lk : lockid) (s : kstate) : kstate :=
  set_locks (<[lk := mkLock 1 true (sl_name (lock_of s lk))]> (k_locks s))
    (off_state s).

(** Nothing but the scratch field [intena] differs in the control state. *)
Definition same_ctl (s s' : kstate) : Prop :=
  k_locks s' = k_locks s /\ k_csr s' = k_csr s /\
  c_proc (k_cpu s') = c_proc (k_cpu s) /\ c_noff (k_cpu s') = c_noff (k_cpu s).

#[export] Instance same_ctl_preorder : PreOrder same_ctl.
Proof.
  split.
  - intros s. by repeat split.
  - intros s1 s2 s3 (?&?&?&?) (?&?&?&?). repeat split; congruence.
Qed.

Lemma same_ctl_cpu_ok s s' : same_ctl s s' -> cpu_ok s -> cpu_ok s'.
Proof.
  intros (_ & Hc & _ & Hn) (H1 & H2 & H3).
  unfold cpu_ok, ints_on in *. by rewrite Hc, Hn.
Qed.

Lemma same_ctl_lock_free s s' lk :
  same_ctl s s' -> lock_free s lk -> lock_free s' lk.
Proof. intros (Hl & _) [n H]. exists n. by rewrite Hl. Qed.

(** The value a balanced pair of [push_off] and [pop_off] may leave in the
    field [intena]: nested inside another pair it is not touched. *)
Definition scratch (s : kstate) (i : Z) : Prop :=
  0 < c_noff (k_cpu s) -> i = c_intena (k_cpu s).

Lemma push_off_eq s : push_off s = Ok tt (off_state s).
Proof.
  unfold push_off, intr_get, intr_off, w_sstatus, upd_csr, upd_cpu, bind, gets,
    modify, ret, off_state, ints_on. simpl.
  destruct (has _ _); destruct (c_noff (k_cpu s) =? 0); reflexivity.
Qed.

(** Clearing SIE clears it and nothing else. *)
Lemma land_not_sie x :
  has (Z.land x (u32 (Z.lnot SSTATUS_SIE))) SSTATUS_SIE = false.
Proof.
  unfold has, SSTATUS_SIE. rewrite <- Z.land_assoc.
  change (Z.land (u32 (Z.lnot (Z.shiftl 1 1))) (Z.shiftl 1 1)) with 0.
  by rewrite Z.land_0_r.
Qed.

Lemma sie_off_on x :
  0 <= x < 2^32 -> has x SSTATUS_SIE = true ->
  Z.lor (Z.land x (u32 (Z.lnot SSTATUS_SIE))) SSTATUS_SIE = x.
Proof.
  intros Hx Hon. unfold SSTATUS_SIE in *. rewrite has_testbit in Hon by lia.
  apply Z.bits_inj'. intros i Hi. rewrite Z.lor_spec, Z.land_spec.
  change (u32 (Z.lnot (Z.shiftl 1 1))) with (Z.ldiff (Z.ones 32) 2).
  change (Z.shiftl 1 1) with (2^1).
  rewrite Z.ldiff_spec, Z.testbit_ones_nonneg, (Z.pow2_bits_eqb 1) by lia.
  change 2 with (2^1). rewrite (Z.pow2_bits_eqb 1) by lia.
  destruct (Z.eqb_spec 1 i) as [<-|]; [by rewrite Hon|].
  destruct (Z.ltb_spec i 32); simpl; [by rewrite andb_true_r, orb_false_r|].
  replace x with (x mod 2^32) by (apply Z.mod_small; lia).
  by rewrite Z.mod_pow2_bits_high by lia.
Qed.

Lemma sie_off_id x :
  0 <= x < 2^32 -> has x SSTATUS_SIE = false ->
  Z.land x (u32 (Z.lnot SSTATUS_SIE)) = x.
Proof.
  intros Hx Hoff. unfold SSTATUS_SIE in *. rewrite has_testbit in Hoff by lia.
  apply Z.bits_inj'. intros i Hi. rewrite Z.land_spec.
  change (u32 (Z.lnot (Z.shiftl 1 1))) with (Z.ldiff (Z.ones 32) (2^1)).
  rewrite Z.ldiff_spec, Z.testbit_ones_nonneg, (Z.pow2_bits_eqb 1) by lia.
  destruct (Z.eqb_spec 1 i) as [<-|]; [by rewrite Hoff|].
  destruct (Z.ltb_spec i 32); simpl; [by rewrite andb_true_r|].
  replace x with (x mod 2^32) by (apply Z.mod_small; lia).
  by rewrite Z.mod_pow2_bits_high by lia.
Qed.

Lemma acquire_eq s lk :
  lock_free s lk -> acquire lk s = Ok tt (enter lk s).
Proof.
  intros [nm Hl].
  unfold acquire. rewrite (bind_ok _ _ _ _ _ (push_off_eq s)).
  unfold holding, put_lock, bind, gets, modify, ret, enter, lock_of. simpl.
  repeat (first [rewrite Hl | rewrite lookup_insert_eq]; simpl).
  by rewrite insert_insert_eq.
Qed.

(** [pop_off] undoes [push_off]: from any state with the CPU part that
    [off_state s] has, it returns and restores the CPU part of [s]. *)
Lemma pop_off_eq s s1 :
  cpu_ok s ->
  k_csr s1 = k_csr (off_state s) -> k_cpu s1 = k_cpu (off_state s) ->
  exists i, scratch s i /\ pop_off s1 =
    Ok tt (set_cpu (mkCpu (c_proc (k_cpu s)) (c_noff (k_cpu s)) i)
             (set_csr (k_csr s) s1)).
Proof.
  intros (Hx & Hn & Hoff) HC HP. destruct s1; simpl in HC, HP; subst.
  unfold pop_off, intr_get, intr_on, w_sstatus, upd_csr, upd_cpu, bind, gets,
    modify, ret. simpl.
  rewrite land_not_sie. simpl.
  destruct (Z.ltb_spec (c_noff (k_cpu s) + 1) 1); [lia|]. simpl.
  replace (c_noff (k_cpu s) + 1 - 1) with (c_noff (k_cpu s)) by lia.
  unfold ints_on, set_sstatus in *.
  destruct (k_csr s) as [x x1 x2 x3 x4 x5 x6 x7]. simpl in *.
  destruct (Z.eqb_spec (c_noff (k_cpu s)) 0) as [H0|H0]; simpl.
  - destruct (has x SSTATUS_SIE) eqn:Hon; simpl; eexists; unfold set_csr, set_cpu;
      simpl; [rewrite sie_off_on by done|rewrite sie_off_id by done];
      (split; [|done]); unfold scratch; lia.
  - eexists. unfold set_csr, set_cpu. simpl.
    rewrite sie_off_id by (try done; apply Hoff; lia). by split.
Qed.

(** [release] undoes [acquire]: from any state whose control part is the one
    [enter lk s] left, it returns, and the control part is that of [s]. *)
Lemma release_eq s s1 lk :
  cpu_ok s -> lock_free s lk ->
  k_locks s1 = k_locks (enter lk s) -> k_csr s1 = k_csr (enter lk s) ->
  k_cpu s1 = k_cpu (enter lk s) ->
  exists i, scratch s i /\ release lk s1 =
    Ok tt (set_cpu (mkCpu (c_proc (k_cpu s)) (c_noff (k_cpu s)) i)
             (set_csr (k_csr s) (set_locks (k_locks s) s1))).
Proof.
  intros Hok [nm Hl] HL HC HP. destruct s1; simpl in HL, HC, HP; subst.
  unfold release, holding, put_lock, bind, gets, modify, ret, lock_of.
  repeat (first [rewrite lookup_insert_eq | rewrite Hl]; simpl).
  rewrite !insert_insert_eq, insert_id by done.
  edestruct (pop_off_eq s) as (i & Hsc & Hi); [done| | |].
  3: { exists i. split; [done|]. rewrite Hi. reflexivity. }
  all: reflexivity.
Qed.

(** ** Rules for critical sections *)

(** [s1] is inside the section opened by [acquire lk] on [s0]. *)
Definition in_crit (lk : lockid) (s0 s1 : kstate) : Prop :=
  k_locks s1 = k_locks (enter lk s0) /\ k_csr s1 = k_csr (enter lk s0) /\
  k_cpu s1 = k_cpu (enter lk s0).

(** The state after the section: data of [s1], control state of [s0]. *)
Definition leave (s0 : kstate) (i : Z) (s1 : kstate) : kstate :=
  set_cpu (mkCpu (c_proc (k_cpu s0)) (c_noff (k_cpu s0)) i)
    (set_csr (k_csr s0) (set_locks (k_locks s0) s1)).

Lemma in_crit_enter lk s : in_crit lk s (enter lk s).
Proof. done. Qed.

Lemma leave_same_ctl s0 i s1 : same_ctl s0 (leave s0 i s1).
Proof. done. Qed.

Lemma runs_acquire lk s Q :
  lock_free s lk -> Q tt (enter lk s) -> runs (acquire lk s) Q.
Proof. intros H HQ. by rewrite acquire_eq. Qed.

Lemma runs_release lk s0 s1 Q :
  cpu_ok s0 -> lock_free s0 lk -> in_crit lk s0 s1 ->
  (forall i, scratch s0 i -> Q tt (leave s0 i s1)) -> runs (release lk s1) Q.
Proof.
  intros H0 H1 (HL & HC & HP) HQ.
  destruct (release_eq s0 s1 lk H0 H1 HL HC HP) as (i & Hi & ->). by apply HQ.
Qed.

Lemma enter_cpu_ok lk s : cpu_ok s -> cpu_ok (enter lk s).
Proof.
  intros (Hx & Hn & _). unfold cpu_ok, ints_on, enter, off_state. simpl.
  split; [|split; [lia|intros; apply land_not_sie]].
  split; [apply Z.land_nonneg; lia|].
  destruct (Z.eq_dec (Z.land (r_sstatus (k_csr s)) (u32 (Z.lnot SSTATUS_SIE))) 0)
    as [->|Hne]; [lia|].
  apply Z.log2_lt_pow2.
  { assert (0 <= Z.land (r_sstatus (k_csr s)) (u32 (Z.lnot SSTATUS_SIE)))
      by (apply Z.land_nonneg; lia). lia. }
  eapply Z.le_lt_trans; [apply Z.log2_land; [lia|done]|].
  eapply Z.le_lt_trans; [apply Z.le_min_r|]. done.
Qed.

Lemma enter_lock_free lk lk' s :
  lk <> lk' -> lock_free s lk' -> lock_free (enter lk s) lk'.
Proof.
  intros Hne [n H]. exists n. unfold enter. simpl.
  by rewrite lookup_insert_ne.
Qed.

#[export] Hint Resolve in_crit_enter leave_same_ctl enter_cpu_ok : kernel.
