(* ===== verification/Kalloc.v ===== *)
(** * The physical page allocator

    Models [src/os/kernel/kalloc.c]: a binary buddy allocator handing out
    single 4096-byte pages with a reference count per page (shared pages are
    the copy-on-write mappings of fork).  A free block of order [o] is [2^o]
    naturally aligned pages; free blocks of an order form a singly linked list
    threaded through the first word of each block. *)

From S2P Require Import Prelude CMem Machine Sv32 Spinlock.

(** ** Definitions *)

Definition pa2idx (pa : Z) : Z := u32 (pa - KERNBASE) / PGSIZE.
Definition idx2pa (idx : Z) : Z := u32 (KERNBASE + u32 idx * PGSIZE).

(** [page_state[i] = v]; an index outside the array is undefined behaviour. *)
Definition put_page_state (i v : Z) : K unit :=
  if (0 <=? i) && (i <? NPAGES)
  then upd_kmem (fun k => set_page_state (<[i := v]> k.(page_state)) k)
  else undefined "page_state".
Definition get_page_state (i : Z) : K Z :=
  if (0 <=? i) && (i <? NPAGES)
  then gets (fun s => aget (k_kmem s).(page_state) i)
  else undefined "page_state".
Definition get_refcnt (i : Z) : K Z :=
  if (0 <=? i) && (i <? NPAGES)
  then gets (fun s => aget (k_kmem s).(refcnt) i)
  else undefined "refcnt".
Definition put_refcnt (i v : Z) : K unit :=
  if (0 <=? i) && (i <? NPAGES)
  then upd_kmem (fun k => set_refcnt (<[i := u16 v]> k.(refcnt)) k)
  else undefined "refcnt".

Definition get_area (order : Z) : K free_area :=
  fun s => match (k_kmem s).(free_areas) !! Z.to_nat order with
           | Some a => if 0 <=? order then Ok a s else Stop (Undefined "free_areas")
           | None => Stop (Undefined "free_areas")
           end.
Definition put_area (order : Z) (a : free_area) : K unit :=
  upd_kmem (fun k => set_free_areas (<[Z.to_nat order := a]> k.(free_areas)) k).

Definition set_block_state (idx order state : Z) : K unit :=
  let npages := Z.shiftl 1 order in
  for_ (Z.to_nat npages) 0 (fun i => put_page_state (idx + i) state).

Definition freelist_push (order r : Z) : K unit :=
  a <- get_area order ;;
  upd_mem (fun m => store32 m r a.(freelist)) ;;
  put_area order (mkArea r (u32 (a.(nr_free) + 1))).

Definition freelist_pop (order : Z) : K Z :=
  a <- get_area order ;;
  let r := a.(freelist) in
  if r =? 0 then ret 0 else
  next <- gets (fun s => load32 (k_mem s) r) ;;
  put_area order (mkArea next (u32 (a.(nr_free) - 1))) ;;
  ret r.

Fixpoint freelist_remove_loop (fuel : nat) (order target p prev : Z) : K Z :=
  match fuel with
  | O => nofuel
  | S f =>
      if p =? 0 then ret 0
      else if p =? target then
        next <- gets (fun s => load32 (k_mem s) p) ;;
        (if negb (prev =? 0) then upd_mem (fun m => store32 m prev next)
         else a <- get_area order ;; put_area order (mkArea next a.(nr_free))) ;;
        a <- get_area order ;;
        put_area order (mkArea a.(freelist) (u32 (a.(nr_free) - 1))) ;;
        ret 1
      else
        next <- gets (fun s => load32 (k_mem s) p) ;;
        freelist_remove_loop f order target next p
  end.
(** There are at most [NPAGES] free blocks, so the walk ends before the fuel. *)
Definition freelist_remove (order target : Z) : K Z :=
  a <- get_area order ;;
  freelist_remove_loop (Z.to_nat (NPAGES + 1)) order target a.(freelist) 0.

(** [while(order > 0){ order--; ... }]: give back the upper halves. *)
Fixpoint buddy_split (order : nat) (idx : Z) : K unit :=
  match order with
  | O => ret tt
  | S o =>
      let buddy_idx := idx + Z.shiftl 1 (Z.of_nat o) in
      set_block_state buddy_idx (Z.of_nat o) PG_BUDDY_FREE ;;
      freelist_push (Z.of_nat o) (idx2pa buddy_idx) ;;
      buddy_split o idx
  end.

Definition buddy_alloc_order0 : K Z :=
  found <- for_find (Z.to_nat (MAX_ORDER + 1)) 0 (fun order =>
             a <- get_area order ;;
             ret (if negb (a.(freelist) =? 0) then Some order else None)) ;;
  match found with
  | None => ret 0
  | Some order =>
      r <- freelist_pop order ;;
      let idx := pa2idx r in
      set_block_state idx order 0 ;;
      buddy_split (Z.to_nat order) idx ;;
      ret (idx2pa idx)
  end.

(** [while(order < MAX_ORDER)]: the fuel is [MAX_ORDER - order]; returns the
    index and order of the block the loop ends with. *)
Fixpoint buddy_merge (n : nat) (idx order : Z) : K (Z * Z) :=
  match n with
  | O => ret (idx, order)
  | S n' =>
      let buddy_idx := Z.lxor idx (Z.shiftl 1 order) in
      if (buddy_idx <? 0) || (buddy_idx >=? NPAGES) then ret (idx, order) else
      st <- get_page_state buddy_idx ;;
      if negb (st =? PG_BUDDY_FREE) then ret (idx, order) else
      found <- freelist_remove order (idx2pa buddy_idx) ;;
      if found =? 0 then ret (idx, order) else
      set_block_state idx order 0 ;;
      set_block_state buddy_idx order 0 ;;
      let idx := if buddy_idx <? idx then buddy_idx else idx in
      let order := order + 1 in
      set_block_state idx order PG_BUDDY_FREE ;;
      buddy_merge n' idx order
  end.

Definition buddy_free_order0 (idx : Z) : K unit :=
  set_block_state idx 0 PG_BUDDY_FREE ;;
  r <- buddy_merge (Z.to_nat MAX_ORDER) idx 0 ;;
  freelist_push r.2 (idx2pa r.1).

Section kalloc.
Context `{L : Layout}.

Definition kaddref (pa : Z) : K unit :=
  if negb (pa mod PGSIZE =? 0) || (pa <? KERNBASE) || (pa >=? PHYSTOP)
  then panic "kaddref" else
  let idx := pa2idx pa in
  acquire LKmem ;;
  rc <- get_refcnt idx ;;
  if rc =? 0 then panic "kaddref: zero" else
  put_refcnt idx (rc + 1) ;;
  release LKmem.

Definition kfree (pa : Z) : K unit :=
  if negb (pa mod PGSIZE =? 0) || (pa <? end_) || (pa >=? PHYSTOP)
  then panic "kfree" else
  let idx := pa2idx pa in
  acquire LKmem ;;
  rc <- get_refcnt idx ;;
  if rc <? 1 then panic "kfree: ref" else
  put_refcnt idx (rc - 1) ;;
  rc <- get_refcnt idx ;;
  if rc >? 0 then release LKmem else
  upd_mem (fun m => memset m pa 1 PGSIZE) ;;
  buddy_free_order0 idx ;;
  release LKmem.

Definition kalloc : K Z :=
  acquire LKmem ;;
  r <- buddy_alloc_order0 ;;
  (if negb (r =? 0) then put_refcnt (pa2idx r) 1 else ret tt) ;;
  release LKmem ;;
  (if negb (r =? 0) then upd_mem (fun m => memset m r 5 PGSIZE) else ret tt) ;;
  ret r.

Fixpoint freerange_loop (fuel : nat) (p pa_end : Z) : K unit :=
  match fuel with
  | O => nofuel
  | S f =>
      if p + PGSIZE <=? pa_end then
        put_refcnt (pa2idx p) 1 ;;
        kfree p ;;
        freerange_loop f (p + PGSIZE) pa_end
      else ret tt
  end.
(** At most [NPAGES] pages lie below [PHYSTOP]. *)
Definition freerange (pa_start pa_end : Z) : K unit :=
  freerange_loop (Z.to_nat (NPAGES + 1)) (PGROUNDUP pa_start) pa_end.

Definition kinit : K unit :=
  initlock LKmem "kmem" ;;
  upd_kmem (set_free_areas (replicate (Z.to_nat (MAX_ORDER + 1)) (mkArea 0 0))) ;;
  upd_kmem (set_refcnt ∅) ;;
  upd_kmem (set_page_state ∅) ;;
  freerange end_ PHYSTOP.

End kalloc.
