(* ===== verification/KallocProof.v ===== *)
(** * Correctness of the page allocator

    The free lists of [kalloc.c] are related to an abstract assignment [B] of
    block lists to orders.  The invariant [kmem_inv] says that the blocks are
    aligned, in range and pairwise disjoint, that [page_state] marks exactly
    their pages, and that a managed page is free iff its count is zero. *)

From S2P Require Import Prelude CMem Machine Sv32 Spinlock Kalloc.

#[local] Opaque memset.

(** ** Abstract free blocks *)

(** Page [j] lies in the block of order [o] that starts at page [i]. *)
Definition in_blk (o i j : Z) : Prop := i <= j < i + 2^o.

Definition valid_blk (o i : Z) : Prop :=
  0 <= i /\ i mod 2^o = 0 /\ i + 2^o <= NPAGES.

(** Page [j] belongs to some block of [B]. *)
Definition freep (B : Z -> list Z) (j : Z) : Prop :=
  exists o i, 0 <= o <= MAX_ORDER /\ i ∈ B o /\ in_blk o i j.

(** The blocks [l] are linked from address [p] up to address [q]. *)
Fixpoint seg (m : mem) (p : Z) (l : list Z) (q : Z) : Prop :=
  match l with
  | [] => p = q
  | i :: l' => p = idx2pa i /\ seg m (load32 m p) l' q
  end.
(** A null-terminated free list. *)
Definition chain (m : mem) (p : Z) (l : list Z) : Prop := seg m p l 0.

(** The free lists of the kernel hold [B]. *)
Definition linked (B : Z -> list Z) (k : kmem_t) (m : mem) : Prop :=
  forall o, 0 <= o <= MAX_ORDER ->
    exists a, free_areas k !! Z.to_nat o = Some a /\
      chain m (freelist a) (B o) /\ nr_free a = Z.of_nat (length (B o)).

(** The blocks are aligned, in range and pairwise disjoint. *)
Record blocks_ok (B : Z -> list Z) : Prop := {
  bk_valid : forall o i, 0 <= o <= MAX_ORDER -> i ∈ B o -> valid_blk o i;
  bk_nodup : forall o, 0 <= o <= MAX_ORDER -> NoDup (B o);
  bk_disj : forall o i o' i' j,
    0 <= o <= MAX_ORDER -> 0 <= o' <= MAX_ORDER -> i ∈ B o -> i' ∈ B o' ->
    in_blk o i j -> in_blk o' i' j -> o = o' /\ i = i';
}.

(** [B] with the list of order [o] replaced. *)
Definition Bset (B : Z -> list Z) (o : Z) (l : list Z) : Z -> list Z :=
  fun o' => if decide (o' = o) then l else B o'.

Lemma Bset_eq B o l : Bset B o l o = l.
Proof. unfold Bset. by case_decide. Qed.
Lemma Bset_ne B o l o' : o' <> o -> Bset B o l o' = B o'.
Proof. unfold Bset. by case_decide. Qed.

(** ** Page and address arithmetic *)

Lemma idx2pa_eq i : 0 <= i < NPAGES -> idx2pa i = KERNBASE + i * PGSIZE.
Proof.
  intros H. unfold idx2pa, u32. change NPAGES with 32768 in H.
  change KERNBASE with 0x80000000. change PGSIZE with 4096.
  rewrite (Z.mod_small i), (Z.mod_small (0x80000000 + i * 4096)) by lia. done.
Qed.

Lemma pa2idx_eq pa :
  KERNBASE <= pa < 2^32 -> pa2idx pa = (pa - KERNBASE) / PGSIZE.
Proof.
  intros H. unfold pa2idx, u32. change KERNBASE with 0x80000000 in *.
  by rewrite Z.mod_small by lia.
Qed.

Lemma pa2idx_idx2pa i : 0 <= i < NPAGES -> pa2idx (idx2pa i) = i.
Proof.
  intros H. pose proof (idx2pa_eq i H) as E.
  change NPAGES with 32768 in H. change KERNBASE with 0x80000000 in *.
  change PGSIZE with 4096 in *.
  rewrite pa2idx_eq by (rewrite E; change KERNBASE with 0x80000000; lia).
  rewrite E. change KERNBASE with 0x80000000. change PGSIZE with 4096. zlia.
Qed.

Lemma idx2pa_pa2idx pa :
  KERNBASE <= pa < PHYSTOP -> pa mod PGSIZE = 0 ->
  0 <= pa2idx pa < NPAGES /\ idx2pa (pa2idx pa) = pa.
Proof.
  intros H Ha. change PHYSTOP with 0x88000000 in H.
  change KERNBASE with 0x80000000 in H. change PGSIZE with 4096 in Ha.
  assert (Hi : pa2idx pa = (pa - 0x80000000) / 4096)
    by (apply pa2idx_eq; change KERNBASE with 0x80000000; lia).
  assert (0 <= pa2idx pa < NPAGES) as Hr
    by (rewrite Hi; change NPAGES with 32768; zlia).
  split; [done|]. rewrite idx2pa_eq by done. rewrite Hi.
  change KERNBASE with 0x80000000. change PGSIZE with 4096. zlia.
Qed.

Lemma pow2_le_32768 o : 0 <= o <= MAX_ORDER -> 1 <= 2^o <= 32768.
Proof.
  intros H. change MAX_ORDER with 15 in H. split.
  - assert (0 < 2^o) by (apply Z.pow_pos_nonneg; lia). lia.
  - change 32768 with (2^15). apply Z.pow_le_mono_r; lia.
Qed.

Lemma valid_blk_range o i :
  0 <= o <= MAX_ORDER -> valid_blk o i -> 0 <= i < NPAGES.
Proof. intros Ho (?&?&?). pose proof (pow2_le_32768 o Ho). lia. Qed.

Lemma in_blk_self o i : 0 <= o -> in_blk o i i.
Proof. intros H. unfold in_blk. assert (0 < 2^o) by (by apply Z.pow_pos_nonneg). lia. Qed.

Lemma idx2pa_nonzero i : 0 <= i < NPAGES -> idx2pa i <> 0.
Proof. intros H. rewrite idx2pa_eq by done. unfold KERNBASE, PGSIZE. lia. Qed.

Lemma idx2pa_inj i j :
  0 <= i < NPAGES -> 0 <= j < NPAGES -> idx2pa i = idx2pa j -> i = j.
Proof. intros Hi Hj. rewrite !idx2pa_eq by done. unfold PGSIZE. lia. Qed.

Lemma idx2pa_range i : 0 <= i < NPAGES -> 0 <= idx2pa i < 2^32.
Proof.
  intros H. rewrite idx2pa_eq by done. unfold KERNBASE, PGSIZE.
  change NPAGES with 32768 in H. lia.
Qed.

(** ** Linked lists in memory *)

Lemma seg_ext m m' p l q :
  (forall i, i ∈ l -> load32 m' (idx2pa i) = load32 m (idx2pa i)) ->
  seg m p l q -> seg m' p l q.
Proof.
  revert p. induction l as [|i l IH]; intros p H; simpl; [done|].
  intros [-> Hc]. split; [done|]. rewrite H by set_solver.
  apply IH; [|done]. intros j Hj. apply H. set_solver.
Qed.

(** A store to the link word of a page outside the list leaves it linked. *)
Lemma seg_store m p l q i v :
  0 <= i < NPAGES -> (forall j, j ∈ l -> 0 <= j < NPAGES) -> i ∉ l ->
  seg m p l q -> seg (store32 m (idx2pa i) v) p l q.
Proof.
  intros Hi Hl Hni. apply seg_ext. intros j Hj.
  apply load32_store32_ne. pose proof (Hl j Hj).
  assert (i <> j) by (intros ->; done).
  rewrite !idx2pa_eq by done. unfold PGSIZE. lia.
Qed.

Lemma seg_app m p l1 l2 q :
  seg m p (l1 ++ l2) q <-> exists r, seg m p l1 r /\ seg m r l2 q.
Proof.
  revert p. induction l1 as [|i l1 IH]; intros p; simpl.
  - split; [intros H; by exists p|by intros (r & -> & H)].
  - rewrite IH. split.
    + intros (H & r & H1 & H2). by exists r.
    + intros (r & (H & H1) & H2). split; [done|]. by exists r.
Qed.

Lemma seg_snoc m p l i q :
  seg m p (l ++ [i]) q <-> seg m p l (idx2pa i) /\ load32 m (idx2pa i) = q.
Proof.
  rewrite seg_app. split.
  - intros (r & H & -> & Hq). done.
  - intros [H Hq]. exists (idx2pa i). done.
Qed.

(** ** Block-level facts *)

Lemma blk_range B o i :
  blocks_ok B -> 0 <= o <= MAX_ORDER -> i ∈ B o -> 0 <= i < NPAGES.
Proof. intros HB Ho Hi. eapply valid_blk_range; [done|]. by eapply bk_valid. Qed.

Lemma freep_range B j : blocks_ok B -> freep B j -> 0 <= j < NPAGES.
Proof.
  intros HB (o & i & Ho & Hi & Hj). destruct (bk_valid _ HB o i Ho Hi) as (?&?&?).
  unfold in_blk in Hj. lia.
Qed.

Lemma blk_length B o :
  blocks_ok B -> 0 <= o <= MAX_ORDER -> Z.of_nat (length (B o)) <= NPAGES.
Proof.
  intros HB Ho.
  assert (Hs : B o ⊆+ seqZ 0 NPAGES).
  { apply NoDup_submseteq; [by apply bk_nodup|].
    intros i Hi. apply elem_of_seqZ. pose proof (blk_range B o i HB Ho Hi). lia. }
  apply submseteq_length in Hs. rewrite length_seqZ in Hs.
  change NPAGES with 32768 in *. lia.
Qed.

(** Adding a block that meets no free page. *)
Lemma blocks_ok_push B o i :
  blocks_ok B -> 0 <= o <= MAX_ORDER -> valid_blk o i ->
  (forall j, in_blk o i j -> ~ freep B j) ->
  blocks_ok (Bset B o (i :: B o)).
Proof.
  intros HB Ho Hv Hd.
  assert (Hin : forall o' i', i' ∈ Bset B o (i :: B o) o' ->
    (o' = o /\ i' = i) \/ i' ∈ B o').
  { intros o' i'. unfold Bset. case_decide; subst; set_solver. }
  split.
  - intros o' i' Ho' Hi'. destruct (Hin _ _ Hi') as [[-> ->]|Hi]; [done|].
    by eapply bk_valid.
  - intros o' Ho'. unfold Bset. case_decide; [subst|by apply bk_nodup].
    apply NoDup_cons. split; [|by apply bk_nodup].
    intros Hi. apply (Hd i); [apply in_blk_self; lia|].
    exists o, i. split; [done|]. split; [done|]. apply in_blk_self. lia.
  - intros o1 i1 o2 i2 j Ho1 Ho2 H1 H2 Hj1 Hj2.
    destruct (Hin _ _ H1) as [[-> ->]|H1']; destruct (Hin _ _ H2) as [[-> ->]|H2'].
    + done.
    + destruct (Hd j Hj1). by exists o2, i2.
    + destruct (Hd j Hj2). by exists o1, i1.
    + by eapply bk_disj.
Qed.

Lemma freep_push B o i j :
  0 <= o <= MAX_ORDER ->
  freep (Bset B o (i :: B o)) j <-> freep B j \/ in_blk o i j.
Proof.
  intros Ho. split.
  - intros (o' & i' & Ho' & Hi' & Hj). unfold Bset in Hi'. case_decide.
    + subst. apply elem_of_cons in Hi' as [->|Hi']; [by right|left]. by exists o, i'.
    + left. by exists o', i'.
  - intros [(o' & i' & Ho' & Hi' & Hj)|Hj].
    + exists o', i'. split; [done|]. split; [|done]. unfold Bset.
      case_decide; subst; set_solver.
    + exists o, i. rewrite Bset_eq. set_solver.
Qed.

(** Taking a block out of its list. *)
Lemma blocks_ok_take B o l1 i l2 :
  blocks_ok B -> 0 <= o <= MAX_ORDER -> B o = l1 ++ i :: l2 ->
  blocks_ok (Bset B o (l1 ++ l2)).
Proof.
  intros HB Ho E.
  assert (Hin : forall o' i', i' ∈ Bset B o (l1 ++ l2) o' -> i' ∈ B o').
  { intros o' i'. unfold Bset. case_decide; subst; [rewrite E|]; set_solver. }
  split.
  - intros o' i' Ho' Hi'. eapply bk_valid; eauto.
  - intros o' Ho'. unfold Bset. case_decide; [subst|by apply bk_nodup].
    pose proof (bk_nodup _ HB o Ho) as Hn. rewrite E in Hn.
    eapply sublist_NoDup; [exact Hn|]. apply sublist_app; [done|]. by apply sublist_cons.
  - intros o1 i1 o2 i2 j Ho1 Ho2 H1 H2. eapply bk_disj; eauto.
Qed.

Lemma freep_take B o l1 i l2 j :
  blocks_ok B -> 0 <= o <= MAX_ORDER -> B o = l1 ++ i :: l2 ->
  freep (Bset B o (l1 ++ l2)) j <-> freep B j /\ ~ in_blk o i j.
Proof.
  intros HB Ho E. split.
  - intros (o' & i' & Ho' & Hi' & Hj).
    assert (Hi : i' ∈ B o') by (unfold Bset in Hi'; case_decide; subst;
      [rewrite E|]; set_solver).
    split; [by exists o', i'|]. intros Hj'.
    destruct (bk_disj _ HB o' i' o i j Ho' Ho Hi ltac:(rewrite E; set_solver) Hj Hj')
      as [-> ->].
    rewrite Bset_eq in Hi'.
    pose proof (bk_nodup _ HB o Ho) as Hn. rewrite E in Hn.
    apply NoDup_app in Hn as (_ & Hn1 & Hn2). apply NoDup_cons in Hn2 as [Hn2 _].
    apply elem_of_app in Hi' as [Hi'|Hi']; [|done]. apply (Hn1 i Hi'). set_solver.
  - intros [(o' & i' & Ho' & Hi' & Hj) Hnj]. exists o', i'.
    split; [done|]. split; [|done]. unfold Bset. case_decide; [subst|done].
    rewrite E in Hi'. assert (i' <> i) by (intros ->; done). set_solver.
Qed.

(** ** Specifications of the list and mark primitives *)

(** [s] with its allocator structure and memory replaced. *)
Definition km (s : kstate) (k : kmem_t) (m : mem) : kstate :=
  set_mem m (set_kmem k s).

Lemma km_id s : km s (k_kmem s) (k_mem s) = s.
Proof. by destruct s. Qed.

(** The lists changed, the counts and marks did not. *)
Definition same_arrays (k k' : kmem_t) : Prop :=
  refcnt k' = refcnt k /\ page_state k' = page_state k.

Lemma set_block_state_spec s idx order st :
  0 <= order -> 0 <= idx -> idx + 2^order <= NPAGES ->
  runs (set_block_state idx order st s) (fun _ s' =>
    exists ps, s' = km s (set_page_state ps (k_kmem s)) (k_mem s) /\
      (forall j, in_blk order idx j -> aget ps j = st) /\
      (forall j, ~ in_blk order idx j -> aget ps j = aget (page_state (k_kmem s)) j)).
Proof.
  intros Ho Hi Hn. unfold set_block_state. rewrite Z.shiftl_1_l.
  assert (Hp : 0 < 2^order) by (by apply Z.pow_pos_nonneg).
  apply runs_for with (Inv := fun i s' =>
    exists ps, s' = km s (set_page_state ps (k_kmem s)) (k_mem s) /\
      (forall j, idx <= j < idx + i -> aget ps j = st) /\
      (forall j, ~ (idx <= j < idx + i) ->
         aget ps j = aget (page_state (k_kmem s)) j)).
  - exists (page_state (k_kmem s)). split.
    + by destruct s as [????[]].
    + split; [lia|done].
  - intros i s' Hir (ps & -> & Hin & Hout). unfold put_page_state.
    replace ((0 <=? idx + i) && (idx + i <? NPAGES)) with true by lia. simpl.
    exists (<[idx + i := st]> ps). split; [done|]. unfold aget in *. split.
    + intros j Hj. rewrite lookup_insert. case_decide; [done|]. apply Hin. lia.
    + intros j Hj. rewrite lookup_insert_ne by lia. apply Hout. lia.
  - rewrite Z2Nat.id by lia. unfold in_blk. intros s' H. exact H.
Qed.

Lemma get_area_runs B s o Q :
  linked B (k_kmem s) (k_mem s) -> 0 <= o <= MAX_ORDER ->
  (forall a, free_areas (k_kmem s) !! Z.to_nat o = Some a ->
     chain (k_mem s) (freelist a) (B o) -> nr_free a = Z.of_nat (length (B o)) ->
     Q a s) ->
  runs (get_area o s) Q.
Proof.
  intros HL Ho HQ. destruct (HL o Ho) as (a & Ha & Hc & Hn).
  unfold get_area. rewrite Ha. replace (0 <=? o) with true by lia. simpl. auto.
Qed.

(** Replacing the head and count of one list. *)
Lemma linked_put B k m m' o l p :
  linked B k m -> 0 <= o <= MAX_ORDER ->
  chain m' p l ->
  (forall o', 0 <= o' <= MAX_ORDER -> o' <> o -> forall q,
     chain m q (B o') -> chain m' q (B o')) ->
  linked (Bset B o l)
    (set_free_areas (<[Z.to_nat o := mkArea p (Z.of_nat (length l))]> (free_areas k)) k)
    m'.
Proof.
  intros HL Ho Hc Hfr o' Ho'. destruct (HL o' Ho') as (a & Ha & Hca & Hn).
  unfold Bset. case_decide as Hd.
  - subst o'. exists (mkArea p (Z.of_nat (length l))). simpl.
    rewrite list_lookup_insert_eq; [done|].
    by eapply lookup_lt_Some.
  - exists a. simpl. rewrite list_lookup_insert_ne by lia.
    split; [done|]. split; [|done]. by apply Hfr.
Qed.

Lemma u32_len B o (d : Z) :
  blocks_ok B -> 0 <= o <= MAX_ORDER -> -1 <= d <= 1 ->
  0 <= Z.of_nat (length (B o)) + d ->
  u32 (Z.of_nat (length (B o)) + d) = Z.of_nat (length (B o)) + d.
Proof.
  intros HB Ho Hd Hp. pose proof (blk_length B o HB Ho).
  change NPAGES with 32768 in *. unfold u32. apply Z.mod_small. lia.
Qed.

Lemma freelist_push_spec s B o i :
  linked B (k_kmem s) (k_mem s) -> blocks_ok B -> 0 <= o <= MAX_ORDER ->
  0 <= i < NPAGES -> ~ freep B i ->
  runs (freelist_push o (idx2pa i) s) (fun _ s' =>
    exists k' m', s' = km s k' m' /\ linked (Bset B o (i :: B o)) k' m' /\
      same_arrays (k_kmem s) k' /\
      forall a, ~ (idx2pa i <= a < idx2pa i + 4) -> load8 m' a = load8 (k_mem s) a).
Proof.
  intros HL HB Ho Hi Hf. unfold freelist_push.
  apply runs_bind. eapply get_area_runs; [done..|]. intros a Ha Hc Hn. simpl.
  rewrite Hn.
  assert (Hst : forall o' q, 0 <= o' <= MAX_ORDER -> chain (k_mem s) q (B o') ->
    chain (store32 (k_mem s) (idx2pa i) (freelist a)) q (B o')).
  { intros o' q Ho' Hq. apply seg_store; [done| | |done].
    - intros j Hj. by eapply blk_range.
    - intros Hj. apply Hf. exists o', i. split; [done|]. split; [done|].
      apply in_blk_self. lia. }
  eexists _, _. split; [reflexivity|]. split; [|split; [done|]].
  - rewrite u32_len by (done || lia).
    replace (Z.of_nat (length (B o)) + 1) with (Z.of_nat (length (i :: B o)))
      by (simpl; lia).
    apply linked_put with (m := k_mem s); [done|done| |auto].
    split; [done|]. simpl. rewrite load32_store32_eq, Z.mod_small; [by apply Hst|].
    destruct (B o) as [|b l] eqn:HBo; simpl in Hc; [by rewrite Hc|].
    destruct Hc as [-> _]. apply idx2pa_range.
    eapply blk_range; [done|exact Ho|]. rewrite HBo. set_solver.
  - intros x Hx. by apply load8_store32_out.
Qed.

Lemma freelist_pop_spec s B o i l :
  linked B (k_kmem s) (k_mem s) -> blocks_ok B -> 0 <= o <= MAX_ORDER ->
  B o = i :: l ->
  runs (freelist_pop o s) (fun r s' => r = idx2pa i /\
    exists k', s' = km s k' (k_mem s) /\ linked (Bset B o l) k' (k_mem s) /\
      same_arrays (k_kmem s) k').
Proof.
  intros HL HB Ho HBo. unfold freelist_pop.
  apply runs_bind. eapply get_area_runs; [done..|]. intros a Ha Hc Hn. simpl.
  assert (Hi : 0 <= i < NPAGES)
    by (eapply blk_range; [done|exact Ho|]; rewrite HBo; set_solver).
  rewrite Hn. rewrite HBo in Hc. destruct Hc as [-> Hc].
  destruct (Z.eqb_spec (idx2pa i) 0); [by apply idx2pa_nonzero in Hi|]. simpl.
  split; [done|]. eexists. split; [reflexivity|]. split; [|done].
  replace (Z.of_nat (length (B o)) - 1) with (Z.of_nat (length (B o)) + -1) by lia.
  rewrite u32_len by (rewrite ?HBo; simpl; done || lia).
  replace (Z.of_nat (length (B o)) + -1) with (Z.of_nat (length l))
    by (rewrite HBo; simpl; lia).
  by apply linked_put with (m := k_mem s).
Qed.

(** A block is in one list only. *)
Lemma blk_one_list B o o' i :
  blocks_ok B -> 0 <= o <= MAX_ORDER -> 0 <= o' <= MAX_ORDER ->
  i ∈ B o -> i ∈ B o' -> o = o'.
Proof.
  intros HB Ho Ho' Hi Hi'.
  apply (bk_disj _ HB o i o' i i); try done; apply in_blk_self; lia.
Qed.

(** Unlinking the block after [prev] (or the first block). *)
Lemma unlink_linked B k m o a l1 b l2 :
  blocks_ok B -> linked B k m -> 0 <= o <= MAX_ORDER -> B o = l1 ++ b :: l2 ->
  free_areas k !! Z.to_nat o = Some a -> chain m (freelist a) (B o) ->
  let next := load32 m (idx2pa b) in
  let m' := match last l1 with
            | None => m | Some j => store32 m (idx2pa j) next end in
  let p' := match last l1 with None => next | Some _ => freelist a end in
  linked (Bset B o (l1 ++ l2))
    (set_free_areas
       (<[Z.to_nat o := mkArea p' (Z.of_nat (length (l1 ++ l2)))]> (free_areas k)) k)
    m' /\
  (forall x, (forall i, i ∈ B o -> ~ (idx2pa i <= x < idx2pa i + 4)) ->
     load8 m' x = load8 m x).
Proof.
  intros HB HL Ho E Ha Hc next m' p'.
  unfold chain in Hc. rewrite E, seg_app in Hc. destruct Hc as (r & H1 & -> & H2).
  fold next in H2.
  destruct l1 as [|j l1] using rev_ind.
  - subst m' p'. simpl. split; [|done].
    by apply linked_put with (m := m).
  - clear IHl1. subst m' p'. rewrite last_snoc in *.
    rewrite seg_snoc in H1. destruct H1 as [H1 Hjb].
    assert (Hj : j ∈ B o) by (rewrite E; set_solver).
    assert (Hr : forall x, x ∈ B o -> 0 <= x < NPAGES)
      by (intros x Hx; by eapply blk_range).
    pose proof (bk_nodup _ HB o Ho) as Hn. rewrite E in Hn, Hr.
    apply NoDup_app in Hn as (Hn1 & Hn2 & Hn3).
    apply NoDup_app in Hn1 as (_ & Hn1 & _).
    split.
    + apply linked_put with (m := m); [done|done| |].
      * unfold chain. rewrite <- app_assoc. apply seg_app.
        exists (idx2pa j). split.
        { apply seg_store; [apply Hr; set_solver|intros; apply Hr; set_solver| |done].
          intros Hx. apply (Hn1 j Hx). set_solver. }
        simpl. split; [done|].
        rewrite load32_store32_eq, Z.mod_small by apply load32_range.
        apply seg_store; [apply Hr; set_solver|intros; apply Hr; set_solver| |done].
        intros Hx. apply (Hn2 j); set_solver.
      * intros o' Ho' Hne q Hq. apply seg_store; [by apply (blk_range B o)| | |done].
        { intros x Hx. by apply (blk_range B o'). }
        intros Hx. apply Hne. by apply (blk_one_list B o' o j).
    + intros x Hx. apply load8_store32_out. by apply Hx.
Qed.

(** What a search for block [b] in the list of order [o] may do. *)
Definition removed (B : Z -> list Z) (o b : Z) (s : kstate) (r : Z) (s' : kstate)
    : Prop :=
  (r = 0 /\ ~ (b ∈ B o) /\ s' = s) \/
  (r = 1 /\ exists l1 l2 k' m', B o = l1 ++ b :: l2 /\ s' = km s k' m' /\
     linked (Bset B o (l1 ++ l2)) k' m' /\ same_arrays (k_kmem s) k' /\
     forall x, (forall i, i ∈ B o -> ~ (idx2pa i <= x < idx2pa i + 4)) ->
       load8 m' x = load8 (k_mem s) x).

Lemma freelist_remove_loop_spec s B o b a l2 : forall l1 fuel p prev,
  blocks_ok B -> linked B (k_kmem s) (k_mem s) -> 0 <= o <= MAX_ORDER ->
  0 <= b < NPAGES ->
  free_areas (k_kmem s) !! Z.to_nat o = Some a ->
  chain (k_mem s) (freelist a) (B o) ->
  nr_free a = Z.of_nat (length (B o)) ->
  B o = l1 ++ l2 -> (length l2 < fuel)%nat -> b ∉ l1 ->
  chain (k_mem s) p l2 ->
  prev = match last l1 with None => 0 | Some j => idx2pa j end ->
  runs (freelist_remove_loop fuel o (idx2pa b) p prev s) (removed B o b s).
Proof.
  induction l2 as [|i l2 IH]; intros l1 fuel p prev HB HL Ho Hb Ha Hc Hn E Hf Hni Hp Hprev.
  - destruct fuel as [|f]; [simpl in Hf; lia|].
    simpl in Hp. unfold chain in Hp. simpl in Hp. subst p. simpl. left.
    rewrite E, app_nil_r. done.
  - destruct fuel as [|f]; [simpl in Hf; lia|].
    destruct Hp as [-> Hp].
    assert (Hi : 0 <= i < NPAGES)
      by (eapply blk_range; [done|exact Ho|]; rewrite E; set_solver).
    cbn [freelist_remove_loop].
    destruct (Z.eqb_spec (idx2pa i) 0); [by apply idx2pa_nonzero in Hi|].
    destruct (Z.eqb_spec (idx2pa i) (idx2pa b)) as [Heq|Hne].
    + apply idx2pa_inj in Heq; [subst i|done|done].
      assert (Ho' : (Z.to_nat o < length (free_areas (k_kmem s)))%nat)
        by (by eapply lookup_lt_Some).
      destruct (unlink_linked B _ _ o a l1 b l2 HB HL Ho E Ha Hc) as [Hl Hfr].
      rewrite E in Hn.
      replace (Z.of_nat (length (l1 ++ l2))) with (u32 (nr_free a - 1)) in Hl.
      2: { pose proof (blk_length B o HB Ho). rewrite E in *.
           rewrite !length_app in *. simpl in *. change NPAGES with 32768 in *.
           unfold u32. rewrite Hn, Z.mod_small; lia. }
      apply runs_bind. simpl.
      destruct (last l1) as [j|] eqn:Hlast.
      * assert (Hj : j ∈ B o).
        { apply last_Some in Hlast as [l1' ->]. rewrite E. set_solver. }
        assert (Hj0 : idx2pa j <> 0)
          by (apply idx2pa_nonzero; by apply (blk_range B o)).
        subst prev. destruct (Z.eqb_spec (idx2pa j) 0); [done|]. simpl.
        unfold bind, get_area, put_area, upd_mem, upd_kmem, modify, ret. simpl.
        rewrite Ha. replace (0 <=? o) with true by lia. simpl.
        right. split; [done|]. eexists l1, l2, _, _. split; [done|].
        split; [|split; [exact Hl|split; [done|exact Hfr]]]. reflexivity.
      * subst prev. simpl.
        unfold bind, get_area, put_area, upd_mem, upd_kmem, modify, ret. simpl.
        rewrite Ha. replace (0 <=? o) with true by lia. simpl.
        rewrite list_lookup_insert_eq by done. simpl.
        rewrite list_insert_insert_eq. simpl.
        right. split; [done|]. eexists l1, l2, _, _. split; [done|].
        split; [|split; [exact Hl|split; [done|exact Hfr]]]. reflexivity.
    + apply runs_bind. simpl.
      apply (IH (l1 ++ [i])); try done.
      * by rewrite <- app_assoc.
      * simpl in Hf. lia.
      * assert (b <> i) by (intros ->; done). set_solver.
      * by rewrite last_snoc.
Qed.

Lemma freelist_remove_spec s B o b :
  blocks_ok B -> linked B (k_kmem s) (k_mem s) -> 0 <= o <= MAX_ORDER ->
  0 <= b < NPAGES ->
  runs (freelist_remove o (idx2pa b) s) (removed B o b s).
Proof.
  intros HB HL Ho Hb. unfold freelist_remove.
  apply runs_bind. eapply get_area_runs; [done..|]. intros a Ha Hc Hn.
  eapply (freelist_remove_loop_spec s B o b a (B o) []); try done; [|set_solver].
  pose proof (blk_length B o HB Ho). change (NPAGES + 1) with 32769.
  change NPAGES with 32768 in *. lia.
Qed.

(** ** Splitting and merging *)

(** Exactly the pages in [F] carry the free mark. *)
Definition marked (F : Z -> Prop) (k : kmem_t) : Prop :=
  forall j, 0 <= j < NPAGES -> (aget (page_state k) j = PG_BUDDY_FREE <-> F j).

#[export] Instance marked_proper :
  Proper (pointwise_relation Z iff ==> eq ==> iff) marked.
Proof.
  intros F F' HF k ? <-. unfold marked.
  split; intros H j Hj; specialize (H j Hj); specialize (HF j); tauto.
Qed.

(** Address [a] lies in page [j]. *)
Definition page_addr (j a : Z) : Prop := idx2pa j <= a < idx2pa j + PGSIZE.

(** Memory is unchanged outside the pages in [P]. *)
Definition mem_out (P : Z -> Prop) (m m' : mem) : Prop :=
  forall a, (forall j, P j -> ~ page_addr j a) -> load8 m' a = load8 m a.

Lemma mem_out_refl P m : mem_out P m m.
Proof. done. Qed.

Lemma mem_out_trans (P Q R : Z -> Prop) m1 m2 m3 :
  (forall j, P j -> R j) -> (forall j, Q j -> R j) ->
  mem_out P m1 m2 -> mem_out Q m2 m3 -> mem_out R m1 m3.
Proof. intros HP HQ H1 H2 a Ha. rewrite H2, H1 by auto. done. Qed.

Lemma mem_out_mono (P Q : Z -> Prop) m m' :
  (forall j, P j -> Q j) -> mem_out P m m' -> mem_out Q m m'.
Proof. intros HP H a Ha. apply H. auto. Qed.

Lemma mark_block s idx order F :
  0 <= order -> 0 <= idx -> idx + 2^order <= NPAGES ->
  marked F (k_kmem s) ->
  runs (set_block_state idx order PG_BUDDY_FREE s) (fun _ s' =>
    exists ps, s' = km s (set_page_state ps (k_kmem s)) (k_mem s) /\
      marked (fun j => F j \/ in_blk order idx j) (set_page_state ps (k_kmem s))).
Proof.
  intros Ho Hi Hn HF.
  eapply runs_mono; [by apply set_block_state_spec|].
  intros _ s' (ps & -> & Hin & Hout). exists ps. split; [done|].
  intros j Hj. simpl. destruct (decide (idx <= j < idx + 2^order)).
  - rewrite Hin by done. unfold in_blk. tauto.
  - rewrite Hout, (HF j Hj) by done. unfold in_blk. tauto.
Qed.

Lemma unmark_block s idx order F :
  0 <= order -> 0 <= idx -> idx + 2^order <= NPAGES ->
  marked F (k_kmem s) ->
  runs (set_block_state idx order 0 s) (fun _ s' =>
    exists ps, s' = km s (set_page_state ps (k_kmem s)) (k_mem s) /\
      marked (fun j => F j /\ ~ in_blk order idx j) (set_page_state ps (k_kmem s))).
Proof.
  intros Ho Hi Hn HF.
  eapply runs_mono; [by apply set_block_state_spec|].
  intros _ s' (ps & -> & Hin & Hout). exists ps. split; [done|].
  intros j Hj. simpl. unfold PG_BUDDY_FREE.
  destruct (decide (idx <= j < idx + 2^order)).
  - rewrite Hin by done. unfold in_blk. split; [done|tauto].
  - rewrite Hout, (HF j Hj) by done. unfold in_blk. tauto.
Qed.

Lemma pow2_S o : 0 <= o -> 2^(o + 1) = 2 * 2^o.
Proof. intros. rewrite Z.pow_add_r by lia. lia. Qed.

(** The two halves of an aligned block are aligned. *)
Lemma halves_valid o i :
  0 <= o -> valid_blk (o + 1) i -> valid_blk o i /\ valid_blk o (i + 2^o).
Proof.
  intros Ho (H0 & Hm & Hn). rewrite pow2_S in * by done.
  assert (Hp : 0 < 2^o) by (by apply Z.pow_pos_nonneg).
  apply Z.mod_divide in Hm; [|lia]. destruct Hm as [q ->].
  unfold valid_blk. replace (q * (2 * 2^o)) with (q * 2 * 2^o) in * by lia.
  replace (q * 2 * 2^o + 2^o) with ((q * 2 + 1) * 2^o) by lia.
  rewrite !Z.mod_mul by lia. lia.
Qed.

Lemma push_mem_out i m m' :
  (forall a, ~ (idx2pa i <= a < idx2pa i + 4) -> load8 m' a = load8 m a) ->
  mem_out (fun j => j = i) m m'.
Proof.
  intros H a Ha. apply H. intros Hr. apply (Ha i eq_refl).
  unfold page_addr, PGSIZE. lia.
Qed.

(** ** Buddies *)

Definition buddy_of (o i : Z) : Z := Z.lxor i (2^o).

(** Free blocks are maximally coalesced: no free block has a free buddy of
    the same order. *)
Definition coalesced (B : Z -> list Z) : Prop :=
  forall o i, 0 <= o < MAX_ORDER -> i ∈ B o -> ~ (buddy_of o i ∈ B o).

Lemma buddy_of_invol o i : buddy_of o (buddy_of o i) = i.
Proof. unfold buddy_of. by rewrite Z.lxor_assoc, Z.lxor_nilpotent, Z.lxor_0_r. Qed.

Lemma buddy_of_eq o i :
  0 <= o -> buddy_of o i = if Z.testbit i o then i - 2^o else i + 2^o.
Proof.
  intros Ho.
  assert (Hadd : forall x, Z.testbit x o = false -> x + 2^o = Z.lxor x (2^o)).
  { intros x Hx. apply Z.add_nocarry_lxor. apply Z.bits_inj'. intros k Hk.
    rewrite Z.land_spec, Z.bits_0.
    destruct (decide (k = o)) as [->|Hne]; [by rewrite Hx|].
    rewrite Z.pow2_bits_false by done. apply andb_false_r. }
  unfold buddy_of. destruct (Z.testbit i o) eqn:Hb; [|by rewrite Hadd].
  pose proof (Hadd (Z.lxor i (2^o))) as H.
  rewrite Z.lxor_spec, Hb, Z.pow2_bits_true in H by done. specialize (H eq_refl).
  rewrite Z.lxor_assoc, Z.lxor_nilpotent, Z.lxor_0_r in H. lia.
Qed.

(** A block and its buddy make up the block of the next order that starts at
    the lower of the two. *)
Lemma buddy_join o i :
  0 <= o < MAX_ORDER -> valid_blk o i ->
  let b := buddy_of o i in
  let lo := if b <? i then b else i in
  valid_blk o b /\ b <> i /\ valid_blk (o + 1) lo /\
  forall j, in_blk (o + 1) lo j <-> in_blk o i j \/ in_blk o b j.
Proof.
  intros Ho (H0 & Hm & Hn) b lo.
  assert (Hp : 0 < 2^o) by (apply Z.pow_pos_nonneg; lia).
  apply Z.mod_divide in Hm as [q Hq]; [|lia].
  assert (Ht : Z.testbit i o = Z.odd q).
  { rewrite <- Z.bit0_odd. replace o with (0 + o) at 1 by lia.
    subst i. rewrite <- Z.div_pow2_bits by lia. by rewrite Z.div_mul by lia. }
  assert (HN : exists n, 0 <= n /\ NPAGES = n * 2^(o + 1)).
  { exists (2^(14 - o)). split; [apply Z.pow_nonneg; lia|].
    rewrite <- Z.pow_add_r by (change MAX_ORDER with 15 in Ho; lia).
    by replace (14 - o + (o + 1)) with 15 by lia. }
  destruct HN as (n & Hn0 & HN). rewrite HN in *.
  pose proof (Z.odd_spec q) as Hodd. pose proof (Z.even_spec q) as Heven.
  rewrite <- Z.negb_odd in Heven.
  unfold valid_blk, in_blk, lo, b. rewrite buddy_of_eq, Ht by lia.
  rewrite HN, pow2_S in * by lia.
  destruct (Z.odd q).
  - destruct (proj1 Hodd eq_refl) as [r ->].
    destruct (Z.ltb_spec (i - 2^o) i); [|lia].
    assert (E : i - 2^o = r * (2 * 2^o)) by lia.
    assert (E' : i - 2^o = 2 * r * 2^o) by lia.
    assert (0 <= r) by nia.
    split_and!; try lia.
    + rewrite E'. apply Z.mod_mul. lia.
    + rewrite E. apply Z.mod_mul. lia.
  - destruct (proj1 Heven eq_refl) as [r ->].
    destruct (Z.ltb_spec (i + 2^o) i); [lia|].
    assert (E : i = r * (2 * 2^o)) by lia.
    assert (r + 1 <= n) by nia.
    assert (i + 2 * 2^o <= n * (2 * 2^o)) by nia.
    split_and!; try lia.
    + replace (i + 2^o) with ((2 * r + 1) * 2^o) by lia. apply Z.mod_mul. lia.
    + rewrite E. apply Z.mod_mul. lia.
Qed.

Lemma coalesced_push B o i :
  coalesced B -> 0 <= o < MAX_ORDER -> ~ (buddy_of o i ∈ B o) ->
  buddy_of o i <> i -> coalesced (Bset B o (i :: B o)).
Proof.
  intros HC Ho Hb Hne o' i' Ho' Hi' Hbi. unfold Bset in *. case_decide as Hd.
  - subst o'. apply elem_of_cons in Hi' as [->|Hi'].
    + apply elem_of_cons in Hbi as [|]; done.
    + apply elem_of_cons in Hbi as [E|Hbi]; [|by apply (HC o i')].
      apply Hb. rewrite <- E. by rewrite buddy_of_invol.
  - by apply (HC o' i').
Qed.

Lemma coalesced_push_max B i :
  coalesced B -> coalesced (Bset B MAX_ORDER (i :: B MAX_ORDER)).
Proof.
  intros HC o' i' Ho' Hi' Hbi. rewrite Bset_ne in * by lia. by apply (HC o' i').
Qed.

Lemma coalesced_take B o l1 i l2 :
  coalesced B -> B o = l1 ++ i :: l2 -> coalesced (Bset B o (l1 ++ l2)).
Proof.
  intros HC E o' i' Ho' Hi' Hbi.
  assert (forall x, x ∈ Bset B o (l1 ++ l2) o' -> x ∈ B o').
  { intros x. unfold Bset. case_decide; subst; [rewrite E|]; set_solver. }
  apply (HC o' i'); auto.
Qed.

(** The lower half's buddy is the upper half. *)
Lemma buddy_low o i : 0 <= o -> valid_blk (o + 1) i -> buddy_of o i = i + 2^o.
Proof.
  intros Ho (H0 & Hm & _).
  apply Z.mod_divide in Hm as [q ->]; [|apply Z.pow_nonzero; lia].
  rewrite buddy_of_eq, Z.mul_pow2_bits_low by lia. done.
Qed.

Lemma buddy_split_spec o : forall s B idx,
  Z.of_nat o <= MAX_ORDER ->
  blocks_ok B -> linked B (k_kmem s) (k_mem s) -> marked (freep B) (k_kmem s) ->
  coalesced B -> valid_blk (Z.of_nat o) idx ->
  (forall j, in_blk (Z.of_nat o) idx j -> ~ freep B j) ->
  runs (buddy_split o idx s) (fun _ s' =>
    exists B' k' m', s' = km s k' m' /\
      blocks_ok B' /\ linked B' k' m' /\ marked (freep B') k' /\
      coalesced B' /\ refcnt k' = refcnt (k_kmem s) /\
      (forall j, freep B' j <->
         freep B j \/ (in_blk (Z.of_nat o) idx j /\ j <> idx)) /\
      mem_out (in_blk (Z.of_nat o) idx) (k_mem s) m').
Proof.
  induction o as [|o IH]; intros s B idx Ho HB HL HM HCo Hv Hd.
  - simpl. exists B, (k_kmem s), (k_mem s). rewrite km_id.
    split_and!; try done. intros j. split; [by left|].
    intros [H|[H Hne]]; [done|]. unfold in_blk in H. simpl in H. lia.
  - cbn [buddy_split]. rewrite Z.shiftl_1_l.
    replace (Z.of_nat (S o)) with (Z.of_nat o + 1) in * by lia.
    destruct (halves_valid (Z.of_nat o) idx ltac:(lia) Hv) as [Hv1 Hv2].
    set (bud := idx + 2 ^ Z.of_nat o) in *.
    assert (Hp : 0 < 2^Z.of_nat o) by (apply Z.pow_pos_nonneg; lia).
    assert (Hsub : forall j, in_blk (Z.of_nat o) idx j \/ in_blk (Z.of_nat o) bud j
      <-> in_blk (Z.of_nat o + 1) idx j).
    { intros j. unfold in_blk. rewrite pow2_S by lia. lia. }
    pose proof Hv2 as (Hb0 & Hba & Hbn).
    apply runs_bind. eapply runs_mono; [apply mark_block; [lia|done|done|exact HM]|].
    intros _ s1 (ps & -> & HM1). apply runs_bind.
    eapply runs_mono.
    { apply freelist_push_spec with (B := B); [done|done|lia| |].
      { apply (valid_blk_range (Z.of_nat o)); [lia|done]. }
      apply Hd. apply Hsub. right. apply in_blk_self. lia. }
    intros _ s2 (k2 & m2 & -> & HL2 & [HR2 HP2] & Hm2).
    assert (HB2 : blocks_ok (Bset B (Z.of_nat o) (bud :: B (Z.of_nat o)))).
    { apply blocks_ok_push; [done|lia|done|]. intros j Hj. apply Hd, Hsub. by right. }
    assert (Hbd : buddy_of (Z.of_nat o) bud = idx)
      by (unfold bud; rewrite <- (buddy_low _ idx) by (done || lia);
          apply buddy_of_invol).
    assert (HC2 : coalesced (Bset B (Z.of_nat o) (bud :: B (Z.of_nat o)))).
    { apply coalesced_push; [done|lia| |rewrite Hbd; lia]. rewrite Hbd. intros Hi.
      apply (Hd idx); [apply Hsub; left; apply in_blk_self; lia|].
      exists (Z.of_nat o), idx. split; [lia|]. split; [done|apply in_blk_self; lia]. }
    eapply runs_mono.
    { eapply (IH _ _ idx); [lia|exact HB2|exact HL2| |exact HC2|done|].
      - intros j Hj. simpl. rewrite HP2. simpl. rewrite (HM1 j Hj), freep_push by lia.
        done.
      - intros j Hj. rewrite freep_push by lia. intros [Hf|Hf].
        + apply (Hd j); [apply Hsub; by left|done].
        + unfold in_blk in *. lia. }
    intros _ s3 (B' & k' & m' & -> & HB' & HL' & HM' & HC' & HR' & HF' & Hm').
    exists B', k', m'. split; [done|]. split; [done|]. split; [done|]. split; [done|]. split; [done|].
    split; [by rewrite HR'; simpl; rewrite HR2|]. split.
    + intros j. rewrite HF', freep_push by lia. rewrite <- Hsub.
      assert (in_blk (Z.of_nat o) bud j -> j <> idx)
        by (unfold in_blk, bud; lia). tauto.
    + eapply mem_out_trans; [| |by apply push_mem_out|exact Hm']; simpl.
      * intros j ->. apply Hsub. right. apply in_blk_self. lia.
      * intros j Hj. apply Hsub. by left.
Qed.


(** What the merge loop leaves, started on the block of order [order] at [idx]
    held outside the lists [B]: the block in hand, [r], and lists that
    together cover the same pages. *)
Definition merged (B : Z -> list Z) (idx order : Z) (s : kstate) (r : Z * Z)
    (s' : kstate) : Prop :=
  exists B' k' m', s' = km s k' m' /\ blocks_ok B' /\ linked B' k' m' /\
    coalesced B' /\ 0 <= r.2 <= MAX_ORDER /\ valid_blk r.2 r.1 /\
    (forall j, in_blk r.2 r.1 j -> ~ freep B' j) /\
    (r.2 < MAX_ORDER -> ~ (buddy_of r.2 r.1 ∈ B' r.2)) /\
    marked (fun j => freep B' j \/ in_blk r.2 r.1 j) k' /\
    refcnt k' = refcnt (k_kmem s) /\
    (forall j, freep B' j \/ in_blk r.2 r.1 j <->
       freep B j \/ in_blk order idx j) /\
    mem_out (freep B) (k_mem s) m'.

(** The block in hand, marked but in no list, is merged upward until its buddy
    is not a free block of its order. *)
Lemma buddy_merge_spec n : forall s B idx order,
  0 <= order -> order + Z.of_nat n = MAX_ORDER ->
  blocks_ok B -> linked B (k_kmem s) (k_mem s) -> coalesced B ->
  valid_blk order idx -> (forall j, in_blk order idx j -> ~ freep B j) ->
  marked (fun j => freep B j \/ in_blk order idx j) (k_kmem s) ->
  runs (buddy_merge n idx order s) (merged B idx order s).
Proof.
  induction n as [|n IH]; intros s B idx o Ho Hn HB HL HC Hv Hd HM.
  { simpl. exists B, (k_kmem s), (k_mem s). rewrite km_id.
    split_and!; try done; simpl; lia. }
  cbn [buddy_merge]. rewrite Z.shiftl_1_l.
  change (Z.lxor idx (2^o)) with (buddy_of o idx).
  destruct (buddy_join o idx ltac:(lia) Hv) as (Hvb & Hbi & Hvlo & Hlo).
  set (b := buddy_of o idx) in *.
  assert (Hbr : 0 <= b < NPAGES) by (apply (valid_blk_range o); [lia|done]).
  replace ((b <? 0) || (b >=? NPAGES)) with false by lia.
  (* leaving the loop with the block in hand *)
  assert (Hleave : forall s0, s0 = s -> ~ (b ∈ B o) ->
    runs (Ok (idx, o) s0) (merged B idx o s)).
  { intros s0 -> Hnb. simpl. exists B, (k_kmem s), (k_mem s). rewrite km_id.
    split_and!; try done; simpl; lia. }
  apply runs_bind. unfold get_page_state.
  replace ((0 <=? b) && (b <? NPAGES)) with true by lia. simpl.
  destruct (Z.eqb_spec (aget (page_state (k_kmem s)) b) PG_BUDDY_FREE) as [Hst|Hst];
    simpl.
  2: { apply Hleave; [done|]. intros Hb. apply Hst. apply HM; [done|]. left.
       exists o, b. split; [lia|]. split; [done|apply in_blk_self; lia]. }
  apply runs_bind.
  eapply runs_mono; [apply (freelist_remove_spec s B o b); [done|done|lia|done]|].
  intros r s1 [(-> & Hnb & ->)|(-> & l1 & l2 & k1 & m1 & E & -> & HL1 & [HR1 HP1] & Hm1)].
  { simpl. by apply Hleave. }
  simpl.
  pose proof (fun j => freep_take B o l1 b l2 j HB ltac:(lia) E) as HF1.
  set (B1 := Bset B o (l1 ++ l2)) in *.
  assert (HB1 : blocks_ok B1) by (eapply blocks_ok_take; [done|lia|done]).
  assert (HC1 : coalesced B1) by (by eapply coalesced_take).
  assert (Hfb : forall j, in_blk o b j -> freep B j).
  { intros j Hj. exists o, b. split; [lia|]. split; [rewrite E; set_solver|done]. }
  assert (HM1 : marked (fun j => freep B j \/ in_blk o idx j) k1)
    by (intros j Hj; rewrite HP1; by apply HM).
  pose proof Hv as (Hv0 & _ & HvN). pose proof Hvb as (Hb0 & _ & HbN).
  pose proof Hvlo as (Hl0 & _ & HlN).
  apply runs_bind.
  eapply runs_mono; [eapply unmark_block; [lia|done|done|exact HM1]|].
  intros _ s2 (ps2 & -> & HM2). apply runs_bind.
  eapply runs_mono; [eapply unmark_block; [lia|done|done|exact HM2]|].
  intros _ s3 (ps3 & -> & HM3). apply runs_bind.
  eapply runs_mono; [eapply mark_block; [lia|done|done|exact HM3]|].
  intros _ s4 (ps4 & -> & HM4).
  eapply runs_mono.
  { eapply (IH _ B1 _ (o + 1)); [lia|lia|done|exact HL1|done|done| |].
    - intros j Hj Hf. apply HF1 in Hf as [Hf Hnb].
      apply Hlo in Hj as [Hj|Hj]; [by apply (Hd j)|done].
    - eapply marked_proper; [|reflexivity|exact HM4]. intros j.
      specialize (HF1 j). specialize (Hlo j). specialize (Hfb j). specialize (Hd j).
      assert (in_blk o b j \/ ~ in_blk o b j) by (unfold in_blk; lia).
      assert (in_blk o idx j \/ ~ in_blk o idx j) by (unfold in_blk; lia). tauto. }
  intros r s5 (B' & k' & m' & -> & HB' & HL' & HC' & Hr & Hvr & Hdr & Hbd & HMr & HRr & HF' & Hm').
  exists B', k', m'. split_and!; try done; try lia.
  - by rewrite HRr.
  - intros j. rewrite HF', HF1, Hlo. specialize (Hfb j).
    assert (in_blk o b j \/ ~ in_blk o b j) by (unfold in_blk; lia). tauto.
  - apply (mem_out_trans (freep B) (freep B1) (freep B) (k_mem s) m1 m');
      [done| | |exact Hm'].
    + intros j Hj. by apply HF1 in Hj as [? _].
    + intros a Ha. apply Hm1. intros i Hi Har.
      apply (Ha i); [|unfold page_addr, PGSIZE; lia].
      exists o, i. split; [lia|]. split; [done|apply in_blk_self; lia].
Qed.

(** ** Allocation and release of one page *)

(** The invariant on lists and marks, counts aside. *)
Record buddy_inv (B : Z -> list Z) (k : kmem_t) (m : mem) : Prop := {
  bi_blocks : blocks_ok B;
  bi_linked : linked B k m;
  bi_marked : marked (freep B) k;
  bi_coalesced : coalesced B;
}.

Lemma chain_null B m o a :
  blocks_ok B -> 0 <= o <= MAX_ORDER -> chain m (freelist a) (B o) ->
  (freelist a = 0 <-> B o = []).
Proof.
  intros HB Ho Hc. destruct (B o) as [|i l] eqn:E.
  - done.
  - destruct Hc as [-> _]. split; [|done]. intros H.
    apply idx2pa_nonzero in H; [done|]. eapply blk_range; [done|exact Ho|].
    rewrite E. set_solver.
Qed.

Lemma buddy_alloc_spec s B :
  buddy_inv B (k_kmem s) (k_mem s) ->
  runs (buddy_alloc_order0 s) (fun r s' =>
    exists B' k' m', s' = km s k' m' /\ buddy_inv B' k' m' /\
      refcnt k' = refcnt (k_kmem s) /\ mem_out (freep B) (k_mem s) m' /\
      ((r = 0 /\ (forall j, ~ freep B j) /\ forall j, ~ freep B' j) \/
       exists i, freep B i /\ r = idx2pa i /\
         forall j, freep B' j <-> freep B j /\ j <> i)).
Proof.
  intros [HB HL HM HC]. unfold buddy_alloc_order0. apply runs_bind.
  apply runs_for_find with (Inv := fun i s' => s' = s /\
    forall o, 0 <= o < i -> B o = []).
  - split; [done|lia].
  - intros o s' Ho [-> He]. apply runs_bind. change (Z.to_nat (MAX_ORDER + 1)) with 16%nat in Ho.
    eapply get_area_runs; [done|unfold MAX_ORDER; lia|]. intros a Ha Hc Hn. simpl.
    pose proof (chain_null B (k_mem s) o a HB ltac:(unfold MAX_ORDER; lia) Hc)
      as Hnull.
    destruct (Z.eqb_spec (freelist a) 0) as [E|E]; simpl.
    + split; [done|]. intros o' Ho'. destruct (decide (o' = o)) as [->|]; [tauto|].
      apply He. lia.
    + destruct (B o) as [|i l] eqn:HBo; [tauto|].
      assert (Hor : 0 <= o <= MAX_ORDER) by (unfold MAX_ORDER; lia).
      apply runs_bind. eapply runs_mono; [by eapply freelist_pop_spec|].
      intros r s1 [-> (k1 & -> & HL1 & [HR1 HP1])].
      assert (Hi : i ∈ B o) by (rewrite HBo; set_solver).
      pose proof (bk_valid _ HB o i Hor Hi) as Hv. pose proof Hv as (Hv0 & _ & HvN).
      rewrite pa2idx_idx2pa by (by eapply blk_range).
      pose proof (fun j => freep_take B o [] i l j HB Hor HBo) as HF1. simpl in HF1.
      assert (HB1 : blocks_ok (Bset B o l)) by (by eapply (blocks_ok_take B o [])).
      apply runs_bind. eapply runs_mono; [eapply (unmark_block _ i o (freep B));
        [lia|done|done|]|].
      { intros j Hj. simpl. rewrite HP1. by apply HM. }
      intros _ s2 (ps & -> & HM2). apply runs_bind.
      eapply runs_mono.
      { eapply (buddy_split_spec (Z.to_nat o) _ (Bset B o l) i);
          rewrite ?Z2Nat.id by lia; try done; try lia.
        - intros j Hj. rewrite HF1. by apply HM2.
        - by eapply (coalesced_take B o []).
        - intros j Hj. rewrite HF1. tauto. }
      rewrite Z2Nat.id by lia.
      intros _ s3 (B' & k' & m' & -> & HB' & HL' & HM' & HC' & HR' & HF' & Hm').
      simpl. exists B', k', m'. split; [done|]. split; [by split|].
      split; [by rewrite HR'; simpl; rewrite HR1|].
      assert (Hblk : forall j, in_blk o i j -> freep B j)
        by (intros j Hj; by exists o, i).
      split; [by eapply mem_out_mono|]. right. exists i.
      split; [apply Hblk, in_blk_self; lia|]. split; [done|].
      intros j. rewrite HF', HF1. specialize (Hblk j).
      assert (in_blk o i j \/ ~ in_blk o i j) by (unfold in_blk; lia).
      assert (j = i -> in_blk o i j) by (intros ->; apply in_blk_self; lia). tauto.
  - intros s' [-> He]. simpl.
    assert (Hnf : forall j, ~ freep B j).
    { intros j (o & i & Ho & Hi & _). rewrite He in Hi by
        (change (Z.to_nat (MAX_ORDER + 1)) with 16%nat; unfold MAX_ORDER in *; lia).
      set_solver. }
    exists B, (k_kmem s), (k_mem s). rewrite km_id. split_and!; try done. by left.
Qed.

Lemma buddy_free_spec s B i :
  buddy_inv B (k_kmem s) (k_mem s) -> 0 <= i < NPAGES -> ~ freep B i ->
  runs (buddy_free_order0 i s) (fun _ s' =>
    exists B' k' m', s' = km s k' m' /\ buddy_inv B' k' m' /\
      refcnt k' = refcnt (k_kmem s) /\
      (forall j, freep B' j <-> freep B j \/ j = i) /\
      mem_out (fun j => freep B j \/ j = i) (k_mem s) m').
Proof.
  intros [HB HL HM HC] Hi Hf. unfold buddy_free_order0.
  assert (Hb0 : forall j, in_blk 0 i j <-> j = i)
    by (intros j; unfold in_blk; simpl; lia).
  apply runs_bind. eapply runs_mono; [eapply mark_block; [lia|lia|simpl; lia|exact HM]|].
  intros _ s1 (ps & -> & HM1). apply runs_bind. eapply runs_mono.
  { eapply (buddy_merge_spec (Z.to_nat MAX_ORDER) _ B i 0); try done.
    - unfold valid_blk. rewrite Z.mod_1_r. simpl. lia.
    - intros j ->%Hb0. done. }
  intros r s2 (B1 & k1 & m1 & -> & HB1 & HL1 & HC1 & Hr & Hvr & Hdr & Hbd & HM2 & HR & HF & Hm).
  eapply runs_mono.
  { eapply freelist_push_spec; [exact HL1|done|done| |].
    - by eapply valid_blk_range.
    - apply Hdr, in_blk_self. lia. }
  intros _ s3 (k2 & m2 & -> & HL2 & [HR2 HP2] & Hm2). simpl in HR2, HP2.
  assert (HF2 : forall j, freep (Bset B1 r.2 (r.1 :: B1 r.2)) j <-> freep B j \/ j = i).
  { intros j. rewrite freep_push, HF, Hb0 by done. done. }
  eexists _, _, _. split; [reflexivity|]. split.
  { split.
    - by apply blocks_ok_push.
    - exact HL2.
    - intros j Hj. rewrite HP2. rewrite (HM2 j Hj), HF, HF2, Hb0. done.
    - destruct (decide (r.2 < MAX_ORDER)) as [Hlt|Hge].
      + apply coalesced_push; [done|lia|by apply Hbd|].
        by destruct (buddy_join r.2 r.1 ltac:(lia) Hvr) as (_ & ? & _).
      + replace r.2 with MAX_ORDER by lia. by apply coalesced_push_max. }
  split; [by rewrite HR2, HR|]. split; [done|].
  eapply mem_out_trans; [| |exact Hm|by apply push_mem_out]; simpl.
  - intros j. by left.
  - intros j ->. rewrite <- Hb0, <- HF. right. apply in_blk_self. lia.
Qed.

(** ** The allocator's invariant and its operations *)

(** Page [j] is in a free block. *)
Definition is_free (s : kstate) (j : Z) : Prop :=
  aget (page_state (k_kmem s)) j = PG_BUDDY_FREE.
(** Number of references to page [j]. *)
Definition refs (s : kstate) (j : Z) : Z := aget (refcnt (k_kmem s)) j.

(** The allocator manages pages [lo .. hi): each is free iff nobody refers to
    it; pages outside are neither free nor referred to. *)
Record kmem_inv (lo hi : Z) (B : Z -> list Z) (k : kmem_t) (m : mem) : Prop := {
  ki_buddy : buddy_inv B k m;
  ki_range : 0 <= lo /\ hi <= NPAGES;
  ki_refs : forall j, 0 <= aget (refcnt k) j < 2^16;
  ki_managed : forall j, lo <= j < hi -> (freep B j <-> aget (refcnt k) j = 0);
  ki_outside : forall j, ~ (lo <= j < hi) -> ~ freep B j /\ aget (refcnt k) j = 0;
}.
Definition kmem_between (lo hi : Z) (s : kstate) : Prop :=
  exists B, kmem_inv lo hi B (k_kmem s) (k_mem s).

(** [s'] is [s] with a new allocator structure and memory; of the CPU state
    only the scratch field [intena] may differ. *)
Definition kframe (s s' : kstate) (k : kmem_t) (m : mem) : Prop :=
  exists i, scratch s i /\
    s' = set_cpu (mkCpu (c_proc (k_cpu s)) (c_noff (k_cpu s)) i) (km s k m).

Lemma kframe_same_ctl s s' k m : kframe s s' k m -> same_ctl s s'.
Proof. by intros (i & _ & ->). Qed.
Lemma kframe_kmem s s' k m : kframe s s' k m -> k_kmem s' = k /\ k_mem s' = m.
Proof. by intros (i & _ & ->). Qed.

Lemma leave_kframe s lk i k m :
  scratch s i -> kframe s (leave s i (km (enter lk s) k m)) k m.
Proof. by exists i. Qed.

Lemma leave_mem_kframe s lk i k k' m m' :
  scratch s i -> kframe s (set_mem m' (leave s i (set_kmem k' (km (enter lk s) k m)))) k' m'.
Proof. by exists i. Qed.

Lemma kmem_inv_free lo hi B s j :
  kmem_inv lo hi B (k_kmem s) (k_mem s) -> 0 <= j < NPAGES ->
  (is_free s j <-> freep B j).
Proof. intros H Hj. apply (bi_marked _ _ _ (ki_buddy _ _ _ _ _ H) j Hj). Qed.

Lemma freep_managed lo hi B k m j :
  kmem_inv lo hi B k m -> freep B j -> lo <= j < hi.
Proof.
  intros H Hf. destruct (decide (lo <= j < hi)); [done|].
  by destruct (ki_outside _ _ _ _ _ H j).
Qed.

(** Memory may change outside the invariant's list links freely. *)
Lemma buddy_inv_mem B k m m' :
  buddy_inv B k m ->
  (forall j a, freep B j -> page_addr j a -> load8 m' a = load8 m a) ->
  buddy_inv B k m'.
Proof.
  intros [HB HL HM HC] Hm. split; try done.
  intros o Ho. destruct (HL o Ho) as (a & Ha & Hc & Hn). exists a.
  split; [done|]. split; [|done]. eapply seg_ext; [|exact Hc].
  intros i Hi. apply load32_ext. intros x Hx. apply (Hm i).
  - exists o, i. split; [done|]. split; [done|apply in_blk_self; lia].
  - unfold page_addr, PGSIZE. lia.
Qed.

Lemma page_addr_inj i j a :
  0 <= i < NPAGES -> 0 <= j < NPAGES -> page_addr i a -> page_addr j a -> i = j.
Proof.
  intros Hi Hj. unfold page_addr. rewrite !idx2pa_eq by done. unfold PGSIZE. lia.
Qed.

Lemma aget_insert (m : gmap Z Z) i j v :
  aget (<[i := v]> m) j = if decide (j = i) then v else aget m j.
Proof.
  unfold aget. rewrite lookup_insert. repeat case_decide; subst; done.
Qed.

(** Outcome of [kalloc]: none free, or one free page taken and filled. *)
Definition kalloc_post (s : kstate) (r : Z) (k' : kmem_t) (m' : mem) : Prop :=
  let free' j := aget (page_state k') j = PG_BUDDY_FREE in
  (r = 0 /\ (forall j, 0 <= j < NPAGES -> ~ is_free s j /\ ~ free' j) /\
   refcnt k' = refcnt (k_kmem s) /\ forall a, load8 m' a = load8 (k_mem s) a) \/
  (exists i, 0 <= i < NPAGES /\ r = idx2pa i /\ is_free s i /\ refs s i = 0 /\
   (forall j, 0 <= j < NPAGES -> (free' j <-> is_free s j /\ j <> i)) /\
   refcnt k' = <[i := 1]> (refcnt (k_kmem s)) /\
   (forall a, page_addr i a -> load8 m' a = 5) /\
   mem_out (fun j => 0 <= j < NPAGES /\ is_free s j) (k_mem s) m').

Lemma kalloc_runs lo hi s :
  cpu_ok s -> lock_free s LKmem -> kmem_between lo hi s ->
  runs (kalloc s) (fun r s' => exists k' m', kframe s s' k' m' /\
    kmem_between lo hi s' /\ kalloc_post s r k' m').
Proof.
  intros Hcpu Hlk [B HI]. pose proof HI as [HBI Hr Hrc Hmg Hout].
  unfold kalloc. apply runs_bind. apply runs_acquire; [done|].
  apply runs_bind. eapply runs_mono; [apply (buddy_alloc_spec _ B); exact HBI|].
  intros r s1 (B' & k1 & m1 & -> & HBI1 & HR1 & Hm1 & Hres). simpl in *.
  destruct Hres as [(-> & Hn & Hn')|(i & Hi & -> & HF)].
  - apply runs_bind. simpl. apply runs_bind.
    eapply runs_release; [done|done|done|].
    intros i Hz. simpl. exists k1, m1. split; [by exists i|].
    assert (HI' : kmem_inv lo hi B' k1 m1).
    { split; try done; rewrite HR1; [done| |].
      - intros j Hj. rewrite <- Hmg by done. split; intros H; [by apply Hn' in H|by apply Hn in H].
      - intros j Hj. split; [apply Hn'|by apply Hout]. }
    split; [by exists B'|]. left. split; [done|]. split; [|split; [done|]].
    + intros j Hj. rewrite (kmem_inv_free lo hi B s) by done.
      split; [apply Hn|]. rewrite (bi_marked _ _ _ HBI1 j Hj). apply Hn'.
    + intros a. apply Hm1. intros j Hj. by apply Hn in Hj.
  - pose proof (freep_range B i (bi_blocks _ _ _ HBI) Hi) as Hir.
    destruct (Z.eqb_spec (idx2pa i) 0); [by apply idx2pa_nonzero in Hir|]. simpl.
    unfold put_refcnt. rewrite pa2idx_idx2pa by done.
    replace ((0 <=? i) && (i <? NPAGES)) with true by lia.
    apply runs_bind. simpl. apply runs_bind.
    eapply runs_release; [done|done|done|]. intros z Hz. simpl.
    change (u16 1) with 1.
    exists (set_refcnt (<[i := 1]> (refcnt k1)) k1), (memset m1 (idx2pa i) 5 PGSIZE).
    split; [by apply leave_mem_kframe|].
    pose proof (freep_managed _ _ _ _ _ i HI Hi) as Him.
    split.
    + exists B'. simpl. split; simpl.
      * eapply buddy_inv_mem; [by destruct k1, HBI1; split|].
        intros j a Hj Ha. rewrite memset_load. apply HF in Hj as [Hj Hne].
        case_decide as Hd; [|done]. destruct Hne.
        by apply (page_addr_inj j i a); [eapply freep_range; [apply HBI|done]|..].
      * done.
      * intros j. rewrite HR1, aget_insert. case_decide; [lia|done].
      * intros j Hj. rewrite HF, HR1, aget_insert. rewrite (Hmg j) by done.
        case_decide; [split; [tauto|lia]|tauto].
      * intros j Hj. rewrite HF, HR1, aget_insert. case_decide; [subst; lia|].
        destruct (Hout j Hj). tauto.
    + right. exists i. split; [done|]. split; [done|].
      split; [by rewrite (kmem_inv_free lo hi B s)|]. split; [by apply Hmg|].
      split; [|split; [by rewrite HR1|split]].
      * intros j Hj. rewrite (kmem_inv_free lo hi B s) by done. simpl.
        rewrite (bi_marked _ _ _ HBI1 j Hj). apply HF.
      * intros a Ha. rewrite memset_load. by case_decide.
      * intros a Ha. rewrite memset_load. case_decide as Hd.
        -- destruct (Ha i); [|done]. split; [done|]. by rewrite (kmem_inv_free lo hi B s).
        -- apply Hm1. intros j Hj. pose proof (freep_range B j (bi_blocks _ _ _ HBI) Hj).
           apply Ha. split; [done|]. by rewrite (kmem_inv_free lo hi B s).
Qed.

(** Outcome of [kfree] on page [i]: a reference dropped, the page back in the
    free lists with the last one. *)
Definition kfree_post (s : kstate) (i : Z) (k' : kmem_t) (m' : mem) : Prop :=
  let free' j := aget (page_state k') j = PG_BUDDY_FREE in
  refcnt k' = <[i := refs s i - 1]> (refcnt (k_kmem s)) /\
  (forall j, 0 <= j < NPAGES ->
     (free' j <-> is_free s j \/ (j = i /\ refs s i = 1))) /\
  (1 < refs s i -> m' = k_mem s) /\
  mem_out (fun j => (0 <= j < NPAGES /\ is_free s j) \/ j = i) (k_mem s) m'.

(** The argument check of [kfree] and [kaddref] passes on a page address. *)
Lemma page_check base i :
  0 <= i < NPAGES -> base <= idx2pa i ->
  negb (idx2pa i mod PGSIZE =? 0) || (idx2pa i <? base) || (idx2pa i >=? PHYSTOP)
  = false.
Proof.
  intros Hi Hb. rewrite idx2pa_eq in * by done.
  unfold PHYSTOP, KERNBASE, PGSIZE in *. change NPAGES with 32768 in Hi.
  rewrite !orb_false_iff, negb_false_iff.
  rewrite Z.eqb_eq, Z.ltb_ge, Z.geb_leb, Z.leb_gt. split_and!; [zlia|lia|lia].
Qed.

Section ops.
Context `{L : Layout}.

Lemma kfree_runs lo hi s i :
  cpu_ok s -> lock_free s LKmem -> kmem_between lo hi s ->
  0 <= i < NPAGES -> end_ <= idx2pa i -> 1 <= refs s i ->
  runs (kfree (idx2pa i) s) (fun _ s' => exists k' m', kframe s s' k' m' /\
    kmem_between lo hi s' /\ kfree_post s i k' m').
Proof.
  intros Hcpu Hlk [B HI] Hi Hend Href. pose proof HI as [HBI Hr Hrc Hmg Hout].
  assert (Him : lo <= i < hi).
  { destruct (decide (lo <= i < hi)) as [|Hno]; [done|].
    destruct (Hout i Hno). unfold refs in Href. lia. }
  assert (Hnf : ~ freep B i) by (rewrite Hmg by done; unfold refs in Href; lia).
  assert (Hisf : forall j, 0 <= j < NPAGES -> (is_free s j <-> freep B j))
    by (intros j Hj; by apply (kmem_inv_free lo hi)).
  unfold kfree.
  rewrite page_check by done.
  rewrite pa2idx_idx2pa by done.
  apply runs_bind. apply runs_acquire; [done|].
  unfold get_refcnt, put_refcnt.
  replace ((0 <=? i) && (i <? NPAGES)) with true by lia.
  apply runs_bind. simpl. change (aget (refcnt (k_kmem s)) i) with (refs s i).
  destruct (Z.ltb_spec (refs s i) 1); [lia|].
  apply runs_bind. simpl. apply runs_bind. simpl. rewrite aget_insert.
  case_decide; [|done].
  assert (Hu : u16 (refs s i - 1) = refs s i - 1).
  { unfold u16. apply Z.mod_small. specialize (Hrc i). unfold refs in *. lia. }
  rewrite Hu.
  assert (Hrc' : forall j, 0 <= aget (<[i := refs s i - 1]> (refcnt (k_kmem s))) j < 2^16).
  { intros j. rewrite aget_insert. pose proof (Hrc i). specialize (Hrc j).
    unfold refs in *. case_decide; lia. }
  assert (Hout' : forall j, ~ (lo <= j < hi) ->
    aget (<[i := refs s i - 1]> (refcnt (k_kmem s))) j = 0).
  { intros j Hj. rewrite aget_insert. case_decide; [subst; lia|].
    by apply Hout. }
  set (k1 := set_refcnt (<[i := refs s i - 1]> (refcnt (k_kmem s))) (k_kmem s)) in *.
  destruct (refs s i - 1 >? 0) eqn:Hgt.
  - change (set_kmem k1 (enter LKmem s)) with (km (enter LKmem s) k1 (k_mem s)).
    eapply runs_release; [done|done|done|]. intros z Hz.
    exists k1, (k_mem s). split; [by apply leave_kframe|]. split.
    + exists B. simpl. split; simpl; try done.
      * by destruct HBI; split.
      * intros j Hj. rewrite Hmg by done. rewrite aget_insert. unfold refs in *.
        case_decide; [subst; lia|done].
      * intros j Hj. split; [by apply Hout|by apply Hout'].
    + split; [done|]. split; [|done]. intros j Hj. simpl. unfold is_free. lia.
  - apply runs_bind. simpl. apply runs_bind.
    eapply runs_mono.
    { eapply (buddy_free_spec _ B i); [|done|done]. simpl.
      eapply buddy_inv_mem; [by destruct HBI; split|].
      intros j a Hj Ha. rewrite memset_load. case_decide as Hd; [|done].
      destruct Hnf. by rewrite <- (page_addr_inj j i a)
        by (done || by eapply freep_range; [apply HBI|]). }
    intros _ s2 (B' & k2 & m2 & -> & HBI2 & HR2 & HF2 & Hm2). simpl in HR2, Hm2.
    change (km (set_mem _ _) k2 m2) with (km (enter LKmem s) k2 m2).
    eapply runs_release; [done|done|done|]. intros z Hz.
    exists k2, m2. split; [by apply leave_kframe|]. split.
    + exists B'. simpl. split; try done; rewrite HR2; [done| |].
      * intros j Hj. rewrite HF2, Hmg, aget_insert by done. case_decide; [|naive_solver].
        subst. split; [intros; lia|tauto].
      * intros j Hj. split; [|by apply Hout']. rewrite HF2. intros [Hf| ->]; [|lia].
        by apply (Hout j Hj).
    + split; [done|]. split; [|split; [lia|]].
      * intros j Hj. simpl. rewrite (bi_marked _ _ _ HBI2 j Hj), HF2, Hisf by done.
        assert (refs s i = 1) by lia. tauto.
      * intros a Ha. rewrite Hm2.
        -- rewrite memset_load. case_decide as Hd; [|done].
           destruct (Ha i); [by right|done].
        -- intros j [Hj| ->]; apply Ha; [left|by right].
           assert (0 <= j < NPAGES) by (eapply freep_range; [apply HBI|done]).
           by rewrite Hisf.
Qed.

Lemma kfree_bad_panics s pa :
  pa mod PGSIZE <> 0 \/ pa < end_ \/ PHYSTOP <= pa ->
  kfree pa s = Stop (Panicked "kfree").
Proof.
  intros H. unfold kfree. replace (_ || _ || _) with true; [done|].
  symmetry. rewrite !orb_true_iff, negb_true_iff, Z.eqb_neq, Z.ltb_lt, Z.geb_le. tauto.
Qed.

Lemma kfree_free_panics s i :
  lock_free s LKmem -> 0 <= i < NPAGES -> end_ <= idx2pa i -> refs s i = 0 ->
  kfree (idx2pa i) s = Stop (Panicked "kfree: ref").
Proof.
  intros Hlk Hi Hend Href. unfold kfree.
  rewrite page_check by done.
  rewrite (bind_ok _ _ _ _ _ (acquire_eq s LKmem Hlk)), pa2idx_idx2pa by done.
  unfold get_refcnt. replace ((0 <=? i) && (i <? NPAGES)) with true by lia.
  unfold bind, gets. simpl. change (aget (refcnt (k_kmem s)) i) with (refs s i).
  by rewrite Href.
Qed.

Lemma kaddref_free_panics s i :
  lock_free s LKmem -> 0 <= i < NPAGES -> refs s i = 0 ->
  kaddref (idx2pa i) s = Stop (Panicked "kaddref: zero").
Proof.
  intros Hlk Hi Href. unfold kaddref.
  rewrite page_check by (done || rewrite idx2pa_eq by done; unfold PGSIZE; lia).
  rewrite (bind_ok _ _ _ _ _ (acquire_eq s LKmem Hlk)), pa2idx_idx2pa by done.
  unfold get_refcnt. replace ((0 <=? i) && (i <? NPAGES)) with true by lia.
  unfold bind, gets. simpl. change (aget (refcnt (k_kmem s)) i) with (refs s i).
  by rewrite Href.
Qed.

Lemma kaddref_runs lo hi s i :
  cpu_ok s -> lock_free s LKmem -> kmem_between lo hi s ->
  0 <= i < NPAGES -> 1 <= refs s i < 2^16 - 1 ->
  runs (kaddref (idx2pa i) s) (fun _ s' => exists k',
    kframe s s' k' (k_mem s) /\ kmem_between lo hi s' /\
    page_state k' = page_state (k_kmem s) /\
    refcnt k' = <[i := refs s i + 1]> (refcnt (k_kmem s))).
Proof.
  intros Hcpu Hlk [B HI] Hi Href. pose proof HI as [HBI Hr Hrc Hmg Hout].
  unfold kaddref. rewrite page_check.
  2: done.
  2: { rewrite idx2pa_eq by done. unfold PGSIZE. lia. }
  rewrite pa2idx_idx2pa by done.
  apply runs_bind. apply runs_acquire; [done|].
  unfold get_refcnt, put_refcnt.
  replace ((0 <=? i) && (i <? NPAGES)) with true by lia.
  apply runs_bind. simpl. change (aget (refcnt (k_kmem s)) i) with (refs s i).
  destruct (Z.eqb_spec (refs s i) 0); [lia|].
  apply runs_bind. simpl.
  replace (u16 (refs s i + 1)) with (refs s i + 1)
    by (unfold u16; rewrite Z.mod_small; lia).
  set (k1 := set_refcnt (<[i := refs s i + 1]> (refcnt (k_kmem s))) (k_kmem s)).
  change (set_kmem k1 (enter LKmem s)) with (km (enter LKmem s) k1 (k_mem s)).
  eapply runs_release; [done|done|done|]. intros z Hz.
  exists k1. split; [by apply leave_kframe|]. split; [|done].
  exists B. simpl. split; simpl; try done.
  - by destruct HBI; split.
  - intros j. rewrite aget_insert. specialize (Hrc j). case_decide; lia.
  - intros j Hj. rewrite Hmg, aget_insert by done. case_decide; [|done].
    subst. unfold refs in *. lia.
  - intros j Hj. destruct (Hout j Hj) as [H1 H2]. split; [done|].
    rewrite aget_insert. case_decide; [|done]. subst. unfold refs in *. lia.
Qed.

(** ** Initialisation *)

(** Index of the first page after the kernel image. *)
Definition first_page : Z := pa2idx (PGROUNDUP end_).

Lemma freerange_loop_spec fuel : forall s j,
  cpu_ok s -> lock_free s LKmem -> kmem_between first_page j s ->
  end_ <= KERNBASE + first_page * PGSIZE ->
  first_page <= j <= NPAGES -> NPAGES - j < Z.of_nat fuel ->
  runs (freerange_loop fuel (KERNBASE + j * PGSIZE) PHYSTOP s) (fun _ s' =>
    exists k' m', kframe s s' k' m' /\ kmem_between first_page NPAGES s' /\
    forall i, 0 <= i < NPAGES -> (is_free s' i <-> is_free s i \/ j <= i)).
Proof.
  induction fuel as [|fuel IH]; intros s j Hcpu Hlk HK Hend Hj Hfuel; [lia|].
  assert (Hlo : 0 <= first_page) by (destruct HK as [B [_ [??] _ _ _]]; lia).
  cbn [freerange_loop].
  destruct (Z.leb_spec (KERNBASE + j * PGSIZE + PGSIZE) PHYSTOP) as [Hle|Hgt].
  2: { simpl. exists (k_kmem s), (k_mem s). split.
       - exists (c_intena (k_cpu s)). by destruct s as [[] ? ? ? ? ?].
       - assert (j = NPAGES) as -> by
           (unfold PHYSTOP, KERNBASE, PGSIZE in *; change NPAGES with 32768 in *; lia).
         split; [done|]. intros i Hi. split; [by left|intros [|]; [done|lia]]. }
  assert (Hjr : 0 <= j < NPAGES) by
    (unfold PHYSTOP, KERNBASE, PGSIZE in *; change NPAGES with 32768 in *; lia).
  rewrite <- idx2pa_eq by done. rewrite pa2idx_idx2pa by done.
  apply runs_bind. unfold put_refcnt.
  replace ((0 <=? j) && (j <? NPAGES)) with true by lia. simpl.
  change (u16 1) with 1.
  set (s1 := set_kmem (set_refcnt (<[j := 1]> (refcnt (k_kmem s))) (k_kmem s)) s).
  assert (HK1 : kmem_between first_page (j + 1) s1).
  { destruct HK as [B [HBI Hr Hrc Hmg Hout]]. exists B. unfold s1. simpl.
    split; simpl.
    - by destruct HBI; split.
    - lia.
    - intros i. rewrite aget_insert. case_decide; [lia|done].
    - intros i Hi. rewrite aget_insert. case_decide.
      + subst. destruct (Hout j ltac:(lia)) as [Hf _]. split; [done|lia].
      + apply Hmg. lia.
    - intros i Hi. destruct (Hout i ltac:(lia)) as [Hf H0]. split; [done|].
      rewrite aget_insert. case_decide; [lia|done]. }
  assert (Hj1 : refs s1 j = 1)
    by (unfold refs, s1; simpl; rewrite aget_insert; by case_decide).
  apply runs_bind. eapply runs_mono.
  { apply (kfree_runs first_page (j + 1) s1 j); try done.
    - rewrite idx2pa_eq by done. unfold PGSIZE in *. lia.
    - lia. }
  intros _ s2 (k2 & m2 & Hfr & HK2 & Hrf & Hfree & _ & _).
  rewrite idx2pa_eq by done.
  replace (KERNBASE + j * PGSIZE + PGSIZE) with (KERNBASE + (j + 1) * PGSIZE) by lia.
  pose proof (kframe_same_ctl _ _ _ _ Hfr) as Hctl.
  eapply runs_mono.
  { apply (IH s2 (j + 1)); try done; try lia.
    - by eapply same_ctl_cpu_ok.
    - by eapply same_ctl_lock_free. }
  intros _ s3 (k3 & m3 & Hfr3 & HK3 & Hfree3).
  exists k3, m3. split.
  { destruct Hfr as (i & Hi & ->), Hfr3 as (i3 & Hi3 & ->). exists i3. split; [|done].
    intros H. rewrite Hi3 by done. by apply Hi. }
  split; [done|]. intros i Hi. rewrite Hfree3 by done.
  destruct (kframe_kmem _ _ _ _ Hfr) as [Hk2 _].
  unfold is_free at 1. rewrite Hk2, Hfree, Hj1 by done.
  change (is_free s1 i) with (is_free s i). split; [|intros [|]; [by left; left|]].
  - intros [[|[-> _]]|]; [by left|right; lia|right; lia].
  - destruct (decide (i = j)); [by left; right|right; lia].
Qed.

Lemma first_page_spec `{!LayoutOk L} :
  PGROUNDUP end_ = KERNBASE + first_page * PGSIZE /\ 0 <= first_page <= NPAGES /\
  end_ <= KERNBASE + first_page * PGSIZE.
Proof.
  destruct (end_in_ram (L := L)) as [H1 H2].
  unfold first_page. unfold PHYSTOP, KERNBASE in H1, H2.
  destruct (PGROUNDUP_bounds end_) as [Hb Ha]; [lia..|].
  unfold PGSIZE in Hb, Ha.
  rewrite pa2idx_eq by (unfold KERNBASE; zlia).
  change NPAGES with 32768. unfold KERNBASE, PGSIZE. zlia.
Qed.

Lemma empty_kmem_inv k m lo :
  free_areas k = replicate (Z.to_nat (MAX_ORDER + 1)) (mkArea 0 0) ->
  refcnt k = ∅ -> page_state k = ∅ -> 0 <= lo <= NPAGES ->
  kmem_inv lo lo (fun _ => []) k m.
Proof.
  intros Ha Hr Hp Hlo.
  assert (Hnf : forall j, ~ freep (fun _ => []) j)
    by (by intros j (o & i & _ & ?%elem_of_nil & _)).
  assert (H0 : forall j, aget (∅ : gmap Z Z) j = 0)
    by (intros j; unfold aget; by rewrite lookup_empty).
  split; try lia.
  - split; [split; [by intros ??? ?%elem_of_nil|constructor|by intros ??????? ?%elem_of_nil]| | |].
    + intros o Ho. exists (mkArea 0 0). rewrite Ha. split; [|done].
      apply lookup_replicate_2. unfold MAX_ORDER in *. lia.
    + intros j Hj. rewrite Hp, H0. split; [done|]. by intros ?%Hnf.
    + by intros o i _ ?%elem_of_nil.
  - intros j. rewrite Hr, H0. lia.
  - intros j _. split; [apply Hnf|]. by rewrite Hr, H0.
Qed.

#[local] Arguments freerange_loop : simpl never.
Lemma kinit_runs `{!LayoutOk L} s :
  cpu_ok s ->
  runs (kinit s) (fun _ s' => kmem_between first_page NPAGES s' /\
    lock_free s' LKmem /\ cpu_ok s' /\
    (forall j, 0 <= j < NPAGES -> (is_free s' j <-> first_page <= j)) /\
    forall j, refs s' j = 0).
Proof.
  intros Hcpu. destruct first_page_spec as (Hp & Hr & He).
  unfold kinit, freerange. rewrite Hp.
  do 4 (apply runs_bind; cbv beta; cbn [runs initlock put_lock modify upd_kmem]).
  match goal with |- runs (freerange_loop _ _ _ ?s1) _ => set (s1' := s1) end.
  assert (Hlk : lock_free s1' LKmem).
  { exists "kmem"%string. unfold s1'. simpl. apply lookup_insert_eq. }
  eapply runs_mono.
  { apply (freerange_loop_spec _ s1' first_page); try done.
    - exists (fun _ => []). by apply empty_kmem_inv.
    - lia.
    - change (NPAGES + 1) with 32769. change NPAGES with 32768 in *. lia. }
  intros _ s' (k' & m' & Hfr & HK & Hfree).
  pose proof (kframe_same_ctl _ _ _ _ Hfr) as Hctl.
  split; [done|]. split; [by eapply same_ctl_lock_free|].
  split; [by eapply same_ctl_cpu_ok|].
  assert (Hf : forall j, 0 <= j < NPAGES -> (is_free s' j <-> first_page <= j)).
  { intros j Hj. rewrite Hfree by done.
    unfold is_free, s1'. simpl. unfold aget. rewrite lookup_empty. simpl.
    unfold PG_BUDDY_FREE. lia. }
  split; [done|]. intros j. destruct HK as [B HI].
  destruct (decide (first_page <= j < NPAGES)) as [Hj|Hj].
  - apply (ki_managed _ _ _ _ _ HI j Hj).
    rewrite <- (kmem_inv_free _ _ _ _ _ HI) by lia. apply Hf; lia.
  - by apply (ki_outside _ _ _ _ _ HI j Hj).
Qed.
End ops.
