(* ===== verification/KallocSpec.v ===== *)
(** * The page allocator refines a table of reference counts

    The specification of [kalloc.c]: a table giving each managed page its
    number of references, from which allocation takes any page with none, and
    the memory, of which a call may change only pages that are unused before or
    after it.  Buddy blocks, free lists and the links stored in free pages are invisible
    to it.  Every sequence of allocator calls after [kinit] behaves as the
    table does, errors included. *)

From S2P Require Import Prelude CMem Machine Sv32 Spinlock Kalloc KallocProof.

(** ** Calls and their specification *)

Inductive alloc_op := OpAlloc | OpFree (pa : Z) | OpAddref (pa : Z).

Definition fupd (r : Z -> Z) (i v : Z) : Z -> Z :=
  fun j => if decide (j = i) then v else r j.

Section spec.
Context `{L : Layout}.

(** The kernel's call; a [void] function returns 0. *)
Definition exec_op (op : alloc_op) : K Z :=
  match op with
  | OpAlloc => kalloc
  | OpFree pa => kfree pa ;; ret 0
  | OpAddref pa => kaddref pa ;; ret 0
  end.
Fixpoint exec_ops (ops : list alloc_op) : K (list Z) :=
  match ops with
  | [] => ret []
  | op :: ops => v <- exec_op op ;; vs <- exec_ops ops ;; ret (v :: vs)
  end.

(** A byte of a managed page that nobody uses, before or after the call, may
    change; every other byte keeps its value: those of pages in use, and those
    outside the managed memory. *)
Definition keeps (r r' : Z -> Z) (m m' : mem) : Prop := forall a,
  (forall j, first_page <= j < NPAGES -> page_addr j a -> 0 < r j /\ 0 < r' j) ->
  load8 m' a = load8 m a.

(** [spec_step r m op v r' m']: with counts [r] and memory [m], [op] may
    return [v] and leave counts [r'] (up to pointwise equality) and memory
    [m']. *)
Inductive spec_step (r : Z -> Z) (m : mem) : alloc_op -> Z -> (Z -> Z) -> mem -> Prop :=
| spec_alloc i r' m' :
    first_page <= i < NPAGES -> r i = 0 -> (forall j, r' j = fupd r i 1 j) ->
    keeps r r' m m' -> (forall a, page_addr i a -> load8 m' a = 5) ->
    spec_step r m OpAlloc (KERNBASE + i * PGSIZE) r' m'
| spec_exhausted r' m' :
    (forall i, first_page <= i < NPAGES -> 0 < r i) -> (forall j, r' j = r j) ->
    keeps r r' m m' ->
    spec_step r m OpAlloc 0 r' m'
| spec_free i r' m' :
    first_page <= i < NPAGES -> 0 < r i -> (forall j, r' j = fupd r i (r i - 1) j) ->
    keeps r r' m m' ->
    spec_step r m (OpFree (KERNBASE + i * PGSIZE)) 0 r' m'
| spec_addref i r' m' :
    first_page <= i < NPAGES -> 0 < r i -> (forall j, r' j = fupd r i (r i + 1) j) ->
    keeps r r' m m' ->
    spec_step r m (OpAddref (KERNBASE + i * PGSIZE)) 0 r' m'.

(** The argument is not the address of a page that is in use. *)
Definition spec_error (r : Z -> Z) (op : alloc_op) : Prop :=
  match op with
  | OpAlloc => False
  | OpFree pa | OpAddref pa =>
      forall i, first_page <= i < NPAGES -> pa = KERNBASE + i * PGSIZE -> r i = 0
  end.

Inductive spec_run : (Z -> Z) -> mem -> list alloc_op -> list Z -> (Z -> Z) -> mem -> Prop :=
| spec_run_nil r r' m : (forall j, r' j = r j) -> spec_run r m [] [] r' m
| spec_run_cons r m op v r1 m1 ops vs r' m' :
    spec_step r m op v r1 m1 -> spec_run r1 m1 ops vs r' m' ->
    spec_run r m (op :: ops) (v :: vs) r' m'.

(** ** One call *)

(** The allocator part of the kernel's invariant, between calls. *)
Definition alloc_ok (s : kstate) : Prop :=
  cpu_ok s /\ lock_free s LKmem /\ kmem_between first_page NPAGES s.

Lemma alloc_ok_kframe s s' k m :
  alloc_ok s -> kframe s s' k m -> kmem_between first_page NPAGES s' -> alloc_ok s'.
Proof.
  intros (Hc & Hl & _) Hf HK. pose proof (kframe_same_ctl _ _ _ _ Hf).
  split; [by eapply same_ctl_cpu_ok|]. split; [by eapply same_ctl_lock_free|done].
Qed.

Lemma alloc_ok_refs s j : alloc_ok s -> 0 <= refs s j.
Proof. intros (_ & _ & B & HI). by apply (ki_refs _ _ _ _ _ HI). Qed.

Lemma refs_managed s j : alloc_ok s -> 0 < refs s j -> first_page <= j < NPAGES.
Proof.
  intros (_ & _ & B & HI) Hj. destruct (decide (first_page <= j < NPAGES)); [done|].
  destruct (ki_outside _ _ _ _ _ HI j); [done|]. unfold refs in Hj. lia.
Qed.

Lemma is_free_refs s j :
  alloc_ok s -> first_page <= j < NPAGES -> (is_free s j <-> refs s j = 0).
Proof.
  intros (_ & _ & B & HI) Hj. pose proof (ki_range _ _ _ _ _ HI).
  rewrite (kmem_inv_free first_page NPAGES B s) by (done || lia).
  by apply (ki_managed _ _ _ _ _ HI).
Qed.

Lemma is_free_managed s j :
  alloc_ok s -> 0 <= j < NPAGES -> is_free s j -> first_page <= j < NPAGES.
Proof.
  intros (_ & _ & B & HI) Hj Hf. eapply freep_managed; [done|].
  by apply (kmem_inv_free _ _ _ _ _ HI).
Qed.

(** A page-aligned RAM address is [idx2pa] of its index. *)
Lemma aligned_idx pa :
  pa mod PGSIZE = 0 -> KERNBASE <= pa < PHYSTOP ->
  0 <= pa2idx pa < NPAGES /\ pa = idx2pa (pa2idx pa) /\
  pa = KERNBASE + pa2idx pa * PGSIZE.
Proof.
  intros Ha Hr. unfold PHYSTOP, KERNBASE in Hr.
  assert (Hi : 0 <= pa2idx pa < NPAGES /\ pa = KERNBASE + pa2idx pa * PGSIZE).
  { rewrite pa2idx_eq by (unfold KERNBASE; lia).
    change NPAGES with 32768. unfold KERNBASE, PGSIZE in *. zlia. }
  destruct Hi as [Hi He]. split; [done|]. by rewrite idx2pa_eq.
Qed.

Definition refines (r : Z -> Z) (m : mem) (op : alloc_op) (o : res kstate Z) : Prop :=
  match o with
  | Ok v s' => alloc_ok s' /\ spec_step r m op v (refs s') (k_mem s')
  | Stop (Panicked _) => spec_error r op
  | _ => False
  end.

(** A change within free pages and the page [i], which has no reference left
    afterwards or keeps its bytes. *)
Lemma mem_out_keeps s s' (Q : Z -> Prop) :
  alloc_ok s -> mem_out (fun j => (0 <= j < NPAGES /\ is_free s j) \/ Q j) (k_mem s) (k_mem s') ->
  (forall j, Q j -> first_page <= j < NPAGES /\ refs s' j <= 0) -> keeps (refs s) (refs s') (k_mem s) (k_mem s').
Proof.
  intros Hok Hm HQ a Ha. apply Hm. intros j [[Hj Hf]|Hq] Hp.
  - pose proof (is_free_managed s j Hok Hj Hf) as Hj'. destruct (Ha j Hj' Hp) as [Hr _].
    apply is_free_refs in Hf; [lia|done..].
  - destruct (HQ j Hq) as [Hj Hr]. destruct (Ha j Hj Hp). lia.
Qed.

Lemma alloc_refines s : alloc_ok s -> refines (refs s) (k_mem s) OpAlloc (exec_op OpAlloc s).
Proof.
  intros Hok. pose proof Hok as (Hc & Hl & HK). simpl.
  destruct (proj1 (runs_ok _ _) (kalloc_runs _ _ s Hc Hl HK))
    as (v & s' & -> & k' & m' & Hf & HK' & Hp).
  destruct (kframe_kmem _ _ _ _ Hf) as [Hk Hm]. simpl.
  split; [by eapply alloc_ok_kframe|]. subst m'.
  destruct Hp as [(-> & Hnf & Hr & Hb)|(i & Hi & -> & Hfree & Hr0 & _ & Hr & H5 & Hb)].
  - apply spec_exhausted.
    + intros j Hj. destruct (Hnf j) as [Hn _].
      { destruct HK as [B [_ [??] _ _ _]]. lia. }
      rewrite is_free_refs in Hn by done. pose proof (alloc_ok_refs s j Hok). lia.
    + intros j. unfold refs. by rewrite Hk, Hr.
    + intros a _. apply Hb.
  - rewrite idx2pa_eq by done. apply spec_alloc.
    + by apply is_free_managed with s.
    + done.
    + intros j. unfold refs, fupd. by rewrite Hk, Hr, aget_insert.
    + apply (mem_out_keeps s s' (fun _ => False)); [done| |done].
      intros a Ha. apply Hb. intros j Hj. apply Ha. by left.
    + exact H5.
Qed.

Lemma pa_of_page i pa :
  pa = KERNBASE + i * PGSIZE -> 0 <= i < NPAGES -> pa2idx pa = i.
Proof.
  intros -> Hi. rewrite <- idx2pa_eq by done. by apply pa2idx_idx2pa.
Qed.

Lemma free_refines `{!LayoutOk L} s pa :
  alloc_ok s -> refines (refs s) (k_mem s) (OpFree pa) (exec_op (OpFree pa) s).
Proof.
  intros Hok. pose proof Hok as (Hc & Hl & HK). simpl.
  destruct first_page_spec as (_ & Hfp & Hend).
  destruct (decide (pa mod PGSIZE <> 0 \/ pa < end_ \/ PHYSTOP <= pa)) as [Hbad|Hgood].
  { unfold bind. rewrite kfree_bad_panics by done. simpl. intros i Hi ->. exfalso.
    unfold PHYSTOP, KERNBASE, PGSIZE in *. change NPAGES with 32768 in *.
    destruct Hbad as [Hb|[Hb|Hb]]; [apply Hb; zlia|lia|lia]. }
  pose proof (end_in_ram (L := L)).
  destruct (aligned_idx pa) as (Hi & Hpa & Hpa'); [lia|lia|].
  set (i := pa2idx pa) in *.
  destruct (decide (refs s i = 0)) as [H0|H0].
  { unfold bind. rewrite Hpa, kfree_free_panics by (done || lia). simpl.
    intros j Hj Hj'. rewrite <- Hpa in Hj'.
    by rewrite <- (pa_of_page j pa Hj') by lia. }
  assert (Hr1 : 1 <= refs s i) by (pose proof (alloc_ok_refs s i Hok); lia).
  assert (Hie : end_ <= idx2pa i) by lia.
  destruct (proj1 (runs_ok _ _) (kfree_runs _ _ s i Hc Hl HK Hi Hie Hr1))
    as ([] & s' & He & k' & m' & Hf & HK' & Hr & _ & Hm1 & Hm2).
  destruct (kframe_kmem _ _ _ _ Hf) as [Hk Hm].
  unfold bind. rewrite Hpa, He. simpl. rewrite <- Hpa, Hpa'.
  split; [by eapply alloc_ok_kframe|]. subst m'.
  assert (Hr' : forall j, refs s' j = fupd (refs s) i (refs s i - 1) j).
  { intros j. unfold refs, fupd. by rewrite Hk, Hr, aget_insert. }
  apply spec_free; [apply (refs_managed s); [done|lia]|lia|done|].
  destruct (decide (refs s i = 1)) as [H1|H1]; [|intros a _; by rewrite Hm1 by lia].
  apply (mem_out_keeps s s' (fun j => j = i)); [done..|]. intros j ->.
  split; [apply (refs_managed s); [done|lia]|]. rewrite Hr'. unfold fupd. rewrite decide_True by done. lia.
Qed.

Lemma addref_refines `{!LayoutOk L} s pa :
  alloc_ok s -> (forall i, refs s i < 2^16 - 1) ->
  refines (refs s) (k_mem s) (OpAddref pa) (exec_op (OpAddref pa) s).
Proof.
  intros Hok Hcap. pose proof Hok as (Hc & Hl & HK). simpl.
  destruct first_page_spec as (_ & Hfp & Hend).
  destruct (negb (pa mod PGSIZE =? 0) || (pa <? KERNBASE) || (pa >=? PHYSTOP)) eqn:Hb.
  { unfold kaddref. rewrite Hb. simpl. intros i Hi ->. exfalso.
    rewrite <- idx2pa_eq, page_check in Hb by (try lia; rewrite ?idx2pa_eq by lia;
      unfold PGSIZE; lia). done. }
  rewrite !orb_false_iff, negb_false_iff, Z.eqb_eq, Z.ltb_ge, Z.geb_leb, Z.leb_gt in Hb.
  destruct Hb as [[Ha Hlo] Hhi].
  destruct (aligned_idx pa) as (Hi & Hpa & Hpa'); [lia|lia|].
  set (i := pa2idx pa) in *. pose proof (alloc_ok_refs s i Hok).
  destruct (decide (refs s i = 0)) as [H0|H0].
  { unfold bind at 1. rewrite Hpa, kaddref_free_panics by (done || lia). simpl.
    intros j Hj Hj'. rewrite <- Hpa in Hj'.
    by rewrite <- (pa_of_page j pa Hj') by lia. }
  destruct (proj1 (runs_ok _ _) (kaddref_runs _ _ s i Hc Hl HK Hi
    ltac:(specialize (Hcap i); lia))) as ([] & s' & He & k' & Hf & HK' & _ & Hr).
  destruct (kframe_kmem _ _ _ _ Hf) as [Hk Hm].
  unfold bind. rewrite Hpa, He. simpl. rewrite <- Hpa, Hpa'.
  split; [by eapply alloc_ok_kframe|].
  apply spec_addref; [apply (refs_managed s); [done|lia]|lia| |intros a _; by rewrite Hm].
  intros j. unfold refs, fupd. by rewrite Hk, Hr, aget_insert.
Qed.

Lemma op_refines `{!LayoutOk L} s op :
  alloc_ok s -> (forall i, refs s i < 2^16 - 1) ->
  refines (refs s) (k_mem s) op (exec_op op s).
Proof.
  destruct op; [intros ? _; by apply alloc_refines|intros ? _; by apply free_refines|].
  apply addref_refines.
Qed.

Lemma spec_step_bound r m op v r' m' n :
  spec_step r m op v r' m' -> 1 <= n -> (forall j, r j < n) -> forall j, r' j < n + 1.
Proof.
  intros H Hn Hr j. specialize (Hr j) as Hj.
  destruct H as [i r' m' Hi H0 He|r' m' H0 He|i r' m' Hi H0 He|i r' m' Hi H0 He];
    rewrite He; unfold fupd; try case_decide; subst; lia.
Qed.

(** ** Sequences of calls *)

Definition refines_run (r : Z -> Z) (m : mem) (ops : list alloc_op) (o : res kstate (list Z))
    : Prop :=
  match o with
  | Ok vs s' => alloc_ok s' /\ spec_run r m ops vs (refs s') (k_mem s')
  | Stop (Panicked _) => exists ops1 op ops2 vs r1 m1,
      ops = ops1 ++ op :: ops2 /\ spec_run r m ops1 vs r1 m1 /\ spec_error r1 op
  | _ => False
  end.

Lemma ops_refine `{!LayoutOk L} ops : forall s n,
  alloc_ok s -> 1 <= n -> (forall i, refs s i < n) ->
  n + Z.of_nat (length ops) <= 2^16 - 1 ->
  refines_run (refs s) (k_mem s) ops (exec_ops ops s).
Proof.
  induction ops as [|op ops IH]; intros s n Hok H1 Hn Hlen.
  { simpl. split; [done|]. by constructor. }
  simpl in Hlen. cbn [exec_ops]. unfold bind at 1.
  pose proof (op_refines s op Hok ltac:(intros i; specialize (Hn i); lia)) as Hop.
  destruct (exec_op op s) as [v s1|[]|]; simpl in Hop; try done.
  2: { simpl. exists [], op, ops, [], (refs s), (k_mem s). split; [done|]. split; [|done].
       by constructor. }
  destruct Hop as [Hok1 Hst]. simpl. unfold bind.
  specialize (IH s1 (n + 1) Hok1 ltac:(lia)).
  destruct (exec_ops ops s1) as [vs s2|[]|]; simpl in IH |- *.
  - destruct IH as [Hok2 Hrun]; [by eapply spec_step_bound|lia|].
    split; [done|]. by econstructor.
  - destruct IH as (ops1 & op' & ops2 & vs & r1 & m1 & -> & Hrun & Herr);
      [by eapply spec_step_bound|lia|].
    exists (op :: ops1), op', ops2, (v :: vs), r1, m1. split; [done|].
    split; [by econstructor|done].
  - apply IH; [by eapply spec_step_bound|lia].
  - apply IH; [by eapply spec_step_bound|lia].
  - apply IH; [by eapply spec_step_bound|lia].
Qed.

Lemma keeps_ext r1 r2 r' m m' : (forall j, r1 j = r2 j) -> keeps r1 r' m m' -> keeps r2 r' m m'.
Proof. intros He Hk a Ha. apply Hk. intros j Hj Hp. rewrite He. auto. Qed.
Lemma spec_run_ext r1 r2 m ops vs r' m' :
  (forall j, r1 j = r2 j) -> spec_run r1 m ops vs r' m' -> spec_run r2 m ops vs r' m'.
Proof.
  intros He H. revert r2 He.
  induction H as [r r' m Hr|r m op v r1 m1 ops vs r' m' Hs Hrun IH]; intros r2 He.
  - constructor. intros j. by rewrite Hr.
  - apply spec_run_cons with r1 m1; [|done].
    destruct Hs; constructor; try done; eauto using keeps_ext; intros; unfold fupd in *; rewrite <- ?He; eauto.
Qed.

(** ** The free lists are determined by the set of free pages *)

Lemma blk_halves o i j :
  0 <= o -> (in_blk (o + 1) i j <-> in_blk o i j \/ in_blk o (i + 2^o) j).
Proof.
  intros Ho. assert (0 < 2^o) by (by apply Z.pow_pos_nonneg).
  unfold in_blk. rewrite pow2_S by done. lia.
Qed.

Lemma blk_same o i i' :
  0 <= o -> (forall j, in_blk o i j -> in_blk o i' j) -> i' = i.
Proof.
  intros Ho H. assert (0 < 2^o) by (by apply Z.pow_pos_nonneg).
  pose proof (H i ltac:(unfold in_blk; lia)) as H1.
  pose proof (H (i + 2^o - 1) ltac:(unfold in_blk; lia)) as H2.
  unfold in_blk in *. lia.
Qed.

(** Aligned blocks that meet are nested. *)
Lemma blk_contains o i o' i' k :
  0 <= o <= o' -> valid_blk o' i' -> valid_blk o i ->
  in_blk o i k -> in_blk o' i' k -> forall j, in_blk o i j -> in_blk o' i' j.
Proof.
  intros Ho (_ & Hm' & _) (_ & Hm & _) Hk Hk' j Hj. unfold in_blk in *.
  assert (0 < 2^o) by (apply Z.pow_pos_nonneg; lia).
  assert (Hp : 2^o' = 2^(o' - o) * 2^o)
    by (rewrite <- Z.pow_add_r by lia; f_equal; lia).
  assert (0 < 2^(o' - o)) by (apply Z.pow_pos_nonneg; lia).
  rewrite Hp in Hm', Hk' |- *.
  apply Z.mod_divide in Hm; [|lia]. apply Z.mod_divide in Hm'; [|lia].
  destruct Hm as [q ->], Hm' as [q' ->].
  set (c := 2^(o' - o)) in *. set (b := 2^o) in *.
  assert (q' * c <= q) by nia. assert (q < q' * c + c) by nia. nia.
Qed.

(** If every page of an aligned range is free, one free block contains it. *)
Lemma coalesced_covers B o : forall i,
  blocks_ok B -> coalesced B -> 0 <= o <= MAX_ORDER -> valid_blk o i ->
  (forall j, in_blk o i j -> freep B j) ->
  exists o' i', o <= o' <= MAX_ORDER /\ i' ∈ B o' /\
    forall j, in_blk o i j -> in_blk o' i' j.
Proof.
  intros i HB HC Ho. revert i Ho.
  destruct (Z_le_dec 0 o) as [Ho|]; [|lia]. pattern o.
  apply natlike_ind; [| |done]; clear o Ho.
  - intros i _ Hv Hf. destruct (Hf i) as (o' & i' & Ho' & Hi' & Hin).
    { apply in_blk_self. lia. }
    exists o', i'. split; [lia|]. split; [done|].
    intros j Hj. replace j with i by (unfold in_blk in Hj; simpl in Hj; lia). done.
  - intros o Ho IH i Hmax Hv Hf. rewrite <- Z.add_1_r in *.
    destruct (halves_valid o i) as [Hv1 Hv2]; [done|done|].
    assert (Hlo : in_blk o i i) by (by apply in_blk_self).
    assert (Hhi : in_blk o (i + 2^o) (i + 2^o)) by (by apply in_blk_self).
    destruct (IH i ltac:(lia)) as (o1 & i1 & Ho1 & Hi1 & Hc1); [done| |].
    { intros j Hj. apply Hf, blk_halves; auto. }
    destruct (IH (i + 2^o) ltac:(lia)) as (o2 & i2 & Ho2 & Hi2 & Hc2); [done| |].
    { intros j Hj. apply Hf, blk_halves; auto. }
    assert (Hup : forall o' i' k, o + 1 <= o' <= MAX_ORDER -> i' ∈ B o' ->
      in_blk (o + 1) i k -> in_blk o' i' k -> exists o'' i'', o + 1 <= o'' <= MAX_ORDER /\
        i'' ∈ B o'' /\ forall j, in_blk (o + 1) i j -> in_blk o'' i'' j).
    { intros o' i' k Ho' Hi' Hk Hk'. exists o', i'. split; [done|]. split; [done|].
      eapply blk_contains; [| |done|exact Hk|done]; [lia|]. apply (bk_valid B); [done|lia|done]. }
    destruct (decide (o1 = o)) as [->|Hne1].
    + destruct (decide (o2 = o)) as [->|Hne2].
      * exfalso. assert (i1 = i) as -> by (by eapply blk_same).
        assert (i2 = i + 2^o) as -> by (by eapply blk_same).
        apply (HC o i); [lia|done|]. by rewrite buddy_low.
      * apply (Hup o2 i2 (i + 2^o)); [lia|done| |auto]. apply blk_halves; auto.
    + apply (Hup o1 i1 i); [lia|done| |auto]. apply blk_halves; auto.
Qed.

Lemma coalesced_canonical B B' :
  blocks_ok B -> blocks_ok B' -> coalesced B -> coalesced B' ->
  (forall j, freep B j <-> freep B' j) ->
  forall o i, 0 <= o <= MAX_ORDER -> i ∈ B o -> i ∈ B' o.
Proof.
  intros HB HB' HC HC' HF o i Ho Hi.
  destruct (coalesced_covers B' o i) as (o' & i' & Ho' & Hi' & Hc); [done..| | |].
  { by apply (bk_valid B). }
  { intros j Hj. apply HF. by exists o, i. }
  destruct (coalesced_covers B o' i') as (o2 & i2 & Ho2 & Hi2 & Hc2); [done..|lia| | |].
  { apply (bk_valid B'); [done|lia|done]. }
  { intros j Hj. apply HF. exists o', i'. split; [lia|done]. }
  assert (Hself : in_blk o i i) by (apply in_blk_self; lia).
  destruct (bk_disj B HB o i o2 i2 i) as [<- <-]; [lia|lia|done|done|done|auto|].
  assert (o' = o) as -> by lia.
  assert (i' = i) as -> by (apply blk_same with o; [lia|done]).
  done.
Qed.
(** ** Reading the free lists back *)

(** The pages on the free list that starts at address [p]. *)
Fixpoint list_blocks (fuel : nat) (m : mem) (p : Z) : list Z :=
  match fuel with
  | O => []
  | S f => if p =? 0 then [] else pa2idx p :: list_blocks f m (load32 m p)
  end.
Definition free_blocks (s : kstate) (o : Z) : list Z :=
  match free_areas (k_kmem s) !! Z.to_nat o with
  | Some a => list_blocks (Z.to_nat (NPAGES + 1)) (k_mem s) (freelist a)
  | None => []
  end.

Lemma list_blocks_chain fuel m l : forall p,
  (forall i, i ∈ l -> 0 <= i < NPAGES) -> (length l < fuel)%nat ->
  chain m p l -> list_blocks fuel m p = l.
Proof.
  revert fuel. induction l as [|i l IH]; intros fuel p Hl Hf Hc;
    (destruct fuel as [|fuel]; simpl in Hf; [lia|]).
  - unfold chain in Hc. simpl in Hc. by subst.
  - destruct Hc as [-> Hc]. simpl.
    assert (Hi : 0 <= i < NPAGES) by (apply Hl; set_solver).
    destruct (Z.eqb_spec (idx2pa i) 0); [by apply idx2pa_nonzero in Hi|].
    rewrite pa2idx_idx2pa by done. f_equal. apply IH; [set_solver|lia|done].
Qed.

Lemma free_blocks_eq B s o :
  buddy_inv B (k_kmem s) (k_mem s) -> 0 <= o <= MAX_ORDER -> free_blocks s o = B o.
Proof.
  intros HI Ho. destruct (bi_linked _ _ _ HI o Ho) as (a & Ha & Hc & _).
  pose proof (blk_length B o (bi_blocks _ _ _ HI) Ho) as Hlen.
  unfold free_blocks. rewrite Ha. apply list_blocks_chain; [|lia|done].
  intros i Hi. by apply (blk_range B o i (bi_blocks _ _ _ HI)).
Qed.

Lemma free_blocks_restored s s' :
  alloc_ok s -> alloc_ok s' -> (forall j, refs s' j = refs s j) ->
  forall o, 0 <= o <= MAX_ORDER -> free_blocks s' o ≡ₚ free_blocks s o.
Proof.
  intros (_ & _ & B & HI) (_ & _ & B' & HI') Hr o Ho.
  pose proof (ki_buddy _ _ _ _ _ HI) as HB. pose proof (ki_buddy _ _ _ _ _ HI') as HB'.
  assert (HF : forall j, freep B j <-> freep B' j).
  { intros j. destruct (decide (first_page <= j < NPAGES)) as [Hj|Hj].
    - rewrite (ki_managed _ _ _ _ _ HI j Hj), (ki_managed _ _ _ _ _ HI' j Hj).
      specialize (Hr j). unfold refs in Hr. by rewrite Hr.
    - destruct (ki_outside _ _ _ _ _ HI j Hj), (ki_outside _ _ _ _ _ HI' j Hj). tauto. }
  rewrite (free_blocks_eq B s), (free_blocks_eq B' s') by done.
  destruct HB as [H1 _ _ C1], HB' as [H2 _ _ C2].
  apply NoDup_Permutation; [by apply bk_nodup|by apply bk_nodup|].
  intros i. split; [apply (coalesced_canonical B' B)|apply (coalesced_canonical B B')];
    try done; intros j; by rewrite HF.
Qed.

Lemma kalloc_kfree_refs `{!LayoutOk L} s :
  alloc_ok s ->
  runs (kalloc s) (fun r s1 => r = 0 \/
    runs (kfree r s1) (fun _ s2 => alloc_ok s2 /\ forall j, refs s2 j = refs s j)).
Proof.
  intros Hok. pose proof (alloc_refines s Hok) as H1. simpl in H1.
  destruct (kalloc s) as [r s1|[]|]; simpl in *; try done.
  destruct H1 as [Hok1 Hst].
  destruct (decide (r = 0)) as [|Hr]; [by left|right].
  pose proof (free_refines s1 r Hok1) as H2. simpl in H2. unfold bind in H2.
  inversion Hst as [i r' mi Hi H0 Hup| | |]; subst; [|done].
  destruct (kfree _ s1) as [[] s2|[]|]; simpl in H2; try done.
  - destruct H2 as [Hok2 Hst2]. simpl. split; [done|].
    inversion Hst2 as [| |i2 r2 mi2 Hi2 H02 Hup2 Hk2 Heq|]; subst.
    assert (i2 = i) as -> by (unfold PGSIZE in *; lia).
    intros j. rewrite Hup2. unfold fupd. rewrite !Hup. unfold fupd.
    repeat case_decide; subst; try done; lia.
  - specialize (H2 i Hi eq_refl). rewrite Hup in H2. unfold fupd in H2.
    by case_decide.
Qed.

(** ** Results *)

(** C1: the allocator refines a table of reference counts over a memory.
    From a state that [cpu_ok] holds of, [kinit] returns, and any sequence of
    fewer than 2^16 - 2 calls of [kalloc], [kfree] and [kaddref] after it (so
    that a 16-bit count cannot wrap) returns exactly what the table allows: an
    allocation hands out a page nobody refers to, filled with the byte 5, or
    reports exhaustion only when there is none, and a call panics only when its
    argument is not the address of a page in use.  No call changes a byte of a
    page that is in use before and after it, or a byte outside the managed
    memory.  No other failure is possible. *)
Theorem kalloc_sequences_refine `{!LayoutOk L} (s : kstate) (ops : list alloc_op) :
  cpu_ok s -> Z.of_nat (length ops) < 2^16 - 2 ->
  exists s1, kinit s = Ok tt s1 /\ refines_run (fun _ => 0) (k_mem s1) ops (exec_ops ops s1).
Proof.
  intros Hcpu Hlen.
  destruct (proj1 (runs_ok _ _) (kinit_runs s Hcpu))
    as ([] & s1 & Hi & HK & Hl & Hc & Hfree & Hr0).
  exists s1. split; [done|].
  assert (Hok : alloc_ok s1) by done.
  pose proof (ops_refine ops s1 1 Hok ltac:(lia)
    ltac:(intros i; rewrite Hr0; lia) ltac:(lia)) as H.
  destruct (exec_ops ops s1) as [vs s2|[]|]; simpl in *; try done.
  - destruct H as [Hok2 Hrun]. split; [done|]. by apply spec_run_ext with (refs s1).
  - destruct H as (o1 & op & o2 & vs & r1 & m1 & -> & Hrun & Herr).
    exists o1, op, o2, vs, r1, m1. split; [done|]. split; [|done].
    by apply spec_run_ext with (refs s1).
Qed.

(** [kinit] makes exactly the pages from the end of the kernel image to
    [PHYSTOP] available, with the free blocks aligned, disjoint and fully
    coalesced, and leaves the lock free. *)
Lemma kinit_frees_all_ram `{!LayoutOk L} (s : kstate) :
  cpu_ok s ->
  runs (kinit s) (fun _ s' => alloc_ok s' /\
    forall j, 0 <= j < NPAGES ->
      (is_free s' j <-> end_ <= KERNBASE + j * PGSIZE)).
Proof.
  intros Hcpu. eapply runs_mono; [by apply kinit_runs|].
  intros _ s' (HK & Hl & Hc & Hfree & _). split; [done|].
  intros j Hj. rewrite Hfree by done. destruct first_page_spec as (Hp & Hr & He).
  destruct (end_in_ram (L := L)). unfold PHYSTOP, KERNBASE in *.
  destruct (PGROUNDUP_bounds end_) as [Hb Ha]; [lia..|]. unfold PGSIZE in *. lia.
Qed.

(** [kalloc] returns 0 exactly when no page is free; otherwise it returns
    the address of a page that was free and had no references, gives it one
    reference, fills it with the byte 5, and changes no byte of any page in
    use. *)
Lemma kalloc_correct (s : kstate) :
  alloc_ok s ->
  runs (kalloc s) (fun r s' => alloc_ok s' /\
    exists k' m', kframe s s' k' m' /\ kalloc_post s r k' m').
Proof.
  intros Hok. pose proof Hok as (Hc & Hl & HK).
  eapply runs_mono; [by apply kalloc_runs|].
  intros r s' (k' & m' & Hf & HK' & Hp). split; [by eapply alloc_ok_kframe|].
  by exists k', m'.
Qed.

(** [kfree] drops one reference; the page joins the free ones exactly with
    its last reference, other pages keep their state, and no byte outside the
    freed page and the free pages changes. *)
Lemma kfree_correct (s : kstate) (i : Z) :
  alloc_ok s -> 0 <= i < NPAGES -> end_ <= idx2pa i -> 1 <= refs s i ->
  runs (kfree (idx2pa i) s) (fun _ s' => alloc_ok s' /\
    exists k' m', kframe s s' k' m' /\ kfree_post s i k' m').
Proof.
  intros Hok Hi He Hr. pose proof Hok as (Hc & Hl & HK).
  eapply runs_mono; [by apply kfree_runs|].
  intros r s' (k' & m' & Hf & HK' & Hp). split; [by eapply alloc_ok_kframe|].
  by exists k', m'.
Qed.

(** Freeing the page just allocated restores the allocator: every free
    list holds exactly the blocks it held before, so splitting on allocation
    is undone by merging on release. *)
Lemma kfree_undoes_kalloc `{!LayoutOk L} (s : kstate) :
  alloc_ok s ->
  runs (kalloc s) (fun r s1 => r = 0 \/
    runs (kfree r s1) (fun _ s2 =>
      forall o, 0 <= o <= MAX_ORDER -> free_blocks s2 o ≡ₚ free_blocks s o)).
Proof.
  intros Hok. eapply runs_mono; [by apply kalloc_kfree_refs|].
  intros r s1 [->|H]; [by left|right]. eapply runs_mono; [exact H|].
  intros _ s2 [Hok2 Hr]. by apply free_blocks_restored.
Qed.
End spec.

(** ** Witnesses *)

(** A machine whose image leaves eight pages of RAM. *)
Definition small_layout : Layout := {|
  end_ := PHYSTOP - 8 * PGSIZE - 100; etext := KERNBASE + 0x8000;
  trampoline := KERNBASE + 0x7000; uservec := KERNBASE + 0x7000;
  kernelvec := KERNBASE + 0x100; usertrap_addr := KERNBASE + 0x200;
  forkret_addr := KERNBASE + 0x300; userret := KERNBASE + 0x7080 |}.
Lemma small_layout_ok : LayoutOk small_layout.
Proof. split. vm_compute. done. Qed.
Lemma boot_cpu_ok : cpu_ok boot_state.
Proof. vm_compute. intuition congruence. Qed.

Lemma kalloc_sequences_refine_witness :
  exists s1, @kinit small_layout boot_state = Ok tt s1 /\
    @refines_run small_layout (fun _ => 0) (k_mem s1) [OpAlloc; OpAlloc; OpFree (PHYSTOP - PGSIZE)]
      (@exec_ops small_layout [OpAlloc; OpAlloc; OpFree (PHYSTOP - PGSIZE)] s1).
Proof.
  apply (@kalloc_sequences_refine small_layout small_layout_ok).
  - apply boot_cpu_ok.
  - vm_compute. done.
Defined.

(** The state [kinit] leaves on the small machine. *)
Lemma small_state_ex : exists s,
  @kinit small_layout boot_state = Ok tt s /\ @alloc_ok small_layout s.
Proof.
  destruct (proj1 (runs_ok _ _) (@kinit_runs small_layout small_layout_ok _ boot_cpu_ok))
    as ([] & s & He & HK & Hl & Hc & _). exists s.
  exact (conj He (conj Hc (conj Hl HK))).
Qed.


(** The last page of RAM, just allocated. *)
Lemma small_alloc_ex : exists s,
  @alloc_ok small_layout s /\ refs s (NPAGES - 8) = 1.
Proof.
  destruct small_state_ex as (s & Hs & Hok).
  destruct (proj1 (runs_ok _ _) (kalloc_runs _ _ s (proj1 Hok) (proj1 (proj2 Hok))
    (proj2 (proj2 Hok)))) as (r & s1 & He & k' & m' & Hf & HK' & _).
  pose proof (@alloc_ok_kframe small_layout _ _ _ _ Hok Hf HK') as Hok1. exists s1. split; [exact Hok1|].
  assert (Hr : (@kinit small_layout ;; kalloc) boot_state = Ok r s1).
  { unfold bind. rewrite Hs. exact He. }
  assert (Hc : match (@kinit small_layout ;; kalloc) boot_state with
               | Ok r s1 => (refs s1 (NPAGES - 8) =? 1) = true | _ => False end)
    by (vm_compute; done).
  rewrite Hr in Hc. apply Z.eqb_eq. exact Hc.
Qed.

