(* ===== verification/Printf.v ===== *)
(** * Console output

    Models the transmit side of [src/os/kernel/uart.c] used by the kernel
    itself, [consputc] of [console.c], and [src/os/kernel/printf.c].  The UART
    accepts every byte written to its transmit register, in order; the spin on
    the line-status register ends when it does. *)

From Stdlib Require Import Ascii.
From S2P Require Import Prelude CMem Machine Sv32 Spinlock.

(** The bytes of a C string literal, without its nul. *)
Definition cstr (s : string) : list Z :=
  (fun c => Z.of_nat (nat_of_ascii c)) <$> String.list_ascii_of_string s.

(** [WriteReg(THR, c)] *)
Definition thr_write (c : Z) : K unit :=
  upd_uart (fun u => set_u_out (u.(u_out) ++ [c mod 256]) u).

(** [panicking] and [panicked] are zero until [panic], which does not return. *)
Definition uartputc_sync (c : Z) : K unit :=
  push_off ;;
  thr_write c ;;
  pop_off.

Definition BACKSPACE : Z := 0x100.

Definition consputc (c : Z) : K unit :=
  if c =? BACKSPACE
  then uartputc_sync 8 ;; uartputc_sync 32 ;; uartputc_sync 8
  else uartputc_sync c.

Fixpoint consputs (cs : list Z) : K unit :=
  match cs with
  | [] => ret tt
  | c :: cs' => consputc c ;; consputs cs'
  end.

(** ** printf.c *)

Definition digits (i : Z) : Z := nth (Z.to_nat i) (cstr "0123456789abcdef") 0.

(** [do buf[i++] = digits[x % base]; while((x /= base) != 0);]: the buffer,
    first stored character first.  A 32-bit [x] has at most 32 digits. *)
Fixpoint digits_of (fuel : nat) (x base : Z) : list Z :=
  match fuel with
  | O => []
  | S f =>
      digits (x mod base) ::
      (if x / base =? 0 then [] else digits_of f (x / base) base)
  end.

(** The characters [printint] sends, in order: [xx] is a [long], 32 bits. *)
Definition printint_chars (xx base : Z) (sign : bool) : list Z :=
  let neg := sign && (xx <? 0) in
  let x := if neg then u32 (- xx) else u32 xx in
  rev (digits_of 32 x base ++ (if neg then cstr "-" else [])).
Definition printint (xx base : Z) (sign : bool) : K unit :=
  consputs (printint_chars (i32 xx) base sign).

(** [for (i = 0; i < sizeof(uint64) * 2; i++, x <<= 4)
       consputc(digits[x >> (sizeof(uint64) * 8 - 4)]);] *)
Fixpoint printptr_loop (n : nat) (x : Z) : list Z :=
  match n with
  | O => []
  | S n' => digits (Z.shiftr x 60) :: printptr_loop n' (u64 (Z.shiftl x 4))
  end.
Definition printptr (x : Z) : K unit :=
  consputs (cstr "0x" ++ printptr_loop 16 (u64 x)).

(** Variable arguments, each with the type it was passed at; fetching one at
    another type is undefined behaviour. *)
Inductive varg := VInt (z : Z) | VLong (z : Z) | VStr (s : list Z) | VNull.

Definition va_int (ap : list varg) : K (Z * list varg) :=
  match ap with VInt z :: ap => ret (z, ap) | _ => undefined "va_arg" end.
Definition va_long (ap : list varg) : K (Z * list varg) :=
  match ap with VLong z :: ap => ret (z, ap) | _ => undefined "va_arg" end.
Definition va_str (ap : list varg) : K (list Z * list varg) :=
  match ap with
  | VStr z :: ap => ret (z, ap)
  | VNull :: ap => ret (cstr "(null)", ap)
  | _ => undefined "va_arg"
  end.

Definition ch_d : Z := 100.
Definition ch_l : Z := 108.
Definition ch_u : Z := 117.
Definition ch_x : Z := 120.
Definition ch_p : Z := 112.
Definition ch_c : Z := 99.
Definition ch_s : Z := 115.
Definition ch_pct : Z := 37.

(** The loop of [printf] from a position of [fmt]. *)
Fixpoint printf_loop (fuel : nat) (fmt : list Z) (ap : list varg) : K unit :=
  match fuel with
  | O => nofuel
  | S f =>
      match fmt with
      | [] => ret tt
      | cx :: r =>
          if negb (cx =? ch_pct) then consputc cx ;; printf_loop f r ap else
          let c0 := nth 0 r 0 in
          let c1 := if c0 =? 0 then 0 else nth 1 r 0 in
          let c2 := if c1 =? 0 then 0 else nth 2 r 0 in
          let num get k base sg :=
            a <- get ap ;; printint a.1 base sg ;; printf_loop f (drop k r) a.2 in
          if c0 =? ch_d then num va_int 1%nat 10 true
          else if (c0 =? ch_l) && (c1 =? ch_d) then num va_long 2%nat 10 true
          else if (c0 =? ch_l) && (c1 =? ch_l) && (c2 =? ch_d)
          then num va_long 3%nat 10 true
          else if c0 =? ch_u then num va_int 1%nat 10 false
          else if (c0 =? ch_l) && (c1 =? ch_u) then num va_long 2%nat 10 false
          else if (c0 =? ch_l) && (c1 =? ch_l) && (c2 =? ch_u)
          then num va_long 3%nat 10 false
          else if c0 =? ch_x then num va_int 1%nat 16 false
          else if (c0 =? ch_l) && (c1 =? ch_x) then num va_long 2%nat 16 false
          else if (c0 =? ch_l) && (c1 =? ch_l) && (c2 =? ch_x)
          then num va_long 3%nat 16 false
          else if c0 =? ch_p then
            a <- va_long ap ;; printptr a.1 ;; printf_loop f (drop 1 r) a.2
          else if c0 =? ch_c then
            a <- va_int ap ;; consputc a.1 ;; printf_loop f (drop 1 r) a.2
          else if c0 =? ch_s then
            a <- va_str ap ;; consputs a.1 ;; printf_loop f (drop 1 r) a.2
          else if c0 =? ch_pct then consputc ch_pct ;; printf_loop f (drop 1 r) ap
          else if c0 =? 0 then ret tt
          else consputc ch_pct ;; consputc c0 ;; printf_loop f (drop 1 r) ap
      end
  end.

Definition printf (fmt : list Z) (ap : list varg) : K unit :=
  acquire LPr ;;
  printf_loop (S (length fmt)) fmt ap ;;
  release LPr.

Definition printfinit : K unit := initlock LPr "pr".
