(* ===== verification/PrintfProof.v ===== *)
(** * Console output: properties

    [printf] sends to the UART exactly the characters its format asks for and
    leaves the rest of the kernel as it was; the digits of [printint] denote
    the number, and fit the buffer they are built in. *)

From S2P Require Import Prelude CMem Machine Sv32 Spinlock Printf.

(** ** Numbers *)

(** The value of a digit, and of digits stored least significant first. *)
Definition dval (c : Z) : Z := if c <=? 57 then c - 48 else c - 87.
Definition value (base : Z) (l : list Z) : Z := foldr (fun c acc => dval c + base * acc) 0 l.
(** Reading a number, most significant digit first, with an optional sign. *)
Definition read_digits (base : Z) (l : list Z) : Z := foldl (fun acc c => acc * base + dval c) 0 l.
Definition read_int (base : Z) (l : list Z) : Z :=
  match l with
  | c :: l' => if c =? 45 then - read_digits base l' else read_digits base l
  | [] => 0
  end.

Lemma read_digits_rev base l : read_digits base (rev l) = value base l.
Proof.
  unfold read_digits, value. induction l as [|c l IH]; simpl; [done|].
  rewrite foldl_app, IH. simpl. lia.
Qed.

Lemma digits_spec i : 0 <= i < 16 -> dval (digits i) = i /\ digits i <> 45.
Proof.
  intros Hi. assert (H : forall k, (k < 16)%nat ->
    dval (digits (Z.of_nat k)) = Z.of_nat k /\ digits (Z.of_nat k) <> 45).
  { intros k Hk. do 16 (destruct k as [|k]; [done|]). lia. }
  specialize (H (Z.to_nat i)). rewrite Z2Nat.id in H by lia. apply H. lia.
Qed.

Lemma digits_of_value n x base :
  2 <= base <= 16 -> 0 <= x < base ^ Z.of_nat n -> value base (digits_of n x base) = x.
Proof.
  intros Hb. revert x. induction n as [|n IH]; intros x Hx.
  - change (base ^ Z.of_nat 0) with 1 in Hx. simpl. lia.
  - rewrite Nat2Z.inj_succ, Z.pow_succ_r in Hx by lia. simpl.
    assert (Hm : 0 <= x mod base < base) by (apply Z.mod_pos_bound; lia).
    rewrite (proj1 (digits_spec (x mod base) ltac:(lia))). pose proof (Z.div_mod x base ltac:(lia)) as Hdm.
    destruct (Z.eqb_spec (x / base) 0) as [Hz|Hz]; simpl; [rewrite Hz in Hdm; lia|].
    rewrite IH; [lia|]. split; [apply Z.div_pos; lia|]. apply Z.div_lt_upper_bound; lia.
Qed.

Lemma digits_of_length n k x base :
  2 <= base -> (0 < k)%nat -> 0 <= x < base ^ Z.of_nat k -> (length (digits_of n x base) <= k)%nat.
Proof.
  intros Hb. revert k x. induction n as [|n IH]; intros k x Hk Hx; simpl; [lia|].
  destruct k as [|k]; [lia|]. destruct (Z.eqb_spec (x / base) 0) as [Hz|Hz]; simpl; [lia|].
  enough (length (digits_of n (x / base) base) <= k)%nat by lia.
  rewrite Nat2Z.inj_succ, Z.pow_succ_r in Hx by lia.
  assert (Hd : 0 <= x / base < base ^ Z.of_nat k).
  { split; [apply Z.div_pos; lia|]. apply Z.div_lt_upper_bound; lia. }
  destruct k as [|k]; [simpl in Hd; lia|]. apply IH; [lia|done].
Qed.

Lemma digits_of_head n x base :
  2 <= base <= 16 -> (0 < n)%nat -> 0 <= x ->
  exists c l, rev (digits_of n x base) = c :: l /\ c <> 45.
Proof.
  intros Hb. revert x. induction n as [|n IH]; intros x Hn Hx; [lia|]. simpl.
  assert (Hm : 0 <= x mod base < 16) by (pose proof (Z.mod_pos_bound x base); lia).
  destruct (Z.eqb_spec (x / base) 0) as [Hz|Hz].
  - simpl. eexists _, []. split; [done|]. by apply digits_spec.
  - assert (Hd : 0 <= x / base) by (apply Z.div_pos; lia).
    destruct n as [|n]; [simpl; eexists _, []; split; [done|by apply digits_spec]|].
    destruct (IH (x / base)) as (c & l & E & Hc); [lia|done|]. rewrite E. simpl. eauto.
Qed.

(** The magnitude [printint] writes. *)
Lemma printint_chars_eq xx base sign :
  printint_chars xx base sign =
    (if sign && (xx <? 0) then [45] else []) ++
    rev (digits_of 32 (if sign && (xx <? 0) then u32 (- xx) else u32 xx) base).
Proof.
  unfold printint_chars. rewrite rev_app_distr. f_equal. by destruct (sign && (xx <? 0)).
Qed.

(** ** Characters to the UART *)

(** [cs] sent, nothing else changed. *)
Definition sent (s : kstate) (cs : list Z) : kstate :=
  set_uart (set_u_out (u_out (k_uart s) ++ ((fun c => c mod 256) <$> cs)) (k_uart s)) s.

Lemma sent_nil s : sent s [] = s.
Proof. unfold sent. simpl. rewrite app_nil_r. by destruct s as [? ? ? ? ? ? ? ? ? ? ? ? []]. Qed.
Lemma sent_app s cs cs' : sent (sent s cs) cs' = sent s (cs ++ cs').
Proof. unfold sent. simpl. by rewrite fmap_app, app_assoc. Qed.

(** Inside a section a character is sent without a trace in the CPU state. *)
Lemma uartputc_sync_eq s c :
  cpu_ok s -> 0 < c_noff (k_cpu s) -> uartputc_sync c s = Ok tt (sent s [c]).
Proof.
  intros Hc Hn. unfold uartputc_sync. rewrite (bind_ok _ _ _ _ _ (push_off_eq s)).
  unfold bind at 1, thr_write, upd_uart, modify. cbn [rbind].
  set (s1 := set_uart _ (off_state s)).
  destruct (pop_off_eq s s1 Hc eq_refl eq_refl) as (i & Hi & ->). f_equal.
  rewrite (Hi Hn). unfold s1, sent, off_state. by destruct s as [[] ? ? ? ? ? ? ? ? ? ? ? []].
Qed.

(** What [consputc] sends for a character. *)
Definition cons_chars (c : Z) : list Z := if c =? BACKSPACE then [8; 32; 8] else [c].

Lemma consputc_eq s c :
  cpu_ok s -> 0 < c_noff (k_cpu s) -> consputc c s = Ok tt (sent s (cons_chars c)).
Proof.
  intros Hc Hn. unfold consputc, cons_chars. destruct (c =? BACKSPACE).
  - rewrite (bind_ok _ _ _ _ _ (uartputc_sync_eq s 8 Hc Hn)).
    rewrite (bind_ok _ _ _ _ _ (uartputc_sync_eq (sent s [8]) 32 Hc Hn)).
    rewrite (uartputc_sync_eq (sent (sent s [8]) [32]) 8 Hc Hn). by rewrite !sent_app.
  - by apply uartputc_sync_eq.
Qed.

Lemma consputs_eq cs s :
  cpu_ok s -> 0 < c_noff (k_cpu s) -> consputs cs s = Ok tt (sent s (mjoin (cons_chars <$> cs))).
Proof.
  revert s. induction cs as [|c cs IH]; intros s Hc Hn; simpl; [by rewrite sent_nil|].
  rewrite (bind_ok _ _ _ _ _ (consputc_eq s c Hc Hn)), IH by done. by rewrite sent_app.
Qed.

(** ** What a format prints *)

(** An argument fetched at the type [k] asks for, as the characters printed. *)
Inductive conv := CInt (base : Z) (sign : bool) | CLong (base : Z) (sign : bool)
  | CPtr | CChar | CStr.

Definition convert (k : conv) (ap : list varg) : option (list Z * list varg) :=
  match k, ap with
  | CInt base sign, VInt z :: ap' | CLong base sign, VLong z :: ap' =>
      Some (printint_chars (i32 z) base sign, ap')
  | CPtr, VLong z :: ap' => Some (cstr "0x" ++ printptr_loop 16 (u64 z), ap')
  | CChar, VInt z :: ap' => Some ([z], ap')
  | CStr, VStr l :: ap' => Some (l, ap')
  | CStr, VNull :: ap' => Some (cstr "(null)", ap')
  | _, _ => None
  end.

(** The conversions: what follows the percent sign. *)
Definition conversions : list (list Z * conv) :=
  [(cstr "d", CInt 10 true); (cstr "ld", CLong 10 true); (cstr "lld", CLong 10 true);
   (cstr "u", CInt 10 false); (cstr "lu", CLong 10 false); (cstr "llu", CLong 10 false);
   (cstr "x", CInt 16 false); (cstr "lx", CLong 16 false); (cstr "llx", CLong 16 false);
   (cstr "p", CPtr); (cstr "c", CChar); (cstr "s", CStr)].

Fixpoint starts (k r : list Z) : bool :=
  match k, r with
  | [], _ => true
  | a :: k', b :: r' => (b =? a) && starts k' r'
  | _, [] => false
  end.
Fixpoint first_match (t : list (list Z * conv)) (r : list Z) : option (conv * nat) :=
  match t with
  | [] => None
  | (k, c) :: t' => if starts k r then Some (c, length k) else first_match t' r
  end.
Definition conversion (r : list Z) : option (conv * nat) := first_match conversions r.

Fixpoint render (fuel : nat) (fmt : list Z) (ap : list varg) : option (list Z) :=
  match fuel with
  | O => None
  | S f =>
      match fmt with
      | [] => Some []
      | c :: r =>
          if negb (c =? ch_pct) then (fun t => c :: t) <$> render f r ap else
          match conversion r with
          | Some (k, n) =>
              '(cs, ap') ← convert k ap; (fun t => cs ++ t) <$> render f (drop n r) ap'
          | None =>
              match r with
              | [] => Some []
              | c0 :: r' =>
                  if c0 =? ch_pct then (fun t => ch_pct :: t) <$> render f r' ap
                  else if c0 =? 0 then Some []
                  else (fun t => ch_pct :: c0 :: t) <$> render f r' ap
              end
          end
      end
  end.

(** The tests of the code, on the next three characters. *)
Lemma starts_1 a r : a <> 0 -> (nth 0 r 0 =? a) = starts [a] r.
Proof.
  intros Ha. destruct r as [|c r]; simpl; [by destruct a|by rewrite andb_true_r].
Qed.
Lemma starts_2 a b r :
  a <> 0 -> b <> 0 -> let c0 := nth 0 r 0 in let c1 := if c0 =? 0 then 0 else nth 1 r 0 in
  (c0 =? a) && (c1 =? b) = starts [a; b] r.
Proof.
  intros Ha Hb. destruct r as [|c r]; simpl; [by destruct a|].
  destruct (Z.eqb_spec c a) as [->|]; [|done]. destruct (Z.eqb_spec a 0); [done|]. simpl.
  by apply (starts_1 b r).
Qed.
Lemma starts_3 a b d r :
  a <> 0 -> b <> 0 -> d <> 0 -> let c0 := nth 0 r 0 in
  let c1 := if c0 =? 0 then 0 else nth 1 r 0 in let c2 := if c1 =? 0 then 0 else nth 2 r 0 in
  (c0 =? a) && (c1 =? b) && (c2 =? d) = starts [a; b; d] r.
Proof.
  intros Ha Hb Hd. destruct r as [|c r]; simpl; [by destruct a|].
  destruct (Z.eqb_spec c a) as [->|]; [|done]. destruct (Z.eqb_spec a 0); [done|]. simpl.
  by apply (starts_2 b d r).
Qed.

Lemma conversion_eq r : conversion r =
  if starts [100] r then Some (CInt 10 true, 1%nat) else
  if starts [108; 100] r then Some (CLong 10 true, 2%nat) else
  if starts [108; 108; 100] r then Some (CLong 10 true, 3%nat) else
  if starts [117] r then Some (CInt 10 false, 1%nat) else
  if starts [108; 117] r then Some (CLong 10 false, 2%nat) else
  if starts [108; 108; 117] r then Some (CLong 10 false, 3%nat) else
  if starts [120] r then Some (CInt 16 false, 1%nat) else
  if starts [108; 120] r then Some (CLong 16 false, 2%nat) else
  if starts [108; 108; 120] r then Some (CLong 16 false, 3%nat) else
  if starts [112] r then Some (CPtr, 1%nat) else
  if starts [99] r then Some (CChar, 1%nat) else
  if starts [115] r then Some (CStr, 1%nat) else None.
Proof. reflexivity. Qed.

#[local] Opaque printint_chars printptr_loop cstr starts.

Lemma printf_loop_eq fuel fmt ap s cs :
  cpu_ok s -> 0 < c_noff (k_cpu s) -> render fuel fmt ap = Some cs ->
  printf_loop fuel fmt ap s = Ok tt (sent s (mjoin (cons_chars <$> cs))).
Proof.
  revert fmt ap s cs. induction fuel as [|fuel IH]; intros fmt ap s cs Hc Hn Hr; [done|].
  simpl in Hr |- *. destruct fmt as [|c r]; [simplify_eq; by rewrite sent_nil|].
  assert (Hone : forall x r' ap' t, render fuel r' ap' = Some t ->
    (consputc x ;; printf_loop fuel r' ap') s = Ok tt (sent s (mjoin (cons_chars <$> (x :: t))))).
  { intros x r' ap' t Ht. rewrite (bind_ok _ _ _ _ _ (consputc_eq s x Hc Hn)).
    rewrite (IH r' ap' _ t) by done. by rewrite sent_app. }
  assert (Hmany : forall l r' ap' t, render fuel r' ap' = Some t ->
    (consputs l ;; printf_loop fuel r' ap') s = Ok tt (sent s (mjoin (cons_chars <$> (l ++ t))))).
  { intros l r' ap' t Ht. rewrite (bind_ok _ _ _ _ _ (consputs_eq l s Hc Hn)).
    rewrite (IH r' ap' _ t) by done. by rewrite sent_app, fmap_app, join_app. }
  destruct (negb (c =? ch_pct)).
  { destruct (render fuel r ap) as [t|] eqn:Et; simplify_eq/=. by apply Hone. }
  rewrite conversion_eq in Hr.
  unfold ch_d, ch_u, ch_x, ch_p, ch_c, ch_s, ch_l in *.
  rewrite !starts_3, !starts_2 by done.
  rewrite (starts_1 100), (starts_1 117), (starts_1 120), (starts_1 112), (starts_1 99),
    (starts_1 115) by done.
  repeat (match goal with |- context [if starts ?k r then _ else _] =>
      revert Hr; destruct (starts k r); intros Hr end;
    [clear -Hr Hmany Hone; cbn [length] in Hr;
     destruct ap as [|[z|z|l|] ap]; simpl in Hr; try discriminate Hr;
     match type of Hr with (_ <$> ?e = _) => destruct e as [t|] eqn:Et; [|discriminate Hr] end;
     injection Hr as <-; first [exact (Hmany _ _ _ _ Et) | exact (Hone _ _ _ _ Et)]|]).
  destruct r as [|c0 r]; simpl in Hr |- *; [simplify_eq; by rewrite sent_nil|].
  rewrite drop_0. destruct (c0 =? ch_pct).
  { destruct (render fuel r ap) as [t|] eqn:Et; [|discriminate Hr]. injection Hr as <-.
    exact (Hone ch_pct _ _ _ Et). }
  destruct (c0 =? 0); [simplify_eq; by rewrite sent_nil|].
  destruct (render fuel r ap) as [t|] eqn:Et; [|discriminate Hr]. injection Hr as <-.
  rewrite (bind_ok _ _ _ _ _ (consputc_eq s ch_pct Hc Hn)).
  rewrite (bind_ok _ _ _ _ _ (consputc_eq (sent s (cons_chars ch_pct)) c0 Hc Hn)).
  rewrite (IH r ap _ t) by done. by rewrite !sent_app.
Qed.

(** [printf] with arguments of the types its format asks for sends exactly
    the rendered text to the UART and, the lock released again, leaves every
    other part of the kernel state as it was. *)
Lemma printf_spec s fmt ap cs :
  cpu_ok s -> lock_free s LPr -> render (S (length fmt)) fmt ap = Some cs ->
  runs (printf fmt ap s) (fun _ s' => exists j, scratch s j /\
    s' = set_cpu (mkCpu (c_proc (k_cpu s)) (c_noff (k_cpu s)) j)
           (sent s (mjoin (cons_chars <$> cs)))).
Proof.
  intros Hc Hl Hr. unfold printf. apply runs_bind, runs_acquire; [done|].
  rewrite (bind_ok _ _ _ _ _ (printf_loop_eq _ fmt ap (enter LPr s) cs
    (enter_cpu_ok _ _ Hc) ltac:(simpl; destruct Hc as (_ & ? & _); lia) Hr)).
  apply (runs_release _ s); [done|done|done|]. intros j Hj. exists j. split; [done|].
  by destruct s.
Qed.

(** Whether a format suits its arguments depends on their types only. *)
Definition erase (a : varg) : varg :=
  match a with VInt _ => VInt 0 | VLong _ => VLong 0 | VStr _ => VStr [] | VNull => VNull end.

Lemma convert_erase k ap :
  (convert k ap = None /\ convert k (erase <$> ap) = None) \/
  exists cs cs' ap', convert k ap = Some (cs, ap') /\
    convert k (erase <$> ap) = Some (cs', erase <$> ap').
Proof.
  destruct k, ap as [|[z|z|l|] ap]; simpl;
    first [left; done | right; eexists _, _, ap; by split].
Qed.

Lemma render_erase fuel fmt ap :
  is_Some (render fuel fmt (erase <$> ap)) -> is_Some (render fuel fmt ap).
Proof.
  revert fmt ap. induction fuel as [|fuel IH]; intros fmt ap; simpl; [done|].
  assert (Hf : forall (f f' : list Z -> list Z) r q, is_Some (f <$> render fuel r (erase <$> q)) ->
    is_Some (f' <$> render fuel r q)).
  { intros f f' r q. rewrite !fmap_is_Some. apply IH. }
  destruct fmt as [|c r]; [done|]. destruct (negb (c =? ch_pct)); [apply Hf|].
  destruct (conversion r) as [[k n]|].
  - destruct (convert_erase k ap) as [[_ ->]|(cs & cs' & ap' & -> & ->)]; simpl; [by intros []|].
    apply Hf.
  - destruct r as [|c0 r]; [done|]. destruct (c0 =? ch_pct); [apply Hf|].
    destruct (c0 =? 0); [done|]. apply Hf.
Qed.

#[local] Transparent printint_chars printptr_loop cstr starts.

(** ** Results *)

(** C38: the characters [printint] sends for a 32-bit value read back as that
    value, in base 10 with its sign and in base 10 or 16 as the unsigned
    value, and never more than the 20 that fit its buffer. *)
Theorem printint_roundtrip (xx base : Z) (sign : bool) :
  -2^31 <= xx < 2^31 -> base = 10 \/ base = 16 ->
  read_int base (printint_chars xx base sign) = (if sign then xx else u32 xx) /\
  Z.of_nat (length (printint_chars xx base sign)) <= 11.
Proof.
  intros Hx Hb. rewrite printint_chars_eq. set (neg := sign && (xx <? 0)).
  set (x := if neg then u32 (- xx) else u32 xx).
  assert (Hxr : 0 <= x < 2^32) by (subst x; unfold u32; destruct neg; apply Z.mod_pos_bound; done).
  assert (Hb2 : 2 <= base <= 16) by lia.
  assert (Hp : 2^32 <= base ^ Z.of_nat 10) by (destruct Hb as [-> | ->]; done).
  assert (Hv : read_digits base (rev (digits_of 32 x base)) = x).
  { rewrite read_digits_rev. apply digits_of_value; [done|]. split; [lia|].
    eapply Z.lt_le_trans; [apply Hxr|]. destruct Hb as [-> | ->]; done. }
  destruct (digits_of_head 32 x base) as (c & l & E & Hc); [done|lia|lia|].
  assert (Hlen : (length (rev (digits_of 32 x base)) <= 10)%nat)
    by (rewrite length_rev; apply digits_of_length; lia).
  revert Hv E Hlen. generalize (rev (digits_of 32 x base)) as ds. intros ds Hv E Hlen.
  split; [|rewrite length_app; destruct neg; simpl; lia].
  subst x neg. destruct (sign && (xx <? 0)) eqn:En.
  - simpl. rewrite Hv. apply andb_true_iff in En as [-> ?]. unfold u32. rewrite Z.mod_small; lia.
  - rewrite app_nil_l, E. simpl. destruct (Z.eqb_spec c 45); [done|]. rewrite <- E, Hv.
    destruct sign; [|done]. simpl in En. unfold u32. rewrite Z.mod_small; lia.
Qed.

Lemma printint_roundtrip_witness :
  read_int 10 (printint_chars (-2147483648) 10 true) = (if true then -2147483648 else 0) /\
  Z.of_nat (length (printint_chars (-2147483648) 10 true)) <= 11.
Proof. apply (printint_roundtrip (-2147483648) 10 true); [lia|left; reflexivity]. Defined.

