(* ===== verification/Sched.v ===== *)
(** * Processes on the CPU: scheduling, sleeping and waking

    Models the part of [src/os/kernel/taskmgr.c] that decides which process
    runs: the multi-level feedback queue, [scheduler], [sched], [yield],
    [sleep], [wakeup], and killing.  [swtch] is [Block]: the process keeps its
    continuation and the scheduler goes on from the state it leaves. *)

From S2P Require Import Prelude CMem Machine Sv32 Spinlock.

(** ** Current process *)

Definition cpuid : Z := 0.
Definition mycpu : K cpu := gets k_cpu.

Definition myproc : K (option Z) :=
  push_off ;;
  c <- mycpu ;;
  let p := c.(c_proc) in
  pop_off ;;
  ret p.

(** [myproc()] where the caller dereferences the result at once. *)
Definition curproc : K Z :=
  p <- myproc ;;
  match p with
  | Some i => ret i
  | None => undefined "null struct proc"
  end.

(** ** Multi-level feedback queue *)

Definition mlfq_quantum (level : Z) : Z :=
  if level <=? 0 then MLFQ_Q0_SLICE
  else if level =? 1 then MLFQ_Q1_SLICE
  else MLFQ_Q2_SLICE.

Definition mlfq_reset_proc (p : proc) : proc :=
  set_p_mlfq_stamp 0 (set_p_mlfq_ticks_used 0 (set_p_mlfq_level 0 p)).

Definition mlfq_mark_boost : K unit := upd_ptab (set_mlfq_need_boost 1).

(** What one timer tick does to the running process. *)
Definition mlfq_charge (p : proc) : proc :=
  let p := set_p_mlfq_ticks_used (p.(p_mlfq_ticks_used) + 1) p in
  if p.(p_mlfq_ticks_used) >=? mlfq_quantum p.(p_mlfq_level) then
    let p := set_p_mlfq_ticks_used 0 p in
    if p.(p_mlfq_level) <? MLFQ_LEVELS - 1
    then set_p_mlfq_level (p.(p_mlfq_level) + 1) p else p
  else p.

Definition mlfq_tick : K unit :=
  mp <- myproc ;;
  match mp with
  | None => ret tt
  | Some i =>
      p <- get_proc i ;;
      if decide (p.(p_state) <> RUNNING) then ret tt else
      upd_proc i mlfq_charge
  end.

Definition mlfq_boost_all : K unit :=
  for_ (Z.to_nat NPROC) 0 (fun i =>
    acquire (LProc i) ;;
    p <- get_proc i ;;
    (if decide (p.(p_state) <> UNUSED)
     then upd_proc i (fun p => set_p_mlfq_ticks_used 0 (set_p_mlfq_level 0 p))
     else ret tt) ;;
    release (LProc i)).

(** A process that gives up the CPU before its slice ends moves up a level. *)
Definition mlfq_promote (p : proc) : proc :=
  let p := if p.(p_mlfq_level) >? 0
           then set_p_mlfq_level (p.(p_mlfq_level) - 1) p else p in
  set_p_mlfq_ticks_used 0 p.

(** ** Context switches *)

(** [swtch(&p->context, &mycpu()->context)] *)
Definition swtch : K unit := fun s => Block s (fun s' => Ok tt s').

Definition sched : K unit :=
  p <- curproc ;;
  h <- holding (LProc p) ;;
  if negb h then panic "sched p->lock" else
  c <- mycpu ;;
  if negb (c.(c_noff) =? 1) then panic "sched locks" else
  pr <- get_proc p ;;
  if decide (pr.(p_state) = RUNNING) then panic "sched RUNNING" else
  i <- intr_get ;;
  if negb (i =? 0) then panic "sched interruptible" else
  c <- mycpu ;;
  let intena := c.(c_intena) in
  swtch ;;
  upd_cpu (fun c => mkCpu c.(c_proc) c.(c_noff) intena).

Definition yield (from_timer : bool) : K unit :=
  p <- curproc ;;
  acquire (LProc p) ;;
  (if negb from_timer then upd_proc p mlfq_promote else ret tt) ;;
  upd_proc p (set_p_state RUNNABLE) ;;
  sched ;;
  release (LProc p).

Definition sleep (ch : chan) (lk : lockid) : K unit :=
  p <- curproc ;;
  acquire (LProc p) ;;
  release lk ;;
  upd_proc p (set_p_chan (Some ch)) ;;
  upd_proc p mlfq_promote ;;
  upd_proc p (set_p_state SLEEPING) ;;
  sched ;;
  upd_proc p (set_p_chan None) ;;
  release (LProc p) ;;
  acquire lk.

(** [wakeup(chan)]; [None] is the null pointer. *)
Definition wakeup_at (ch : option chan) : K unit :=
  for_ (Z.to_nat NPROC) 0 (fun i =>
    me <- myproc ;;
    if decide (Some i = me) then ret tt else
    acquire (LProc i) ;;
    p <- get_proc i ;;
    (if decide (p.(p_state) = SLEEPING /\ p.(p_chan) = ch)
     then upd_proc i (set_p_state RUNNABLE) else ret tt) ;;
    release (LProc i)).
Definition wakeup (ch : chan) : K unit := wakeup_at (Some ch).

(** ** The scheduler *)

(** [p->mlfq_level < best_level || (p->mlfq_level == best_level &&
    p->mlfq_stamp < best_stamp)] *)
Definition better (p : proc) (best_level best_stamp : Z) : bool :=
  (p.(p_mlfq_level) <? best_level) ||
  ((p.(p_mlfq_level) =? best_level) && (p.(p_mlfq_stamp) <? best_stamp)).

(** The scan of [proc[]]: on return the lock of the process found is held. *)
Fixpoint scheduler_scan (n : nat) (i : Z) (best : option Z)
    (best_level best_stamp : Z) : K (option Z) :=
  match n with
  | O => ret best
  | S n' =>
      acquire (LProc i) ;;
      p <- get_proc i ;;
      if bool_decide (p.(p_state) = RUNNABLE) && better p best_level best_stamp then
        match best with
        | Some b => release (LProc b)
        | None => ret tt
        end ;;
        scheduler_scan n' (i + 1) (Some i) p.(p_mlfq_level) p.(p_mlfq_stamp)
      else
        release (LProc i) ;;
        scheduler_scan n' (i + 1) best best_level best_stamp
  end.

(** One round of the scheduler's [for(;;)] up to its [swtch]: the process it
    switches to, [None] when it waits for an interrupt. *)
Definition scheduler_round : K (option Z) :=
  intr_on ;;
  intr_off ;;
  t <- gets k_ptab ;;
  (if negb (t.(mlfq_need_boost) =? 0)
   then upd_ptab (set_mlfq_need_boost 0) ;; mlfq_boost_all
   else ret tt) ;;
  best <- scheduler_scan (Z.to_nat NPROC) 0 None MLFQ_LEVELS 0xffffffff ;;
  match best with
  | Some b =>
      upd_proc b (set_p_state RUNNING) ;;
      t <- gets k_ptab ;;
      let seq := u32 (t.(mlfq_seq) + 1) in
      upd_ptab (set_mlfq_seq seq) ;;
      upd_proc b (set_p_mlfq_stamp seq) ;;
      upd_cpu (fun c => mkCpu (Some b) c.(c_noff) c.(c_intena)) ;;
      ret (Some b)
  | None => ret None
  end.

(** After the [swtch] back: [c->proc = 0; release(&best->lock);] *)
Definition scheduler_return (best : Z) : K unit :=
  upd_cpu (fun c => mkCpu None c.(c_noff) c.(c_intena)) ;;
  release (LProc best).

(** ** Killing *)

Definition setkilled (p : Z) : K unit :=
  acquire (LProc p) ;;
  upd_proc p (set_p_killed 1) ;;
  release (LProc p).

Definition killed (p : Z) : K Z :=
  acquire (LProc p) ;;
  pr <- get_proc p ;;
  let k := pr.(p_killed) in
  release (LProc p) ;;
  ret k.

Definition kkill (pid : Z) : K Z :=
  r <- for_find (Z.to_nat NPROC) 0 (fun i =>
    acquire (LProc i) ;;
    p <- get_proc i ;;
    if p.(p_pid) =? pid then
      upd_proc i (set_p_killed 1) ;;
      (if decide (p.(p_state) = SLEEPING)
       then upd_proc i (set_p_state RUNNABLE) else ret tt) ;;
      release (LProc i) ;;
      ret (Some 0)
    else
      release (LProc i) ;;
      ret None) ;;
  ret (default (-1) r).

(** ** Process numbers and the process table *)

Definition allocpid : K Z :=
  acquire LPid ;;
  t <- gets k_ptab ;;
  let pid := t.(nextpid) in
  upd_ptab (set_nextpid (pid + 1)) ;;
  release LPid ;;
  ret pid.

Definition procinit : K unit :=
  initlock LPid "nextpid" ;;
  initlock LWait "wait_lock" ;;
  for_ (Z.to_nat NPROC) 0 (fun i =>
    initlock (LProc i) "proc" ;;
    upd_proc i (set_p_state UNUSED) ;;
    upd_proc i (set_p_kstack (u32 (KSTACK i)))).
