(* ===== verification/AddrSpace.v ===== *)
(** * Address spaces

    Models [src/os/kernel/addrspace.c]: Sv32 page tables stored in physical
    memory, the sorted list of memory regions of a process, copy-on-write
    copies of an address space, lazy allocation on page faults, and copies
    between kernel and user memory.

    A page table is the physical address of its page; a PTE pointer is the
    physical address of the word.  A [struct addr_space *] is never null in
    the kernel (every caller passes the address of a structure), so it is the
    structure itself: an operation that changes it returns the new one.
    Kernel buffers passed to the copy routines are lists of bytes. *)

From S2P Require Import Prelude CMem Machine Sv32 Spinlock Kalloc Sched.

(** ** Page-table words *)

Definition load_pte (pte : Z) : K Z := gets (fun s => load32 (k_mem s) pte).
Definition store_pte (pte v : Z) : K unit := upd_mem (fun m => store32 m pte v).
(** [memset(p, 0, PGSIZE)] on a page *)
Definition zero_page (p : Z) : K unit := upd_mem (fun m => memset m p 0 PGSIZE).

(** [&pagetable[PX(level, va)]] *)
Definition pte_addr (pagetable level va : Z) : Z := u32 (pagetable + 4 * PX level va).

Definition walk (pagetable va : Z) (alloc : bool) : K Z :=
  if va >=? MAXVA then panic "walk" else
  let pte := pte_addr pagetable 1 va in
  v <- load_pte pte ;;
  if has v PTE_V then ret (pte_addr (PTE2PA v) 0 va)
  else if negb alloc then ret 0 else
  pt <- kalloc ;;
  if pt =? 0 then ret 0 else
  zero_page pt ;;
  store_pte pte (Z.lor (PA2PTE pt) PTE_V) ;;
  ret (pte_addr pt 0 va).

Definition walkaddr (pagetable va : Z) : K Z :=
  if va >=? MAXVA then ret 0 else
  pte <- walk pagetable va false ;;
  if pte =? 0 then ret 0 else
  v <- load_pte pte ;;
  if negb (has v PTE_V) then ret 0 else
  if negb (has v PTE_U) then ret 0 else
  ret (PTE2PA v).

(** The loop of [mappages]; it maps [size / PGSIZE] pages, its fuel. *)
Fixpoint mappages_loop (n : nat) (pagetable a last pa perm : Z) : K Z :=
  match n with
  | O => nofuel
  | S n' =>
      pte <- walk pagetable a true ;;
      if pte =? 0 then ret (-1) else
      v <- load_pte pte ;;
      if has v PTE_V then panic "mappages: remap" else
      store_pte pte (Z.lor (Z.lor (PA2PTE pa) perm) PTE_V) ;;
      if a =? last then ret 0 else
      mappages_loop n' pagetable (u32 (a + PGSIZE)) last (u32 (pa + PGSIZE)) perm
  end.
Definition mappages (pagetable va size pa perm : Z) : K Z :=
  if negb (va mod PGSIZE =? 0) then panic "mappages: va not aligned" else
  if negb (size mod PGSIZE =? 0) then panic "mappages: size not aligned" else
  if size =? 0 then panic "mappages: size" else
  let last := u32 (va + size - PGSIZE) in
  mappages_loop (Z.to_nat (size / PGSIZE)) pagetable va last pa perm.

Definition kvmmap (kpgtbl va pa sz perm : Z) : K unit :=
  r <- mappages kpgtbl va sz pa perm ;;
  if negb (r =? 0) then panic "kvmmap" else ret tt.

Definition uvmcreate : K Z :=
  pagetable <- kalloc ;;
  if pagetable =? 0 then ret 0 else
  zero_page pagetable ;;
  ret pagetable.

Definition as_create : K addr_space :=
  pt <- uvmcreate ;;
  ret (set_pagetable pt zero_as).

(** ** Regions *)

(** [as->regions[i]] *)
Definition region (as_ : addr_space) (i : Z) : mem_region :=
  default zero_region (as_.(regions) !! Z.to_nat i).
Definition put_region (i : Z) (r : mem_region) (as_ : addr_space) : addr_space :=
  set_regions (<[Z.to_nat i := r]> as_.(regions)) as_.

(** [for(i = lo; i < lo + n; i++) if(f(i)) return i; return -1;] *)
Fixpoint first_index (n : nat) (lo : Z) (f : Z -> bool) : Z :=
  match n with
  | O => -1
  | S n' => if f lo then lo else first_index n' (lo + 1) f
  end.

Definition as_region_index (as_ : addr_space) (type : Z) : Z :=
  first_index (Z.to_nat as_.(region_count)) 0
    (fun i => (region as_ i).(rtype) =? type).

Definition as_region_do_free (type : Z) : bool :=
  negb (type =? MR_MMIO) && negb (type =? MR_TRAPFRAME) && negb (type =? MR_TRAMPOLINE).

Definition as_region_map_start (r : mem_region) : Z := PGROUNDDOWN r.(va_start).
Definition as_region_map_npages (r : mem_region) : Z :=
  if r.(va_end) <=? r.(va_start) then 0 else
  u32 (PGROUNDUP r.(va_end) - PGROUNDDOWN r.(va_start)) / PGSIZE.

(** [for(i = region_count; i > ins; i--) regions[i] = regions[i - 1]], with
    [n = region_count - ins] iterations *)
Fixpoint shift_up (n : nat) (i : Z) (as_ : addr_space) : addr_space :=
  match n with
  | O => as_
  | S n' => shift_up n' (i - 1) (put_region i (region as_ (i - 1)) as_)
  end.
(** [for(i = idx; i + 1 < region_count; i++) regions[i] = regions[i + 1]] *)
Fixpoint shift_down (n : nat) (i : Z) (as_ : addr_space) : addr_space :=
  match n with
  | O => as_
  | S n' => shift_down n' (i + 1) (put_region i (region as_ (i + 1)) as_)
  end.

(** [!(va_end <= r->va_start || va_start >= r->va_end)] *)
Definition overlaps (va_s va_e : Z) (r : mem_region) : bool :=
  negb ((va_e <=? r.(va_start)) || (va_s >=? r.(va_end))).

Definition as_add_region (as_ : addr_space) (va_start_ va_end_ type perm_ : Z)
    : addr_space * Z :=
  if as_.(pagetable) =? 0 then (as_, -1) else
  if negb (va_start_ mod PGSIZE =? 0) then (as_, -1) else
  if negb (type =? MR_HEAP) && negb (va_end_ mod PGSIZE =? 0) then (as_, -1) else
  if (va_end_ <? va_start_) || (va_end_ >? TRAPFRAME) then (as_, -1) else
  if as_.(region_count) >=? MAX_MREGIONS then (as_, -1) else
  if as_region_index as_ type >=? 0 then (as_, -1) else
  let n := Z.to_nat as_.(region_count) in
  if negb (first_index n 0 (fun i => overlaps va_start_ va_end_ (region as_ i)) =? -1)
  then (as_, -1) else
  let j := first_index n 0 (fun i => va_start_ <? (region as_ i).(va_start)) in
  let ins := if j =? -1 then as_.(region_count) else j in
  let as_ := shift_up (Z.to_nat (as_.(region_count) - ins)) as_.(region_count) as_ in
  let as_ := put_region ins (mkRegion va_start_ va_end_ type perm_) as_ in
  (set_region_count (as_.(region_count) + 1) as_, 0).

(** The region's index, [None] for the null pointer. *)
Definition as_find_region (as_ : addr_space) (va : Z) : option Z :=
  let i := first_index (Z.to_nat as_.(region_count)) 0 (fun i =>
             (va >=? (region as_ i).(va_start)) && (va <? (region as_ i).(va_end))) in
  if i =? -1 then None else Some i.

Definition as_region_start (as_ : addr_space) (type : Z) : Z :=
  let idx := as_region_index as_ type in
  if idx <? 0 then 0 else (region as_ idx).(va_start).

Definition as_region_size (as_ : addr_space) (type : Z) : Z :=
  let idx := as_region_index as_ type in
  if idx <? 0 then 0 else u32 ((region as_ idx).(va_end) - (region as_ idx).(va_start)).

Definition as_resize_region (as_ : addr_space) (type new_end : Z) : addr_space * Z :=
  if new_end >? TRAPFRAME then (as_, -1) else
  let idx := as_region_index as_ type in
  if idx <? 0 then (as_, -1) else
  let r := region as_ idx in
  if new_end <? r.(va_start) then (as_, -1) else
  if negb (first_index (Z.to_nat as_.(region_count)) 0 (fun i =>
             negb (i =? idx) && overlaps r.(va_start) new_end (region as_ i)) =? -1)
  then (as_, -1) else
  (put_region idx (mkRegion r.(va_start) new_end r.(rtype) r.(perm)) as_, 0).

Section addrspace.
Context `{L : Layout}.

(** ** Mapping and unmapping user memory *)

Definition unmap_page (pagetable a : Z) (do_free : bool) : K unit :=
  pte <- walk pagetable a false ;;
  if pte =? 0 then ret tt else
  v <- load_pte pte ;;
  if negb (has v PTE_V) then ret tt else
  (if do_free then kfree (PTE2PA v) else ret tt) ;;
  store_pte pte 0.
Fixpoint uvmunmap_loop (n : nat) (pagetable a : Z) (do_free : bool) : K unit :=
  match n with
  | O => ret tt
  | S n' =>
      unmap_page pagetable a do_free ;;
      uvmunmap_loop n' pagetable (u32 (a + PGSIZE)) do_free
  end.
Definition uvmunmap (as_ : addr_space) (va npages : Z) (do_free : bool) : K unit :=
  if as_.(pagetable) =? 0 then panic "uvmunmap: as" else
  if negb (va mod PGSIZE =? 0) then panic "uvmunmap: not aligned" else
  uvmunmap_loop (Z.to_nat npages) as_.(pagetable) va do_free.

Definition unmap_region (as_ : addr_space) (r : mem_region) : K unit :=
  if as_region_map_npages r >? 0 then
    uvmunmap as_ (as_region_map_start r) (as_region_map_npages r)
      (as_region_do_free r.(rtype))
  else ret tt.

Definition as_remove_region (as_ : addr_space) (type : Z) : K addr_space :=
  if as_.(pagetable) =? 0 then ret as_ else
  let idx := as_region_index as_ type in
  if idx <? 0 then ret as_ else
  unmap_region as_ (region as_ idx) ;;
  let as' := shift_down (Z.to_nat (as_.(region_count) - 1 - idx)) idx as_ in
  ret (set_region_count (as_.(region_count) - 1) as').

Definition uvmdealloc (as_ : addr_space) (oldsz newsz : Z) : K Z :=
  if newsz >=? oldsz then ret oldsz else
  (if PGROUNDUP newsz <? PGROUNDUP oldsz then
     let npages := (PGROUNDUP oldsz - PGROUNDUP newsz) / PGSIZE in
     uvmunmap as_ (PGROUNDUP newsz) npages true
   else ret tt) ;;
  ret newsz.

(** The loop of [uvmalloc]; it takes one step per page below [newsz]. *)
Fixpoint uvmalloc_loop (n : nat) (as_ : addr_space) (oldsz newsz a xperm : Z) : K Z :=
  match n with
  | O => nofuel
  | S n' =>
      if a <? newsz then
        mem <- kalloc ;;
        if mem =? 0 then uvmdealloc as_ a oldsz ;; ret 0 else
        zero_page mem ;;
        r <- mappages as_.(pagetable) a PGSIZE mem (Z.lor (Z.lor PTE_R PTE_U) xperm) ;;
        if negb (r =? 0) then kfree mem ;; uvmdealloc as_ a oldsz ;; ret 0 else
        uvmalloc_loop n' as_ oldsz newsz (u32 (a + PGSIZE)) xperm
      else ret newsz
  end.
Definition uvmalloc (as_ : addr_space) (oldsz newsz xperm : Z) : K Z :=
  if as_.(pagetable) =? 0 then ret 0 else
  if newsz <? oldsz then ret oldsz else
  let oldsz := PGROUNDUP oldsz in
  uvmalloc_loop (Z.to_nat (newsz / PGSIZE + 2)) as_ oldsz newsz oldsz xperm.

(** Recursion over the levels of a page table; [depth] bounds it. *)
Fixpoint freewalk (depth : nat) (pagetable : Z) : K unit :=
  match depth with
  | O => nofuel
  | S d =>
      for_ 1024 0 (fun i =>
        pte <- load_pte (pagetable + 4 * i) ;;
        if has pte PTE_V && negb (has pte (Z.lor (Z.lor PTE_R PTE_W) PTE_X)) then
          freewalk d (PTE2PA pte) ;;
          store_pte (pagetable + 4 * i) 0
        else if has pte PTE_V then panic "freewalk: leaf"
        else ret tt) ;;
      kfree pagetable
  end.

Fixpoint freewalkall (depth : nat) (pagetable : Z) : K unit :=
  match depth with
  | O => nofuel
  | S d =>
      for_ 1024 0 (fun i =>
        pte <- load_pte (pagetable + 4 * i) ;;
        if negb (has pte PTE_V) then ret tt else
        (if negb (has pte (Z.lor (Z.lor PTE_R PTE_W) PTE_X))
         then freewalkall d (PTE2PA pte)
         else kfree (PTE2PA pte)) ;;
        store_pte (pagetable + 4 * i) 0) ;;
      kfree pagetable
  end.

(** Sv32 has two levels; a third call would be on a data page. *)
Definition pt_depth : nat := 3.

(** Unmap every region of [as_]. *)
Definition unmap_regions (as_ : addr_space) : K unit :=
  for_ (Z.to_nat as_.(region_count)) 0 (fun i => unmap_region as_ (region as_ i)).

Definition uvmfree (as_ : addr_space) : K addr_space :=
  if as_.(pagetable) =? 0 then ret as_ else
  unmap_regions as_ ;;
  let as' := set_region_count 0 as_ in
  freewalkall pt_depth as'.(pagetable) ;;
  ret (set_pagetable 0 as').

Definition as_destroy (as_ : addr_space) : K addr_space :=
  if as_.(pagetable) =? 0 then ret (set_region_count 0 as_) else
  uvmunmap as_ (u32 TRAMPOLINE) 1 false ;;
  uvmunmap as_ (u32 TRAPFRAME) 1 false ;;
  uvmfree as_.

(** ** Copy-on-write copies *)

(** One page of a region: the body of the loop over its pages.  [false] is
    [goto err]. *)
Definition copy_page (dst_pt src_pt va : Z) : K bool :=
  pte <- walk src_pt va false ;;
  if pte =? 0 then ret true else
  v <- load_pte pte ;;
  if negb (has v PTE_V) then ret true else
  let pa := PTE2PA v in
  let flags0 := PTE_FLAGS v in
  let flags := if has flags0 PTE_W
               then Z.lor (Z.land flags0 (u32 (Z.lnot PTE_W))) PTE_COW
               else flags0 in
  (if has flags0 PTE_W then store_pte pte (Z.lor (PA2PTE pa) flags) else ret tt) ;;
  kaddref pa ;;
  r <- mappages dst_pt va PGSIZE pa flags ;;
  if negb (r =? 0) then kfree pa ;; ret false else ret true.

(** The pages of one region: [for(va = PGROUNDDOWN(r->va_start); va <
    PGROUNDUP(r->va_end); va += PGSIZE)]. *)
Fixpoint copy_pages (n : nat) (dst_pt src_pt va va_last : Z) : K bool :=
  match n with
  | O => nofuel
  | S n' =>
      if va <? va_last then
        ok <- copy_page dst_pt src_pt va ;;
        if ok : bool then copy_pages n' dst_pt src_pt (u32 (va + PGSIZE)) va_last
        else ret false
      else ret true
  end.

Definition region_copy (dst : addr_space) (src_pt : Z) (r : mem_region)
    : K (addr_space * bool) :=
  let (dst, e) := as_add_region dst r.(va_start) r.(va_end) r.(rtype) r.(perm) in
  if e <? 0 then ret (dst, false) else
  let lo := PGROUNDDOWN r.(va_start) in
  let hi := PGROUNDUP r.(va_end) in
  ok <- copy_pages (S (Z.to_nat ((hi - lo) / PGSIZE))) dst.(pagetable) src_pt lo hi ;;
  ret (dst, ok).

Fixpoint regions_copy (n : nat) (i : Z) (dst src : addr_space)
    : K (addr_space * bool) :=
  match n with
  | O => ret (dst, true)
  | S n' =>
      r <- region_copy dst src.(pagetable) (region src i) ;;
      if r.2 : bool then regions_copy n' (i + 1) r.1 src else ret r
  end.

Definition as_copy (dst src : addr_space) : K (addr_space * Z) :=
  if (dst.(pagetable) =? 0) || (src.(pagetable) =? 0) then ret (dst, -1) else
  unmap_regions dst ;;
  let dst := set_region_count 0 dst in
  r <- regions_copy (Z.to_nat src.(region_count)) 0 dst src ;;
  if r.2 : bool then ret (r.1, 0) else
  unmap_regions r.1 ;;
  ret (set_region_count 0 r.1, -1).

Definition uvmcopy : addr_space -> addr_space -> K (addr_space * Z) := as_copy.

Definition proc_addrspace_create (trapframe : Z) : K addr_space :=
  as_ <- as_create ;;
  if as_.(pagetable) =? 0 then ret as_ else
  r <- mappages as_.(pagetable) (u32 TRAMPOLINE) PGSIZE trampoline (Z.lor PTE_R PTE_X) ;;
  if r <? 0 then as_destroy as_ else
  r <- mappages as_.(pagetable) (u32 TRAPFRAME) PGSIZE trapframe (Z.lor PTE_R PTE_W) ;;
  if r <? 0 then as_destroy as_ else
  ret as_.

Definition proc_addrspace_free (p : Z) : K unit :=
  pr <- get_proc p ;;
  as' <- as_destroy pr.(p_as) ;;
  upd_proc p (set_p_as as').

Definition uvmclear (pagetable va : Z) : K unit :=
  pte <- walk pagetable va false ;;
  if pte =? 0 then panic "uvmclear" else
  v <- load_pte pte ;;
  store_pte pte (Z.land v (u32 (Z.lnot PTE_U))).

(** ** Page faults *)

Definition ismapped (pagetable va : Z) : K bool :=
  pte <- walk pagetable va false ;;
  if pte =? 0 then ret false else
  v <- load_pte pte ;;
  ret (has v PTE_V).

(** The branch of [vmfault] for a present copy-on-write page. *)
Definition cow_break (pte v : Z) : K Z :=
  let pa := PTE2PA v in
  let flags := PTE_FLAGS v in
  mem <- kalloc ;;
  if mem =? 0 then ret 0 else
  upd_mem (fun m => memmove m mem pa PGSIZE) ;;
  store_pte pte (Z.lor (PA2PTE mem)
                   (Z.land (Z.lor flags PTE_W) (u32 (Z.lnot PTE_COW)))) ;;
  kfree pa ;;
  ret mem.

(** The branch of [vmfault] for a page not mapped yet. *)
Definition lazy_alloc (as_ : addr_space) (pagetable va : Z) : K Z :=
  match as_find_region as_ va with
  | None => ret 0
  | Some i =>
      let r := region as_ i in
      if negb (r.(rtype) =? MR_HEAP) then ret 0 else
      mem <- kalloc ;;
      if mem =? 0 then ret 0 else
      zero_page mem ;;
      e <- mappages pagetable va PGSIZE mem (Z.lor PTE_U r.(perm)) ;;
      if negb (e =? 0) then kfree mem ;; ret 0 else
      ret mem
  end.

Definition heap_end (as_ : addr_space) : Z :=
  u32 (as_region_start as_ MR_HEAP + as_region_size as_ MR_HEAP).

Definition vmfault (pagetable va : Z) (read : bool) : K Z :=
  p <- curproc ;;
  pr <- get_proc p ;;
  if va >=? heap_end pr.(p_as) then ret 0 else
  let va := PGROUNDDOWN va in
  pte <- walk pagetable va false ;;
  v <- (if pte =? 0 then ret 0 else load_pte pte) ;;
  if negb (pte =? 0) && has v PTE_V then
    if negb (has v PTE_COW) || read then ret 0 else cow_break pte v
  else
    im <- ismapped pagetable va ;;
    if (im : bool) then ret 0 else
    lazy_alloc pr.(p_as) pagetable va.

(** ** Copies between kernel and user memory *)

(** One page of [copyout]: the physical address to write to, 0 on failure. *)
Definition copyout_page (pagetable va0 : Z) : K Z :=
  pte <- walk pagetable va0 false ;;
  v <- (if pte =? 0 then ret 0 else load_pte pte) ;;
  pa0 <- (if (pte =? 0) || negb (has v PTE_V) || negb (has v PTE_U)
          then vmfault pagetable va0 false
          else if has v PTE_COW then vmfault pagetable va0 false
          else ret (PTE2PA v)) ;;
  if pa0 =? 0 then ret 0 else
  pte <- walk pagetable va0 false ;;
  if pte =? 0 then undefined "copyout: null pte" else
  v <- load_pte pte ;;
  if negb (has v PTE_W) then ret 0 else ret pa0.

(** [while(len > 0)]: every round copies at least one byte of [src]. *)
Fixpoint copyout_loop (fuel : nat) (pagetable dstva : Z) (src : list Z) : K Z :=
  match fuel with
  | O => nofuel
  | S f =>
      match src with
      | [] => ret 0
      | _ =>
          let va0 := PGROUNDDOWN dstva in
          if va0 >=? MAXVA then ret (-1) else
          pa0 <- copyout_page pagetable va0 ;;
          if pa0 =? 0 then ret (-1) else
          let n := Z.min (PGSIZE - (dstva - va0)) (Z.of_nat (length src)) in
          upd_mem (fun m =>
            write_bytes m (pa0 + (dstva - va0)) (take (Z.to_nat n) src)) ;;
          copyout_loop f pagetable (u32 (va0 + PGSIZE)) (drop (Z.to_nat n) src)
      end
  end.
Definition copyout (pagetable dstva : Z) (src : list Z) : K Z :=
  copyout_loop (S (length src)) pagetable dstva src.

(** Returns the status and the bytes stored in [dst] so far. *)
Fixpoint copyin_loop (fuel : nat) (pagetable srcva len : Z) (dst : list Z)
    : K (Z * list Z) :=
  match fuel with
  | O => nofuel
  | S f =>
      if len >? 0 then
        let va0 := PGROUNDDOWN srcva in
        pa0 <- walkaddr pagetable va0 ;;
        pa0 <- (if pa0 =? 0 then vmfault pagetable va0 false else ret pa0) ;;
        if pa0 =? 0 then ret (-1, dst) else
        let n := Z.min (PGSIZE - (srcva - va0)) len in
        bs <- gets (fun s => read_bytes (Z.to_nat n) (k_mem s) (pa0 + (srcva - va0))) ;;
        copyin_loop f pagetable (u32 (va0 + PGSIZE)) (len - n) (dst ++ bs)
      else ret (0, dst)
  end.
Definition copyin (pagetable srcva len : Z) : K (Z * list Z) :=
  copyin_loop (S (Z.to_nat len)) pagetable srcva len [].

(** The bytes of a page up to and including the first nul, at most [n]. *)
Fixpoint copy_until_nul (n : nat) (m : mem) (p : Z) : list Z * bool :=
  match n with
  | O => ([], false)
  | S n' =>
      if load8 m p =? 0 then ([0], true)
      else let (bs, g) := copy_until_nul n' m (p + 1) in (load8 m p :: bs, g)
  end.
Fixpoint copyinstr_loop (fuel : nat) (pagetable srcva max : Z) (dst : list Z)
    : K (Z * list Z) :=
  match fuel with
  | O => nofuel
  | S f =>
      if max >? 0 then
        let va0 := PGROUNDDOWN srcva in
        pa0 <- walkaddr pagetable va0 ;;
        if pa0 =? 0 then ret (-1, dst) else
        let n := Z.min (PGSIZE - (srcva - va0)) max in
        r <- gets (fun s => copy_until_nul (Z.to_nat n) (k_mem s) (pa0 + (srcva - va0))) ;;
        if r.2 : bool then ret (0, dst ++ r.1) else
        copyinstr_loop f pagetable (u32 (va0 + PGSIZE)) (max - n) (dst ++ r.1)
      else ret (-1, dst)
  end.
Definition copyinstr (pagetable srcva max : Z) : K (Z * list Z) :=
  copyinstr_loop (S (Z.to_nat max)) pagetable srcva max [].

Definition either_copyout (user_dst : bool) (dst : Z) (src : list Z) : K Z :=
  p <- curproc ;;
  if user_dst then
    pr <- get_proc p ;; copyout pr.(p_as).(pagetable) dst src
  else upd_mem (fun m => write_bytes m dst src) ;; ret 0.

Definition either_copyin (user_src : bool) (src len : Z) : K (Z * list Z) :=
  p <- curproc ;;
  if user_src then
    pr <- get_proc p ;; copyin pr.(p_as).(pagetable) src len
  else bs <- gets (fun s => read_bytes (Z.to_nat len) (k_mem s) src) ;; ret (0, bs).

(** ** The kernel's own address space *)

Definition proc_mapstacks (kpgtbl : Z) : K unit :=
  for_ (Z.to_nat NPROC) 0 (fun i =>
    pa <- kalloc ;;
    if pa =? 0 then panic "kalloc" else
    kvmmap kpgtbl (u32 (KSTACK i)) pa PGSIZE (Z.lor PTE_R PTE_W)).

Definition kvmmake : K Z :=
  kpgtbl <- kalloc ;;
  zero_page kpgtbl ;;
  kvmmap kpgtbl UART0 UART0 PGSIZE (Z.lor PTE_R PTE_W) ;;
  kvmmap kpgtbl VIRTIO0 VIRTIO0 PGSIZE (Z.lor PTE_R PTE_W) ;;
  kvmmap kpgtbl PLIC PLIC 0x4000000 (Z.lor PTE_R PTE_W) ;;
  kvmmap kpgtbl KERNBASE KERNBASE (etext - KERNBASE) (Z.lor PTE_R PTE_X) ;;
  kvmmap kpgtbl etext etext (PHYSTOP - etext) (Z.lor PTE_R PTE_W) ;;
  kvmmap kpgtbl (u32 TRAMPOLINE) trampoline PGSIZE (Z.lor PTE_R PTE_X) ;;
  proc_mapstacks kpgtbl ;;
  ret kpgtbl.

Definition kvminit : K unit :=
  pt <- kvmmake ;; modify (set_kpt pt).

Definition kvminithart : K unit :=
  pt <- gets k_kpt ;;
  upd_csr (fun c => mkCsrs c.(r_sstatus) c.(r_sepc) c.(r_scause) c.(r_stval)
                      c.(r_stvec) (MAKE_SATP pt) c.(r_time) c.(r_stimecmp)).

End addrspace.
