(* ===== verification/Regions.v ===== *)
(** * Memory regions of an address space

    Properties of the region list kept by [addrspace.c]: the regions in use
    stay sorted, page-aligned, pairwise disjoint and of distinct types. *)

From S2P Require Import Prelude CMem Machine Sv32 Spinlock Kalloc Sched AddrSpace.

(** The regions in use. *)
Definition live (a : addr_space) : list mem_region :=
  take (Z.to_nat a.(region_count)) a.(regions).

Definition region_ok (r : mem_region) : Prop :=
  0 <= r.(va_start) <= r.(va_end) /\ r.(va_end) <= TRAPFRAME /\
  r.(va_start) mod PGSIZE = 0 /\ (r.(rtype) <> MR_HEAP -> r.(va_end) mod PGSIZE = 0).

Definition apart (r1 r2 : mem_region) : Prop :=
  r1.(va_end) <= r2.(va_start) \/ r2.(va_end) <= r1.(va_start).

Record as_wf (a : addr_space) : Prop := {
  wf_len : length a.(regions) = Z.to_nat MAX_MREGIONS;
  wf_count : 0 <= a.(region_count) <= MAX_MREGIONS;
  wf_each : forall i, 0 <= i < a.(region_count) -> region_ok (region a i);
  wf_sorted : forall i j, 0 <= i < j -> j < a.(region_count) ->
    (region a i).(va_start) <= (region a j).(va_start);
  wf_apart : forall i j, 0 <= i < j -> j < a.(region_count) ->
    apart (region a i) (region a j);
  wf_types : forall i j, 0 <= i < j -> j < a.(region_count) ->
    (region a i).(rtype) <> (region a j).(rtype);
}.

(** ** Searching and shifting *)

Lemma first_index_spec n lo f :
  0 <= lo ->
  (first_index n lo f = -1 /\ forall i, lo <= i < lo + Z.of_nat n -> f i = false) \/
  (exists k, first_index n lo f = k /\ lo <= k < lo + Z.of_nat n /\ f k = true /\
     forall i, lo <= i < k -> f i = false).
Proof.
  revert lo. induction n as [|n IH]; intros lo Hlo; simpl; [left; split; [done|lia]|].
  destruct (f lo) eqn:Hf.
  - right. exists lo. split; [done|]. split; [lia|]. split; [done|lia].
  - destruct (IH (lo + 1)) as [[-> H]|(k & -> & Hk & Hfk & H)]; [lia| |].
    + left. split; [done|]. intros i Hi. destruct (decide (i = lo)) as [->|]; [done|].
      apply H. lia.
    + right. exists k. split; [done|]. split; [lia|]. split; [done|].
      intros i Hi. destruct (decide (i = lo)) as [->|]; [done|]. apply H. lia.
Qed.

Lemma region_put a i j r :
  0 <= i < MAX_MREGIONS -> 0 <= j -> length a.(regions) = Z.to_nat MAX_MREGIONS ->
  region (put_region i r a) j = if decide (j = i) then r else region a j.
Proof.
  intros Hi Hj Hl. unfold region, put_region. simpl. case_decide as He.
  - subst. rewrite list_lookup_insert_eq; [done|]. rewrite Hl. unfold MAX_MREGIONS in *. lia.
  - rewrite list_lookup_insert_ne by lia. done.
Qed.

Lemma put_region_len i r a : length (put_region i r a).(regions) = length a.(regions).
Proof. apply length_insert. Qed.

Lemma shift_up_spec n : forall i a,
  length a.(regions) = Z.to_nat MAX_MREGIONS -> Z.of_nat n <= i -> i < MAX_MREGIONS ->
  let a' := shift_up n i a in
  length a'.(regions) = Z.to_nat MAX_MREGIONS /\
  a'.(region_count) = a.(region_count) /\ a'.(pagetable) = a.(pagetable) /\
  forall j, 0 <= j -> region a' j =
    if decide (i - Z.of_nat n < j <= i) then region a (j - 1) else region a j.
Proof.
  induction n as [|n IH]; intros i a Hl Hn Hi; cbv zeta; simpl.
  - do 3 (split; [done|]). intros j Hj. case_decide; [lia|done].
  - destruct (IH (i - 1) (put_region i (region a (i - 1)) a)) as (H1 & H2 & H3 & H4);
      [by rewrite put_region_len|lia|lia|].
    split; [done|]. split; [done|]. split; [done|]. intros j Hj. rewrite H4 by done.
    case_decide; (rewrite region_put by (done || lia)); repeat case_decide; subst;
      try lia; done.
Qed.

Lemma shift_down_spec n : forall i a,
  length a.(regions) = Z.to_nat MAX_MREGIONS -> 0 <= i -> i + Z.of_nat n < MAX_MREGIONS ->
  let a' := shift_down n i a in
  length a'.(regions) = Z.to_nat MAX_MREGIONS /\
  a'.(region_count) = a.(region_count) /\ a'.(pagetable) = a.(pagetable) /\
  forall j, 0 <= j -> region a' j =
    if decide (i <= j < i + Z.of_nat n) then region a (j + 1) else region a j.
Proof.
  induction n as [|n IH]; intros i a Hl Hi Hn; cbv zeta; simpl.
  - do 3 (split; [done|]). intros j Hj. case_decide; [lia|done].
  - destruct (IH (i + 1) (put_region i (region a (i + 1)) a)) as (H1 & H2 & H3 & H4);
      [by rewrite put_region_len|lia|lia|].
    split; [done|]. split; [done|]. split; [done|]. intros j Hj. rewrite H4 by done.
    case_decide; (rewrite region_put by (done || lia)); repeat case_decide; subst;
      try lia; done.
Qed.

Lemma overlaps_false s e r :
  overlaps s e r = false -> e <= r.(va_start) \/ r.(va_end) <= s.
Proof.
  unfold overlaps. rewrite negb_false_iff, orb_true_iff, Z.leb_le, Z.geb_le. tauto.
Qed.

Lemma as_region_index_spec a t :
  0 <= a.(region_count) ->
  (as_region_index a t = -1 /\
   forall i, 0 <= i < a.(region_count) -> (region a i).(rtype) <> t) \/
  (exists k, as_region_index a t = k /\ 0 <= k < a.(region_count) /\
     (region a k).(rtype) = t).
Proof.
  intros Hc. unfold as_region_index.
  destruct (first_index_spec (Z.to_nat (region_count a)) 0
    (fun i => (region a i).(rtype) =? t)) as [[-> H]|(k & -> & Hk & Hf & _)]; [lia| |].
  - left. split; [done|]. intros i Hi. apply Z.eqb_neq, H. lia.
  - right. exists k. split; [done|]. split; [lia|]. by apply Z.eqb_eq.
Qed.

(** ** Adding a region *)

(** [a'] is [a] with [r] put at position [ins]. *)
Definition inserted (a : addr_space) (ins : Z) (r : mem_region) (a' : addr_space) : Prop :=
  0 <= ins <= a.(region_count) /\
  length a'.(regions) = Z.to_nat MAX_MREGIONS /\
  a'.(region_count) = a.(region_count) + 1 /\ a'.(pagetable) = a.(pagetable) /\
  forall j, 0 <= j <= a.(region_count) -> region a' j =
    if decide (j < ins) then region a j
    else if decide (j = ins) then r else region a (j - 1).

Lemma inserted_wf a ins r a' :
  as_wf a -> inserted a ins r a' -> a.(region_count) < MAX_MREGIONS -> region_ok r ->
  (forall i, 0 <= i < a.(region_count) -> apart r (region a i)) ->
  (forall i, 0 <= i < a.(region_count) -> (region a i).(rtype) <> r.(rtype)) ->
  (forall i, 0 <= i < ins -> (region a i).(va_start) <= r.(va_start)) ->
  (forall i, ins <= i < a.(region_count) -> r.(va_start) <= (region a i).(va_start)) ->
  as_wf a'.
Proof.
  intros [Hl Hc He Hs Ha Ht] (Hins & Hl' & Hc' & _ & Hr) Hmax Hok Hap Hty Hlo Hhi.
  split.
  - done.
  - lia.
  - intros i Hi. rewrite Hr by lia. repeat case_decide; [apply He; lia|done|apply He; lia].
  - intros i j Hij Hj. rewrite !Hr by lia. repeat case_decide; subst;
      first [lia|apply Hs; lia|apply Hlo; lia|apply Hhi; lia].
  - intros i j Hij Hj. rewrite !Hr by lia.
    repeat case_decide; subst; try lia; try (apply Ha; lia).
    + destruct (Hap i) as [?|?]; [lia|by right|by left].
    + apply Hap. lia.
  - intros i j Hij Hj. rewrite !Hr by lia.
    repeat case_decide; subst; try lia; try (apply Ht; lia); [apply Hty; lia|].
    intros Heq. symmetry in Heq. revert Heq. apply Hty. lia.
Qed.

(** What [as_add_region] does when it succeeds, and that it changes nothing
    when it fails. *)
Lemma as_add_region_spec a s e t p a' v :
  as_wf a -> 0 <= s -> as_add_region a s e t p = (a', v) ->
  (v = -1 /\ a' = a) \/
  (v = 0 /\ as_wf a' /\ exists ins, inserted a ins (mkRegion s e t p) a').
Proof.
  intros Hwf Hs0 H. pose proof Hwf as [Hl Hc He Hs Ha Ht]. unfold as_add_region in H.
  repeat (destruct (_ : bool) eqn:? in H; [by left; simplify_eq|]).
  right.
  match goal with Hx : negb (first_index _ _ _ =? -1) = false |- _ => rename Hx into Hov end.
  match goal with Hx : (as_region_index a t >=? 0) = false |- _ => rename Hx into Hidx end.
  destruct (as_region_index_spec a t) as [[_ Hty]|(k & Hk & Hk' & _)]; [lia| |lia].
  destruct (first_index_spec (Z.to_nat (region_count a)) 0
    (fun i => overlaps s e (region a i))) as [[Hx Hno]|(k & Hx & Hk & _)]; [lia| |lia].
  clear Hov Hidx Hx.
  set (f := fun i => s <? (region a i).(va_start)) in H.
  set (j := first_index (Z.to_nat (region_count a)) 0 f) in *.
  set (ins := if j =? -1 then region_count a else j) in *.
  assert (Hins : 0 <= ins <= region_count a /\
    (forall i, 0 <= i < ins -> (region a i).(va_start) <= s) /\
    (forall i, ins <= i < region_count a -> s <= (region a i).(va_start))).
  { subst ins j. destruct (first_index_spec (Z.to_nat (region_count a)) 0 f)
      as [[-> Hn]|(k & -> & Hk & Hfk & Hn)]; [lia| |].
    - simpl. split; [lia|]. split; [|lia]. intros i Hi.
      apply Z.ltb_ge. apply (Hn i). lia.
    - replace (k =? -1) with false by lia. split; [lia|]. split.
      + intros i Hi. apply Z.ltb_ge, (Hn i). lia.
      + intros i Hi. unfold f in Hfk. apply Z.ltb_lt in Hfk.
        destruct (decide (i = k)) as [->|]; [lia|].
        specialize (Hs k i ltac:(lia) ltac:(lia)). lia. }
  destruct Hins as (Hir & Hlo & Hhi). clearbody ins. clear j f.
  destruct (shift_up_spec (Z.to_nat (region_count a - ins)) (region_count a) a)
    as (S1 & S2 & S3 & S4); [done|lia|lia|].
  assert (Hin : inserted a ins (mkRegion s e t p) a').
  { simplify_eq. split; [done|]. simpl.
    split; [by rewrite length_insert|]. split; [by rewrite S2|]. split; [done|].
    intros i Hi. change (region (set_region_count ?c ?x) i) with (region x i).
    rewrite region_put by (done || lia). rewrite S4 by lia.
    repeat case_decide; first [lia|done]. }
  split; [by simplify_eq|]. split; [|by exists ins].
  eapply inserted_wf; [done|exact Hin|lia| | | |done|done].
  - repeat match goal with
      | Hx : _ || _ = false |- _ => apply orb_false_iff in Hx; destruct Hx
      | Hx : _ && _ = false |- _ => apply andb_false_iff in Hx
      end.
    split; simpl; [lia|]. split; [lia|]. split; [lia|]. intros Hheap.
    match goal with Hx : _ = false \/ _ = false |- _ => destruct Hx; lia end.
  - intros i Hi. specialize (Hno i ltac:(lia)). apply overlaps_false in Hno.
    unfold apart. simpl. lia.
  - intros i Hi. simpl. by apply Hty.
Qed.

Lemma live_lookup a i :
  as_wf a -> 0 <= i < a.(region_count) -> live a !! Z.to_nat i = Some (region a i).
Proof.
  intros [Hl Hc _ _ _ _] Hi. unfold live, region.
  rewrite lookup_take_lt by lia.
  destruct (regions a !! Z.to_nat i) eqn:E; [done|].
  apply lookup_ge_None in E. unfold MAX_MREGIONS in *. lia.
Qed.
Lemma live_length a : as_wf a -> length (live a) = Z.to_nat a.(region_count).
Proof.
  intros [Hl Hc _ _ _ _]. unfold live. rewrite length_take, Hl.
  unfold MAX_MREGIONS in *. lia.
Qed.

(** Two well-formed spaces whose live regions agree pointwise. *)
Lemma live_ext a (l : list mem_region) :
  as_wf a -> length l = Z.to_nat a.(region_count) ->
  (forall i, 0 <= i < a.(region_count) -> l !! Z.to_nat i = Some (region a i)) ->
  live a = l.
Proof.
  intros Hwf Hl H. apply list_eq_same_length with (length l); [done|by rewrite live_length|].
  intros i x y Hi Hx Hy. specialize (H (Z.of_nat i) ltac:(lia)).
  rewrite Nat2Z.id in H. pose proof (live_lookup a (Z.of_nat i) Hwf ltac:(lia)) as H2.
  rewrite Nat2Z.id in H2. congruence.
Qed.

Lemma inserted_live a ins r a' :
  as_wf a -> as_wf a' -> inserted a ins r a' ->
  exists l1 l2, live a = l1 ++ l2 /\ live a' = l1 ++ r :: l2.
Proof.
  intros Hwf Hwf' (Hins & _ & Hc' & _ & Hr).
  exists (take (Z.to_nat ins) (live a)), (drop (Z.to_nat ins) (live a)).
  split; [by rewrite take_drop|].
  pose proof (live_length a Hwf) as Hlen. pose proof (wf_count a Hwf).
  apply live_ext; [done| |].
  { rewrite length_app, length_take. simpl. rewrite length_drop. lia. }
  intros i Hi. rewrite Hr by lia.
  assert (Htl : length (take (Z.to_nat ins) (live a)) = Z.to_nat ins)
    by (rewrite length_take; lia).
  case_decide as H1.
  - rewrite lookup_app_l by (rewrite Htl; lia). rewrite lookup_take_lt by lia.
    apply live_lookup; [done|lia].
  - rewrite lookup_app_r by (rewrite Htl; lia). rewrite Htl. case_decide as H2.
    + subst. by rewrite Nat.sub_diag.
    + replace (Z.to_nat i - Z.to_nat ins)%nat with (S (Z.to_nat (i - 1 - ins))) by lia.
      simpl. rewrite lookup_drop.
      replace (Z.to_nat ins + Z.to_nat (i - 1 - ins))%nat with (Z.to_nat (i - 1)) by lia.
      apply live_lookup; [done|lia].
Qed.

(** ** Looking up, resizing and removing *)

Lemma as_find_region_spec a va :
  as_wf a ->
  match as_find_region a va with
  | Some i => 0 <= i < a.(region_count) /\
      (region a i).(va_start) <= va < (region a i).(va_end) /\
      forall j, 0 <= j < a.(region_count) ->
        (region a j).(va_start) <= va < (region a j).(va_end) -> j = i
  | None => forall j, 0 <= j < a.(region_count) ->
      ~ ((region a j).(va_start) <= va < (region a j).(va_end))
  end.
Proof.
  intros Hwf. pose proof (wf_count a Hwf) as Hc. unfold as_find_region.
  set (f := fun i => _).
  destruct (first_index_spec (Z.to_nat (region_count a)) 0 f)
    as [[-> Hn]|(k & -> & Hk & Hf & _)]; [lia| |].
  - simpl. intros j Hj Hin. specialize (Hn j ltac:(lia)). unfold f in Hn. lia.
  - replace (k =? -1) with false by lia. unfold f in Hf.
    split; [lia|]. split; [lia|]. intros j Hj Hin.
    destruct (decide (j < k)); [destruct (wf_apart a Hwf j k); lia|].
    destruct (decide (k < j)); [destruct (wf_apart a Hwf k j); lia|]. lia.
Qed.

Lemma region_index_eq a t i :
  as_wf a -> 0 <= i < a.(region_count) -> (region a i).(rtype) = t ->
  as_region_index a t = i.
Proof.
  intros Hwf Hi Ht. destruct (as_region_index_spec a t) as [[_ H]|(k & -> & Hk & Hkt)].
  - pose proof (wf_count a Hwf). lia.
  - by destruct (H i Hi).
  - destruct (decide (k < i)); [destruct (wf_types a Hwf k i); [lia|lia|congruence]|].
    destruct (decide (i < k)); [destruct (wf_types a Hwf i k); [lia|lia|congruence]|]. lia.
Qed.

(** [as_resize_region] moves the end of one region, keeping the invariant. *)
Lemma as_resize_region_spec a t e a' v :
  as_wf a -> (t <> MR_HEAP -> e mod PGSIZE = 0) ->
  as_resize_region a t e = (a', v) ->
  (v = -1 /\ a' = a) \/
  (v = 0 /\ as_wf a' /\ a'.(region_count) = a.(region_count) /\
   a'.(pagetable) = a.(pagetable) /\
   exists i, 0 <= i < a.(region_count) /\ (region a i).(rtype) = t /\
     forall j, 0 <= j < a.(region_count) -> region a' j =
       if decide (j = i)
       then mkRegion (region a i).(va_start) e t (region a i).(perm) else region a j).
Proof.
  intros Hwf Hal H. pose proof Hwf as [Hl Hc He Hs Ha Ht]. unfold as_resize_region in H.
  destruct (e >? TRAPFRAME) eqn:Htf; [by left; simplify_eq|].
  destruct (as_region_index_spec a t) as [[Hi _]|(i & Hi & Hir & Hit)]; [lia| |];
    rewrite Hi in H; cbv zeta in H; [left; simpl in H; by simplify_eq|].
  replace (i <? 0) with false in H by lia.
  destruct (e <? _) eqn:Hes; [by left; simplify_eq|].
  destruct (negb _) eqn:Hov; [by left; simplify_eq|]. right. injection H as <- <-.
  destruct (first_index_spec (Z.to_nat (region_count a)) 0 (fun j =>
    negb (j =? i) && overlaps (region a i).(va_start) e (region a j)))
    as [[Hx Hno]|(k & Hx & Hk & _)]; [lia| |lia].
  clear Hov Hx.
  assert (Hno' : forall j, 0 <= j < region_count a -> j <> i ->
    e <= (region a j).(va_start) \/ (region a j).(va_end) <= (region a i).(va_start)).
  { intros j Hj Hne. specialize (Hno j ltac:(lia)).
    apply andb_false_iff in Hno as [Hno|Hno]; [lia|]. by apply overlaps_false in Hno. }
  assert (Hreg : forall j, 0 <= j < region_count a ->
    region (put_region i (mkRegion (region a i).(va_start) e (region a i).(rtype)
      (region a i).(perm)) a) j =
    if decide (j = i) then mkRegion (region a i).(va_start) e (region a i).(rtype)
      (region a i).(perm) else region a j)
    by (intros j Hj; apply region_put; [lia|lia|done]).
  split; [done|]. split; [|split; [done|split; [done|exists i; split; [done|split; [done|]]]]].
  2: { intros j Hj. by rewrite Hreg, Hit by done. }
  split; simpl.
  - by rewrite length_insert.
  - done.
  - intros j Hj. rewrite Hreg by done. case_decide as Hji; [|by apply He].
    destruct (He i Hir) as (?&?&?&?). split; simpl; [lia|]. split; [lia|].
    split; [done|]. rewrite Hit. apply Hal.
  - intros j k Hjk Hk. rewrite !Hreg by lia. pose proof (Hs j k Hjk Hk).
    repeat case_decide; subst; simpl; try done; lia.
  - intros j k Hjk Hk. rewrite !Hreg by lia. unfold apart.
    repeat case_decide; subst; simpl; try lia.
    + destruct (Hno' k); lia.
    + destruct (Hno' j); lia.
    + by apply Ha.
  - intros j k Hjk Hk. rewrite !Hreg by lia. pose proof (Ht j k Hjk Hk).
    repeat case_decide; subst; simpl; done.
Qed.

(** ** Results *)

(** When a region may be added. *)
Definition addable (a : addr_space) (s e t : Z) : Prop :=
  a.(pagetable) <> 0 /\ s mod PGSIZE = 0 /\ (t <> MR_HEAP -> e mod PGSIZE = 0) /\
  s <= e <= TRAPFRAME /\ a.(region_count) < MAX_MREGIONS /\
  forall i, 0 <= i < a.(region_count) ->
    (region a i).(rtype) <> t /\ (e <= (region a i).(va_start) \/ (region a i).(va_end) <= s).

Lemma as_add_region_iff a s e t p :
  0 <= a.(region_count) -> (as_add_region a s e t p).2 = 0 <-> addable a s e t.
Proof.
  intros Hc. unfold as_add_region, addable.
  destruct (Z.eqb_spec (pagetable a) 0); [simpl; intuition lia|].
  destruct (Z.eqb_spec (s mod PGSIZE) 0); [|simpl; intuition lia]. cbn [negb].
  destruct (Z.eqb_spec t MR_HEAP), (Z.eqb_spec (e mod PGSIZE) 0); cbn [negb andb];
    try (simpl; intuition lia).
  all: destruct ((e <? s) || (e >? TRAPFRAME)) eqn:E1; [simpl; intuition lia|].
  all: destruct (region_count a >=? MAX_MREGIONS) eqn:E2; [simpl; intuition lia|].
  all: destruct (as_region_index_spec a t Hc) as [[-> Hty]|(k & -> & Hk & Hkt)];
    [|replace (k >=? 0) with true by lia; simpl; split; [lia|];
      intros (_ & _ & _ & _ & _ & H); by destruct (H k Hk)].
  all: cbn [Z.geb Z.compare]; cbv zeta;
    destruct (first_index_spec (Z.to_nat (region_count a)) 0
      (fun i => overlaps s e (region a i))) as [[-> Hno]|(k & -> & Hk & Hov & _)]; [lia| |].
  all: try (replace (k =? -1) with false by lia; simpl; split; [lia|];
    intros (_ & _ & _ & _ & _ & H); destruct (H k) as [_ Hap]; [lia|];
    unfold overlaps in Hov; lia).
  all: cbn [Z.eqb negb snd]; (split; [intros _|done]); do 3 (split; [done|]);
    (split; [lia|]); (split; [lia|]); intros i Hi; (split; [by apply Hty|]);
    apply overlaps_false, Hno; lia.
Qed.

(** C27: [as_add_region] succeeds exactly when the region is aligned, lies below
    the trapframe page, fits the table, and neither overlaps a region nor
    repeats its type; then it is inserted in address order and the table stays
    sorted and disjoint.  Otherwise the table is returned unchanged. *)
Theorem as_add_region_correct (a : addr_space) (s e t p : Z) :
  as_wf a -> 0 <= s ->
  let '(a', v) := as_add_region a s e t p in
  (v = -1 /\ a' = a /\ ~ addable a s e t) \/
  (v = 0 /\ addable a s e t /\ as_wf a' /\ a'.(pagetable) = a.(pagetable) /\
   exists l1 l2, live a = l1 ++ l2 /\ live a' = l1 ++ mkRegion s e t p :: l2).
Proof.
  intros Hwf Hs. destruct (as_add_region a s e t p) as [a' v] eqn:E.
  pose proof (as_add_region_iff a s e t p (proj1 (wf_count a Hwf))) as Hiff.
  rewrite E in Hiff. simpl in Hiff.
  destruct (as_add_region_spec a s e t p a' v Hwf Hs E) as [[-> ->]|(-> & Hwf' & ins & Hins)].
  - left. do 2 (split; [done|]). rewrite <- Hiff. lia.
  - right. split; [done|]. split; [by apply Hiff|]. split; [done|].
    split; [apply Hins|]. by eapply inserted_live.
Qed.

(** [as_find_region] returns the one region that holds the address, and
    nothing exactly when no region does. *)
Lemma as_find_region_correct (a : addr_space) (va : Z) :
  as_wf a ->
  match as_find_region a va with
  | Some i => 0 <= i < a.(region_count) /\
      forall j, 0 <= j < a.(region_count) ->
        ((region a j).(va_start) <= va < (region a j).(va_end) <-> j = i)
  | None => forall r, r ∈ live a -> ~ (r.(va_start) <= va < r.(va_end))
  end.
Proof.
  intros Hwf. pose proof (as_find_region_spec a va Hwf) as H.
  destruct (as_find_region a va) as [i|].
  - destruct H as (Hi & Hin & Hun). split; [done|]. intros j Hj. split; [by apply Hun|].
    by intros ->.
  - intros r Hr. apply list_elem_of_lookup in Hr as [n Hn].
    pose proof (lookup_lt_Some _ _ _ Hn) as Hl. rewrite live_length in Hl by done.
    pose proof (live_lookup a (Z.of_nat n) Hwf) as Hl2. rewrite Nat2Z.id in Hl2.
    rewrite Hl2 in Hn by lia. injection Hn as <-. apply H. lia.
Qed.

(** [as_resize_region] either fails without a change, or moves the end of
    the region of the given type and of no other; the table stays sorted,
    disjoint and within the user address range. *)
Lemma as_resize_region_correct (a : addr_space) (t e : Z) :
  as_wf a -> (t <> MR_HEAP -> e mod PGSIZE = 0) ->
  let '(a', v) := as_resize_region a t e in
  (v = -1 /\ a' = a /\
   ~ (exists i, 0 <= i < a.(region_count) /\ (region a i).(rtype) = t /\
        (region a i).(va_start) <= e <= TRAPFRAME /\
        forall j, 0 <= j < a.(region_count) -> j <> i ->
          e <= (region a j).(va_start) \/ (region a j).(va_end) <= (region a i).(va_start))) \/
  (v = 0 /\ as_wf a' /\ a'.(region_count) = a.(region_count) /\
   exists i, 0 <= i < a.(region_count) /\ (region a i).(rtype) = t /\
     forall j, 0 <= j < a.(region_count) -> region a' j =
       if decide (j = i)
       then mkRegion (region a i).(va_start) e t (region a i).(perm) else region a j).
Proof.
  intros Hwf Hal. destruct (as_resize_region a t e) as [a' v] eqn:E.
  destruct (as_resize_region_spec a t e a' v Hwf Hal E)
    as [[-> ->]|(-> & Hwf' & Hc & _ & Hi)]; [left|right; by split].
  do 2 (split; [done|]). intros (i & Hi & Hit & Hie & Hap). unfold as_resize_region in E.
  replace (e >? TRAPFRAME) with false in E by lia.
  rewrite (region_index_eq a t i Hwf Hi Hit) in E. cbv zeta in E.
  replace (i <? 0) with false in E by lia. replace (e <? _) with false in E by lia.
  match type of E with context [first_index ?n 0 ?f] =>
    destruct (first_index_spec n 0 f) as [[Hx _]|(k & _ & Hk & Hov & _)]; [lia| |] end.
  - rewrite Hx in E. simpl in E. simplify_eq.
  - apply andb_true_iff in Hov as [Hne Hov]. destruct (Hap k); [lia|lia|..];
      unfold overlaps in Hov; lia.
Qed.

(** ** Witnesses *)

(** The table [kexec] builds: text, then stack. *)
Definition demo_as : addr_space :=
  let a := set_pagetable 0x80010000 zero_as in
  let a := (as_add_region a 0 0x2000 MR_TEXT 0xe).1 in
  (as_add_region a 0x5000 0x7000 MR_STACK 0x6).1.

Lemma demo_as_ok : as_wf demo_as.
Proof.
  assert (Hc : region_count demo_as = 2) by reflexivity.
  assert (H0 : region demo_as 0 = mkRegion 0 0x2000 MR_TEXT 0xe) by reflexivity.
  assert (H1 : region demo_as 1 = mkRegion 0x5000 0x7000 MR_STACK 0x6) by reflexivity.
  assert (Hij : forall i j : Z, 0 <= i < j -> j < 2 -> i = 0 /\ j = 1) by lia.
  split; [reflexivity|rewrite Hc; split; vm_compute; done|..]; rewrite Hc.
  - intros i Hi. assert (i = 0 \/ i = 1) as [-> | ->] by lia;
      rewrite ?H0, ?H1; vm_compute; intuition congruence.
  - intros i j Hi Hj. destruct (Hij i j Hi Hj) as [-> ->]. rewrite H0, H1. done.
  - intros i j Hi Hj. destruct (Hij i j Hi Hj) as [-> ->]. rewrite H0, H1. left. done.
  - intros i j Hi Hj. destruct (Hij i j Hi Hj) as [-> ->]. rewrite H0, H1. done.
Qed.

Lemma as_add_region_correct_witness :
  (as_add_region demo_as 0x3000 0x3000 MR_HEAP 0x6).2 = 0 /\
  let '(a', v) := as_add_region demo_as 0x3000 0x3000 MR_HEAP 0x6 in
  (v = -1 /\ a' = demo_as /\ ~ addable demo_as 0x3000 0x3000 MR_HEAP) \/
  (v = 0 /\ addable demo_as 0x3000 0x3000 MR_HEAP /\ as_wf a' /\
   a'.(pagetable) = demo_as.(pagetable) /\
   exists l1 l2, live demo_as = l1 ++ l2 /\
     live a' = l1 ++ mkRegion 0x3000 0x3000 MR_HEAP 0x6 :: l2).
Proof.
  split; [reflexivity|].
  apply (as_add_region_correct demo_as 0x3000 0x3000 MR_HEAP 0x6 demo_as_ok). lia.
Defined.

