(* ===== verification/PageTable.v ===== *)
(** * Page tables in memory

    What [walk], [mappages] and [uvmunmap] of [addrspace.c] do to the
    translation a page table gives, stated on the words the hardware reads. *)

From S2P Require Import Prelude CMem Machine Sv32 Spinlock Kalloc.
From S2P Require Import KallocProof KallocSpec Sched AddrSpace.

#[local] Opaque memset.

(** ** The allocator as its clients see it *)

(** Only memory, the allocator and the scratch field [intena] differ. *)
Definition aframe (s s' : kstate) : Prop := exists k m, kframe s s' k m.

#[export] Instance aframe_preorder : PreOrder aframe.
Proof.
  split.
  - intros s. exists (k_kmem s), (k_mem s), (c_intena (k_cpu s)). split; [done|].
    by destruct s as [[] ? ? ? ? ?].
  - intros s1 s2 s3 (k2 & m2 & i2 & H2 & ->) (k3 & m3 & i3 & H3 & ->). exists k3, m3, i3.
    split; [|done]. intros H. rewrite H3 by done. simpl. by apply H2.
Qed.

Lemma aframe_mem s m : aframe s (set_mem m s).
Proof.
  exists (k_kmem s), m, (c_intena (k_cpu s)). split; [done|]. by destruct s as [[] ? ? ? ? ?].
Qed.

(** Page [j] is in use. *)
Definition used (s : kstate) (j : Z) : Prop := 0 < refs s j.

Section pages.
Context `{L : Layout}.

Lemma used_range s j : alloc_ok s -> used s j -> 0 <= j < NPAGES.
Proof.
  intros Hok Hu. pose proof (refs_managed s j Hok Hu).
  destruct Hok as (_ & _ & B & HI). pose proof (ki_range _ _ _ _ _ HI). lia.
Qed.

(** Writing pages in use does not disturb the allocator. *)
Lemma alloc_ok_mem s m :
  alloc_ok s ->
  (forall j a, refs s j = 0 -> 0 <= j < NPAGES -> page_addr j a ->
     load8 m a = load8 (k_mem s) a) ->
  alloc_ok (set_mem m s).
Proof.
  intros (Hc & Hl & B & HI) Hm. split; [done|]. split; [done|]. exists B.
  pose proof HI as [HB Hr Hrc Hmg Hout]. split; try done.
  apply (buddy_inv_mem B _ (k_mem s)); [done|]. intros j a Hj Ha.
  apply (Hm j a); [|by eapply freep_range; [apply HB|]|done].
  apply Hmg; [|done]. by eapply freep_managed.
Qed.

Definition kept (s s' : kstate) (P : Z -> Prop) : Prop :=
  forall j a, P j -> page_addr j a -> load8 (k_mem s') a = load8 (k_mem s) a.

(** No page of RAM is free. *)
Definition exhausted (s : kstate) : Prop := forall j, 0 <= j < NPAGES -> ~ is_free s j.

Lemma kalloc_client s :
  alloc_ok s ->
  runs (kalloc s) (fun r s' => alloc_ok s' /\ aframe s s' /\ kept s s' (used s) /\
    ((r = 0 /\ exhausted s /\ exhausted s' /\ forall j, refs s' j = refs s j) \/
     (exists i, 0 <= i < NPAGES /\ r = idx2pa i /\ refs s i = 0 /\
        forall j, refs s' j = fupd (refs s) i 1 j))).
Proof.
  intros Hok. pose proof Hok as (Hc & Hl & HK).
  eapply runs_mono; [by apply kalloc_runs|].
  intros r s' (k' & m' & Hf & HK' & Hp). destruct (kframe_kmem _ _ _ _ Hf) as [Hk Hm].
  split; [by eapply alloc_ok_kframe|]. split; [by exists k', m'|].
  assert (Hused : forall j, used s j -> 0 <= j < NPAGES /\ ~ is_free s j).
  { intros j Hj. pose proof (used_range s j Hok Hj). split; [done|].
    rewrite is_free_refs by (done || by apply (refs_managed s)). unfold used in Hj. lia. }
  destruct Hp as [(-> & Hno & Hr & Hmem)|(i & Hi & -> & _ & Hr0 & _ & Hr & _ & Hmem)].
  - split; [|left; split; [done|split; [intros j Hj; by apply Hno|split]]].
    + intros j a _ _. by rewrite Hm.
    + intros j Hj. unfold is_free. rewrite Hk. by apply Hno.
    + intros j. unfold refs. by rewrite Hk, Hr.
  - split; [|right; exists i; split; [done|split; [done|split; [done|]]]].
    + intros j a Hj Ha. rewrite Hm. apply Hmem. intros j' [Hj' Hfree] Ha'.
      destruct (Hused j Hj) as [Hr' Hnf].
      by rewrite (page_addr_inj j' j a) in Hfree.
    + intros j. unfold refs, fupd. by rewrite Hk, Hr, aget_insert.
Qed.

Lemma kfree_client `{!LayoutOk L} s i :
  alloc_ok s -> used s i ->
  runs (kfree (idx2pa i) s) (fun _ s' => alloc_ok s' /\ aframe s s' /\
    kept s s' (used s') /\ forall j, refs s' j = fupd (refs s) i (refs s i - 1) j).
Proof.
  intros Hok Hu. pose proof Hok as (Hc & Hl & HK).
  pose proof (used_range s i Hok Hu) as Hi. pose proof (refs_managed s i Hok Hu) as Him.
  destruct first_page_spec as (_ & _ & He).
  eapply runs_mono; [apply (kfree_runs first_page NPAGES); try done|].
  { rewrite idx2pa_eq by done. unfold PGSIZE in *. lia. }
  { unfold used in Hu. lia. }
  intros _ s' (k' & m' & Hf & HK' & Hr & _ & Hmany & Hmem).
  destruct (kframe_kmem _ _ _ _ Hf) as [Hk Hm].
  assert (Hok' : alloc_ok s') by (by eapply alloc_ok_kframe).
  assert (Hrefs : forall j, refs s' j = fupd (refs s) i (refs s i - 1) j)
    by (intros j; unfold refs, fupd; by rewrite Hk, Hr, aget_insert).
  split; [done|]. split; [by exists k', m'|]. split; [|done].
  intros j a Hj Ha. rewrite Hm.
  destruct (decide (refs s i = 1)) as [H1|H1].
  - apply Hmem. pose proof (used_range s' j Hok' Hj) as Hjr.
    assert (Hji : j <> i).
    { intros ->. unfold used in Hj. rewrite Hrefs in Hj. unfold fupd in Hj.
      case_decide; [lia|done]. }
    assert (Hju : used s j).
    { unfold used in *. rewrite Hrefs in Hj. unfold fupd in Hj. by case_decide. }
    intros j' [[Hj' Hfree]| ->] Ha'.
    + rewrite (page_addr_inj j' j a) in Hfree by done.
      apply is_free_refs in Hfree; [|done|by apply (refs_managed s)].
      unfold used in Hju. lia.
    + apply Hji. by apply (page_addr_inj j i a).
  - unfold used in Hu. by rewrite Hmany by lia.
Qed.

Lemma kaddref_client s i :
  alloc_ok s -> used s i -> refs s i < 2^16 - 1 ->
  runs (kaddref (idx2pa i) s) (fun _ s' => alloc_ok s' /\ aframe s s' /\
    k_mem s' = k_mem s /\ forall j, refs s' j = fupd (refs s) i (refs s i + 1) j).
Proof.
  intros Hok Hu Hcap. pose proof Hok as (Hc & Hl & HK).
  eapply runs_mono; [apply (kaddref_runs first_page NPAGES); try done|].
  { by apply used_range with s. }
  { unfold used in Hu. lia. }
  intros _ s' (k' & Hf & HK' & _ & Hr). destruct (kframe_kmem _ _ _ _ Hf) as [Hk Hm].
  split; [by eapply alloc_ok_kframe|]. split; [by exists k', (k_mem s)|]. split; [done|].
  intros j. unfold refs, fupd. by rewrite Hk, Hr, aget_insert.
Qed.

(** ** Two-level tables *)

(** The leaf entry the hardware finds for [va], 0 without a level-0 table. *)
Definition hw_walk (m : mem) (pt va : Z) : Z :=
  let pde := load32 m (pt + 4 * PX 1 va) in
  if has pde PTE_V then load32 m (PTE2PA pde + 4 * PX 0 va) else 0.

(** The table rooted at page [r] has its level-0 tables in the pages [T]. *)
Record ptable (m : mem) (u : Z -> Prop) (r : Z) (T : Z -> option Z) : Prop := {
  pt_root : u r /\ 0 <= r < NPAGES;
  pt_pde : forall i, 0 <= i < 1024 ->
    match T i with
    | Some c => load32 m (idx2pa r + 4 * i) = mkpte (idx2pa c) PTE_V
    | None => has (load32 m (idx2pa r + 4 * i)) PTE_V = false
    end;
  pt_kid : forall i c, T i = Some c -> 0 <= i < 1024 /\ 0 <= c < NPAGES /\ u c /\ c <> r;
  pt_inj : forall i j c, T i = Some c -> T j = Some c -> i = j;
}.

(** The pages that make up the table. *)
Definition tabs (r : Z) (T : Z -> option Z) (j : Z) : Prop :=
  j = r \/ exists i, T i = Some j.

(** The entry of [va] in the level-0 tables [T]. *)
Definition leaf (m : mem) (T : Z -> option Z) (va : Z) : Z :=
  match T (PX 1 va) with
  | Some c => load32 m (idx2pa c + 4 * PX 0 va)
  | None => 0
  end.

Lemma idx2pa_u32 c k : 0 <= c < NPAGES -> 0 <= k < 1024 ->
  u32 (idx2pa c + 4 * k) = idx2pa c + 4 * k.
Proof.
  intros Hc Hk. unfold u32. rewrite Z.mod_small; [done|]. rewrite idx2pa_eq by done.
  unfold KERNBASE, PGSIZE. change NPAGES with 32768 in Hc. lia.
Qed.

Lemma idx2pa_pde c :
  0 <= c < NPAGES ->
  PTE2PA (mkpte (idx2pa c) PTE_V) = idx2pa c /\ has (mkpte (idx2pa c) PTE_V) PTE_V = true.
Proof.
  intros Hc. pose proof (idx2pa_range c Hc).
  unfold PTE_V. rewrite PTE2PA_mkpte, has_mkpte by (try done; simpl; lia).
  split; [|done]. rewrite idx2pa_eq by done. unfold KERNBASE, PGSIZE. zlia.
Qed.

Lemma hw_walk_leaf m u r T va : ptable m u r T -> hw_walk m (idx2pa r) va = leaf m T va.
Proof.
  intros [_ Hp Hk _]. unfold hw_walk, leaf. pose proof (PX_range 1 va) as Hx.
  specialize (Hp _ Hx). destruct (T (PX 1 va)) as [c|] eqn:E; [|by rewrite Hp].
  destruct (Hk _ _ E) as (_ & Hc & _). rewrite Hp.
  destruct (idx2pa_pde c Hc) as [-> ->]. done.
Qed.

(** Addresses of entries lie in their page. *)
Lemma entry_page c k x :
  0 <= k < 1024 -> 0 <= x < 4 -> page_addr c (idx2pa c + 4 * k + x).
Proof. intros. unfold page_addr, PGSIZE. lia. Qed.

Lemma entry_ext m m' c k :
  0 <= k < 1024 -> (forall a, page_addr c a -> load8 m' a = load8 m a) ->
  load32 m' (idx2pa c + 4 * k) = load32 m (idx2pa c + 4 * k).
Proof. intros Hk H. apply load32_ext. intros x Hx. apply H. by apply entry_page. Qed.

(** A table whose pages keep their bytes is still the same table. *)
Lemma ptable_ext m m' (u u' : Z -> Prop) r T :
  ptable m u r T -> (forall j, tabs r T j -> u' j) ->
  (forall j a, tabs r T j -> page_addr j a -> load8 m' a = load8 m a) ->
  ptable m' u' r T /\ forall va, leaf m' T va = leaf m T va.
Proof.
  intros [[Hr0 Hr] Hp Hk Hi] Hu Hm. split.
  - split.
    + split; [apply Hu; by left|done].
    + intros i Hi'. specialize (Hp i Hi'). rewrite (entry_ext m m'); [done|done|].
      intros a. apply Hm. by left.
    + intros i c Hc. destruct (Hk i c Hc) as (?&?&?&?). split; [done|]. split; [done|].
      split; [|done]. apply Hu. right. eauto.
    + done.
  - intros va. unfold leaf. destruct (T (PX 1 va)) as [c|] eqn:E; [|done].
    apply entry_ext; [apply PX_range|]. intros a. apply Hm. right. eauto.
Qed.

(** ** Growing a table *)

(** From [s] to [s'] the table may have gained level-0 tables, taken from
    unused pages; no other page in use changed, in contents or in count. *)
Record pt_step (r : Z) (s : kstate) (T : Z -> option Z) (s' : kstate)
    (T' : Z -> option Z) : Prop := {
  ps_ok : alloc_ok s';
  ps_frame : aframe s s';
  ps_pt : ptable (k_mem s') (used s') r T';
  ps_ext : forall i c, T i = Some c -> T' i = Some c;
  ps_new : forall i c, T' i = Some c -> T i = Some c \/ refs s c = 0;
  ps_refs : forall j, refs s' j =
    if decide (refs s j = 0) then refs s' j else refs s j;
  ps_fresh : forall j, refs s j = 0 -> used s' j -> tabs r T' j;
  ps_kept : kept s s' (fun j => used s j /\ ~ tabs r T j);
}.

Lemma ps_used r s T s' T' j : pt_step r s T s' T' -> used s j -> used s' j.
Proof.
  intros H Hu. unfold used in *. rewrite (ps_refs _ _ _ _ _ H j). case_decide; lia.
Qed.

Lemma pt_step_refl r s T :
  alloc_ok s -> ptable (k_mem s) (used s) r T -> pt_step r s T s T.
Proof.
  intros Hok Hpt. split; try done.
  - intros i c H. by left.
  - intros j. by case_decide.
  - intros j H1 H2. unfold used in H2. lia.
Qed.

Lemma pt_step_trans r s1 T1 s2 T2 s3 T3 :
  alloc_ok s1 ->
  pt_step r s1 T1 s2 T2 -> pt_step r s2 T2 s3 T3 -> pt_step r s1 T1 s3 T3.
Proof.
  intros Hok H12 H23. destruct H12 as [A1 A2 A3 A4 A5 A6 A7 A8] eqn:E1.
  pose proof H12 as P12. pose proof H23 as P23.
  destruct H23 as [B1 B2 B3 B4 B5 B6 B7 B8] eqn:E2. clear E1 E2.
  split; try done.
  - by etrans.
  - eauto.
  - intros i c Hc. destruct (B5 i c Hc) as [H|H]; [by apply A5|]. right.
    destruct (decide (refs s1 c = 0)); [done|].
    assert (used s1 c) as Hu by (pose proof (alloc_ok_refs s1 c Hok); unfold used; lia).
    apply (ps_used _ _ _ _ _ _ P12) in Hu. unfold used in Hu. lia.
  - intros j. case_decide as Hd; [done|]. specialize (A6 j). case_decide; [done|].
    specialize (B6 j). case_decide; congruence.
  - intros j H1 H3. destruct (decide (refs s2 j = 0)) as [H2|H2]; [by apply B7|].
    assert (used s2 j) as Hu2 by (pose proof (alloc_ok_refs s2 j A1); unfold used; lia).
    destruct (A7 j H1 Hu2) as [->|[i Hi]]; [by left|right; eauto].
  - intros j a [Hj Ht] Ha. rewrite (B8 j a), (A8 j a); try done.
    split; [by apply (ps_used _ _ _ _ _ _ P12)|].
    intros [->|[i Hi]]; [apply Ht; by left|]. destruct (A5 i j Hi) as [H|H].
    + apply Ht. right. eauto.
    + unfold used in Hj. lia.
Qed.

(** A store to an entry of one of the table's own pages. *)
Lemma table_store s r T c k v :
  alloc_ok s -> ptable (k_mem s) (used s) r T -> tabs r T c -> 0 <= k < 1024 ->
  let s' := set_mem (store32 (k_mem s) (idx2pa c + 4 * k) v) s in
  alloc_ok s' /\ (forall j a, page_addr j a -> 0 <= j < NPAGES -> j <> c ->
    load8 (k_mem s') a = load8 (k_mem s) a).
Proof.
  intros Hok Hpt Hc Hk s'.
  assert (Hcu : used s c /\ 0 <= c < NPAGES).
  { destruct Hc as [->|[i Hi]]; [by apply (pt_root _ _ _ _ Hpt)|].
    destruct (pt_kid _ _ _ _ Hpt i c Hi) as (_&?&?&_). done. }
  destruct Hcu as [Hcu Hcr].
  assert (Hm : forall j a, page_addr j a -> 0 <= j < NPAGES -> j <> c ->
    load8 (k_mem s') a = load8 (k_mem s) a).
  { intros j a Ha Hj Hne. simpl. apply load8_store32_out. intros Hin. apply Hne.
    apply (page_addr_inj j c a); [done|done|done|]. unfold page_addr, PGSIZE. lia. }
  split; [|done]. apply alloc_ok_mem; [done|]. intros j a H0 Hj Ha.
  apply (Hm j a); [done|done|]. intros ->. unfold used in Hcu. lia.
Qed.

Definition Tset (T : Z -> option Z) (i c : Z) : Z -> option Z :=
  fun j => if decide (j = i) then Some c else T j.

(** The state after [walk] has hooked up a fresh zeroed page [n]. *)
Definition new_table (s : kstate) (r n i : Z) : kstate :=
  let m := memset (k_mem s) (idx2pa n) 0 PGSIZE in
  set_mem (store32 m (idx2pa r + 4 * i) (mkpte (idx2pa n) PTE_V)) s.

Lemma new_table_spec s s1 r T n i :
  alloc_ok s -> ptable (k_mem s) (used s) r T ->
  alloc_ok s1 -> aframe s s1 -> kept s s1 (used s) ->
  0 <= n < NPAGES -> refs s n = 0 -> (forall j, refs s1 j = fupd (refs s) n 1 j) ->
  0 <= i < 1024 -> T i = None ->
  let s' := new_table s1 r n i in
  pt_step r s T s' (Tset T i n) /\
  forall va, leaf (k_mem s') (Tset T i n) va = leaf (k_mem s) T va.
Proof.
  intros Hok Hpt Hok1 Hfr Hkeep Hn Hn0 Hr Hi HT s'.
  pose proof Hpt as [[Hru Hrr] Hpde Hkid Hinj].
  assert (Hu1 : forall j, used s1 j <-> used s j \/ j = n).
  { intros j. unfold used. rewrite Hr. unfold fupd. case_decide; [subst; lia|tauto]. }
  assert (Hrn : r <> n) by (intros ->; unfold used in Hru; lia).
  set (m2 := memset (k_mem s1) (idx2pa n) 0 PGSIZE).
  assert (Hm2 : forall j a, 0 <= j < NPAGES -> j <> n -> page_addr j a ->
    load8 m2 a = load8 (k_mem s1) a).
  { intros j a Hj Hne Ha. unfold m2. rewrite memset_load. case_decide as Hd; [|done].
    destruct Hne. by apply (page_addr_inj j n a). }
  assert (Hm3 : forall j a, 0 <= j < NPAGES -> j <> r -> page_addr j a ->
    load8 (k_mem s') a = load8 m2 a).
  { intros j a Hj Hne Ha. simpl. apply load8_store32_out. intros Hin. apply Hne.
    apply (page_addr_inj j r a); [done|done|done|]. unfold page_addr, PGSIZE. lia. }
  assert (Hold : forall j a, used s j -> j <> r -> page_addr j a ->
    load8 (k_mem s') a = load8 (k_mem s) a).
  { intros j a Hj Hne Ha. pose proof (used_range s j Hok Hj).
    rewrite (Hm3 j a), (Hm2 j a), (Hkeep j a); try done.
    intros ->. unfold used in Hj. lia. }
  assert (Hroot : forall k, 0 <= k < 1024 -> load32 (k_mem s') (idx2pa r + 4 * k) =
    if decide (k = i) then mkpte (idx2pa n) PTE_V
    else load32 (k_mem s) (idx2pa r + 4 * k)).
  { intros k Hk. simpl. case_decide as Hd.
    - subst. rewrite load32_store32_eq. apply Z.mod_small, mkpte_range;
        [by apply idx2pa_range|done].
    - rewrite load32_store32_ne by lia. apply entry_ext; [done|]. intros a Ha.
      change (load8 m2 a = load8 (k_mem s) a). by rewrite (Hm2 r a), (Hkeep r a). }
  assert (Hzero : forall k, 0 <= k < 1024 -> load32 (k_mem s') (idx2pa n + 4 * k) = 0).
  { intros k Hk. rewrite (entry_ext m2); [|done|].
    - apply load32_memset0; unfold PGSIZE; lia.
    - intros a Ha. by apply (Hm3 n a). }
  assert (Hok' : alloc_ok s').
  { apply alloc_ok_mem; [done|]. intros j a H0 Hj Ha.
    change (load8 (k_mem s') a = load8 (k_mem s1) a).
    assert (Hnu : ~ used s1 j) by (unfold used; lia). rewrite Hu1 in Hnu.
    rewrite (Hm3 j a), (Hm2 j a); try done; [tauto|]. intros ->. tauto. }
  assert (Hpt' : ptable (k_mem s') (used s') r (Tset T i n)).
  { split.
    - split; [apply (Hu1 r); by left|done].
    - intros k Hk. unfold Tset. rewrite Hroot by done. case_decide; [done|]. by apply Hpde.
    - intros k c. unfold Tset. case_decide as Hd.
      + intros [= <-]. subst. split; [done|]. split; [done|].
        split; [apply (Hu1 n); by right|done].
      + intros Hc. destruct (Hkid k c Hc) as (?&?&?&?). split; [done|]. split; [done|].
        split; [apply (Hu1 c); by left|done].
    - assert (Hnew : forall k, T k <> Some n).
      { intros k Hk. destruct (Hkid k n Hk) as (_&_&Hu&_). unfold used in Hu. lia. }
      intros k l c. unfold Tset. case_decide; case_decide; subst; [done| | |apply Hinj].
      + intros [= <-] Hl. by destruct (Hnew l).
      + intros Hl [= <-]. by destruct (Hnew k). }
  split.
  - split; try done.
    + etrans; [exact Hfr|]. apply aframe_mem.
    + intros k c Hk. unfold Tset. case_decide; [congruence|done].
    + intros k c. unfold Tset. case_decide; [intros [= <-]; by right|by left].
    + intros j. case_decide as Hd; [done|]. change (refs s1 j = refs s j). rewrite Hr.
      unfold fupd. case_decide; [congruence|done].
    + intros j H0 Hj. apply (Hu1 j) in Hj as [Hj| ->]; [unfold used in Hj; lia|].
      right. exists i. unfold Tset. by case_decide.
    + intros j a [Hj Ht] Ha. apply (Hold j a); [done| |done]. intros ->. apply Ht. by left.
  - intros va. unfold leaf, Tset. pose proof (PX_range 0 va). case_decide as Hd.
    + rewrite Hd, HT. by apply Hzero.
    + destruct (T (PX 1 va)) as [c|] eqn:E; [|done].
      destruct (Hkid _ _ E) as (_&_&Hcu&Hcr). apply entry_ext; [done|].
      intros a. by apply Hold.
Qed.

(** [walk] with [alloc]: the slot of [va], or 0 when memory has run out. *)
Lemma walk_alloc_spec s r T va :
  alloc_ok s -> ptable (k_mem s) (used s) r T -> 0 <= va < 2^32 ->
  runs (walk (idx2pa r) va true s) (fun p s' => exists T', pt_step r s T s' T' /\
    (forall va', leaf (k_mem s') T' va' = leaf (k_mem s) T va') /\
    (p = 0 /\ exhausted s' \/ exists c, T' (PX 1 va) = Some c /\ p = idx2pa c + 4 * PX 0 va)).
Proof.
  intros Hok Hpt Hva. pose proof Hpt as [[Hru Hrr] Hpde Hkid Hinj].
  unfold walk. replace (va >=? MAXVA) with false by (change MAXVA with (2^32); lia).
  pose proof (PX_range 1 va) as Hx1. pose proof (PX_range 0 va) as Hx0.
  unfold pte_addr, load_pte. rewrite (idx2pa_u32 r) by done.
  apply runs_bind. simpl. pose proof (Hpde _ Hx1) as Hp.
  destruct (T (PX 1 va)) as [c|] eqn:ET.
  - rewrite Hp. destruct (Hkid _ _ ET) as (_ & Hcr & _).
    destruct (idx2pa_pde c Hcr) as [-> ->]. simpl. rewrite idx2pa_u32 by done.
    exists T. split; [by apply pt_step_refl|]. split; [done|]. right. by exists c.
  - rewrite Hp. simpl. apply runs_bind. eapply runs_mono; [by apply kalloc_client|].
    intros q s1 (Hok1 & Hfr1 & Hkeep & Hq).
    assert (Hkidu : forall i c, T i = Some c -> used s c)
      by (intros i c Hc; by destruct (Hkid i c Hc) as (_&_&?&_)).
    assert (Hsame : (forall j, used s j -> used s1 j) ->
      ptable (k_mem s1) (used s1) r T /\
      forall va', leaf (k_mem s1) T va' = leaf (k_mem s) T va').
    { intros Hmono. eapply ptable_ext; [exact Hpt| |].
      - intros j [->|[i Hi]]; apply Hmono; eauto.
      - intros j a [->|[i Hi]] Ha; (eapply Hkeep; [|exact Ha]); eauto. }
    destruct Hq as [(-> & Hex & Hex' & Hr)|(n & Hn & -> & Hn0 & Hr)].
    { simpl. assert (Hmono : forall j, used s j -> used s1 j)
        by (intros j; unfold used; by rewrite Hr).
      destruct (Hsame Hmono) as [Hpt1 Hlf]. exists T. split; [|by split; [|left]].
      split; try done.
      - intros i c H. by left.
      - intros j. rewrite Hr. by case_decide.
      - intros j H1 H2. unfold used in H2. rewrite Hr in H2. lia.
      - intros j a [Hj _]. by apply Hkeep. }
    destruct (Z.eqb_spec (idx2pa n) 0); [by apply idx2pa_nonzero in Hn|].
    unfold zero_page, store_pte, upd_mem.
    destruct (new_table_spec s s1 r T n (PX 1 va)) as [Hst Hlf]; try done.
    apply runs_bind. simpl. rewrite idx2pa_u32 by done.
    change (Z.lor (PA2PTE (idx2pa n)) PTE_V) with (mkpte (idx2pa n) PTE_V).
    exists (Tset T (PX 1 va) n). split; [exact Hst|]. split; [exact Hlf|].
    right. exists n. split; [|done]. unfold Tset. by case_decide.
Qed.

(** ** Setting one entry *)

(** Virtual page number. *)
Definition vpn (va : Z) : Z := va / PGSIZE.

Lemma PX_vpn va va' :
  0 <= va < 2^32 -> 0 <= va' < 2^32 ->
  (PX 1 va' = PX 1 va /\ PX 0 va' = PX 0 va <-> vpn va' = vpn va).
Proof.
  intros H H'. rewrite !PX0_eq, !PX1_eq. unfold vpn, PGSIZE.
  replace (va / 2^22) with (va / 4096 / 1024) by (rewrite Z.div_div by lia; done).
  replace (va' / 2^22) with (va' / 4096 / 1024) by (rewrite Z.div_div by lia; done).
  split; [|by intros ->].
  assert (0 <= va / 4096 < 2^20) by zlia. assert (0 <= va' / 4096 < 2^20) by zlia.
  generalize dependent (va / 4096). generalize dependent (va' / 4096). intros x Hx y Hy. zlia.
Qed.

Lemma leaf_store s r T va c v :
  alloc_ok s -> ptable (k_mem s) (used s) r T -> 0 <= va < 2^32 ->
  T (PX 1 va) = Some c -> 0 <= v < 2^32 ->
  let s' := set_mem (store32 (k_mem s) (idx2pa c + 4 * PX 0 va) v) s in
  pt_step r s T s' T /\
  forall va', 0 <= va' < 2^32 -> leaf (k_mem s') T va' =
    if decide (vpn va' = vpn va) then v else leaf (k_mem s) T va'.
Proof.
  intros Hok Hpt Hva HT Hv s'. pose proof (PX_range 0 va) as Hx.
  pose proof Hpt as [[Hru Hrr] Hpde Hkid Hinj].
  destruct (Hkid _ _ HT) as (_ & Hcr & Hcu & Hcne).
  destruct (table_store s r T c (PX 0 va) v) as [Hok' Hm]; try done.
  { right. eauto. }
  assert (Hlf : forall va', 0 <= va' < 2^32 -> leaf (k_mem s') T va' =
    if decide (vpn va' = vpn va) then v else leaf (k_mem s) T va').
  { intros va' Hva'. unfold leaf. pose proof (PX_range 0 va') as Hx'.
    destruct (PX_vpn va va') as [H1 H2]; [done|done|].
    destruct (T (PX 1 va')) as [c'|] eqn:E.
    - destruct (Hkid _ _ E) as (_ & Hcr' & _). destruct (decide (c' = c)) as [->|Hne].
      + assert (PX 1 va' = PX 1 va) as Hp1 by (by apply (Hinj _ _ c)). simpl.
        destruct (decide (PX 0 va' = PX 0 va)) as [Hp0|Hp0].
        * rewrite Hp0, load32_store32_eq, Z.mod_small by done. case_decide; tauto.
        * rewrite load32_store32_ne by lia. case_decide as Hd; [|done].
          by destruct (H2 Hd).
      + rewrite (entry_ext (k_mem s)); [|done|].
        * case_decide as Hd; [|done]. destruct (H2 Hd) as [Hp _]. congruence.
        * intros a Ha. by apply (Hm c' a).
    - case_decide as Hd; [|done]. destruct (H2 Hd) as [Hp _]. congruence. }
  split; [|done]. split; try done.
  - apply aframe_mem.
  - split; try done. intros i Hi. rewrite (entry_ext (k_mem s)); [by apply Hpde|done|].
    intros a Ha. by apply (Hm r a).
  - intros i d Hd. by left.
  - intros j. by case_decide.
  - intros j H0 Hj. unfold used, refs in *. simpl in Hj. lia.
  - intros j a [Hj Ht] Ha. apply (Hm j a); [done|by apply (used_range s)|].
    intros ->. apply Ht. right. eauto.
Qed.

Lemma lor_flag p k : 0 <= p < 1024 -> 0 <= k < 10 -> 0 <= Z.lor p (Z.shiftl 1 k) < 1024.
Proof.
  intros Hp Hk. split; [apply Z.lor_nonneg; split; [lia|]|].
  - apply Z.shiftl_nonneg. lia.
  - rewrite Z.shiftl_1_l.
    destruct (Z.eq_dec (Z.lor p (2^k)) 0) as [->|Hne]; [lia|].
    assert (0 <= Z.lor p (2^k)) by (apply Z.lor_nonneg; split; [lia|apply Z.pow_nonneg; lia]).
    change 1024 with (2^10). apply Z.log2_lt_pow2; [lia|].
    rewrite Z.log2_lor by (try lia; apply Z.pow_nonneg; lia).
    apply Z.max_lub_lt; [|by rewrite Z.log2_pow2 by lia; lia].
    destruct (Z.eq_dec p 0) as [->|]; [simpl; lia|].
    apply Z.log2_lt_pow2; [lia|]. change (2^10) with 1024. lia.
Qed.

(** ** mappages *)

(** The translation with pages [vpn a ..] ([n] of them) mapped to [pa ..]. *)
Definition mapped (n : Z) (a pa f : Z) (old : Z -> Z) (va : Z) : Z :=
  if decide (vpn a <= vpn va < vpn a + n)
  then mkpte (pa + (vpn va - vpn a) * PGSIZE) f else old va.

Lemma mapped_0 a pa f old va : mapped 0 a pa f old va = old va.
Proof. unfold mapped. case_decide; [lia|done]. Qed.

Lemma mapped_S n a pa f old new va :
  0 <= n -> 0 <= a ->
  (new va = if decide (vpn va = vpn a) then mkpte pa f else old va) ->
  mapped n (a + PGSIZE) (pa + PGSIZE) f new va = mapped (n + 1) a pa f old va.
Proof.
  intros Hn Ha Hnew. unfold mapped.
  assert (Hv : vpn (a + PGSIZE) = vpn a + 1) by (unfold vpn, PGSIZE; zlia).
  rewrite Hv, Hnew. repeat case_decide; try lia; try done.
  - f_equal. lia.
  - subst. f_equal. lia.
Qed.

Definition map_post (r : Z) (s : kstate) (T : Z -> option Z) (n a pa f : Z)
    (e : Z) (s' : kstate) : Prop :=
  exists T' k, pt_step r s T s' T' /\ 0 <= k <= n /\
    ((e = 0 /\ k = n) \/ (e = -1 /\ k < n /\ exhausted s')) /\
    forall va, 0 <= va < 2^32 ->
      leaf (k_mem s') T' va = mapped k a pa f (leaf (k_mem s) T) va.

Lemma mappages_loop_S n pagetable a last pa perm :
  mappages_loop (S n) pagetable a last pa perm =
    (pte <- walk pagetable a true ;;
     if pte =? 0 then ret (-1) else
     v <- load_pte pte ;;
     if has v PTE_V then panic "mappages: remap" else
     store_pte pte (Z.lor (Z.lor (PA2PTE pa) perm) PTE_V) ;;
     if a =? last then ret 0 else
     mappages_loop n pagetable (u32 (a + PGSIZE)) last (u32 (pa + PGSIZE)) perm).
Proof. done. Qed.

Lemma mappages_loop_spec n : forall s T r a pa perm,
  alloc_ok s -> ptable (k_mem s) (used s) r T ->
  0 <= a -> a mod PGSIZE = 0 -> a + Z.of_nat (S n) * PGSIZE <= 2^32 ->
  0 <= pa -> pa + Z.of_nat (S n) * PGSIZE <= 2^32 -> 0 <= perm < 1024 ->
  (forall va, 0 <= va < 2^32 -> vpn a <= vpn va < vpn a + Z.of_nat (S n) ->
     has (leaf (k_mem s) T va) PTE_V = false) ->
  runs (mappages_loop (S n) (idx2pa r) a (a + Z.of_nat n * PGSIZE) pa perm s)
    (map_post r s T (Z.of_nat (S n)) a pa (Z.lor perm PTE_V)).
Proof.
  induction n as [|n IH]; intros s T r a pa perm Hok Hpt Ha Hal Hend Hpa Hpend Hperm Hfree;
    (assert (Ha32 : 0 <= a < 2^32) by (unfold PGSIZE in *; lia));
    (assert (Hpa32 : 0 <= pa < 2^32) by (unfold PGSIZE in *; lia));
    (assert (Hfl : 0 <= Z.lor perm PTE_V < 1024) by (apply lor_flag; [done|lia]));
    rewrite mappages_loop_S; apply runs_bind;
    (eapply runs_mono; [by apply (walk_alloc_spec s r T a)|]);
    intros p s1 (T1 & Hst & Hlf & Hp).
  all: destruct Hp as [[-> Hex]|(c & HT & ->)];
    [simpl; exists T1, 0; split; [done|]; split; [lia|]; split; [right; auto with lia|];
     intros va Hva; rewrite mapped_0; apply Hlf|].
  all: pose proof (ps_ok _ _ _ _ _ Hst) as Hok1; pose proof (ps_pt _ _ _ _ _ Hst) as Hpt1.
  all: destruct (pt_kid _ _ _ _ Hpt1 _ _ HT) as (_ & Hcr & _).
  all: (destruct (Z.eqb_spec (idx2pa c + 4 * PX 0 a) 0) as [H0|_];
    [pose proof (PX_range 0 a); rewrite idx2pa_eq in H0 by done;
     unfold KERNBASE, PGSIZE in H0; lia|]).
  all: unfold load_pte, store_pte, upd_mem; apply runs_bind; cbn [runs gets].
  all: assert (Hslot : load32 (k_mem s1) (idx2pa c + 4 * PX 0 a) = leaf (k_mem s) T a)
    by (rewrite <- Hlf; unfold leaf; by rewrite HT).
  all: rewrite Hslot, Hfree by (try done; lia).
  all: apply runs_bind; cbn [runs modify].
  all: rewrite <- Z.lor_assoc;
    change (Z.lor (PA2PTE pa) (Z.lor perm PTE_V)) with (mkpte pa (Z.lor perm PTE_V)).
  all: destruct (leaf_store s1 r T1 a c (mkpte pa (Z.lor perm PTE_V))) as [Hst2 Hlf2];
    [done|done|done|done|by apply mkpte_range|].
  all: set (s2 := set_mem _ s1) in *.
  all: assert (Hst12 : pt_step r s T s2 T1) by (by eapply pt_step_trans).
  - replace (a + Z.of_nat 0 * PGSIZE) with a by lia. rewrite Z.eqb_refl. simpl.
    exists T1, 1. split; [done|]. split; [lia|]. split; [by left|].
    intros va Hva. change 1 with (0 + 1) at 1.
    rewrite <- (mapped_S 0 a pa _ _ (leaf (k_mem s2) T1)); [by rewrite mapped_0|lia|done|].
    by rewrite Hlf2, Hlf.
  - destruct (Z.eqb_spec a (a + Z.of_nat (S n) * PGSIZE)) as [Heq|_];
      [unfold PGSIZE in Heq; lia|].
    assert (Hu1 : u32 (a + PGSIZE) = a + PGSIZE)
      by (unfold u32; apply Z.mod_small; unfold PGSIZE in *; lia).
    assert (Hu2 : u32 (pa + PGSIZE) = pa + PGSIZE)
      by (unfold u32; apply Z.mod_small; unfold PGSIZE in *; lia).
    rewrite Hu1, Hu2.
    replace (a + Z.of_nat (S n) * PGSIZE) with (a + PGSIZE + Z.of_nat n * PGSIZE) by lia.
    assert (Hv : vpn (a + PGSIZE) = vpn a + 1) by (unfold vpn, PGSIZE in *; zlia).
    eapply runs_mono.
    { apply (IH s2 T1 r (a + PGSIZE) (pa + PGSIZE) perm); try done.
      - apply (ps_ok _ _ _ _ _ Hst2).
      - apply (ps_pt _ _ _ _ _ Hst2).
      - unfold PGSIZE in *. lia.
      - unfold PGSIZE in *. zlia.
      - lia.
      - unfold PGSIZE in *. lia.
      - lia.
      - intros va Hva Hr. rewrite Hlf2, Hlf by done. case_decide; [lia|].
        apply Hfree; [done|]. lia. }
    intros e s3 (T3 & k & Hst3 & Hk & He & Hlf3). exists T3, (k + 1).
    split; [by eapply pt_step_trans|]. split; [lia|].
    split; [destruct He as [?|(? & ? & ?)]; [left|right]; auto with lia|].
    intros va Hva. rewrite Hlf3 by done. apply mapped_S; [lia|done|].
    by rewrite Hlf2, Hlf.
Qed.

Lemma mappages_spec s T r va size pa perm :
  alloc_ok s -> ptable (k_mem s) (used s) r T ->
  0 <= va -> va mod PGSIZE = 0 -> 0 < size -> size mod PGSIZE = 0 -> va + size <= 2^32 ->
  0 <= pa -> pa + size <= 2^32 -> 0 <= perm < 1024 ->
  (forall x, 0 <= x < 2^32 -> vpn va <= vpn x < vpn va + size / PGSIZE ->
     has (leaf (k_mem s) T x) PTE_V = false) ->
  runs (mappages (idx2pa r) va size pa perm s)
    (map_post r s T (size / PGSIZE) va pa (Z.lor perm PTE_V)).
Proof.
  intros Hok Hpt Hva Hal Hsz Hszal Hend Hpa Hpend Hperm Hfree. unfold mappages.
  rewrite Hal, Hszal. simpl. replace (size =? 0) with false by lia.
  assert (Hn : exists n, size = Z.of_nat (S n) * PGSIZE).
  { exists (Z.to_nat (size / PGSIZE - 1)). unfold PGSIZE in *. zlia. }
  destruct Hn as [n ->].
  rewrite Z.div_mul in * by (unfold PGSIZE; lia). rewrite Nat2Z.id.
  replace (u32 (va + Z.of_nat (S n) * PGSIZE - PGSIZE)) with (va + Z.of_nat n * PGSIZE)
    by (unfold u32; rewrite Z.mod_small; unfold PGSIZE in *; lia).
  by apply mappages_loop_spec.
Qed.

(** Mapping over a page that is mapped already is refused. *)
Lemma mappages_remap s T r va size pa perm :
  alloc_ok s -> ptable (k_mem s) (used s) r T ->
  0 <= va < 2^32 -> va mod PGSIZE = 0 -> 0 < size -> size mod PGSIZE = 0 ->
  has (leaf (k_mem s) T va) PTE_V = true ->
  mappages (idx2pa r) va size pa perm s = Stop (Panicked "mappages: remap").
Proof.
  intros Hok Hpt Hva Hal Hsz Hszal Hv. unfold mappages. rewrite Hal, Hszal. simpl.
  replace (size =? 0) with false by lia.
  destruct (Z.to_nat (size / PGSIZE)) as [|n] eqn:En; [unfold PGSIZE in *; zlia|].
  rewrite mappages_loop_S. unfold leaf in Hv.
  pose proof Hpt as [[Hru Hrr] Hpde Hkid _].
  pose proof (PX_range 1 va) as Hx1. pose proof (PX_range 0 va) as Hx0.
  destruct (T (PX 1 va)) as [c|] eqn:ET; [|done].
  destruct (Hkid _ _ ET) as (_ & Hcr & _). specialize (Hpde _ Hx1). rewrite ET in Hpde.
  unfold walk, pte_addr, load_pte.
  replace (va >=? MAXVA) with false by (change MAXVA with (2^32); lia).
  rewrite idx2pa_u32 by done. unfold bind, gets, ret. cbn [rbind]. rewrite Hpde.
  destruct (idx2pa_pde c Hcr) as [-> ->]. rewrite idx2pa_u32 by done. cbn [rbind].
  destruct (Z.eqb_spec (idx2pa c + 4 * PX 0 va) 0) as [H0|_];
    [rewrite idx2pa_eq in H0 by done; unfold KERNBASE, PGSIZE in H0; lia|].
  by rewrite Hv.
Qed.

(** ** uvmunmap *)

(** The slot of [va], 0 without a level-0 table. *)
Definition slot (T : Z -> option Z) (va : Z) : Z :=
  match T (PX 1 va) with Some c => idx2pa c + 4 * PX 0 va | None => 0 end.

Lemma walk_noalloc s r T va :
  ptable (k_mem s) (used s) r T -> 0 <= va < 2^32 ->
  walk (idx2pa r) va false s = Ok (slot T va) s.
Proof.
  intros [[Hru Hrr] Hpde Hkid _] Hva.
  pose proof (PX_range 1 va) as Hx1. pose proof (PX_range 0 va) as Hx0.
  unfold walk, pte_addr, load_pte, slot.
  replace (va >=? MAXVA) with false by (change MAXVA with (2^32); lia).
  rewrite idx2pa_u32 by done. unfold bind, gets, ret. simpl. specialize (Hpde _ Hx1).
  destruct (T (PX 1 va)) as [c|] eqn:ET; rewrite Hpde; [|done].
  destruct (Hkid _ _ ET) as (_ & Hcr & _).
  destruct (idx2pa_pde c Hcr) as [-> ->]. by rewrite idx2pa_u32.
Qed.

Lemma slot_nonzero m u r T va c :
  ptable m u r T -> T (PX 1 va) = Some c ->
  slot T va = idx2pa c + 4 * PX 0 va /\ slot T va <> 0 /\
  load32 m (slot T va) = leaf m T va.
Proof.
  intros Hpt HT. destruct (pt_kid _ _ _ _ Hpt _ _ HT) as (_ & Hcr & _).
  pose proof (PX_range 0 va). unfold slot, leaf. rewrite HT. split; [done|].
  split; [|done]. rewrite idx2pa_eq by done. unfold KERNBASE, PGSIZE. lia.
Qed.

(** [va] translates to page [d]. *)
Definition maps (m : mem) (T : Z -> option Z) (va d : Z) : Prop :=
  has (leaf m T va) PTE_V = true /\ PTE2PA (leaf m T va) = idx2pa d /\ 0 <= d < NPAGES.

Definition in_range (a n va : Z) : Prop := vpn a <= vpn va < vpn a + n.
#[export] Instance in_range_dec a n va : Decision (in_range a n va).
Proof. unfold in_range. apply _. Defined.

(** The pages mapped in a range are data pages in use, each mapped once. *)
Definition frames_ok (s : kstate) (r : Z) (T : Z -> option Z) (a n : Z) : Prop :=
  (forall va, 0 <= va < 2^32 -> in_range a n va -> has (leaf (k_mem s) T va) PTE_V = true ->
     exists d, maps (k_mem s) T va d /\ used s d /\ ~ tabs r T d) /\
  (forall va va' d, 0 <= va < 2^32 -> 0 <= va' < 2^32 -> in_range a n va ->
     in_range a n va' -> maps (k_mem s) T va d -> maps (k_mem s) T va' d ->
     vpn va = vpn va').

Record unmap_post (s : kstate) (r : Z) (T : Z -> option Z) (a n : Z) (free : bool)
    (s' : kstate) : Prop := {
  um_ok : alloc_ok s';
  um_frame : aframe s s';
  um_pt : ptable (k_mem s') (used s') r T;
  um_kept : kept s s' (fun j => used s' j /\ ~ tabs r T j);
  um_leaf : forall va, 0 <= va < 2^32 -> leaf (k_mem s') T va =
    if decide (in_range a n va /\ has (leaf (k_mem s) T va) PTE_V = true) then 0
    else leaf (k_mem s) T va;
  um_mono : forall d, refs s' d <= refs s d;
  um_dropped : forall va d, 0 <= va < 2^32 -> in_range a n va ->
    maps (k_mem s) T va d -> refs s' d = if free then refs s d - 1 else refs s d;
  um_others : forall d, (forall va, 0 <= va < 2^32 -> in_range a n va ->
    ~ maps (k_mem s) T va d) -> refs s' d = refs s d;
}.

Lemma leaf_vpn m T va va' :
  0 <= va < 2^32 -> 0 <= va' < 2^32 -> vpn va' = vpn va -> leaf m T va' = leaf m T va.
Proof.
  intros H H' Hv. unfold leaf. destruct (proj2 (PX_vpn va va' H H') Hv) as [-> ->]. done.
Qed.

Lemma maps_leaf m m' T va d :
  leaf m' T va = leaf m T va -> maps m' T va d <-> maps m T va d.
Proof. unfold maps. by intros ->. Qed.

(** Nothing to unmap. *)
Lemma unmap_nop s r T a free :
  alloc_ok s -> ptable (k_mem s) (used s) r T -> 0 <= a < 2^32 ->
  has (leaf (k_mem s) T a) PTE_V = false -> unmap_post s r T a 1 free s.
Proof.
  intros Hok Hpt Ha Hv.
  assert (Hr : forall va, 0 <= va < 2^32 -> in_range a 1 va ->
    has (leaf (k_mem s) T va) PTE_V = false).
  { intros va Hva Hin. rewrite (leaf_vpn _ _ a va); [done|done|done|].
    unfold in_range in Hin. lia. }
  split; try done.
  - intros va Hva. case_decide as Hd; [|done]. destruct Hd as [Hin Hd].
    rewrite Hr in Hd by done. done.
  - intros va d Hva Hin [Hd _]. rewrite Hr in Hd by done. done.
Qed.

Lemma unmap_page_spec `{!LayoutOk L} s r T a (free : bool) :
  alloc_ok s -> ptable (k_mem s) (used s) r T -> 0 <= a < 2^32 ->
  frames_ok s r T a 1 ->
  runs (unmap_page (idx2pa r) a free s) (fun _ s' => unmap_post s r T a 1 free s').
Proof.
  intros Hok Hpt Ha [Hfr _]. unfold unmap_page.
  rewrite (bind_ok _ _ _ _ _ (walk_noalloc s r T a Hpt Ha)).
  destruct (T (PX 1 a)) as [c|] eqn:ET.
  2: { unfold slot. rewrite ET. simpl. apply unmap_nop; try done.
       unfold leaf. by rewrite ET. }
  destruct (slot_nonzero _ _ _ _ _ _ Hpt ET) as (Hs & Hs0 & Hsl).
  apply Z.eqb_neq in Hs0. rewrite Hs0. unfold load_pte, store_pte, upd_mem.
  apply runs_bind. cbn [runs gets]. rewrite Hsl.
  destruct (has (leaf (k_mem s) T a) PTE_V) eqn:Hv; cbn [negb].
  2: { simpl. by apply unmap_nop. }
  destruct (Hfr a) as (d & Hmap & Hdu & Hdt); [done|unfold in_range; lia|done|].
  pose proof Hmap as (_ & Hpa & Hdr). rewrite Hpa.
  assert (Hsame : forall va, 0 <= va < 2^32 -> in_range a 1 va ->
    leaf (k_mem s) T va = leaf (k_mem s) T a).
  { intros va Hva Hin. apply leaf_vpn; [done|done|]. unfold in_range in Hin. lia. }
  apply runs_bind.
  assert (Hfree : runs ((if free then kfree (idx2pa d) else ret tt) s) (fun _ s1 =>
    alloc_ok s1 /\ aframe s s1 /\ kept s s1 (used s1) /\
    forall j, refs s1 j = fupd (refs s) d (if free then refs s d - 1 else refs s d) j)).
  { destruct free; [by apply kfree_client|]. simpl. split; [done|]. split; [done|].
    split; [done|]. intros j. unfold fupd. case_decide; by subst. }
  eapply runs_mono; [exact Hfree|]. clear Hfree.
  intros _ s1 (Hok1 & Hf1 & Hk1 & Hr1).
  assert (Hu1 : forall j, j <> d -> (used s1 j <-> used s j))
    by (intros j Hj; unfold used; rewrite Hr1; unfold fupd; by case_decide).
  assert (Htabs : forall j, tabs r T j -> used s1 j).
  { intros j Hj. apply Hu1; [by intros ->|].
    destruct Hj as [->|[i Hi]]; [apply (pt_root _ _ _ _ Hpt)|].
    by destruct (pt_kid _ _ _ _ Hpt i j Hi) as (_&_&?&_). }
  destruct (ptable_ext (k_mem s) (k_mem s1) (used s) (used s1) r T) as [Hpt1 Hlf1];
    [done|done| |].
  { intros j x Hj Hx. by apply (Hk1 j x); [apply Htabs|]. }
  cbn [runs modify]. rewrite Hs.
  destruct (leaf_store s1 r T a c 0) as [Hst2 Hlf2]; [done|done|done|done|lia|].
  set (s2 := set_mem _ s1) in *.
  assert (Hr2 : forall j, refs s2 j = refs s1 j) by done.
  split.
  - apply (ps_ok _ _ _ _ _ Hst2).
  - etrans; [exact Hf1|]. apply (ps_frame _ _ _ _ _ Hst2).
  - apply (ps_pt _ _ _ _ _ Hst2).
  - intros j x [Hj Hjt] Hx. rewrite (ps_kept _ _ _ _ _ Hst2 j x); [|done|done].
    by apply (Hk1 j x).
  - intros va Hva. rewrite Hlf2, Hlf1 by done.
    destruct (decide (vpn va = vpn a)) as [Hd|Hd].
    + case_decide as Hd2; [done|]. destruct Hd2.
      assert (in_range a 1 va) by (unfold in_range; lia). by rewrite Hsame.
    + case_decide as Hd2; [|done]. destruct Hd2 as [Hin _]. unfold in_range in Hin. lia.
  - intros j. rewrite Hr2, Hr1. unfold fupd. case_decide; [subst; destruct free; lia|lia].
  - intros va d' Hva Hin Hm. rewrite Hr2, Hr1. unfold fupd.
    assert (d' = d) as ->.
    { destruct Hm as (_ & Hp & Hd'). rewrite Hsame, Hpa in Hp by done.
      by apply idx2pa_inj in Hp. }
    by case_decide.
  - intros d' Hno. rewrite Hr2, Hr1. unfold fupd. case_decide as Hd; [|done]. subst.
    destruct (Hno a); [done|unfold in_range; lia|done].
Qed.

(** Unmapping a page, then the pages after it. *)
Lemma unmap_post_trans s1 s2 s3 r T a n free :
  0 <= a -> a + PGSIZE < 2^32 -> 0 <= n ->
  frames_ok s1 r T a (n + 1) ->
  unmap_post s1 r T a 1 free s2 -> unmap_post s2 r T (a + PGSIZE) n free s3 ->
  unmap_post s1 r T a (n + 1) free s3.
Proof.
  intros Ha Ha2 Hn [Hf1 Hf2] [A1 A2 A3 A4 A5 A0 A6 A7] [B1 B2 B3 B4 B5 B0 B6 B7].
  assert (Hv : vpn (a + PGSIZE) = vpn a + 1) by (unfold vpn, PGSIZE; zlia).
  assert (Hin : forall va, in_range a (n + 1) va <->
    in_range a 1 va \/ in_range (a + PGSIZE) n va)
    by (intros va; unfold in_range; rewrite Hv; lia).
  assert (Hdisj : forall va, in_range (a + PGSIZE) n va -> ~ in_range a 1 va)
    by (intros va; unfold in_range; rewrite Hv; lia).
  assert (Hlate : forall va, 0 <= va < 2^32 -> in_range (a + PGSIZE) n va ->
    leaf (k_mem s2) T va = leaf (k_mem s1) T va).
  { intros va Hva Hr. rewrite A5 by done. case_decide as Hd; [|done].
    destruct Hd as [Hd _]. by destruct (Hdisj va Hr). }
  split; try done.
  - by etrans.
  - intros j x [Hj Ht] Hx. rewrite (B4 j x) by done. apply (A4 j x); [|done].
    split; [|done]. specialize (B0 j). unfold used in *. lia.
  - intros va Hva. rewrite B5 by done. pose proof (A5 va Hva) as HA.
    destruct (decide (in_range a 1 va /\ has (leaf (k_mem s1) T va) PTE_V = true)) as [Hd|Hd];
      rewrite HA.
    + rewrite decide_False by (intros [_ H0]; done).
      rewrite decide_True; [done|]. rewrite Hin. tauto.
    + case_decide as Hd2; case_decide as Hd3; try done; rewrite Hin in Hd3; tauto.
  - intros j. specialize (A0 j). specialize (B0 j). lia.
  - intros va d Hva Hr Hm. rewrite Hin in Hr. destruct Hr as [Hr|Hr].
    + rewrite <- (A6 va d) by done. apply B7. intros va' Hva' Hr' Hm'.
      rewrite maps_leaf in Hm' by (by apply Hlate).
      assert (vpn va = vpn va').
      { apply (Hf2 va va' d); try done; rewrite Hin; auto. }
      unfold in_range in *. lia.
    + rewrite (B6 va d); [|done|done|by rewrite maps_leaf by (by apply Hlate)].
      rewrite (A7 d); [done|]. intros va' Hva' Hr' Hm'.
      assert (vpn va = vpn va').
      { apply (Hf2 va va' d); try done; rewrite Hin; auto. }
      unfold in_range in *. lia.
  - intros d Hno. rewrite B7, A7; [done| |].
    + intros va Hva Hr. apply Hno; [done|]. rewrite Hin. by left.
    + intros va Hva Hr. rewrite maps_leaf by (by apply Hlate). apply Hno; [done|].
      rewrite Hin. by right.
Qed.

Lemma frames_ok_rest s1 s2 r T a n free :
  0 <= a -> 0 <= n -> frames_ok s1 r T a (n + 1) -> unmap_post s1 r T a 1 free s2 ->
  frames_ok s2 r T (a + PGSIZE) n.
Proof.
  intros Ha Hn [Hf1 Hf2] Hu.
  assert (Hv : vpn (a + PGSIZE) = vpn a + 1) by (unfold vpn, PGSIZE; zlia).
  assert (Hin : forall va, in_range (a + PGSIZE) n va -> in_range a (n + 1) va)
    by (intros va; unfold in_range; rewrite Hv; lia).
  assert (Hlate : forall va, 0 <= va < 2^32 -> in_range (a + PGSIZE) n va ->
    leaf (k_mem s2) T va = leaf (k_mem s1) T va).
  { intros va Hva Hr. rewrite (um_leaf _ _ _ _ _ _ _ Hu) by done.
    case_decide as Hd; [|done]. destruct Hd as [Hd _]. unfold in_range in *. lia. }
  split.
  - intros va Hva Hr Hval. rewrite Hlate in Hval by done.
    destruct (Hf1 va Hva (Hin va Hr) Hval) as (d & Hm & Hdu & Hdt). exists d.
    split; [by rewrite maps_leaf by (by apply Hlate)|]. split; [|done].
    unfold used. rewrite (um_others _ _ _ _ _ _ _ Hu d); [done|].
    intros va' Hva' Hr' Hm'. assert (vpn va = vpn va').
    { apply (Hf2 va va' d); try done; [auto|]. unfold in_range in *. lia. }
    unfold in_range in *. lia.
  - intros va va' d Hva Hva' Hr Hr' Hm Hm'.
    rewrite maps_leaf in Hm by (by apply Hlate).
    rewrite maps_leaf in Hm' by (by apply Hlate). apply (Hf2 va va' d); auto.
Qed.

Lemma uvmunmap_loop_spec `{!LayoutOk L} n : forall s r T a free,
  alloc_ok s -> ptable (k_mem s) (used s) r T ->
  0 <= a -> a + Z.of_nat n * PGSIZE <= 2^32 ->
  frames_ok s r T a (Z.of_nat n) ->
  runs (uvmunmap_loop n (idx2pa r) a free s) (fun _ s' =>
    unmap_post s r T a (Z.of_nat n) free s').
Proof.
  induction n as [|n IH]; intros s r T a free Hok Hpt Ha Hend Hf; cbn [uvmunmap_loop].
  { simpl. split; try done.
    - intros va Hva. case_decide as Hd; [|done]. destruct Hd as [Hd _].
      unfold in_range in Hd. lia.
    - intros va d Hva Hr. unfold in_range in Hr. lia. }
  replace (Z.of_nat (S n)) with (Z.of_nat n + 1) in * by lia.
  apply runs_bind. eapply runs_mono.
  { apply (unmap_page_spec s r T a free); [done|done|unfold PGSIZE in *; lia|].
    destruct Hf as [Hf1 Hf2]. split.
    - intros va Hva Hr. apply Hf1; [done|]. unfold in_range in *. lia.
    - intros va va' d Hva Hva' Hr Hr'. apply Hf2; [done|done|..]; unfold in_range in *; lia. }
  intros [] s1 Hu. destruct n as [|n].
  { simpl. by rewrite Z.add_0_l. }
  assert (Hw : u32 (a + PGSIZE) = a + PGSIZE)
    by (unfold u32; apply Z.mod_small; unfold PGSIZE in *; lia).
  rewrite Hw. eapply runs_mono.
  { apply (IH s1 r T (a + PGSIZE) free).
    - apply (um_ok _ _ _ _ _ _ _ Hu).
    - apply (um_pt _ _ _ _ _ _ _ Hu).
    - unfold PGSIZE. lia.
    - lia.
    - eapply frames_ok_rest; [done| |exact Hf|exact Hu]. lia. }
  intros [] s2 Hu2. eapply unmap_post_trans; try done; unfold PGSIZE in *; lia.
Qed.

Lemma uvmunmap_spec `{!LayoutOk L} s as_ r T va npages free :
  alloc_ok s -> as_.(pagetable) = idx2pa r -> ptable (k_mem s) (used s) r T ->
  0 <= va -> va mod PGSIZE = 0 -> 0 <= npages -> va + npages * PGSIZE <= 2^32 ->
  frames_ok s r T va npages ->
  runs (uvmunmap as_ va npages free s) (fun _ s' =>
    unmap_post s r T va npages free s').
Proof.
  intros Hok Has Hpt Hva Hal Hn Hend Hf. unfold uvmunmap. rewrite Has.
  pose proof (proj2 (pt_root _ _ _ _ Hpt)) as Hr.
  destruct (Z.eqb_spec (idx2pa r) 0); [by apply idx2pa_nonzero in Hr|].
  rewrite Hal. simpl.
  replace npages with (Z.of_nat (Z.to_nat npages)) in * by lia.
  rewrite Nat2Z.id. by apply uvmunmap_loop_spec.
Qed.

(** ** Results *)

(** C28: [mappages] makes the hardware translate exactly the pages of the range
    to consecutive frames with the given permissions and leaves every other
    translation alone; it fails only when RAM is exhausted, having mapped a
    prefix of the range.  Pages in use that are not part of the table keep
    their bytes, and the table stays a well-formed Sv32 tree. *)
Theorem mappages_correct (s : kstate) (T : Z -> option Z) (r va size pa perm : Z) :
  alloc_ok s -> ptable (k_mem s) (used s) r T ->
  0 <= va -> va mod PGSIZE = 0 -> 0 < size -> size mod PGSIZE = 0 -> va + size <= 2^32 ->
  0 <= pa -> pa + size <= 2^32 -> 0 <= perm < 1024 ->
  (forall x, 0 <= x < 2^32 -> va <= x < va + size ->
     has (hw_walk (k_mem s) (idx2pa r) x) PTE_V = false) ->
  runs (mappages (idx2pa r) va size pa perm s) (fun e s' => exists T' k,
    alloc_ok s' /\ ptable (k_mem s') (used s') r T' /\
    kept s s' (fun j => used s j /\ ~ tabs r T j) /\
    ((e = 0 /\ k = size / PGSIZE) \/ (e = -1 /\ 0 <= k < size / PGSIZE /\ exhausted s')) /\
    forall x, 0 <= x < 2^32 -> hw_walk (k_mem s') (idx2pa r) x =
      if decide (vpn va <= vpn x < vpn va + k)
      then mkpte (pa + (vpn x - vpn va) * PGSIZE) (Z.lor perm PTE_V)
      else hw_walk (k_mem s) (idx2pa r) x).
Proof.
  intros Hok Hpt Hva Hal Hsz Hszal Hend Hpa Hpend Hperm Hfree.
  eapply runs_mono.
  { apply (mappages_spec s T r va size pa perm); try done. intros x Hx Hv.
    rewrite <- (hw_walk_leaf _ _ _ _ _ Hpt). apply Hfree; [done|].
    unfold vpn, PGSIZE in *. zlia. }
  intros e s' (T' & k & Hst & Hk & He & Hl). exists T', k.
  split; [apply (ps_ok _ _ _ _ _ Hst)|]. split; [apply (ps_pt _ _ _ _ _ Hst)|].
  split; [apply (ps_kept _ _ _ _ _ Hst)|].
  split; [destruct He as [?|(? & ? & ?)]; auto with lia|]. intros x Hx.
  rewrite (hw_walk_leaf _ _ _ _ _ (ps_pt _ _ _ _ _ Hst)), (hw_walk_leaf _ _ _ _ _ Hpt).
  by rewrite Hl.
Qed.

(** C31: [uvmunmap] removes every translation of the range and no other, gives
    back one reference for each page it unmaps when asked to free and none
    otherwise, and changes no page still in use.  It returns normally also
    when part of the range is not mapped. *)
Theorem uvmunmap_correct `{!LayoutOk L} (s : kstate) (as_ : addr_space) (r : Z)
    (T : Z -> option Z) (va npages : Z) (free : bool) :
  alloc_ok s -> as_.(pagetable) = idx2pa r -> ptable (k_mem s) (used s) r T ->
  0 <= va -> va mod PGSIZE = 0 -> 0 <= npages -> va + npages * PGSIZE <= 2^32 ->
  frames_ok s r T va npages ->
  runs (uvmunmap as_ va npages free s) (fun _ s' =>
    alloc_ok s' /\ ptable (k_mem s') (used s') r T /\
    kept s s' (fun j => used s' j /\ ~ tabs r T j) /\
    (forall x, 0 <= x < 2^32 -> va <= x < va + npages * PGSIZE ->
       has (hw_walk (k_mem s') (idx2pa r) x) PTE_V = false) /\
    (forall x, 0 <= x < 2^32 -> ~ (va <= x < va + npages * PGSIZE) ->
       hw_walk (k_mem s') (idx2pa r) x = hw_walk (k_mem s) (idx2pa r) x) /\
    (forall x d, 0 <= x < 2^32 -> va <= x < va + npages * PGSIZE -> maps (k_mem s) T x d ->
       refs s' d = if free then refs s d - 1 else refs s d) /\
    (forall d, (forall x, 0 <= x < 2^32 -> va <= x < va + npages * PGSIZE ->
       ~ maps (k_mem s) T x d) -> refs s' d = refs s d)).
Proof.
  intros Hok Has Hpt Hva Hal Hn Hend Hf.
  assert (Hin : forall x, 0 <= x < 2^32 ->
    in_range va npages x <-> va <= x < va + npages * PGSIZE).
  { intros x Hx. unfold in_range, vpn, PGSIZE in *. zlia. }
  eapply runs_mono; [by apply (uvmunmap_spec s as_ r T)|]. intros [] s' H.
  pose proof (um_pt _ _ _ _ _ _ _ H) as Hpt'.
  split; [apply (um_ok _ _ _ _ _ _ _ H)|]. split; [done|].
  split; [apply (um_kept _ _ _ _ _ _ _ H)|].
  split; [|split; [|split]].
  - intros x Hx Hr. rewrite (hw_walk_leaf _ _ _ _ _ Hpt'), (um_leaf _ _ _ _ _ _ _ H) by done.
    case_decide as Hd; [done|]. destruct (has _ PTE_V) eqn:E; [|done].
    destruct Hd. by rewrite Hin.
  - intros x Hx Hr. rewrite !(hw_walk_leaf _ _ _ _ _ Hpt'), (um_leaf _ _ _ _ _ _ _ H) by done.
    rewrite (hw_walk_leaf _ _ _ _ _ Hpt). case_decide as Hd; [|done].
    destruct Hd as [Hd _]. by rewrite Hin in Hd.
  - intros x d Hx Hr Hm. apply (um_dropped _ _ _ _ _ _ _ H x); try done. by apply Hin.
  - intros d Hno. apply (um_others _ _ _ _ _ _ _ H). intros x Hx Hr. apply Hno; [done|].
    by apply Hin.
Qed.

(** Mapping over a page that is already mapped is refused: [mappages]
    panics before it changes anything. *)
Lemma mappages_refuses_remap (s : kstate) (T : Z -> option Z) (r va size pa perm : Z) :
  alloc_ok s -> ptable (k_mem s) (used s) r T ->
  0 <= va < 2^32 -> va mod PGSIZE = 0 -> 0 < size -> size mod PGSIZE = 0 ->
  has (hw_walk (k_mem s) (idx2pa r) va) PTE_V = true ->
  mappages (idx2pa r) va size pa perm s = Stop (Panicked "mappages: remap").
Proof.
  intros Hok Hpt Hva Hal Hsz Hszal Hv. rewrite (hw_walk_leaf _ _ _ _ _ Hpt) in Hv.
  by apply (mappages_remap s T r).
Qed.
End pages.
