(* ===== verification/UserMem.v ===== *)
(** * User memory: page faults and copies

    Copy-on-write and lazy allocation in [vmfault] and the copy routines of
    [addrspace.c], stated on the bytes an address space can read. *)

From S2P Require Import Prelude CMem Machine Sv32 Spinlock Kalloc KallocProof.
From S2P Require Import KallocSpec Sched AddrSpace Regions PageTable.

#[local] Opaque memset.

(** ** The current process *)

Lemma myproc_eq s :
  cpu_ok s -> exists i, scratch s i /\ myproc s =
    Ok (c_proc (k_cpu s)) (set_cpu (mkCpu (c_proc (k_cpu s)) (c_noff (k_cpu s)) i) s).
Proof.
  intros Hok. unfold myproc, mycpu. rewrite (bind_ok _ _ _ _ _ (push_off_eq s)).
  unfold bind at 1, gets. cbn [rbind].
  destruct (pop_off_eq s (off_state s) Hok eq_refl eq_refl) as (i & Hsc & Hi).
  exists i. split; [done|]. rewrite (bind_ok _ _ _ _ _ Hi). unfold ret. simpl. f_equal.
Qed.

Lemma aframe_intena s i :
  scratch s i -> aframe s (set_cpu (mkCpu (c_proc (k_cpu s)) (c_noff (k_cpu s)) i) s).
Proof.
  exists (k_kmem s), (k_mem s), i. split; [done|]. by destruct s as [[] ? ? ? ? ?].
Qed.

(** [aframe] keeps the process table, and what the processor runs. *)
Lemma aframe_procs s s' :
  aframe s s' -> k_procs s' = k_procs s /\ c_proc (k_cpu s') = c_proc (k_cpu s) /\
    c_noff (k_cpu s') = c_noff (k_cpu s) /\ k_csr s' = k_csr s /\ k_locks s' = k_locks s.
Proof. by intros (k & m & i & _ & ->). Qed.

(** A state that differs only in the scratch field. *)
Definition intena_only (s s' : kstate) : Prop :=
  exists i, scratch s i /\ s' = set_cpu (mkCpu (c_proc (k_cpu s)) (c_noff (k_cpu s)) i) s.

Lemma runs_curproc s p Q :
  cpu_ok s -> c_proc (k_cpu s) = Some p ->
  (forall s', intena_only s s' -> Q p s') -> runs (curproc s) Q.
Proof.
  intros Hok Hp HQ. unfold curproc. destruct (myproc_eq s Hok) as (i & Hsc & Hi).
  rewrite (bind_ok _ _ _ _ _ Hi), Hp. simpl. apply HQ. exists i. by rewrite Hp.
Qed.

Lemma runs_get_proc s p pr Q :
  k_procs s !! Z.to_nat p = Some pr -> 0 <= p -> Q pr s -> runs (get_proc p s) Q.
Proof.
  intros Hl Hp HQ. unfold get_proc, get_elt. replace (0 <=? p) with true by lia.
  by rewrite Hl.
Qed.

(** ** The invariant of a user address space *)

Section umem.
Context `{L : Layout}.

(** A present page that the user or the kernel may write, or the user read. *)
Definition userish (m : mem) (T : Z -> option Z) (va : Z) : Prop :=
  let v := leaf m T va in
  has v PTE_V = true /\ has v PTE_W || has v PTE_U || has v PTE_COW = true.

(** What the kernel maintains of a process's table: such pages are distinct
    data pages in use, and a writable page has no other reference. *)
Record uinv (s : kstate) (r : Z) (T : Z -> option Z) : Prop := {
  ui_alloc : alloc_ok s;
  ui_pt : ptable (k_mem s) (used s) r T;
  ui_frame : forall va, 0 <= va < 2^32 -> userish (k_mem s) T va ->
    exists d, maps (k_mem s) T va d /\ used s d /\ ~ tabs r T d;
  ui_inj : forall va va' d, 0 <= va < 2^32 -> 0 <= va' < 2^32 ->
    userish (k_mem s) T va -> userish (k_mem s) T va' ->
    maps (k_mem s) T va d -> maps (k_mem s) T va' d -> vpn va' = vpn va;
  ui_excl : forall va d, 0 <= va < 2^32 ->
    maps (k_mem s) T va d -> has (leaf (k_mem s) T va) PTE_W = true -> refs s d = 1;
}.

(** The byte found at [va]: by a user instruction, which needs [PTE_U], or by
    the kernel on behalf of the process. *)
Definition peek (user : bool) (m : mem) (T : Z -> option Z) (va : Z) : option Z :=
  let v := leaf m T va in
  if has v PTE_V && (has v PTE_U || negb user && (has v PTE_W || has v PTE_COW))
  then Some (load8 m (PTE2PA v + va mod PGSIZE)) else None.

Lemma peek_userish u m T va b : peek u m T va = Some b ->
  userish m T va /\ b = load8 m (PTE2PA (leaf m T va) + va mod PGSIZE).
Proof.
  unfold peek, userish. intros H.
  destruct (has (leaf m T va) PTE_V), (has (leaf m T va) PTE_U), (has (leaf m T va) PTE_W),
    (has (leaf m T va) PTE_COW), u; simpl in *; simplify_eq; done.
Qed.

Lemma uinv_intena s s' r T : intena_only s s' -> uinv s r T -> uinv s' r T.
Proof. intros (i & _ & ->) [H1 H2 H3 H4 H5]. by split. Qed.

(** Flags of an entry, in terms of its ten low bits. *)
Lemma has_flags v k : 0 <= k < 10 -> has (PTE_FLAGS v) (Z.shiftl 1 k) = has v (Z.shiftl 1 k).
Proof.
  intros Hk. rewrite !has_testbit by lia. rewrite PTE_FLAGS_eq.
  change 1024 with (2^10). by rewrite Z.mod_pow2_bits_low by lia.
Qed.

(** The flags [vmfault] gives the private copy. *)
Definition cow_flags (v : Z) : Z :=
  Z.land (Z.lor (PTE_FLAGS v) PTE_W) (u32 (Z.lnot PTE_COW)).

Lemma testbit_not_cow k :
  0 <= k < 32 -> Z.testbit (u32 (Z.lnot PTE_COW)) k = negb (k =? 8).
Proof.
  intros Hk. change (u32 (Z.lnot PTE_COW)) with (Z.ldiff (Z.ones 32) (2^8)).
  rewrite Z.ldiff_spec, Z.testbit_ones_nonneg, Z.pow2_bits_eqb by lia.
  replace (k <? 32) with true by lia. simpl. by rewrite Z.eqb_sym.
Qed.

Lemma cow_flags_testbit v k :
  0 <= k < 10 ->
  Z.testbit (cow_flags v) k = if k =? 8 then false else if k =? 2 then true else Z.testbit v k.
Proof.
  intros Hk. unfold cow_flags. rewrite Z.land_spec, Z.lor_spec, testbit_not_cow by lia.
  rewrite PTE_FLAGS_eq. change 1024 with (2^10). rewrite Z.mod_pow2_bits_low by lia.
  unfold PTE_W. rewrite Z.shiftl_1_l, Z.pow2_bits_eqb by lia. rewrite (Z.eqb_sym 2 k).
  destruct (k =? 8), (k =? 2), (Z.testbit v k); done.
Qed.

Lemma cow_flags_range v : 0 <= cow_flags v < 1024.
Proof.
  assert (0 <= PTE_FLAGS v < 1024) by (rewrite PTE_FLAGS_eq; apply Z.mod_pos_bound; lia).
  assert (Hl : 0 <= Z.lor (PTE_FLAGS v) PTE_W < 1024) by (by apply lor_flag).
  unfold cow_flags. split; [apply Z.land_nonneg; lia|].
  destruct (Z.eq_dec (Z.land (Z.lor (PTE_FLAGS v) PTE_W) (u32 (Z.lnot PTE_COW))) 0)
    as [->|Hne]; [lia|].
  assert (0 <= Z.land (Z.lor (PTE_FLAGS v) PTE_W) (u32 (Z.lnot PTE_COW)))
    by (apply Z.land_nonneg; lia).
  change 1024 with (2^10). apply Z.log2_lt_pow2; [lia|].
  eapply Z.le_lt_trans; [apply Z.log2_land; [lia|done]|].
  eapply Z.le_lt_trans; [apply Z.le_min_l|].
  destruct (Z.eq_dec (Z.lor (PTE_FLAGS v) PTE_W) 0) as [->|]; [done|].
  apply Z.log2_lt_pow2; [lia|]. change (2^10) with 1024. lia.
Qed.

Lemma cow_flags_has v :
  has (cow_flags v) PTE_W = true /\ has (cow_flags v) PTE_COW = false /\
  has (cow_flags v) PTE_V = has v PTE_V /\ has (cow_flags v) PTE_U = has v PTE_U.
Proof.
  unfold PTE_W, PTE_COW, PTE_V, PTE_U.
  rewrite !has_testbit, !cow_flags_testbit by lia. done.
Qed.

(** Pages with equal translations agree on everything. *)
Lemma userish_leaf m m' T T' va :
  leaf m' T' va = leaf m T va -> userish m' T' va <-> userish m T va.
Proof. unfold userish. by intros ->. Qed.

Lemma maps_eq m m' T T' va d :
  leaf m' T' va = leaf m T va -> maps m' T' va d <-> maps m T va d.
Proof. unfold maps. by intros ->. Qed.

Lemma maps_fun m T va d d' : maps m T va d -> maps m T va d' -> d = d'.
Proof. intros (_ & H1 & Hd) (_ & H2 & Hd'). apply idx2pa_inj; congruence. Qed.

Lemma tabs_used m (u : Z -> Prop) r T j : ptable m u r T -> tabs r T j -> u j /\ 0 <= j < NPAGES.
Proof.
  intros Hpt [->|[i Hi]]; [by apply (pt_root _ _ _ _ Hpt)|].
  by destruct (pt_kid _ _ _ _ Hpt i j Hi) as (_&?&?&_).
Qed.

(** ** Changing the frame behind one page *)

Lemma PTE2PA_page n f :
  0 <= n < NPAGES -> 0 <= f < 1024 -> PTE2PA (mkpte (idx2pa n) f) = idx2pa n.
Proof.
  intros Hn Hf. rewrite PTE2PA_mkpte by (try done; by apply idx2pa_range).
  rewrite idx2pa_eq by done. unfold KERNBASE, PGSIZE. zlia.
Qed.

(** [s'] has page [n] in place of [d] behind [va]; the new entry has flags [f]. *)
Lemma uinv_replace s r T s' va d n f :
  uinv s r T -> 0 <= va < 2^32 -> userish (k_mem s) T va -> maps (k_mem s) T va d ->
  alloc_ok s' -> ptable (k_mem s') (used s') r T ->
  0 <= n < NPAGES -> refs s n = 0 -> 0 <= f < 1024 -> has f PTE_V = true ->
  (forall j, refs s' j = fupd (fupd (refs s) n 1) d (refs s d - 1) j) ->
  (forall va', 0 <= va' < 2^32 -> leaf (k_mem s') T va' =
    if decide (vpn va' = vpn va) then mkpte (idx2pa n) f else leaf (k_mem s) T va') ->
  uinv s' r T.
Proof.
  intros [H1 H2 H3 H4 H5] Hva Hus Hmap Hok' Hpt' Hn Hn0 Hf Hfv Hr Hlf.
  destruct (H3 va Hva Hus) as (d0 & Hm0 & Hdu & Hdt).
  rewrite (maps_fun _ _ _ _ _ Hm0 Hmap) in *. clear d0 Hm0.
  assert (Hdn : d <> n) by (intros ->; unfold used in Hdu; lia).
  pose proof (idx2pa_range n Hn) as Hnr.
  assert (Hpa : PTE2PA (mkpte (idx2pa n) f) = idx2pa n).
  { rewrite PTE2PA_mkpte by done. rewrite idx2pa_eq by done. unfold KERNBASE, PGSIZE. zlia. }
  assert (Hmn : forall va' e, 0 <= va' < 2^32 -> vpn va' = vpn va ->
    maps (k_mem s') T va' e <-> e = n).
  { intros va' e Hva' Hv. unfold maps. rewrite Hlf by done. case_decide; [|done].
    unfold PTE_V in *. rewrite has_mkpte, Hpa by (done || lia). split.
    - intros (_ & He & He'). by apply idx2pa_inj.
    - intros ->. done. }
  assert (Hother : forall va' e, 0 <= va' < 2^32 -> vpn va' <> vpn va ->
    userish (k_mem s) T va' -> maps (k_mem s) T va' e -> e <> n /\ e <> d /\ refs s' e = refs s e).
  { intros va' e Hva' Hne Hu' Hm'. destruct (H3 va' Hva' Hu') as (e0 & Hm0 & Heu & _).
    rewrite (maps_fun _ _ _ _ _ Hm0 Hm') in *.
    assert (e <> d) by (intros ->; apply Hne, (H4 va va' d); done).
    assert (e <> n) by (intros ->; unfold used in Heu; lia).
    split; [done|]. split; [done|]. rewrite Hr. unfold fupd. by repeat case_decide. }
  assert (Hlo : forall va', 0 <= va' < 2^32 -> vpn va' <> vpn va ->
    leaf (k_mem s') T va' = leaf (k_mem s) T va')
    by (intros va' Hva' Hne; rewrite Hlf by done; by case_decide).
  split; try done.
  - intros va' Hva' Hu'. destruct (decide (vpn va' = vpn va)) as [Hv|Hv].
    + exists n. split; [by apply Hmn|]. split.
      * unfold used. rewrite Hr. unfold fupd. by repeat case_decide.
      * intros Ht. destruct (tabs_used _ _ _ _ _ H2 Ht) as [Hu _]. unfold used in Hu. lia.
    + rewrite (userish_leaf (k_mem s) _ T) in Hu' by (by apply Hlo).
      destruct (H3 va' Hva' Hu') as (e & Hm & He & Het). exists e.
      split; [by rewrite (maps_eq (k_mem s) _ T) by (by apply Hlo)|]. split; [|done].
      destruct (Hother va' e) as (_ & _ & Hre); try done. unfold used. by rewrite Hre.
  - intros va1 va2 e Hv1 Hv2 Hu1 Hu2 Hm1 Hm2.
    destruct (decide (vpn va1 = vpn va)) as [E1|E1], (decide (vpn va2 = vpn va)) as [E2|E2].
    + congruence.
    + apply Hmn in Hm1; [|done|done]. subst e.
      rewrite (userish_leaf (k_mem s) _ T) in Hu2 by (by apply Hlo).
      rewrite (maps_eq (k_mem s) _ T) in Hm2 by (by apply Hlo).
      by destruct (Hother va2 n) as (? & _).
    + apply Hmn in Hm2; [|done|done]. subst e.
      rewrite (userish_leaf (k_mem s) _ T) in Hu1 by (by apply Hlo).
      rewrite (maps_eq (k_mem s) _ T) in Hm1 by (by apply Hlo).
      by destruct (Hother va1 n) as (? & _).
    + rewrite (userish_leaf (k_mem s) _ T) in Hu1, Hu2 by (by apply Hlo).
      rewrite (maps_eq (k_mem s) _ T) in Hm1, Hm2 by (by apply Hlo).
      by apply (H4 va1 va2 e).
  - intros va' e Hva' Hm' Hw. destruct (decide (vpn va' = vpn va)) as [Hv|Hv].
    + apply Hmn in Hm'; [|done|done]. subst e. rewrite Hr. unfold fupd.
      by repeat case_decide.
    + rewrite (maps_eq (k_mem s) _ T) in Hm' by (by apply Hlo). rewrite Hlo in Hw by done.
      assert (Hu' : userish (k_mem s) T va').
      { split; [apply Hm'|]. by rewrite Hw. }
      destruct (Hother va' e) as (_ & _ & ->); try done. by apply (H5 va').
Qed.

(** ** Breaking copy-on-write sharing *)

(** A page that another address space may refer to: it is not part of the
    table, and this space does not map it or shares it. *)
Definition safe (r : Z) (s : kstate) (T : Z -> option Z) (j : Z) : Prop :=
  used s j /\ ~ tabs r T j /\
  ((forall x, 0 <= x < 2^32 -> userish (k_mem s) T x -> ~ maps (k_mem s) T x j) \/
   2 <= refs s j).

(** What a fault handler may do to a space: nothing another address space can
    see, and nothing the user of this one can see except new pages. *)
Record quiet (r : Z) (s : kstate) (T : Z -> option Z) (s' : kstate)
    (T' : Z -> option Z) : Prop := {
  q_inv : uinv s' r T';
  q_frame : aframe s s';
  q_ext : forall i c, T i = Some c -> T' i = Some c;
  q_peek : forall u va b, 0 <= va < 2^32 ->
    peek u (k_mem s) T va = Some b -> peek u (k_mem s') T' va = Some b;
  q_safe : forall j, safe r s T j ->
    safe r s' T' j /\ forall a, page_addr j a -> load8 (k_mem s') a = load8 (k_mem s) a;
}.

Lemma safe_intro r s T s' T' :
  kept s s' (fun j => used s j /\ used s' j /\ ~ tabs r T j) ->
  (forall i c, T' i = Some c -> T i = Some c \/ refs s c = 0) ->
  (forall x e, 0 <= x < 2^32 -> userish (k_mem s') T' x -> maps (k_mem s') T' x e ->
     used s e -> userish (k_mem s) T x /\ maps (k_mem s) T x e) ->
  (forall j, used s j -> refs s' j = refs s j \/
     (refs s' j = refs s j - 1 /\
      (exists x, 0 <= x < 2^32 /\ userish (k_mem s) T x /\ maps (k_mem s) T x j) /\
      forall x, 0 <= x < 2^32 -> userish (k_mem s') T' x -> ~ maps (k_mem s') T' x j)) ->
  forall j, safe r s T j ->
    safe r s' T' j /\ forall a, page_addr j a -> load8 (k_mem s') a = load8 (k_mem s) a.
Proof.
  intros Hk Ht Hm Hr j (Hj & Hjt & Hjs).
  assert (Hjt' : ~ tabs r T' j).
  { intros [->|[i Hi]]; [apply Hjt; by left|].
    destruct (Ht i j Hi) as [H|H]; [apply Hjt; right; eauto|unfold used in Hj; lia]. }
  assert (Hj' : used s' j /\ ((forall x, 0 <= x < 2^32 -> userish (k_mem s') T' x ->
    ~ maps (k_mem s') T' x j) \/ 2 <= refs s' j)).
  { destruct (Hr j Hj) as [He|(He & (x & Hx & Hxu & Hxm) & Hno)].
    - unfold used. rewrite He. split; [done|]. destruct Hjs as [Hno|Hsh]; [left|by right].
      intros x Hx Hu Hmx. destruct (Hm x j) as [Hu' Hm']; try done. by apply (Hno x).
    - destruct Hjs as [Hno'|Hsh]; [by destruct (Hno' x)|]. unfold used.
      split; [lia|]. by left. }
  destruct Hj' as [Hju Hjs']. split; [done|]. intros a Ha. by apply (Hk j a).
Qed.

Lemma quiet_trans r s1 T1 s2 T2 s3 T3 :
  uinv s1 r T1 -> quiet r s1 T1 s2 T2 -> quiet r s2 T2 s3 T3 -> quiet r s1 T1 s3 T3.
Proof.
  intros Hi H12 H23. pose proof (q_inv _ _ _ _ _ H12) as Hi2.
  split.
  - apply (q_inv _ _ _ _ _ H23).
  - etrans; [apply (q_frame _ _ _ _ _ H12)|apply (q_frame _ _ _ _ _ H23)].
  - intros i c Hc. by apply (q_ext _ _ _ _ _ H23), (q_ext _ _ _ _ _ H12).
  - intros u x b Hx Hp. by apply (q_peek _ _ _ _ _ H23), (q_peek _ _ _ _ _ H12).
  - intros j Hj. destruct (q_safe _ _ _ _ _ H12 j Hj) as [Hj2 Hb2].
    destruct (q_safe _ _ _ _ _ H23 j Hj2) as [Hj3 Hb3]. split; [done|].
    intros a Ha. by rewrite Hb3, Hb2.
Qed.

Lemma quiet_refl r s T : uinv s r T -> quiet r s T s T.
Proof. intros H. by split. Qed.

Lemma quiet_intena r s T s' : uinv s r T -> intena_only s s' -> quiet r s T s' T.
Proof.
  intros Hi Hs. pose proof (uinv_intena _ _ _ _ Hs Hi) as Hi'. destruct Hs as (i & Hsc & ->).
  split; try done. by apply aframe_intena.
Qed.

(** Copying page [d] into page [n]. *)
Lemma page_copied m n d j a :
  0 <= n < NPAGES -> 0 <= d < NPAGES -> 0 <= j < NPAGES -> page_addr j a ->
  load8 (memmove m (idx2pa n) (idx2pa d) PGSIZE) a =
  if decide (j = n) then load8 m (a - idx2pa n + idx2pa d) else load8 m a.
Proof.
  intros Hn Hd Hj Ha. rewrite memmove_load by done. unfold page_addr in Ha.
  destruct (decide (j = n)) as [->|Hne].
  - case_decide; [done|lia].
  - case_decide as Hin; [|done]. destruct Hne. by apply (page_addr_inj j n a).
Qed.

(** What [va] reads depends on its entry and the bytes of its page. *)
Lemma peek_same u s r T s' T' x b :
  uinv s r T -> 0 <= x < 2^32 -> peek u (k_mem s) T x = Some b ->
  leaf (k_mem s') T' x = leaf (k_mem s) T x ->
  (forall e a, maps (k_mem s) T x e -> used s e -> ~ tabs r T e -> page_addr e a ->
     load8 (k_mem s') a = load8 (k_mem s) a) ->
  peek u (k_mem s') T' x = Some b.
Proof.
  intros Hinv Hx Hp Hl Hm. pose proof (peek_userish _ _ _ _ _ Hp) as [Hus ->].
  destruct (ui_frame _ _ _ Hinv x Hx Hus) as (e & He & Heu & Het).
  pose proof He as (_ & Hpa & _). rewrite Hpa in *.
  revert Hp. unfold peek. rewrite Hl, Hpa. case_match; [|done]. intros _. f_equal.
  apply (Hm e); try done. unfold page_addr, PGSIZE. zlia.
Qed.

(** The translation kept, pages in use kept: the invariant is kept. *)
Lemma uinv_same s r T s' T' :
  uinv s r T -> alloc_ok s' -> ptable (k_mem s') (used s') r T' ->
  (forall i c, T' i = Some c -> T i = Some c \/ refs s c = 0) ->
  (forall j, used s j -> refs s' j = refs s j) ->
  (forall x, 0 <= x < 2^32 -> leaf (k_mem s') T' x = leaf (k_mem s) T x) ->
  uinv s' r T'.
Proof.
  intros [H1 H2 H3 H4 H5] Hok' Hpt' Hnew Hr Hl.
  assert (Hnt : forall j, used s j -> ~ tabs r T j -> ~ tabs r T' j).
  { intros j Hj Ht [->|[i Hi]]; [apply Ht; by left|].
    destruct (Hnew i j Hi) as [H|H]; [apply Ht; right; eauto|unfold used in Hj; lia]. }
  split; try done.
  - intros x Hx Hu. rewrite (userish_leaf (k_mem s) _ T) in Hu by auto.
    destruct (H3 x Hx Hu) as (e & Hm & He & Het). exists e.
    rewrite (maps_eq (k_mem s) _ T) by auto. split; [done|]. split; [|auto].
    unfold used. by rewrite Hr.
  - intros x y e Hx Hy Hux Huy Hmx Hmy.
    rewrite (userish_leaf (k_mem s) _ T) in Hux by auto.
    rewrite (userish_leaf (k_mem s) _ T) in Huy by auto.
    rewrite (maps_eq (k_mem s) _ T) in Hmx by auto.
    rewrite (maps_eq (k_mem s) _ T) in Hmy by auto. by apply (H4 x y e).
  - intros x e Hx Hmx Hw. rewrite (maps_eq (k_mem s) _ T) in Hmx by auto.
    rewrite Hl in Hw by done.
    destruct (H3 x Hx) as (e0 & Hm0 & He0 & _); [split; [apply Hmx|by rewrite Hw]|].
    rewrite (maps_fun _ _ _ _ _ Hm0 Hmx) in *. rewrite Hr by done. by apply (H5 x).
Qed.

(** The translation kept, pages in use kept: safe pages stay safe. *)
Lemma safe_same r s T s' T' :
  (forall i c, T' i = Some c -> T i = Some c \/ refs s c = 0) ->
  (forall j, used s j -> refs s' j = refs s j) ->
  (forall x, 0 <= x < 2^32 -> leaf (k_mem s') T' x = leaf (k_mem s) T x) ->
  kept s s' (fun j => used s j /\ ~ tabs r T j) ->
  forall j, safe r s T j ->
    safe r s' T' j /\ forall a, page_addr j a -> load8 (k_mem s') a = load8 (k_mem s) a.
Proof.
  intros Hnew Hr Hl Hk. apply safe_intro; [|done| |].
  - intros j a (Hj & _ & Ht) Ha. by apply (Hk j a).
  - intros x e Hx Hu Hm _. rewrite (userish_leaf (k_mem s) _ T) in Hu by auto.
    by rewrite (maps_eq (k_mem s) _ T) in Hm by auto.
  - intros j Hj. left. auto.
Qed.

(** The allocator out of memory: the space is as it was. *)
Lemma oom_quiet s s1 r T :
  uinv s r T -> alloc_ok s1 -> aframe s s1 -> kept s s1 (used s) ->
  (forall j, refs s1 j = refs s j) ->
  quiet r s T s1 T /\ forall x, leaf (k_mem s1) T x = leaf (k_mem s) T x.
Proof.
  intros Hinv Hok1 Hf1 Hk1 Hr. pose proof (ui_pt _ _ _ Hinv) as Hpt.
  assert (Hmono : forall j, used s j <-> used s1 j) by (intros j; unfold used; by rewrite Hr).
  destruct (ptable_ext (k_mem s) (k_mem s1) (used s) (used s1) r T) as [Hpt1 Hl1]; [done| | |].
  { intros j Hj. apply Hmono. by apply (tabs_used _ _ _ _ _ Hpt). }
  { intros j a Hj. apply (Hk1 j a). by apply (tabs_used _ _ _ _ _ Hpt). }
  split; [|done]. split; try done.
  - eapply uinv_same; try done. by left.
  - intros u x b Hx Hp. eapply peek_same; try done. intros e a _ He _. by apply Hk1.
  - apply safe_same; try done; [by left|]. intros j a [Hj _] Ha. by apply (Hk1 j a).
Qed.

(** The private copy can be read whenever the shared page could. *)
Lemma peek_flags v u n :
  has v PTE_V && (has v PTE_U || negb u && (has v PTE_W || has v PTE_COW)) = true ->
  0 <= n < NPAGES -> let w := mkpte (idx2pa n) (cow_flags v) in
  has w PTE_V && (has w PTE_U || negb u && (has w PTE_W || has w PTE_COW)) = true.
Proof.
  intros H Hn. destruct (cow_flags_has v) as (Hw & Hc & HV & HU).
  pose proof (idx2pa_range n Hn). pose proof (cow_flags_range v).
  unfold PTE_V, PTE_U, PTE_W, PTE_COW in *. cbv zeta.
  rewrite !has_mkpte, HV, HU, Hw by (done || lia).
  destruct (has v (Z.shiftl 1 0)), (has v (Z.shiftl 1 4)), u; done.
Qed.

(** The branch of [cow_break] that has a page [n]: copy, remap, release [d]. *)
Lemma cow_break_rest `{!LayoutOk L} s r T va s1 c d n :
  uinv s r T -> 0 <= va < 2^32 -> T (PX 1 va) = Some c ->
  userish (k_mem s) T va -> maps (k_mem s) T va d ->
  alloc_ok s1 -> aframe s s1 -> kept s s1 (used s) ->
  ptable (k_mem s1) (used s1) r T -> (forall x, leaf (k_mem s1) T x = leaf (k_mem s) T x) ->
  0 <= n < NPAGES -> refs s n = 0 -> (forall j, refs s1 j = fupd (refs s) n 1 j) ->
  runs ((upd_mem (fun m => memmove m (idx2pa n) (idx2pa d) PGSIZE) ;;
         store_pte (slot T va) (mkpte (idx2pa n) (cow_flags (leaf (k_mem s) T va))) ;;
         kfree (idx2pa d) ;; ret (idx2pa n)) s1)
    (fun p s' => quiet r s T s' T /\ p = idx2pa n /\
       forall x, 0 <= x < 2^32 -> leaf (k_mem s') T x =
         if decide (vpn x = vpn va) then mkpte (idx2pa n) (cow_flags (leaf (k_mem s) T va))
         else leaf (k_mem s) T x).
Proof.
  intros Hinv Hva ET Hus Hmap Hok1 Hf1 Hk1 Hpt1 Hl1 Hn Hn0 Hr1.
  pose proof Hinv as [Hok Hpt Hfr Hinj Hexc].
  destruct (Hfr va Hva Hus) as (d0 & Hm0 & Hdu & Hdt).
  rewrite (maps_fun _ _ _ _ _ Hm0 Hmap) in *. clear d0 Hm0.
  pose proof Hmap as (_ & _ & Hdr).
  set (v := leaf (k_mem s) T va) in *. set (w := mkpte (idx2pa n) (cow_flags v)) in *.
  assert (Hdn : d <> n) by (intros ->; unfold used in Hdu; lia).
  assert (Hnt : ~ tabs r T n).
  { intros Ht. destruct (tabs_used _ _ _ _ _ Hpt Ht) as [Hu _]. unfold used in Hu. lia. }
  assert (Hu1 : forall j, used s1 j <-> used s j \/ j = n).
  { intros j. unfold used. rewrite Hr1. unfold fupd. case_decide; [subst; lia|tauto]. }
  apply runs_bind. unfold upd_mem at 1. cbn [runs modify].
  set (s2 := set_mem _ s1).
  assert (Hm2 : forall j a, 0 <= j < NPAGES -> page_addr j a -> load8 (k_mem s2) a =
    if decide (j = n) then load8 (k_mem s1) (a - idx2pa n + idx2pa d)
    else load8 (k_mem s1) a) by (intros; by apply page_copied).
  assert (Hok2 : alloc_ok s2).
  { apply alloc_ok_mem; [done|]. intros j a H0 Hj Ha. change (memmove _ _ _ _) with (k_mem s2).
    rewrite (Hm2 j a) by done. case_decide as Hd; [|done]. subst.
    rewrite Hr1 in H0. unfold fupd in H0. by case_decide. }
  destruct (ptable_ext (k_mem s1) (k_mem s2) (used s1) (used s2) r T) as [Hpt2 Hl2];
    [done|intros j Hj; by apply (tabs_used _ _ _ _ _ Hpt1)| |].
  { intros j a Hj Ha. destruct (tabs_used _ _ _ _ _ Hpt1 Hj) as [_ Hjr].
    rewrite (Hm2 j a) by done. case_decide as Hd; [|done]. by subst. }
  apply runs_bind. unfold store_pte, upd_mem. cbn [runs modify].
  destruct (slot_nonzero _ _ _ _ _ _ Hpt ET) as (-> & _ & _).
  destruct (leaf_store s2 r T va c w) as [Hst3 Hl3]; [done|done|done|done| |].
  { apply mkpte_range; [by apply idx2pa_range|apply cow_flags_range]. }
  set (s3 := set_mem _ s2) in *.
  assert (Hr3 : forall j, refs s3 j = refs s1 j) by done.
  assert (Hd3 : used s3 d) by (apply (Hu1 d); by left).
  apply runs_bind. eapply runs_mono.
  { apply (kfree_client s3 d); [apply (ps_ok _ _ _ _ _ Hst3)|done]. }
  intros [] s4 (Hok4 & Hf4 & Hk4 & Hr4).
  assert (Hrd : refs s1 d = refs s d) by (rewrite Hr1; unfold fupd; by case_decide).
  assert (Hr : forall j, refs s4 j = fupd (fupd (refs s) n 1) d (refs s d - 1) j).
  { intros j. rewrite Hr4, !Hr3. unfold fupd. rewrite Hr3, !Hr1.
    unfold fupd. repeat case_decide; subst; try done. }
  assert (Ht4 : forall j, tabs r T j -> used s4 j).
  { intros j Hj. destruct (tabs_used _ _ _ _ _ Hpt Hj) as [Hu _]. unfold used in *.
    rewrite Hr. unfold fupd. repeat case_decide; subst; try done. }
  destruct (ptable_ext (k_mem s3) (k_mem s4) (used s3) (used s4) r T) as [Hpt4 Hl4];
    [apply (ps_pt _ _ _ _ _ Hst3)|done| |].
  { intros j a Hj Ha. by apply (Hk4 j a); [apply Ht4|]. }
  assert (Hlf : forall x, 0 <= x < 2^32 -> leaf (k_mem s4) T x =
    if decide (vpn x = vpn va) then w else leaf (k_mem s) T x).
  { intros x Hx. by rewrite Hl4, Hl3, Hl2, Hl1. }
  assert (Hbytes : forall j a, used s4 j -> ~ tabs r T j -> used s1 j -> page_addr j a ->
    load8 (k_mem s4) a = load8 (k_mem s2) a).
  { intros j a H4 Ht H1 Ha. rewrite (Hk4 j a) by done.
    by apply (ps_kept _ _ _ _ _ Hst3 j a). }
  assert (Hkept : kept s s4 (fun j => used s j /\ used s4 j /\ ~ tabs r T j)).
  { intros j a (Hj & Hj4 & Hjt) Ha. rewrite (Hbytes j a) by (done || apply Hu1; by left).
    rewrite (Hm2 j a) by (done || by apply (used_range s)).
    case_decide as Hd; [subst; unfold used in Hj; lia|]. by apply (Hk1 j a). }
  destruct (cow_flags_has v) as (Hw & Hc & HV & HU).
  cbn [runs ret]. split; [|by split]. split; try done.
  - eapply (uinv_replace s r T s4 va d n (cow_flags v)); try done;
      [apply cow_flags_range|]. rewrite HV. apply Hmap.
  - etrans; [exact Hf1|]. etrans; [apply aframe_mem|]. etrans; [|exact Hf4].
    apply (ps_frame _ _ _ _ _ Hst3).
  - intros u x b Hx Hp. destruct (decide (vpn x = vpn va)) as [Hv|Hv].
    + unfold peek in *. rewrite Hlf by done. rewrite decide_True by done.
      rewrite (leaf_vpn (k_mem s) T va x) in Hp by done. fold v in Hp. unfold w.
      pose proof (idx2pa_range n Hn). pose proof (cow_flags_range v).
      destruct Hmap as (_ & Hpa & _). fold v in Hpa. rewrite Hpa in Hp.
      rewrite PTE2PA_page by done.
      match type of Hp with (if ?c then _ else _) = _ => destruct c eqn:E; [|done] end.
      rewrite (peek_flags v u n) by done. injection Hp as <-. f_equal.
      assert (Hoff : 0 <= x mod PGSIZE < PGSIZE) by (apply Z.mod_pos_bound; done).
      rewrite (Hbytes n); [| |done|by apply Hu1; right|unfold page_addr; lia].
      2: { unfold used. rewrite Hr. unfold fupd. by repeat case_decide. }
      rewrite (Hm2 n) by (done || unfold page_addr; lia). rewrite decide_True by done.
      replace (idx2pa n + x mod PGSIZE - idx2pa n + idx2pa d) with (idx2pa d + x mod PGSIZE) by lia.
      apply (Hk1 d); [done|]. unfold page_addr. lia.
    + eapply peek_same; [done|done|exact Hp| |].
      * rewrite Hlf by done. by case_decide.
      * intros e a He Heu Het Ha. apply (Hkept e a); [|done]. split; [done|]. split; [|done].
        unfold used in *. rewrite Hr. unfold fupd. repeat case_decide; subst; try done.
        exfalso. apply Hv. apply (Hinj va x d); try done.
        apply (peek_userish _ _ _ _ _ Hp).
  - assert (Hback : forall x e, 0 <= x < 2^32 -> userish (k_mem s4) T x ->
      maps (k_mem s4) T x e -> e <> n ->
      vpn x <> vpn va /\ userish (k_mem s) T x /\ maps (k_mem s) T x e).
    { intros x e Hx Hu Hm Hen. assert (Hne : vpn x <> vpn va).
      { intros Hv. destruct Hm as (_ & Hm & Her). rewrite Hlf in Hm by done.
        rewrite decide_True in Hm by done. unfold w in Hm.
        rewrite PTE2PA_page in Hm by (done || apply cow_flags_range).
        apply Hen. symmetry. by apply idx2pa_inj. }
      assert (Hle : leaf (k_mem s4) T x = leaf (k_mem s) T x)
        by (rewrite Hlf by done; by case_decide).
      rewrite (userish_leaf (k_mem s) _ T) in Hu by done.
      by rewrite (maps_eq (k_mem s) _ T) in Hm by done. }
    apply safe_intro; [done|by left| |].
    + intros x e Hx Hu Hm He. apply (Hback x e Hx Hu Hm).
      intros ->. unfold used in He. lia.
    + intros j Hj. rewrite Hr. unfold fupd.
      destruct (decide (j = d)) as [->|]; [right|left; case_decide; [subst; unfold used in Hj; lia|done]].
      split; [done|]. split; [by exists va|]. intros x Hx Hu Hm.
      destruct (Hback x d Hx Hu Hm Hdn) as (Hne & Hu' & Hm'). apply Hne.
      by apply (Hinj va x d).
Qed.

Lemma cow_break_spec `{!LayoutOk L} s r T va :
  uinv s r T -> 0 <= va < 2^32 ->
  has (leaf (k_mem s) T va) PTE_V = true -> has (leaf (k_mem s) T va) PTE_COW = true ->
  runs (cow_break (slot T va) (leaf (k_mem s) T va) s) (fun p s' =>
    quiet r s T s' T /\
    ((p = 0 /\ exhausted s /\ forall x, leaf (k_mem s') T x = leaf (k_mem s) T x) \/
     (exists n, p = idx2pa n /\ 0 <= n < NPAGES /\ refs s n = 0 /\
        forall x, 0 <= x < 2^32 -> leaf (k_mem s') T x =
          if decide (vpn x = vpn va) then mkpte (idx2pa n) (cow_flags (leaf (k_mem s) T va))
          else leaf (k_mem s) T x))).
Proof.
  intros Hinv Hva Hv Hcow. pose proof Hinv as [Hok Hpt Hfr Hinj Hexc].
  set (v := leaf (k_mem s) T va) in *.
  assert (Hus : userish (k_mem s) T va) by (split; [done|]; fold v; by rewrite Hcow, orb_true_r).
  destruct (Hfr va Hva Hus) as (d & Hmap & Hdu & Hdt).
  pose proof Hmap as (_ & Hpa & Hdr). fold v in Hpa.
  destruct (T (PX 1 va)) as [c|] eqn:ET.
  2: { unfold v, leaf in Hv. by rewrite ET in Hv. }
  destruct (slot_nonzero _ _ _ _ _ _ Hpt ET) as (Hs & _ & _).
  unfold cow_break. rewrite Hpa. apply runs_bind.
  eapply runs_mono; [by apply kalloc_client|].
  intros q s1 (Hok1 & Hf1 & Hk1 & Hq).
  destruct Hq as [(-> & Hex & Hex' & Hr)|(n & Hn & -> & Hn0 & Hr)].
  - destruct (oom_quiet s s1 r T) as [Hq Hl1]; try done. simpl. split; [done|by left].
  - assert (Hmono : forall j, used s j -> used s1 j).
    { intros j. unfold used. rewrite Hr. unfold fupd. by case_decide. }
    destruct (ptable_ext (k_mem s) (k_mem s1) (used s) (used s1) r T) as [Hpt1 Hl1]; [done| | |].
    { intros j Hj. apply Hmono. by apply (tabs_used _ _ _ _ _ Hpt). }
    { intros j a Hj. apply (Hk1 j a). by apply (tabs_used _ _ _ _ _ Hpt). }
    destruct (Z.eqb_spec (idx2pa n) 0); [by apply idx2pa_nonzero in Hn|].
    eapply runs_mono; [by apply (cow_break_rest s r T va s1 c d n)|].
    intros p s' (Hquiet & -> & Hlf). split; [done|]. right. by exists n.
Qed.

(** ** Adding a page *)

(** A fresh page [n] mapped where nothing was. *)
Lemma uinv_add s r T s' T' va n f :
  uinv s r T -> alloc_ok s' -> ptable (k_mem s') (used s') r T' ->
  (forall i c, T' i = Some c -> T i = Some c \/ refs s c = 0) ->
  (forall j, used s j -> refs s' j = refs s j) ->
  0 <= n < NPAGES -> refs s n = 0 -> refs s' n = 1 -> ~ tabs r T' n ->
  0 <= f < 1024 -> has f PTE_V = true ->
  (forall x, 0 <= x < 2^32 -> leaf (k_mem s') T' x =
     if decide (vpn x = vpn va) then mkpte (idx2pa n) f else leaf (k_mem s) T x) ->
  uinv s' r T'.
Proof.
  intros [H1 H2 H3 H4 H5] Hok' Hpt' Hnew Hr Hn Hn0 Hn1 Hnt Hf Hfv Hl.
  assert (Hnt' : forall j, used s j -> ~ tabs r T j -> ~ tabs r T' j).
  { intros j Hj Ht [->|[i Hi]]; [apply Ht; by left|].
    destruct (Hnew i j Hi) as [H|H]; [apply Ht; right; eauto|unfold used in Hj; lia]. }
  pose proof (idx2pa_range n Hn) as Hnr.
  assert (Hmn : forall x e, 0 <= x < 2^32 -> vpn x = vpn va ->
    maps (k_mem s') T' x e <-> e = n).
  { intros x e Hx Hv. unfold maps. rewrite Hl by done. case_decide; [|done].
    unfold PTE_V in *. rewrite has_mkpte, PTE2PA_mkpte by (done || lia).
    replace (idx2pa n - idx2pa n mod PGSIZE) with (idx2pa n)
      by (rewrite idx2pa_eq by done; unfold KERNBASE, PGSIZE; zlia).
    split; [intros (_ & He & He'); by apply idx2pa_inj|by intros ->]. }
  assert (Hlo : forall x, 0 <= x < 2^32 -> vpn x <> vpn va ->
    leaf (k_mem s') T' x = leaf (k_mem s) T x)
    by (intros x Hx Hne; rewrite Hl by done; by case_decide).
  assert (Hold : forall x e, 0 <= x < 2^32 -> userish (k_mem s) T x ->
    maps (k_mem s) T x e -> used s e /\ ~ tabs r T e /\ e <> n).
  { intros x e Hx Hu Hm. destruct (H3 x Hx Hu) as (e0 & Hm0 & He0 & Ht).
    rewrite (maps_fun _ _ _ _ _ Hm0 Hm) in *. split; [done|]. split; [done|].
    intros ->. unfold used in He0. lia. }
  split; try done.
  - intros x Hx Hu. destruct (decide (vpn x = vpn va)) as [Hv|Hv].
    + exists n. split; [by apply Hmn|]. split; [unfold used; lia|done].
    + rewrite (userish_leaf (k_mem s) _ T) in Hu by auto.
      destruct (H3 x Hx Hu) as (e & Hm & He & Het). exists e.
      rewrite (maps_eq (k_mem s) _ T) by auto. split; [done|]. split; [|auto].
      unfold used. by rewrite Hr.
  - intros x y e Hx Hy Hux Huy Hmx Hmy.
    destruct (decide (vpn x = vpn va)) as [E1|E1], (decide (vpn y = vpn va)) as [E2|E2].
    + congruence.
    + apply Hmn in Hmx; [|done|done]. subst e.
      rewrite (userish_leaf (k_mem s) _ T) in Huy by auto.
      rewrite (maps_eq (k_mem s) _ T) in Hmy by auto. by destruct (Hold y n) as (_ & _ & ?).
    + apply Hmn in Hmy; [|done|done]. subst e.
      rewrite (userish_leaf (k_mem s) _ T) in Hux by auto.
      rewrite (maps_eq (k_mem s) _ T) in Hmx by auto. by destruct (Hold x n) as (_ & _ & ?).
    + rewrite (userish_leaf (k_mem s) _ T) in Hux by auto.
      rewrite (userish_leaf (k_mem s) _ T) in Huy by auto.
      rewrite (maps_eq (k_mem s) _ T) in Hmx by auto.
      rewrite (maps_eq (k_mem s) _ T) in Hmy by auto. by apply (H4 x y e).
  - intros x e Hx Hmx Hw. destruct (decide (vpn x = vpn va)) as [Hv|Hv].
    + apply Hmn in Hmx; [|done|done]. by subst e.
    + rewrite (maps_eq (k_mem s) _ T) in Hmx by auto. rewrite Hlo in Hw by done.
      destruct (Hold x e Hx) as (He & _); [split; [apply Hmx|by rewrite Hw]|done|].
      rewrite Hr by done. by apply (H5 x).
Qed.

(** ** Lazy allocation *)

(** A zeroed page [n] just taken from the allocator. *)
Record fresh (s s2 : kstate) (n : Z) : Prop := {
  fr_ok : alloc_ok s2;
  fr_frame : aframe s s2;
  fr_kept : kept s s2 (used s);
  fr_range : 0 <= n < NPAGES;
  fr_free : refs s n = 0;
  fr_refs : forall j, refs s2 j = fupd (refs s) n 1 j;
  fr_zero : forall a, page_addr n a -> load8 (k_mem s2) a = 0;
}.

Lemma fresh_used s s2 n j : fresh s s2 n -> used s2 j <-> used s j \/ j = n.
Proof.
  intros H. unfold used. rewrite (fr_refs _ _ _ H). unfold fupd.
  pose proof (fr_free _ _ _ H). case_decide; [subst; lia|tauto].
Qed.

Lemma zero_fresh s s1 n :
  alloc_ok s -> alloc_ok s1 -> aframe s s1 -> kept s s1 (used s) -> 0 <= n < NPAGES ->
  refs s n = 0 -> (forall j, refs s1 j = fupd (refs s) n 1 j) ->
  runs (zero_page (idx2pa n) s1) (fun _ s2 => fresh s s2 n).
Proof.
  intros Hok Hok1 Hf1 Hk1 Hn Hn0 Hr1. unfold zero_page, upd_mem. cbn [runs modify].
  set (s2 := set_mem _ s1).
  assert (Hm2 : forall j a, 0 <= j < NPAGES -> page_addr j a -> load8 (k_mem s2) a =
    if decide (j = n) then 0 else load8 (k_mem s1) a).
  { intros j a Hj Ha. simpl. rewrite memset_load. unfold page_addr in Ha.
    destruct (decide (j = n)) as [->|Hne]; case_decide as Hd; [done|lia| |done].
    destruct Hne. by apply (page_addr_inj j n a). }
  split; try done.
  - apply alloc_ok_mem; [done|]. intros j a H0 Hj Ha. change (memset _ _ _ _) with (k_mem s2).
    rewrite (Hm2 j a) by done. case_decide as Hd; [|done]. subst.
    rewrite Hr1 in H0. unfold fupd in H0. by case_decide.
  - etrans; [exact Hf1|]. apply aframe_mem.
  - intros j a Hj Ha. rewrite (Hm2 j a) by (done || by apply (used_range s)).
    case_decide as Hd; [subst; unfold used in Hj; lia|]. by apply (Hk1 j a).
  - intros a Ha. rewrite (Hm2 n a) by done. by case_decide.
Qed.

(** Its table: the fresh page is not part of it. *)
Lemma fresh_ptable s s2 n r T :
  uinv s r T -> fresh s s2 n ->
  ptable (k_mem s2) (used s2) r T /\ (forall x, leaf (k_mem s2) T x = leaf (k_mem s) T x) /\
  ~ tabs r T n.
Proof.
  intros [_ Hpt _ _ _] H. pose proof (fr_free _ _ _ H) as Hn0.
  destruct (ptable_ext (k_mem s) (k_mem s2) (used s) (used s2) r T) as [Hpt2 Hl2]; [done| | |].
  - intros j Hj. apply (fresh_used _ _ _ _ H). left. by apply (tabs_used _ _ _ _ _ Hpt).
  - intros j a Hj. apply (fr_kept _ _ _ H j a). by apply (tabs_used _ _ _ _ _ Hpt).
  - split; [done|]. split; [done|]. intros Ht.
    destruct (tabs_used _ _ _ _ _ Hpt Ht) as [Hu _]. unfold used in Hu. lia.
Qed.

(** What extending the table does after the page was taken. *)
Lemma fresh_step s s2 n r T s3 T' :
  uinv s r T -> fresh s s2 n -> pt_step r s2 T s3 T' ->
  aframe s s3 /\ refs s3 n = 1 /\ ~ tabs r T' n /\
  (forall j, used s j -> refs s3 j = refs s j) /\
  (forall i c, T' i = Some c -> T i = Some c \/ refs s c = 0) /\
  kept s s3 (fun j => used s j /\ ~ tabs r T j).
Proof.
  intros Hinv H Hst. destruct (fresh_ptable _ _ _ _ _ Hinv H) as (_ & _ & Hnt).
  pose proof (fr_refs _ _ _ H) as Hr2. pose proof (fr_free _ _ _ H) as Hn0.
  split. { etrans; [apply (fr_frame _ _ _ H)|apply (ps_frame _ _ _ _ _ Hst)]. }
  split. { rewrite (ps_refs _ _ _ _ _ Hst n), Hr2. unfold fupd. by repeat case_decide. }
  split.
  { intros [->|[i Hi]]; [apply Hnt; by left|].
    destruct (ps_new _ _ _ _ _ Hst i n Hi) as [Hc|Hc]; [apply Hnt; right; eauto|].
    rewrite Hr2 in Hc. unfold fupd in Hc. by case_decide. }
  split.
  { intros j Hj. rewrite (ps_refs _ _ _ _ _ Hst j), Hr2. unfold fupd.
    case_decide as H0; case_decide; subst; unfold used in Hj; lia. }
  split.
  { intros i c Hc. destruct (ps_new _ _ _ _ _ Hst i c Hc) as [|H0]; [by left|right].
    rewrite Hr2 in H0. unfold fupd in H0. by case_decide. }
  intros j a [Hj Ht] Ha.
  rewrite (ps_kept _ _ _ _ _ Hst j a); [by apply (fr_kept _ _ _ H j a)|split; [|done]|done].
  apply (fresh_used _ _ _ _ H). by left.
Qed.

(** A space with the fresh page [n] mapped at the free address [va]. *)
Lemma fresh_quiet s s2 n r T s3 T' va f :
  uinv s r T -> 0 <= va < 2^32 -> fresh s s2 n -> pt_step r s2 T s3 T' -> 0 <= f < 1024 ->
  has (leaf (k_mem s) T va) PTE_V = false -> has f PTE_V = true ->
  (forall x, 0 <= x < 2^32 -> leaf (k_mem s3) T' x =
    if decide (vpn x = vpn va) then mkpte (idx2pa n) f else leaf (k_mem s) T x) ->
  quiet r s T s3 T'.
Proof.
  intros Hinv Hva H Hst Hf Hnv Hfv Hl.
  destruct (fresh_step _ _ _ _ _ _ _ Hinv H Hst) as (Hf3 & Hn3 & Hnt & Hr3 & Hnew & Hk3).
  pose proof (fr_range _ _ _ H) as Hn. pose proof (fr_free _ _ _ H) as Hn0.
  split; try done.
  - eapply (uinv_add s r T s3 T' va n f); try done;
      [apply (ps_ok _ _ _ _ _ Hst)|apply (ps_pt _ _ _ _ _ Hst)].
  - apply (ps_ext _ _ _ _ _ Hst).
  - intros u x b Hx Hp. eapply peek_same; try done.
    + rewrite Hl by done. case_decide as Hd; [|done].
      unfold peek in Hp. rewrite (leaf_vpn _ _ va x) in Hp by (done || lia).
      by rewrite Hnv in Hp.
    + intros d a _ Hd Hdt. by apply (Hk3 d a).
  - apply safe_intro; [|done| |].
    + intros j a (Hj & _ & Ht) Ha. by apply (Hk3 j a).
    + intros x e Hx Hu Hm He.
      assert (Hle : leaf (k_mem s3) T' x = leaf (k_mem s) T x).
      { rewrite Hl by done. case_decide as Hd; [|done].
        exfalso. destruct Hm as (_ & Hm & Her). rewrite Hl in Hm by done.
        rewrite decide_True in Hm by done. rewrite PTE2PA_page in Hm by done.
        apply idx2pa_inj in Hm; [|done|done]. subst. unfold used in He. lia. }
      rewrite (userish_leaf (k_mem s) _ T) in Hu by done.
      by rewrite (maps_eq (k_mem s) _ T) in Hm by done.
    + intros j Hj. left. by apply Hr3.
Qed.

(** [mappages] of a fresh page: it is mapped, or the table only grew. *)
Lemma fresh_mappages s s2 n r T va f :
  uinv s r T -> 0 <= va < 2^32 -> va mod PGSIZE = 0 -> fresh s s2 n -> 0 <= f < 1024 ->
  has (leaf (k_mem s) T va) PTE_V = false ->
  runs (mappages (idx2pa r) va PGSIZE (idx2pa n) f s2) (fun e s3 => exists T',
    pt_step r s2 T s3 T' /\
  ((e = 0 /\ forall x, 0 <= x < 2^32 -> leaf (k_mem s3) T' x =
        if decide (vpn x = vpn va) then mkpte (idx2pa n) (Z.lor f PTE_V)
        else leaf (k_mem s) T x) \/
     (e = -1 /\ forall x, 0 <= x < 2^32 -> leaf (k_mem s3) T' x = leaf (k_mem s) T x))).
Proof.
  intros Hinv Hva Hal H Hf Hnv. pose proof (fr_range _ _ _ H) as Hn.
  destruct (fresh_ptable _ _ _ _ _ Hinv H) as (Hpt2 & Hl2 & _).
  eapply runs_mono.
  { apply (mappages_spec s2 T r va PGSIZE (idx2pa n) f); try done.
    - apply (fr_ok _ _ _ H).
    - lia.
    - unfold PGSIZE in *. zlia.
    - pose proof (idx2pa_range n Hn). lia.
    - rewrite idx2pa_eq by done. unfold KERNBASE, PGSIZE. change NPAGES with 32768 in Hn. lia.
    - intros x Hx Hv. rewrite Hl2. rewrite (leaf_vpn _ _ va x); [done|done|done|].
      rewrite Z.div_same in Hv by done. lia. }
  intros e s3 (T' & k & Hst & Hk & He & Hl3). exists T'. split; [done|].
  rewrite Z.div_same in Hk, He by done.
  destruct He as [[-> ->]|(-> & Hk0 & _)]; [left|right]; (split; [done|]); intros x Hx;
    rewrite Hl3 by done.
  - unfold mapped. rewrite Hl2. repeat case_decide; try done; try lia. f_equal. lia.
  - assert (k = 0) as -> by lia. rewrite mapped_0. apply Hl2.
Qed.

(** Undoing the allocation after [mappages] failed. *)
Lemma fresh_undo `{!LayoutOk L} s s2 n r T s3 T' :
  uinv s r T -> fresh s s2 n -> pt_step r s2 T s3 T' ->
  (forall x, 0 <= x < 2^32 -> leaf (k_mem s3) T' x = leaf (k_mem s) T x) ->
  runs (kfree (idx2pa n) s3) (fun _ s4 => quiet r s T s4 T' /\
  forall x, 0 <= x < 2^32 -> leaf (k_mem s4) T' x = leaf (k_mem s) T x).
Proof.
  intros Hinv H Hst Hl3.
  destruct (fresh_step _ _ _ _ _ _ _ Hinv H Hst) as (Hf3 & Hn3 & Hnt & Hr3 & Hnew & Hk3).
  pose proof (fr_free _ _ _ H) as Hn0.
  eapply runs_mono.
  { apply (kfree_client s3 n); [apply (ps_ok _ _ _ _ _ Hst)|unfold used; lia]. }
  intros [] s4 (Hok4 & Hf4 & Hk4 & Hr4).
  assert (Hr4' : forall j, used s j -> refs s4 j = refs s j).
  { intros j Hj. rewrite Hr4. unfold fupd. case_decide; [subst; unfold used in Hj; lia|].
    by apply Hr3. }
  assert (Ht4 : forall j, tabs r T' j -> used s4 j).
  { intros j Hj. destruct (tabs_used _ _ _ _ _ (ps_pt _ _ _ _ _ Hst) Hj) as [Hu _].
    unfold used in *. rewrite Hr4. unfold fupd. case_decide; [by subst|done]. }
  destruct (ptable_ext (k_mem s3) (k_mem s4) (used s3) (used s4) r T') as [Hpt4 Hl4];
    [apply (ps_pt _ _ _ _ _ Hst)|done| |].
  { intros j a Hj Ha. by apply (Hk4 j a); [apply Ht4|]. }
  assert (Hl : forall x, 0 <= x < 2^32 -> leaf (k_mem s4) T' x = leaf (k_mem s) T x).
  { intros x Hx. rewrite Hl4. by apply Hl3. }
  assert (Hkept4 : kept s s4 (fun j => used s j /\ ~ tabs r T j)).
  { intros j a [Hj Ht] Ha. rewrite (Hk4 j a); [by apply (Hk3 j a)| |done].
    unfold used in *. by rewrite Hr4'. }
  split; [|done]. split; try done.
  - by eapply uinv_same.
  - by etrans.
  - apply (ps_ext _ _ _ _ _ Hst).
  - intros u x b Hx Hp. eapply peek_same; try done; [by apply Hl|].
    intros d a _ Hd Hdt. by apply (Hkept4 d a).
  - by apply safe_same.
Qed.

(** Allocating a page and mapping it at a free address. *)
Lemma map_fresh `{!LayoutOk L} s r T va f :
  uinv s r T -> 0 <= va < 2^32 -> va mod PGSIZE = 0 ->
  has (leaf (k_mem s) T va) PTE_V = false -> 0 <= f < 1024 ->
  runs ((mem <- kalloc ;;
         if mem =? 0 then ret 0 else
         zero_page mem ;;
         e <- mappages (idx2pa r) va PGSIZE mem f ;;
         if negb (e =? 0) then kfree mem ;; ret 0 else ret mem) s)
    (fun p s' => exists T', quiet r s T s' T' /\
  ((p = 0 /\ forall x, 0 <= x < 2^32 -> leaf (k_mem s') T' x = leaf (k_mem s) T x) \/
       (exists n, p = idx2pa n /\ 0 <= n < NPAGES /\ refs s n = 0 /\
  (forall a, page_addr n a -> load8 (k_mem s') a = 0) /\
  forall x, 0 <= x < 2^32 -> leaf (k_mem s') T' x =
            if decide (vpn x = vpn va) then mkpte (idx2pa n) (Z.lor f PTE_V)
            else leaf (k_mem s) T x))).
Proof.
  intros Hinv Hva Hal Hnv Hf.
  apply runs_bind. eapply runs_mono; [apply kalloc_client, Hinv|].
  intros q s1 (Hok1 & Hf1 & Hk1 & Hq).
  destruct Hq as [(-> & Hex & Hex' & Hr)|(n & Hn & -> & Hn0 & Hr1)].
  { destruct (oom_quiet s s1 r T) as [Hq Hl]; try done.
    cbn. exists T. split; [done|]. left. split; [done|]. intros x _. apply Hl. }
  destruct (Z.eqb_spec (idx2pa n) 0); [by apply idx2pa_nonzero in Hn|].
  apply runs_bind. eapply runs_mono; [apply (zero_fresh s); try done; apply Hinv|]. intros [] s2 H.
  apply runs_bind. eapply runs_mono; [by apply (fresh_mappages s)|].
  intros e s3 (T' & Hst & [[-> Hl]|[-> Hl]]).
  - cbn [negb Z.eqb runs ret]. exists T'. split.
    + apply (fresh_quiet s s2 n r T s3 T' va (Z.lor f PTE_V)); try done; [by apply lor_flag|by rewrite has_lor, orb_true_r].
    + right. exists n. do 3 (split; [done|]). split; [|done].
      intros a Ha. destruct (fresh_ptable _ _ _ _ _ Hinv H) as (_ & _ & Hnt).
      rewrite (ps_kept _ _ _ _ _ Hst n a); [by apply (fr_zero _ _ _ H)|split; [|done]|done].
      apply (fresh_used _ _ _ _ H). by right.
  - cbn [negb Z.eqb]. apply runs_bind. eapply runs_mono; [by apply (fresh_undo s s2)|].
    intros [] s4 [Hq Hl4]. cbn [runs ret]. exists T'. split; [done|by left].
Qed.
End umem.
