(* ===== verification/UserCopy.v ===== *)
(** * Page faults and copies to and from user memory

    [vmfault], [copyout] and [copyin] of [addrspace.c] on top of the lemmas of
    [UserMem]: whatever the routine does, the pages another address space can
    see keep their bytes, and the user sees only the bytes copied. *)

From S2P Require Import Prelude CMem Machine Sv32 Spinlock Kalloc KallocProof.
From S2P Require Import KallocSpec Sched AddrSpace Regions PageTable UserMem.

#[local] Opaque memset.

Section fault.
Context `{L : Layout}.

(** ** Page faults *)

(** What a fault at [va] may do: nothing, or put a page that was free behind
    the address, and only there. *)
Definition fault_post (r : Z) (s : kstate) (T : Z -> option Z) (va p : Z)
    (s' : kstate) (T' : Z -> option Z) : Prop :=
  quiet r s T s' T' /\
  ((p = 0 /\ forall x, 0 <= x < 2^32 -> leaf (k_mem s') T' x = leaf (k_mem s) T x) \/
   (exists n f, p = idx2pa n /\ 0 <= n < NPAGES /\ refs s n = 0 /\
      0 <= f < 1024 /\ has f PTE_V = true /\ has f PTE_U || has f PTE_W = true /\
      forall x, 0 <= x < 2^32 -> leaf (k_mem s') T' x =
        if decide (vpn x = vpn va) then mkpte (idx2pa n) f else leaf (k_mem s) T x)).

(** The current process, with the permissions of its heap those of a PTE. *)
Definition running (s : kstate) (pr : proc) : Prop :=
  exists p, 0 <= p /\ c_proc (k_cpu s) = Some p /\ k_procs s !! Z.to_nat p = Some pr /\
    forall i, 0 <= i < region_count (p_as pr) -> 0 <= perm (region (p_as pr) i) < 1024.

Lemma running_aframe s s' pr : aframe s s' -> running s pr -> running s' pr.
Proof.
  intros Hf (p & Hp & Hc & Hl & Hh). destruct (aframe_procs _ _ Hf) as (E1 & E2 & _).
  exists p. by rewrite E1, E2.
Qed.

Lemma running_intena s s' pr : intena_only s s' -> running s pr -> running s' pr.
Proof. by intros (i & _ & ->). Qed.

Lemma lazy_alloc_spec `{!LayoutOk L} s r T pr va :
  uinv s r T -> running s pr -> as_wf (p_as pr) -> 0 <= va < 2^32 -> va mod PGSIZE = 0 ->
  has (leaf (k_mem s) T va) PTE_V = false ->
  runs (lazy_alloc (p_as pr) (idx2pa r) va s)
    (fun p s' => exists T', fault_post r s T va p s' T').
Proof.
  intros Hinv (_ & _ & _ & _ & Hperm) Hwf Hva Hal Hnv. unfold lazy_alloc.
  pose proof (as_find_region_spec (p_as pr) va Hwf) as Hfind.
  destruct (as_find_region (p_as pr) va) as [i|].
  2: { cbn. exists T. split; [by apply quiet_refl|by left]. }
  destruct (negb (rtype (region (p_as pr) i) =? MR_HEAP)).
  { cbn. exists T. split; [by apply quiet_refl|by left]. }
  eapply runs_mono.
  { apply (map_fresh s r T va (Z.lor PTE_U (perm (region (p_as pr) i)))); try done.
    rewrite Z.lor_comm. apply lor_flag; [|done]. apply Hperm, Hfind. }
  intros p s' (T' & Hq & Hp). exists T'. split; [done|].
  destruct Hp as [Hp|(n & Hp & Hn & Hn0 & _ & Hl)]; [by left|]. right.
  exists n, (Z.lor (Z.lor PTE_U (perm (region (p_as pr) i))) PTE_V).
  do 3 (split; [done|]). split; [|split; [|split; [|done]]].
  - apply lor_flag; [|done]. rewrite Z.lor_comm. apply lor_flag; [|done]. by apply Hperm, Hfind.
  - by rewrite has_lor, orb_true_r.
  - by rewrite !(has_lor _ _ PTE_U).
Qed.

(** Reading the entry behind an address: the entry, or 0 without a table. *)
Lemma runs_entry s r T va Q :
  uinv s r T -> 0 <= va < 2^32 ->
  (if decide (slot T va = 0) then leaf (k_mem s) T va = 0 -> Q 0 s
   else Q (leaf (k_mem s) T va) s) ->
  runs ((if slot T va =? 0 then ret 0 else load_pte (slot T va)) s) Q.
Proof.
  intros Hinv Hva HQ. destruct (T (PX 1 va)) as [c|] eqn:ET.
  - destruct (slot_nonzero _ _ _ _ _ _ (ui_pt _ _ _ Hinv) ET) as (_ & Hs & Hl).
    rewrite decide_False in HQ by done. replace (slot T va =? 0) with false by lia.
    unfold load_pte. cbn. by rewrite Hl.
  - assert (Hs : slot T va = 0) by (unfold slot; by rewrite ET).
    rewrite decide_True in HQ by done. rewrite Hs. cbn. apply HQ. unfold leaf. by rewrite ET.
Qed.

Lemma slot_leaf s r T va :
  uinv s r T -> has (leaf (k_mem s) T va) PTE_V = true -> slot T va <> 0.
Proof.
  intros Hinv Hv. destruct (T (PX 1 va)) as [c|] eqn:ET.
  - by apply (slot_nonzero _ _ _ _ _ _ (ui_pt _ _ _ Hinv) ET).
  - unfold leaf in Hv. by rewrite ET in Hv.
Qed.

Lemma fault_quiet r s0 s T va p s' T' :
  uinv s0 r T -> quiet r s0 T s T -> (forall x, leaf (k_mem s) T x = leaf (k_mem s0) T x) ->
  (forall j, refs s j = refs s0 j) ->
  fault_post r s T va p s' T' -> fault_post r s0 T va p s' T'.
Proof.
  intros H0 Hq Hl Hr [Hq' Hp]. split; [by eapply quiet_trans|].
  destruct Hp as [[-> Hp]|(n & f & -> & Hn & Hn0 & Hf & Hfv & Hfu & Hp)]; [left|right].
  - split; [done|]. intros x Hx. by rewrite Hp, Hl.
  - exists n, f. rewrite <- Hr. do 6 (split; [done|]). intros x Hx. by rewrite Hp, Hl.
Qed.

Lemma PGROUNDDOWN_page va : 0 <= va < 2^32 ->
  0 <= PGROUNDDOWN va < 2^32 /\ PGROUNDDOWN va mod PGSIZE = 0 /\
  vpn (PGROUNDDOWN va) = vpn va /\ PGROUNDDOWN va <= va < PGROUNDDOWN va + PGSIZE.
Proof.
  intros Hva. rewrite PGROUNDDOWN_eq by done. unfold vpn, PGSIZE. zlia.
Qed.

Lemma vmfault_spec `{!LayoutOk L} s r T pr va (read : bool) :
  uinv s r T -> running s pr -> as_wf (p_as pr) -> 0 <= va < 2^32 ->
  runs (vmfault (idx2pa r) va read s)
    (fun p s' => exists T', fault_post r s T va p s' T').
Proof.
  intros Hinv Hrun Hwf Hva. pose proof Hrun as (p & Hp & Hc & Hpr & Hperm).
  destruct (PGROUNDDOWN_page va Hva) as (Hra & Hrm & Hrv & _).
  assert (Hnop : forall s', intena_only s s' -> fault_post r s T va 0 s' T).
  { intros s' Hs. split; [by apply quiet_intena|]. left. destruct Hs as (i & _ & ->). done. }
  unfold vmfault. apply runs_bind. apply (runs_curproc s p); [apply Hinv|done|].
  intros s1 Hs1. pose proof (uinv_intena _ _ _ _ Hs1 Hinv) as Hinv1.
  pose proof (running_intena _ _ _ Hs1 Hrun) as Hrun1.
  assert (Hsame : k_procs s1 = k_procs s /\ k_mem s1 = k_mem s /\ k_kmem s1 = k_kmem s)
    by (by destruct Hs1 as (i & _ & ->)).
  destruct Hsame as (Epr & Em & Ek).
  assert (Hre : forall q s' T', fault_post r s1 T (PGROUNDDOWN va) q s' T' ->
    exists T'', fault_post r s T va q s' T'').
  { intros q s' T' H. exists T'. unfold fault_post in *. rewrite Hrv in H.
    eapply fault_quiet in H; [exact H|done|by apply quiet_intena| |]; intros;
      unfold refs; by rewrite ?Em, ?Ek. }
  apply runs_bind. apply (runs_get_proc s1 p pr); [by rewrite Epr|done|].
  destruct (va >=? heap_end (p_as pr)); [cbn; exists T; by apply Hnop|].
  cbv zeta. apply runs_bind.
  rewrite (walk_noalloc s1 r T) by (done || apply Hinv1). cbn [runs].
  apply runs_bind. apply (runs_entry s1 r T (PGROUNDDOWN va)); [done|done|].
  set (v := leaf (k_mem s1) T (PGROUNDDOWN va)).
  assert (Hlazy : has v PTE_V = false -> runs ((im <- ismapped (idx2pa r) (PGROUNDDOWN va) ;;
      if (im : bool) then ret 0 else lazy_alloc (p_as pr) (idx2pa r) (PGROUNDDOWN va)) s1)
      (fun p s' => exists T', fault_post r s T va p s' T')).
  { intros Hv. apply runs_bind. unfold ismapped. apply runs_bind.
    rewrite (walk_noalloc s1 r T) by (done || apply Hinv1). cbn [runs].
    assert (Hcont : runs (lazy_alloc (p_as pr) (idx2pa r) (PGROUNDDOWN va) s1)
      (fun p s' => exists T', fault_post r s T va p s' T')).
    { eapply runs_mono; [by apply (lazy_alloc_spec s1 r T pr)|].
      intros q s' [T' H]. by apply (Hre q s' T'). }
    destruct (T (PX 1 (PGROUNDDOWN va))) as [c|] eqn:ET.
    - destruct (slot_nonzero _ _ _ _ _ _ (ui_pt _ _ _ Hinv1) ET) as (_ & Hs & Hl).
      replace (slot T (PGROUNDDOWN va) =? 0) with false by lia.
      unfold load_pte. cbn. rewrite Hl. fold v. by rewrite Hv.
    - unfold slot. rewrite ET. cbn. done. }
  case_decide as Hs; [intros Hv0; rewrite Hs; cbn [Z.eqb negb andb]; by apply Hlazy; rewrite Hv0|].
  replace (slot T (PGROUNDDOWN va) =? 0) with false by lia. cbn [negb andb].
  destruct (has v PTE_V) eqn:Hv; [|by apply Hlazy].
  destruct (negb (has v PTE_COW) || read) eqn:Hcow; [cbn; exists T; by apply Hnop|].
  apply orb_false_iff in Hcow as [Hcow _]. apply negb_false_iff in Hcow.
  eapply runs_mono; [by apply (cow_break_spec s1 r T)|].
  intros q s' [Hq Hp']. apply (Hre q s' T). split; [done|].
  destruct Hp' as [(-> & _ & Hl)|(n & -> & Hn & Hn0 & Hl)]; [left; by split|right].
  exists n, (cow_flags v). do 3 (split; [done|]). split; [apply cow_flags_range|].
  destruct (cow_flags_has v) as (-> & _ & -> & _). split; [done|].
  split; [by rewrite orb_true_r|done].
Qed.

(** ** [copyout] *)

(** The page [copyout] writes to: present, writable, and its frame. *)
Definition target_post (r : Z) (s : kstate) (T : Z -> option Z) (va p : Z)
    (s' : kstate) : Prop :=
  exists T', quiet r s T s' T' /\
    (p = 0 \/ exists d, p = idx2pa d /\ maps (k_mem s') T' va d /\
       has (leaf (k_mem s') T' va) PTE_W = true).

(** The check for a writable page, after the frame [p] was found. *)
Lemma copyout_check s0 s r T0 T va p :
  quiet r s0 T0 s T -> 0 <= va < 2^32 ->
  (p = 0 \/ exists d, p = idx2pa d /\ maps (k_mem s) T va d) ->
  runs ((if p =? 0 then ret 0 else
         pte <- walk (idx2pa r) va false ;;
         if pte =? 0 then undefined "copyout: null pte" else
         v <- load_pte pte ;;
         if negb (has v PTE_W) then ret 0 else ret p) s) (target_post r s0 T0 va).
Proof.
  intros Hq Hva Hp. pose proof (q_inv _ _ _ _ _ Hq) as Hinv.
  destruct Hp as [->|(d & -> & Hm)]; [cbn; exists T; split; [done|by left]|].
  pose proof Hm as (Hv & _ & Hd).
  destruct (Z.eqb_spec (idx2pa d) 0); [by apply idx2pa_nonzero in Hd|].
  apply runs_bind. rewrite (walk_noalloc s r T) by (done || apply Hinv). cbn [runs].
  pose proof (slot_leaf s r T va Hinv Hv) as Hs.
  destruct (Z.eqb_spec (slot T va) 0); [done|]. apply runs_bind. unfold load_pte. cbn.
  destruct (T (PX 1 va)) as [c|] eqn:ET; [|unfold slot in Hs; by rewrite ET in Hs].
  destruct (slot_nonzero _ _ _ _ _ _ (ui_pt _ _ _ Hinv) ET) as (_ & _ & ->).
  destruct (has (leaf (k_mem s) T va) PTE_W) eqn:Hw; cbn; exists T; (split; [done|]).
  - right. by exists d.
  - by left.
Qed.

Lemma fault_maps r s T va p s' T' :
  0 <= va < 2^32 -> fault_post r s T va p s' T' ->
  p = 0 \/ exists d, p = idx2pa d /\ maps (k_mem s') T' va d /\
    has (leaf (k_mem s') T' va) PTE_U || has (leaf (k_mem s') T' va) PTE_W = true.
Proof.
  intros Hva [_ [[-> _]|(n & f & -> & Hn & _ & Hf & Hfv & Hfu & Hl)]]; [by left|right].
  exists n. split; [done|]. unfold maps. rewrite !Hl, !decide_True by done.
  pose proof (idx2pa_range n Hn). rewrite PTE2PA_page by done.
  unfold PTE_V, PTE_U, PTE_W in *. by rewrite !has_mkpte by (done || lia).
Qed.

Lemma copyout_page_spec `{!LayoutOk L} s r T pr va :
  uinv s r T -> running s pr -> as_wf (p_as pr) -> 0 <= va < 2^32 ->
  runs (copyout_page (idx2pa r) va s) (target_post r s T va).
Proof.
  intros Hinv Hrun Hwf Hva. unfold copyout_page. apply runs_bind.
  rewrite (walk_noalloc s r T) by (done || apply Hinv). cbn [runs].
  assert (Hfault : runs (vmfault (idx2pa r) va false s) (fun p s' =>
    runs ((if p =? 0 then ret 0 else
         pte <- walk (idx2pa r) va false ;;
         if pte =? 0 then undefined "copyout: null pte" else
         v <- load_pte pte ;;
         if negb (has v PTE_W) then ret 0 else ret p) s') (target_post r s T va))).
  { eapply runs_mono; [by apply (vmfault_spec s r T pr)|]. intros p s' [T' H].
    apply (copyout_check s s' r T T'); [apply H|done|].
    destruct (fault_maps _ _ _ _ _ _ _ Hva H) as [->|(d & -> & Hm & _)]; [by left|right].
    by exists d. }
  apply runs_bind. apply (runs_entry s r T va); [done|done|].
  set (v := leaf (k_mem s) T va). case_decide as Hs.
  { intros _. rewrite Hs. cbn [Z.eqb orb]. by apply runs_bind. }
  replace (slot T va =? 0) with false by lia. cbn [orb].
  destruct (negb (has v PTE_V) || negb (has v PTE_U)) eqn:E; [by apply runs_bind|].
  destruct (has v PTE_COW) eqn:Hc; [by apply runs_bind|].
  apply orb_false_iff in E as [Hv Hu]. apply negb_false_iff in Hv, Hu.
  apply runs_bind. cbn [runs ret].
  apply (copyout_check s s r T T); [by apply quiet_refl|done|]. right.
  destruct (ui_frame _ _ _ Hinv va Hva) as (d & Hm & _).
  { split; [done|]. fold v. by rewrite Hu, orb_true_r. }
  exists d. split; [|done]. apply Hm.
Qed.

Lemma maps_vpn m T va va' d : 0 <= va < 2^32 -> 0 <= va' < 2^32 -> vpn va = vpn va' ->
  maps m T va d <-> maps m T va' d.
Proof. intros H1 H2 Hv. unfold maps. by rewrite (leaf_vpn _ _ va va'). Qed.

(** What a copy to the addresses [hit] may do to a space. *)
Record writes_only (r : Z) (s : kstate) (T : Z -> option Z) (hit : Z -> Prop)
    (s' : kstate) (T' : Z -> option Z) : Prop := {
  wo_inv : uinv s' r T';
  wo_frame : aframe s s';
  wo_ext : forall i c, T i = Some c -> T' i = Some c;
  wo_out : forall u x b, 0 <= x < 2^32 -> ~ hit x ->
    peek u (k_mem s) T x = Some b -> peek u (k_mem s') T' x = Some b;
  wo_safe : forall j, safe r s T j ->
    safe r s' T' j /\ forall a, page_addr j a -> load8 (k_mem s') a = load8 (k_mem s) a;
}.

Lemma quiet_writes r s T s' T' hit : quiet r s T s' T' -> writes_only r s T hit s' T'.
Proof. intros [H1 H2 H3 H4 H5]. by split; auto. Qed.

Lemma writes_trans r s1 T1 s2 T2 s3 T3 (h1 h2 h : Z -> Prop) :
  writes_only r s1 T1 h1 s2 T2 -> writes_only r s2 T2 h2 s3 T3 ->
  (forall x, h1 x -> h x) -> (forall x, h2 x -> h x) -> writes_only r s1 T1 h s3 T3.
Proof.
  intros [A1 A2 A3 A4 A5] [B1 B2 B3 B4 B5] H1 H2. split; [done|by etrans|auto| |].
  - intros u x b Hx Hn Hp. apply B4; [done|auto|]. apply A4; auto.
  - intros j Hj. destruct (A5 j Hj) as [Hj2 Hb2]. destruct (B5 j Hj2) as [Hj3 Hb3].
    split; [done|]. intros a Ha. by rewrite Hb3, Hb2.
Qed.

(** Storing bytes into a writable page of the space. *)
Lemma poke_spec s r T va d bs :
  uinv s r T -> 0 <= va < 2^32 -> maps (k_mem s) T va d ->
  has (leaf (k_mem s) T va) PTE_W = true ->
  va mod PGSIZE + Z.of_nat (length bs) <= PGSIZE -> Forall (fun b => 0 <= b < 256) bs ->
  let s' := set_mem (write_bytes (k_mem s) (idx2pa d + va mod PGSIZE) bs) s in
  writes_only r s T (fun x => va <= x < va + Z.of_nat (length bs)) s' T /\
  (forall x, leaf (k_mem s') T x = leaf (k_mem s) T x) /\
  forall i b, bs !! i = Some b -> peek false (k_mem s') T (va + Z.of_nat i) = Some b.
Proof.
  intros Hinv Hva Hm Hw Hlen Hbs s'. pose proof Hinv as [Hok Hpt Hfr Hinj Hexc].
  assert (Hus : userish (k_mem s) T va) by (split; [apply Hm|by rewrite Hw]).
  destruct (Hfr va Hva Hus) as (d' & Hm' & Hdu & Hdt).
  rewrite (maps_fun _ _ _ _ _ Hm' Hm) in *. clear d' Hm'.
  assert (Hoff : 0 <= va mod PGSIZE < PGSIZE) by (apply Z.mod_pos_bound; done).
  assert (Hother : forall j a, 0 <= j < NPAGES -> j <> d -> page_addr j a ->
    load8 (k_mem s') a = load8 (k_mem s) a).
  { intros j a Hj Hne Ha. simpl. apply write_bytes_out. intros Hin. apply Hne.
    apply (page_addr_inj j d a); [done|apply Hm|done|]. unfold page_addr. lia. }
  assert (Hok' : alloc_ok s').
  { apply alloc_ok_mem; [done|]. intros j a H0 Hj Ha. apply (Hother j a); try done.
    intros ->. unfold used in Hdu. lia. }
  destruct (ptable_ext (k_mem s) (k_mem s') (used s) (used s') r T) as [Hpt' Hl]; [done| | |].
  { intros j Hj. by apply (tabs_used _ _ _ _ _ Hpt). }
  { intros j a Hj Ha. apply (Hother j a); [by apply (tabs_used _ _ _ _ _ Hpt)| |done].
    by intros ->. }
  split; [split|split; [done|]].
  - eapply uinv_same; try done. by left.
  - apply aframe_mem.
  - done.
  - intros u x b Hx Hn Hp. destruct (peek_userish _ _ _ _ _ Hp) as [Hxu ->].
    destruct (Hfr x Hx Hxu) as (e & He & Heu & Het). pose proof He as (_ & Hpa & Her).
    revert Hp. unfold peek. rewrite Hl, Hpa. case_match; [|done]. intros _. f_equal.
    destruct (decide (e = d)) as [->|Hne].
    + simpl. apply write_bytes_out. intros Hin. apply Hn.
      assert (Hv : vpn x = vpn va) by (by apply (Hinj va x d)). unfold vpn, PGSIZE in *. zlia.
    + apply (Hother e); [done|done|]. unfold page_addr, PGSIZE. zlia.
  - intros j (Hj & Hjt & Hjs). split; [split; [done|split; [done|]]|].
    + destruct Hjs as [Hno|Hsh]; [left|by right]. intros x Hx Hu Hmx.
      rewrite (userish_leaf (k_mem s) _ T) in Hu by auto.
      rewrite (maps_eq (k_mem s) _ T) in Hmx by auto. by apply (Hno x).
    + intros a. apply Hother; [by apply (used_range s)|]. intros ->.
      destruct Hjs as [Hno|Hsh]; [by apply (Hno va)|].
      rewrite (Hexc va d) in Hsh by done. lia.
  - intros i b Hi. pose proof (lookup_lt_Some _ _ _ Hi) as Hil.
    assert (Hmod : (va + Z.of_nat i) mod PGSIZE = va mod PGSIZE + Z.of_nat i)
      by (unfold PGSIZE in *; zlia).
    assert (Hvi : 0 <= va + Z.of_nat i < 2^32) by (unfold PGSIZE in *; zlia).
    unfold peek. rewrite Hl, (leaf_vpn _ _ va (va + Z.of_nat i)) by
      (done || unfold vpn, PGSIZE in *; zlia).
    destruct Hm as (Hv & -> & Hd). rewrite Hv, Hw, Hmod. cbn [andb negb orb].
    rewrite orb_true_r. f_equal. simpl.
    assert (Hr : read_bytes (length bs)
      (write_bytes (k_mem s) (idx2pa d + va mod PGSIZE) bs) (idx2pa d + va mod PGSIZE) !! i
      = Some b) by (by rewrite write_bytes_read).
    rewrite read_bytes_lookup in Hr by lia. injection Hr as <-. f_equal. lia.
Qed.

(** ** The loop over the pages of the destination *)

(** The addresses [copyout] writes: [dst + i] for the bytes of [src]. *)
Definition hits (dst : Z) (n : nat) (x : Z) : Prop :=
  exists i, (i < n)%nat /\ x = u32 (dst + Z.of_nat i).

Definition copied (r : Z) (s : kstate) (T : Z -> option Z) (dst : Z) (src : list Z)
    (e : Z) (s' : kstate) : Prop :=
  exists T', writes_only r s T (hits dst (length src)) s' T' /\
    (e = -1 \/ e = 0 /\ forall i b, src !! i = Some b ->
       peek false (k_mem s') T' (u32 (dst + Z.of_nat i)) = Some b).

Lemma hits_first dst n : 0 <= dst < 2^32 -> (0 < n)%nat -> hits dst n dst.
Proof.
  intros Hd Hn. exists O. split; [done|]. unfold u32. rewrite Z.mod_small; lia.
Qed.

Lemma next_page_addr dst k n i :
  0 <= dst < 2^32 -> (k <= i < n)%nat -> Z.of_nat k <= PGSIZE - dst mod PGSIZE ->
  (Z.of_nat k < PGSIZE - dst mod PGSIZE -> k = n) ->
  u32 (dst + Z.of_nat i) = u32 (u32 (PGROUNDDOWN dst + PGSIZE) + Z.of_nat (i - k)).
Proof.
  intros Hd Hi Hp Hn. assert (Z.of_nat k = PGSIZE - dst mod PGSIZE) by lia.
  rewrite PGROUNDDOWN_eq by done. unfold u32, PGSIZE in *. rewrite Zplus_mod_idemp_l.
  f_equal. zlia.
Qed.

Lemma hits_rest dst k n x :
  0 <= dst < 2^32 -> (k <= n)%nat -> Z.of_nat k <= PGSIZE - dst mod PGSIZE ->
  (Z.of_nat k < PGSIZE - dst mod PGSIZE -> k = n) ->
  hits (u32 (PGROUNDDOWN dst + PGSIZE)) (n - k) x -> hits dst n x.
Proof.
  intros Hd Hk Hp Hn (i & Hi & ->). exists (k + i)%nat. split; [lia|].
  rewrite (next_page_addr dst k n (k + i)) by (done || lia). do 3 f_equal. lia.
Qed.

(** One round: the bytes that go to the first page, then the others. *)
Lemma copied_step r s T dst src k s1 T1 s2 d e s3 :
  uinv s r T -> 0 <= dst < 2^32 -> Z.of_nat (length src) <= 2^32 ->
  Forall (fun b => 0 <= b < 256) src ->
  Z.of_nat k = Z.min (PGSIZE - dst mod PGSIZE) (Z.of_nat (length src)) ->
  quiet r s T s1 T1 -> maps (k_mem s1) T1 dst d -> has (leaf (k_mem s1) T1 dst) PTE_W = true ->
  s2 = set_mem (write_bytes (k_mem s1) (idx2pa d + dst mod PGSIZE) (take k src)) s1 ->
  copied r s2 T1 (u32 (PGROUNDDOWN dst + PGSIZE)) (drop k src) e s3 ->
  copied r s T dst src e s3.
Proof.
  intros Hinv Hd Hlen Hsrc Hk Hq Hm Hw -> (T3 & Hwo & He).
  assert (Hoff : 0 <= dst mod PGSIZE < PGSIZE) by (apply Z.mod_pos_bound; done).
  destruct (poke_spec s1 r T1 dst d (take k src)) as (Hwo1 & _ & Hin1); try done.
  { apply (q_inv _ _ _ _ _ Hq). }
  { rewrite length_take. lia. }
  { by apply Forall_take. }
  assert (Hdl : length (drop k src) = (length src - k)%nat) by apply length_drop.
  rewrite Hdl in Hwo. rewrite length_take in Hwo1.
  exists T3. split.
  - set (h := hits dst (length src)).
    eapply (writes_trans _ _ _ s1 T1 _ _ h h h); [by apply quiet_writes| |done|done].
    eapply (writes_trans _ _ _ _ _ _ _ _ _ h); [exact Hwo1|exact Hwo| |].
    + intros x Hx. cbv beta in Hx. exists (Z.to_nat (x - dst)). split; [lia|].
      unfold u32. rewrite Z.mod_small; [lia|]. unfold PGSIZE in *. zlia.
    + intros x Hx. apply (hits_rest dst k); try done; lia.
  - destruct He as [->|[-> He]]; [by left|right]. split; [done|]. intros i b Hi.
    pose proof (lookup_lt_Some _ _ _ Hi) as Hil.
    destruct (decide (i < k)%nat) as [Hik|Hik].
    + assert (Hsm : u32 (dst + Z.of_nat i) = dst + Z.of_nat i)
        by (unfold u32; rewrite Z.mod_small; [done|]; unfold PGSIZE in *; zlia).
      rewrite Hsm. apply (wo_out _ _ _ _ _ _ Hwo).
      * rewrite <- Hsm. unfold u32. apply Z.mod_pos_bound. done.
      * intros (j & Hj & Hx). rewrite <- Hsm in Hx.
        replace j with (k + j - k)%nat in Hx by lia.
        rewrite <- (next_page_addr dst k (length src) (k + j)) in Hx; try done; try lia.
        unfold u32 in Hx. zlia.
      * apply Hin1. by rewrite lookup_take_lt.
    + rewrite (next_page_addr dst k (length src) i); try done; try lia.
      apply He. rewrite lookup_drop. by replace (k + (i - k))%nat with i by lia.
Qed.

Lemma copyout_loop_S fuel pt dst src :
  src <> [] ->
  copyout_loop (S fuel) pt dst src =
    (let va0 := PGROUNDDOWN dst in
     if va0 >=? MAXVA then ret (-1) else
     pa0 <- copyout_page pt va0 ;;
     if pa0 =? 0 then ret (-1) else
     let n := Z.min (PGSIZE - (dst - va0)) (Z.of_nat (length src)) in
     upd_mem (fun m => write_bytes m (pa0 + (dst - va0)) (take (Z.to_nat n) src)) ;;
     copyout_loop fuel pt (u32 (va0 + PGSIZE)) (drop (Z.to_nat n) src)).
Proof. by destruct src. Qed.

Lemma copyout_loop_spec `{!LayoutOk L} fuel s r T pr dst src :
  uinv s r T -> running s pr -> as_wf (p_as pr) -> 0 <= dst < 2^32 ->
  Z.of_nat (length src) <= 2^32 -> Forall (fun b => 0 <= b < 256) src ->
  (length src < fuel)%nat ->
  runs (copyout_loop fuel (idx2pa r) dst src s) (copied r s T dst src).
Proof.
  revert s T dst src. induction fuel as [|fuel IH]; intros s T dst src Hinv Hrun Hwf Hd Hlen Hsrc Hf;
    [lia|].
  destruct src as [|b0 src0]; [cbn; exists T; split; [by apply quiet_writes, quiet_refl|right; by split]|].
  set (src := b0 :: src0) in *.
  destruct (PGROUNDDOWN_page dst Hd) as (Hra & Hrm & Hrv & Hrb).
  assert (Hfail : forall s1 T1, quiet r s T s1 T1 -> copied r s T dst src (-1) s1).
  { intros s1 T1 H. exists T1. split; [by apply quiet_writes|by left]. }
  rewrite copyout_loop_S by done.
  cbv zeta. destruct (_ >=? MAXVA); [cbn; by apply (Hfail s T), quiet_refl|].
  apply runs_bind. eapply runs_mono; [by apply (copyout_page_spec s r T pr)|].
  intros p s1 (T1 & Hq & Hp).
  destruct Hp as [->|(d & -> & Hm & Hw)]; [cbn; by apply (Hfail s1 T1)|].
  destruct (Z.eqb_spec (idx2pa d) 0) as [H0|_]; [destruct Hm as (_ & _ & Hdr); by apply idx2pa_nonzero in Hdr|].
  assert (Hoff : dst - PGROUNDDOWN dst = dst mod PGSIZE)
    by (rewrite PGROUNDDOWN_eq by done; unfold PGSIZE; zlia).
  assert (Hmod : 0 <= dst mod PGSIZE < PGSIZE) by (apply Z.mod_pos_bound; done).
  rewrite Hoff. set (k := Z.to_nat _). apply runs_bind. cbn [runs upd_mem modify].
  assert (Hk : (0 < k <= length src)%nat) by (unfold k, src; simpl length; lia).
  assert (Hkz : Z.of_nat k = Z.min (PGSIZE - dst mod PGSIZE) (Z.of_nat (length src)))
    by (unfold k; lia).
  rewrite (maps_vpn _ _ (PGROUNDDOWN dst) dst) in Hm by done.
  rewrite <- (leaf_vpn _ _ (PGROUNDDOWN dst) dst) in Hw by done.
  destruct (poke_spec s1 r T1 dst d (take k src)) as [Hwo1 _]; try done.
  { apply (q_inv _ _ _ _ _ Hq). }
  { rewrite length_take. lia. }
  { by apply Forall_take. }
  eapply runs_mono.
  - apply (IH _ T1); [apply (wo_inv _ _ _ _ _ _ Hwo1)| |done| | | |].
    + eapply running_aframe; [apply (wo_frame _ _ _ _ _ _ Hwo1)|].
      by eapply running_aframe; [apply (q_frame _ _ _ _ _ Hq)|].
    + unfold u32. apply Z.mod_pos_bound. done.
    + rewrite length_drop. lia.
    + by apply Forall_drop.
    + rewrite length_drop. lia.
  - intros e s3 H3. by eapply (copied_step r s T dst src k s1 T1).
Qed.

Lemma copyout_spec `{!LayoutOk L} s r T pr dst src :
  uinv s r T -> running s pr -> as_wf (p_as pr) -> 0 <= dst < 2^32 ->
  Z.of_nat (length src) <= 2^32 -> Forall (fun b => 0 <= b < 256) src ->
  runs (copyout (idx2pa r) dst src s) (copied r s T dst src).
Proof. intros. apply (copyout_loop_spec _ s r T pr); auto with lia. Qed.

(** ** When the copy succeeds *)

(** A page that [copyout] writes without a fault. *)
Definition ready (m : mem) (T : Z -> option Z) (x : Z) : Prop :=
  let v := leaf m T x in
  has v PTE_V = true /\ has v PTE_U = true /\ has v PTE_W = true /\ has v PTE_COW = false.

Lemma copyout_page_ready s r T va :
  uinv s r T -> 0 <= va < 2^32 -> ready (k_mem s) T va ->
  exists d, maps (k_mem s) T va d /\ copyout_page (idx2pa r) va s = Ok (idx2pa d) s.
Proof.
  intros Hinv Hva (Hv & Hu & Hw & Hc).
  destruct (ui_frame _ _ _ Hinv va Hva) as (d & Hm & _).
  { split; [done|]. by rewrite Hw. }
  exists d. split; [done|]. pose proof Hm as (_ & Hpa & Hd).
  pose proof (walk_noalloc s r T va (ui_pt _ _ _ Hinv) Hva) as Hwalk.
  destruct (T (PX 1 va)) as [c|] eqn:ET; [|unfold leaf in Hv; by rewrite ET in Hv].
  destruct (slot_nonzero _ _ _ _ _ _ (ui_pt _ _ _ Hinv) ET) as (_ & Hs & Hl).
  unfold copyout_page. rewrite (bind_ok _ _ _ _ _ Hwalk).
  replace (slot T va =? 0) with false by lia. unfold load_pte, bind at 1, gets. cbn [rbind].
  rewrite Hl, Hv, Hu, Hc, Hpa. cbn [negb orb]. unfold bind at 1, ret at 1. cbn [rbind].
  destruct (Z.eqb_spec (idx2pa d) 0); [by apply idx2pa_nonzero in Hd|].
  rewrite (bind_ok _ _ _ _ _ Hwalk). replace (slot T va =? 0) with false by lia.
  unfold bind, ret. cbn [rbind]. by rewrite Hl, Hw.
Qed.

Lemma copyout_loop_ready fuel s r T dst src :
  uinv s r T -> 0 <= dst < 2^32 -> Forall (fun b => 0 <= b < 256) src ->
  (length src < fuel)%nat ->
  (forall x, hits dst (length src) x -> ready (k_mem s) T x) ->
  runs (copyout_loop fuel (idx2pa r) dst src s) (fun e s' => e = 0 /\ uinv s' r T /\
    forall x, leaf (k_mem s') T x = leaf (k_mem s) T x).
Proof.
  revert s dst src. induction fuel as [|fuel IH]; intros s dst src Hinv Hd Hsrc Hf Hrd; [lia|].
  destruct src as [|b0 src0]; [done|]. set (src := b0 :: src0) in *.
  destruct (PGROUNDDOWN_page dst Hd) as (Hra & Hrm & Hrv & Hrb).
  assert (Hr0 : ready (k_mem s) T dst).
  { apply Hrd, hits_first; [done|unfold src; simpl; lia]. }
  rewrite copyout_loop_S by done. cbv zeta.
  replace (PGROUNDDOWN dst >=? MAXVA) with false by (change MAXVA with (2^32); lia).
  destruct (copyout_page_ready s r T (PGROUNDDOWN dst)) as (d & Hm & He); [done|done| |].
  { unfold ready in *. by rewrite (leaf_vpn _ _ dst (PGROUNDDOWN dst)). }
  rewrite (bind_ok _ _ _ _ _ He).
  destruct (Z.eqb_spec (idx2pa d) 0) as [H0|_]; [destruct Hm as (_ & _ & Hdr); by apply idx2pa_nonzero in Hdr|].
  assert (Hoff : dst - PGROUNDDOWN dst = dst mod PGSIZE)
    by (rewrite PGROUNDDOWN_eq by done; unfold PGSIZE; zlia).
  assert (Hmod : 0 <= dst mod PGSIZE < PGSIZE) by (apply Z.mod_pos_bound; done).
  rewrite Hoff. set (k := Z.to_nat _). apply runs_bind. cbn [runs upd_mem modify].
  assert (Hk : (0 < k <= length src)%nat) by (unfold k, src; simpl length; lia).
  rewrite (maps_vpn _ _ (PGROUNDDOWN dst) dst) in Hm by done.
  destruct (poke_spec s r T dst d (take k src)) as (Hwo1 & Hlf & _); try done.
  { apply Hr0. }
  { rewrite length_take. lia. }
  { by apply Forall_take. }
  eapply runs_mono.
  - apply IH; [apply (wo_inv _ _ _ _ _ _ Hwo1)| |by apply Forall_drop| |].
    + unfold u32. apply Z.mod_pos_bound. done.
    + rewrite length_drop. lia.
    + intros x Hx. rewrite length_drop in Hx. unfold ready. rewrite Hlf.
      apply Hrd, (hits_rest dst k); try done; unfold k in *; lia.
  - intros e s' (-> & Hi' & Hl'). split; [done|]. split; [done|]. intros x. by rewrite Hl', Hlf.
Qed.

(** ** [copyin] *)

(** [walkaddr] translates as the user would be allowed to. *)
Lemma walkaddr_eq s r T va :
  uinv s r T -> 0 <= va < 2^32 ->
  walkaddr (idx2pa r) va s =
    Ok (let v := leaf (k_mem s) T va in
        if has v PTE_V && has v PTE_U then PTE2PA v else 0) s.
Proof.
  intros Hinv Hva. unfold walkaddr.
  replace (va >=? MAXVA) with false by (change MAXVA with (2^32); lia).
  rewrite (bind_ok _ _ _ _ _ (walk_noalloc s r T va (ui_pt _ _ _ Hinv) Hva)).
  destruct (T (PX 1 va)) as [c|] eqn:ET.
  - destruct (slot_nonzero _ _ _ _ _ _ (ui_pt _ _ _ Hinv) ET) as (_ & Hs & Hl).
    replace (slot T va =? 0) with false by lia. unfold load_pte, bind, gets. cbn [rbind].
    rewrite Hl. cbv zeta. by destruct (has _ PTE_V), (has _ PTE_U).
  - unfold slot, leaf. by rewrite ET.
Qed.

(** A page [copyin] reads from: present, with its frame. *)
Definition source_post (r : Z) (s : kstate) (T : Z -> option Z) (va p : Z)
    (s' : kstate) : Prop :=
  exists T', quiet r s T s' T' /\
    (p = 0 \/ exists d, p = idx2pa d /\ maps (k_mem s') T' va d /\
       has (leaf (k_mem s') T' va) PTE_U || has (leaf (k_mem s') T' va) PTE_W = true).

Lemma copyin_page_spec `{!LayoutOk L} s r T pr va :
  uinv s r T -> running s pr -> as_wf (p_as pr) -> 0 <= va < 2^32 ->
  runs ((pa0 <- walkaddr (idx2pa r) va ;;
         if pa0 =? 0 then vmfault (idx2pa r) va false else ret pa0) s)
    (source_post r s T va).
Proof.
  intros Hinv Hrun Hwf Hva. rewrite (bind_ok _ _ _ _ _ (walkaddr_eq s r T va Hinv Hva)).
  cbv zeta. destruct (has _ PTE_V && has _ PTE_U) eqn:E.
  - apply andb_true_iff in E as [Hv Hu].
    destruct (ui_frame _ _ _ Hinv va Hva) as (d & Hm & _).
    { split; [done|]. by rewrite Hu, orb_true_r. }
    pose proof Hm as (_ & Hpa & Hd). rewrite Hpa.
    destruct (Z.eqb_spec (idx2pa d) 0); [by apply idx2pa_nonzero in Hd|].
    cbn. exists T. split; [by apply quiet_refl|]. right. exists d. by rewrite Hu.
  - cbn [Z.eqb]. eapply runs_mono; [by apply (vmfault_spec s r T pr)|].
    intros p s' [T' H]. exists T'. split; [apply H|]. by eapply fault_maps.
Qed.

Definition fetched (r : Z) (s : kstate) (T : Z -> option Z) (src len : Z) (dst : list Z)
    (e : Z * list Z) (s' : kstate) : Prop :=
  exists T', quiet r s T s' T' /\
    (e.1 = -1 \/ exists bs, e = (0, dst ++ bs) /\ Z.of_nat (length bs) = len /\
       forall i b, bs !! i = Some b ->
         peek false (k_mem s') T' (u32 (src + Z.of_nat i)) = Some b).

(** The bytes of one page, read from its frame. *)
Lemma read_page s r T va d n i b :
  uinv s r T -> 0 <= va < 2^32 -> maps (k_mem s) T va d ->
  has (leaf (k_mem s) T va) PTE_U || has (leaf (k_mem s) T va) PTE_W = true ->
  va mod PGSIZE + Z.of_nat n <= PGSIZE ->
  read_bytes n (k_mem s) (idx2pa d + va mod PGSIZE) !! i = Some b ->
  (i < n)%nat /\ u32 (va + Z.of_nat i) = va + Z.of_nat i /\
  peek false (k_mem s) T (va + Z.of_nat i) = Some b.
Proof.
  intros Hinv Hva (Hv & Hpa & Hd) Huw Hn Hi.
  pose proof (lookup_lt_Some _ _ _ Hi) as Hil. rewrite read_bytes_length in Hil.
  assert (Hmod : (va + Z.of_nat i) mod PGSIZE = va mod PGSIZE + Z.of_nat i)
    by (unfold PGSIZE in *; zlia).
  assert (Hvi : 0 <= va + Z.of_nat i < 2^32) by (unfold PGSIZE in *; zlia).
  split; [done|]. split; [unfold u32; by rewrite Z.mod_small|].
  unfold peek. rewrite (leaf_vpn _ _ va (va + Z.of_nat i)) by
    (done || unfold vpn, PGSIZE in *; zlia).
  rewrite read_bytes_lookup in Hi by done. injection Hi as <-.
  rewrite Hv, Hpa, Hmod. cbn [andb negb]. rewrite orb_assoc, Huw. cbn. f_equal. f_equal. lia.
Qed.

Lemma copyin_loop_spec `{!LayoutOk L} fuel s r T pr src len dst :
  uinv s r T -> running s pr -> as_wf (p_as pr) -> 0 <= src < 2^32 -> 0 <= len < 2^32 ->
  len < Z.of_nat fuel ->
  runs (copyin_loop fuel (idx2pa r) src len dst s) (fetched r s T src len dst).
Proof.
  revert s T src len dst. induction fuel as [|fuel IH]; intros s T src len dst Hinv Hrun Hwf Hs Hl Hf;
    [lia|].
  destruct (PGROUNDDOWN_page src Hs) as (Hra & Hrm & Hrv & Hrb).
  simpl copyin_loop. destruct (len >? 0) eqn:Hpos.
  2: { cbn. exists T. split; [by apply quiet_refl|]. right. exists []. rewrite app_nil_r.
       split; [done|]. split; [simpl; lia|done]. }
  apply runs_assoc, runs_bind.
  eapply runs_mono; [by apply (copyin_page_spec s r T pr)|].
  intros p s1 (T1 & Hq & Hp).
  destruct Hp as [->|(d & -> & Hm & Huw)]; [cbn; exists T1; split; [done|by left]|].
  destruct (Z.eqb_spec (idx2pa d) 0) as [H0|_]; [destruct Hm as (_ & _ & Hdr); by apply idx2pa_nonzero in Hdr|].
  assert (Hoff : src - PGROUNDDOWN src = src mod PGSIZE)
    by (rewrite PGROUNDDOWN_eq by done; unfold PGSIZE; zlia).
  assert (Hmod : 0 <= src mod PGSIZE < PGSIZE) by (apply Z.mod_pos_bound; done).
  rewrite Hoff. set (n := Z.min (PGSIZE - src mod PGSIZE) len).
  rewrite (maps_vpn _ _ (PGROUNDDOWN src) src) in Hm by done.
  rewrite <- (leaf_vpn _ _ (PGROUNDDOWN src) src) in Huw by done.
  unfold bind at 1, gets. cbn [rbind].
  pose proof (q_inv _ _ _ _ _ Hq) as Hinv1.
  eapply runs_mono.
  - apply (IH s1 T1); [done| |done| |lia|lia].
    + by eapply running_aframe; [apply (q_frame _ _ _ _ _ Hq)|].
    + unfold u32. apply Z.mod_pos_bound. done.
  - intros e s3 (T3 & Hq3 & He). exists T3. split; [by eapply quiet_trans|].
    destruct He as [He|(bs & -> & Hbl & Hbs)]; [by left|right].
    eexists. rewrite <- app_assoc. split; [done|]. rewrite length_app, read_bytes_length.
    split; [lia|]. intros i b Hi. apply lookup_app_Some in Hi as [Hi|[Hge Hi]].
    + destruct (read_page s1 r T1 src d (Z.to_nat n) i b) as (Hin & Hsm & Hpk); try done; [lia|].
      rewrite Hsm. apply (q_peek _ _ _ _ _ Hq3); [|done]. rewrite <- Hsm.
      unfold u32. apply Z.mod_pos_bound. done.
    + rewrite read_bytes_length in Hge, Hi. pose proof (lookup_lt_Some _ _ _ Hi).
      rewrite (next_page_addr src (Z.to_nat n) (Z.to_nat len) i) by (done || lia).
      by apply Hbs.
Qed.

Lemma copyin_loop_ready fuel s r T src len dst :
  uinv s r T -> 0 <= src < 2^32 -> 0 <= len -> len < Z.of_nat fuel ->
  (forall x, hits src (Z.to_nat len) x -> exists b, peek true (k_mem s) T x = Some b) ->
  runs (copyin_loop fuel (idx2pa r) src len dst s) (fun e _ => e.1 = 0).
Proof.
  revert src len dst. induction fuel as [|fuel IH]; intros src len dst Hinv Hs Hl Hf Hrd; [lia|].
  simpl copyin_loop. destruct (len >? 0) eqn:Hpos; [|done].
  destruct (PGROUNDDOWN_page src Hs) as (Hra & Hrm & Hrv & Hrb).
  assert (Hoff : src - PGROUNDDOWN src = src mod PGSIZE)
    by (rewrite PGROUNDDOWN_eq by done; unfold PGSIZE; zlia).
  assert (Hmod : 0 <= src mod PGSIZE < PGSIZE) by (apply Z.mod_pos_bound; done).
  destruct (Hrd src) as [b Hb].
  { apply hits_first; [done|lia]. }
  destruct (peek_userish _ _ _ _ _ Hb) as [Hus _].
  destruct (ui_frame _ _ _ Hinv src Hs Hus) as (d & (_ & Hpa & Hd) & _).
  rewrite (bind_ok _ _ _ _ _ (walkaddr_eq s r T _ Hinv Hra)). cbv zeta.
  rewrite (leaf_vpn _ _ src (PGROUNDDOWN src)) by done.
  unfold peek in Hb. cbn [negb andb] in Hb. rewrite orb_false_r in Hb.
  destruct (has _ PTE_V && has _ PTE_U); [|done]. rewrite Hpa.
  destruct (Z.eqb_spec (idx2pa d) 0); [by apply idx2pa_nonzero in Hd|].
  unfold bind at 1, ret at 1. cbn [rbind].
  destruct (Z.eqb_spec (idx2pa d) 0); [done|].
  unfold bind at 1, gets. cbn [rbind]. apply IH; [done| |lia|lia|].
  - unfold u32. apply Z.mod_pos_bound. done.
  - intros x Hx. rewrite Hoff in Hx.
    apply Hrd, (hits_rest src (Z.to_nat (Z.min (PGSIZE - src mod PGSIZE) len)));
      try done; try lia.
    by replace (Z.to_nat len - Z.to_nat (Z.min (PGSIZE - src mod PGSIZE) len))%nat
      with (Z.to_nat (len - Z.min (PGSIZE - src mod PGSIZE) len)) by lia.
Qed.
End fault.
