(* ===== verification/UserSpec.v ===== *)
(** * User memory: results

    What the page-fault handler and the copy routines of [addrspace.c]
    guarantee, and a concrete address space with a shared copy-on-write page
    on which the statements are instantiated. *)

From S2P Require Import Prelude CMem Machine Sv32 Spinlock Kalloc KallocProof.
From S2P Require Import KallocSpec Sched AddrSpace Regions PageTable UserMem UserCopy.

#[local] Opaque memset.

Section results.
Context `{L : Layout}.

Lemma leaf_private s r T va n f :
  uinv s r T -> 0 <= va < 2^32 -> 0 <= n < NPAGES -> 0 <= f < 1024 ->
  has f PTE_V = true -> has f PTE_W = true ->
  leaf (k_mem s) T va = mkpte (idx2pa n) f -> refs s n = 1.
Proof.
  intros Hinv Hva Hn Hf Hv Hw Hl. pose proof (idx2pa_range n Hn).
  apply (ui_excl _ _ _ Hinv va).
  - done.
  - unfold maps. rewrite Hl, PTE2PA_page by done. unfold PTE_V in *.
    by rewrite has_mkpte by (done || lia).
  - rewrite Hl. unfold PTE_W in *. by rewrite has_mkpte by (done || lia).
Qed.

(** C8: a write fault on a present copy-on-write page either finds no free
    page of RAM and leaves the translation as it was, or gives the process a page of
    its own: writable, no longer copy-on-write, referenced once, with the same
    access for the user and, because the step is [quiet], the same bytes at
    every address; no page that another address space can reach changes. *)
Theorem cow_break_private `{!LayoutOk L} (s : kstate) (r : Z) (T : Z -> option Z) (va : Z) :
  uinv s r T -> 0 <= va < 2^32 ->
  has (leaf (k_mem s) T va) PTE_V = true -> has (leaf (k_mem s) T va) PTE_COW = true ->
  runs (cow_break (slot T va) (leaf (k_mem s) T va) s) (fun p s' =>
    quiet r s T s' T /\
    ((p = 0 /\ exhausted s /\ forall x, leaf (k_mem s') T x = leaf (k_mem s) T x) \/
     (exists n, p = idx2pa n /\ refs s n = 0 /\ refs s' n = 1 /\
        let v := leaf (k_mem s') T va in
        PTE2PA v = p /\ has v PTE_V = true /\ has v PTE_W = true /\ has v PTE_COW = false /\
        has v PTE_U = has (leaf (k_mem s) T va) PTE_U /\
        forall x, 0 <= x < 2^32 -> vpn x <> vpn va ->
          leaf (k_mem s') T x = leaf (k_mem s) T x))).
Proof.
  intros Hinv Hva Hv Hc. eapply runs_mono; [by apply cow_break_spec|].
  intros p s' [Hq Hp]. split; [done|].
  destruct Hp as [|(n & -> & Hn & Hn0 & Hl)]; [by left|right]. exists n.
  set (v0 := leaf (k_mem s) T va) in *. pose proof (cow_flags_range v0) as Hfr.
  destruct (cow_flags_has v0) as (Hw & Hnc & Hfv & Hfu).
  assert (Hlv : leaf (k_mem s') T va = mkpte (idx2pa n) (cow_flags v0))
    by (rewrite Hl by done; by case_decide).
  split; [done|]. split; [done|]. split.
  { eapply (leaf_private s' r T va n); try done; [apply (q_inv _ _ _ _ _ Hq)|by rewrite Hfv]. }
  pose proof (idx2pa_range n Hn). cbv zeta. rewrite Hlv, PTE2PA_page by done.
  unfold PTE_V, PTE_W, PTE_COW, PTE_U in *. rewrite !has_mkpte by (done || lia).
  rewrite Hfv, Hw, Hnc, Hfu. do 5 (split; [done|]).
  intros x Hx Hne. rewrite Hl by done. by case_decide.
Qed.

(** C29: whatever address a process faults on, [vmfault] returns normally, and
    either reports failure with no translation changed, or maps one page that
    was free behind that address and behind no other.  In both cases the
    bytes the process could read are unchanged, and so are the pages shared
    with or belonging to other address spaces. *)
Theorem vmfault_isolated `{!LayoutOk L} (s : kstate) (r : Z) (T : Z -> option Z)
    (pr : proc) (va : Z) (read : bool) :
  uinv s r T -> running s pr -> as_wf (p_as pr) -> 0 <= va < 2^32 ->
  runs (vmfault (idx2pa r) va read s) (fun p s' => exists T',
    quiet r s T s' T' /\
    ((p = 0 /\ forall x, 0 <= x < 2^32 -> leaf (k_mem s') T' x = leaf (k_mem s) T x) \/
     (exists n f, p = idx2pa n /\ 0 <= n < NPAGES /\ refs s n = 0 /\
        0 <= f < 1024 /\ has f PTE_V = true /\ has f PTE_U || has f PTE_W = true /\
        forall x, 0 <= x < 2^32 -> leaf (k_mem s') T' x =
          if decide (vpn x = vpn va) then mkpte (idx2pa n) f else leaf (k_mem s) T x))).
Proof. intros Hinv Hr Hwf Hva. by apply (vmfault_spec s r T pr). Qed.

(** C2: [copyout] returns 0 or -1 and never panics, and 0 whenever the pages of
    the destination are present, writable and not copy-on-write.  On 0 every destination
    address holds the byte copied, for the kernel and for any user access that
    is allowed; in both cases no other readable byte of the process and no
    page another address space can reach is changed.  The destination may
    straddle pages, be unmapped heap or be shared copy-on-write. *)
Theorem copyout_correct `{!LayoutOk L} (s : kstate) (r : Z) (T : Z -> option Z)
    (pr : proc) (dst : Z) (src : list Z) :
  uinv s r T -> running s pr -> as_wf (p_as pr) -> 0 <= dst < 2^32 ->
  Z.of_nat (length src) <= 2^32 -> Forall (fun b => 0 <= b < 256) src ->
  runs (copyout (idx2pa r) dst src s) (fun e s' => exists T',
    writes_only r s T (hits dst (length src)) s' T' /\
    ((forall x, hits dst (length src) x -> ready (k_mem s) T x) -> e = 0) /\
    (e = -1 \/ e = 0 /\ forall i b, src !! i = Some b ->
       peek false (k_mem s') T' (u32 (dst + Z.of_nat i)) = Some b /\
       forall b', peek true (k_mem s') T' (u32 (dst + Z.of_nat i)) = Some b' -> b' = b)).
Proof.
  intros Hinv Hr Hwf Hd Hl Hb.
  pose proof (copyout_spec s r T pr dst src Hinv Hr Hwf Hd Hl Hb) as H.
  destruct (copyout (idx2pa r) dst src s) as [e s'| |] eqn:E; try done.
  destruct H as (T' & Hw & He). exists T'. split; [done|]. split.
  { intros Hrd. pose proof (copyout_loop_ready (S (length src)) s r T dst src Hinv Hd Hb
      ltac:(lia) Hrd) as H0. unfold copyout in E. rewrite E in H0. apply H0. }
  destruct He as [->|[-> He]]; [by left|right]. split; [done|]. intros i b Hi.
  specialize (He i b Hi). split; [done|]. intros b' Hb'.
  destruct (peek_userish _ _ _ _ _ He) as [_ ->]. by destruct (peek_userish _ _ _ _ _ Hb') as [_ ->].
Qed.

(** C30: [copyin] returns normally, with 0 whenever the user itself could read
    every source address; on 0 the bytes are exactly the [len] bytes
    found at the source addresses, and nothing the process or another address
    space can read has changed. *)
Theorem copyin_correct `{!LayoutOk L} (s : kstate) (r : Z) (T : Z -> option Z)
    (pr : proc) (src len : Z) :
  uinv s r T -> running s pr -> as_wf (p_as pr) -> 0 <= src < 2^32 -> 0 <= len < 2^32 ->
  runs (copyin (idx2pa r) src len s) (fun e s' => exists T', quiet r s T s' T' /\
    ((forall x, hits src (Z.to_nat len) x -> exists b, peek true (k_mem s) T x = Some b) ->
       e.1 = 0) /\
    (e.1 = -1 \/ exists bs, e = (0, bs) /\ Z.of_nat (length bs) = len /\
       forall i b, bs !! i = Some b ->
         peek false (k_mem s') T' (u32 (src + Z.of_nat i)) = Some b)).
Proof.
  intros Hinv Hr Hwf Hs Hl.
  pose proof (copyin_loop_spec (S (Z.to_nat len)) s r T pr src len [] Hinv Hr Hwf Hs Hl
    ltac:(lia)) as H.
  destruct (copyin (idx2pa r) src len s) as [e s'| |] eqn:E; unfold copyin in E;
    rewrite E in H; try done.
  destruct H as (T' & Hq & He). exists T'. split; [done|]. split; [|done].
  intros Hrd. pose proof (copyin_loop_ready (S (Z.to_nat len)) s r T src len [] Hinv Hs
    ltac:(lia) ltac:(lia) Hrd) as H0. by rewrite E in H0.
Qed.

(** ** A new address space *)

Lemma load32_zero_page m n i :
  (forall a, page_addr n a -> load8 m a = 0) -> 0 <= i < 1024 ->
  load32 m (idx2pa n + 4 * i) = 0.
Proof.
  intros H Hi. unfold load32. rewrite !H; [done|..]; unfold page_addr, PGSIZE; lia.
Qed.

Lemma uvmcreate_fresh s :
  alloc_ok s -> runs (uvmcreate s) (fun p s' => p = 0 \/ exists r, p = idx2pa r /\ fresh s s' r).
Proof.
  intros Hok. unfold uvmcreate. apply runs_bind. eapply runs_mono; [by apply kalloc_client|].
  intros q s1 (Hok1 & Hf1 & Hk1 & Hq).
  destruct Hq as [(-> & Hex & Hex' & Hr)|(n & Hn & -> & Hn0 & Hr1)]; [by left|].
  destruct (Z.eqb_spec (idx2pa n) 0); [by apply idx2pa_nonzero in Hn|].
  apply runs_bind. eapply runs_mono; [by apply (zero_fresh s)|]. intros [] s2 H.
  cbn. right. by exists n.
Qed.

(** An empty table is a space in which nothing is mapped. *)
Lemma fresh_space s s' r : fresh s s' r -> uinv s' r (fun _ => None).
Proof.
  intros H. assert (Hno : forall va, ~ userish (k_mem s') (fun _ => None) va).
  { intros va [Hv _]. unfold leaf in Hv. done. }
  split; [apply (fr_ok _ _ _ H)| | | |].
  - split; try done.
    + split; [|apply H]. apply (fresh_used _ _ _ _ H). by right.
    + intros i Hi. rewrite (load32_zero_page _ r) by (done || apply (fr_zero _ _ _ H)). done.
  - intros va _ Hu. by destruct (Hno va).
  - intros va va' d _ _ Hu. by destruct (Hno va).
  - intros va d _ (Hv & _). unfold leaf in Hv. done.
Qed.

Lemma uvmcreate_spec s :
  alloc_ok s -> runs (uvmcreate s) (fun p s' => p = 0 \/
    exists r, p = idx2pa r /\ refs s r = 0 /\ uinv s' r (fun _ => None) /\ aframe s s').
Proof.
  intros Hok. eapply runs_mono; [by apply uvmcreate_fresh|].
  intros p s' [->|(r & -> & H)]; [by left|right]. exists r. split; [done|].
  split; [apply H|]. split; [by eapply fresh_space|apply H].
Qed.

(** Another reference to a page that is not mapped writable. *)
Lemma uinv_addref s r T n s' :
  uinv s r T -> used s n -> alloc_ok s' -> k_mem s' = k_mem s ->
  (forall j, refs s' j = fupd (refs s) n (refs s n + 1) j) ->
  (forall va, 0 <= va < 2^32 -> maps (k_mem s) T va n ->
     has (leaf (k_mem s) T va) PTE_W = false) ->
  uinv s' r T.
Proof.
  intros [H1 H2 H3 H4 H5] Hn Hok Hm Hr Hnw.
  assert (Hu : forall j, used s j -> used s' j).
  { intros j Hj. unfold used in *. rewrite Hr. unfold fupd. case_decide; lia. }
  split; rewrite ?Hm; try done.
  - destruct (ptable_ext (k_mem s) (k_mem s) (used s) (used s') r T) as [Hpt _]; try done.
    intros j Hj. by apply Hu, (tabs_used _ _ _ _ _ H2).
  - intros va Hva Hus. destruct (H3 va Hva Hus) as (d & Hd & Hdu & Hdt). exists d. auto.
  - intros va d Hva Hmap Hw. rewrite Hr. unfold fupd. case_decide as Hd; [|by apply (H5 va)].
    subst. by rewrite (Hnw va) in Hw.
Qed.
End results.

(** ** Witnesses *)

(** A process whose heap is [0x0 - 0x3000], the current process of a machine
    with eight pages of RAM.  It gets an empty table, and at address 0 a page
    that is copy-on-write and referenced twice, as after a fork. *)
Definition demo_proc : proc :=
  set_p_as (mkAS 0 (mkRegion 0 0x3000 MR_HEAP (Z.lor PTE_R PTE_W) ::
                    replicate (Z.to_nat MAX_MREGIONS - 1) zero_region) 1)
    (set_p_state RUNNING zero_proc).
Definition demo_boot : kstate :=
  set_cpu (mkCpu (Some 0) 0 0) (set_procs [demo_proc] boot_state).
Definition demo_flags : Z := Z.lor PTE_R (Z.lor PTE_U PTE_COW).
Definition demo_map (flags pt : Z) : K Z :=
  mem <- kalloc ;;
  if mem =? 0 then ret 0 else
  zero_page mem ;;
  e <- mappages pt 0 PGSIZE mem flags ;;
  if negb (e =? 0) then @kfree small_layout mem ;; ret 0 else ret mem.
Definition demo_build (flags : Z) : K (Z * Z) :=
  pt <- uvmcreate ;; m <- demo_map flags pt ;; ret (pt, m).
Definition demo (flags : Z) : K (Z * Z) := @kinit small_layout ;; demo_build flags.

Lemma demo_as_wf : as_wf (p_as demo_proc).
Proof.
  assert (Hc : region_count (p_as demo_proc) = 1) by reflexivity.
  split; [reflexivity|rewrite Hc; split; vm_compute; done|..]; rewrite Hc; intros i.
  - intros Hi. assert (i = 0) as -> by lia. vm_compute. intuition congruence.
  - intros j Hi Hj. lia.
  - intros j Hi Hj. lia.
  - intros j Hi Hj. lia.
Qed.

Definition demo_done (r : res kstate (Z * Z)) : Prop :=
  match r with
  | Ok (pt, m) s => negb (pt =? 0) && negb (m =? 0) = true /\
      k_procs s = [demo_proc] /\ c_proc (k_cpu s) = Some 0 /\ refs s (pa2idx m) = 1
  | _ => False
  end.
Lemma demo_ok : demo_done (demo demo_flags demo_boot).
Proof. vm_compute. done. Qed.

Lemma demo_running s : k_procs s = [demo_proc] -> c_proc (k_cpu s) = Some 0 ->
  running s demo_proc.
Proof.
  intros Hp Hc. exists 0. rewrite Hp, Hc. do 3 (split; [done|]).
  intros i Hi. assert (i = 0) as -> by (cbn in Hi; lia). vm_compute. intuition congruence.
Qed.

Lemma demo_share s r T n :
  @uinv small_layout s r T -> k_procs s = [demo_proc] -> c_proc (k_cpu s) = Some 0 ->
  leaf (k_mem s) T 0 = mkpte (idx2pa n) (Z.lor demo_flags PTE_V) -> 0 <= n < NPAGES ->
  refs s n = 1 ->
  exists s' r' T' n', @uinv small_layout s' r' T' /\ running s' demo_proc /\
    leaf (k_mem s') T' 0 = mkpte (idx2pa n') (Z.lor demo_flags PTE_V) /\
    0 <= n' < NPAGES /\ refs s' n' = 2.
Proof.
  intros Hinv Hpr Hcp Hl Hn Hr. pose proof (idx2pa_range n Hn) as Hnr.
  set (f := Z.lor demo_flags PTE_V) in *. assert (Hf : 0 <= f < 1024) by done.
  assert (Hm : maps (k_mem s) T 0 n).
  { unfold maps. rewrite Hl, PTE2PA_page by done. unfold PTE_V. by rewrite has_mkpte. }
  assert (Hus : userish (k_mem s) T 0).
  { split; [apply Hm|]. rewrite Hl. unfold PTE_W, PTE_U, PTE_COW. by rewrite !has_mkpte. }
  destruct (proj1 (runs_ok _ _) (@kaddref_client small_layout s n (ui_alloc _ _ _ Hinv)
    ltac:(unfold used; lia) ltac:(lia))) as ([] & s' & _ & Hok & Hf' & Hmem & Hr').
  exists s', r, T, n. destruct (aframe_procs _ _ Hf') as (E1 & E2 & _). split; [|split; [|split]].
  - eapply (uinv_addref s); try done; [unfold used; lia|]. intros va Hva Hmv.
    assert (Hu : has (leaf (k_mem s) T va) PTE_W = true -> userish (k_mem s) T va).
    { intros Hw. split; [apply Hmv|by rewrite Hw]. }
    destruct (has (leaf (k_mem s) T va) PTE_W) eqn:Hw; [|done].
    assert (Hv : vpn va = vpn 0) by (apply (ui_inj _ _ _ Hinv 0 va n); auto; lia).
    rewrite (leaf_vpn _ _ 0 va), Hl in Hw by (done || lia).
    unfold PTE_W in Hw. by rewrite has_mkpte in Hw.
  - apply demo_running; congruence.
  - by rewrite Hmem.
  - split; [done|]. rewrite Hr'. unfold fupd. case_decide; [lia|done].
Qed.

Lemma demo_map_spec flags s r :
  0 <= flags < 1024 -> @uinv small_layout s r (fun _ => None) ->
  runs (demo_map flags (idx2pa r) s) (fun p s' => p = 0 \/ exists T n, p = idx2pa n /\
    @uinv small_layout s' r T /\ 0 <= n < NPAGES /\
    leaf (k_mem s') T 0 = mkpte (idx2pa n) (Z.lor flags PTE_V)).
Proof.
  intros Hf Hinv. pose proof small_layout_ok as HL.
  eapply runs_mono; [by apply (map_fresh s r (fun _ => None) 0 flags Hinv)|].
  intros p s' (T & Hq & [[-> _]|(n & -> & Hn & _ & _ & Hl)]); [by left|right].
  exists T, n. split; [done|]. split; [apply (q_inv _ _ _ _ _ Hq)|]. split; [done|].
  rewrite Hl by lia. by case_decide.
Qed.

Lemma demo_build_spec flags s1 pt m s :
  0 <= flags < 1024 -> @alloc_ok small_layout s1 -> demo_build flags s1 = Ok (pt, m) s -> pt <> 0 -> m <> 0 ->
  exists r T n, m = idx2pa n /\ @uinv small_layout s r T /\ 0 <= n < NPAGES /\
    leaf (k_mem s) T 0 = mkpte (idx2pa n) (Z.lor flags PTE_V).
Proof.
  intros Hf Hok He Hpt Hm. unfold demo_build in He.
  destruct (proj1 (runs_ok _ _) (@uvmcreate_spec small_layout s1 Hok)) as (pt' & s2 & E2 & Hr).
  rewrite (bind_ok _ _ _ _ _ E2) in He.
  assert (Hpt' : pt' = pt).
  { unfold bind, ret in He. destruct (demo_map flags pt' s2); cbn [rbind] in He; congruence. }
  subst pt'. destruct Hr as [|(r & -> & _ & Hinv2 & _)]; [done|].
  destruct (proj1 (runs_ok _ _) (demo_map_spec flags s2 r Hf Hinv2)) as (m' & s3 & E3 & Hp).
  rewrite (bind_ok _ _ _ _ _ E3) in He. unfold ret in He. injection He as -> ->.
  destruct Hp as [->|(T & n & -> & Hinv3 & Hn & Hl0)]; [done|]. by exists r, T, n.
Qed.

Lemma demo_split flags s pm s' :
  demo flags s = Ok pm s' -> exists s1, @kinit small_layout s = Ok tt s1 /\ demo_build flags s1 = Ok pm s'.
Proof.
  unfold demo, bind. destruct (@kinit small_layout s) as [[] s1| |]; [|done|done].
  intros H. by exists s1.
Qed.

(** The space [demo] builds. *)
Lemma demo_mapped flags :
  0 <= flags < 1024 -> demo_done (demo flags demo_boot) ->
  exists s r T n, @uinv small_layout s r T /\ k_procs s = [demo_proc] /\ c_proc (k_cpu s) = Some 0 /\
    leaf (k_mem s) T 0 = mkpte (idx2pa n) (Z.lor flags PTE_V) /\ 0 <= n < NPAGES /\ refs s n = 1.
Proof.
  intros Hf Hd. destruct (demo flags demo_boot) as [[pt m] s| |] eqn:He; [|destruct Hd|destruct Hd].
  destruct Hd as (Hnz & Hpr & Hcp & Hrf). apply andb_true_iff in Hnz as [Hpt Hm].
  apply negb_true_iff, Z.eqb_neq in Hpt. apply negb_true_iff, Z.eqb_neq in Hm.
  assert (Hb : cpu_ok demo_boot) by (vm_compute; intuition congruence).
  destruct (demo_split _ _ _ _ He) as (s1 & E1 & E2).
  pose proof (@kinit_runs small_layout small_layout_ok _ Hb) as Hk.
  rewrite E1 in Hk. destruct Hk as (HK & Hl & Hc & _).
  destruct (demo_build_spec flags s1 pt m s Hf (conj Hc (conj Hl HK)) E2 Hpt Hm)
    as (r & T & n & -> & Hinv & Hn & Hl0).
  rewrite pa2idx_idx2pa in Hrf by exact Hn. exists s, r, T, n. clear He E1 E2. split_and!; assumption || apply Hn.
Qed.

(** With its page shared with another address space. *)
Lemma demo_space : exists s r T n,
  @uinv small_layout s r T /\ running s demo_proc /\
  leaf (k_mem s) T 0 = mkpte (idx2pa n) (Z.lor demo_flags PTE_V) /\
  0 <= n < NPAGES /\ refs s n = 2.
Proof.
  destruct (demo_mapped demo_flags ltac:(done) demo_ok) as (s & r & T & n & Hinv & Hpr & Hcp & Hl & Hn & Hrf).
  exact (demo_share s r T n Hinv Hpr Hcp Hl Hn Hrf).
Qed.

Lemma demo_flags_has n :
  0 <= n < NPAGES -> let v := mkpte (idx2pa n) (Z.lor demo_flags PTE_V) in
  has v PTE_V = true /\ has v PTE_COW = true.
Proof.
  intros Hn. pose proof (idx2pa_range n Hn). set (f := Z.lor demo_flags PTE_V).
  assert (Hf : 0 <= f < 1024) by done. cbv zeta.
  unfold PTE_V, PTE_COW. by rewrite !has_mkpte.
Qed.

Lemma cow_break_private_witness : exists s r T n,
  @uinv small_layout s r T /\ refs s n = 2 /\
  runs (@cow_break small_layout (slot T 0) (leaf (k_mem s) T 0) s) (fun p s' =>
    @quiet small_layout r s T s' T /\
    ((p = 0 /\ exhausted s /\ forall x, leaf (k_mem s') T x = leaf (k_mem s) T x) \/
     (exists n, p = idx2pa n /\ refs s n = 0 /\ refs s' n = 1 /\
        let v := leaf (k_mem s') T 0 in
        PTE2PA v = p /\ has v PTE_V = true /\ has v PTE_W = true /\ has v PTE_COW = false /\
        has v PTE_U = has (leaf (k_mem s) T 0) PTE_U /\
        forall x, 0 <= x < 2^32 -> vpn x <> vpn 0 ->
          leaf (k_mem s') T x = leaf (k_mem s) T x))).
Proof.
  destruct demo_space as (s & r & T & n & Hinv & Hrun & Hl & Hn & Hr).
  destruct (demo_flags_has n Hn) as [Hv Hc].
  exists s, r, T, n. split; [exact Hinv|]. split; [exact Hr|].
  apply (@cow_break_private small_layout small_layout_ok s r T 0 Hinv).
  - lia.
  - rewrite Hl. exact Hv.
  - rewrite Hl. exact Hc.
Defined.

Lemma vmfault_isolated_witness : exists s r T,
  @uinv small_layout s r T /\
  runs (@vmfault small_layout (idx2pa r) 0x1004 false s) (fun p s' => exists T',
    @quiet small_layout r s T s' T' /\
    ((p = 0 /\ forall x, 0 <= x < 2^32 -> leaf (k_mem s') T' x = leaf (k_mem s) T x) \/
     (exists n f, p = idx2pa n /\ 0 <= n < NPAGES /\ refs s n = 0 /\
        0 <= f < 1024 /\ has f PTE_V = true /\ has f PTE_U || has f PTE_W = true /\
        forall x, 0 <= x < 2^32 -> leaf (k_mem s') T' x =
          if decide (vpn x = vpn 0x1004) then mkpte (idx2pa n) f else leaf (k_mem s) T x))).
Proof.
  destruct demo_space as (s & r & T & n & Hinv & Hrun & _).
  exists s, r, T. split; [exact Hinv|].
  apply (@vmfault_isolated small_layout small_layout_ok s r T demo_proc 0x1004 false Hinv Hrun
    demo_as_wf). lia.
Defined.

Lemma copyout_correct_witness : exists s r T,
  @uinv small_layout s r T /\
  runs (@copyout small_layout (idx2pa r) 0xffe [1; 2; 3; 4] s) (fun e s' => exists T',
    @writes_only small_layout r s T (hits 0xffe 4) s' T' /\
    ((forall x, hits 0xffe 4 x -> ready (k_mem s) T x) -> e = 0) /\
    (e = -1 \/ e = 0 /\ forall i b, [1; 2; 3; 4] !! i = Some b ->
       peek false (k_mem s') T' (u32 (0xffe + Z.of_nat i)) = Some b /\
       forall b', peek true (k_mem s') T' (u32 (0xffe + Z.of_nat i)) = Some b' -> b' = b)).
Proof.
  destruct demo_space as (s & r & T & n & Hinv & Hrun & _).
  exists s, r, T. split; [exact Hinv|].
  apply (@copyout_correct small_layout small_layout_ok s r T demo_proc 0xffe [1; 2; 3; 4]
    Hinv Hrun demo_as_wf).
  - lia.
  - simpl. lia.
  - repeat constructor; lia.
Defined.

Lemma copyin_correct_witness : exists s r T,
  @uinv small_layout s r T /\
  runs (@copyin small_layout (idx2pa r) 0xffe 8 s) (fun e s' => exists T',
    @quiet small_layout r s T s' T' /\
    ((forall x, hits 0xffe 8 x -> exists b, peek true (k_mem s) T x = Some b) -> e.1 = 0) /\
    (e.1 = -1 \/ exists bs, e = (0, bs) /\ Z.of_nat (length bs) = 8 /\
       forall i b, bs !! i = Some b ->
         peek false (k_mem s') T' (u32 (0xffe + Z.of_nat i)) = Some b)).
Proof.
  destruct demo_space as (s & r & T & n & Hinv & Hrun & _).
  exists s, r, T. split; [exact Hinv|].
  apply (@copyin_correct small_layout small_layout_ok s r T demo_proc 0xffe 8 Hinv Hrun
    demo_as_wf); lia.
Defined.

Lemma demo_frames s r T n :
  @uinv small_layout s r T -> 0 <= n < NPAGES ->
  leaf (k_mem s) T 0 = mkpte (idx2pa n) (Z.lor demo_flags PTE_V) ->
  maps (k_mem s) T 0 n /\ frames_ok s r T 0 1.
Proof.
  intros Hinv Hn Hl. destruct (demo_flags_has n Hn) as [Hv Hc].
  assert (Hm : maps (k_mem s) T 0 n).
  { unfold maps. rewrite Hl. split; [done|]. split; [by apply PTE2PA_page|done]. }
  assert (H0 : forall x, 0 <= x < 2^32 -> in_range 0 1 x -> vpn x = vpn 0)
    by (unfold in_range; intros; lia).
  split; [done|]. split.
  - intros va Hva Hr _. destruct (ui_frame _ _ _ Hinv va Hva) as (d & Hd).
    { split; rewrite (leaf_vpn _ _ 0 va), Hl by auto with lia; [done|].
      by rewrite Hc, orb_true_r. }
    by exists d.
  - intros va va' d Hva Hva' Hr Hr' _ _. by rewrite (H0 va), (H0 va').
Qed.

(** An empty space on the same machine. *)
Definition demo_table : K Z := @kinit small_layout ;; uvmcreate.

Lemma demo_table_ok : exists pt s, demo_table demo_boot = Ok pt s /\ pt <> 0.
Proof.
  assert (H : match demo_table demo_boot with
    | Ok pt _ => negb (pt =? 0) = true | _ => False end) by (vm_compute; done).
  destruct (demo_table demo_boot) as [pt s| |]; [|destruct H|destruct H].
  exists pt, s. split; [reflexivity|]. by destruct (Z.eqb_spec pt 0).
Qed.

Lemma demo_table_split s pt s' :
  demo_table s = Ok pt s' -> exists s1, @kinit small_layout s = Ok tt s1 /\ uvmcreate s1 = Ok pt s'.
Proof.
  unfold demo_table, bind. destruct (@kinit small_layout s) as [[] s1| |]; [|done|done].
  intros H. by exists s1.
Qed.

Lemma demo_table_spec s0 pt s :
  cpu_ok s0 -> demo_table s0 = Ok pt s -> pt <> 0 ->
  exists r, @uinv small_layout s r (fun _ => None).
Proof.
  intros Hb He Hpt. destruct (demo_table_split _ _ _ He) as (s1 & E1 & E2).
  pose proof (@kinit_runs small_layout small_layout_ok _ Hb) as Hk. rewrite E1 in Hk.
  destruct Hk as (HK & Hl & Hc & _).
  pose proof (@uvmcreate_spec small_layout s1 (conj Hc (conj Hl HK))) as Hu. rewrite E2 in Hu.
  destruct Hu as [Hu|(r & _ & _ & Hinv & _)]; [done|]. by exists r.
Qed.

Lemma demo_empty : exists s r, @uinv small_layout s r (fun _ => None).
Proof.
  assert (Hb : cpu_ok demo_boot) by (vm_compute; intuition congruence).
  destruct demo_table_ok as (pt & s & He & Hpt). exists s.
  exact (demo_table_spec demo_boot pt s Hb He Hpt).
Qed.

Lemma mappages_correct_witness : exists s r T,
  @uinv small_layout s r T /\
  runs (mappages (idx2pa r) 0x1000 0x2000 KERNBASE PTE_R s) (fun e s' => exists T' k,
    @alloc_ok small_layout s' /\ ptable (k_mem s') (used s') r T' /\
    kept s s' (fun j => used s j /\ ~ tabs r T j) /\
    ((e = 0 /\ k = 0x2000 / PGSIZE) \/ (e = -1 /\ 0 <= k < 0x2000 / PGSIZE /\ exhausted s')) /\
    forall x, 0 <= x < 2^32 -> hw_walk (k_mem s') (idx2pa r) x =
      if decide (vpn 0x1000 <= vpn x < vpn 0x1000 + k)
      then mkpte (KERNBASE + (vpn x - vpn 0x1000) * PGSIZE) (Z.lor PTE_R PTE_V)
      else hw_walk (k_mem s) (idx2pa r) x).
Proof.
  destruct demo_empty as (s & r & Hinv).
  exists s, r, (fun _ => None). split; [exact Hinv|].
  apply (@mappages_correct small_layout s (fun _ => None) r 0x1000 0x2000 KERNBASE PTE_R
    (ui_alloc _ _ _ Hinv) (ui_pt _ _ _ Hinv)); try (unfold KERNBASE; lia); try reflexivity.
  - done.
  - intros x Hx _. rewrite (hw_walk_leaf _ _ _ _ _ (ui_pt _ _ _ Hinv)). reflexivity.
Defined.

Lemma uvmunmap_correct_witness : exists s r T n,
  @uinv small_layout s r T /\ refs s n = 2 /\
  let as_ := set_pagetable (idx2pa r) zero_as in
  runs (@uvmunmap small_layout as_ 0 1 true s) (fun _ s' =>
    @alloc_ok small_layout s' /\ ptable (k_mem s') (used s') r T /\
    kept s s' (fun j => used s' j /\ ~ tabs r T j) /\
    (forall x, 0 <= x < 2^32 -> 0 <= x < 0 + 1 * PGSIZE ->
       has (hw_walk (k_mem s') (idx2pa r) x) PTE_V = false) /\
    (forall x, 0 <= x < 2^32 -> ~ (0 <= x < 0 + 1 * PGSIZE) ->
       hw_walk (k_mem s') (idx2pa r) x = hw_walk (k_mem s) (idx2pa r) x) /\
    (forall x d, 0 <= x < 2^32 -> 0 <= x < 0 + 1 * PGSIZE -> maps (k_mem s) T x d ->
       refs s' d = if true then refs s d - 1 else refs s d) /\
    (forall d, (forall x, 0 <= x < 2^32 -> 0 <= x < 0 + 1 * PGSIZE ->
       ~ maps (k_mem s) T x d) -> refs s' d = refs s d)).
Proof.
  destruct demo_space as (s & r & T & n & Hinv & Hrun & Hl & Hn & Hr).
  destruct (demo_frames s r T n Hinv Hn Hl) as [_ Hf].
  exists s, r, T, n. split; [exact Hinv|]. split; [exact Hr|]. cbv zeta.
  apply (@uvmunmap_correct small_layout small_layout_ok s (set_pagetable (idx2pa r) zero_as) r T 0 1 true
    (ui_alloc _ _ _ Hinv) eq_refl (ui_pt _ _ _ Hinv));
    try (unfold PGSIZE; lia); try reflexivity. exact Hf.
Defined.

