(* ===== verification/UserFrame.v ===== *)
(** * Transfers between the kernel and a user's memory

    What a sequence of copies to and from the memory of the running process may
    do to address spaces, independent of the other state the copies are
    interleaved with. *)

From S2P Require Import Prelude CMem Machine Sv32 Spinlock Kalloc KallocProof.
From S2P Require Import KallocSpec Sched AddrSpace Regions PageTable UserMem UserCopy UserSpec.

Section frame.
Context `{L : Layout}.

(** What a transfer to the addresses [hit] may do to the space: as
    [writes_only], but kernel tables may change. *)
Record touches (r : Z) (s : kstate) (T : Z -> option Z) (hit : Z -> Prop)
    (s' : kstate) (T' : Z -> option Z) : Prop := {
  to_inv : uinv s' r T';
  to_out : forall u x b, 0 <= x < 2^32 -> ~ hit x ->
    peek u (k_mem s) T x = Some b -> peek u (k_mem s') T' x = Some b;
  to_safe : forall j, safe r s T j ->
    safe r s' T' j /\ forall a, page_addr j a -> load8 (k_mem s') a = load8 (k_mem s) a;
}.

Lemma touches_refl r s T hit : uinv s r T -> touches r s T hit s T.
Proof. intros H. by split. Qed.

Lemma writes_touches r s T h h' s' T' :
  writes_only r s T h s' T' -> (forall x, h x -> h' x) -> touches r s T h' s' T'.
Proof. intros [H1 H2 H3 H4 H5] Hh. split; [done| |done]. intros u x b Hx Hn. apply H4; auto. Qed.

Lemma touches_trans r s1 T1 s2 T2 s3 T3 (h1 h2 h : Z -> Prop) :
  touches r s1 T1 h1 s2 T2 -> touches r s2 T2 h2 s3 T3 ->
  (forall x, h1 x -> h x) -> (forall x, h2 x -> h x) -> touches r s1 T1 h s3 T3.
Proof.
  intros [A1 A4 A5] [B1 B4 B5] H1 H2. split; [done| |].
  - intros u x b Hx Hn Hp. apply B4; [done|auto|]. apply A4; auto.
  - intros j Hj. destruct (A5 j Hj) as [Hj2 Hb2]. destruct (B5 j Hj2) as [Hj3 Hb3].
    split; [done|]. intros a Ha. by rewrite Hb3, Hb2.
Qed.

(** [pr] is the current process, [prc] its slot, [idx2pa r] its table. *)
Definition current (s : kstate) (pr : Z) (prc : proc) (r : Z) : Prop :=
  0 <= pr /\ c_proc (k_cpu s) = Some pr /\ k_procs s !! Z.to_nat pr = Some prc /\
  as_wf (p_as prc) /\ pagetable (p_as prc) = idx2pa r /\
  forall i, 0 <= i < region_count (p_as prc) -> 0 <= perm (region (p_as prc) i) < 1024.

Lemma current_running s pr prc r : current s pr prc r -> running s prc.
Proof. intros (H1 & H2 & H3 & _ & _ & H4). by exists pr. Qed.

Lemma quiet_touches r s T s' T' : quiet r s T s' T' -> touches r s T (fun _ => False) s' T'.
Proof. intros [H1 H2 H3 H4 H5]. split; [done| |done]. intros u x b Hx _. by apply H4. Qed.

Lemma leaf_unique s r T T' x :
  uinv s r T -> uinv s r T' -> leaf (k_mem s) T' x = leaf (k_mem s) T x.
Proof.
  intros H H'. by rewrite <- (hw_walk_leaf _ _ _ _ _ (ui_pt _ _ _ H)),
    <- (hw_walk_leaf _ _ _ _ _ (ui_pt _ _ _ H')).
Qed.

(** The space depends on memory and the allocator only. *)
Definition same_mem (s s' : kstate) : Prop := k_mem s' = k_mem s /\ k_kmem s' = k_kmem s.

Lemma uinv_same_mem s s' r T :
  same_mem s s' -> cpu_ok s' -> lock_free s' LKmem -> uinv s r T -> uinv s' r T.
Proof.
  intros [Hm Hk] Hc Hl [H1 H2 H3 H4 H5].
  split; unfold alloc_ok, kmem_between, used, refs in *; rewrite ?Hm, ?Hk in *; try done.
  split; [done|]. split; [done|]. apply H1.
Qed.

Lemma touches_same_mem r s1 s s2 s' T T' h :
  same_mem s1 s -> same_mem s2 s' -> cpu_ok s' -> lock_free s' LKmem ->
  touches r s1 T h s2 T' -> touches r s T h s' T'.
Proof.
  intros [Hm1 Hk1] Hs2 Hc Hl [H1 H2 H3]. pose proof Hs2 as [Hm2 Hk2].
  split; [by eapply uinv_same_mem|by rewrite Hm1, Hm2|].
  intros j. specialize (H3 j). unfold safe, used, refs in *. by rewrite Hm1, Hk1, Hm2, Hk2.
Qed.

Lemma hits_one a n i x : (i < n)%nat -> hits (u32 (a + Z.of_nat i)) 1 x -> hits (u32 a) n x.
Proof.
  intros Hi (j & Hj & ->). exists i. split; [done|]. replace (Z.of_nat j) with 0 by lia.
  unfold u32. rewrite Z.add_0_r, Z.mod_mod, Zplus_mod_idemp_l by done. done.
Qed.

Lemma hits_tail a n x : hits (u32 (a + 1)) n x -> hits (u32 a) (S n) x.
Proof.
  intros (j & Hj & ->). exists (S j). split; [lia|].
  unfold u32. rewrite !Zplus_mod_idemp_l. f_equal. lia.
Qed.

Lemma hits_head_tail a n : (Z.of_nat n < 2^32) -> ~ hits (u32 (a + 1)) n (u32 a).
Proof.
  intros Hn (j & Hj & He). unfold u32 in He. rewrite Zplus_mod_idemp_l in He.
  change (2^32) with 4294967296 in *. zlia.
Qed.

Lemma hits_mono a n n' x : (n <= n')%nat -> hits a n x -> hits a n' x.
Proof. intros Hn (j & Hj & ->). exists j. split; [lia|done]. Qed.

Lemma u32_range x : 0 <= u32 x < 2^32.
Proof. unfold u32. apply Z.mod_pos_bound. done. Qed.
End frame.
