(* ===== verification/ForkCopy.v ===== *)
(** * Copying an address space

    [as_copy] of [addrspace.c], which fork uses: every page of the source's
    regions is shared with the destination, and pages that were writable become
    copy-on-write in both. *)

From S2P Require Import Prelude CMem Machine Sv32 Spinlock Kalloc KallocProof.
From S2P Require Import KallocSpec Sched AddrSpace Regions PageTable UserMem.

#[local] Opaque memset.

(** ** The flags of a shared page *)

Definition share_flags (v : Z) : Z :=
  if has (PTE_FLAGS v) PTE_W
  then Z.lor (Z.land (PTE_FLAGS v) (u32 (Z.lnot PTE_W))) PTE_COW else PTE_FLAGS v.

(** The entry the source keeps, and the one the destination gets. *)
Definition src_entry (v : Z) : Z :=
  if has (PTE_FLAGS v) PTE_W then mkpte (PTE2PA v) (share_flags v) else v.
Definition dst_entry (v : Z) : Z := mkpte (PTE2PA v) (Z.lor (share_flags v) PTE_V).

Lemma testbit_not_w k : 0 <= k < 32 -> Z.testbit (u32 (Z.lnot PTE_W)) k = negb (k =? 2).
Proof.
  intros Hk. change (u32 (Z.lnot PTE_W)) with (Z.ldiff (Z.ones 32) (2^2)).
  rewrite Z.ldiff_spec, Z.testbit_ones_nonneg, Z.pow2_bits_eqb by lia.
  replace (k <? 32) with true by lia. simpl. by rewrite Z.eqb_sym.
Qed.

Lemma flags_range v : 0 <= PTE_FLAGS v < 1024.
Proof. rewrite PTE_FLAGS_eq. apply Z.mod_pos_bound. lia. Qed.

Lemma land_range f x : 0 <= f < 1024 -> 0 <= x -> 0 <= Z.land f x < 1024.
Proof.
  intros Hf Hx. split; [apply Z.land_nonneg; lia|].
  destruct (Z.eq_dec (Z.land f x) 0) as [->|Hne]; [lia|].
  assert (0 <= Z.land f x) by (apply Z.land_nonneg; lia).
  change 1024 with (2^10). apply Z.log2_lt_pow2; [lia|].
  eapply Z.le_lt_trans; [apply Z.log2_land; lia|].
  eapply Z.le_lt_trans; [apply Z.le_min_l|].
  destruct (Z.eq_dec f 0) as [->|]; [done|]. apply Z.log2_lt_pow2; [lia|]. change (2^10) with 1024. lia.
Qed.

Lemma share_flags_range v : 0 <= share_flags v < 1024.
Proof.
  unfold share_flags. pose proof (flags_range v). destruct (has _ _); [|done].
  apply lor_flag; [|lia]. apply land_range; [done|]. vm_compute. discriminate.
Qed.

Lemma share_flags_has v :
  has (share_flags v) PTE_W = false /\
  has (share_flags v) PTE_COW = (has v PTE_COW || has v PTE_W) /\
  has (share_flags v) PTE_V = has v PTE_V /\ has (share_flags v) PTE_U = has v PTE_U.
Proof.
  assert (Hf : forall k, 0 <= k < 10 -> Z.testbit (PTE_FLAGS v) k = Z.testbit v k).
  { intros k Hk. rewrite PTE_FLAGS_eq. change 1024 with (2^10). by rewrite Z.mod_pow2_bits_low by lia. }
  assert (Hw : has (PTE_FLAGS v) PTE_W = has v PTE_W) by (by apply (has_flags v 2)).
  unfold share_flags. rewrite Hw. destruct (has v PTE_W) eqn:E.
  - assert (Hb : forall k, 0 <= k < 10 ->
      has (Z.lor (Z.land (PTE_FLAGS v) (u32 (Z.lnot PTE_W))) PTE_COW) (Z.shiftl 1 k) =
      (negb (k =? 2) && Z.testbit v k) || (k =? 8)).
    { intros k Hk. rewrite has_testbit, Z.lor_spec, Z.land_spec, Hf, testbit_not_w by lia.
      unfold PTE_COW. rewrite Z.shiftl_1_l, Z.pow2_bits_eqb, (Z.eqb_sym 8 k) by lia. by rewrite andb_comm. }
    split; [by apply (Hb 2)|]. split; [rewrite orb_true_r; etrans; [by apply (Hb 8)|by rewrite orb_true_r]|].
    split; [change PTE_V with (Z.shiftl 1 0)|change PTE_U with (Z.shiftl 1 4)];
      rewrite Hb, has_testbit by lia; by rewrite orb_false_r.
  - split; [by rewrite Hw|]. rewrite orb_false_r.
    split; [by apply (has_flags v 8)|]. split; [by apply (has_flags v 0)|by apply (has_flags v 4)].
Qed.

Section copy.
Context `{L : Layout}.

(** What both entries of a shared page have in common with the old one. *)
Definition same_page (v v' : Z) : Prop :=
  PTE2PA v' = PTE2PA v /\ has v' PTE_V = has v PTE_V /\ has v' PTE_U = has v PTE_U /\
  has v' PTE_W || has v' PTE_COW = has v PTE_W || has v PTE_COW.

Lemma entry_has d f : 0 <= d < NPAGES -> 0 <= f < 1024 ->
  has (mkpte (idx2pa d) f) PTE_V = has f PTE_V /\ has (mkpte (idx2pa d) f) PTE_U = has f PTE_U /\
  has (mkpte (idx2pa d) f) PTE_W = has f PTE_W /\ has (mkpte (idx2pa d) f) PTE_COW = has f PTE_COW.
Proof.
  intros Hd%idx2pa_range Hf. unfold PTE_V, PTE_U, PTE_W, PTE_COW. by rewrite !has_mkpte by (done || lia).
Qed.

(** An entry for page [d] with the flags of a shared page. *)
Lemma shared_entry v d f : has v PTE_V = true -> PTE2PA v = idx2pa d -> 0 <= d < NPAGES ->
  0 <= f < 1024 -> has f PTE_V = true -> has f PTE_W = false -> has f PTE_U = has v PTE_U ->
  has f PTE_COW = has v PTE_COW || has v PTE_W ->
  let v' := mkpte (PTE2PA v) f in
  same_page v v' /\ has v' PTE_W = false /\ 0 <= v' < 2^32.
Proof.
  intros Hv Hpa Hd Hf H1 H2 H3 H4. unfold same_page. rewrite Hpa.
  destruct (entry_has d f Hd Hf) as (-> & -> & -> & ->). rewrite PTE2PA_page by done.
  rewrite H1, H2, H3, H4. repeat split; try done.
  - simpl. apply orb_comm.
  - apply mkpte_range; [by apply idx2pa_range|done].
  - apply mkpte_range; [by apply idx2pa_range|done].
Qed.

Lemma src_entry_spec m T va d : maps m T va d -> 0 <= leaf m T va < 2^32 ->
  let v := leaf m T va in
  same_page v (src_entry v) /\ has (src_entry v) PTE_W = false /\ 0 <= src_entry v < 2^32.
Proof.
  intros (Hv & Hpa & Hd) Hr v. fold v in Hv, Hpa, Hr. unfold src_entry.
  destruct (share_flags_has v) as (H1 & H2 & H3 & H4). pose proof (has_flags v 2) as Hw.
  change (Z.shiftl 1 2) with PTE_W in Hw. rewrite Hw by lia. destruct (has v PTE_W) eqn:E; [|done].
  apply (shared_entry v d); try done; [apply share_flags_range|congruence|by rewrite E].
Qed.

Lemma dst_entry_spec m T va d : maps m T va d ->
  let v := leaf m T va in
  same_page v (dst_entry v) /\ has (dst_entry v) PTE_W = false.
Proof.
  intros (Hv & Hpa & Hd) v. fold v in Hv, Hpa. unfold dst_entry.
  destruct (share_flags_has v) as (H1 & H2 & H3 & H4). pose proof (share_flags_range v) as Hr.
  destruct (shared_entry v d (Z.lor (share_flags v) PTE_V)) as (? & ? & _); try done.
  - by apply lor_flag.
  - rewrite has_lor, H3, Hv. done.
  - by rewrite has_lor, H1.
  - rewrite has_lor, H4. by rewrite orb_false_r.
  - rewrite has_lor, H2. by rewrite orb_false_r.
Qed.

(** ** Two tables side by side *)

Lemma leaf_range m T va : 0 <= leaf m T va < 2^32.
Proof. unfold leaf. destruct (T _); [apply load32_range|lia]. Qed.

Lemma pt_step_other r s T s' T' r2 T2 :
  pt_step r s T s' T' -> ptable (k_mem s) (used s) r2 T2 ->
  (forall j, tabs r2 T2 j -> ~ tabs r T j) ->
  ptable (k_mem s') (used s') r2 T2 /\ forall va, leaf (k_mem s') T2 va = leaf (k_mem s) T2 va.
Proof.
  intros Hst Hpt Hd.
  assert (Hu : forall j, tabs r2 T2 j -> used s j) by (intros j Hj; by eapply tabs_used).
  apply (ptable_ext _ _ (used s)); [done| |].
  - intros j Hj. eapply ps_used; eauto.
  - intros j a Hj Ha. apply (ps_kept _ _ _ _ _ Hst j a); auto.
Qed.

(** What fork starts from: two spaces with nothing in common; [P] are the
    virtual pages of the source's regions, which are user pages where present
    and which the destination does not map. *)
Record forkable (s : kstate) (rs : Z) (Ts : Z -> option Z) (rd : Z) (Td : Z -> option Z)
    (P : Z -> bool) : Prop := {
  fk_src : uinv s rs Ts;
  fk_dst : uinv s rd Td;
  fk_tabs : forall j, tabs rs Ts j -> ~ tabs rd Td j;
  fk_user : forall va, 0 <= va < 2^32 -> P (vpn va) = true ->
    has (leaf (k_mem s) Ts va) PTE_V = true -> userish (k_mem s) Ts va;
  fk_unmapped : forall va, 0 <= va < 2^32 -> P (vpn va) = true ->
    has (leaf (k_mem s) Td va) PTE_V = false;
  fk_apart : forall va va' d, 0 <= va < 2^32 -> 0 <= va' < 2^32 ->
    userish (k_mem s) Ts va -> maps (k_mem s) Ts va d ->
    userish (k_mem s) Td va' -> ~ maps (k_mem s) Td va' d;
  fk_frame_dst : forall va d, 0 <= va < 2^32 ->
    userish (k_mem s) Ts va -> maps (k_mem s) Ts va d -> ~ tabs rd Td d;
  fk_frame_src : forall va d, 0 <= va < 2^32 ->
    userish (k_mem s) Td va -> maps (k_mem s) Td va d -> ~ tabs rs Ts d;
  fk_count : forall d, refs s d < 2^16 - 1;
}.

(** The state of the copy: the virtual pages [D], which are the pages [G] of
    RAM, are shared with the destination; the virtual pages [E] have lost their
    write permission in the source. *)
Record copying (s0 : kstate) (rs : Z) (Ts : Z -> option Z) (rd : Z) (Td0 : Z -> option Z)
    (P D E G : Z -> bool) (s : kstate) (Td : Z -> option Z) : Prop := {
  cp_ok : alloc_ok s;
  cp_frame : aframe s0 s;
  cp_src : ptable (k_mem s) (used s) rs Ts;
  cp_dst : ptable (k_mem s) (used s) rd Td;
  cp_ext : forall i c, Td0 i = Some c -> Td i = Some c;
  cp_new : forall i c, Td i = Some c -> Td0 i = Some c \/ refs s0 c = 0;
  cp_DE : forall p, D p = true -> E p = true;
  cp_EP : forall p, E p = true -> P p = true;
  cp_sleaf : forall va, 0 <= va < 2^32 -> leaf (k_mem s) Ts va =
    if E (vpn va) && has (leaf (k_mem s0) Ts va) PTE_V
    then src_entry (leaf (k_mem s0) Ts va) else leaf (k_mem s0) Ts va;
  cp_dleaf : forall va, 0 <= va < 2^32 ->
    if P (vpn va) then
      if D (vpn va) && has (leaf (k_mem s0) Ts va) PTE_V
      then leaf (k_mem s) Td va = dst_entry (leaf (k_mem s0) Ts va)
      else has (leaf (k_mem s) Td va) PTE_V = false
    else leaf (k_mem s) Td va = leaf (k_mem s0) Td0 va;
  cp_frames : forall d, G d = true <->
    exists va, 0 <= va < 2^32 /\ D (vpn va) = true /\ maps (k_mem s0) Ts va d;
  cp_refs : forall d, used s0 d -> refs s d = refs s0 d + (if G d then 1 else 0);
  cp_fresh : forall d, refs s0 d = 0 -> used s d -> tabs rd Td d;
  cp_kept : kept s0 s (fun j => used s0 j /\ ~ tabs rs Ts j /\ ~ tabs rd Td0 j);
}.

#[local] Arguments fk_src {_ _ _ _ _ _} _.
#[local] Arguments fk_dst {_ _ _ _ _ _} _.
#[local] Arguments fk_tabs {_ _ _ _ _ _} _.
#[local] Arguments fk_user {_ _ _ _ _ _} _.
#[local] Arguments fk_unmapped {_ _ _ _ _ _} _.
#[local] Arguments fk_apart {_ _ _ _ _ _} _.
#[local] Arguments fk_frame_dst {_ _ _ _ _ _} _.
#[local] Arguments fk_frame_src {_ _ _ _ _ _} _.
#[local] Arguments fk_count {_ _ _ _ _ _} _.
#[local] Arguments cp_ok {_ _ _ _ _ _ _ _ _ _ _} _.
#[local] Arguments cp_frame {_ _ _ _ _ _ _ _ _ _ _} _.
#[local] Arguments cp_src {_ _ _ _ _ _ _ _ _ _ _} _.
#[local] Arguments cp_dst {_ _ _ _ _ _ _ _ _ _ _} _.
#[local] Arguments cp_ext {_ _ _ _ _ _ _ _ _ _ _} _.
#[local] Arguments cp_new {_ _ _ _ _ _ _ _ _ _ _} _.
#[local] Arguments cp_DE {_ _ _ _ _ _ _ _ _ _ _} _.
#[local] Arguments cp_EP {_ _ _ _ _ _ _ _ _ _ _} _.
#[local] Arguments cp_sleaf {_ _ _ _ _ _ _ _ _ _ _} _.
#[local] Arguments cp_dleaf {_ _ _ _ _ _ _ _ _ _ _} _.
#[local] Arguments cp_frames {_ _ _ _ _ _ _ _ _ _ _} _.
#[local] Arguments cp_refs {_ _ _ _ _ _ _ _ _ _ _} _.
#[local] Arguments cp_fresh {_ _ _ _ _ _ _ _ _ _ _} _.
#[local] Arguments cp_kept {_ _ _ _ _ _ _ _ _ _ _} _.

Section steps.
Context (s0 : kstate) (rs : Z) (Ts : Z -> option Z) (rd : Z) (Td0 : Z -> option Z) (P : Z -> bool).
Hypothesis Hfork : forkable s0 rs Ts rd Td0 P.
#[local] Abbreviation cp := (copying s0 rs Ts rd Td0 P).

Lemma copying_start : cp (fun _ => false) (fun _ => false) (fun _ => false) s0 Td0.
Proof.
  pose proof (fk_src Hfork) as Hs. pose proof (fk_dst Hfork) as Hd.
  split; try done; try apply Hs; try apply Hd.
  - intros i c Hc. by left.
  - intros va Hva. simpl. destruct (P (vpn va)) eqn:HP; [|done]. by apply (fk_unmapped Hfork).
  - intros d. split; [done|]. by intros (va & _ & ? & _).
  - intros d Hd'. lia.
  - intros d H0 Hu. unfold used in Hu. lia.
Qed.

Lemma page_frame va : 0 <= va < 2^32 -> P (vpn va) = true ->
  has (leaf (k_mem s0) Ts va) PTE_V = true ->
  exists d, maps (k_mem s0) Ts va d /\ used s0 d /\ ~ tabs rs Ts d /\ ~ tabs rd Td0 d.
Proof.
  intros Hva HP Hv. pose proof (fk_user Hfork va Hva HP Hv) as Hu.
  destruct (ui_frame _ _ _ (fk_src Hfork) va Hva Hu) as (d & Hm & Hd & Ht).
  exists d. split; [done|]. split; [done|]. split; [done|]. by apply (fk_frame_dst Hfork va).
Qed.

Lemma page_inj va va' d : 0 <= va < 2^32 -> 0 <= va' < 2^32 ->
  P (vpn va) = true -> P (vpn va') = true ->
  maps (k_mem s0) Ts va d -> maps (k_mem s0) Ts va' d -> vpn va' = vpn va.
Proof.
  intros Hva Hva' HP HP' Hm Hm'. apply (ui_inj _ _ _ (fk_src Hfork) va va' d); try done.
  - apply (fk_user Hfork); [done|done|apply Hm].
  - apply (fk_user Hfork); [done|done|apply Hm'].
Qed.

(** A page in use before is never one of the destination's new tables. *)
Lemma copying_dst_tabs D E G s Td j : cp D E G s Td ->
  used s0 j -> tabs rd Td j -> tabs rd Td0 j.
Proof.
  intros Hc Hj [->|[i Hi]]; [by left|]. destruct (cp_new Hc i j Hi) as [H|H].
  - right. eauto.
  - unfold used in Hj. lia.
Qed.

Lemma copying_tabs D E G s Td j : cp D E G s Td -> tabs rs Ts j -> ~ tabs rd Td j.
Proof.
  intros Hc Hj Hj'. apply (fk_tabs Hfork j Hj).
  eapply copying_dst_tabs; [done| |done].
  apply (tabs_used (k_mem s0) (used s0) rs Ts j); [apply (fk_src Hfork)|done].
Qed.

(** Every page in use stays in use. *)
Lemma copying_used D E G s Td d : cp D E G s Td -> used s0 d -> used s d.
Proof.
  intros Hc Hd. unfold used in *. rewrite (cp_refs Hc d Hd). destruct (G d); lia.
Qed.

Definition with_page (D : Z -> bool) (p q : Z) : bool := bool_decide (q = p) || D q.

(** A page that is not present is not copied. *)
Lemma copying_skip D E G s Td va : cp D E G s Td ->
  0 <= va < 2^32 -> P (vpn va) = true -> has (leaf (k_mem s0) Ts va) PTE_V = false ->
  cp (with_page D (vpn va)) (with_page E (vpn va)) G s Td.
Proof.
  intros [C1 C2 C3 C4 C5 C6 C7 C8 C9 C10 C11 C12 C13 C14] Hva HP Hv.
  assert (Hsame : forall va', 0 <= va' < 2^32 -> vpn va' = vpn va -> has (leaf (k_mem s0) Ts va') PTE_V = false).
  { intros va' Hva' Heq. by rewrite (leaf_vpn _ _ va va'). }
  unfold with_page. split; try done.
  - intros p. destruct (decide (p = vpn va)) as [->|]; [by rewrite !bool_decide_true|].
    rewrite !bool_decide_false by done. apply C7.
  - intros p. destruct (decide (p = vpn va)) as [->|]; [done|]. rewrite bool_decide_false by done. apply C8.
  - intros va' Hva'. rewrite C9 by done. destruct (decide (vpn va' = vpn va)) as [Heq|].
    + rewrite Hsame by done. by rewrite !andb_false_r.
    + by rewrite bool_decide_false.
  - intros va' Hva'. specialize (C10 va' Hva'). destruct (decide (vpn va' = vpn va)) as [Heq|].
    + rewrite Hsame in C10 |- * by done. by rewrite !andb_false_r in *.
    + by rewrite bool_decide_false.
  - intros d. rewrite C11. split; intros (va' & Hva' & HD & Hm); exists va'; (split; [done|]); (split; [|done]).
    + rewrite HD. apply orb_true_r.
    + apply orb_true_iff in HD as [Heq%bool_decide_eq_true|]; [|done]. destruct Hm as [Hm _].
      by rewrite Hsame in Hm.
Qed.
(** Taking the write permission from page [va] of the source. *)
Lemma copying_mark D E G s Td va s1 : cp D E G s Td ->
  0 <= va < 2^32 -> P (vpn va) = true -> E (vpn va) = false -> has (leaf (k_mem s0) Ts va) PTE_V = true ->
  pt_step rs s Ts s1 Ts -> (forall j, refs s1 j = refs s j) ->
  (forall va', 0 <= va' < 2^32 -> leaf (k_mem s1) Ts va' =
     if decide (vpn va' = vpn va) then src_entry (leaf (k_mem s) Ts va) else leaf (k_mem s) Ts va') ->
  cp D (with_page E (vpn va)) G s1 Td.
Proof.
  intros Hc Hva HP HE Hv Hst Hr Hlf.
  assert (Hu : forall j, used s1 j <-> used s j) by (intros j; unfold used; by rewrite Hr).
  destruct (pt_step_other _ _ _ _ _ rd Td Hst (cp_dst Hc)) as [Hpt Hdl].
  { intros j Hj Hj'. by eapply copying_tabs. }
  split; try apply Hc; try done.
  - apply (ps_ok _ _ _ _ _ Hst).
  - etrans; [apply Hc|apply (ps_frame _ _ _ _ _ Hst)].
  - apply (ps_pt _ _ _ _ _ Hst).
  - intros p Hp. unfold with_page. rewrite (cp_DE Hc) by done. apply orb_true_r.
  - intros p. unfold with_page. intros [->%bool_decide_eq_true|]%orb_true_iff; [done|by apply (cp_EP Hc)].
  - intros va' Hva'. rewrite Hlf by done. unfold with_page. case_decide as Hd.
    + rewrite bool_decide_true by done. rewrite !(leaf_vpn _ _ va va') by done. rewrite Hv. simpl.
      rewrite (cp_sleaf Hc) by done. by rewrite HE.
    + rewrite bool_decide_false by done. by apply (cp_sleaf Hc).
  - intros va' Hva'. rewrite Hdl. by apply (cp_dleaf Hc).
  - intros d Hd. rewrite Hr. by apply (cp_refs Hc).
  - intros d H0 Hd. apply (cp_fresh Hc); [done|]. by apply Hu.
  - intros j a (Hj & Hjs & Hjd) Ha. rewrite (ps_kept _ _ _ _ _ Hst j a); [|split; [|done]|done].
    + by apply (cp_kept Hc j a).
    + by eapply copying_used.
Qed.
(** The state between [kaddref] and the mapping: one more reference to [d]. *)
Record held (s : kstate) (d : Z) (s2 : kstate) : Prop := {
  hd_ok : alloc_ok s2;
  hd_frame : aframe s s2;
  hd_mem : k_mem s2 = k_mem s;
  hd_refs : forall j, refs s2 j = fupd (refs s) d (refs s d + 1) j;
}.
#[local] Arguments hd_ok {_ _ _} _.
#[local] Arguments hd_frame {_ _ _} _.
#[local] Arguments hd_mem {_ _ _} _.
#[local] Arguments hd_refs {_ _ _} _.

Lemma held_used s d s2 j : held s d s2 -> used s d -> used s2 j <-> used s j.
Proof.
  intros Hh Hd. unfold used in *. rewrite (hd_refs Hh). unfold fupd. case_decide; subst; lia.
Qed.

(** After an attempt to map: the rest of the state seen through [s]. *)
Lemma held_tables D E G s Td d s2 : cp D E G s Td -> used s d -> held s d s2 ->
  ptable (k_mem s2) (used s2) rd Td /\ ptable (k_mem s2) (used s2) rs Ts.
Proof.
  intros Hc Hd Hh. rewrite (hd_mem Hh).
  split; [eapply (ptable_ext _ _ (used s) (used s2)); [apply Hc| |done]
         |eapply (ptable_ext _ _ (used s) (used s2)); [apply Hc| |done]];
    intros j Hj; apply (held_used s d s2 j Hh Hd); eapply tabs_used; try exact Hj; apply Hc.
Qed.

(** The parts of [cp] that mapping in the destination keeps. *)
Lemma copying_map D E G s Td d s2 s3 Td3 : cp D E G s Td -> used s0 d -> held s d s2 ->
  pt_step rd s2 Td s3 Td3 ->
  ptable (k_mem s3) (used s3) rs Ts /\
  (forall va, leaf (k_mem s3) Ts va = leaf (k_mem s) Ts va) /\
  aframe s0 s3 /\ (forall i c, Td0 i = Some c -> Td3 i = Some c) /\
  (forall i c, Td3 i = Some c -> Td0 i = Some c \/ refs s0 c = 0) /\
  (forall j, used s0 j -> refs s3 j = refs s2 j) /\
  (forall j, refs s0 j = 0 -> used s3 j -> tabs rd Td3 j) /\
  kept s0 s3 (fun j => used s0 j /\ ~ tabs rs Ts j /\ ~ tabs rd Td0 j).
Proof.
  intros Hc Hd0 Hh Hst.
  assert (Hd : used s d) by (by eapply copying_used).
  destruct (held_tables _ _ _ _ _ _ _ Hc Hd Hh) as [Hptd Hpts].
  assert (Hu2 : forall j, used s0 j -> used s2 j).
  { intros j Hj. apply (held_used s d s2 j Hh Hd). by eapply copying_used. }
  destruct (pt_step_other _ _ _ _ _ rs Ts Hst Hpts) as [Hpt3 Hlf3].
  { intros j Hj. by eapply copying_tabs. }
  split; [done|]. split; [intros va; by rewrite Hlf3, (hd_mem Hh)|].
  split; [etrans; [apply Hc|]; etrans; [apply Hh|apply (ps_frame _ _ _ _ _ Hst)]|].
  split; [intros i c Hic; apply (ps_ext _ _ _ _ _ Hst), (cp_ext Hc), Hic|].
  split; [|split; [|split]].
  - intros i c Hic. destruct (ps_new _ _ _ _ _ Hst i c Hic) as [H|H]; [by apply (cp_new Hc i)|].
    right. destruct (decide (refs s0 c = 0)); [done|].
    assert (used s0 c) as Hu by (pose proof (alloc_ok_refs s0 c (ui_alloc _ _ _ (fk_src Hfork))); unfold used; lia).
    apply Hu2 in Hu. unfold used in Hu. lia.
  - intros j Hj. apply Hu2 in Hj. unfold used in Hj. rewrite (ps_refs _ _ _ _ _ Hst j). case_decide; [lia|done].
  - intros j H0 Hj. destruct (decide (refs s2 j = 0)) as [H2|H2]; [by apply (ps_fresh _ _ _ _ _ Hst)|].
    assert (used s2 j) as Hu by (pose proof (alloc_ok_refs s2 j (hd_ok Hh)); unfold used; lia).
    apply (held_used s d s2 j Hh Hd) in Hu. destruct (cp_fresh Hc j H0 Hu) as [->|[i Hi]]; [by left|].
    right. exists i. by apply (ps_ext _ _ _ _ _ Hst).
  - intros j a (Hj & Hjs & Hjd) Ha. rewrite (ps_kept _ _ _ _ _ Hst j a); [|split|done].
    + rewrite (hd_mem Hh). by apply (cp_kept Hc j a).
    + by apply Hu2.
    + intros Ht. apply Hjd. by eapply copying_dst_tabs.
Qed.

(** The page mapped in the destination. *)
Lemma copying_shared D E G s Td va d s2 s3 Td3 : cp D E G s Td ->
  0 <= va < 2^32 -> P (vpn va) = true -> D (vpn va) = false -> E (vpn va) = true ->
  maps (k_mem s0) Ts va d -> used s0 d -> held s d s2 -> pt_step rd s2 Td s3 Td3 ->
  (forall va', 0 <= va' < 2^32 -> leaf (k_mem s3) Td3 va' =
     if decide (vpn va' = vpn va) then dst_entry (leaf (k_mem s0) Ts va) else leaf (k_mem s) Td va') ->
  cp (with_page D (vpn va)) E (with_page G d) s3 Td3.
Proof.
  intros Hc Hva HP HD HE Hm Hd0 Hh Hst Hlf.
  destruct (copying_map _ _ _ _ _ _ _ _ _ Hc Hd0 Hh Hst) as (M1 & M2 & M3 & M4 & M5 & M6 & M7 & M8).
  assert (HGd : G d = false).
  { destruct (G d) eqn:HG; [|done]. apply (cp_frames Hc) in HG as (va' & Hva' & HD' & Hm').
    assert (vpn va = vpn va').
    { apply (page_inj va' va d); try done. by apply (cp_EP Hc), (cp_DE Hc). }
    congruence. }
  unfold with_page. split; try done.
  - apply (ps_ok _ _ _ _ _ Hst).
  - apply (ps_pt _ _ _ _ _ Hst).
  - intros p [->%bool_decide_eq_true|]%orb_true_iff; [done|by apply (cp_DE Hc)].
  - apply (cp_EP Hc).
  - intros va' Hva'. rewrite M2. by apply (cp_sleaf Hc).
  - intros va' Hva'. pose proof (cp_dleaf Hc va' Hva') as Hold. rewrite Hlf by done. case_decide as Heq.
    + rewrite bool_decide_true, Heq, HP by done. rewrite (leaf_vpn _ _ va va') by done.
      destruct Hm as [Hv _]. by rewrite Hv.
    + by rewrite bool_decide_false.
  - intros e. rewrite orb_true_iff, bool_decide_eq_true, (cp_frames Hc). split.
    + intros [->|(va' & Hva' & HD' & Hm')]; [exists va|exists va']; (split; [done|]); (split; [|done]).
      * by rewrite bool_decide_true.
      * rewrite HD'. apply orb_true_r.
    + intros (va' & Hva' & [Heq%bool_decide_eq_true|HD']%orb_true_iff & Hm'); [left|right; eauto].
      eapply maps_fun; [|exact Hm]. unfold maps in Hm' |- *. by rewrite (leaf_vpn _ _ va va') in Hm'.
  - intros e He. rewrite M6, (hd_refs Hh) by done. unfold fupd. case_decide as Heq.
    + subst e. rewrite bool_decide_true by done. simpl. rewrite (cp_refs Hc), HGd by done. lia.
    + rewrite bool_decide_false by done. by apply (cp_refs Hc).
Qed.
(** The mapping failed, and the reference is given back. *)
Lemma copying_undo D E G s Td d s2 s3 Td3 s4 : cp D E G s Td ->
  used s0 d -> held s d s2 -> pt_step rd s2 Td s3 Td3 ->
  (forall va, 0 <= va < 2^32 -> leaf (k_mem s3) Td3 va = leaf (k_mem s) Td va) ->
  alloc_ok s4 -> aframe s3 s4 -> kept s3 s4 (used s4) ->
  (forall j, refs s4 j = fupd (refs s3) d (refs s3 d - 1) j) -> cp D E G s4 Td3.
Proof.
  intros Hc Hd0 Hh Hst Hlf Hok4 Hf4 Hk4 Hr4.
  destruct (copying_map _ _ _ _ _ _ _ _ _ Hc Hd0 Hh Hst) as (M1 & M2 & M3 & M4 & M5 & M6 & M7 & M8).
  assert (Hd : used s d) by (by eapply copying_used).
  assert (Hd4 : refs s4 d = refs s d).
  { rewrite Hr4. unfold fupd. rewrite decide_True, M6, (hd_refs Hh) by done. unfold fupd.
    rewrite decide_True by done. lia. }
  assert (Hu4 : forall j, used s4 j <-> used s3 j).
  { intros j. destruct (decide (j = d)) as [->|Hne].
    - unfold used in *. rewrite Hd4, M6, (hd_refs Hh) by done. unfold fupd. rewrite decide_True by done. lia.
    - unfold used. rewrite Hr4. unfold fupd. by rewrite decide_False. }
  assert (Hext : forall r T, ptable (k_mem s3) (used s3) r T ->
    ptable (k_mem s4) (used s4) r T /\ forall va, leaf (k_mem s4) T va = leaf (k_mem s3) T va).
  { intros r T Hpt. assert (Ht : forall j, tabs r T j -> used s4 j)
      by (intros j Hj; apply Hu4; by eapply tabs_used).
    apply (ptable_ext _ _ (used s3)); [done|done|]. intros j a Hj Ha. apply (Hk4 j a); auto. }
  destruct (Hext _ _ M1) as [Hpts Hls]. destruct (Hext _ _ (ps_pt _ _ _ _ _ Hst)) as [Hptd Hld].
  split; try done; try apply Hc.
  - by etrans.
  - intros va Hva. rewrite Hls, M2. by apply (cp_sleaf Hc).
  - intros va Hva. rewrite Hld, Hlf by done. by apply (cp_dleaf Hc).
  - intros e He. destruct (decide (e = d)) as [->|Hne]; [rewrite Hd4; by apply (cp_refs Hc)|].
    rewrite Hr4. unfold fupd. rewrite decide_False, M6, (hd_refs Hh) by done. unfold fupd.
    rewrite decide_False by done. by apply (cp_refs Hc).
  - intros e H0 He. apply M7; [done|by apply Hu4].
  - intros j a Hj Ha. rewrite (Hk4 j a); [by apply (M8 j a)| |done]. apply Hu4.
    destruct Hj as (Hj & _). unfold used in *. rewrite M6 by done.
    apply (held_used s d s2 j Hh Hd). by eapply copying_used.
Qed.

(** The first half of the body: the source's entry. *)
Lemma mark_source D E G s Td va c d : cp D E G s Td ->
  0 <= va < 2^32 -> Ts (PX 1 va) = Some c -> P (vpn va) = true -> E (vpn va) = false ->
  maps (k_mem s0) Ts va d ->
  let v := leaf (k_mem s0) Ts va in
  runs ((if has (PTE_FLAGS v) PTE_W
         then store_pte (idx2pa c + 4 * PX 0 va) (Z.lor (PA2PTE (PTE2PA v)) (share_flags v))
         else ret tt) s) (fun _ s1 => cp D (with_page E (vpn va)) G s1 Td).
Proof.
  intros Hc Hva HT HP HE Hm v.
  assert (Hv : leaf (k_mem s) Ts va = v) by (rewrite (cp_sleaf Hc) by done; by rewrite HE).
  destruct (src_entry_spec _ _ _ _ Hm (leaf_range _ _ _)) as (_ & _ & Hr). fold v in Hr.
  assert (Hgo : forall s1, pt_step rs s Ts s1 Ts -> (forall j, refs s1 j = refs s j) ->
    (forall va', 0 <= va' < 2^32 -> leaf (k_mem s1) Ts va' =
       if decide (vpn va' = vpn va) then src_entry v else leaf (k_mem s) Ts va') ->
    cp D (with_page E (vpn va)) G s1 Td).
  { intros s1 Hst Hr1 Hlf. eapply copying_mark; try done; [apply Hm|]. by rewrite Hv. }
  unfold src_entry in *. destruct (has (PTE_FLAGS v) PTE_W).
  - unfold store_pte, upd_mem, modify. simpl.
    destruct (leaf_store s rs Ts va c (mkpte (PTE2PA v) (share_flags v))) as [Hst Hlf];
      [apply Hc|apply Hc|done|done|done|]. by apply Hgo.
  - simpl. apply Hgo; [apply pt_step_refl; apply Hc|done|]. intros va' Hva'. case_decide; [|done].
    rewrite (leaf_vpn _ _ va va') by done. done.
Qed.
(** Memory ran out: every page that was free is now a table of the destination. *)
Definition used_up (Td : Z -> option Z) : Prop :=
  forall j, 0 <= j < NPAGES -> is_free s0 j -> tabs rd Td j.

Lemma exhausted_used_up s3 Td : alloc_ok s3 -> exhausted s3 ->
  (forall j, refs s0 j = 0 -> used s3 j -> tabs rd Td j) -> used_up Td.
Proof.
  intros Hok Hex Hf j Hj Hfree. pose proof (ui_alloc _ _ _ (fk_src Hfork)) as Hok0.
  pose proof (is_free_managed s0 j Hok0 Hj Hfree) as Hm. apply Hf.
  - by apply is_free_refs.
  - pose proof (Hex j Hj) as Hn. rewrite is_free_refs in Hn by done.
    pose proof (alloc_ok_refs s3 j Hok). unfold used. lia.
Qed.

(** The second half: the reference and the mapping. *)
Lemma share_page `{!LayoutOk L} D E G s Td va d : cp D E G s Td ->
  0 <= va -> va mod PGSIZE = 0 -> va + PGSIZE <= 2^32 ->
  P (vpn va) = true -> D (vpn va) = false -> E (vpn va) = true ->
  maps (k_mem s0) Ts va d -> used s0 d ->
  let v := leaf (k_mem s0) Ts va in
  runs ((kaddref (idx2pa d) ;;
         r <- mappages (idx2pa rd) va PGSIZE (idx2pa d) (share_flags v) ;;
         if negb (r =? 0) then kfree (idx2pa d) ;; ret false else ret true) s) (fun b s' =>
    exists Td', if b : bool then cp (with_page D (vpn va)) E (with_page G d) s' Td'
      else cp D E G s' Td' /\ used_up Td').
Proof.
  intros Hc Hva Hal Hend HP HD HE Hm Hd0 v.
  assert (Hva32 : 0 <= va < 2^32) by (unfold PGSIZE in *; lia).
  assert (Hd : used s d) by (by eapply copying_used).
  assert (HG : G d = false).
  { destruct (G d) eqn:HG; [|done]. apply (cp_frames Hc) in HG as (va' & Hva' & HD' & Hm').
    assert (vpn va = vpn va'); [|congruence]. apply (page_inj va' va d); try done.
    by apply (cp_EP Hc), (cp_DE Hc). }
  apply runs_bind. eapply runs_mono.
  { apply (kaddref_client s d); [apply Hc|done|]. rewrite (cp_refs Hc), HG by done.
    pose proof (fk_count Hfork d). lia. }
  intros _ s2 (Hok2 & Hf2 & Hm2 & Hr2). assert (Hh : held s d s2) by done.
  destruct (held_tables _ _ _ _ _ _ _ Hc Hd Hh) as [Hptd _].
  pose proof Hm as (_ & Hpa & Hdr). pose proof (idx2pa_range d Hdr) as Hpr.
  assert (Hfree : forall x, 0 <= x < 2^32 -> vpn va <= vpn x < vpn va + PGSIZE / PGSIZE ->
    has (leaf (k_mem s2) Td x) PTE_V = false).
  { intros x Hx Hr. change (PGSIZE / PGSIZE) with 1 in Hr. rewrite Hm2.
    pose proof (cp_dleaf Hc x Hx) as Hl. replace (vpn x) with (vpn va) in Hl by lia.
    by rewrite HP, HD in Hl. }
  assert (Hpend : idx2pa d + PGSIZE <= 2^32)
    by (rewrite idx2pa_eq by done; unfold KERNBASE, PGSIZE; change NPAGES with 32768 in Hdr; lia).
  apply runs_bind. eapply runs_mono.
  { apply (mappages_spec s2 Td rd va PGSIZE (idx2pa d) (share_flags v)); try done; try lia.
    apply share_flags_range. }
  intros e s3 (Td3 & k & Hst & Hk & He & Hlf). change (PGSIZE / PGSIZE) with 1 in *.
  destruct He as [[-> ->]|(-> & Hk1 & Hex)].
  - exists Td3. apply (copying_shared D E G s Td va d s2 s3 Td3); try done.
    intros va' Hva'. rewrite Hlf, Hm2 by done. unfold mapped, dst_entry. fold v in Hpa |- *. rewrite Hpa.
    destruct (decide (vpn va' = vpn va)) as [Heq|].
    + rewrite Heq. rewrite decide_True by lia. f_equal. lia.
    + by rewrite decide_False by lia.
  - assert (k = 0) as -> by lia. simpl. apply runs_bind. eapply runs_mono.
    { apply (kfree_client s3 d); [apply (ps_ok _ _ _ _ _ Hst)|]. eapply ps_used; [exact Hst|].
      by apply (held_used s d s2 d Hh Hd). }
    intros _ s4 (Hok4 & Hf4 & Hk4 & Hr4). exists Td3. split.
    + apply (copying_undo D E G s Td d s2 s3 Td3 s4); try done.
      intros va' Hva'. by rewrite Hlf, mapped_0, Hm2.
    + apply (exhausted_used_up s3); [apply (ps_ok _ _ _ _ _ Hst)|done|].
      by apply (copying_map D E G s Td d s2 s3 Td3).
Qed.

(** One page: shared, skipped when absent, or refused for lack of memory. *)
Lemma copy_page_spec `{!LayoutOk L} D E G s Td va : cp D E G s Td ->
  0 <= va -> va mod PGSIZE = 0 -> va + PGSIZE <= 2^32 ->
  P (vpn va) = true -> D (vpn va) = false -> E (vpn va) = false ->
  runs (copy_page (idx2pa rd) (idx2pa rs) va s) (fun b s' => exists G' Td',
    cp (if b : bool then with_page D (vpn va) else D) (with_page E (vpn va)) G' s' Td' /\
    (b = false -> used_up Td')).
Proof.
  intros Hc Hva Hal Hend HP HD HE.
  assert (Hva32 : 0 <= va < 2^32) by (unfold PGSIZE in *; lia). unfold copy_page.
  rewrite (bind_ok _ _ _ _ _ (walk_noalloc s rs Ts va (cp_src Hc) Hva32)).
  assert (Hv : leaf (k_mem s) Ts va = leaf (k_mem s0) Ts va) by (rewrite (cp_sleaf Hc) by done; by rewrite HE).
  destruct (Ts (PX 1 va)) as [c|] eqn:ET.
  2: { unfold slot. rewrite ET. simpl. exists G, Td. split; [|done]. apply copying_skip; try done.
       unfold leaf. by rewrite ET. }
  destruct (slot_nonzero _ _ _ _ _ _ (cp_src Hc) ET) as (Hs & Hs0 & Hsl).
  apply Z.eqb_neq in Hs0. rewrite Hs0. unfold load_pte at 1. unfold bind at 1, gets at 1. cbn [rbind].
  rewrite Hsl, Hv. set (v := leaf (k_mem s0) Ts va) in *.
  destruct (has v PTE_V) eqn:EV; cbn [negb].
  2: { simpl. exists G, Td. split; [|done]. by apply copying_skip. }
  destruct (page_frame va Hva32 HP EV) as (d & Hm & Hd0 & _). pose proof Hm as (_ & Hpa & _). fold v in Hpa.
  cbn zeta. fold (share_flags v). apply runs_bind. rewrite Hs.
  eapply runs_mono; [by apply (mark_source D E G s Td va c d)|]. intros [] s1 Hc1. rewrite Hpa.
  eapply runs_mono; [apply (share_page D (with_page E (vpn va)) G s1 Td va d); try done|].
  { unfold with_page. by rewrite bool_decide_true. }
  intros [|] s' [Td' Hc']; [by exists (with_page G d), Td'|]. exists G, Td'. split; [apply Hc'|]. intros _. apply Hc'.
Qed.
(** What a loop over the pages [lo .. hi) did; [b] tells whether it got to the end. *)
Definition copied_range (D E : Z -> bool) (lo hi : Z) (b : bool) (s' : kstate) : Prop :=
  exists D' E' G' Td', cp D' E' G' s' Td' /\
    (forall p, D p = true -> D' p = true) /\
    (forall p, D' p = true -> D p = true \/ lo <= p < hi) /\
    (forall p, E' p = true -> E p = true \/ lo <= p < hi) /\
    (b = true -> forall p, lo <= p < hi -> D' p = true) /\ (b = false -> used_up Td').

Lemma with_page_true D p q : with_page D p q = true <-> q = p \/ D q = true.
Proof. unfold with_page. by rewrite orb_true_iff, bool_decide_eq_true. Qed.

Lemma copy_pages_spec `{!LayoutOk L} n : forall D E G s Td va hi, cp D E G s Td ->
  0 <= va -> va mod PGSIZE = 0 -> hi mod PGSIZE = 0 -> va <= hi -> hi < 2^32 ->
  (Z.to_nat ((hi - va) / PGSIZE) < n)%nat ->
  (forall p, vpn va <= p < vpn hi -> P p = true /\ D p = false /\ E p = false) ->
  runs (copy_pages n (idx2pa rd) (idx2pa rs) va hi s) (copied_range D E (vpn va) (vpn hi)).
Proof.
  induction n as [|n IH]; intros D E G s Td va hi Hc Hva Hal Hhal Hle Hhi Hn Hp; [lia|].
  cbn [copy_pages]. destruct (Z.ltb_spec va hi) as [Hlt|Hge].
  2: { assert (va = hi) as -> by lia. exists D, E, G, Td. split; [done|].
       split; [auto|]. split; [auto|]. split; [auto|]. split; [lia|done]. }
  assert (Hv : vpn (va + PGSIZE) = vpn va + 1) by (unfold vpn, PGSIZE; zlia).
  assert (Hvh : vpn va < vpn hi) by (unfold vpn, PGSIZE in *; zlia).
  destruct (Hp (vpn va)) as (HP & HD & HE); [lia|].
  apply runs_bind. eapply runs_mono.
  { apply (copy_page_spec D E G s Td va); try done. unfold PGSIZE in *. zlia. }
  intros b s1 (G1 & Td1 & Hc1 & Hu1). destruct b.
  2: { simpl. eexists D, _, G1, Td1. split; [done|]. split; [auto|]. split; [auto|]. split; [|done].
       intros p [->|]%with_page_true; [right; lia|auto]. }
  replace (u32 (va + PGSIZE)) with (va + PGSIZE)
    by (symmetry; apply Z.mod_small; unfold PGSIZE in *; zlia).
  eapply runs_mono.
  { apply (IH _ _ G1 s1 Td1 (va + PGSIZE) hi Hc1); try done; try (unfold PGSIZE in *; zlia).
    intros p Hr. destruct (Hp p) as (HP' & HD' & HE'); [lia|]. unfold with_page.
    rewrite bool_decide_false by lia. done. }
  intros b' s2 (D2 & E2 & G2 & Td2 & Hc2 & H1 & H2 & H3 & H4 & H5). exists D2, E2, G2, Td2. split; [done|].
  split; [|split; [|split; [|split; [|done]]]].
  - intros p HDp. apply H1, with_page_true. by right.
  - intros p HDp. destruct (H2 p HDp) as [[->|]%with_page_true|]; [right; lia|auto|right; lia].
  - intros p HDp. destruct (H3 p HDp) as [[->|]%with_page_true|]; [right; lia|auto|right; lia].
  - intros Hb p Hr. destruct (decide (p = vpn va)) as [->|]; [apply H1, with_page_true; by left|].
    apply H4; [done|lia].
Qed.
(** ** Giving the pages back *)

(** The destination maps exactly the shared pages. *)
Lemma dst_maps D E G s Td va d : cp D E G s Td -> 0 <= va < 2^32 -> P (vpn va) = true ->
  maps (k_mem s) Td va d <-> D (vpn va) = true /\ maps (k_mem s0) Ts va d.
Proof.
  intros Hc Hva HP. pose proof (cp_dleaf Hc va Hva) as Hl. rewrite HP in Hl. unfold maps at 1.
  destruct (D (vpn va)), (has (leaf (k_mem s0) Ts va) PTE_V) eqn:EV; simpl in Hl.
  - destruct (page_frame va Hva HP EV) as (e & Hm & _).
    destruct (dst_entry_spec _ _ _ _ Hm) as ((H1 & H2 & _) & _). unfold maps. rewrite Hl, H1, H2, EV. intuition congruence.
  - unfold maps. rewrite Hl, EV. intuition congruence.
  - unfold maps. rewrite Hl. intuition congruence.
  - unfold maps. rewrite Hl. intuition congruence.
Qed.

Lemma shared_used D E G s Td va d : cp D E G s Td -> 0 <= va < 2^32 -> D (vpn va) = true ->
  maps (k_mem s0) Ts va d -> used s0 d.
Proof.
  intros Hc Hva HD Hm. destruct (page_frame va Hva) as (e & Hm' & He & _).
  - by apply (cp_EP Hc), (cp_DE Hc).
  - apply Hm.
  - by rewrite (maps_fun _ _ _ _ _ Hm Hm').
Qed.

Lemma copying_frames D E G s Td a n : cp D E G s Td ->
  (forall va, 0 <= va < 2^32 -> in_range a n va -> P (vpn va) = true) -> frames_ok s rd Td a n.
Proof.
  intros Hc HP. split.
  - intros va Hva Hr Hv. pose proof (HP va Hva Hr) as HPv.
    pose proof (cp_dleaf Hc va Hva) as Hl. rewrite HPv in Hl.
    destruct (D (vpn va)) eqn:HD, (has (leaf (k_mem s0) Ts va) PTE_V) eqn:EV; simpl in Hl; try congruence.
    destruct (page_frame va Hva HPv EV) as (d & Hm & Hd & _ & Ht). exists d.
    split; [by apply (dst_maps _ _ _ _ _ _ _ Hc)|]. split; [by eapply copying_used|].
    intros Ht'. apply Ht. by eapply copying_dst_tabs.
  - intros va va' d Hva Hva' Hr Hr' Hm Hm'. apply (dst_maps _ _ _ _ _ _ _ Hc) in Hm, Hm'; auto.
    symmetry. apply (page_inj va va' d); auto; apply Hm || apply Hm'.
Qed.

Definition without (D : Z -> bool) (lo hi p : Z) : bool := D p && negb (bool_decide (lo <= p < hi)).

Lemma without_true D lo hi p : without D lo hi p = true <-> D p = true /\ ~ (lo <= p < hi).
Proof. unfold without. by rewrite andb_true_iff, negb_true_iff, bool_decide_eq_false. Qed.

(** The counts after unmapping. *)
Lemma unmap_counts D E G s Td a n s' d : cp D E G s Td ->
  (forall va, 0 <= va < 2^32 -> in_range a n va -> P (vpn va) = true) ->
  unmap_post s rd Td a n true s' -> used s0 d ->
  (G d = true /\ refs s' d = refs s0 d + 1 /\
     exists va, 0 <= va < 2^32 /\ without D (vpn a) (vpn a + n) (vpn va) = true /\ maps (k_mem s0) Ts va d) \/
  (refs s' d = refs s0 d /\
     forall va, 0 <= va < 2^32 -> without D (vpn a) (vpn a + n) (vpn va) = true -> ~ maps (k_mem s0) Ts va d).
Proof.
  intros Hc HP Hu Hd. pose proof (cp_refs Hc d Hd) as Hr. destruct (G d) eqn:HG.
  - pose proof HG as (va & Hva & HD & Hm)%(cp_frames Hc).
    assert (HPv : P (vpn va) = true) by (by apply (cp_EP Hc), (cp_DE Hc)).
    destruct (decide (in_range a n va)) as [Hin|Hin].
    + right. rewrite (um_dropped _ _ _ _ _ _ _ Hu va d); [|done|done|by apply (dst_maps _ _ _ _ _ _ _ Hc)].
      split; [lia|]. intros va' Hva' [HD' Hout]%without_true Hm'. apply Hout.
      rewrite (page_inj va va' d); try done. by apply (cp_EP Hc), (cp_DE Hc).
    + left. split; [done|]. split.
      * rewrite (um_others _ _ _ _ _ _ _ Hu d); [done|]. intros va' Hva' Hin' Hm'.
        pose proof (HP va' Hva' Hin') as HP'. apply (dst_maps _ _ _ _ _ _ _ Hc) in Hm' as [HD' Hm']; [|done|done].
        apply Hin. unfold in_range in *. by rewrite <- (page_inj va va' d).
      * exists va. split; [done|]. split; [|done]. by apply without_true.
  - right. assert (Hno : forall va, 0 <= va < 2^32 -> D (vpn va) = true -> ~ maps (k_mem s0) Ts va d).
    { intros va Hva HD Hm. assert (G d = true) by (apply (cp_frames Hc); eauto). congruence. }
    split; [|intros va Hva [HD _]%without_true; by apply Hno].
    rewrite (um_others _ _ _ _ _ _ _ Hu d); [lia|]. intros va Hva Hin Hm.
    apply (dst_maps _ _ _ _ _ _ _ Hc) in Hm as [HD Hm]; [|done|auto]. by apply (Hno va).
Qed.

Lemma copying_unmap D E G s Td a n s' : cp D E G s Td ->
  (forall va, 0 <= va < 2^32 -> in_range a n va -> P (vpn va) = true) ->
  unmap_post s rd Td a n true s' ->
  exists G', cp (without D (vpn a) (vpn a + n)) E G' s' Td.
Proof.
  intros Hc HP Hu. exists (fun d => G d && (refs s' d =? refs s0 d + 1)).
  assert (Hcnt := fun d => unmap_counts D E G s Td a n s' d Hc HP Hu).
  assert (Huse : forall d, used s0 d -> used s' d).
  { intros d Hd. pose proof Hd as Hd'. unfold used in *. destruct (Hcnt d Hd') as [(_ & -> & _)|(-> & _)]; lia. }
  assert (Hsrc : ptable (k_mem s') (used s') rs Ts /\ forall va, leaf (k_mem s') Ts va = leaf (k_mem s) Ts va).
  { assert (Ht : forall j, tabs rs Ts j -> used s' j).
    { intros j Hj. apply Huse. apply (tabs_used (k_mem s0) (used s0) rs Ts j); [apply (fk_src Hfork)|done]. }
    apply (ptable_ext _ _ (used s)); [apply Hc|done|]. intros j x Hj Hx.
    apply (um_kept _ _ _ _ _ _ _ Hu j x); [|done]. split; [auto|]. by eapply copying_tabs. }
  destruct Hsrc as [Hpts Hls]. split; try done; try apply Hc; try apply Hu.
  - etrans; [apply Hc|apply Hu].
  - intros p [Hp _]%without_true. by apply (cp_DE Hc).
  - intros va Hva. rewrite Hls. by apply (cp_sleaf Hc).
  - intros va Hva. pose proof (cp_dleaf Hc va Hva) as Hl. rewrite (um_leaf _ _ _ _ _ _ _ Hu) by done.
    unfold without. destruct (P (vpn va)) eqn:HPv.
    + destruct (decide (in_range a n va)) as [Hin|Hin].
      * rewrite (bool_decide_true (vpn a <= vpn va < vpn a + n)) by done. simpl. rewrite andb_false_r. simpl.
        case_decide as Hx; [done|]. destruct (has (leaf (k_mem s) Td va) PTE_V); [|done]. by destruct Hx.
      * rewrite (bool_decide_false (vpn a <= vpn va < vpn a + n)) by done. simpl. rewrite andb_true_r.
        rewrite decide_False by (by intros [? _]). done.
    + rewrite decide_False; [done|]. intros [Hin _]. rewrite HP in HPv; done.
  - intros d. rewrite andb_true_iff, Z.eqb_eq. split.
    + intros [HG Hr]. assert (Hd : used s0 d).
      { apply (cp_frames Hc) in HG as (va & Hva & HD & Hm). by apply (shared_used D E G s Td va). }
      destruct (Hcnt d Hd) as [(_ & _ & H)|[H _]]; [done|lia].
    + intros (va & Hva & HD & Hm). pose proof HD as [HD' _]%without_true.
      destruct (Hcnt d) as [(? & ? & _)|[_ H]]; [by apply (shared_used D E G s Td va)|done|]. by destruct (H va).
  - intros d Hd. destruct (Hcnt d Hd) as [(-> & -> & _)|(Hr & _)]; [by rewrite Z.eqb_refl|].
    rewrite Hr. replace (refs s0 d =? refs s0 d + 1) with false by lia. rewrite andb_false_r. lia.
  - intros d H0 Hd. apply (cp_fresh Hc); [done|]. unfold used in *. pose proof (um_mono _ _ _ _ _ _ _ Hu d). lia.
  - intros j x (Hj & Hjs & Hjd) Hx. rewrite (um_kept _ _ _ _ _ _ _ Hu j x); [by apply (cp_kept Hc j x)| |done].
    split; [auto|]. intros Ht. apply Hjd. by eapply copying_dst_tabs.
Qed.
End steps.

(** ** Regions *)

(** The virtual pages of a region, and of several. *)
Definition region_page (r : mem_region) (p : Z) : bool :=
  bool_decide (vpn r.(va_start) <= p < vpn (PGROUNDUP r.(va_end))).
Definition region_pages (l : list mem_region) (p : Z) : bool := existsb (fun r => region_page r p) l.

Lemma region_page_true r p :
  region_page r p = true <-> vpn r.(va_start) <= p < vpn (PGROUNDUP r.(va_end)).
Proof. apply bool_decide_eq_true. Qed.

Lemma region_pages_true l p : region_pages l p = true <-> exists r, r ∈ l /\ region_page r p = true.
Proof.
  unfold region_pages. rewrite existsb_exists. split; intros (r & Hr & Hp); exists r;
    (split; [by apply list_elem_of_In|done]).
Qed.

Lemma region_pages_perm l l' p : l ≡ₚ l' -> region_pages l p = true <-> region_pages l' p = true.
Proof. intros Hl. rewrite !region_pages_true. by setoid_rewrite Hl. Qed.

Lemma region_bounds r : region_ok r ->
  PGROUNDDOWN r.(va_start) = r.(va_start) /\ r.(va_start) <= PGROUNDUP r.(va_end) <= TRAPFRAME /\
  PGROUNDUP r.(va_end) mod PGSIZE = 0 /\ r.(va_end) <= PGROUNDUP r.(va_end) < r.(va_end) + PGSIZE.
Proof.
  intros (Hs & He & Ha & _). change TRAPFRAME with 4294959104 in *.
  rewrite PGROUNDDOWN_eq by lia. rewrite PGROUNDUP_eq by (unfold PGSIZE; lia).
  unfold PGSIZE in *. zlia.
Qed.

Lemma region_page_apart r1 r2 p : region_ok r1 -> region_ok r2 -> apart r1 r2 ->
  region_page r1 p = true -> region_page r2 p = true -> False.
Proof.
  intros H1 H2 Ha Hp1%bool_decide_eq_true Hp2%bool_decide_eq_true.
  destruct (region_bounds r1 H1) as (_ & B1 & C1 & D1). destruct (region_bounds r2 H2) as (_ & B2 & C2 & D2).
  destruct H1 as (_ & _ & A1 & _), H2 as (_ & _ & A2 & _). unfold apart in Ha. unfold vpn, PGSIZE in *. zlia.
Qed.

Section regions.
Context (s0 : kstate) (rs : Z) (Ts : Z -> option Z) (rd : Z) (Td0 : Z -> option Z) (src : addr_space).
#[local] Abbreviation cp := (copying s0 rs Ts rd Td0 (region_pages (live src))).
Hypothesis Hfork : forkable s0 rs Ts rd Td0 (region_pages (live src)).
Hypothesis Hwf : as_wf src.
Hypothesis Hpt : src.(pagetable) = idx2pa rs.

Lemma live_src r : r ∈ live src <-> exists i, 0 <= i < src.(region_count) /\ r = region src i.
Proof.
  rewrite list_elem_of_lookup. split.
  - intros [i Hi]. exists (Z.of_nat i). pose proof (lookup_lt_Some _ _ _ Hi) as Hl.
    rewrite live_length in Hl by done. pose proof (wf_count _ Hwf). split; [lia|].
    pose proof (live_lookup src (Z.of_nat i) Hwf ltac:(lia)) as Hk. rewrite Nat2Z.id in Hk. congruence.
  - intros (i & Hi & ->). exists (Z.to_nat i). by apply live_lookup.
Qed.

Lemma take_live_src n r : 0 <= n <= src.(region_count) ->
  r ∈ take (Z.to_nat n) (live src) <-> exists i, 0 <= i < n /\ r = region src i.
Proof.
  intros Hn. rewrite list_elem_of_lookup. split.
  - intros [i Hi]. apply lookup_take_Some in Hi as [Hi Hlt]. exists (Z.of_nat i). split; [lia|].
    pose proof (live_lookup src (Z.of_nat i) Hwf ltac:(lia)) as Hk. rewrite Nat2Z.id in Hk. congruence.
  - intros (i & Hi & ->). exists (Z.to_nat i). rewrite lookup_take_lt by lia. apply live_lookup; [done|lia].
Qed.

(** What the loop over the regions has done when [i] of them are copied. *)
Record progress (i : Z) (dst : addr_space) (D E : Z -> bool) : Prop := {
  pg_wf : as_wf dst;
  pg_table : dst.(pagetable) = idx2pa rd;
  pg_live : live dst ≡ₚ take (Z.to_nat i) (live src);
  pg_pages : forall p, D p = true <-> region_pages (live dst) p = true;
  pg_marked : forall p, E p = true -> region_pages (live dst) p = true;
}.

(** The next region does not meet the ones before it. *)
Lemma next_addable i dst D E : progress i dst D E -> 0 <= i < src.(region_count) -> 0 <= rd < NPAGES ->
  let r := region src i in addable dst r.(va_start) r.(va_end) r.(rtype).
Proof.
  intros [W T Lv _ _] Hi Hrd r. pose proof (wf_each _ Hwf i Hi) as (H1 & H2 & H3 & H4). fold r in H1, H2, H3, H4.
  pose proof (wf_count _ W). pose proof (wf_count _ Hwf).
  assert (Hlen : region_count dst = i).
  { pose proof (live_length dst W) as Hl. rewrite Lv, length_take, live_length in Hl by done. lia. }
  unfold addable. rewrite T. split; [by apply idx2pa_nonzero|]. do 2 (split; [done|]). split; [lia|].
  split; [lia|]. intros j Hj.
  assert (Hin : region dst j ∈ live dst) by (apply list_elem_of_lookup; exists (Z.to_nat j); by apply live_lookup).
  rewrite Lv in Hin. apply take_live_src in Hin as (k & Hk & ->); [|lia].
  split; [apply (wf_types _ Hwf); lia|].
  destruct (wf_apart _ Hwf k i) as [Ha|Ha]; [lia|lia|by right|by left].
Qed.
Lemma add_region i dst D E : progress i dst D E -> 0 <= i < src.(region_count) -> 0 <= rd < NPAGES ->
  let r := region src i in
  exists dst', as_add_region dst r.(va_start) r.(va_end) r.(rtype) r.(perm) = (dst', 0) /\
    as_wf dst' /\ dst'.(pagetable) = idx2pa rd /\ live dst' ≡ₚ r :: live dst /\
    live dst' ≡ₚ take (Z.to_nat (i + 1)) (live src).
Proof.
  intros Hpg Hi Hrd r. pose proof (next_addable i dst D E Hpg Hi Hrd) as Hadd. fold r in Hadd.
  destruct Hpg as [W T Lv _ _]. apply (as_add_region_iff _ _ _ _ r.(perm)) in Hadd; [|apply (wf_count _ W)].
  destruct (as_add_region dst _ _ _ _) as [dst' e] eqn:EA. simpl in Hadd. subst e. exists dst'. split; [done|].
  apply as_add_region_spec in EA as [[? _]|(_ & W' & ins & Hins)];
    [lia| |done|apply (wf_each _ Hwf i Hi)].
  split; [done|]. split; [destruct Hins as (_ & _ & _ & -> & _); done|].
  destruct (inserted_live _ _ _ _ W W' Hins) as (l1 & l2 & E1 & E2).
  assert (Hl : live dst' ≡ₚ r :: live dst).
  { rewrite E2, E1. replace (mkRegion _ _ _ _) with r by (by destruct r). by rewrite Permutation_middle. }
  split; [done|]. rewrite Hl, Lv. pose proof (live_lookup src i Hwf Hi) as Hlook. fold r in Hlook.
  replace (Z.to_nat (i + 1)) with (S (Z.to_nat i)) by lia. rewrite (take_S_r _ _ r) by done.
  by rewrite Permutation_app_comm.
Qed.

(** The copy was given up: what was shared lies in regions of the destination. *)
Definition broken (dst : addr_space) (D : Z -> bool) : Prop :=
  as_wf dst /\ dst.(pagetable) = idx2pa rd /\ (forall r, r ∈ live dst -> r ∈ live src) /\
  forall p, D p = true -> region_pages (live dst) p = true.

Lemma region_copy_spec `{!LayoutOk L} i dst D E G s Td :
  cp D E G s Td -> progress i dst D E -> 0 <= i < src.(region_count) ->
  runs (region_copy dst src.(pagetable) (region src i) s) (fun rb s' => exists D' E' G' Td',
    cp D' E' G' s' Td' /\
    if rb.2 : bool then progress (i + 1) rb.1 D' E' else broken rb.1 D' /\ used_up s0 rd Td').
Proof.
  intros Hc Hpg Hi. pose proof (proj2 (pt_root _ _ _ _ (cp_dst Hc))) as Hrd.
  destruct (add_region i dst D E Hpg Hi Hrd) as (dst' & EA & W' & T' & L1 & L2).
  unfold region_copy. rewrite EA. change (0 <? 0) with false. cbn iota zeta.
  set (r := region src i) in *. rewrite T', Hpt.
  pose proof (wf_each _ Hwf i Hi) as Hok. fold r in Hok.
  destruct (region_bounds r Hok) as (-> & B & C & _).
  assert (Hin : r ∈ live src) by (apply live_src; eauto).
  assert (Hrp : forall p, region_pages (live dst') p = true <-> region_page r p = true \/ D p = true).
  { intros p. rewrite (region_pages_perm _ _ p L1), (pg_pages _ _ _ _ Hpg). unfold region_pages. simpl.
    by rewrite orb_true_iff. }
  assert (Hnew : forall p, region_page r p = true -> D p = false /\ E p = false).
  { intros p Hp. assert (Hno : region_pages (live dst) p <> true).
    { rewrite (region_pages_perm _ _ p (pg_live _ _ _ _ Hpg)), region_pages_true.
      intros (r' & (k & Hk & ->)%take_live_src & Hp'); [|lia].
      apply (region_page_apart (region src k) r p); try done; [apply (wf_each _ Hwf); lia|].
      apply (wf_apart _ Hwf); lia. }
    split; apply not_true_is_false; intros Hx; apply Hno; [by apply (pg_pages _ _ _ _ Hpg)|by apply (pg_marked _ _ _ _ Hpg)]. }
  apply runs_bind. eapply runs_mono.
  { apply (copy_pages_spec s0 rs Ts rd Td0 _ Hfork _ D E G s Td); try done.
    - apply Hok.
    - apply Hok.
    - lia.
    - change TRAPFRAME with 4294959104 in B. lia.
    - lia.
    - intros p Hp%region_page_true. split; [apply region_pages_true; eauto|by apply Hnew]. }
  intros b s' (D' & E' & G' & Td' & Hc' & H1 & H2 & H3 & H4 & H5). simpl. exists D', E', G', Td'.
  split; [done|].
  assert (HD' : forall p, D' p = true -> region_pages (live dst') p = true).
  { intros p Hp. apply Hrp. destruct (H2 p Hp) as [|Hr%region_page_true]; auto. }
  destruct b.
  - split; try done.
    + intros p. split; [auto|]. intros [Hp%region_page_true|Hp]%Hrp; [by apply H4|by apply H1].
    + intros p Hp. destruct (H3 p Hp) as [HE|Hr%region_page_true]; apply Hrp; [|by left].
      right. by apply (pg_pages _ _ _ _ Hpg), (pg_marked _ _ _ _ Hpg).
  - split; [|by apply H5]. split; [done|]. split; [done|]. split; [|done]. intros r' Hr'. rewrite L2 in Hr'.
    apply take_live_src in Hr' as (k & Hk & ->); [|lia]. apply live_src. exists k. split; [lia|done].
Qed.

Lemma regions_copy_spec `{!LayoutOk L} n : forall i dst D E G s Td,
  cp D E G s Td -> progress i dst D E -> 0 <= i -> i + Z.of_nat n = src.(region_count) ->
  runs (regions_copy n i dst src s) (fun rb s' => exists D' E' G' Td',
    cp D' E' G' s' Td' /\
    if rb.2 : bool then progress src.(region_count) rb.1 D' E' else broken rb.1 D' /\ used_up s0 rd Td').
Proof.
  induction n as [|n IH]; intros i dst D E G s Td Hc Hpg Hi Hn; cbn [regions_copy].
  { simpl. exists D, E, G, Td. split; [done|]. by replace (src.(region_count)) with i by lia. }
  apply runs_bind. eapply runs_mono; [by apply (region_copy_spec i dst D E G s Td); [| |lia]|].
  intros [dst1 b] s1 (D1 & E1 & G1 & Td1 & Hc1 & H). simpl in *. destruct b.
  - apply (IH (i + 1) dst1 D1 E1 G1 s1 Td1); try done; lia.
  - simpl. exists D1, E1, G1, Td1. done.
Qed.
(** ** The error path *)

Lemma region_npages r : region_ok r ->
  as_region_map_npages r = vpn (PGROUNDUP r.(va_end)) - vpn r.(va_start) /\
  as_region_map_start r = r.(va_start).
Proof.
  intros Hok. pose proof (region_bounds r Hok) as (Hd & B & C & B2). unfold as_region_map_npages, as_region_map_start.
  split; [|done]. destruct Hok as (Hs & He & Ha & _). destruct (Z.leb_spec (va_end r) (va_start r)) as [Hle|Hlt].
  - unfold vpn, PGSIZE in *. zlia.
  - rewrite Hd. unfold u32. rewrite Z.mod_small by (change TRAPFRAME with 4294959104 in *; lia).
    unfold vpn, PGSIZE in *. zlia.
Qed.

Hypothesis Hfree : forall r, r ∈ live src -> as_region_do_free r.(rtype) = true.

Lemma unmap_region_spec `{!LayoutOk L} dst r D E G s Td :
  cp D E G s Td -> dst.(pagetable) = idx2pa rd -> region_ok r -> r ∈ live src ->
  runs (unmap_region dst r s) (fun _ s' => exists D' G', cp D' E G' s' Td /\
    forall p, D' p = true -> D p = true /\ region_page r p = false).
Proof.
  intros Hc Hd Hok Hin. destruct (region_npages r Hok) as [Hn Hst]. pose proof (region_bounds r Hok) as (_ & B & C & _).
  unfold unmap_region. rewrite Hn, Hst, Hfree by done.
  assert (Hrp : forall p, vpn (va_start r) <= p < vpn (va_start r) + (vpn (PGROUNDUP (va_end r)) - vpn (va_start r)) <->
    region_page r p = true) by (intros p; rewrite region_page_true; lia).
  destruct (Z.gtb_spec (vpn (PGROUNDUP (va_end r)) - vpn (va_start r)) 0) as [Hgt|Hle].
  2: { simpl. exists D, G. split; [done|]. intros p Hp. split; [done|]. apply not_true_is_false.
       rewrite region_page_true. lia. }
  assert (HP : forall va, 0 <= va < 2^32 ->
    in_range (va_start r) (vpn (PGROUNDUP (va_end r)) - vpn (va_start r)) va -> region_pages (live src) (vpn va) = true).
  { intros va Hva Hir. apply region_pages_true. exists r. split; [done|]. by apply Hrp. }
  eapply runs_mono.
  { apply (uvmunmap_spec s dst rd Td); [apply Hc|done|apply Hc|apply Hok|apply Hok|lia| |].
    - destruct Hok as (? & ? & ? & _). change TRAPFRAME with 4294959104 in *. unfold vpn, PGSIZE in *. zlia.
    - by apply (copying_frames s0 rs Ts rd Td0 _ Hfork D E G). }
  intros [] s' Hu. destruct (copying_unmap s0 rs Ts rd Td0 _ Hfork D E G s Td _ _ s' Hc HP Hu) as [G' Hc'].
  eexists; exists G'. split; [exact Hc'|]. intros p [Hp Hout]%without_true. split; [done|].
  apply not_true_is_false. by rewrite <-Hrp.
Qed.

Lemma unmap_regions_spec `{!LayoutOk L} dst D E G s Td :
  cp D E G s Td -> broken dst D ->
  runs (unmap_regions dst s) (fun _ s' => exists D' G', cp D' E G' s' Td /\ forall p, D' p = false).
Proof.
  intros Hc (W & T & Hsub & HD). unfold unmap_regions.
  assert (Hreg : forall j, 0 <= j < dst.(region_count) -> region dst j ∈ live dst).
  { intros j Hj. apply list_elem_of_lookup. exists (Z.to_nat j). by apply live_lookup. }
  apply (runs_for (fun i s => exists D' G', cp D' E G' s Td /\ forall p, D' p = true ->
    exists j, i <= j < dst.(region_count) /\ region_page (region dst j) p = true)).
  - exists D, G. split; [done|]. intros p (r & Hr & Hp)%HD%region_pages_true.
    apply list_elem_of_lookup in Hr as [i Hi]. exists (Z.of_nat i). pose proof (lookup_lt_Some _ _ _ Hi) as Hl.
    rewrite live_length in Hl by done. pose proof (wf_count _ W). split; [lia|].
    pose proof (live_lookup dst (Z.of_nat i) W ltac:(lia)) as Hk. rewrite Nat2Z.id in Hk. congruence.
  - intros i s1 Hi (D1 & G1 & Hc1 & H1).
    eapply runs_mono; [apply (unmap_region_spec dst (region dst i) D1 E G1 s1 Td); try done|].
    + apply (wf_each _ W). lia.
    + apply Hsub, Hreg. lia.
    + intros [] s2 (D2 & G2 & Hc2 & H2). exists D2, G2. split; [done|]. intros p Hp.
      destruct (H2 p Hp) as [HD1 Hno]. destruct (H1 p HD1) as (j & Hj & Hjp). exists j. split; [|done].
      destruct (decide (j = i)) as [->|]; [congruence|lia].
  - intros s' (D' & G' & Hc' & H'). exists D', G'. split; [done|]. intros p. apply not_true_is_false. intros Hp.
    destruct (H' p Hp) as (j & Hj & _). pose proof (wf_count _ W). lia.
Qed.

Lemma as_copy_spec `{!LayoutOk L} dst :
  as_wf dst -> dst.(pagetable) = idx2pa rd -> dst.(region_count) = 0 ->
  runs (as_copy dst src s0) (fun re s' => exists D E G Td, cp D E G s' Td /\ re.1.(pagetable) = idx2pa rd /\
    ((re.2 = 0 /\ as_wf re.1 /\ live re.1 ≡ₚ live src /\ forall p, D p = region_pages (live src) p) \/
     (re.2 = -1 /\ re.1.(region_count) = 0 /\ used_up s0 rd Td /\ forall p, D p = false))).
Proof.
  intros W T H0. pose proof (copying_start s0 rs Ts rd Td0 _ Hfork) as Hc.
  pose proof (proj2 (pt_root _ _ _ _ (cp_dst Hc))) as Hrd. pose proof (proj2 (pt_root _ _ _ _ (cp_src Hc))) as Hrs.
  unfold as_copy. rewrite T, Hpt. destruct (Z.eqb_spec (idx2pa rd) 0); [by apply idx2pa_nonzero in Hrd|].
  destruct (Z.eqb_spec (idx2pa rs) 0); [by apply idx2pa_nonzero in Hrs|]. simpl.
  unfold unmap_regions at 1. rewrite H0. unfold for_ at 1. unfold bind at 1, ret at 1. cbn [rbind].
  assert (Hset : set_region_count 0 dst = dst) by (destruct dst; simpl in *; by subst). rewrite Hset.
  pose proof (wf_count _ Hwf) as Hcnt.
  assert (Hempty : live dst = []) by (unfold live; by rewrite H0).
  apply runs_bind. eapply runs_mono.
  { apply (regions_copy_spec (Z.to_nat (region_count src)) 0 dst _ _ _ _ _ Hc); [|lia|lia].
    split; try done; rewrite Hempty; done. }
  intros [dst1 b] s1 (D & E & G & Td & Hc1 & H). simpl in H. destruct b; simpl.
  - destruct H as [W1 T1 L1 Hp Hm]. exists D, E, G, Td. split; [done|]. split; [done|]. left. split; [done|].
    assert (HL : live dst1 ≡ₚ live src).
    { rewrite L1, take_ge; [done|]. by rewrite live_length. }
    split; [done|]. split; [done|]. intros p. apply eq_true_iff_eq. rewrite Hp. by apply region_pages_perm.
  - destruct H as [H Hup]. apply runs_bind. eapply runs_mono; [by apply (unmap_regions_spec dst1 D E G s1 Td)|].
    intros [] s2 (D2 & G2 & Hc2 & H2). simpl. exists D2, E, G2, Td. split; [done|].
    split; [apply H|]. right. done.
Qed.
End regions.
End copy.
