(* ===== verification/ForkSpec.v ===== *)
(** * Fork's copy of an address space: results

    After [as_copy] parent and child read the same bytes, every page is shared
    read-only, and whatever one of them writes the other does not see. *)

From S2P Require Import Prelude CMem Machine Sv32 Spinlock Kalloc KallocProof.
From S2P Require Import KallocSpec Sched AddrSpace Regions PageTable UserMem UserCopy ForkCopy UserSpec.

#[local] Opaque memset.

Section results.
Context `{L : Layout}.

(** ** Reading through an entry that names the same page *)

Lemma same_page_refl v : same_page v v.
Proof. done. Qed.

Lemma userish_same m m' T T' va : same_page (leaf m T va) (leaf m' T' va) ->
  userish m' T' va <-> userish m T va.
Proof.
  unfold userish. intros (_ & -> & -> & H).
  destruct (has (leaf m T va) PTE_V), (has (leaf m T va) PTE_U), (has (leaf m T va) PTE_W),
    (has (leaf m T va) PTE_COW), (has (leaf m' T' va) PTE_W), (has (leaf m' T' va) PTE_COW); simpl in *; naive_solver.
Qed.

Lemma maps_same m m' T T' va d : same_page (leaf m T va) (leaf m' T' va) ->
  maps m' T' va d <-> maps m T va d.
Proof. unfold maps. by intros (-> & -> & _). Qed.

Lemma peek_same_page u m m' T T' va : same_page (leaf m T va) (leaf m' T' va) ->
  (userish m T va -> load8 m' (PTE2PA (leaf m T va) + va mod PGSIZE) =
                     load8 m (PTE2PA (leaf m T va) + va mod PGSIZE)) ->
  peek u m' T' va = peek u m T va.
Proof.
  intros (Hp & Hv & Hu & Hw) Hb. unfold peek. rewrite Hv, Hu, Hw, Hp.
  destruct (has (leaf m T va) PTE_V && _) eqn:E; [|done]. f_equal. apply Hb. unfold userish.
  apply andb_true_iff in E as [-> E]. split; [done|]. destruct (has (leaf m T va) PTE_U), u; simpl in E;
    rewrite ?orb_true_r; try done; by destruct (has (leaf m T va) PTE_W).
Qed.

(** ** The two spaces after the copy *)

Section after.
Context (s0 : kstate) (rs : Z) (Ts : Z -> option Z) (rd : Z) (Td0 : Z -> option Z) (P : Z -> bool).
Hypothesis Hfork : forkable s0 rs Ts rd Td0 P.
Context (D E G : Z -> bool) (s : kstate) (Td : Z -> option Z).
Hypothesis Hc : copying s0 rs Ts rd Td0 P D E G s Td.

Lemma src_same va : 0 <= va < 2^32 -> same_page (leaf (k_mem s0) Ts va) (leaf (k_mem s) Ts va).
Proof.
  intros Hva. rewrite (cp_sleaf _ _ _ _ _ _ _ _ _ _ _ Hc) by done.
  destruct (E (vpn va)) eqn:HE, (has (leaf (k_mem s0) Ts va) PTE_V) eqn:HV; simpl; try done.
  destruct (page_frame _ _ _ _ _ _ Hfork va Hva (cp_EP _ _ _ _ _ _ _ _ _ _ _ Hc _ HE) HV) as (d & Hm & _).
  apply (src_entry_spec _ _ _ _ Hm (leaf_range _ _ _)).
Qed.

Lemma marked_not_writable va : 0 <= va < 2^32 -> E (vpn va) = true ->
  has (leaf (k_mem s) Ts va) PTE_V = true -> has (leaf (k_mem s) Ts va) PTE_W = false.
Proof.
  intros Hva HE HV. destruct (src_same va Hva) as (_ & HV' & _). rewrite HV in HV'.
  rewrite (cp_sleaf _ _ _ _ _ _ _ _ _ _ _ Hc), HE, <-HV' by done. simpl.
  destruct (page_frame _ _ _ _ _ _ Hfork va Hva (cp_EP _ _ _ _ _ _ _ _ _ _ _ Hc _ HE)) as (d & Hm & _); [done|].
  apply (src_entry_spec _ _ _ _ Hm (leaf_range _ _ _)).
Qed.

(** A frame of the source, and what became of it. *)
Lemma src_frame va : 0 <= va < 2^32 -> userish (k_mem s0) Ts va ->
  exists d, maps (k_mem s0) Ts va d /\ used s0 d /\ used s d /\ ~ tabs rs Ts d /\ ~ tabs rd Td d.
Proof.
  intros Hva Hu. destruct (ui_frame _ _ _ (fk_src _ _ _ _ _ _ Hfork) va Hva Hu) as (d & Hm & Hd & Ht).
  exists d. split; [done|]. split; [done|]. split; [by eapply copying_used|]. split; [done|].
  intros Ht'. apply (fk_frame_dst _ _ _ _ _ _ Hfork va d Hva Hu Hm). by eapply copying_dst_tabs.
Qed.

Lemma src_uinv : uinv s rs Ts.
Proof.
  pose proof (fk_src _ _ _ _ _ _ Hfork) as H0. split; try apply Hc.
  - intros va Hva Hu. rewrite userish_same in Hu by (by apply src_same).
    destruct (src_frame va Hva Hu) as (d & Hm & _ & Hd & Ht & _). exists d.
    split; [|done]. by rewrite maps_same by (by apply src_same).
  - intros va va' d Hva Hva' Hu Hu' Hm Hm'. rewrite userish_same in Hu, Hu' by (by apply src_same).
    rewrite maps_same in Hm, Hm' by (by apply src_same). by apply (ui_inj _ _ _ H0 va va' d).
  - intros va d Hva Hm Hw.
    assert (HE : E (vpn va) = false).
    { apply not_true_is_false. intros HE. rewrite marked_not_writable in Hw; [done|done|done|apply Hm]. }
    rewrite maps_same in Hm by (by apply src_same).
    rewrite (cp_sleaf _ _ _ _ _ _ _ _ _ _ _ Hc), HE in Hw by done. simpl in Hw.
    assert (Hu : userish (k_mem s0) Ts va) by (split; [apply Hm|by rewrite Hw]).
    destruct (ui_frame _ _ _ H0 va Hva Hu) as (d' & Hm' & Hd & _). rewrite (maps_fun _ _ _ _ _ Hm' Hm) in Hd.
    rewrite (cp_refs _ _ _ _ _ _ _ _ _ _ _ Hc d Hd). destruct (G d) eqn:HG.
    + apply (cp_frames _ _ _ _ _ _ _ _ _ _ _ Hc) in HG as (va2 & Hva2 & HD2 & Hm2).
      pose proof (cp_DE _ _ _ _ _ _ _ _ _ _ _ Hc _ HD2) as HE2.
      assert (vpn va = vpn va2); [|congruence].
      apply (ui_inj _ _ _ H0 va2 va d); try done.
      apply (fk_user _ _ _ _ _ _ Hfork); [done|by apply (cp_EP _ _ _ _ _ _ _ _ _ _ _ Hc)|apply Hm2].
    + rewrite (ui_excl _ _ _ H0 va d); [lia|done|done|done].
Qed.

Lemma src_peek u va : 0 <= va < 2^32 -> peek u (k_mem s) Ts va = peek u (k_mem s0) Ts va.
Proof.
  intros Hva. apply peek_same_page; [by apply src_same|]. intros Hu.
  destruct (ui_frame _ _ _ (fk_src _ _ _ _ _ _ Hfork) va Hva Hu) as (d & Hm & Hd & Ht).
  pose proof Hm as (_ & -> & _). apply (cp_kept _ _ _ _ _ _ _ _ _ _ _ Hc d).
  - split; [done|]. split; [done|]. by apply (fk_frame_dst _ _ _ _ _ _ Hfork va).
  - unfold page_addr, PGSIZE. zlia.
Qed.

(** The destination: shared pages as in the source, the others as before. *)
Lemma dst_shared va : 0 <= va < 2^32 -> D (vpn va) = true ->
  same_page (leaf (k_mem s0) Ts va) (leaf (k_mem s) Td va) \/
  has (leaf (k_mem s0) Ts va) PTE_V = false /\ has (leaf (k_mem s) Td va) PTE_V = false.
Proof.
  intros Hva HD. assert (HP : P (vpn va) = true)
    by (by apply (cp_EP _ _ _ _ _ _ _ _ _ _ _ Hc), (cp_DE _ _ _ _ _ _ _ _ _ _ _ Hc)).
  pose proof (cp_dleaf _ _ _ _ _ _ _ _ _ _ _ Hc va Hva) as Hl. rewrite HP, HD in Hl.
  destruct (has (leaf (k_mem s0) Ts va) PTE_V) eqn:HV; simpl in Hl; [left|right; done]. rewrite Hl.
  destruct (page_frame _ _ _ _ _ _ Hfork va Hva HP HV) as (d & Hm & _).
  apply (dst_entry_spec _ _ _ _ Hm).
Qed.

(** Every user page of the destination is a shared page or an old one. *)
Lemma dst_cases va : 0 <= va < 2^32 -> userish (k_mem s) Td va ->
  (D (vpn va) = true /\ userish (k_mem s0) Ts va /\ has (leaf (k_mem s) Td va) PTE_W = false /\
     forall d, maps (k_mem s) Td va d <-> maps (k_mem s0) Ts va d) \/
  (P (vpn va) = false /\ userish (k_mem s0) Td0 va /\ leaf (k_mem s) Td va = leaf (k_mem s0) Td0 va).
Proof.
  intros Hva Hu. pose proof (cp_dleaf _ _ _ _ _ _ _ _ _ _ _ Hc va Hva) as Hl.
  destruct (P (vpn va)) eqn:HP.
  - left. destruct (D (vpn va)) eqn:HD, (has (leaf (k_mem s0) Ts va) PTE_V) eqn:HV; simpl in Hl;
      try (destruct Hu as [Hu _]; congruence).
    destruct (page_frame _ _ _ _ _ _ Hfork va Hva HP HV) as (d & Hm & _).
    destruct (dst_entry_spec _ _ _ _ Hm) as [Hs Hw]. rewrite <-Hl in Hs, Hw.
    split; [done|]. split; [by rewrite <-(userish_same _ _ _ _ _ Hs)|]. split; [done|].
    intros e. by apply maps_same.
  - right. split; [done|]. split; [|done]. by rewrite <-(userish_leaf _ _ _ _ _ Hl).
Qed.
Lemma dst_frame va : 0 <= va < 2^32 -> userish (k_mem s) Td va ->
  exists d, maps (k_mem s) Td va d /\ used s0 d /\ used s d /\ ~ tabs rs Ts d /\ ~ tabs rd Td d.
Proof.
  intros Hva Hu. destruct (dst_cases va Hva Hu) as [(HD & Hus & _ & Hm)|(HP & Hud & Hl)].
  - destruct (src_frame va Hva Hus) as (d & Hm' & H). exists d. by rewrite Hm.
  - pose proof (fk_dst _ _ _ _ _ _ Hfork) as H0.
    destruct (ui_frame _ _ _ H0 va Hva Hud) as (d & Hm & Hd & Ht). exists d.
    split; [by rewrite (maps_eq (k_mem s0) _ Td0)|]. split; [done|]. split; [by eapply copying_used|].
    split; [by apply (fk_frame_src _ _ _ _ _ _ Hfork va)|]. intros Ht'. apply Ht. by eapply copying_dst_tabs.
Qed.

Lemma dst_uinv : uinv s rd Td.
Proof.
  pose proof (fk_src _ _ _ _ _ _ Hfork) as Hs0. pose proof (fk_dst _ _ _ _ _ _ Hfork) as Hd0.
  split; try apply Hc.
  - intros va Hva Hu. destruct (dst_frame va Hva Hu) as (d & Hm & _ & Hd & _ & Ht). eauto.
  - intros va va' d Hva Hva' Hu Hu' Hm Hm'.
    destruct (dst_cases va Hva Hu) as [(_ & Hu1 & _ & H1)|(_ & Hu1 & H1)];
    destruct (dst_cases va' Hva' Hu') as [(_ & Hu2 & _ & H2)|(_ & Hu2 & H2)].
    + apply (ui_inj _ _ _ Hs0 va va' d); try done; [by apply H1|by apply H2].
    + exfalso. apply (fk_apart _ _ _ _ _ _ Hfork va va' d); try done; [by apply H1|].
      by rewrite <-(maps_eq _ _ _ _ _ _ H2).
    + exfalso. apply (fk_apart _ _ _ _ _ _ Hfork va' va d); try done; [by apply H2|].
      by rewrite <-(maps_eq _ _ _ _ _ _ H1).
    + apply (ui_inj _ _ _ Hd0 va va' d); try done;
        [by rewrite <-(maps_eq _ _ _ _ _ _ H1)|by rewrite <-(maps_eq _ _ _ _ _ _ H2)].
  - intros va d Hva Hm Hw. assert (Hu : userish (k_mem s) Td va) by (split; [apply Hm|by rewrite Hw]).
    destruct (dst_cases va Hva Hu) as [(_ & _ & Hw' & _)|(_ & Hu1 & H1)]; [congruence|].
    rewrite (maps_eq _ _ _ _ _ _ H1) in Hm. rewrite H1 in Hw.
    destruct (ui_frame _ _ _ Hd0 va Hva Hu1) as (d' & Hm' & Hd & _). rewrite (maps_fun _ _ _ _ _ Hm' Hm) in Hd.
    rewrite (cp_refs _ _ _ _ _ _ _ _ _ _ _ Hc d Hd). destruct (G d) eqn:HG.
    + exfalso. apply (cp_frames _ _ _ _ _ _ _ _ _ _ _ Hc) in HG as (va2 & Hva2 & HD2 & Hm2).
      apply (fk_apart _ _ _ _ _ _ Hfork va2 va d); try done.
      apply (fk_user _ _ _ _ _ _ Hfork); [done| |apply Hm2].
      by apply (cp_EP _ _ _ _ _ _ _ _ _ _ _ Hc), (cp_DE _ _ _ _ _ _ _ _ _ _ _ Hc).
    + rewrite (ui_excl _ _ _ Hd0 va d); [lia|done|done|done].
Qed.

Lemma dst_peek_shared u va : 0 <= va < 2^32 -> D (vpn va) = true ->
  peek u (k_mem s) Td va = peek u (k_mem s0) Ts va.
Proof.
  intros Hva HD. destruct (dst_shared va Hva HD) as [Hs|[H1 H2]].
  2: { unfold peek. by rewrite H1, H2. }
  apply peek_same_page; [done|]. intros Hu.
  destruct (ui_frame _ _ _ (fk_src _ _ _ _ _ _ Hfork) va Hva Hu) as (d & Hm & Hd & Ht).
  pose proof Hm as (_ & -> & _). apply (cp_kept _ _ _ _ _ _ _ _ _ _ _ Hc d).
  - split; [done|]. split; [done|]. by apply (fk_frame_dst _ _ _ _ _ _ Hfork va).
  - unfold page_addr, PGSIZE. zlia.
Qed.

Lemma dst_peek_old u va : 0 <= va < 2^32 -> P (vpn va) = false ->
  peek u (k_mem s) Td va = peek u (k_mem s0) Td0 va.
Proof.
  intros Hva HP. pose proof (cp_dleaf _ _ _ _ _ _ _ _ _ _ _ Hc va Hva) as Hl. rewrite HP in Hl.
  apply peek_same_page; [by rewrite Hl|]. intros Hu.
  destruct (ui_frame _ _ _ (fk_dst _ _ _ _ _ _ Hfork) va Hva Hu) as (d & Hm & Hd & Ht).
  pose proof Hm as (_ & -> & _). apply (cp_kept _ _ _ _ _ _ _ _ _ _ _ Hc d).
  - split; [done|]. split; [|done]. by apply (fk_frame_src _ _ _ _ _ _ Hfork va).
  - unfold page_addr, PGSIZE. zlia.
Qed.

Lemma dst_peek_none u va : 0 <= va < 2^32 -> P (vpn va) = true -> D (vpn va) = false ->
  peek u (k_mem s) Td va = None.
Proof.
  intros Hva HP HD. pose proof (cp_dleaf _ _ _ _ _ _ _ _ _ _ _ Hc va Hva) as Hl. rewrite HP, HD in Hl.
  simpl in Hl. unfold peek. by rewrite Hl.
Qed.

(** A page present in the source and shared. *)
Lemma shared_page va d : 0 <= va < 2^32 -> D (vpn va) = true -> maps (k_mem s0) Ts va d ->
  maps (k_mem s) Ts va d /\ maps (k_mem s) Td va d /\ refs s d = refs s0 d + 1 /\
  has (leaf (k_mem s) Ts va) PTE_W = false /\ has (leaf (k_mem s) Td va) PTE_W = false.
Proof.
  intros Hva HD Hm. pose proof (cp_DE _ _ _ _ _ _ _ _ _ _ _ Hc _ HD) as HE.
  pose proof (cp_EP _ _ _ _ _ _ _ _ _ _ _ Hc _ HE) as HP.
  assert (Hms : maps (k_mem s) Ts va d) by (by rewrite maps_same by (by apply src_same)).
  assert (Hmd : maps (k_mem s) Td va d) by (by apply (dst_maps _ _ _ _ _ _ Hfork _ _ _ _ _ _ _ Hc)).
  split; [done|]. split; [done|]. split; [|split].
  - rewrite (cp_refs _ _ _ _ _ _ _ _ _ _ _ Hc) by (by eapply (shared_used _ _ _ _ _ _ Hfork)).
    replace (G d) with true; [done|]. symmetry. apply (cp_frames _ _ _ _ _ _ _ _ _ _ _ Hc). eauto.
  - apply marked_not_writable; [done|done|apply Hms].
  - assert (Hu : userish (k_mem s) Td va).
    { pose proof (fk_user _ _ _ _ _ _ Hfork va Hva HP (proj1 Hm)) as Hu.
      destruct (dst_shared va Hva HD) as [Hs|[Hx _]]; [by rewrite userish_same|].
      destruct Hm as [Hv _]. congruence. }
    destruct (dst_cases va Hva Hu) as [(_ & _ & ? & _)|(? & _)]; [done|congruence].
Qed.

(** ** Isolation *)

(** No page of the other space is one the source may write. *)
Lemma dst_safe_from_src d : tabs rd Td d \/ (exists va, 0 <= va < 2^32 /\ userish (k_mem s) Td va /\ maps (k_mem s) Td va d) ->
  safe rs s Ts d.
Proof.
  intros [Ht|(va & Hva & Hu & Hm)].
  - split; [apply (tabs_used (k_mem s) (used s) rd Td d); [apply Hc|done]|]. split.
    { intros Ht'. by eapply (copying_tabs _ _ _ _ _ _ Hfork). }
    left. intros x Hx Hux Hmx. rewrite userish_same in Hux by (by apply src_same).
    rewrite maps_same in Hmx by (by apply src_same).
    destruct (src_frame x Hx Hux) as (e & Hme & _ & _ & _ & Hte). by rewrite (maps_fun _ _ _ _ _ Hmx Hme) in Ht.
  - destruct (dst_frame va Hva Hu) as (e & Hme & He0 & He & Hes & _).
    rewrite (maps_fun _ _ _ _ _ Hm Hme). split; [done|]. split; [done|].
    destruct (dst_cases va Hva Hu) as [(HD & Hus & _ & H)|(_ & Hud & Hl)].
    + right. rewrite (cp_refs _ _ _ _ _ _ _ _ _ _ _ Hc e He0).
      replace (G e) with true; [unfold used in He0; lia|]. symmetry.
      apply (cp_frames _ _ _ _ _ _ _ _ _ _ _ Hc). exists va. by rewrite <-H.
    + left. intros x Hx Hux Hmx. rewrite userish_same in Hux by (by apply src_same).
      rewrite maps_same in Hmx by (by apply src_same).
      apply (fk_apart _ _ _ _ _ _ Hfork x va e); try done. by rewrite <-(maps_eq _ _ _ _ _ _ Hl).
Qed.

Lemma src_safe_from_dst d : tabs rs Ts d \/ (exists va, 0 <= va < 2^32 /\ userish (k_mem s) Ts va /\ maps (k_mem s) Ts va d) ->
  safe rd s Td d.
Proof.
  intros [Ht|(va & Hva & Hu & Hm)].
  - split; [apply (tabs_used (k_mem s) (used s) rs Ts d); [apply Hc|done]|]. split; [by eapply (copying_tabs _ _ _ _ _ _ Hfork)|].
    left. intros x Hx Hux Hmx. destruct (dst_frame x Hx Hux) as (e & Hme & _ & _ & Hte & _).
    by rewrite (maps_fun _ _ _ _ _ Hmx Hme) in Ht.
  - rewrite userish_same in Hu by (by apply src_same). rewrite maps_same in Hm by (by apply src_same).
    destruct (src_frame va Hva Hu) as (e & Hme & He0 & He & _ & Hed).
    rewrite (maps_fun _ _ _ _ _ Hm Hme). split; [done|]. split; [done|].
    destruct (G e) eqn:HG.
    + right. rewrite (cp_refs _ _ _ _ _ _ _ _ _ _ _ Hc e He0), HG. unfold used in He0. lia.
    + left. intros x Hx Hux Hmx. destruct (dst_cases x Hx Hux) as [(HD & Hus & _ & H)|(_ & Hud & Hl)].
      * apply H in Hmx. assert (G e = true); [|congruence]. apply (cp_frames _ _ _ _ _ _ _ _ _ _ _ Hc). eauto.
      * apply (fk_apart _ _ _ _ _ _ Hfork va x e); try done. by rewrite <-(maps_eq _ _ _ _ _ _ Hl).
Qed.
End after.

(** Every page the second space uses is one the first may not write. *)
Definition guarded (s : kstate) (r1 : Z) (T1 : Z -> option Z) (r2 : Z) (T2 : Z -> option Z) : Prop :=
  forall d, tabs r2 T2 d \/
    (exists va, 0 <= va < 2^32 /\ userish (k_mem s) T2 va /\ maps (k_mem s) T2 va d) -> safe r1 s T1 d.

(** Writes of the first space are invisible in the second, now and later. *)
Lemma guarded_writes s r1 T1 r2 T2 hit s' T1' :
  uinv s r2 T2 -> guarded s r1 T1 r2 T2 -> writes_only r1 s T1 hit s' T1' ->
  ptable (k_mem s') (used s') r2 T2 /\ guarded s' r1 T1' r2 T2 /\
  forall u va, 0 <= va < 2^32 -> peek u (k_mem s') T2 va = peek u (k_mem s) T2 va.
Proof.
  intros Hi Hg Hw.
  assert (Htab : forall j, tabs r2 T2 j -> safe r1 s' T1' j /\
    forall a, page_addr j a -> load8 (k_mem s') a = load8 (k_mem s) a).
  { intros j Hj. apply (wo_safe _ _ _ _ _ _ Hw). apply Hg. by left. }
  destruct (ptable_ext (k_mem s) (k_mem s') (used s) (used s') r2 T2) as [Hpt Hl].
  { apply Hi. }
  { intros j Hj. by destruct (Htab j Hj) as [[? _] _]. }
  { intros j a Hj. by apply Htab. }
  split; [done|]. split.
  - intros d [Ht|(va & Hva & Hu & Hm)]; [by apply Htab|].
    apply (wo_safe _ _ _ _ _ _ Hw), Hg. right. exists va. split; [done|].
    by rewrite <-(userish_leaf _ _ _ _ _ (Hl va)), <-(maps_eq _ _ _ _ _ _ (Hl va)).
  - intros u va Hva. apply peek_same_page; [by rewrite Hl|]. intros Hu.
    destruct (ui_frame _ _ _ Hi va Hva Hu) as (d & Hm & _). pose proof Hm as (_ & -> & _).
    apply (wo_safe _ _ _ _ _ _ Hw d); [apply Hg; right; eauto|]. unfold page_addr, PGSIZE. zlia.
Qed.

(** What fork relies on besides the two page tables. *)
Record fork_args (s : kstate) (rs : Z) (Ts : Z -> option Z) (rd : Z) (Td : Z -> option Z)
    (src dst : addr_space) : Prop := {
  fa_spaces : forkable s rs Ts rd Td (region_pages (live src));
  fa_src : as_wf src /\ src.(pagetable) = idx2pa rs;
  fa_dst : as_wf dst /\ dst.(pagetable) = idx2pa rd /\ dst.(region_count) = 0;
  fa_free : forall r, r ∈ live src -> as_region_do_free r.(rtype) = true;
}.

(** What the copy returns and leaves behind. *)
Definition fork_post (s : kstate) (rs : Z) (Ts : Z -> option Z) (rd : Z) (Td : Z -> option Z)
    (src : addr_space) (re : addr_space * Z) (s' : kstate) : Prop :=
  exists Td',
    uinv s' rs Ts /\ uinv s' rd Td' /\ guarded s' rs Ts rd Td' /\ guarded s' rd Td' rs Ts /\
    (forall u va, 0 <= va < 2^32 -> peek u (k_mem s') Ts va = peek u (k_mem s) Ts va) /\
    (forall u va, 0 <= va < 2^32 -> region_pages (live src) (vpn va) = false ->
       peek u (k_mem s') Td' va = peek u (k_mem s) Td va) /\
    kept s s' (fun j => used s j /\ ~ tabs rs Ts j /\ ~ tabs rd Td j) /\
    ((re.2 = 0 /\ as_wf re.1 /\ live re.1 ≡ₚ live src /\
      forall va, 0 <= va < 2^32 -> region_pages (live src) (vpn va) = true ->
        (forall u, peek u (k_mem s') Td' va = peek u (k_mem s) Ts va) /\
        (forall d, maps (k_mem s) Ts va d ->
           maps (k_mem s') Ts va d /\ maps (k_mem s') Td' va d /\ refs s' d = refs s d + 1 /\
           has (leaf (k_mem s') Ts va) PTE_W = false /\ has (leaf (k_mem s') Td' va) PTE_W = false)) \/
     (re.2 = -1 /\ re.1.(region_count) = 0 /\ (forall j, 0 <= j < NPAGES -> is_free s j -> tabs rd Td' j) /\
      (forall d, used s d -> refs s' d = refs s d) /\
      forall u va, 0 <= va < 2^32 -> region_pages (live src) (vpn va) = true ->
        peek u (k_mem s') Td' va = None)).

(** C3: [as_copy], the copy of an address space that fork makes, returns 0 or -1
    and never panics.  On 0 the child has the parent's regions and reads at
    every address of them exactly what the parent reads; each present page of
    them is shared, writable in neither space, and has one reference more.  On
    -1, which needs that every free page was taken for the child's tables, the
    child maps none of those pages and every count is as before.  In
    both cases the parent reads the same bytes as before, both spaces keep
    their invariant, no page of a third party changes, and no page used by one
    of the two spaces is one the other may write. *)
Theorem as_copy_correct `{!LayoutOk L} (s : kstate) (rs : Z) (Ts : Z -> option Z) (rd : Z)
    (Td : Z -> option Z) (src dst : addr_space) :
  fork_args s rs Ts rd Td src dst ->
  runs (as_copy dst src s) (fork_post s rs Ts rd Td src).
Proof.
  intros [Hfork [Hwf Hpt] (Hwd & Hpd & H0) Hfree].
  eapply runs_mono; [by apply (as_copy_spec s rs Ts rd Td src Hfork Hwf Hpt Hfree dst)|].
  intros re s' (D & E & G & Td' & Hc & Hp & Hcase). exists Td'.
  split; [by apply (src_uinv s rs Ts rd Td _ Hfork D E G s' Td')|].
  split; [by apply (dst_uinv s rs Ts rd Td _ Hfork D E G s' Td')|].
  split; [intros d; by apply (dst_safe_from_src s rs Ts rd Td _ Hfork D E G s' Td' Hc)|].
  split; [intros d; by apply (src_safe_from_dst s rs Ts rd Td _ Hfork D E G s' Td' Hc)|].
  split; [intros u va; by apply (src_peek s rs Ts rd Td _ Hfork D E G s' Td')|].
  split; [intros u va; by apply (dst_peek_old s rs Ts rd Td _ Hfork D E G s' Td')|].
  split; [apply Hc|]. destruct Hcase as [(He & Hw & Hl & HD)|(He & Hn & Hup & HD)]; [left|right].
  - do 3 (split; [done|]). intros va Hva HP. rewrite <-HD in HP.
    split; [intros u; by apply (dst_peek_shared s rs Ts rd Td _ Hfork D E G s' Td')|]. intros d Hm.
    by apply (shared_page s rs Ts rd Td _ Hfork D E G s' Td').
  - do 3 (split; [done|]). split.
    + intros d Hd. rewrite (cp_refs _ _ _ _ _ _ _ _ _ _ _ Hc d Hd). destruct (G d) eqn:HG; [|lia].
      apply (cp_frames _ _ _ _ _ _ _ _ _ _ _ Hc) in HG as (va & _ & Hx & _). by rewrite HD in Hx.
    + intros u va Hva HP. by apply (dst_peek_none s rs Ts rd Td _ D E G s' Td' Hc).
Qed.

(** C9: fork isolates.  After a copy that succeeded, the parent writes bytes
    anywhere in its space: the child still reads at every address of the
    regions what the parent read before the fork.  The same holds with the
    roles exchanged. *)
Theorem fork_isolates `{!LayoutOk L} (s : kstate) (rs : Z) (Ts : Z -> option Z) (rd : Z)
    (Td : Z -> option Z) (src dst : addr_space) (pr : proc) (a : Z) (bs : list Z) (child : bool) :
  fork_args s rs Ts rd Td src dst -> running s pr -> as_wf (p_as pr) ->
  0 <= a < 2^32 -> Z.of_nat (length bs) <= 2^32 -> Forall (fun b => 0 <= b < 256) bs ->
  runs ((re <- as_copy dst src ;;
         e <- copyout (idx2pa (if child then rd else rs)) a bs ;; ret (re, e)) s) (fun ree s' =>
    ree.1.2 = 0 -> exists T',
      (if child then T' = Ts else ptable (k_mem s') (used s') rd T') /\
      forall u va, 0 <= va < 2^32 -> region_pages (live src) (vpn va) = true ->
        peek u (k_mem s') T' va = peek u (k_mem s) Ts va).
Proof.
  intros [Hfork [Hwf Hpt] (Hwd & Hpd & H0) Hfree] Hrun Hwfp Ha Hlen Hbs. apply runs_bind.
  eapply runs_mono; [by apply (as_copy_spec s rs Ts rd Td src Hfork Hwf Hpt Hfree dst)|].
  intros re s1 (D & E & G & Td' & Hc & Hp & Hcase).
  pose proof (src_uinv s rs Ts rd Td _ Hfork D E G s1 Td' Hc) as Hsi.
  pose proof (dst_uinv s rs Ts rd Td _ Hfork D E G s1 Td' Hc) as Hdi.
  assert (Hrun1 : running s1 pr) by (by eapply running_aframe; [apply Hc|]).
  set (r := if child then rd else rs). set (T := if child then Td' else Ts).
  assert (Hi : uinv s1 r T) by (by destruct child).
  apply runs_bind. eapply runs_mono; [by apply (copyout_spec s1 r T pr a bs)|].
  intros e s2 (T2 & Hw & _). simpl. intros Hok.
  destruct Hcase as [(_ & _ & _ & HD)|(He & _)]; [|lia]. destruct child.
  - exists Ts. split; [done|]. intros u va Hva HP.
    rewrite <-(src_peek s rs Ts rd Td _ Hfork D E G s1 Td' Hc) by done.
    assert (Hg : guarded s1 rd Td' rs Ts)
      by (intros d; by apply (src_safe_from_dst s rs Ts rd Td _ Hfork D E G s1 Td' Hc)).
    destruct (guarded_writes s1 rd Td' rs Ts _ s2 T2 Hsi Hg Hw) as (_ & _ & Hpk). by apply Hpk.
  - assert (Hg : guarded s1 rs Ts rd Td')
      by (intros d; by apply (dst_safe_from_src s rs Ts rd Td _ Hfork D E G s1 Td' Hc)).
    destruct (guarded_writes s1 rs Ts rd Td' _ s2 T2 Hdi Hg Hw) as (Hpt2 & _ & Hpk).
    exists Td'. split; [done|]. intros u va Hva HP. rewrite Hpk by done.
    apply (dst_peek_shared s rs Ts rd Td _ Hfork D E G s1 Td' Hc); [done|]. by rewrite HD.
Qed.
End results.

(** ** Witnesses *)

(** A machine with eight pages of RAM: a parent with a writable page at
    address 0, and an empty table for the child. *)
Definition fork_flags : Z := Z.lor PTE_R (Z.lor PTE_W PTE_U).
Definition fork_map (pt : Z) : K Z :=
  mem <- kalloc ;;
  if mem =? 0 then ret 0 else
  zero_page mem ;;
  e <- mappages pt 0 PGSIZE mem fork_flags ;;
  if negb (e =? 0) then @kfree small_layout mem ;; ret 0 else ret mem.
Definition fork_build : K (Z * Z * Z) :=
  pt <- uvmcreate ;; m <- fork_map pt ;; pt2 <- uvmcreate ;; ret (pt, m, pt2).

Lemma fork_build_ok : exists s1 pt m pt2 s, @kinit small_layout demo_boot = Ok tt s1 /\
  fork_build s1 = Ok (pt, m, pt2) s /\ pt <> 0 /\ m <> 0 /\ pt2 <> 0 /\
  k_procs s = [demo_proc] /\ c_proc (k_cpu s) = Some 0 /\ (forall d, refs s d < 2^16 - 1).
Proof.
  assert (H : match @kinit small_layout demo_boot with
    | Ok _ s1 => match fork_build s1 with
      | Ok (pt, m, pt2) s => negb (pt =? 0) && negb (m =? 0) && negb (pt2 =? 0) = true /\
          k_procs s = [demo_proc] /\ c_proc (k_cpu s) = Some 0 /\
          bool_decide (map_Forall (fun _ c => c < 65535) (refcnt (k_kmem s))) = true
      | _ => False end
    | _ => False end) by (vm_compute; done).
  destruct (@kinit small_layout demo_boot) as [[] s1| |] eqn:E1; [|destruct H|destruct H].
  destruct (fork_build s1) as [[[pt m] pt2] s| |] eqn:E2; [|destruct H|destruct H].
  destruct H as (H1 & H2 & H3 & H4). apply andb_true_iff in H1 as [[Hp Hm]%andb_true_iff Hp2].
  exists s1, pt, m, pt2, s. split; [reflexivity|]. split; [exact E2|].
  split; [by destruct (Z.eqb_spec pt 0)|]. split; [by destruct (Z.eqb_spec m 0)|].
  split; [by destruct (Z.eqb_spec pt2 0)|]. split; [done|]. split; [done|].
  intros d. apply bool_decide_eq_true in H4. unfold refs, aget.
  destruct (refcnt (k_kmem s) !! d) as [c|] eqn:E; simpl; [by apply (H4 d c)|done].
Qed.

(** A page taken for another table leaves a space as it was. *)
Lemma uinv_fresh `{L : Layout} s s' n r T : uinv s r T -> fresh s s' n ->
  uinv s' r T /\ forall x, leaf (k_mem s') T x = leaf (k_mem s) T x.
Proof.
  intros Hi H. destruct (fresh_ptable _ _ _ _ _ Hi H) as (Hpt & Hl & _). split; [|done].
  eapply uinv_same; [exact Hi|apply H|done|by left| |done].
  intros j Hj. rewrite (fr_refs _ _ _ H). unfold fupd. case_decide; [|done]. subst.
  pose proof (fr_free _ _ _ H). unfold used in Hj. lia.
Qed.

Lemma fork_build_spec s1 pt m pt2 s :
  @alloc_ok small_layout s1 -> fork_build s1 = Ok (pt, m, pt2) s -> pt <> 0 -> m <> 0 -> pt2 <> 0 ->
  exists s' r T n r2, pt = idx2pa r /\ pt2 = idx2pa r2 /\
    @uinv small_layout s' r T /\ @fresh small_layout s' s r2 /\ 0 <= n < NPAGES /\
    forall x, 0 <= x < 2^32 -> leaf (k_mem s') T x =
      if decide (vpn x = vpn 0) then mkpte (idx2pa n) (Z.lor fork_flags PTE_V) else 0.
Proof.
  intros Hok He Hpt Hm Hpt2. unfold fork_build in He.
  destruct (proj1 (runs_ok _ _) (@uvmcreate_fresh small_layout s1 Hok)) as (p1 & s2 & E1 & H1).
  rewrite (bind_ok _ _ _ _ _ E1) in He.
  destruct (fork_map p1 s2) as [m' s3| |] eqn:E2; unfold bind at 1 in He; rewrite E2 in He; try done. cbn [rbind] in He.
  destruct (uvmcreate s3) as [p3 s4| |] eqn:E3; unfold bind at 1 in He; rewrite E3 in He; try done.
  cbn [rbind] in He. unfold ret in He. injection He as -> -> -> ->.
  destruct H1 as [|(r & -> & Hf)]; [done|]. pose proof (fresh_space _ _ _ Hf) as Hi.
  pose proof (@map_fresh small_layout small_layout_ok s2 r (fun _ => None) 0 fork_flags Hi
    ltac:(lia) ltac:(done) ltac:(done) ltac:(done)) as Hmap.
  unfold fork_map in E2. rewrite E2 in Hmap. destruct Hmap as (T & Hq & [[-> _]|(n & -> & Hn & _ & _ & Hl)]); [done|].
  pose proof (@uvmcreate_fresh small_layout s3 (ui_alloc _ _ _ (q_inv _ _ _ _ _ Hq))) as H3. rewrite E3 in H3.
  destruct H3 as [|(r2 & -> & Hf2)]; [done|]. exists s3, r, T, n, r2.
  split; [done|]. split; [done|]. split; [apply Hq|]. split; [done|]. split; [done|].
  intros x Hx. by rewrite Hl.
Qed.

Definition fork_src (r : Z) : addr_space := set_pagetable (idx2pa r) (p_as demo_proc).
Definition fork_dst (r : Z) : addr_space := set_pagetable (idx2pa r) zero_as.

Lemma fork_entry n : 0 <= n < NPAGES -> let v := mkpte (idx2pa n) (Z.lor fork_flags PTE_V) in
  has v PTE_V = true /\ has v PTE_U = true /\ PTE2PA v = idx2pa n.
Proof.
  intros Hn. pose proof (idx2pa_range n Hn). set (f := Z.lor fork_flags PTE_V). assert (Hf : 0 <= f < 1024) by done.
  cbv zeta. unfold PTE_V, PTE_U. rewrite !has_mkpte by done. split; [done|]. split; [done|]. by apply PTE2PA_page.
Qed.

Lemma fork_src_wf r : as_wf (fork_src r).
Proof. by destruct demo_as_wf as [H1 H2 H3 H4 H5 H6]. Qed.
Lemma fork_dst_wf r : as_wf (fork_dst r).
Proof. split; try done; cbn; lia. Qed.

Lemma fork_demo : exists s rs Ts rd,
  @fork_args small_layout s rs Ts rd (fun _ => None) (fork_src rs) (fork_dst rd) /\ running s demo_proc /\
  exists n, @maps (k_mem s) Ts 0 n.
Proof.
  destruct fork_build_ok as (s1 & pt & m & pt2 & s & E1 & E2 & H1 & H2 & H3 & Hpr & Hcp & Hcnt).
  assert (Hb : cpu_ok demo_boot) by (vm_compute; intuition congruence).
  pose proof (@kinit_runs small_layout small_layout_ok _ Hb) as Hk. rewrite E1 in Hk.
  destruct Hk as (HK & Hl & Hc & _).
  destruct (fork_build_spec s1 pt m pt2 s (conj Hc (conj Hl HK)) E2 H1 H2 H3)
    as (s' & r & T & n & r2 & _ & _ & Hi & Hf & Hn & Hlf). clear E1 E2 H1 H2 H3 Hb HK Hl Hc.
  destruct (uinv_fresh _ _ _ _ _ Hi Hf) as [Hi' Hl']. destruct (fork_entry n Hn) as (Hv & Hu & Hpa).
  assert (Hno : forall va, ~ userish (k_mem s) (fun _ => None) va) by (intros va [H _]; done).
  assert (Hold : forall j, used s' j -> j <> r2).
  { intros j Hj ->. pose proof (fr_free _ _ _ Hf). unfold used in Hj. lia. }
  exists s, r, T, r2. split; [|split; [by apply demo_running|]].
  - split.
    + split; [exact Hi'|by eapply fresh_space| | | | | | |exact Hcnt].
      * intros j Hj [->|[i Hx]]; [|done]. apply (Hold r2); [|done].
        by apply (tabs_used _ _ _ _ _ (ui_pt _ _ _ Hi)).
      * intros va Hva _ HV. split; [done|]. rewrite Hl', Hlf in HV |- * by done.
        case_decide; [by rewrite Hu, orb_true_r|done].
      * intros va Hva _. done.
      * intros va va' d _ _ _ _ Hx. by destruct (Hno va').
      * intros va d Hva Hus Hm [->|[i Hx]]; [|done]. rewrite (userish_leaf (k_mem s') _ T) in Hus by done.
        rewrite (maps_eq (k_mem s') _ T) in Hm by done.
        destruct (ui_frame _ _ _ Hi va Hva Hus) as (e & Hme & He & _).
        apply (Hold e He). by rewrite (maps_fun _ _ _ _ _ Hme Hm).
      * intros va d _ Hx. by destruct (Hno va).
    + split; [apply fork_src_wf|done].
    + split; [apply fork_dst_wf|]. done.
    + intros x Hx. unfold live, fork_src in Hx. cbn in Hx. apply list_elem_of_singleton in Hx as ->. done.
  - exists n. rewrite (maps_eq (k_mem s') _ T) by done. unfold maps. rewrite Hlf by lia. done.
Qed.

Lemma as_copy_correct_witness : exists s rs Ts rd n,
  maps (k_mem s) Ts 0 n /\ region_pages (live (fork_src rs)) (vpn 0) = true /\
  runs (@as_copy small_layout (fork_dst rd) (fork_src rs) s)
    (@fork_post small_layout s rs Ts rd (fun _ => None) (fork_src rs)).
Proof.
  destruct fork_demo as (s & rs & Ts & rd & Hargs & _ & n & Hn). exists s, rs, Ts, rd, n.
  split; [exact Hn|]. split; [reflexivity|].
  exact (@as_copy_correct small_layout small_layout_ok s rs Ts rd _ _ _ Hargs).
Defined.

Lemma fork_isolates_witness : exists s rs Ts rd n,
  maps (k_mem s) Ts 0 n /\
  runs ((re <- @as_copy small_layout (fork_dst rd) (fork_src rs) ;;
         e <- @copyout small_layout (idx2pa rs) 4094 [7; 8; 9] ;; ret (re, e)) s) (fun ree s' =>
    ree.1.2 = 0 -> exists T', ptable (k_mem s') (used s') rd T' /\
      forall u va, 0 <= va < 2^32 -> region_pages (live (fork_src rs)) (vpn va) = true ->
        peek u (k_mem s') T' va = peek u (k_mem s) Ts va).
Proof.
  destruct fork_demo as (s & rs & Ts & rd & Hargs & Hrun & n & Hn). exists s, rs, Ts, rd, n.
  split; [exact Hn|].
  apply (@fork_isolates small_layout small_layout_ok s rs Ts rd _ _ _ demo_proc 4094 [7; 8; 9] false Hargs Hrun
    demo_as_wf).
  - lia.
  - simpl. lia.
  - repeat constructor; lia.
Defined.
