(* ===== verification/SchedProof.v ===== *)
(** * Scheduling: properties

    Which process [scheduler] runs next, who [wakeup] and [kkill] affect, and
    the bounds the feedback queue keeps. *)

From S2P Require Import Prelude CMem Machine Sv32 Spinlock Kalloc KallocProof.
From S2P Require Import KallocSpec Sched AddrSpace Regions PageTable UserMem.

(** ** The process table under its locks *)

(** Only the process table and the scratch field [intena] differ. *)
Definition psame (s : kstate) (l : list proc) (s' : kstate) : Prop :=
  exists j, scratch s j /\
    s' = set_cpu (mkCpu (c_proc (k_cpu s)) (c_noff (k_cpu s)) j) (set_procs l s).

(** No process lock is held. *)
Definition procs_ok (s : kstate) : Prop :=
  cpu_ok s /\ length (k_procs s) = Z.to_nat NPROC /\
  forall i, 0 <= i < NPROC -> lock_free s (LProc i).

Lemma psame_refl s : psame s (k_procs s) s.
Proof. exists (c_intena (k_cpu s)). split; [done|]. by destruct s as [[] ? ? ? ? ?]. Qed.

Lemma psame_trans s1 s2 s3 l l' : psame s1 l s2 -> psame s2 l' s3 -> psame s1 l' s3.
Proof.
  intros (j & Hj & ->) (j' & Hj' & ->). exists j'. split; [|done].
  intros H. rewrite Hj' by done. simpl. by apply Hj.
Qed.

Lemma psame_procs s l s' : psame s l s' -> k_procs s' = l.
Proof. by intros (j & _ & ->). Qed.

Lemma psame_ok s l s' : procs_ok s -> length l = Z.to_nat NPROC -> psame s l s' -> procs_ok s'.
Proof. intros (Hc & _ & Hl) Hlen (j & _ & ->). done. Qed.

Lemma procs_lookup s i :
  procs_ok s -> 0 <= i < NPROC -> exists p, k_procs s !! Z.to_nat i = Some p.
Proof. intros (_ & Hl & _) Hi. apply lookup_lt_is_Some. lia. Qed.

Lemma get_proc_eq s i p :
  0 <= i -> k_procs s !! Z.to_nat i = Some p -> get_proc i s = Ok p s.
Proof.
  intros Hi Hp. unfold get_proc, get_elt. replace (0 <=? i) with true by lia. by rewrite Hp.
Qed.

Lemma upd_proc_eq s i p f :
  0 <= i -> k_procs s !! Z.to_nat i = Some p ->
  upd_proc i f s = Ok tt (set_procs (<[Z.to_nat i := f p]> (k_procs s)) s).
Proof.
  intros Hi Hp. unfold upd_proc, upd_elt. replace (0 <=? i) with true by lia. by rewrite Hp.
Qed.

Lemma set_procs_id s : set_procs (k_procs s) s = s.
Proof. by destruct s. Qed.

(** A section that holds the lock of one process and leaves it as [p']. *)
Lemma locked_proc {A} s i p p' (act : proc -> K A) (v : A) :
  procs_ok s -> 0 <= i < NPROC -> k_procs s !! Z.to_nat i = Some p ->
  (forall s1, k_procs s1 = k_procs s ->
     act p s1 = Ok v (set_procs (<[Z.to_nat i := p']> (k_procs s)) s1)) ->
  runs ((acquire (LProc i) ;; q <- get_proc i ;; x <- act q ;; release (LProc i) ;; ret x) s)
    (fun x s' => x = v /\ psame s (<[Z.to_nat i := p']> (k_procs s)) s').
Proof.
  intros (Hc & Hlen & Hl) Hi Hp Hact. apply runs_bind, runs_acquire; [by apply Hl|].
  rewrite (bind_ok _ _ _ _ _ (get_proc_eq (enter (LProc i) s) i p (proj1 Hi) Hp)).
  rewrite (bind_ok _ _ _ _ _ (Hact (enter (LProc i) s) eq_refl)). apply runs_bind.
  apply (runs_release _ s); [done|by apply Hl|done|].
  intros j Hj. cbn. split; [done|]. by exists j.
Qed.

(** The same without a result. *)
Lemma locked_update s i p p' (act : proc -> K unit) :
  procs_ok s -> 0 <= i < NPROC -> k_procs s !! Z.to_nat i = Some p ->
  (forall s1, k_procs s1 = k_procs s ->
     act p s1 = Ok tt (set_procs (<[Z.to_nat i := p']> (k_procs s)) s1)) ->
  runs ((acquire (LProc i) ;; q <- get_proc i ;; act q ;; release (LProc i)) s)
    (fun _ s' => psame s (<[Z.to_nat i := p']> (k_procs s)) s').
Proof.
  intros (Hc & Hlen & Hl) Hi Hp Hact. apply runs_bind, runs_acquire; [by apply Hl|].
  rewrite (bind_ok _ _ _ _ _ (get_proc_eq (enter (LProc i) s) i p (proj1 Hi) Hp)).
  rewrite (bind_ok _ _ _ _ _ (Hact (enter (LProc i) s) eq_refl)).
  apply (runs_release _ s); [done|by apply Hl|done|].
  intros j Hj. by exists j.
Qed.

(** ** Loops over the whole table *)

(** The entries below [n] changed by [g], the others not. *)
Definition upto (n : Z) (g : Z -> proc -> proc) (l l' : list proc) : Prop :=
  length l' = length l /\
  forall j, 0 <= j -> l' !! Z.to_nat j = (if decide (j < n) then g j else id) <$> l !! Z.to_nat j.

Lemma upto_0 g l : upto 0 g l l.
Proof.
  split; [done|]. intros j Hj. case_decide; [lia|]. by rewrite option_fmap_id.
Qed.

Lemma upto_S n g l l' p :
  0 <= n -> upto n g l l' -> l !! Z.to_nat n = Some p ->
  upto (n + 1) g l (<[Z.to_nat n := g n p]> l').
Proof.
  intros Hn [Hlen Hl] Hp. pose proof (lookup_lt_Some _ _ _ Hp).
  split; [by rewrite length_insert|].
  intros j Hj. destruct (decide (j = n)) as [->|Hne].
  - rewrite list_lookup_insert_eq by lia. rewrite decide_True by lia. by rewrite Hp.
  - rewrite list_lookup_insert_ne by lia. rewrite Hl by done. by repeat case_decide; try lia.
Qed.

Lemma upto_here n g l l' : 0 <= n -> upto n g l l' -> l' !! Z.to_nat n = l !! Z.to_nat n.
Proof. intros Hn [_ Hl]. rewrite Hl by done. case_decide; [lia|]. by rewrite option_fmap_id. Qed.

Lemma upto_all g l l' :
  upto (Z.of_nat (length l)) g l l' -> l' = imap (fun i p => g (Z.of_nat i) p) l.
Proof.
  intros [Hlen Hl]. apply list_eq. intros i. rewrite list_lookup_imap.
  rewrite <- (Nat2Z.id i). rewrite Hl by lia. rewrite Nat2Z.id.
  case_decide; [done|]. rewrite lookup_ge_None_2 by lia. done.
Qed.

Lemma for_procs s g body :
  procs_ok s ->
  (forall i s1 p, 0 <= i < NPROC -> procs_ok s1 -> c_proc (k_cpu s1) = c_proc (k_cpu s) ->
     k_procs s1 !! Z.to_nat i = Some p ->
     runs (body i s1) (fun _ s2 => psame s1 (<[Z.to_nat i := g i p]> (k_procs s1)) s2)) ->
  runs (for_ (Z.to_nat NPROC) 0 body s)
    (fun _ s' => psame s (imap (fun i p => g (Z.of_nat i) p) (k_procs s)) s').
Proof.
  intros Hok Hb. pose proof Hok as (_ & Hlen & _).
  apply (runs_for (fun n s1 => exists l, upto n g (k_procs s) l /\ psame s l s1)).
  - exists (k_procs s). split; [apply upto_0|apply psame_refl].
  - intros i s1 Hi (l & Hup & Hs1).
    assert (Hok1 : procs_ok s1).
    { eapply psame_ok; [done| |done]. by destruct Hup as [-> _]. }
    destruct (procs_lookup s i Hok) as [p Hp]; [lia|].
    pose proof (psame_procs _ _ _ Hs1) as Hpl.
    assert (Hp1 : k_procs s1 !! Z.to_nat i = Some p)
      by (rewrite Hpl, (upto_here i g _ _ ltac:(lia) Hup); done).
    eapply runs_mono; [apply (Hb i s1 p); [lia|done|by destruct Hs1 as (j & _ & ->)|done]|].
    intros [] s2 Hs2. exists (<[Z.to_nat i := g i p]> l). rewrite Hpl in Hs2.
    split; [by apply upto_S; [lia|..]|by eapply psame_trans].
  - intros s' (l & Hup & Hs'). rewrite <- (upto_all g (k_procs s) l); [done|].
    rewrite Hlen. by rewrite Z.add_0_l in Hup.
Qed.

(** Asked inside a section, [killed] changes nothing. *)
Lemma killed_inside s i p :
  procs_ok s -> 0 < c_noff (k_cpu s) -> 0 <= i -> k_procs s !! Z.to_nat i = Some p ->
  killed i s = Ok (p_killed p) s.
Proof.
  intros Hok Hn Hi Hl.
  assert (Hlt : 0 <= i < NPROC).
  { destruct Hok as (_ & Hlen & _). apply lookup_lt_Some in Hl. lia. }
  destruct (proj1 (runs_ok _ _) (locked_proc s i p p (fun q => ret (p_killed q))
    (p_killed p) Hok Hlt Hl ltac:(intros s1 Hs1; unfold ret;
      by rewrite list_insert_id, <- Hs1, set_procs_id by done))) as (v & s' & He & -> & j & Hj & ->).
  unfold killed. rewrite list_insert_id, set_procs_id, (Hj Hn) in He by done.
  assert (Hid : set_cpu (mkCpu (c_proc (k_cpu s)) (c_noff (k_cpu s)) (c_intena (k_cpu s))) s = s)
    by (by destruct s as [[] ? ? ? ? ?]).
  by rewrite Hid in He.
Qed.

(** ** Wakeups and boosts *)

(** What [wakeup] does to the process in slot [i] when [me] is running. *)
Definition woken (me : option Z) (ch : option chan) (i : Z) (p : proc) : proc :=
  if decide (Some i <> me /\ p.(p_state) = SLEEPING /\ p.(p_chan) = ch)
  then set_p_state RUNNABLE p else p.

Lemma myproc_runs s Q :
  cpu_ok s -> (forall s', psame s (k_procs s) s' -> Q (c_proc (k_cpu s)) s') ->
  runs (myproc s) Q.
Proof.
  intros Hc HQ. destruct (myproc_eq s Hc) as (i & Hi & ->). apply HQ. exists i.
  by rewrite set_procs_id.
Qed.

Lemma psame_procs_ok s s' : procs_ok s -> psame s (k_procs s) s' -> procs_ok s'.
Proof. intros H. apply psame_ok; [done|apply H]. Qed.

Lemma wakeup_at_spec s ch :
  procs_ok s ->
  runs (wakeup_at ch s) (fun _ s' => psame s
    (imap (fun i p => woken (c_proc (k_cpu s)) ch (Z.of_nat i) p) (k_procs s)) s').
Proof.
  intros Hok. apply (for_procs s (woken (c_proc (k_cpu s)) ch)); [done|].
  intros i s1 p Hi Hok1 Hcp Hp. apply runs_bind, myproc_runs; [apply Hok1|].
  intros s2 Hs2. pose proof (psame_procs _ _ _ Hs2) as Hps2. rewrite Hcp.
  unfold woken. case_decide as Hme.
  - cbn. rewrite decide_False by tauto. by rewrite list_insert_id.
  - assert (Hok2 : procs_ok s2) by (by eapply psame_procs_ok).
    eapply runs_mono.
    + apply (locked_update s2 i p (if bool_decide (p_state p = SLEEPING /\ p_chan p = ch)
        then set_p_state RUNNABLE p else p)); [done|done|congruence|].
      intros s3 Hs3. rewrite <- Hs3. rewrite <- Hps2, <- Hs3 in Hp. case_decide.
      * by rewrite bool_decide_true, (upd_proc_eq s3 i p) by (done || lia).
      * unfold ret. by rewrite bool_decide_false, list_insert_id, set_procs_id.
    + intros [] s3 Hs3. rewrite Hps2 in Hs3. eapply psame_trans; [exact Hs2|].
      case_bool_decide; case_decide; (done || tauto).
Qed.

(** [mlfq_boost_all] *)
Definition boosted (p : proc) : proc :=
  if decide (p.(p_state) <> UNUSED)
  then set_p_mlfq_ticks_used 0 (set_p_mlfq_level 0 p) else p.

Lemma mlfq_boost_all_spec s :
  procs_ok s ->
  runs (mlfq_boost_all s) (fun _ s' => psame s (boosted <$> k_procs s) s').
Proof.
  intros Hok. eapply runs_mono.
  - apply (for_procs s (fun _ => boosted)); [done|].
    intros i s1 p Hi Hok1 Hcp Hp.
    apply (locked_update s1 i p (boosted p)); [done|done|done|].
    intros s2 Hs2. rewrite <- Hs2 in Hp |- *. unfold boosted. case_decide.
    + rewrite (upd_proc_eq s2 i p) by (done || lia). done.
    + unfold ret. by rewrite list_insert_id, set_procs_id.
  - intros [] s' H. assert (Hm : imap (fun _ p => boosted p) (k_procs s) = boosted <$> k_procs s);
      [|by rewrite <- Hm].
    apply list_eq. intros i. by rewrite list_lookup_imap, list_lookup_fmap.
Qed.

(** ** The scan of the scheduler *)

(** Acquiring and releasing when interrupts are already off. *)
Lemma acquire_off s lk nm :
  cpu_ok s -> ints_on s = false -> k_locks s !! lk = Some (mkLock 0 false nm) ->
  acquire lk s = Ok tt
    (set_cpu (mkCpu (c_proc (k_cpu s)) (c_noff (k_cpu s) + 1)
       (if c_noff (k_cpu s) =? 0 then 0 else c_intena (k_cpu s)))
      (set_locks (<[lk := mkLock 1 true nm]> (k_locks s)) s)).
Proof.
  intros (Hx & _ & _) Hoff Hl. rewrite acquire_eq by (by exists nm). f_equal.
  unfold enter, off_state, lock_of. rewrite Hl, Hoff. unfold ints_on in Hoff.
  rewrite sie_off_id by done. by destruct s as [? [] ? ? ? ?].
Qed.

Lemma release_off s lk nm :
  ints_on s = false -> k_locks s !! lk = Some (mkLock 1 true nm) ->
  1 <= c_noff (k_cpu s) -> (c_noff (k_cpu s) = 1 -> c_intena (k_cpu s) = 0) ->
  release lk s = Ok tt
    (set_cpu (mkCpu (c_proc (k_cpu s)) (c_noff (k_cpu s) - 1) (c_intena (k_cpu s)))
      (set_locks (<[lk := mkLock 0 false nm]> (k_locks s)) s)).
Proof.
  intros Hoff Hl Hn Hi. unfold ints_on in Hoff.
  unfold release, holding, put_lock, pop_off, intr_get, upd_cpu, bind, gets, modify, ret, lock_of.
  repeat (first [rewrite lookup_insert_eq | rewrite Hl | rewrite Hoff]; simpl).
  rewrite insert_insert_eq. replace (c_noff (k_cpu s) <? 1) with false by lia. simpl.
  destruct (Z.eqb_spec (c_noff (k_cpu s) - 1) 0); [|done].
  rewrite Hi by lia. done.
Qed.

(** The machine in the middle of the scan: [s0] with at most the lock of the
    best process so far held. *)
Definition scanning (s0 : kstate) (best : option Z) (s : kstate) : Prop :=
  match best with
  | None => exists j, s = set_cpu (mkCpu (c_proc (k_cpu s0)) 0 j) s0
  | Some b => exists nm, k_locks s0 !! LProc b = Some (mkLock 0 false nm) /\
      s = set_cpu (mkCpu (c_proc (k_cpu s0)) 1 0)
            (set_locks (<[LProc b := mkLock 1 true nm]> (k_locks s0)) s0)
  end.

(** Interrupts are off and no lock is held. *)
Definition idle (s : kstate) : Prop :=
  procs_ok s /\ ints_on s = false /\ c_noff (k_cpu s) = 0.

Lemma scanning_acquire s0 best i s :
  idle s0 -> 0 <= i < NPROC -> scanning s0 best s -> best <> Some i ->
  exists nm, k_locks s0 !! LProc i = Some (mkLock 0 false nm) /\
    k_locks s !! LProc i = Some (mkLock 0 false nm) /\
    acquire (LProc i) s = Ok tt (set_cpu (mkCpu (c_proc (k_cpu s0)) (c_noff (k_cpu s) + 1) 0)
      (set_locks (<[LProc i := mkLock 1 true nm]> (k_locks s)) s)).
Proof.
  intros ((Hc & _ & Hl) & Hoff & Hn) Hi Hs Hne. destruct (Hl i Hi) as [nm Hnm].
  exists nm. split; [done|]. destruct Hc as (Hx & _ & _). destruct best as [b|].
  - destruct Hs as (nb & Hb & ->). simpl.
    assert (Hi' : <[LProc b := mkLock 1 true nb]> (k_locks s0) !! LProc i
      = Some (mkLock 0 false nm)) by (rewrite lookup_insert_ne by congruence; done).
    split; [done|]. rewrite (acquire_off _ _ nm); [done| |done|done].
    split; [done|]. split; [simpl; lia|done].
  - destruct Hs as [j ->]. simpl. split; [done|].
    rewrite (acquire_off _ _ nm); [done| |done|done].
    split; [done|]. split; [simpl; lia|done].
Qed.

Lemma scanning_skip s0 best i nm s :
  idle s0 -> scanning s0 best s -> best <> Some i ->
  k_locks s !! LProc i = Some (mkLock 0 false nm) ->
  exists s', release (LProc i) (set_cpu (mkCpu (c_proc (k_cpu s0)) (c_noff (k_cpu s) + 1) 0)
      (set_locks (<[LProc i := mkLock 1 true nm]> (k_locks s)) s)) = Ok tt s' /\
    scanning s0 best s'.
Proof.
  intros (_ & Hoff & Hn) Hs Hne Hl.
  assert (Hoff' : ints_on s = false).
  { destruct best; [by destruct Hs as (? & _ & ->)|by destruct Hs as [? ->]]. }
  assert (Hn' : 0 <= c_noff (k_cpu s)).
  { destruct best; [by destruct Hs as (? & _ & ->)|by destruct Hs as [? ->]]. }
  eexists. split.
  { apply (release_off _ _ nm); [exact Hoff'|apply lookup_insert_eq|simpl; lia|done]. }
  cbn [set_cpu set_locks k_locks k_cpu c_noff c_proc c_intena].
  rewrite insert_insert_eq, insert_id by done.
  replace (c_noff (k_cpu s) + 1 - 1) with (c_noff (k_cpu s)) by lia.
  destruct best as [b|].
  - destruct Hs as (nb & Hb & ->). exists nb. split; [done|]. done.
  - destruct Hs as [j ->]. by exists 0.
Qed.

Lemma scanning_switch s0 best i nm s :
  idle s0 -> scanning s0 best s -> best <> Some i ->
  k_locks s0 !! LProc i = Some (mkLock 0 false nm) ->
  exists s', (match best with Some b => release (LProc b) | None => ret tt end)
      (set_cpu (mkCpu (c_proc (k_cpu s0)) (c_noff (k_cpu s) + 1) 0)
      (set_locks (<[LProc i := mkLock 1 true nm]> (k_locks s)) s)) = Ok tt s' /\
    scanning s0 (Some i) s'.
Proof.
  intros (_ & Hoff & Hn) Hs Hne Hl. destruct best as [b|].
  - destruct Hs as (nb & Hb & ->).
    cbn [set_cpu set_locks k_locks k_cpu c_noff c_proc c_intena].
    eexists. split.
    { apply (release_off _ _ nb); [exact Hoff| |simpl; lia|done]. simpl.
      rewrite lookup_insert_ne by congruence. apply lookup_insert_eq. }
    cbn [set_cpu set_locks k_locks k_cpu c_noff c_proc c_intena].
    exists nm. split; [done|]. rewrite insert_insert_ne by congruence.
    rewrite insert_insert_eq, (insert_id _ (LProc b)) by done. done.
  - destruct Hs as [j ->]. eexists. split; [reflexivity|]. exists nm. by split.
Qed.

(** [p] goes before [q]: a lower level, or the same level and waiting longer. *)
Definition before (p q : proc) : Prop :=
  p.(p_mlfq_level) < q.(p_mlfq_level) \/
  p.(p_mlfq_level) = q.(p_mlfq_level) /\ p.(p_mlfq_stamp) < q.(p_mlfq_stamp).

(** [best] is the process to run among the first [n] of the table. *)
Definition chosen (l : list proc) (n : Z) (best : option Z) : Prop :=
  match best with
  | None => forall j p, 0 <= j < n -> l !! Z.to_nat j = Some p -> p.(p_state) <> RUNNABLE
  | Some b => exists p, 0 <= b < n /\ l !! Z.to_nat b = Some p /\ p.(p_state) = RUNNABLE /\
      forall j q, 0 <= j < n -> l !! Z.to_nat j = Some q -> q.(p_state) = RUNNABLE ->
        ~ before q p /\ (j < b -> before p q)
  end.

(** The feedback queue: levels and stamps of the processes are in range. *)
Definition mlfq_ok (p : proc) : Prop :=
  0 <= p.(p_mlfq_level) < MLFQ_LEVELS /\ 0 <= p.(p_mlfq_stamp) < 2^32.

(** The keys the scan remembers with [best]. *)
Definition keys (l : list proc) (best : option Z) (bl bs : Z) : Prop :=
  match best with
  | None => bl = MLFQ_LEVELS /\ bs = 0xffffffff
  | Some b => exists p, l !! Z.to_nat b = Some p /\ bl = p.(p_mlfq_level) /\ bs = p.(p_mlfq_stamp)
  end.

Lemma chosen_skip l n best p bl bs :
  chosen l n best -> keys l best bl bs -> mlfq_ok p -> l !! Z.to_nat n = Some p ->
  bool_decide (p.(p_state) = RUNNABLE) && better p bl bs = false -> chosen l (n + 1) best.
Proof.
  intros Hc Hk [Hlv _] Hp Hb. unfold chosen in *. destruct best as [b|].
  - destruct Hc as (q & Hbn & Hq & Hrun & Hmin). destruct Hk as (q' & Hq' & -> & ->).
    simplify_eq. exists q. split; [lia|]. split; [done|]. split; [done|].
    intros j r Hj Hr Hrr. destruct (decide (j = n)) as [->|]; [|apply Hmin; try done; lia].
    simplify_eq. rewrite bool_decide_true in Hb by done. unfold better, before in *. lia.
  - destruct Hk as [-> ->]. intros j r Hj Hr Hrr.
    destruct (decide (j = n)) as [->|]; [|apply (Hc j r); try done; lia]. simplify_eq.
    rewrite bool_decide_true in Hb by done. unfold better, MLFQ_LEVELS in *. lia.
Qed.

Lemma chosen_switch l n best p bl bs :
  0 <= n -> chosen l n best -> keys l best bl bs -> l !! Z.to_nat n = Some p ->
  bool_decide (p.(p_state) = RUNNABLE) && better p bl bs = true -> chosen l (n + 1) (Some n).
Proof.
  intros Hn Hc Hk Hp Hb. apply andb_true_iff in Hb as [Hrun Hb].
  apply bool_decide_eq_true in Hrun. exists p. split; [lia|]. split; [done|]. split; [done|].
  intros j q Hj Hq Hqr. destruct (decide (j = n)) as [->|].
  { simplify_eq. split; [unfold before; lia|lia]. }
  destruct best as [b|].
  - destruct Hc as (pb & Hbn & Hpb & _ & Hmin). destruct Hk as (q' & Hq' & -> & ->). simplify_eq.
    destruct (Hmin j q) as [Hnb _]; [lia|done|done|].
    unfold better, before in *. split; [|intros _]; lia.
  - by destruct (Hc j q); [lia|..].
Qed.

Lemma scheduler_scan_spec s0 n i best bl bs s :
  idle s0 -> Forall mlfq_ok (k_procs s0) -> 0 <= i -> i + Z.of_nat n = NPROC ->
  scanning s0 best s -> chosen (k_procs s0) i best -> keys (k_procs s0) best bl bs ->
  runs (scheduler_scan n i best bl bs s) (fun r s' =>
    scanning s0 r s' /\ chosen (k_procs s0) NPROC r).
Proof.
  intros Hid Hmq. revert i best bl bs s. induction n as [|n IH];
    intros i best bl bs s Hi Hn Hs Hc Hk; simpl scheduler_scan.
  { replace i with NPROC in Hc by lia. done. }
  assert (Hne : best <> Some i) by (intros ->; destruct Hc as (? & ? & _); lia).
  assert (HiN : 0 <= i < NPROC) by lia.
  destruct (scanning_acquire s0 best i s Hid HiN Hs Hne) as (nm & Hl0 & Hl & Ha).
  destruct (procs_lookup s0 i (proj1 Hid) HiN) as [p Hp].
  rewrite (bind_ok _ _ _ _ _ Ha). set (s1 := set_cpu _ _).
  assert (Hp1 : k_procs s1 !! Z.to_nat i = Some p).
  { rewrite <- Hp. destruct best; [by destruct Hs as (? & _ & ->)|by destruct Hs as [? ->]]. }
  rewrite (bind_ok _ _ _ _ _ (get_proc_eq s1 i p Hi Hp1)).
  assert (Hpq : mlfq_ok p) by (by eapply Forall_lookup_1).
  destruct (bool_decide _ && better p bl bs) eqn:Hb.
  - destruct (scanning_switch s0 best i nm s Hid Hs Hne Hl0) as (s2 & E2 & Hs2).
    rewrite (bind_ok _ _ _ _ _ E2). apply IH; [lia|lia|done| |].
    + by eapply chosen_switch.
    + exists p. done.
  - destruct (scanning_skip s0 best i nm s Hid Hs Hne Hl) as (s2 & E2 & Hs2).
    rewrite (bind_ok _ _ _ _ _ E2). apply IH; [lia|lia|done| |done].
    by eapply chosen_skip.
Qed.

(** ** One round of the scheduler *)

Lemma land_mask_range y : 0 <= y -> 0 <= Z.land y (u32 (Z.lnot SSTATUS_SIE)) < 2^32.
Proof.
  intros Hy. assert (H0 : 0 <= Z.land y (u32 (Z.lnot SSTATUS_SIE))) by (apply Z.land_nonneg; lia).
  split; [done|]. destruct (Z.eq_dec (Z.land y (u32 (Z.lnot SSTATUS_SIE))) 0) as [->|]; [lia|].
  apply Z.log2_lt_pow2; [lia|].
  eapply Z.le_lt_trans; [apply Z.log2_land; [done|done]|].
  eapply Z.le_lt_trans; [apply Z.le_min_r|]. done.
Qed.

(** [intr_on(); intr_off();] leaves interrupts off. *)
Lemma intr_toggle s :
  procs_ok s -> c_noff (k_cpu s) = 0 ->
  exists x, (intr_on ;; intr_off) s = Ok tt (set_csr (set_sstatus x (k_csr s)) s) /\
    idle (set_csr (set_sstatus x (k_csr s)) s).
Proof.
  intros ((Hx & Hn & _) & Hlen & Hl) H0. eexists. split; [reflexivity|].
  split; [split; [|done]|split; [apply land_not_sie|done]].
  split; [|split; [simpl; lia|intros _; apply land_not_sie]].
  apply land_mask_range, Z.lor_nonneg. split; [lia|done].
Qed.

(** The table the scan sees: boosted when a boost is due. *)
Definition boost_due (s : kstate) : bool := negb ((k_ptab s).(mlfq_need_boost) =? 0).
Definition scan_table (s : kstate) : list proc :=
  if boost_due s then boosted <$> k_procs s else k_procs s.

Lemma boosted_ok p : mlfq_ok p -> mlfq_ok (boosted p).
Proof.
  intros [H1 H2]. unfold boosted. case_decide; [|done]. split; [done|]. simpl. done.
Qed.

Lemma scan_table_ok s : Forall mlfq_ok (k_procs s) -> Forall mlfq_ok (scan_table s).
Proof.
  intros H. unfold scan_table. case_match; [|done]. apply Forall_fmap.
  eapply Forall_impl; [exact H|]. apply boosted_ok.
Qed.

(** The state before the scan. *)
Lemma boost_phase s :
  idle s ->
  runs ((t <- gets k_ptab ;;
         if negb (t.(mlfq_need_boost) =? 0)
         then upd_ptab (set_mlfq_need_boost 0) ;; mlfq_boost_all else ret tt) s)
    (fun _ s' => idle s' /\ k_procs s' = scan_table s /\ k_locks s' = k_locks s /\
       mlfq_need_boost (k_ptab s') = 0 /\ mlfq_seq (k_ptab s') = mlfq_seq (k_ptab s)).
Proof.
  intros Hid. unfold scan_table, boost_due, bind at 1, gets. cbn [rbind].
  destruct (Z.eqb_spec (mlfq_need_boost (k_ptab s)) 0) as [H0|H0]; cbn [negb].
  { done. }
  apply runs_bind. cbn [runs upd_ptab modify]. set (s1 := set_ptab _ s).
  destruct Hid as (Hok & Hoff & Hn). assert (Hok1 : procs_ok s1) by done.
  eapply runs_mono; [by apply mlfq_boost_all_spec|]. intros [] s' Hs'.
  assert (Hok' : procs_ok s').
  { eapply psame_ok; [done| |done]. rewrite length_fmap. apply Hok. }
  destruct Hs' as (j & _ & ->). done.
Qed.

Lemma scheduler_round_spec s :
  procs_ok s -> c_noff (k_cpu s) = 0 -> Forall mlfq_ok (k_procs s) ->
  runs (scheduler_round s) (fun r s' =>
    chosen (scan_table s) NPROC r /\ ints_on s' = false /\
    mlfq_need_boost (k_ptab s') = 0 /\
    match r with
    | None => k_procs s' = scan_table s /\ idle s'
    | Some b => exists p nm, scan_table s !! Z.to_nat b = Some p /\
        let seq := u32 (mlfq_seq (k_ptab s) + 1) in
        k_procs s' = <[Z.to_nat b := set_p_mlfq_stamp seq (set_p_state RUNNING p)]> (scan_table s) /\
        mlfq_seq (k_ptab s') = seq /\ c_proc (k_cpu s') = Some b /\ c_noff (k_cpu s') = 1 /\
        k_locks s' = <[LProc b := mkLock 1 true nm]> (k_locks s)
    end).
Proof.
  intros Hok H0 Hmq. unfold scheduler_round. apply runs_assoc.
  destruct (intr_toggle s Hok H0) as (x & E & Hid). rewrite (bind_ok _ _ _ _ _ E).
  clear E. set (s1 := set_csr _ s) in *. apply runs_assoc, runs_bind.
  eapply runs_mono; [by apply boost_phase|]. intros [] s2 (Hid2 & Hp2 & Hl2 & Hb2 & Hq2).
  change (scan_table s1) with (scan_table s) in Hp2.
  change (k_ptab s1) with (k_ptab s) in Hq2. change (k_locks s1) with (k_locks s) in Hl2.
  apply runs_bind. eapply runs_mono.
  { apply (scheduler_scan_spec s2 (Z.to_nat NPROC) 0 None MLFQ_LEVELS 0xffffffff s2); try done.
    - rewrite Hp2. by apply scan_table_ok.
    - exists (c_intena (k_cpu s2)). destruct Hid2 as (_ & _ & Hn2).
      destruct s2 as [[]]; simpl in *; by subst.
    - intros j p Hj. lia. }
  intros r s3 [Hs3 Hch]. rewrite Hp2 in Hch. destruct r as [b|].
  - destruct Hs3 as (nm & Hnm & ->). destruct Hch as (p & Hbn & Hp & Hch).
    set (s3 := set_cpu _ _). rewrite <- Hp2 in Hp.
    rewrite (bind_ok _ _ _ _ _ (upd_proc_eq s3 b p _ (proj1 Hbn) Hp)).
    unfold bind at 1, gets. cbn [rbind]. unfold bind at 1, upd_ptab, modify. cbn [rbind].
    set (s4 := set_ptab _ _).
    assert (Hp4 : k_procs s4 !! Z.to_nat b = Some (set_p_state RUNNING p)).
    { simpl. apply list_lookup_insert_eq. by apply lookup_lt_Some in Hp. }
    rewrite (bind_ok _ _ _ _ _ (upd_proc_eq s4 b _ _ (proj1 Hbn) Hp4)).
    cbn. rewrite list_insert_insert_eq, <- Hq2, <- Hl2. rewrite Hp2 in Hp.
    split; [exists p; by rewrite <- Hp2 in *|]. split; [apply Hid2|]. split; [done|].
    exists p, nm. rewrite Hp2. done.
  - destruct Hs3 as [j ->]. cbn. split; [done|]. split; [apply Hid2|]. split; [done|].
    split; [done|]. destruct Hid2 as (Hok2 & Hoff2 & Hn2). split; [|done]. by destruct Hok2 as (Hc2 & ? & ?);
      split; [destruct Hc2 as (? & ? & ?); split; [done|split; [simpl; lia|done]]|].
Qed.

(** ** Killing *)

Definition slain (p : proc) : proc :=
  let p' := set_p_killed 1 p in
  if decide (p.(p_state) = SLEEPING) then set_p_state RUNNABLE p' else p'.

Lemma kill_slot s i p pid :
  procs_ok s -> 0 <= i < NPROC -> k_procs s !! Z.to_nat i = Some p ->
  runs ((acquire (LProc i) ;;
    p <- get_proc i ;;
    if p.(p_pid) =? pid then
      upd_proc i (set_p_killed 1) ;;
      (if decide (p.(p_state) = SLEEPING)
       then upd_proc i (set_p_state RUNNABLE) else ret tt) ;;
      release (LProc i) ;;
      ret (Some 0)
    else
      release (LProc i) ;;
      ret None) s) (fun r s' =>
    if p.(p_pid) =? pid
    then r = Some 0 /\ psame s (<[Z.to_nat i := slain p]> (k_procs s)) s'
    else r = None /\ psame s (k_procs s) s').
Proof.
  intros (Hc & Hlen & Hl) Hi Hp. apply runs_bind, runs_acquire; [by apply Hl|].
  set (s1 := enter (LProc i) s).
  rewrite (bind_ok _ _ _ _ _ (get_proc_eq s1 i p (proj1 Hi) Hp)).
  destruct (p_pid p =? pid).
  - rewrite (bind_ok _ _ _ _ _ (upd_proc_eq s1 i p _ (proj1 Hi) Hp)).
    set (s2 := set_procs _ s1).
    assert (Hp2 : k_procs s2 !! Z.to_nat i = Some (set_p_killed 1 p)).
    { apply list_lookup_insert_eq. by apply lookup_lt_Some in Hp. }
    assert (He : (if decide (p_state p = SLEEPING) then upd_proc i (set_p_state RUNNABLE)
      else ret tt) s2 = Ok tt (set_procs (<[Z.to_nat i := slain p]> (k_procs s)) s1)).
    { unfold slain. case_decide; [|done]. rewrite (upd_proc_eq s2 i _ _ (proj1 Hi) Hp2).
      unfold s2. simpl. by rewrite list_insert_insert_eq. }
    rewrite (bind_ok _ _ _ _ _ He). apply runs_bind.
    apply (runs_release _ s); [done|by apply Hl|done|]. intros j Hj. cbn. split; [done|]. by exists j.
  - apply runs_bind. apply (runs_release _ s); [done|by apply Hl|done|].
    intros j Hj. cbn. split; [done|]. exists j. by rewrite set_procs_id.
Qed.

Lemma kkill_spec s pid :
  procs_ok s ->
  runs (kkill pid s) (fun r s' =>
    (r = 0 /\ exists i p, 0 <= i < NPROC /\ k_procs s !! Z.to_nat i = Some p /\ p.(p_pid) = pid /\
       (forall j q, 0 <= j < i -> k_procs s !! Z.to_nat j = Some q -> q.(p_pid) <> pid) /\
       psame s (<[Z.to_nat i := slain p]> (k_procs s)) s') \/
    (r = -1 /\ (forall q, q ∈ k_procs s -> q.(p_pid) <> pid) /\ psame s (k_procs s) s')).
Proof.
  intros Hok. pose proof Hok as (_ & Hlen & _). unfold kkill. apply runs_bind.
  apply (runs_for_find (fun n s1 => psame s (k_procs s) s1 /\
    forall j q, 0 <= j < n -> k_procs s !! Z.to_nat j = Some q -> q.(p_pid) <> pid)).
  - split; [apply psame_refl|]. intros j q Hj. lia.
  - intros i s1 Hi [Hs1 Hno]. assert (Hok1 : procs_ok s1) by (by eapply psame_procs_ok).
    pose proof (psame_procs _ _ _ Hs1) as Hp1.
    destruct (procs_lookup s i Hok) as [p Hp]; [lia|]. rewrite <- Hp1 in Hp.
    eapply runs_mono; [apply (kill_slot s1 i p pid); [done|lia|done]|].
    intros r s2. rewrite Hp1 in *. destruct (Z.eqb_spec (p_pid p) pid) as [Hpid|Hpid].
    + intros [-> Hs2]. cbn. left. split; [done|]. exists i, p. rewrite Z.add_0_l in Hi.
      split; [lia|]. do 3 (split; [done|]). by eapply psame_trans.
    + intros [-> Hs2]. split; [by eapply psame_trans|]. intros j q Hj Hq.
      destruct (decide (j = i)) as [->|]; [by simplify_eq|apply (Hno j q); [lia|done]].
  - intros s' [Hs' Hno]. cbn. right. split; [done|]. split; [|done]. intros q Hq.
    apply list_elem_of_lookup in Hq as [n Hn]. pose proof (lookup_lt_Some _ _ _ Hn).
    apply (Hno (Z.of_nat n) q); [lia|]. by rewrite Nat2Z.id.
Qed.

(** ** Bounds of the feedback queue *)

(** Levels exist and a process below its quantum stays below it. *)
Definition slice_ok (p : proc) : Prop :=
  0 <= p.(p_mlfq_level) < MLFQ_LEVELS /\
  0 <= p.(p_mlfq_ticks_used) < mlfq_quantum p.(p_mlfq_level).

(** What the kernel does to the queue position of a process. *)
Inductive mlfq_step : proc -> proc -> Prop :=
| step_tick p : p.(p_state) = RUNNING -> mlfq_step p (mlfq_charge p)
| step_promote p : mlfq_step p (mlfq_promote p)
| step_boost p : mlfq_step p (boosted p)
| step_reset p : mlfq_step p (mlfq_reset_proc p)
| step_run p seq : mlfq_step p (set_p_mlfq_stamp seq (set_p_state RUNNING p))
| step_other p p' : p'.(p_mlfq_level) = p.(p_mlfq_level) ->
    p'.(p_mlfq_ticks_used) = p.(p_mlfq_ticks_used) -> mlfq_step p p'.

Lemma mlfq_quantum_pos l : 0 < mlfq_quantum l.
Proof. unfold mlfq_quantum. by repeat case_match. Qed.

Lemma mlfq_step_ok p p' : mlfq_step p p' -> slice_ok p -> slice_ok p'.
Proof.
  intros H [Hl Ht]. destruct H as [p _|p|p|p|p seq|p p' E1 E2]; unfold slice_ok in *.
  - unfold mlfq_charge. cbn -[mlfq_quantum]. pose proof (mlfq_quantum_pos (p_mlfq_level p + 1)).
    pose proof (mlfq_quantum_pos (p_mlfq_level p)).
    destruct (_ >=? _) eqn:E; [destruct (_ <? _) eqn:E2|]; cbn -[mlfq_quantum] in *; lia.
  - unfold mlfq_promote. pose proof (mlfq_quantum_pos (p_mlfq_level p - 1)).
    pose proof (mlfq_quantum_pos (p_mlfq_level p)).
    destruct (_ >? _) eqn:E; cbn -[mlfq_quantum] in *; lia.
  - unfold boosted. case_decide; done.
  - done.
  - done.
  - by rewrite E1, E2.
Qed.

Lemma mlfq_charge_below p :
  p.(p_mlfq_ticks_used) + 1 < mlfq_quantum p.(p_mlfq_level) ->
  mlfq_charge p = set_p_mlfq_ticks_used (p.(p_mlfq_ticks_used) + 1) p.
Proof.
  intros H. unfold mlfq_charge. cbn -[mlfq_quantum].
  by replace (_ >=? _) with false by lia.
Qed.

Lemma mlfq_charge_iter p k :
  p.(p_mlfq_ticks_used) = 0 -> Z.of_nat k < mlfq_quantum p.(p_mlfq_level) ->
  Nat.iter k mlfq_charge p = set_p_mlfq_ticks_used (Z.of_nat k) p.
Proof.
  intros H0. induction k as [|k IH]; intros Hk.
  - destruct p; simpl in *; by subst.
  - cbn [Nat.iter nat_rect]. unfold Nat.iter in IH. rewrite IH by lia.
    rewrite mlfq_charge_below by (cbn -[mlfq_quantum]; lia).
    replace (Z.of_nat (S k)) with (Z.of_nat k + 1) by lia. by destruct p.
Qed.
