(* ===== verification/SchedSpec.v ===== *)
(** * Locks and scheduling: results

    The guarantees of [spinlock.c] and of the scheduling part of
    [taskmgr.c]. *)

From S2P Require Import Prelude CMem Machine Sv32 Spinlock Sched SchedProof.

(** ** Spin locks *)

(** A critical section is invisible in the control state.  Taking a free
    lock, running any code that leaves locks and CPU state alone, and releasing
    the lock restores every lock, the interrupt-enable bit and the nesting
    depth, whatever the depth and the enable bit were; inside the section
    interrupts are off. *)
Lemma critical_section_transparent (s : kstate) (lk : lockid) (f : kstate -> kstate) :
  cpu_ok s -> lock_free s lk ->
  (forall s1, k_locks (f s1) = k_locks s1 /\ k_csr (f s1) = k_csr s1 /\ k_cpu (f s1) = k_cpu s1) ->
  runs ((acquire lk ;; i <- intr_get ;; modify f ;; release lk ;; ret i) s) (fun i s' =>
    i = 0 /\ same_ctl s s' /\ ints_on s' = ints_on s /\
    s' = set_cpu (k_cpu s') (set_csr (k_csr s) (set_locks (k_locks s) (f (enter lk s))))).
Proof.
  intros Hc Hl Hf. apply runs_bind, runs_acquire; [done|].
  assert (Hoff : intr_get (enter lk s) = Ok 0 (enter lk s)).
  { unfold intr_get, bind, gets, ret. simpl. by rewrite land_not_sie. }
  rewrite (bind_ok _ _ _ _ _ Hoff). apply runs_bind. cbn [runs modify]. apply runs_bind.
  destruct (Hf (enter lk s)) as (H1 & H2 & H3).
  apply (runs_release _ s); [done|done|by split|]. intros j Hj. cbn.
  split; [done|]. split; [apply leave_same_ctl|]. done.
Qed.

(** Taking a lock that this CPU already holds panics instead of spinning
    forever, and so does releasing a lock that is not held. *)
Lemma lock_misuse_panics (s : kstate) (lk : lockid) :
  cpu_ok s -> lock_free s lk ->
  (acquire lk ;; acquire lk) s = Stop (Panicked "acquire") /\
  release lk s = Stop (Panicked "release").
Proof.
  intros Hc [nm Hl]. split.
  - rewrite (bind_ok _ _ _ _ _ (acquire_eq s lk (ex_intro _ nm Hl))).
    unfold acquire. rewrite (bind_ok _ _ _ _ _ (push_off_eq (enter lk s))).
    unfold holding, bind, gets, ret, lock_of. simpl. by rewrite lookup_insert_eq.
  - unfold release, holding, bind, gets, ret, lock_of. by rewrite Hl.
Qed.

(** ** Scheduling *)

(** C6: one round of the scheduler runs the runnable process of the lowest
    level and, within a level, the one that ran longest ago, the first of the
    table on a tie.  It marks it running, stamps it with the next sequence
    number, and switches to it with interrupts off and exactly its lock held.
    When no process is runnable it holds no lock.  A pending boost first moves
    every process in use to the top level. *)
Theorem scheduler_round_correct (s : kstate) :
  procs_ok s -> c_noff (k_cpu s) = 0 -> Forall mlfq_ok (k_procs s) ->
  runs (scheduler_round s) (fun r s' =>
    chosen (scan_table s) NPROC r /\ ints_on s' = false /\
    mlfq_need_boost (k_ptab s') = 0 /\
    match r with
    | None => k_procs s' = scan_table s /\ idle s'
    | Some b => exists p nm, scan_table s !! Z.to_nat b = Some p /\
        let seq := u32 (mlfq_seq (k_ptab s) + 1) in
        k_procs s' = <[Z.to_nat b := set_p_mlfq_stamp seq (set_p_state RUNNING p)]> (scan_table s) /\
        mlfq_seq (k_ptab s') = seq /\ c_proc (k_cpu s') = Some b /\ c_noff (k_cpu s') = 1 /\
        k_locks s' = <[LProc b := mkLock 1 true nm]> (k_locks s)
    end).
Proof. apply scheduler_round_spec. Qed.

(** [wakeup] makes runnable exactly the processes that sleep on the
    channel, except the caller, and changes nothing else of any process; every
    process lock is free again. *)
Lemma wakeup_exact (s : kstate) (ch : chan) :
  procs_ok s ->
  runs (wakeup ch s) (fun _ s' => procs_ok s' /\ c_proc (k_cpu s') = c_proc (k_cpu s) /\
    forall i p, 0 <= i < NPROC -> k_procs s !! Z.to_nat i = Some p ->
      k_procs s' !! Z.to_nat i = Some
        (if decide (Some i <> c_proc (k_cpu s) /\ p.(p_state) = SLEEPING /\ p.(p_chan) = Some ch)
         then set_p_state RUNNABLE p else p)).
Proof.
  intros Hok. eapply runs_mono; [by apply (wakeup_at_spec s (Some ch))|].
  intros [] s' Hs'. split; [|split].
  - eapply psame_ok; [done| |done]. rewrite length_imap. apply Hok.
  - by destruct Hs' as (j & _ & ->).
  - intros i p Hi Hp. rewrite (psame_procs _ _ _ Hs'), list_lookup_imap, Hp. simpl.
    unfold woken. by rewrite Z2Nat.id by lia.
Qed.

(** C26: [kkill] marks the first process with the given pid as killed, makes it
    runnable if it sleeps, and returns 0; it returns -1 and changes no process
    when there is none.  Every lock and everything else of the kernel is as
    before.  Slots that are not in use take part with the pid they hold. *)
Theorem kkill_first_match (s : kstate) (pid : Z) :
  procs_ok s ->
  runs (kkill pid s) (fun r s' =>
    (r = 0 /\ exists i p, 0 <= i < NPROC /\ k_procs s !! Z.to_nat i = Some p /\ p.(p_pid) = pid /\
       (forall j q, 0 <= j < i -> k_procs s !! Z.to_nat j = Some q -> q.(p_pid) <> pid) /\
       psame s (<[Z.to_nat i := slain p]> (k_procs s)) s') \/
    (r = -1 /\ (forall q, q ∈ k_procs s -> q.(p_pid) <> pid) /\ psame s (k_procs s) s')).
Proof. apply kkill_spec. Qed.

(** C39: whatever sequence of ticks, promotions, boosts, resets and dispatches
    a process goes through, its level stays one of the three and the ticks it
    has used stay below the quantum of its level. *)
Theorem mlfq_bounds (p p' : proc) :
  rtc mlfq_step p p' -> slice_ok p ->
  0 <= p'.(p_mlfq_level) < MLFQ_LEVELS /\
  0 <= p'.(p_mlfq_ticks_used) < mlfq_quantum p'.(p_mlfq_level).
Proof. intros H. induction H as [|p q r Hs _ IH]; intros Hok; [done|]. by eapply IH, mlfq_step_ok. Qed.

(** A process that enters a level runs for exactly the quantum of that
    level before it is moved down one level (it stays in the last). *)
Lemma mlfq_quantum_used (p : proc) (k : nat) :
  p.(p_mlfq_ticks_used) = 0 -> Z.of_nat k < mlfq_quantum p.(p_mlfq_level) ->
  p.(p_mlfq_level) < MLFQ_LEVELS ->
  (Nat.iter k mlfq_charge p).(p_mlfq_level) = p.(p_mlfq_level) /\
  let q := Nat.iter (Z.to_nat (mlfq_quantum p.(p_mlfq_level))) mlfq_charge p in
  q.(p_mlfq_level) = Z.min (p.(p_mlfq_level) + 1) (MLFQ_LEVELS - 1) /\ q.(p_mlfq_ticks_used) = 0.
Proof.
  intros H0 Hk Hl. split; [by rewrite mlfq_charge_iter by done|]. cbv zeta.
  pose proof (mlfq_quantum_pos (p_mlfq_level p)) as Hq.
  replace (Z.to_nat (mlfq_quantum (p_mlfq_level p)))
    with (S (Z.to_nat (mlfq_quantum (p_mlfq_level p) - 1))) by lia.
  change (Nat.iter (S ?n) ?f ?x) with (f (Nat.iter n f x)).
  rewrite mlfq_charge_iter by (done || lia). unfold mlfq_charge. cbn -[mlfq_quantum].
  rewrite Z2Nat.id by lia. replace (_ - 1 + 1 >=? _) with true by lia.
  destruct (_ <? _) eqn:E; cbn -[mlfq_quantum] in *; unfold MLFQ_LEVELS in *; lia.
Qed.

(** ** Witnesses *)

Lemma procinit_spec s :
  length (k_procs s) = Z.to_nat NPROC ->
  runs (procinit s) (fun _ s' => k_cpu s' = k_cpu s /\ k_csr s' = k_csr s /\
    length (k_procs s') = Z.to_nat NPROC /\
    forall i, 0 <= i < NPROC -> lock_free s' (LProc i)).
Proof.
  intros Hlen. unfold procinit, initlock, put_lock. apply runs_bind. cbn [runs modify].
  apply runs_bind. cbn [runs modify].
  apply (runs_for (fun n s' => k_cpu s' = k_cpu s /\ k_csr s' = k_csr s /\
    length (k_procs s') = Z.to_nat NPROC /\
    forall i, 0 <= i < n -> lock_free s' (LProc i))).
  - do 3 (split; [done|]). intros i Hi. lia.
  - intros i s1 Hi (H1 & H2 & H3 & H4). unfold bind at 1, modify. cbn [rbind].
    set (s2 := set_locks _ s1).
    destruct (lookup_lt_is_Some_2 (k_procs s1) (Z.to_nat i)) as [p Hp]; [lia|].
    rewrite (bind_ok _ _ _ _ _ (upd_proc_eq s2 i p _ (proj1 Hi) Hp)). set (s3 := set_procs _ s2).
    assert (Hp3 : k_procs s3 !! Z.to_nat i = Some (set_p_state UNUSED p))
      by (apply list_lookup_insert_eq; by apply lookup_lt_Some in Hp).
    rewrite (upd_proc_eq s3 i _ _ (proj1 Hi) Hp3). cbn.
    split; [done|]. split; [done|]. split; [by rewrite !length_insert|].
    intros j Hj. destruct (decide (j = i)) as [->|].
    + exists "proc". simpl. apply lookup_insert_eq.
    + destruct (H4 j) as [nm Hn]; [lia|]. exists nm. simpl. rewrite lookup_insert_ne; [done|congruence].
  - intros s' H. done.
Qed.

(** A table with a sleeper and two runnable processes. *)
Definition demo_procs : list proc :=
  set_p_pid 1 (set_p_chan (Some ChTicks) (set_p_state SLEEPING zero_proc)) ::
  set_p_pid 2 (set_p_mlfq_level 1 (set_p_state RUNNABLE zero_proc)) ::
  set_p_pid 3 (set_p_mlfq_stamp 7 (set_p_state RUNNABLE zero_proc)) ::
  replicate (Z.to_nat NPROC - 3) zero_proc.

Lemma demo_sched : exists s, procs_ok s /\ c_noff (k_cpu s) = 0 /\ k_procs s = demo_procs.
Proof.
  destruct (proj1 (runs_ok _ _) (procinit_spec boot_state eq_refl))
    as ([] & s & _ & Hc & Hr & Hlen & Hl).
  exists (set_procs demo_procs s). split; [|split; [simpl; by rewrite Hc|done]].
  split; [|split; [done|done]]. unfold cpu_ok, ints_on. simpl. rewrite Hc, Hr.
  vm_compute. intuition congruence.
Qed.

Lemma demo_procs_ok : Forall mlfq_ok demo_procs.
Proof.
  assert (Hz : mlfq_ok zero_proc) by done.
  unfold demo_procs. do 3 (apply Forall_cons; split; [done|]). by apply Forall_replicate.
Qed.



Lemma scheduler_round_correct_witness : exists s,
  k_procs s = demo_procs /\
  runs (scheduler_round s) (fun r s' =>
    chosen (scan_table s) NPROC r /\ ints_on s' = false /\
    mlfq_need_boost (k_ptab s') = 0 /\
    match r with
    | None => k_procs s' = scan_table s /\ idle s'
    | Some b => exists p nm, scan_table s !! Z.to_nat b = Some p /\
        let seq := u32 (mlfq_seq (k_ptab s) + 1) in
        k_procs s' = <[Z.to_nat b := set_p_mlfq_stamp seq (set_p_state RUNNING p)]> (scan_table s) /\
        mlfq_seq (k_ptab s') = seq /\ c_proc (k_cpu s') = Some b /\ c_noff (k_cpu s') = 1 /\
        k_locks s' = <[LProc b := mkLock 1 true nm]> (k_locks s)
    end).
Proof.
  destruct demo_sched as (s & Hok & Hn & Hp). exists s. split; [exact Hp|].
  apply (scheduler_round_correct s Hok Hn). rewrite Hp. exact demo_procs_ok.
Defined.

Lemma kkill_first_match_witness : exists s,
  k_procs s = demo_procs /\
  runs (kkill 3 s) (fun r s' =>
    (r = 0 /\ exists i p, 0 <= i < NPROC /\ k_procs s !! Z.to_nat i = Some p /\ p.(p_pid) = 3 /\
       (forall j q, 0 <= j < i -> k_procs s !! Z.to_nat j = Some q -> q.(p_pid) <> 3) /\
       psame s (<[Z.to_nat i := slain p]> (k_procs s)) s') \/
    (r = -1 /\ (forall q, q ∈ k_procs s -> q.(p_pid) <> 3) /\ psame s (k_procs s) s')).
Proof.
  destruct demo_sched as (s & Hok & Hn & Hp). exists s. split; [exact Hp|].
  apply (kkill_first_match s 3 Hok).
Defined.

Lemma mlfq_bounds_witness :
  let p := set_p_state RUNNING zero_proc in
  0 <= (mlfq_charge p).(p_mlfq_level) < MLFQ_LEVELS /\
  0 <= (mlfq_charge p).(p_mlfq_ticks_used) < mlfq_quantum (mlfq_charge p).(p_mlfq_level).
Proof.
  apply (mlfq_bounds (set_p_state RUNNING zero_proc)).
  - apply rtc_once. apply step_tick. reflexivity.
  - vm_compute. intuition congruence.
Defined.

