(* ===== verification/SleepProof.v ===== *)
(** * Sleeping, and running beside others

    A process that calls [sleep] inside a critical section gives up the CPU with
    only its own lock held, and when it is dispatched again it returns inside
    the section, on whatever the machine's data is by then.  What a routine may
    assume about that data, and owes to the others, is a rely-guarantee triple. *)

From S2P Require Import Prelude CMem Machine Sv32 Spinlock Kalloc Sched SchedProof UserMem.

(** ** Rely and guarantee

    [rely G R g0 s0 r Q]: outcome [r], in a stretch of execution that began at
    [s0] with ghost state [g0].  It stops only because the bound of a waiting
    loop ran out.  Where it gives up the CPU, the stretch is a step of [G], and
    it goes on from any state to which [R] leads.  Where it returns, [Q] holds of
    the last stretch, the result and the state. *)
Fixpoint rely {S X A} (G R : X -> S -> X -> S -> Prop) (g0 : X) (s0 : S) (r : res S A)
    (Q : X -> S -> A -> S -> Prop) : Prop :=
  match r with
  | Ok a s => Q g0 s0 a s
  | Stop w => w = OutOfFuel
  | Block s k => exists g, G g0 s0 g s /\ forall g' s', R g s g' s' -> rely G R g' s' (k s') Q
  end.

Section rely.
Context {S X A B : Type} (G R : X -> S -> X -> S -> Prop).

Lemma rely_mono (r : res S A) g0 s0 (Q Q' : X -> S -> A -> S -> Prop) :
  rely G R g0 s0 r Q -> (forall g1 s1 a s, Q g1 s1 a s -> Q' g1 s1 a s) -> rely G R g0 s0 r Q'.
Proof.
  revert g0 s0. induction r as [a s|w|s k IH]; simpl; intros g0 s0; auto.
  intros (g & HG & Hk) HQ. exists g. split; [done|]. auto.
Qed.
Lemma rely_bind (m : M S A) (f : A -> M S B) g0 s0 s Q :
  rely G R g0 s0 (m s) (fun g1 s1 a s' => rely G R g1 s1 (f a s') Q) -> rely G R g0 s0 (bind m f s) Q.
Proof.
  unfold bind. generalize (m s) as r. intros r. revert g0 s0.
  induction r as [a s1|w|s1 k IH]; simpl; auto.
  intros g0 s0 (g & HG & Hk). exists g. split; [done|]. auto.
Qed.
Lemma runs_rely (r : res S A) g0 s0 Q : runs r (Q g0 s0) -> rely G R g0 s0 r Q.
Proof. destruct r; simpl; tauto. Qed.
End rely.

(** ** Giving up the CPU *)

(** The data of [s] under the control state of [c]. *)
Definition with_ctl (c s : kstate) : kstate :=
  set_cpu (k_cpu c) (set_csr (k_csr c) (set_locks (k_locks c) s)).

Lemma with_ctl_enter c lk s : with_ctl c (enter lk s) = with_ctl c s.
Proof. by destruct s. Qed.
Lemma in_crit_with_ctl lk s0 s1 : in_crit lk s0 s1 -> s1 = with_ctl (enter lk s0) s1.
Proof. intros (E1 & E2 & E3). unfold with_ctl. rewrite <- E1, <- E2, <- E3. by destruct s1. Qed.

(** From [s] to [s'] only locks, CPU state and the process table have changed. *)
Definition same_but_procs (s s' : kstate) : Prop := s' = with_ctl s' (set_procs (k_procs s') s).

Lemma same_but_procs_refl s : same_but_procs s s.
Proof. by destruct s. Qed.
Lemma same_but_procs_trans s1 s2 s3 : same_but_procs s1 s2 -> same_but_procs s2 s3 -> same_but_procs s1 s3.
Proof. unfold same_but_procs. intros H1 H2. rewrite H1 in H2. by destruct s1, s2, s3. Qed.
Lemma same_but_procs_sems s s' : same_but_procs s s' -> k_sems s' = k_sems s.
Proof. intros ->. by destruct s. Qed.

(** What is assumed of the scheduler when it runs a process again: interrupts
    and the other control registers, nesting and locks are as they were when the
    process left. *)
Definition resumed (s s' : kstate) : Prop :=
  k_locks s' = k_locks s /\ k_csr s' = k_csr s /\
  c_proc (k_cpu s') = c_proc (k_cpu s) /\ c_noff (k_cpu s') = c_noff (k_cpu s) /\
  length (k_procs s') = length (k_procs s).

Section sleep.
Context (p : Z) (lk : lockid) (s0 : kstate).
Hypothesis (Hp : 0 <= p < NPROC) (Hcur : c_proc (k_cpu s0) = Some p) (Hnoff : c_noff (k_cpu s0) = 0).
Hypothesis (Hok : procs_ok s0) (Hlk : lock_free s0 lk) (Hne : forall i, lk <> LProc i).

Let base := enter (LProc p) s0.

Lemma base_ok : cpu_ok base /\ lock_free base lk.
Proof.
  destruct Hok as (Hc & _ & _). split; [by apply enter_cpu_ok|].
  apply enter_lock_free; [by intros E; apply (Hne p)|done].
Qed.

Lemma base_noff : c_noff (k_cpu base) = 1.
Proof. cbn [base enter off_state k_cpu c_noff set_locks set_cpu set_csr]. by rewrite Hnoff. Qed.

Lemma sleep_release s1 :
  in_crit lk s0 s1 -> release lk (enter (LProc p) s1) = Ok tt (with_ctl base s1).
Proof.
  intros (E1 & E2 & E3). destruct base_ok as [Hb Hl].
  assert (F1 : k_locks (enter (LProc p) s1) = k_locks (enter lk base)).
  { unfold enter, base, lock_of. cbn [k_locks set_locks off_state set_cpu set_csr]. rewrite E1.
    unfold enter, lock_of. cbn [k_locks set_locks off_state set_cpu set_csr].
    rewrite insert_insert_ne by (by intros E; apply (Hne p)).
    rewrite !lookup_insert_ne by (by intros E; apply (Hne p)). done. }
  assert (F2 : k_csr (enter (LProc p) s1) = k_csr (enter lk base)).
  { unfold enter, off_state, base. cbn [k_csr set_locks set_cpu set_csr]. by rewrite E2. }
  assert (F3 : k_cpu (enter (LProc p) s1) = k_cpu (enter lk base)).
  { unfold enter, off_state, base, ints_on. cbn [k_cpu k_csr set_locks set_cpu set_csr c_proc c_noff c_intena].
    rewrite E2, E3. done. }
  destruct (release_eq base _ lk Hb Hl F1 F2 F3) as (i & Hi & ->). f_equal.
  assert (Hn : 0 < c_noff (k_cpu base)) by (simpl; lia).
  rewrite (Hi Hn). unfold with_ctl. destruct (k_cpu base) eqn:E. simpl. by destruct s1.
Qed.

(** [sched] by a process that holds its lock and nothing else. *)
Lemma sched_block sb pr :
  k_locks sb = k_locks base -> k_csr sb = k_csr base -> k_cpu sb = k_cpu base ->
  k_procs sb !! Z.to_nat p = Some pr -> p_state pr = SLEEPING ->
  sched sb = Block sb (fun s' => upd_cpu (fun c => mkCpu (c_proc c) (c_noff c) (c_intena (k_cpu base))) s').
Proof.
  intros E1 E2 E3 Hpr Hst. destruct base_ok as [Hb _].
  assert (Hc : cpu_ok sb) by (unfold cpu_ok, ints_on in *; by rewrite E2, E3).
  assert (Hn : c_noff (k_cpu sb) = 1) by (rewrite E3; simpl; lia).
  assert (Hcp : curproc sb = Ok p sb).
  { destruct (proj1 (runs_ok _ _) (runs_curproc sb p (fun a s' => a = p /\ intena_only sb s') Hc
      ltac:(by rewrite E3) ltac:(by intros))) as (a & s' & E & -> & i & Hi & ->).
    rewrite E. f_equal. rewrite (Hi ltac:(lia)). by destruct sb as [[] ? ? ? ? ?]. }
  unfold sched. rewrite (bind_ok _ _ _ _ _ Hcp).
  assert (Hh : holding (LProc p) sb = Ok true sb).
  { unfold holding, bind, gets, lock_of. cbn [rbind]. rewrite E1. unfold base, enter.
    cbn [k_locks set_locks]. by rewrite lookup_insert_eq. }
  rewrite (bind_ok _ _ _ _ _ Hh). cbn [negb].
  rewrite (bind_ok _ _ sb (k_cpu sb) sb) by done. rewrite Hn. change (negb (1 =? 1)) with false. cbv iota.
  rewrite (bind_ok _ _ _ _ _ (get_proc_eq sb p pr ltac:(lia) Hpr)), decide_False by (by rewrite Hst).
  assert (Hi : intr_get sb = Ok 0 sb).
  { unfold intr_get, bind, gets, ret. cbn [rbind]. rewrite E2. unfold base, enter, off_state.
    cbn [k_csr set_locks set_cpu set_csr r_sstatus set_sstatus]. by rewrite land_not_sie. }
  rewrite (bind_ok _ _ _ _ _ Hi). change (negb (0 =? 0)) with false. cbv iota.
  rewrite (bind_ok _ _ sb (k_cpu sb) sb) by done. rewrite E3. reflexivity.
Qed.

Definition slept (ch : chan) (pr : proc) : proc := set_p_state SLEEPING (mlfq_promote (set_p_chan (Some ch) pr)).

(** The process table when the process runs again: it waits for nothing. *)
Definition awake (l : list proc) : list proc := alter (set_p_chan None) (Z.to_nat p) l.

(** Back from [sched]. *)
Lemma sleep_return s' :
  k_locks s' = k_locks base -> k_csr s' = k_csr base -> c_proc (k_cpu s') = Some p ->
  c_noff (k_cpu s') = 1 -> length (k_procs s') = Z.to_nat NPROC ->
  exists j, scratch s0 j /\
    rbind (upd_cpu (fun c => mkCpu (c_proc c) (c_noff c) (c_intena (k_cpu base))) s') (fun _ =>
      upd_proc p (set_p_chan None) ;; release (LProc p) ;; acquire lk) =
    Ok tt (enter lk (leave s0 j (set_procs (awake (k_procs s')) s'))).
Proof.
  intros E1 E2 E3 E4 E5. destruct Hok as (Hc & Hl & Hfree).
  destruct (lookup_lt_is_Some_2 (k_procs s') (Z.to_nat p)) as [pr' Hpr']; [rewrite E5; lia|].
  unfold upd_cpu, modify. cbn [rbind]. set (t := set_cpu _ s').
  rewrite (bind_ok _ _ _ _ _ (upd_proc_eq t p pr' (set_p_chan None) ltac:(lia) Hpr')).
  set (ps := <[Z.to_nat p := _]> _). set (t2 := set_procs ps t).
  assert (Eps : ps = awake (k_procs s')) by (unfold ps, awake, t; rewrite list_insert_alter; apply list_alter_ext; [|done]; intros x Hx; cbn in Hx; congruence).
  assert (F3 : k_cpu t2 = k_cpu (enter (LProc p) s0)).
  { unfold t2, t. cbn [k_cpu set_procs set_cpu]. rewrite E3, E4. unfold base, enter, off_state.
    cbn [k_cpu set_locks set_cpu set_csr c_intena]. by rewrite Hcur, Hnoff. }
  destruct (release_eq s0 t2 (LProc p) Hc ltac:(by apply Hfree) ltac:(exact E1) ltac:(exact E2) F3) as (j & Hj & Hr).
  rewrite (bind_ok _ _ _ _ _ Hr). exists j. split; [done|]. rewrite <- Eps.
  set (t3 := set_cpu _ _). assert (Et : t3 = leave s0 j (set_procs ps s')) by (by destruct s').
  rewrite <- Et. apply acquire_eq. destruct Hlk as [nm Hnm]. exists nm. by rewrite Et.
Qed.

(** The state in which the CPU is given up, and the way back. *)
Lemma sleep_block ch s1 pr :
  in_crit lk s0 s1 -> length (k_procs s1) = Z.to_nat NPROC -> k_procs s1 !! Z.to_nat p = Some pr ->
  exists k, sleep ch lk s1 =
      Block (with_ctl base (set_procs (<[Z.to_nat p := slept ch pr]> (k_procs s1)) s1)) k /\
    forall s', resumed (with_ctl base (set_procs (<[Z.to_nat p := slept ch pr]> (k_procs s1)) s1)) s' ->
      exists j, scratch s0 j /\ k s' = Ok tt (enter lk (leave s0 j (set_procs (awake (k_procs s')) s'))).
Proof.
  intros Hc Hlen Hpr. unfold sleep. pose proof Hc as (E1 & E2 & E3). destruct Hok as (Hcpu & Hl0 & Hfree).
  assert (Hc1 : cpu_ok s1).
  { pose proof (enter_cpu_ok lk s0 Hcpu). unfold cpu_ok, ints_on in *. by rewrite E2, E3. }
  assert (Hn1 : 0 < c_noff (k_cpu s1)) by (rewrite E3; simpl; lia).
  assert (Hcp : curproc s1 = Ok p s1).
  { destruct (proj1 (runs_ok _ _) (runs_curproc s1 p (fun a s' => a = p /\ intena_only s1 s') Hc1
      ltac:(by rewrite E3) ltac:(by intros))) as (a & s' & E & -> & i & Hi & ->).
    rewrite E. f_equal. rewrite (Hi Hn1). by destruct s1 as [[] ? ? ? ? ?]. }
  assert (Hf1 : lock_free s1 (LProc p)).
  { unfold lock_free. rewrite E1.
    apply (enter_lock_free lk (LProc p) s0); [by intros E; apply (Hne p)|by apply Hfree]. }
  rewrite (bind_ok _ _ _ _ _ Hcp), (bind_ok _ _ _ _ _ (acquire_eq s1 _ Hf1)).
  rewrite (bind_ok _ _ _ _ _ (sleep_release s1 Hc)). set (s2 := with_ctl base s1).
  assert (Hu1 : forall f pr' ps t, t = set_procs ps s2 -> ps !! Z.to_nat p = Some pr' ->
    upd_proc p f t = Ok tt (set_procs (<[Z.to_nat p := f pr']> ps) s2)).
  { intros f pr' ps t -> Hps. rewrite (upd_proc_eq (set_procs ps s2) p pr' f) by (lia || done). by destruct s2. }
  assert (Hlp : (Z.to_nat p < length (k_procs s1))%nat) by (by eapply lookup_lt_Some).
  rewrite (bind_ok _ _ _ _ _ (Hu1 _ pr (k_procs s1) s2 ltac:(by destruct s1) Hpr)).
  erewrite bind_ok by (eapply Hu1; [reflexivity|by apply list_lookup_insert_eq]).
  rewrite list_insert_insert_eq.
  erewrite bind_ok by (eapply Hu1; [reflexivity|by apply list_lookup_insert_eq]).
  rewrite list_insert_insert_eq. fold (slept ch pr).
  set (sb := set_procs _ s2).
  change (with_ctl base (set_procs (<[Z.to_nat p := slept ch pr]> (k_procs s1)) s1)) with sb.
  unfold bind at 1. rewrite (sched_block sb (slept ch pr)) by (done || by apply list_lookup_insert_eq).
  cbn [rbind]. eexists. split; [reflexivity|]. intros s' (G1 & G2 & G3 & G4 & G5).
  apply sleep_return; [done|done|by rewrite G3|by rewrite G4; apply base_noff|].
  rewrite G5. cbn [k_procs set_procs sb]. by rewrite length_insert.
Qed.
End sleep.
