(* ===== verification/Sleeplock.v ===== *)
(** * Sleep locks

    Models [src/os/kernel/sleeplock.c].  The spin lock inside a sleep lock is
    kept under the same [lockid] as the sleep lock. *)

From S2P Require Import Prelude CMem Machine Sv32 Spinlock Sched.

Definition get_slk (lk : lockid) : K sleeplock :=
  gets (fun s => default (mkSleep 0 "" 0) (k_sleep s !! lk)).
Definition put_slk (lk : lockid) (l : sleeplock) : K unit :=
  modify (fun s => set_sleep (<[lk := l]> (k_sleep s)) s).

Definition initsleeplock (lk : lockid) (name : string) : K unit :=
  initlock lk "sleep lock" ;;
  put_slk lk (mkSleep 0 name 0).

Definition acquiresleep `{WaitFuel} (lk : lockid) : K unit :=
  acquire lk ;;
  while_wait wait_fuel
    (l <- get_slk lk ;; ret (negb (l.(slk_locked) =? 0)))
    (sleep (ChSleepLock lk) lk) ;;
  l <- get_slk lk ;;
  p <- curproc ;;
  pr <- get_proc p ;;
  put_slk lk (mkSleep 1 l.(slk_name) pr.(p_pid)) ;;
  release lk.

Definition releasesleep (lk : lockid) : K unit :=
  acquire lk ;;
  l <- get_slk lk ;;
  put_slk lk (mkSleep 0 l.(slk_name) 0) ;;
  wakeup (ChSleepLock lk) ;;
  release lk.

Definition holdingsleep (lk : lockid) : K bool :=
  acquire lk ;;
  l <- get_slk lk ;;
  p <- curproc ;;
  pr <- get_proc p ;;
  let r := negb (l.(slk_locked) =? 0) && (l.(slk_pid) =? pr.(p_pid)) in
  release lk ;;
  ret r.
