(* ===== verification/Bio.v ===== *)
(** * The buffer cache

    Models [src/os/kernel/bio.c].  [k_bufs] holds [bcache.buf] followed by
    [bcache.head] at index [NBUF]; [prev] and [next] are indices into it.  The
    disk driver is reached through the interface [BlockDev]. *)

From S2P Require Import Prelude CMem Machine Sv32 Spinlock Sched Sleeplock.

(** The disk driver's entry points: [virtio_disk_rw(b, write)] and the
    completion interrupt handler. *)
Class BlockDev := {
  virtio_disk_rw : Z -> bool -> K unit;
  virtio_disk_intr : K unit;
}.

(** The driver's contract: when the call returns, the block has been
    transferred, and nothing else has changed. *)
Class BlockDevOk (D : BlockDev) : Prop := {
  rw_read : forall i s b, k_bufs s !! Z.to_nat i = Some b -> 0 <= i ->
    virtio_disk_rw i false s =
      Ok tt (set_bufs (<[Z.to_nat i :=
               set_b_data (disk_block (k_disk s) (b_blockno b)) b]> (k_bufs s)) s);
  rw_write : forall i s b, k_bufs s !! Z.to_nat i = Some b -> 0 <= i ->
    virtio_disk_rw i true s =
      Ok tt (set_disk (disk_write (b_blockno b) (b_data b) (k_disk s)) s);
}.

(** [&bcache.head] *)
Definition bhead : Z := NBUF.

Definition binit : K unit :=
  initlock LBcache "bcache" ;;
  upd_buf bhead (set_b_prev bhead) ;;
  upd_buf bhead (set_b_next bhead) ;;
  for_ (Z.to_nat NBUF) 0 (fun b =>
    h <- get_buf bhead ;;
    upd_buf b (set_b_next h.(b_next)) ;;
    upd_buf b (set_b_prev bhead) ;;
    initsleeplock (LBuf b) "buffer" ;;
    upd_buf h.(b_next) (set_b_prev b) ;;
    upd_buf bhead (set_b_next b)).

(** [for(b = start; b != &bcache.head; b = step(b)) if(f(b)) ...]: the first
    buffer that passes, [None] when the list is exhausted.  The list has
    [NBUF] buffers. *)
Fixpoint bscan (fuel : nat) (step : buf -> Z) (f : buf -> bool) (b : Z)
    : K (option Z) :=
  match fuel with
  | O => nofuel
  | S n =>
      if b =? bhead then ret None else
      bb <- get_buf b ;;
      if f bb then ret (Some b) else bscan n step f (step bb)
  end.

Definition bget `{WaitFuel} (dev blockno : Z) : K Z :=
  acquire LBcache ;;
  h <- get_buf bhead ;;
  hit <- bscan (Z.to_nat (NBUF + 1)) b_next
           (fun b => (b.(b_dev) =? dev) && (b.(b_blockno) =? blockno)) h.(b_next) ;;
  match hit with
  | Some b =>
      upd_buf b (fun x => set_b_refcnt (u32 (x.(b_refcnt) + 1)) x) ;;
      release LBcache ;;
      acquiresleep (LBuf b) ;;
      ret b
  | None =>
      h <- get_buf bhead ;;
      free <- bscan (Z.to_nat (NBUF + 1)) b_prev (fun b => b.(b_refcnt) =? 0) h.(b_prev) ;;
      match free with
      | Some b =>
          upd_buf b (fun x => set_b_refcnt 1 (set_b_valid 0
                                (set_b_blockno blockno (set_b_dev dev x)))) ;;
          release LBcache ;;
          acquiresleep (LBuf b) ;;
          ret b
      | None => panic "bget: no buffers"
      end
  end.

Definition bread `{WaitFuel, BlockDev} (dev blockno : Z) : K Z :=
  b <- bget dev blockno ;;
  x <- get_buf b ;;
  (if x.(b_valid) =? 0 then
     virtio_disk_rw b false ;;
     upd_buf b (set_b_valid 1)
   else ret tt) ;;
  ret b.

Definition bwrite `{BlockDev} (b : Z) : K unit :=
  h <- holdingsleep (LBuf b) ;;
  if negb h then panic "bwrite" else
  virtio_disk_rw b true.

Definition brelse (b : Z) : K unit :=
  h <- holdingsleep (LBuf b) ;;
  if negb h then panic "brelse" else
  releasesleep (LBuf b) ;;
  acquire LBcache ;;
  upd_buf b (fun x => set_b_refcnt (u32 (x.(b_refcnt) - 1)) x) ;;
  x <- get_buf b ;;
  (if x.(b_refcnt) =? 0 then
     upd_buf x.(b_next) (set_b_prev x.(b_prev)) ;;
     upd_buf x.(b_prev) (set_b_next x.(b_next)) ;;
     h <- get_buf bhead ;;
     upd_buf b (set_b_next h.(b_next)) ;;
     upd_buf b (set_b_prev bhead) ;;
     upd_buf h.(b_next) (set_b_prev b) ;;
     upd_buf bhead (set_b_next b)
   else ret tt) ;;
  release LBcache.

Definition bpin (b : Z) : K unit :=
  acquire LBcache ;;
  upd_buf b (fun x => set_b_refcnt (u32 (x.(b_refcnt) + 1)) x) ;;
  release LBcache.

Definition bunpin (b : Z) : K unit :=
  acquire LBcache ;;
  upd_buf b (fun x => set_b_refcnt (u32 (x.(b_refcnt) - 1)) x) ;;
  release LBcache.
