(* ===== verification/BioProof.v ===== *)
(** * The buffer cache: properties

    The doubly linked list of [bio.c] always holds every buffer once, a disk
    block is cached in at most one buffer, and [bread], [bwrite], [brelse],
    [bpin] and [bunpin] implement a cache: what is read of a block is the last
    content given to it, whatever was evicted in between. *)

From S2P Require Import Prelude CMem Machine Sv32 Spinlock KallocProof PageTable UserMem.
From S2P Require Import Sched SchedProof Sleeplock Bio.

(** ** The list *)

Definition nxt (bs : list buf) (i : Z) : option Z :=
  if decide (0 <= i) then b_next <$> bs !! Z.to_nat i else None.
Definition prv (bs : list buf) (i : Z) : option Z :=
  if decide (0 <= i) then b_prev <$> bs !! Z.to_nat i else None.
Definition linked (bs : list buf) (x y : Z) : Prop := nxt bs x = Some y /\ prv bs y = Some x.

(** [x -> l -> y] in both directions. *)
Fixpoint path (bs : list buf) (x : Z) (l : list Z) (y : Z) : Prop :=
  match l with
  | [] => linked bs x y
  | z :: l' => linked bs x z /\ path bs z l' y
  end.

Lemma path_app bs x l1 z l2 y :
  path bs x (l1 ++ z :: l2) y <-> path bs x l1 z /\ path bs z l2 y.
Proof.
  revert x. induction l1 as [|a l1 IH]; intros x; simpl; [done|]. rewrite IH. tauto.
Qed.

Lemma path_frame bs bs' x l y :
  (forall a, a ∈ x :: l -> nxt bs' a = nxt bs a) ->
  (forall a, a ∈ l ++ [y] -> prv bs' a = prv bs a) ->
  path bs x l y -> path bs' x l y.
Proof.
  revert x. induction l as [|z l IH]; intros x Hn Hp; simpl; unfold linked.
  - rewrite Hn, Hp by set_solver. done.
  - rewrite Hn, Hp by set_solver. intros [H1 H2]. split; [done|]. apply IH; [| |done].
    + intros a Ha. apply Hn. set_solver.
    + intros a Ha. apply Hp. set_solver.
Qed.

(** Taking [b] out: its neighbours [p] and [n] are joined. *)
Lemma path_join bs bs' b p n x l1 l2 y :
  nxt bs' p = Some n -> prv bs' n = Some p ->
  (forall a, a <> p -> nxt bs' a = nxt bs a) -> (forall a, a <> n -> prv bs' a = prv bs a) ->
  linked bs p b -> linked bs b n -> NoDup (x :: l1 ++ b :: l2) -> y ∉ l1 ++ b :: l2 ->
  path bs x l1 b -> path bs b l2 y -> path bs' x (l1 ++ l2) y.
Proof.
  intros Hp Hn Hnf Hpf [Hpb1 Hpb2] [Hbn1 Hbn2]. revert x.
  assert (Hin : n = y \/ n ∈ l2 \/ ~ path bs b l2 y).
  { destruct l2 as [|z l2]; simpl.
    - destruct (decide (n = y)); [by left|]. right; right. intros [H _]. congruence.
    - destruct (decide (n = z)) as [->|]; [right; left; set_solver|].
      right; right. intros [[H _] _]. congruence. }
  induction l1 as [|z l1 IH]; intros x Hnd Hy Hl1 Hl2; simpl in *.
  - destruct Hl1 as [Hxb Hbx]. assert (p = x) as -> by congruence.
    destruct l2 as [|z l2]; simpl in *.
    + destruct Hl2. assert (n = y) as -> by congruence. done.
    + destruct Hl2 as [[Hbz _] Hl2]. assert (n = z) as -> by congruence. split; [done|].
      eapply path_frame; [| |exact Hl2].
      * intros a Ha. apply Hnf. rewrite !NoDup_cons in Hnd. set_solver.
      * intros a Ha. apply Hpf. rewrite !NoDup_cons in Hnd. set_solver.
  - destruct Hl1 as [[Hxz Hzx] Hl1]. rewrite !NoDup_cons in Hnd.
    assert (Hzb : z <> b) by set_solver. split; [split|].
    + rewrite Hnf; [done|]. intros ->. congruence.
    + rewrite Hpf; [done|]. intros ->. destruct Hin as [->|[Hin|Hin]]; set_solver.
    + apply IH; [|set_solver|done|done]. rewrite NoDup_cons. set_solver.
Qed.

(** Putting [b] in front of the list. *)
Lemma path_push bs bs' b n x l y :
  nxt bs x = Some n ->
  nxt bs' x = Some b -> prv bs' b = Some x -> nxt bs' b = Some n -> prv bs' n = Some b ->
  (forall a, a <> x -> a <> b -> nxt bs' a = nxt bs a) ->
  (forall a, a <> n -> a <> b -> prv bs' a = prv bs a) ->
  NoDup (x :: l) -> b ∉ l -> b <> y -> b <> x -> y ∉ l ->
  path bs x l y -> path bs' x (b :: l) y.
Proof.
  intros Hn H1 H2 H3 H4 Hnf Hpf Hnd Hb Hby Hbx Hy Hp. split; [done|].
  destruct l as [|z l]; simpl in *.
  - destruct Hp. assert (n = y) as -> by congruence. done.
  - destruct Hp as [[Hxz _] Hp]. assert (n = z) as -> by congruence. split; [done|].
    rewrite !NoDup_cons in Hnd. eapply path_frame; [| |exact Hp].
    + intros a Ha. apply Hnf; set_solver.
    + intros a Ha. apply Hpf; set_solver.
Qed.

(** ** Scanning the list *)

Lemma get_buf_eq s i b :
  0 <= i -> k_bufs s !! Z.to_nat i = Some b -> get_buf i s = Ok b s.
Proof.
  intros Hi Hb. unfold get_buf, get_elt. replace (0 <=? i) with true by lia. by rewrite Hb.
Qed.
Lemma upd_buf_eq s i b f :
  0 <= i -> k_bufs s !! Z.to_nat i = Some b ->
  upd_buf i f s = Ok tt (set_bufs (<[Z.to_nat i := f b]> (k_bufs s)) s).
Proof.
  intros Hi Hb. unfold upd_buf, upd_elt. replace (0 <=? i) with true by lia. by rewrite Hb.
Qed.

(** The first element of [l] whose buffer passes [f]. *)
Fixpoint scan (bs : list buf) (f : buf -> bool) (l : list Z) : option Z :=
  match l with
  | [] => None
  | i :: l' =>
      match bs !! Z.to_nat i with
      | Some b => if f b then Some i else scan bs f l'
      | None => None
      end
  end.

(** [l] is what a walk with [step] from [b] visits before the head. *)
Fixpoint visits (step : buf -> Z) (bs : list buf) (b : Z) (l : list Z) : Prop :=
  match l with
  | [] => b = bhead
  | i :: l' => b = i /\ 0 <= i < NBUF /\
      exists x, bs !! Z.to_nat i = Some x /\ visits step bs (step x) l'
  end.

Lemma bscan_eq fuel step f b l s :
  visits step (k_bufs s) b l -> (length l < fuel)%nat ->
  bscan fuel step f b s = Ok (scan (k_bufs s) f l) s.
Proof.
  revert b l. induction fuel as [|fuel IH]; intros b l Hv Hl; [lia|].
  destruct l as [|i l]; simpl in *; [by subst|].
  destruct Hv as (-> & Hi & x & Hx & Hv). unfold bhead.
  destruct (Z.eqb_spec i NBUF); [lia|].
  rewrite (bind_ok _ _ _ _ _ (get_buf_eq s i x (proj1 Hi) Hx)), Hx.
  destruct (f x); [done|]. by rewrite (IH _ l) by (done || lia).
Qed.

Lemma path_visits_next bs x l :
  Forall (fun i => 0 <= i < NBUF) l -> path bs x l bhead ->
  exists n, nxt bs x = Some n /\ visits b_next bs n l.
Proof.
  revert x. induction l as [|z l IH]; intros x Hl Hp; simpl in *.
  - destruct Hp. by exists bhead.
  - inversion Hl; subst. destruct Hp as [[Hn Hq] Hp]. exists z. split; [done|].
    split; [done|]. split; [done|]. destruct (IH z) as (n & Hzn & Hv); [done|done|].
    unfold nxt in Hzn. rewrite decide_True in Hzn by lia. destruct (bs !! Z.to_nat z) as [bz|] eqn:E; [|done].
    exists bz. split; [done|]. simpl in Hzn. by simplify_eq.
Qed.

Lemma path_visits_prev bs y l :
  Forall (fun i => 0 <= i < NBUF) l -> path bs bhead l y ->
  exists n, prv bs y = Some n /\ visits b_prev bs n (reverse l).
Proof.
  revert y. induction l as [|z l IH] using rev_ind; intros y Hl Hp.
  - destruct Hp. by exists bhead.
  - rewrite Forall_app, Forall_singleton in Hl. destruct Hl as [Hl Hz].
    apply path_app in Hp as [Hp [_ Hq]]. exists z. split; [done|].
    rewrite reverse_snoc. split; [done|]. split; [done|].
    destruct (IH z) as (n & Hzn & Hv); [done|done|].
    unfold prv in Hzn. rewrite decide_True in Hzn by lia. destruct (bs !! Z.to_nat z) as [bz|] eqn:E; [|done].
    exists bz. split; [done|]. simpl in Hzn. by simplify_eq.
Qed.

Lemma scan_Some bs f l i :
  scan bs f l = Some i -> i ∈ l /\ exists b, bs !! Z.to_nat i = Some b /\ f b = true.
Proof.
  induction l as [|j l IH]; simpl; [done|].
  destruct (bs !! Z.to_nat j) as [b|] eqn:E; [|done]. destruct (f b) eqn:Ef.
  - intros [= ->]. split; [set_solver|]. by exists b.
  - intros H. destruct (IH H) as [Hi Hb]. split; [set_solver|done].
Qed.

Lemma scan_None bs f l i b :
  (forall j, j ∈ l -> is_Some (bs !! Z.to_nat j)) ->
  scan bs f l = None -> i ∈ l -> bs !! Z.to_nat i = Some b -> f b = false.
Proof.
  intros Hall. induction l as [|j l IH]; simpl; [by intros _ ?%elem_of_nil|].
  destruct (Hall j) as [bj Hj]; [set_solver|]. rewrite Hj. destruct (f bj) eqn:Ef; [done|].
  intros Hs Hi Hb. apply elem_of_cons in Hi as [->|Hi]; [congruence|].
  apply IH; try done. intros k Hk. apply Hall. set_solver.
Qed.

(** ** What the cache's operations change *)

(** What a process keeps. *)
Definition ident (p : proc) := (p_pid p, p_as p).
(** Locks, buffers and disk become [sl], [bs] and [d]; processes may have been
    woken, and the scratch field [intena] is not specified. *)
Definition bupd (s : kstate) (sl : gmap lockid sleeplock) (bs : list buf) (d : disk_t)
    (s' : kstate) : Prop :=
  exists j ps, scratch s j /\ ident <$> ps = ident <$> k_procs s /\
    s' = set_cpu (mkCpu (c_proc (k_cpu s)) (c_noff (k_cpu s)) j)
           (set_procs ps (set_sleep sl (set_bufs bs (set_disk d s)))).

Lemma bupd_trans s sl bs d s1 sl' bs' d' s2 :
  bupd s sl bs d s1 -> bupd s1 sl' bs' d' s2 -> bupd s sl' bs' d' s2.
Proof.
  intros (j & ps & Hj & Hps & ->) (j' & ps' & Hj' & Hps' & ->). exists j', ps'.
  split; [|split; [by rewrite Hps'|done]]. intros H. rewrite Hj' by done. simpl. by apply Hj.
Qed.

Lemma bupd_refl s : bupd s (k_sleep s) (k_bufs s) (k_disk s) s.
Proof.
  exists (c_intena (k_cpu s)), (k_procs s). split; [done|]. split; [done|].
  by destruct s as [[] ? ? ? ? ?].
Qed.

Lemma bupd_bufs s bs : bupd s (k_sleep s) bs (k_disk s) (set_bufs bs s).
Proof.
  exists (c_intena (k_cpu s)), (k_procs s). split; [done|]. split; [done|].
  by destruct s as [[] ? ? ? ? ?].
Qed.

Lemma bupd_disk s d : bupd s (k_sleep s) (k_bufs s) d (set_disk d s).
Proof.
  exists (c_intena (k_cpu s)), (k_procs s). split; [done|]. split; [done|].
  by destruct s as [[] ? ? ? ? ?].
Qed.

Lemma bupd_fields s sl bs d s' :
  bupd s sl bs d s' -> k_sleep s' = sl /\ k_bufs s' = bs /\ k_disk s' = d /\ k_log s' = k_log s /\
    same_ctl s s' /\ ident <$> k_procs s' = ident <$> k_procs s.
Proof. by intros (j & ps & _ & Hps & ->). Qed.

(** The process [pid] runs, and no spin lock of the cache or of a process is
    held. *)
Record bworld (s : kstate) (pid : Z) : Prop := {
  bw_procs : procs_ok s;
  bw_cur : exists p pr, 0 <= p /\ c_proc (k_cpu s) = Some p /\
    k_procs s !! Z.to_nat p = Some pr /\ p_pid pr = pid;
  bw_cache : lock_free s LBcache;
  bw_sleep : forall i, 0 <= i < NBUF -> lock_free s (LBuf i);
}.

Lemma bupd_world s sl bs d s' pid : bupd s sl bs d s' -> bworld s pid -> bworld s' pid.
Proof.
  intros Hu [(Hc & Hlen & Hl) (p & pr & Hp & Hcp & Hpr & Hid) Hb Hs].
  destruct Hu as (j & ps & _ & Hps & ->).
  assert (Hlen' : length ps = Z.to_nat NPROC).
  { rewrite <- Hlen, <- (length_fmap ident ps), Hps. apply length_fmap. }
  split; [by split|..| |]; try done.
  assert (Hq : (ident <$> ps) !! Z.to_nat p = Some (ident pr)).
  { by rewrite Hps, list_lookup_fmap, Hpr. }
  rewrite list_lookup_fmap in Hq. destruct (ps !! Z.to_nat p) as [q|] eqn:E; [|done].
  exists p, q. unfold ident in Hq. simpl in *. by simplify_eq.
Qed.

Definition slk (s : kstate) (lk : lockid) : sleeplock :=
  default (mkSleep 0 "" 0) (k_sleep s !! lk).

(** The body of a section that looks up the caller. *)
Lemma runs_self s pid Q :
  cpu_ok s -> (exists p pr, 0 <= p /\ c_proc (k_cpu s) = Some p /\
    k_procs s !! Z.to_nat p = Some pr /\ p_pid pr = pid) ->
  (forall pr s', p_pid pr = pid -> intena_only s s' -> Q pr s') ->
  runs ((p <- curproc ;; get_proc p) s) Q.
Proof.
  intros Hc (p & pr & Hp & Hcp & Hpr & Hid) HQ. apply runs_bind.
  apply (runs_curproc s p); [done|done|]. intros s' Hs'.
  rewrite (get_proc_eq s' p pr); [by apply HQ|done|]. by destruct Hs' as (i & _ & ->).
Qed.

(** Inside a section [intena] does not change. *)
Lemma intena_nested s s' : 0 < c_noff (k_cpu s) -> intena_only s s' -> s' = s.
Proof.
  intros Hn (i & Hi & ->). rewrite (Hi Hn). by destruct s as [[] ? ? ? ? ?].
Qed.

Lemma enter_noff s lk : cpu_ok s -> 0 < c_noff (k_cpu (enter lk s)).
Proof. intros (_ & Hn & _). simpl. lia. Qed.

Section sleep.
Context `{W : WaitFuel}.

Lemma acquiresleep_spec s pid i :
  bworld s pid -> (0 < wait_fuel)%nat -> 0 <= i < NBUF -> slk_locked (slk s (LBuf i)) = 0 ->
  runs (acquiresleep (LBuf i) s) (fun _ s' => exists nm,
    bupd s (<[LBuf i := mkSleep 1 nm pid]> (k_sleep s)) (k_bufs s) (k_disk s) s').
Proof.
  intros HW Hf Hi Hfree. destruct HW as [(Hc & Hlen & Hl) Hcur _ Hs].
  unfold acquiresleep. apply runs_bind, runs_acquire; [by apply Hs|].
  set (s1 := enter (LBuf i) s). destruct wait_fuel as [|f]; [lia|]. cbn [while_wait].
  assert (Hg : get_slk (LBuf i) s1 = Ok (slk s (LBuf i)) s1) by done.
  apply runs_bind. apply runs_bind. apply runs_bind. rewrite Hg. cbn [runs ret].
  rewrite Hfree. cbn [Z.eqb negb runs ret].
  rewrite (bind_ok _ _ _ _ _ Hg). apply runs_assoc, runs_bind.
  apply (runs_self s1 pid); [by apply enter_cpu_ok|done|].
  intros pr s2 Hid ->%intena_nested; [|by apply enter_noff].
  unfold put_slk, bind at 1, modify. cbn [rbind].
  apply (runs_release _ s); [done|by apply Hs|done|].
  intros j Hj. exists (slk_name (slk s (LBuf i))). rewrite Hid.
  exists j, (k_procs s). by split.
Qed.

Lemma holdingsleep_spec s pid i nm :
  bworld s pid -> 0 <= i < NBUF -> slk s (LBuf i) = mkSleep 1 nm pid ->
  runs (holdingsleep (LBuf i) s) (fun r s' => r = true /\ intena_only s s').
Proof.
  intros HW Hi Hh. destruct HW as [(Hc & Hlen & Hl) Hcur _ Hs].
  unfold holdingsleep. apply runs_bind, runs_acquire; [by apply Hs|].
  set (s1 := enter (LBuf i) s).
  assert (Hg : get_slk (LBuf i) s1 = Ok (slk s (LBuf i)) s1) by done.
  rewrite (bind_ok _ _ _ _ _ Hg). apply runs_assoc, runs_bind.
  apply (runs_self s1 pid); [by apply enter_cpu_ok|done|].
  intros pr s2 Hid ->%intena_nested; [|by apply enter_noff].
  apply runs_bind. apply (runs_release _ s); [done|by apply Hs|done|].
  intros j Hj. rewrite Hh, Hid. cbn. rewrite Z.eqb_refl. split; [done|].
  exists j. split; [done|]. by destruct s.
Qed.

Lemma woken_pids me ch ps : ident <$> imap (fun i p => woken me ch (Z.of_nat i) p) ps = ident <$> ps.
Proof.
  apply list_eq. intros i. rewrite !list_lookup_fmap, list_lookup_imap.
  destruct (ps !! i) as [p|]; [|done]. simpl. unfold woken. by case_decide.
Qed.

Lemma releasesleep_spec s pid i :
  bworld s pid -> 0 <= i < NBUF ->
  runs (releasesleep (LBuf i) s) (fun _ s' => exists nm,
    bupd s (<[LBuf i := mkSleep 0 nm 0]> (k_sleep s)) (k_bufs s) (k_disk s) s').
Proof.
  intros HW Hi. destruct HW as [(Hc & Hlen & Hl) Hcur _ Hs].
  unfold releasesleep. apply runs_bind, runs_acquire; [by apply Hs|].
  set (s1 := enter (LBuf i) s).
  assert (Hg : get_slk (LBuf i) s1 = Ok (slk s (LBuf i)) s1) by done.
  rewrite (bind_ok _ _ _ _ _ Hg). unfold put_slk, bind at 1, modify. cbn [rbind].
  set (s2 := set_sleep _ s1). apply runs_bind.
  assert (Hok : procs_ok s2).
  { split; [by apply enter_cpu_ok|]. split; [done|].
    intros k Hk. apply (enter_lock_free (LBuf i) (LProc k) s); [done|]. by apply Hl. }
  eapply runs_mono; [by apply (wakeup_at_spec s2 (Some (ChSleepLock (LBuf i))))|].
  intros [] s3 (j0 & Hj0 & ->).
  apply (runs_release _ s); [done|by apply Hs| |].
  { split; [done|]. split; [done|]. cbn [k_cpu set_cpu].
    rewrite Hj0 by (by apply enter_noff). done. }
  intros j Hj. exists (slk_name (slk s (LBuf i))), j. eexists.
  split; [done|]. split; [|reflexivity]. apply woken_pids.
Qed.
End sleep.

(** ** The cache of one device *)

Section contents.
Context (dev : Z).

Definition entry (bs : list buf) (i : Z) (b : buf) : Prop :=
  0 <= i < NBUF /\ bs !! Z.to_nat i = Some b.
Definition caches (bno : Z) (b : buf) : Prop := b_dev b = dev /\ b_blockno b = bno.
#[global] Instance caches_dec bno b : Decision (caches bno b).
Proof. unfold caches. apply _. Defined.

(** The buffer of a block. *)
Definition cbuf (bs : list buf) (bno : Z) : option buf :=
  snd <$> list_find (caches bno) (take (Z.to_nat NBUF) bs).
(** The content of a block as the cache gives it, and the number of users of
    its buffer. *)
Definition view (s : kstate) (bno : Z) : list Z :=
  match cbuf (k_bufs s) bno with
  | Some b => if b_valid b =? 0 then disk_block (k_disk s) bno else b_data b
  | None => disk_block (k_disk s) bno
  end.
Definition rc (s : kstate) (bno : Z) : Z :=
  match cbuf (k_bufs s) bno with Some b => b_refcnt b | None => 0 end.
(** The number of buffers in use. *)
Definition busy (s : kstate) : nat :=
  length (filter (fun b => b_refcnt b <> 0) (take (Z.to_nat NBUF) (k_bufs s))).

(** No block is cached twice. *)
Definition uniq (bs : list buf) : Prop := forall i j bi bj bno,
  entry bs i bi -> entry bs j bj -> caches bno bi -> caches bno bj -> i = j.

Lemma entry_take bs i b :
  entry bs i b <-> 0 <= i /\ take (Z.to_nat NBUF) bs !! Z.to_nat i = Some b.
Proof.
  unfold entry. split.
  - intros [Hi Hb]. split; [lia|]. rewrite lookup_take_lt by lia. done.
  - intros [Hi Hb]. apply lookup_take_Some in Hb as [Hb Hlt]. split; [lia|done].
Qed.

Lemma cbuf_Some bs bno b :
  uniq bs -> cbuf bs bno = Some b <-> exists i, entry bs i b /\ caches bno b.
Proof.
  intros Hu. unfold cbuf. split.
  - destruct (list_find _ _) as [[i b']|] eqn:E; [|done]. intros [= <-].
    apply list_find_Some in E as (Hi & Hc & _). exists (Z.of_nat i). split; [|done].
    apply entry_take. rewrite Nat2Z.id. split; [lia|done].
  - intros (i & Hi & Hc). destruct (list_find (caches bno) (take (Z.to_nat NBUF) bs))
      as [[j b']|] eqn:E.
    + apply list_find_Some in E as (Hj & Hc' & _). simpl. f_equal.
      assert (He : entry bs (Z.of_nat j) b') by (apply entry_take; rewrite Nat2Z.id; split; [lia|done]).
      assert (Hij : i = Z.of_nat j) by (eapply Hu; eauto). subst i.
      destruct Hi as [_ Hi], He as [_ He]. congruence.
    + apply list_find_None in E. apply entry_take in Hi as [_ Hi].
      rewrite Forall_lookup in E. by destruct (E _ _ Hi).
Qed.

Lemma cbuf_None bs bno i b : cbuf bs bno = None -> entry bs i b -> ~ caches bno b.
Proof.
  unfold cbuf. destruct (list_find _ _) eqn:E; [done|]. intros _ Hi.
  apply list_find_None in E. apply entry_take in Hi as [_ Hi].
  rewrite Forall_lookup in E. by apply (E _ _ Hi).
Qed.

Lemma entry_insert bs i x y j b :
  entry bs i x -> entry (<[Z.to_nat i := y]> bs) j b <->
    (j = i /\ b = y) \/ (j <> i /\ entry bs j b).
Proof.
  intros [Hi Hx]. unfold entry. destruct (decide (j = i)) as [->|Hne].
  - rewrite list_lookup_insert_eq by (by eapply lookup_lt_Some). naive_solver.
  - split.
    + intros [Hj Hb]. rewrite list_lookup_insert_ne in Hb by lia. naive_solver.
    + intros [[]|[_ [Hj Hb]]]; [done|]. rewrite list_lookup_insert_ne by lia. done.
Qed.

(** Changing a buffer: it keeps its block, or takes one that is not cached. *)
Definition rekeys (bs : list buf) (x y : buf) : Prop :=
  (b_dev y = b_dev x /\ b_blockno y = b_blockno x) \/
  (b_dev y = dev /\ cbuf bs (b_blockno y) = None).

Lemma uniq_insert bs i x y :
  uniq bs -> entry bs i x -> rekeys bs x y -> uniq (<[Z.to_nat i := y]> bs).
Proof.
  intros Hu Hi Hk j k bj bk bno Hj Hk' Cj Ck.
  apply (entry_insert bs i x y) in Hj, Hk'; try done.
  assert (Hno : forall l bl, entry bs l bl -> caches bno bl -> caches bno y -> l = i).
  { intros l bl Hl Cl Cy. destruct Hk as [[H1 H2]|[H1 H2]].
    - apply (Hu l i bl x bno); try done. destruct Cy. by split; congruence.
    - destruct Cy as [_ <-]. by destruct (cbuf_None _ _ _ _ H2 Hl). }
  destruct Hj as [[-> ->]|[Hne Hj]], Hk' as [[-> ->]|[Hne' Hk']].
  - done.
  - symmetry. by eapply Hno.
  - by eapply Hno.
  - by eapply Hu.
Qed.

Lemma cbuf_insert bs i x y bno :
  uniq bs -> entry bs i x -> rekeys bs x y ->
  cbuf (<[Z.to_nat i := y]> bs) bno =
    if decide (caches bno y) then Some y
    else if decide (caches bno x) then None else cbuf bs bno.
Proof.
  intros Hu Hi Hk. pose proof (uniq_insert bs i x y Hu Hi Hk) as Hu'.
  case_decide as Hy; [|case_decide as Hx].
  - apply cbuf_Some; [done|]. exists i. split; [|done]. apply (entry_insert _ _ x); auto.
  - apply eq_None_not_Some. intros [b Hb]. apply cbuf_Some in Hb as (j & Hj & Hc); [|done].
    apply (entry_insert bs i x y) in Hj as [[-> ->]|[Hne Hj]]; try done.
    destruct Hne. by apply (Hu j i b x bno).
  - apply option_eq. intros b. rewrite !cbuf_Some by done. split.
    + intros (j & Hj & Hc).
      apply (entry_insert bs i x y) in Hj as [[-> ->]|[Hne Hj]]; try done. by exists j.
    + intros (j & Hj & Hc). exists j. split; [|done]. apply (entry_insert bs i x y); [done|].
      right. split; [|done]. intros ->. destruct Hi as [_ Hi], Hj as [_ Hj].
      by simplify_eq.
Qed.

Lemma busy_insert s s' i x y :
  entry (k_bufs s) i x -> k_bufs s' = <[Z.to_nat i := y]> (k_bufs s) ->
  (busy s' + (if decide (b_refcnt x <> 0)%Z then 1 else 0) =
   busy s + (if decide (b_refcnt y <> 0)%Z then 1 else 0))%nat.
Proof.
  intros [Hi Hx] Hs'. unfold busy. rewrite Hs'. set (l := k_bufs s) in *.
  rewrite take_insert_lt by lia.
  assert (Hx' : take (Z.to_nat NBUF) l !! Z.to_nat i = Some x)
    by (rewrite lookup_take_lt by lia; done).
  set (t := take (Z.to_nat NBUF) l) in *. pose proof (lookup_lt_Some _ _ _ Hx') as Hlt.
  rewrite (insert_take_drop t) by done.
  rewrite <- (take_drop_middle t (Z.to_nat i) x Hx') at 3.
  rewrite !filter_app, !length_app, !filter_cons.
  case_decide; case_decide; simpl; lia.
Qed.

(** With fewer than [NBUF] buffers in use, one is free. *)
Lemma busy_free s :
  (Z.to_nat NBUF <= length (k_bufs s))%nat -> Z.of_nat (busy s) < NBUF ->
  exists i b, entry (k_bufs s) i b /\ b_refcnt b = 0.
Proof.
  intros Hl Hb. unfold busy in Hb. set (t := take (Z.to_nat NBUF) (k_bufs s)) in *.
  destruct (decide (Forall (fun b => b_refcnt b <> 0) t)) as [Hall|Hn].
  - assert (Hf : filter (fun b => b_refcnt b <> 0) t = t).
    { clear -Hall. induction Hall as [|b t Hb Hall IH]; [done|].
      rewrite filter_cons_True by done. by rewrite IH. }
    rewrite Hf in Hb. unfold t in Hb. rewrite length_take_le in Hb by lia. lia.
  - apply not_Forall_Exists in Hn; [|apply _]. apply Exists_exists in Hn as (b & Hin & Hz).
    apply list_elem_of_lookup in Hin as [i Hi]. exists (Z.of_nat i), b. split.
    + apply entry_take. rewrite Nat2Z.id. split; [lia|done].
    + destruct (Z.eq_dec (b_refcnt b) 0); [done|by destruct Hz].
Qed.
End contents.

(** ** The invariant

    [H] gives the blocks whose buffers the running process has locked; no
    other process has one locked. *)
Record binv (dev : Z) (s : kstate) (pid : Z) (H : gmap Z Z) : Prop := {
  bi_world : bworld s pid;
  bi_len : length (k_bufs s) = Z.to_nat (NBUF + 1);
  bi_list : exists l, NoDup l /\ (forall i, i ∈ l <-> 0 <= i < NBUF) /\
    path (k_bufs s) bhead l bhead;
  bi_uniq : uniq dev (k_bufs s);
  bi_ref : forall i b, entry (k_bufs s) i b -> 0 <= b_refcnt b < 2^32;
  bi_clean : forall i b, entry (k_bufs s) i b -> b_dev b = dev -> b_refcnt b = 0 ->
    b_valid b <> 0 -> b_data b = disk_block (k_disk s) (b_blockno b);
  bi_held : forall i bno, H !! i = Some bno -> exists b nm, entry (k_bufs s) i b /\
    caches dev bno b /\ b_valid b <> 0 /\ 1 <= b_refcnt b /\
    slk s (LBuf i) = mkSleep 1 nm pid;
  bi_free : forall i, 0 <= i < NBUF -> H !! i = None -> slk_locked (slk s (LBuf i)) = 0;
}.

Section ops.
Context `{W : WaitFuel} (dev : Z).

Lemma entry_is_Some s pid H i :
  binv dev s pid H -> 0 <= i < NBUF -> exists b, entry (k_bufs s) i b.
Proof.
  intros HI Hi. destruct (lookup_lt_is_Some_2 (k_bufs s) (Z.to_nat i)) as [b Hb].
  - rewrite (bi_len _ _ _ _ HI). lia.
  - by exists b.
Qed.

Lemma links_insert bs i x y :
  0 <= i -> bs !! Z.to_nat i = Some x -> b_next y = b_next x -> b_prev y = b_prev x ->
  (forall a, nxt (<[Z.to_nat i := y]> bs) a = nxt bs a) /\
  (forall a, prv (<[Z.to_nat i := y]> bs) a = prv bs a).
Proof.
  intros Hi Hx Hn Hp. split; intros a; unfold nxt, prv; (case_decide; [|done]);
    (destruct (decide (Z.to_nat a = Z.to_nat i)) as [->|Hne];
     [rewrite list_lookup_insert_eq, Hx by (by eapply lookup_lt_Some); simpl; congruence
     |by rewrite list_lookup_insert_ne by done]).
Qed.

(** A change to one buffer that leaves the links alone. *)
Lemma binv_update s s' pid H H' sl i x y :
  binv dev s pid H -> bupd s sl (<[Z.to_nat i := y]> (k_bufs s)) (k_disk s) s' ->
  entry (k_bufs s) i x -> b_next y = b_next x -> b_prev y = b_prev x ->
  rekeys dev (k_bufs s) x y -> 0 <= b_refcnt y < 2^32 ->
  (b_dev y = dev -> b_refcnt y = 0 -> b_valid y <> 0 ->
     b_data y = disk_block (k_disk s) (b_blockno y)) ->
  (forall j, j <> i -> H' !! j = H !! j /\ sl !! LBuf j = k_sleep s !! LBuf j) ->
  match H' !! i with
  | Some bno => caches dev bno y /\ b_valid y <> 0 /\ 1 <= b_refcnt y /\
      exists nm, sl !! LBuf i = Some (mkSleep 1 nm pid)
  | None => slk_locked (default (mkSleep 0 "" 0) (sl !! LBuf i)) = 0
  end ->
  binv dev s' pid H'.
Proof.
  intros [I1 I2 (l & Hnd & Hl & Hp) I4 I5 I6 I7 I8] Hu Hi Hn Hpv Hk Hr Hcl Hoth Hself.
  destruct (bupd_fields _ _ _ _ _ Hu) as (Esl & Ebs & Ed & _). pose proof Hi as [Hi0 Hix].
  assert (He : forall j b, entry (k_bufs s') j b <->
    (j = i /\ b = y) \/ (j <> i /\ entry (k_bufs s) j b))
    by (intros j b; rewrite Ebs; by apply (entry_insert _ _ x)).
  split.
  - by eapply bupd_world.
  - by rewrite Ebs, length_insert.
  - exists l. split; [done|]. split; [done|]. rewrite Ebs.
    destruct (links_insert (k_bufs s) i x y) as [H1 H2]; [lia|done|done|done|].
    eapply path_frame; [| |exact Hp]; auto.
  - rewrite Ebs. by eapply uniq_insert.
  - intros j b [[-> ->]|[_ Hj]]%He; [done|by eapply I5].
  - rewrite Ed. intros j b [[-> ->]|[_ Hj]]%He; [done|by eapply I6].
  - intros j bno Hj. unfold slk. rewrite Esl. destruct (decide (j = i)) as [->|Hne].
    + rewrite Hj in Hself. destruct Hself as (Hc & Hv & Hr1 & nm & Hsl). exists y, nm.
      rewrite Hsl. split; [apply He; by left|]. done.
    + destruct (Hoth j Hne) as [E1 E2]. rewrite E1 in Hj.
      destruct (I7 j bno Hj) as (b & nm & Hb & Hrest). exists b, nm. rewrite E2.
      split; [apply He; by right|done].
  - intros j Hj Hjn. unfold slk. rewrite Esl. destruct (decide (j = i)) as [->|Hne].
    + by rewrite Hjn in Hself.
    + destruct (Hoth j Hne) as [E1 E2]. rewrite E2. apply I8; [done|congruence].
Qed.

(** [bget] finds the block's buffer, or takes one that is free. *)
Definition bget_post (s : kstate) (pid : Z) (H : gmap Z Z) (bno b : Z) (s' : kstate) : Prop :=
  exists x y nm, entry (k_bufs s) b x /\ H !! b = None /\
    bupd s (<[LBuf b := mkSleep 1 nm pid]> (k_sleep s)) (<[Z.to_nat b := y]> (k_bufs s))
      (k_disk s) s' /\
    ((caches dev bno x /\ y = set_b_refcnt (b_refcnt x + 1) x) \/
     (cbuf dev (k_bufs s) bno = None /\ b_refcnt x = 0 /\
      y = set_b_refcnt 1 (set_b_valid 0 (set_b_blockno bno (set_b_dev dev x))))).

(** Leaving the section with buffer [b] as [y], then locking the buffer. *)
Lemma bget_finish s pid H bno b x y :
  binv dev s pid H -> (0 < wait_fuel)%nat -> entry (k_bufs s) b x -> H !! b = None ->
  ((caches dev bno x /\ y = set_b_refcnt (b_refcnt x + 1) x) \/
     (cbuf dev (k_bufs s) bno = None /\ b_refcnt x = 0 /\
      y = set_b_refcnt 1 (set_b_valid 0 (set_b_blockno bno (set_b_dev dev x))))) ->
  runs ((release LBcache ;; acquiresleep (LBuf b) ;; ret b)
    (set_bufs (<[Z.to_nat b := y]> (k_bufs s)) (enter LBcache s)))
    (fun b' s' => bget_post s pid H bno b' s').
Proof.
  intros HI Hf Hb HH Hy. pose proof (bi_world _ _ _ _ HI) as HW.
  apply runs_bind. apply (runs_release _ s); [apply HW|apply HW|done|]. intros j Hj.
  set (s1 := leave _ _ _).
  assert (Hu1 : bupd s (k_sleep s) (<[Z.to_nat b := y]> (k_bufs s)) (k_disk s) s1).
  { exists j, (k_procs s). split; [done|]. split; [done|]. by destruct s. }
  apply runs_bind. eapply runs_mono.
  { apply (acquiresleep_spec s1 pid b); [by eapply bupd_world|done|apply Hb|].
    apply (bi_free _ _ _ _ HI); [apply Hb|done]. }
  intros [] s2 (nm & Hu2). cbn. exists x, y, nm. split; [done|]. split; [done|].
  split; [|done]. by eapply bupd_trans.
Qed.

(** The list as the two scans see it. *)
Lemma cache_list s pid H :
  binv dev s pid H -> exists l h, (forall i, i ∈ l <-> 0 <= i < NBUF) /\
    (length l < Z.to_nat (NBUF + 1))%nat /\ k_bufs s !! Z.to_nat bhead = Some h /\
    visits b_next (k_bufs s) (b_next h) l /\ visits b_prev (k_bufs s) (b_prev h) (reverse l).
Proof.
  intros HI. destruct (bi_list _ _ _ _ HI) as (l & Hnd & Hl & Hp).
  assert (Hlr : Forall (fun i => 0 <= i < NBUF) l) by (apply Forall_forall; intros i; apply Hl).
  destruct (lookup_lt_is_Some_2 (k_bufs s) (Z.to_nat bhead)) as [h Hh].
  { rewrite (bi_len _ _ _ _ HI). unfold bhead, NBUF, MAXOPBLOCKS. lia. }
  destruct (path_visits_next _ _ _ Hlr Hp) as (n & Hn & Hv).
  destruct (path_visits_prev _ _ _ Hlr Hp) as (m & Hm & Hw).
  unfold nxt in Hn. unfold prv in Hm. rewrite decide_True, Hh in Hn, Hm by done.
  injection Hn as <-. injection Hm as <-. exists l, h. split; [done|]. split; [|done].
  assert (Hs : l ⊆+ seqZ 0 NBUF).
  { apply NoDup_submseteq; [done|]. intros i Hi. apply elem_of_seqZ. apply Hl in Hi. lia. }
  apply submseteq_length in Hs. rewrite length_seqZ in Hs. unfold NBUF, MAXOPBLOCKS in *. lia.
Qed.

Lemma list_is_Some s pid H (l : list Z) j :
  binv dev s pid H -> (forall i, i ∈ l <-> 0 <= i < NBUF) -> j ∈ l -> is_Some (k_bufs s !! Z.to_nat j).
Proof.
  intros HI Hl Hj. destruct (entry_is_Some s pid H j HI) as [b [_ Hb]]; [by apply Hl|by exists b].
Qed.

(** The first scan of [bget]. *)
Definition is_block (bno : Z) (b : buf) : bool := (b.(b_dev) =? dev) && (b.(b_blockno) =? bno).
Lemma is_block_true bno b : is_block bno b = true <-> caches dev bno b.
Proof. unfold is_block, caches. by rewrite andb_true_iff, !Z.eqb_eq. Qed.

Lemma scan_miss s pid H l bno :
  binv dev s pid H -> (forall i, i ∈ l <-> 0 <= i < NBUF) ->
  scan (k_bufs s) (is_block bno) l = None <-> cbuf dev (k_bufs s) bno = None.
Proof.
  intros HI Hl. split.
  - intros Hs. apply eq_None_not_Some. intros [x Hx].
    apply cbuf_Some in Hx as (b & [Hb Hx] & Hc); [|apply HI]. apply is_block_true in Hc.
    assert (Hf : is_block bno x = false); [|congruence].
    apply (scan_None (k_bufs s) _ l b); [|done|by apply Hl|done].
    intros j. by apply (list_is_Some s pid H l).
  - intros Hn. destruct (scan _ _ l) as [b|] eqn:E; [|done].
    apply scan_Some in E as (Hb & x & Hx & Hf). apply is_block_true in Hf. exfalso.
    apply (cbuf_None dev _ _ b x Hn); [|done]. split; [by apply Hl|done].
Qed.

(** The head of [bget]: either way the first scan is over. *)
Lemma bget_scan s pid H bno l h :
  binv dev s pid H -> (forall i, i ∈ l <-> 0 <= i < NBUF) -> (length l < Z.to_nat (NBUF + 1))%nat ->
  k_bufs s !! Z.to_nat bhead = Some h -> visits b_next (k_bufs s) (b_next h) l ->
  visits b_prev (k_bufs s) (b_prev h) (reverse l) ->
  let s1 := enter LBcache s in
  get_buf bhead s1 = Ok h s1 /\
  bscan (Z.to_nat (NBUF + 1)) b_next (is_block bno) (b_next h) s1 =
    Ok (scan (k_bufs s) (is_block bno) l) s1 /\
  bscan (Z.to_nat (NBUF + 1)) b_prev (fun b => b.(b_refcnt) =? 0) (b_prev h) s1 =
    Ok (scan (k_bufs s) (fun b => b.(b_refcnt) =? 0) (reverse l)) s1.
Proof.
  intros HI Hl Hlen Hh Hv Hw s1. split; [by apply get_buf_eq|]. split.
  - by apply (bscan_eq _ b_next _ _ l s1).
  - apply (bscan_eq _ b_prev _ _ (reverse l) s1); [done|by rewrite length_reverse].
Qed.

Lemma bget_spec s pid H bno :
  binv dev s pid H -> (0 < wait_fuel)%nat -> (forall i, H !! i <> Some bno) ->
  rc dev s bno < 2^32 - 1 -> (cbuf dev (k_bufs s) bno = None -> Z.of_nat (busy s) < NBUF) ->
  runs (bget dev bno s) (bget_post s pid H bno).
Proof.
  intros HI Hf HH Hrc Hroom. pose proof (bi_world _ _ _ _ HI) as HW.
  destruct (cache_list s pid H HI) as (l & h & Hl & Hlen & Hh & Hv & Hw).
  destruct (bget_scan s pid H bno l h HI Hl Hlen Hh Hv Hw) as (Hg & Hs1 & Hs2).
  unfold bget. apply runs_bind, runs_acquire; [apply HW|]. set (s1 := enter LBcache s) in *.
  rewrite (bind_ok _ _ _ _ _ Hg), (bind_ok _ _ _ _ _ Hs1).
  destruct (scan (k_bufs s) (is_block bno) l) as [b|] eqn:Esc.
  - apply scan_Some in Esc as (Hb & x & Hx & Hfx). apply Hl in Hb. apply is_block_true in Hfx.
    assert (He : entry (k_bufs s) b x) by done.
    assert (Hcb : cbuf dev (k_bufs s) bno = Some x)
      by (apply cbuf_Some; [apply HI|by exists b]).
    unfold rc in Hrc. rewrite Hcb in Hrc. pose proof (bi_ref _ _ _ _ HI b x He) as Hr.
    rewrite (bind_ok _ _ _ _ _ (upd_buf_eq s1 b x _ (proj1 Hb) Hx)).
    replace (u32 (b_refcnt x + 1)) with (b_refcnt x + 1) by (unfold u32; rewrite Z.mod_small; lia).
    apply (bget_finish s pid H bno b x); [done|done|done| |by left].
    destruct (H !! b) as [bno'|] eqn:E; [|done]. exfalso.
    destruct (bi_held _ _ _ _ HI b bno' E) as (x' & nm & [_ Hx'] & [_ Hc] & _).
    destruct Hfx as [_ Hc']. apply (HH b). rewrite E. f_equal. simplify_eq. congruence.
  - apply (scan_miss s pid H l bno HI Hl) in Esc.
    rewrite (bind_ok _ _ _ _ _ Hg), (bind_ok _ _ _ _ _ Hs2).
    destruct (scan (k_bufs s) _ (reverse l)) as [b|] eqn:Esc'.
    + apply scan_Some in Esc' as (Hb & x & Hx & Hgx). rewrite elem_of_reverse in Hb. apply Hl in Hb.
      apply Z.eqb_eq in Hgx. assert (He : entry (k_bufs s) b x) by done.
      rewrite (bind_ok _ _ _ _ _ (upd_buf_eq s1 b x _ (proj1 Hb) Hx)).
      apply (bget_finish s pid H bno b x); [done|done|done| |by right].
      destruct (H !! b) as [bno'|] eqn:E; [|done]. exfalso.
      destruct (bi_held _ _ _ _ HI b bno' E) as (x' & nm & [_ Hx'] & _ & _ & Hr & _).
      simplify_eq. lia.
    + exfalso. destruct (busy_free s) as (b & x & [Hb Hx] & Hz);
        [rewrite (bi_len _ _ _ _ HI); lia|by apply Hroom|].
      pose proof (scan_None (k_bufs s) _ (reverse l) b x
        ltac:(intros j Hj; apply (list_is_Some s pid H l); [done|done|by apply elem_of_reverse])
        Esc' ltac:(apply elem_of_reverse; by apply Hl) Hx) as Hg0. cbv beta in Hg0. lia.
Qed.

(** With every buffer in use, a block that is not cached cannot be read. *)
Lemma bget_full s pid H bno :
  binv dev s pid H -> cbuf dev (k_bufs s) bno = None ->
  (forall i b, entry (k_bufs s) i b -> b_refcnt b <> 0) ->
  bget dev bno s = Stop (Panicked "bget: no buffers").
Proof.
  intros HI Hn Hall. pose proof (bi_world _ _ _ _ HI) as HW.
  destruct (cache_list s pid H HI) as (l & h & Hl & Hlen & Hh & Hv & Hw).
  destruct (bget_scan s pid H bno l h HI Hl Hlen Hh Hv Hw) as (Hg & Hs1 & Hs2).
  unfold bget. rewrite (bind_ok _ _ _ _ _ (acquire_eq s LBcache (bw_cache _ _ HW))).
  set (s1 := enter LBcache s) in *. rewrite (bind_ok _ _ _ _ _ Hg), (bind_ok _ _ _ _ _ Hs1).
  rewrite (proj2 (scan_miss s pid H l bno HI Hl) Hn).
  rewrite (bind_ok _ _ _ _ _ Hg), (bind_ok _ _ _ _ _ Hs2).
  destruct (scan (k_bufs s) _ (reverse l)) as [b|] eqn:E; [|done].
  apply scan_Some in E as (Hb & x & Hx & Hz). exfalso. apply (Hall b x).
  - split; [apply Hl; by apply elem_of_reverse|done].
  - by apply Z.eqb_eq.
Qed.

(** ** The operations as a cache *)

Definition bframe (s s' : kstate) : Prop := exists sl bs d, bupd s sl bs d s'.

#[export] Instance bframe_preorder : PreOrder bframe.
Proof.
  split.
  - intros s. exists (k_sleep s), (k_bufs s), (k_disk s). apply bupd_refl.
  - intros s1 s2 s3 (sl & bs & d & H1) (sl' & bs' & d' & H2). exists sl', bs', d'.
    by eapply bupd_trans.
Qed.

(** How contents and users change when one buffer is replaced. *)
Lemma view_insert s s' pid H sl i x y bno :
  binv dev s pid H -> bupd s sl (<[Z.to_nat i := y]> (k_bufs s)) (k_disk s) s' ->
  entry (k_bufs s) i x -> rekeys dev (k_bufs s) x y -> caches dev bno y -> b_valid y <> 0 ->
  (caches dev bno x \/ b_refcnt x = 0) ->
  (forall w, view dev s' w = if decide (w = bno) then b_data y else view dev s w) /\
  (forall w, rc dev s' w = if decide (w = bno) then b_refcnt y else rc dev s w).
Proof.
  intros HI Hu Hi Hk Hy Hv Hx. destruct (bupd_fields _ _ _ _ _ Hu) as (_ & Ebs & Ed & _).
  assert (Hc : forall w, caches dev w y <-> w = bno) by (intros w; unfold caches in *; naive_solver).
  assert (Hd : forall w, w <> bno -> caches dev w x ->
    view dev s w = disk_block (k_disk s) w /\ rc dev s w = 0).
  { intros w Hw Hcx. destruct Hx as [Hx|Hx]; [destruct Hx, Hcx; congruence|].
    assert (Hcb : cbuf dev (k_bufs s) w = Some x) by (apply cbuf_Some; [apply HI|by exists i]).
    unfold view, rc. rewrite Hcb. split; [|done]. destruct (Z.eqb_spec (b_valid x) 0); [done|].
    destruct Hcx as [H1 <-]. by apply (bi_clean _ _ _ _ HI i). }
  split; intros w; unfold view at 1 || unfold rc at 1; rewrite Ebs, ?Ed,
    (cbuf_insert dev _ i x y) by (done || apply HI); rewrite (decide_ext (caches dev w y) (w = bno) _ _ (Hc w)).
  - case_decide as Hw; [by destruct (Z.eqb_spec (b_valid y) 0)|].
    case_decide as Hcx; [|done]. by rewrite (proj1 (Hd w Hw Hcx)).
  - case_decide as Hw; [done|]. case_decide as Hcx; [|done]. by rewrite (proj2 (Hd w Hw Hcx)).
Qed.

Lemma rc_caches s pid H i x bno :
  binv dev s pid H -> entry (k_bufs s) i x -> caches dev bno x ->
  rc dev s bno = b_refcnt x /\
  view dev s bno = if b_valid x =? 0 then disk_block (k_disk s) bno else b_data x.
Proof.
  intros HI Hi Hc. assert (Hcb : cbuf dev (k_bufs s) bno = Some x)
    by (apply cbuf_Some; [apply HI|by exists i]).
  unfold rc, view. by rewrite Hcb.
Qed.

Record opened (s : kstate) (pid : Z) (H : gmap Z Z) (bno b : Z) (s' : kstate) : Prop := {
  op_fresh : H !! b = None;
  op_inv : binv dev s' pid (<[b := bno]> H);
  op_frame : bframe s s';
  op_disk : k_disk s' = k_disk s;
  op_view : forall w, view dev s' w = view dev s w;
  op_rc : forall w, rc dev s' w = if decide (w = bno) then rc dev s w + 1 else rc dev s w;
  op_busy : busy s' = (busy s + if decide (rc dev s bno = 0)%Z then 1 else 0)%nat;
}.

(** From [bget] to a valid buffer [z]. *)
Lemma opened_intro s pid H bno b x y z sl s' :
  binv dev s pid H -> entry (k_bufs s) b x -> H !! b = None -> rc dev s bno < 2^32 - 1 ->
  ((caches dev bno x /\ y = set_b_refcnt (b_refcnt x + 1) x) \/
   (cbuf dev (k_bufs s) bno = None /\ b_refcnt x = 0 /\
    y = set_b_refcnt 1 (set_b_valid 0 (set_b_blockno bno (set_b_dev dev x))))) ->
  z = (if b_valid y =? 0
       then set_b_valid 1 (set_b_data (disk_block (k_disk s) (b_blockno y)) y) else y) ->
  (exists nm, sl = <[LBuf b := mkSleep 1 nm pid]> (k_sleep s)) ->
  bupd s sl (<[Z.to_nat b := z]> (k_bufs s)) (k_disk s) s' ->
  opened s pid H bno b s'.
Proof.
  intros HI Hb HH Hrc Hy Hz (nm & Hsl) Hu.
  pose proof (bi_ref _ _ _ _ HI b x Hb) as Hr.
  assert (Hcy : caches dev bno y) by (destruct Hy as [[[] ->]|(_ & _ & ->)]; done).
  assert (Hcz : caches dev bno z) by (rewrite Hz; by destruct (_ =? 0)).
  assert (Hvz : b_valid z <> 0) by (rewrite Hz; destruct (Z.eqb_spec (b_valid y) 0); simpl; lia).
  assert (Hlinks : b_next z = b_next x /\ b_prev z = b_prev x)
    by (rewrite Hz; destruct Hy as [[_ ->]|(_ & _ & ->)]; by destruct (_ =? 0)).
  assert (Hkeys : rekeys dev (k_bufs s) x z).
  { destruct Hy as [[[H1 H2] _]|(Hn & _ & _)]; destruct Hcz as [E1 E2];
      [left; split; congruence|right; split; [done|by rewrite E2]]. }
  assert (Hrz : b_refcnt z = rc dev s bno + 1 /\ 0 <= rc dev s bno /\
    (b_refcnt x = 0 <-> rc dev s bno = 0)).
  { rewrite Hz. destruct Hy as [[Hc ->]|(Hn & H0 & ->)].
    - destruct (rc_caches s pid H b x bno HI Hb Hc) as [-> _].
      split; [by destruct (_ =? 0)|]. split; [lia|done].
    - unfold rc. rewrite Hn. split; [by destruct (_ =? 0)|]. split; [lia|done]. }
  destruct Hrz as (Hrz & Hrc0 & Hiff).
  assert (Hdz : b_data z = view dev s bno).
  { rewrite Hz. destruct Hy as [[Hc ->]|(Hn & H0 & ->)]; simpl.
    - destruct (rc_caches s pid H b x bno HI Hb Hc) as [_ ->]. destruct Hc as [_ ->].
      by destruct (_ =? 0).
    - unfold view. by rewrite Hn. }
  destruct (view_insert s s' pid H sl b x z bno HI Hu Hb Hkeys Hcz Hvz) as [Hview Hrcs].
  { destruct Hy as [[Hc _]|(_ & H0 & _)]; auto. }
  split.
  - done.
  - eapply (binv_update s s' pid H); [done|exact Hu|done|apply Hlinks|apply Hlinks|done|lia| | |].
    + intros _ Hz0. lia.
    + intros j Hj. split; [by rewrite lookup_insert_ne|]. rewrite Hsl.
      rewrite lookup_insert_ne; [done|congruence].
    + rewrite lookup_insert_eq. split; [done|]. split; [done|]. split; [lia|].
      exists nm. rewrite Hsl. apply lookup_insert_eq.
  - by exists sl, (<[Z.to_nat b := z]> (k_bufs s)), (k_disk s).
  - by destruct (bupd_fields _ _ _ _ _ Hu) as (_ & _ & -> & _).
  - intros w. rewrite Hview. case_decide as Hw; [|done]. by rewrite Hdz, Hw.
  - intros w. rewrite Hrcs. case_decide as Hw; [|done]. by rewrite Hrz, Hw.
  - destruct (bupd_fields _ _ _ _ _ Hu) as (_ & Ebs & _).
    pose proof (busy_insert s s' b x z Hb Ebs) as Hbz. rewrite Hrz in Hbz.
    repeat case_decide; try lia; tauto.
Qed.

Lemma bread_spec `{D : BlockDev, !BlockDevOk D} s pid H bno :
  binv dev s pid H -> (0 < wait_fuel)%nat -> (forall i, H !! i <> Some bno) ->
  rc dev s bno < 2^32 - 1 -> (rc dev s bno = 0 -> Z.of_nat (busy s) < NBUF) ->
  runs (bread dev bno s) (opened s pid H bno).
Proof.
  intros HI Hf HH Hrc Hroom. unfold bread. apply runs_bind.
  eapply runs_mono; [apply (bget_spec s pid H bno); try done|].
  { intros Hn. apply Hroom. unfold rc. by rewrite Hn. }
  intros b s1 (x & y & nm & Hb & HHb & Hu & Hy).
  destruct (bupd_fields _ _ _ _ _ Hu) as (_ & Ebs & Ed & _). pose proof Hb as [Hb0 Hbx].
  assert (Hlt : (Z.to_nat b < length (k_bufs s))%nat) by (by eapply lookup_lt_Some).
  assert (Hby : k_bufs s1 !! Z.to_nat b = Some y) by (rewrite Ebs; by apply list_lookup_insert_eq).
  rewrite (bind_ok _ _ _ _ _ (get_buf_eq s1 b y (proj1 Hb0) Hby)). apply runs_bind.
  destruct (Z.eqb_spec (b_valid y) 0) as [Hv|Hv].
  - rewrite (bind_ok _ _ _ _ _ (rw_read b s1 y Hby (proj1 Hb0))). set (s2 := set_bufs _ s1).
    assert (Hb2 : k_bufs s2 !! Z.to_nat b =
      Some (set_b_data (disk_block (k_disk s1) (b_blockno y)) y))
      by (apply list_lookup_insert_eq; by eapply lookup_lt_Some).
    rewrite (upd_buf_eq s2 b _ _ (proj1 Hb0) Hb2). cbn [runs ret]. unfold s2. cbn [k_bufs set_bufs].
    rewrite list_insert_insert_eq, Ebs, list_insert_insert_eq, Ed.
    eapply (opened_intro s pid H bno b x y (set_b_valid 1 (set_b_data
      (disk_block (k_disk s) (b_blockno y)) y))); try done; [by rewrite Hv|by exists nm|].
    eapply bupd_trans; [exact Hu|].
    destruct (bupd_fields _ _ _ _ _ Hu) as (Esl & _). rewrite <- Esl, <- Ed.
    by destruct (bupd_bufs s1 (<[Z.to_nat b := set_b_valid 1 (set_b_data
      (disk_block (k_disk s1) (b_blockno y)) y)]> (k_bufs s))) as (j & ps & ?); exists j, ps.
  - cbn [runs ret]. eapply (opened_intro s pid H bno b x y y); try done; [|by exists nm].
    by destruct (Z.eqb_spec (b_valid y) 0).
Qed.

Lemma disk_apply_app m ws ws' : disk_apply m (ws ++ ws') = disk_apply (disk_apply m ws) ws'.
Proof.
  revert m. induction ws as [|[b bs] ws IH]; intros m; simpl; [done|]. by rewrite IH.
Qed.
Lemma disk_block_write d b bs w :
  disk_block (disk_write b bs d) w = if decide (w = b) then bs else disk_block d w.
Proof.
  unfold disk_block, disk_write. simpl. rewrite disk_apply_app. simpl.
  case_decide as Hw; [subst; by rewrite lookup_insert_eq|by rewrite lookup_insert_ne].
Qed.

(** The buffer behind a locked block. *)
Lemma held_entry s pid H b bno :
  binv dev s pid H -> H !! b = Some bno -> exists x nm, entry (k_bufs s) b x /\
    caches dev bno x /\ b_valid x <> 0 /\ b_data x = view dev s bno /\
    b_refcnt x = rc dev s bno /\ 1 <= rc dev s bno < 2^32 /\
    slk s (LBuf b) = mkSleep 1 nm pid.
Proof.
  intros HI Hb. destruct (bi_held _ _ _ _ HI b bno Hb) as (x & nm & He & Hc & Hv & Hr & Hs).
  exists x, nm. destruct (rc_caches s pid H b x bno HI He Hc) as [-> ->].
  destruct (Z.eqb_spec (b_valid x) 0); [done|]. pose proof (bi_ref _ _ _ _ HI b x He).
  do 5 (split; [done|]). split; [lia|done].
Qed.

Lemma binv_intena s s' pid H : intena_only s s' -> binv dev s pid H -> binv dev s' pid H.
Proof.
  intros (j & _ & ->) [[A1 A2 A3 A4] I2 I3 I4 I5 I6 I7 I8]. by split; [split|..].
Qed.
Lemma intena_bframe s s' : intena_only s s' -> bupd s (k_sleep s) (k_bufs s) (k_disk s) s'.
Proof.
  intros (j & Hj & ->). exists j, (k_procs s). split; [done|]. split; [done|]. by destruct s.
Qed.

Record stored (s : kstate) (pid : Z) (H : gmap Z Z) (d : disk_t) (v : Z -> list Z)
    (s' : kstate) : Prop := {
  so_inv : binv dev s' pid H;
  so_frame : bframe s s';
  so_disk : k_disk s' = d;
  so_view : forall w, view dev s' w = v w;
  so_rc : forall w, rc dev s' w = rc dev s w;
  so_busy : busy s' = busy s;
}.

Lemma bwrite_spec `{D : BlockDev, !BlockDevOk D} s pid H b bno :
  binv dev s pid H -> H !! b = Some bno ->
  runs (bwrite b s) (fun _ => stored s pid H (disk_write bno (view dev s bno) (k_disk s)) (view dev s)).
Proof.
  intros HI Hb. destruct (held_entry s pid H b bno HI Hb) as (x & nm & He & Hc & Hv & Hd & Hr & Hr1 & Hs).
  unfold bwrite. apply runs_bind.
  eapply runs_mono; [apply (holdingsleep_spec s pid b nm); [apply HI|apply He|done]|].
  intros h s1 [-> Hs1]. cbn [negb]. pose proof (binv_intena _ _ _ _ Hs1 HI) as HI1.
  pose proof (intena_bframe _ _ Hs1) as Hu1.
  destruct (bupd_fields _ _ _ _ _ Hu1) as (_ & Ebs & Ed & _).
  rewrite (rw_write b s1 x) by (rewrite ?Ebs; apply He). cbn [runs].
  destruct Hc as [Hc1 Hc2]. rewrite Hc2, Hd, Ed.
  set (d := disk_write _ _ _). set (s2 := set_disk d s1).
  assert (Hu2 : bupd s (k_sleep s) (k_bufs s) d s2).
  { eapply bupd_trans; [exact Hu1|]. pose proof (bupd_disk s1 d) as Hu.
    destruct (bupd_fields _ _ _ _ _ Hu1) as (Esl & _). by rewrite Esl, Ebs in Hu. }
  assert (Hvw : forall w, view dev s2 w = view dev s w).
  { intros w. unfold view. change (k_bufs s2) with (k_bufs s1). change (k_disk s2) with d. rewrite Ebs.
    unfold d. rewrite disk_block_write. case_decide as Hw; [|done]. subst w.
    assert (Hcb : cbuf dev (k_bufs s) bno = Some x) by (apply cbuf_Some; [apply HI|by exists b]).
    rewrite Hcb. by destruct (Z.eqb_spec (b_valid x) 0). }
  split; try done.
  - destruct HI1 as [A1 A2 A3 A4 A5 A6 A7 A8]. split; try done.
    + by eapply bupd_world; [apply (bupd_disk s1 d)|].
    + intros i y Hi Hdy Hy0 Hvy. change (k_disk s2) with d. unfold d. rewrite disk_block_write.
      case_decide as Hw; [|rewrite <- Ed; by eapply A6]. exfalso.
      assert (i = b) as ->.
      { eapply (A4 i b y x bno); [done|split; [apply He|]; rewrite Ebs; apply He|by split|by split]. }
      change (k_bufs s2) with (k_bufs s1) in Hi. rewrite Ebs in Hi.
      destruct Hi as [_ Hi], He as [_ He]. simplify_eq. lia.
  - by exists (k_sleep s), (k_bufs s), d.
  - intros w. unfold rc. change (k_bufs s2) with (k_bufs s1). by rewrite Ebs.
  - unfold busy. change (k_bufs s2) with (k_bufs s1). by rewrite Ebs.
Qed.

(** Writing to the data of a locked buffer. *)
Lemma set_data_spec s pid H b bno f :
  binv dev s pid H -> H !! b = Some bno ->
  runs (upd_buf b (fun x => set_b_data (f x.(b_data)) x) s) (fun _ =>
    stored s pid H (k_disk s) (fun w => if decide (w = bno) then f (view dev s bno) else view dev s w)).
Proof.
  intros HI Hb. destruct (held_entry s pid H b bno HI Hb) as (x & nm & He & Hc & Hv & Hd & Hr & Hr1 & Hs).
  pose proof He as [He0 Hex]. rewrite (upd_buf_eq s b x _ (proj1 He0) Hex). cbn [runs].
  set (y := set_b_data _ x). pose proof (bupd_bufs s (<[Z.to_nat b := y]> (k_bufs s))) as Hu.
  assert (Hk : rekeys dev (k_bufs s) x y) by (by left).
  destruct (view_insert s _ pid H _ b x y bno HI Hu He Hk Hc Hv) as [Hvw Hrw]; [by left|].
  split; try done.
  - eapply (binv_update s _ pid H); [done|exact Hu|done|done|done|done|simpl; lia| |done|].
    + intros _ Hz. simpl in Hz. lia.
    + rewrite Hb. split; [done|]. split; [done|]. split; [simpl; lia|]. exists nm.
      unfold slk in Hs. destruct (k_sleep s !! LBuf b); simpl in Hs; [by f_equal|done].
  - by exists (k_sleep s), (<[Z.to_nat b := y]> (k_bufs s)), (k_disk s).
  - intros w. rewrite Hvw. unfold y. simpl. by rewrite Hd.
  - intros w. rewrite Hrw. case_decide as Hw; [|done]. by rewrite Hw.
  - pose proof (busy_insert s (set_bufs (<[Z.to_nat b := y]> (k_bufs s)) s) b x y He eq_refl) as Hbz. simpl in Hbz. case_decide; lia.
Qed.

(** ** Moving a buffer to the front *)

Definition strip (b : buf) : buf := set_b_prev 0 (set_b_next 0 b).

Lemma strip_insert (bs : list buf) i x y :
  bs !! Z.to_nat i = Some x -> strip y = strip x ->
  strip <$> <[Z.to_nat i := y]> bs = strip <$> bs.
Proof.
  intros Hx He. rewrite list_fmap_insert, He. apply list_insert_id.
  by rewrite list_lookup_fmap, Hx.
Qed.

(** One assignment to a link. *)
Lemma set_next_run i v s :
  0 <= i -> is_Some (k_bufs s !! Z.to_nat i) ->
  exists bs, upd_buf i (set_b_next v) s = Ok tt (set_bufs bs s) /\
    strip <$> bs = strip <$> k_bufs s /\ nxt bs i = Some v /\
    (forall a, a <> i -> nxt bs a = nxt (k_bufs s) a) /\
    (forall a, prv bs a = prv (k_bufs s) a).
Proof.
  intros Hi [x Hx]. exists (<[Z.to_nat i := set_b_next v x]> (k_bufs s)).
  assert (Hlt : (Z.to_nat i < length (k_bufs s))%nat) by (by eapply lookup_lt_Some).
  split; [by apply upd_buf_eq|]. split; [by apply (strip_insert _ _ x)|].
  unfold nxt, prv. split; [rewrite decide_True, list_lookup_insert_eq by done; done|]. split.
  - intros a Ha. case_decide; [|done]. rewrite list_lookup_insert_ne by lia. done.
  - intros a. case_decide; [|done]. destruct (decide (a = i)) as [->|].
    + by rewrite list_lookup_insert_eq, Hx by done.
    + by rewrite list_lookup_insert_ne by lia.
Qed.
Lemma set_prev_run i v s :
  0 <= i -> is_Some (k_bufs s !! Z.to_nat i) ->
  exists bs, upd_buf i (set_b_prev v) s = Ok tt (set_bufs bs s) /\
    strip <$> bs = strip <$> k_bufs s /\ prv bs i = Some v /\
    (forall a, a <> i -> prv bs a = prv (k_bufs s) a) /\
    (forall a, nxt bs a = nxt (k_bufs s) a).
Proof.
  intros Hi [x Hx]. exists (<[Z.to_nat i := set_b_prev v x]> (k_bufs s)).
  assert (Hlt : (Z.to_nat i < length (k_bufs s))%nat) by (by eapply lookup_lt_Some).
  split; [by apply upd_buf_eq|]. split; [by apply (strip_insert _ _ x)|].
  unfold nxt, prv. split; [rewrite decide_True, list_lookup_insert_eq by done; done|]. split.
  - intros a Ha. case_decide; [|done]. rewrite list_lookup_insert_ne by lia. done.
  - intros a. case_decide; [|done]. destruct (decide (a = i)) as [->|].
    + by rewrite list_lookup_insert_eq, Hx by done.
    + by rewrite list_lookup_insert_ne by lia.
Qed.

Lemma strip_is_Some (bs bs' : list buf) i :
  strip <$> bs' = strip <$> bs -> is_Some (bs !! i) -> is_Some (bs' !! i).
Proof.
  intros He [x Hx]. assert (Hl : (strip <$> bs') !! i = Some (strip x))
    by (by rewrite He, list_lookup_fmap, Hx).
  rewrite list_lookup_fmap in Hl. destruct (bs' !! i); [by eexists|done].
Qed.
Lemma prv_is_Some bs i : is_Some (prv bs i) -> 0 <= i /\ is_Some (bs !! Z.to_nat i).
Proof.
  unfold prv. case_decide; [|by intros []]. destruct (bs !! Z.to_nat i); [|by intros []]. by split.
Qed.
Lemma nxt_is_Some bs i : is_Some (nxt bs i) -> 0 <= i /\ is_Some (bs !! Z.to_nat i).
Proof.
  unfold nxt. case_decide; [|by intros []]. destruct (bs !! Z.to_nat i); [|by intros []]. by split.
Qed.

(** The neighbours of an element of the list. *)
Lemma path_around bs x l1 b l2 y :
  path bs x (l1 ++ b :: l2) y -> exists p n, linked bs p b /\ linked bs b n /\
    (p = x \/ p ∈ l1) /\ (n = y \/ n ∈ l2).
Proof.
  rewrite path_app. intros [H1 H2].
  assert (Hp : exists p, linked bs p b /\ (p = x \/ p ∈ l1)).
  { revert x H1. induction l1 as [|z l1 IH]; intros x H1; simpl in *.
    - exists x. auto.
    - destruct H1 as [_ H1]. destruct (IH z H1) as (p & Hp & Hin). exists p. set_solver. }
  assert (Hn : exists n, linked bs b n /\ (n = y \/ n ∈ l2)).
  { destruct l2 as [|z l2]; simpl in *; [exists y; auto|]. exists z. set_solver. }
  destruct Hp as (p & Hp & Hp'), Hn as (n & Hn & Hn'). by exists p, n.
Qed.

Definition unlink (x : buf) : K unit :=
  upd_buf x.(b_next) (set_b_prev x.(b_prev)) ;; upd_buf x.(b_prev) (set_b_next x.(b_next)).
Definition push_front (b : Z) : K unit :=
  h <- get_buf bhead ;;
  upd_buf b (set_b_next h.(b_next)) ;;
  upd_buf b (set_b_prev bhead) ;;
  upd_buf h.(b_next) (set_b_prev b) ;;
  upd_buf bhead (set_b_next b).

Lemma unlink_run s x b l1 l2 :
  NoDup (bhead :: l1 ++ b :: l2) -> path (k_bufs s) bhead (l1 ++ b :: l2) bhead ->
  k_bufs s !! Z.to_nat b = Some x -> 0 <= b ->
  exists bs, unlink x s = Ok tt (set_bufs bs s) /\ strip <$> bs = strip <$> k_bufs s /\
    path bs bhead (l1 ++ l2) bhead.
Proof.
  intros Hnd Hp Hx Hb. destruct (path_around _ _ _ _ _ _ Hp) as (p & n & Hpb & Hbn & Hp' & Hn').
  pose proof Hpb as [Hpb1 Hpb2]. pose proof Hbn as [Hbn1 Hbn2].
  assert (Hxn : b_next x = n /\ b_prev x = p).
  { unfold nxt, prv in *. rewrite decide_True, Hx in Hbn1, Hpb2 by done. by simplify_eq/=. }
  destruct Hxn as [Hxn Hxp]. unfold unlink. rewrite Hxn, Hxp.
  destruct (prv_is_Some (k_bufs s) n) as [Hn0 Hns]; [by eexists|].
  destruct (nxt_is_Some (k_bufs s) p) as [Hp0 Hps]; [by eexists|].
  destruct (set_prev_run n p s Hn0 Hns) as (bs1 & E1 & S1 & P1 & P1' & N1).
  rewrite (bind_ok _ _ _ _ _ E1).
  destruct (set_next_run p n (set_bufs bs1 s) Hp0) as (bs2 & E2 & S2 & N2 & N2' & P2);
    [by eapply strip_is_Some|]. cbn [k_bufs set_bufs] in *.
  exists bs2. split; [exact E2|]. split; [congruence|].
  rewrite path_app in Hp. destruct Hp as [Ha Hc].
  apply (path_join (k_bufs s) bs2 b p n); try done.
  - by rewrite P2.
  - intros a Ha'. by rewrite N2'.
  - intros a Ha'. by rewrite P2, P1'.
  - rewrite NoDup_cons in Hnd. tauto.
Qed.

Lemma push_front_run s b l :
  NoDup (bhead :: l) -> b ∉ l -> 0 <= b < NBUF -> is_Some (k_bufs s !! Z.to_nat b) ->
  path (k_bufs s) bhead l bhead ->
  exists bs, push_front b s = Ok tt (set_bufs bs s) /\ strip <$> bs = strip <$> k_bufs s /\
    path bs bhead (b :: l) bhead.
Proof.
  intros Hnd Hbl Hb Hbs Hp. assert (Hbh : b <> bhead) by (unfold bhead; lia).
  assert (Hh0 : 0 <= bhead) by done.
  assert (Hn : exists n, nxt (k_bufs s) bhead = Some n /\ is_Some (prv (k_bufs s) n) /\
    (n = bhead \/ n ∈ l)).
  { destruct l as [|z l]; simpl in Hp.
    - destruct Hp as [H1 H2]. exists bhead. split; [done|]. split; [by eexists|by left].
    - destruct Hp as [[H1 H2] _]. exists z. split; [done|]. split; [by eexists|set_solver]. }
  destruct Hn as (n & Hn & Hns & Hn').
  destruct (prv_is_Some _ _ Hns) as [Hn0 Hns'].
  destruct (nxt_is_Some (k_bufs s) bhead) as [_ [h Hh]]; [by eexists|].
  assert (Hhn : b_next h = n).
  { unfold nxt in Hn. rewrite decide_True, Hh in Hn by done. by simplify_eq/=. }
  unfold push_front. rewrite (bind_ok _ _ _ _ _ (get_buf_eq s bhead h Hh0 Hh)), Hhn.
  destruct (set_next_run b n s (proj1 Hb) Hbs) as (bs1 & E1 & S1 & N1 & N1' & P1).
  rewrite (bind_ok _ _ _ _ _ E1).
  destruct (set_prev_run b bhead (set_bufs bs1 s) (proj1 Hb)) as (bs2 & E2 & S2 & P2 & P2' & N2);
    [by eapply strip_is_Some|]. rewrite (bind_ok _ _ _ _ _ E2). cbn [k_bufs set_bufs] in *.
  destruct (set_prev_run n b (set_bufs bs2 (set_bufs bs1 s)) Hn0) as (bs3 & E3 & S3 & P3 & P3' & N3);
    [eapply strip_is_Some; [|exact Hns']; cbn; congruence|]. rewrite (bind_ok _ _ _ _ _ E3).
  cbn [k_bufs set_bufs] in *.
  destruct (set_next_run bhead b (set_bufs bs3 (set_bufs bs2 (set_bufs bs1 s))) Hh0)
    as (bs4 & E4 & S4 & N4 & N4' & P4);
    [apply (strip_is_Some (k_bufs s)); [cbn; congruence|by exists h]|]. cbn [k_bufs set_bufs] in *.
  exists bs4. split; [exact E4|]. split; [congruence|].
  assert (Hnb : n <> b) by (intros ->; destruct Hn' as [?|?]; done).
  apply (path_push (k_bufs s) bs4 b n); try done.
  - by rewrite P4, P3' by congruence.
  - rewrite N4' by done. rewrite N3, N2. done.
  - by rewrite P4.
  - intros a H1 H2. rewrite N4' by done. rewrite N3, N2, N1' by done. done.
  - intros a H1 H2. rewrite P4, P3', P2', P1 by done. done.
  - rewrite NoDup_cons in Hnd. tauto.
Qed.

(** Only the order of the list changes. *)
Lemma strip_entry bs bs' i b :
  strip <$> bs' = strip <$> bs -> entry bs' i b -> exists b', entry bs i b' /\ strip b = strip b'.
Proof.
  intros He [Hi Hb]. assert (Hl : (strip <$> bs) !! Z.to_nat i = Some (strip b))
    by (by rewrite <- He, list_lookup_fmap, Hb).
  rewrite list_lookup_fmap in Hl. destruct (bs !! Z.to_nat i) as [b'|] eqn:E; [|done].
  exists b'. split; [done|]. change (Some (strip b') = Some (strip b)) in Hl. congruence.
Qed.

Lemma strip_fields b b' : strip b = strip b' ->
  b_valid b = b_valid b' /\ b_dev b = b_dev b' /\ b_blockno b = b_blockno b' /\
  b_refcnt b = b_refcnt b' /\ b_data b = b_data b'.
Proof. destruct b, b'. unfold strip, set_b_prev, set_b_next. simpl. by intros [=]. Qed.

Lemma strip_uniq bs bs' : strip <$> bs' = strip <$> bs -> uniq dev bs -> uniq dev bs'.
Proof.
  intros He Hu i j bi bj bno Hi Hj [Ci1 Ci2] [Cj1 Cj2].
  destruct (strip_entry _ _ _ _ He Hi) as (bi' & Hi' & Fi%strip_fields).
  destruct (strip_entry _ _ _ _ He Hj) as (bj' & Hj' & Fj%strip_fields).
  apply (Hu i j bi' bj' bno); try done; split; naive_solver congruence.
Qed.

Lemma strip_cbuf bs bs' bno :
  strip <$> bs' = strip <$> bs -> uniq dev bs ->
  strip <$> cbuf dev bs' bno = strip <$> cbuf dev bs bno.
Proof.
  intros He Hu. pose proof (strip_uniq _ _ He Hu) as Hu'.
  assert (Hone : forall l l', strip <$> l' = strip <$> l -> uniq dev l -> uniq dev l' ->
    forall b, cbuf dev l' bno = Some b -> strip <$> cbuf dev l bno = Some (strip b)).
  { intros l l' Hl Hul Hul' b Hb. apply cbuf_Some in Hb as (i & Hi & [C1 C2]); [|done].
    destruct (strip_entry _ _ _ _ Hl Hi) as (b' & Hi' & Hs).
    assert (Hc : cbuf dev l bno = Some b').
    { apply cbuf_Some; [done|]. exists i. split; [done|].
      destruct (strip_fields _ _ Hs) as (_ & E1 & E2 & _). split; congruence. }
    rewrite Hc. simpl. by rewrite Hs. }
  destruct (cbuf dev bs' bno) as [b|] eqn:E; [by rewrite (Hone bs bs' He Hu Hu' b E)|].
  destruct (cbuf dev bs bno) as [b|] eqn:E'; [|done].
  pose proof (Hone bs' bs (eq_sym He) Hu' Hu b E') as H. by rewrite E in H.
Qed.

Lemma strip_busy (bs bs' : list buf) n :
  strip <$> bs = strip <$> bs' ->
  length (filter (fun b => b_refcnt b <> 0) (take n bs)) =
  length (filter (fun b => b_refcnt b <> 0) (take n bs')).
Proof.
  revert bs' n. induction bs as [|b bs IH]; intros [|b' bs'] n Hs; try done.
  destruct n as [|n]; [done|]. rewrite !fmap_cons in Hs.
  assert (Hh : strip b = strip b') by congruence. assert (Ht : strip <$> bs = strip <$> bs') by congruence.
  destruct (strip_fields b b' Hh) as (_ & _ & _ & E & _). simpl. rewrite !filter_cons, E.
  specialize (IH bs' n Ht). case_decide; simpl; [by rewrite IH|done].
Qed.

Lemma relink_spec s pid H bs s' l :
  binv dev s pid H -> bupd s (k_sleep s) bs (k_disk s) s' -> strip <$> bs = strip <$> k_bufs s ->
  NoDup l -> (forall i, i ∈ l <-> 0 <= i < NBUF) -> path bs bhead l bhead ->
  stored s pid H (k_disk s) (view dev s) s'.
Proof.
  intros [I1 I2 I3 I4 I5 I6 I7 I8] Hu Hs Hnd Hl Hp.
  destruct (bupd_fields _ _ _ _ _ Hu) as (Esl & Ebs & Ed & _).
  assert (Hc : forall w, strip <$> cbuf dev (k_bufs s') w = strip <$> cbuf dev (k_bufs s) w)
    by (intros w; rewrite Ebs; by apply strip_cbuf).
  split.
  - split.
    + by eapply bupd_world.
    + by rewrite Ebs, <- (length_fmap strip), Hs, length_fmap.
    + exists l. by rewrite Ebs.
    + rewrite Ebs. by eapply strip_uniq.
    + intros i b Hi. rewrite Ebs in Hi.
      destruct (strip_entry _ _ _ _ Hs Hi) as (b' & Hi' & (_ & _ & _ & -> & _)%strip_fields).
      by eapply I5.
    + rewrite Ebs, Ed. intros i b Hi.
      destruct (strip_entry _ _ _ _ Hs Hi) as (b' & Hi' & (-> & -> & -> & -> & ->)%strip_fields).
      by eapply I6.
    + intros i bno Hi. destruct (I7 i bno Hi) as (b & nm & Hb & [C1 C2] & H1 & H2 & H3).
      destruct (strip_entry bs (k_bufs s) i b (eq_sym Hs) Hb) as (b' & Hb' & (E1 & E2 & E3 & E4 & _)%strip_fields).
      exists b', nm. unfold slk. rewrite Ebs, Esl. split; [done|].
      split; [split; congruence|]. split; [congruence|]. split; [lia|done].
    + intros i. unfold slk. rewrite Esl. apply I8.
  - by exists (k_sleep s), bs, (k_disk s).
  - done.
  - intros w. specialize (Hc w). unfold view. rewrite Ed.
    destruct (cbuf dev (k_bufs s') w) as [b|], (cbuf dev (k_bufs s) w) as [b'|]; try done.
    by destruct (strip_fields b b' (Some_inj _ _ Hc)) as (-> & _ & _ & _ & ->).
  - intros w. specialize (Hc w). unfold rc.
    destruct (cbuf dev (k_bufs s') w) as [b|], (cbuf dev (k_bufs s) w) as [b'|]; try done.
    by destruct (strip_fields b b' (Some_inj _ _ Hc)) as (_ & _ & _ & -> & _).
  - unfold busy. rewrite Ebs. by apply strip_busy.
Qed.

(** ** Releasing a buffer *)

Record closed (s : kstate) (pid : Z) (H : gmap Z Z) (bno : Z) (s' : kstate) : Prop := {
  cl_inv : binv dev s' pid H;
  cl_frame : bframe s s';
  cl_disk : k_disk s' = k_disk s;
  cl_view : forall w, view dev s' w = view dev s w;
  cl_rc : forall w, rc dev s' w = if decide (w = bno) then rc dev s w - 1 else rc dev s w;
  cl_busy : busy s = (busy s' + if decide (rc dev s bno = 1)%Z then 1 else 0)%nat;
}.

(** One user less, with the buffer locked or not. *)
Lemma drop_ref s s' pid H b x bno :
  binv dev s pid H -> entry (k_bufs s) b x -> caches dev bno x -> b_valid x <> 0 ->
  1 <= b_refcnt x -> (b_refcnt x = 1 -> H !! b = None) ->
  (rc dev s bno = 1 -> view dev s bno = disk_block (k_disk s) bno) ->
  bupd s (k_sleep s) (<[Z.to_nat b := set_b_refcnt (b_refcnt x - 1) x]> (k_bufs s)) (k_disk s) s' ->
  closed s pid H bno s'.
Proof.
  intros HI Hb Hc Hv Hr Hfree Hcl Hu. set (y := set_b_refcnt _ x) in *.
  pose proof (bi_ref _ _ _ _ HI b x Hb) as Hr2.
  destruct (rc_caches s pid H b x bno HI Hb Hc) as [Erc Evw].
  destruct (Z.eqb_spec (b_valid x) 0); [done|].
  assert (Hk : rekeys dev (k_bufs s) x y) by (by left).
  destruct (view_insert s _ pid H _ b x y bno HI Hu Hb Hk Hc Hv) as [Hvw Hrw]; [by left|].
  split.
  - eapply (binv_update s _ pid H); [done|exact Hu|done|done|done|done|simpl; lia| |done|].
    + intros _ Hz _. simpl in Hz |- *. rewrite <- Evw. destruct Hc as [_ ->]. apply Hcl. lia.
    + destruct (H !! b) as [bno'|] eqn:E.
      * destruct (bi_held _ _ _ _ HI b bno' E) as (x' & nm & [_ Hx'] & Hc' & _ & _ & Hs).
        assert (x' = x) as -> by (destruct Hb; congruence).
        split; [done|]. split; [done|]. split.
        { destruct (Z.eq_dec (b_refcnt x) 1) as [E1|]; [by discriminate (Hfree E1)|simpl; lia]. }
        exists nm. unfold slk in Hs. destruct (k_sleep s !! LBuf b); simpl in Hs; [by f_equal|done].
      * apply (bi_free _ _ _ _ HI); [apply Hb|done].
  - eexists _, _, _. exact Hu.
  - by destruct (bupd_fields _ _ _ _ _ Hu) as (_ & _ & -> & _).
  - intros w. rewrite Hvw. case_decide as Hw; [|done]. by rewrite Hw, Evw.
  - intros w. rewrite Hrw. case_decide as Hw; [|done]. rewrite Hw, Erc. done.
  - destruct (bupd_fields _ _ _ _ _ Hu) as (_ & Ebs & _).
    pose proof (busy_insert s s' b x y Hb Ebs) as Hbz. unfold y in Hbz. simpl in Hbz.
    rewrite Erc. repeat case_decide; lia.
Qed.

Lemma closed_stored s pid H H' bno s1 s2 :
  closed s pid H bno s1 -> stored s1 pid H' (k_disk s1) (view dev s1) s2 -> closed s pid H' bno s2.
Proof.
  intros [A1 A2 A3 A4 A5 A6] [B1 B2 B3 B4 B5 B6]. split.
  - done.
  - by transitivity s1.
  - congruence.
  - intros w. by rewrite B4.
  - intros w. by rewrite B5.
  - by rewrite B6.
Qed.

(** The section of [brelse] that drops the user and reorders the list. *)
Lemma brelse_section s pid H b bno x :
  binv dev s pid H -> entry (k_bufs s) b x -> caches dev bno x -> b_valid x <> 0 ->
  1 <= b_refcnt x -> H !! b = None ->
  (rc dev s bno = 1 -> view dev s bno = disk_block (k_disk s) bno) ->
  runs ((acquire LBcache ;;
    upd_buf b (fun x => set_b_refcnt (u32 (x.(b_refcnt) - 1)) x) ;;
    x <- get_buf b ;;
    (if x.(b_refcnt) =? 0 then
       upd_buf x.(b_next) (set_b_prev x.(b_prev)) ;;
       upd_buf x.(b_prev) (set_b_next x.(b_next)) ;;
       h <- get_buf bhead ;;
       upd_buf b (set_b_next h.(b_next)) ;;
       upd_buf b (set_b_prev bhead) ;;
       upd_buf h.(b_next) (set_b_prev b) ;;
       upd_buf bhead (set_b_next b)
     else ret tt) ;;
    release LBcache) s) (fun _ => closed s pid H bno).
Proof.
  intros HI Hb Hc Hv Hr HH Hcl. pose proof (bi_world _ _ _ _ HI) as HW.
  pose proof Hb as [Hb0 Hbx]. pose proof (bi_ref _ _ _ _ HI b x Hb) as Hr2.
  apply runs_bind, runs_acquire; [apply HW|]. set (s1 := enter LBcache s).
  rewrite (bind_ok _ _ _ _ _ (upd_buf_eq s1 b x _ (proj1 Hb0) Hbx)).
  replace (u32 (b_refcnt x - 1)) with (b_refcnt x - 1) by (unfold u32; rewrite Z.mod_small; lia).
  set (y := set_b_refcnt (b_refcnt x - 1) x). set (bs1 := <[Z.to_nat b := y]> (k_bufs s)).
  change (set_bufs (<[Z.to_nat b:=y]> (k_bufs s1)) s1) with (set_bufs bs1 s1).
  assert (Hy : bs1 !! Z.to_nat b = Some y) by (apply list_lookup_insert_eq; by eapply lookup_lt_Some).
  rewrite (bind_ok _ _ _ _ _ (get_buf_eq (set_bufs bs1 s1) b y (proj1 Hb0) Hy)).
  set (s1' := set_bufs bs1 s).
  assert (Hcl1 : closed s pid H bno s1').
  { eapply (drop_ref s _ pid H b x bno); try done. apply bupd_bufs. }
  assert (Hleave : forall bs j, scratch s j ->
    bupd s1' (k_sleep s1') bs (k_disk s1') (leave s j (set_bufs bs (set_bufs bs1 s1)))).
  { intros bs j Hj. exists j, (k_procs s). split; [done|]. split; [done|]. by destruct s. }
  apply runs_bind. destruct (Z.eqb_spec (b_refcnt y) 0) as [Hz|Hz].
  - destruct (bi_list _ _ _ _ (cl_inv _ _ _ _ _ Hcl1)) as (l & Hnd & Hl & Hp).
    assert (Hin : b ∈ l) by (by apply Hl). apply list_elem_of_split in Hin as (l1 & l2 & ->).
    assert (Hnd' : NoDup (bhead :: l1 ++ b :: l2)).
    { apply NoDup_cons. split; [|done]. rewrite Hl. unfold bhead. lia. }
    destruct (unlink_run (set_bufs bs1 s1) y b l1 l2) as (bs2 & E2 & S2 & P2);
      [done|done|done|lia|]. apply runs_assoc, runs_bind.
    match goal with |- runs _ ?Q => change (runs (unlink y (set_bufs bs1 s1)) Q) end.
    rewrite E2. cbn [runs].
    rewrite NoDup_cons, NoDup_app, NoDup_cons in Hnd'.
    destruct (push_front_run (set_bufs bs2 (set_bufs bs1 s1)) b (l1 ++ l2)) as (bs3 & E3 & S3 & P3);
      [rewrite NoDup_cons, NoDup_app; set_solver|set_solver|done|
       apply (strip_is_Some bs1); [done|by exists y]|done|].
    match goal with |- runs _ ?Q =>
      change (runs (push_front b (set_bufs bs2 (set_bufs bs1 s1))) Q) end.
    rewrite E3. cbn [runs k_bufs set_bufs] in *.
    apply (runs_release _ s); [apply HW|apply HW|done|]. intros j Hj.
    eapply closed_stored; [exact Hcl1|].
    eapply (relink_spec s1' pid H bs3 _ (b :: l1 ++ l2) (cl_inv _ _ _ _ _ Hcl1)).
    + apply (Hleave bs3 j Hj).
    + unfold s1'. cbn. congruence.
    + rewrite NoDup_cons, NoDup_app. set_solver.
    + intros i. rewrite <- Hl. set_solver.
    + done.
  - cbn [runs ret]. apply (runs_release _ s); [apply HW|apply HW|done|]. intros j Hj.
    eapply (drop_ref s _ pid H b x bno); try done.
    exists j, (k_procs s). split; [done|]. split; [done|]. by destruct s.
Qed.

Lemma brelse_spec s pid H b bno :
  binv dev s pid H -> H !! b = Some bno ->
  (rc dev s bno = 1 -> view dev s bno = disk_block (k_disk s) bno) ->
  runs (brelse b s) (fun _ => closed s pid (delete b H) bno).
Proof.
  intros HI HH Hcl.
  destruct (held_entry s pid H b bno HI HH) as (x & nm & Hb & Hc & Hv & Hd & Hr & Hr1 & Hs).
  unfold brelse. apply runs_bind.
  eapply runs_mono; [apply (holdingsleep_spec s pid b nm); [apply HI|apply Hb|done]|].
  intros h s1 [-> Hs1]. cbn [negb]. pose proof (binv_intena _ _ _ _ Hs1 HI) as HI1.
  pose proof (intena_bframe _ _ Hs1) as Hu1. apply runs_bind.
  eapply runs_mono; [apply (releasesleep_spec s1 pid b); [apply HI1|apply Hb]|].
  intros [] s2 (nm2 & Hu2).
  destruct (bupd_fields _ _ _ _ _ Hu1) as (Esl & Ebs & Ed & _). rewrite Esl, Ebs, Ed in Hu2.
  pose proof (bupd_trans _ _ _ _ _ _ _ _ _ Hu1 Hu2) as Hu.
  assert (Hid : k_bufs s = <[Z.to_nat b := x]> (k_bufs s)) by (symmetry; apply list_insert_id, Hb).
  pose proof Hu as Hu'. rewrite Hid in Hu'.
  assert (Hk : rekeys dev (k_bufs s) x x) by (by left).
  assert (HI2 : binv dev s2 pid (delete b H)).
  { eapply (binv_update s s2 pid H); [done|exact Hu'|done|done|done|done|lia| | |].
    - intros _ Hz. lia.
    - intros j Hj. rewrite lookup_delete_ne, lookup_insert_ne by congruence. done.
    - rewrite lookup_delete_eq, lookup_insert_eq. done. }
  destruct (view_insert s s2 pid H _ b x x bno HI Hu' Hb Hk Hc Hv) as [Hvw Hrw]; [by left|].
  destruct (bupd_fields _ _ _ _ _ Hu) as (_ & Ebs2 & Ed2 & _).
  assert (Hvw' : forall w, view dev s2 w = view dev s w).
  { intros w. rewrite Hvw. case_decide as Hw; [by rewrite Hw|done]. }
  assert (Hrw' : forall w, rc dev s2 w = rc dev s w).
  { intros w. rewrite Hrw. case_decide as Hw; [by rewrite Hw|done]. }
  eapply runs_mono.
  { apply (brelse_section s2 pid (delete b H) b bno x); try done.
    - by rewrite Ebs2.
    - lia.
    - apply lookup_delete_eq.
    - by rewrite Hrw', Hvw', Ed2. }
  intros [] s3 [A1 A2 A3 A4 A5 A6]. split.
  - done.
  - transitivity s2; [by eexists _, _, _|done].
  - congruence.
  - intros w. by rewrite A4.
  - intros w. by rewrite A5, Hrw'.
  - rewrite <- Hrw', <- A6. unfold busy. by rewrite Ebs2.
Qed.
(** ** Pinning *)

(** A section that only changes a buffer. *)
Lemma cache_section s pid H b x f :
  binv dev s pid H -> entry (k_bufs s) b x ->
  runs ((acquire LBcache ;; upd_buf b f ;; release LBcache) s) (fun _ s' =>
    bupd s (k_sleep s) (<[Z.to_nat b := f x]> (k_bufs s)) (k_disk s) s').
Proof.
  intros HI [Hb Hx]. pose proof (bi_world _ _ _ _ HI) as HW.
  apply runs_bind, runs_acquire; [apply HW|].
  rewrite (bind_ok _ _ _ _ _ (upd_buf_eq (enter LBcache s) b x _ (proj1 Hb) Hx)).
  apply (runs_release _ s); [apply HW|apply HW|done|].
  intros j Hj. exists j, (k_procs s). split; [done|]. split; [done|]. by destruct s.
Qed.

Lemma bunpin_spec s pid H b bno :
  binv dev s pid H -> H !! b = Some bno -> 2 <= rc dev s bno ->
  runs (bunpin b s) (fun _ => closed s pid H bno).
Proof.
  intros HI HH Hr2.
  destruct (held_entry s pid H b bno HI HH) as (x & nm & Hb & Hc & Hv & Hd & Hr & Hr1 & Hs).
  eapply runs_mono; [by eapply cache_section|]. intros [] s' Hu. cbv beta in Hu.
  replace (u32 (b_refcnt x - 1)) with (b_refcnt x - 1) in Hu by (unfold u32; rewrite Z.mod_small; lia).
  eapply (drop_ref s s' pid H b x bno); try done; lia.
Qed.

(** One user more. *)
Record pinned (s : kstate) (pid : Z) (H : gmap Z Z) (bno : Z) (s' : kstate) : Prop := {
  pn_inv : binv dev s' pid H;
  pn_frame : bframe s s';
  pn_disk : k_disk s' = k_disk s;
  pn_view : forall w, view dev s' w = view dev s w;
  pn_rc : forall w, rc dev s' w = if decide (w = bno) then rc dev s w + 1 else rc dev s w;
  pn_busy : busy s' = busy s;
}.

Lemma bpin_spec s pid H b bno :
  binv dev s pid H -> H !! b = Some bno -> rc dev s bno < 2^32 - 1 ->
  runs (bpin b s) (fun _ => pinned s pid H bno).
Proof.
  intros HI HH Hlt.
  destruct (held_entry s pid H b bno HI HH) as (x & nm & Hb & Hc & Hv & Hd & Hr & Hr1 & Hs).
  eapply runs_mono; [by eapply cache_section|]. intros [] s' Hu. cbv beta in Hu.
  replace (u32 (b_refcnt x + 1)) with (b_refcnt x + 1) in Hu by (unfold u32; rewrite Z.mod_small; lia).
  set (y := set_b_refcnt (b_refcnt x + 1) x) in *.
  assert (Hk : rekeys dev (k_bufs s) x y) by (by left).
  destruct (view_insert s _ pid H _ b x y bno HI Hu Hb Hk Hc Hv) as [Hvw Hrw]; [by left|].
  split.
  - eapply (binv_update s _ pid H); [done|exact Hu|done|done|done|done|simpl; lia| |done|].
    + intros _ Hz. simpl in Hz. lia.
    + rewrite HH. split; [done|]. split; [done|]. split; [simpl; lia|]. exists nm.
      unfold slk in Hs. destruct (k_sleep s !! LBuf b); simpl in Hs; [by f_equal|done].
  - eexists _, _, _. exact Hu.
  - by destruct (bupd_fields _ _ _ _ _ Hu) as (_ & _ & -> & _).
  - intros w. rewrite Hvw. case_decide as Hw; [|done]. by rewrite Hw, <- Hd.
  - intros w. rewrite Hrw. case_decide as Hw; [|done]. by rewrite Hw, <- Hr.
  - destruct (bupd_fields _ _ _ _ _ Hu) as (_ & Ebs & _).
    pose proof (busy_insert s s' b x y Hb Ebs) as Hbz. unfold y in Hbz. simpl in Hbz.
    repeat case_decide; lia.
Qed.
End ops.

(** With [NBUF] buffers in use, none is free. *)
Lemma busy_all s pid H dev i b :
  binv dev s pid H -> Z.of_nat (busy s) = NBUF -> entry (k_bufs s) i b -> b_refcnt b <> 0.
Proof.
  intros HI Hb He Hz. apply entry_take in He as [_ Hi]. unfold busy in Hb.
  pose proof (length_filter_lt (fun b => b_refcnt b <> 0) (take (Z.to_nat NBUF) (k_bufs s)) b
    ltac:(by eapply list_elem_of_lookup_2) ltac:(by intros ?)) as Hlt.
  rewrite length_take_le in Hlt by (rewrite (bi_len _ _ _ _ HI); lia). lia.
Qed.

(** ** A driver

    A disk that completes every request at once meets the contract. *)
Definition ram_disk : BlockDev := {|
  virtio_disk_rw := fun i write s =>
    match k_bufs s !! Z.to_nat i with
    | Some b =>
        if write then Ok tt (set_disk (disk_write (b_blockno b) (b_data b) (k_disk s)) s)
        else Ok tt (set_bufs (<[Z.to_nat i := set_b_data (disk_block (k_disk s) (b_blockno b)) b]>
                      (k_bufs s)) s)
    | None => Stop (Undefined "struct buf")
    end;
  virtio_disk_intr := ret tt;
|}.

Lemma ram_disk_ok : BlockDevOk ram_disk.
Proof. split; intros i s b Hb _; simpl; by rewrite Hb. Qed.

(** ** Initialisation *)

Lemma initlock_free s lk nm lk' :
  lock_free s lk' -> lock_free (set_locks (<[lk := mkLock 0 false nm]> (k_locks s)) s) lk'.
Proof.
  intros [m Hm]. destruct (decide (lk = lk')) as [->|].
  - exists nm. apply lookup_insert_eq.
  - exists m. simpl. by rewrite lookup_insert_ne.
Qed.

(** The state while [binit] runs: the buffers below [n] are on the list. *)
Record building (s0 : kstate) (n : Z) (s : kstate) : Prop := {
  bd_same : k_cpu s = k_cpu s0 /\ k_csr s = k_csr s0 /\ k_procs s = k_procs s0 /\
    k_disk s = k_disk s0;
  bd_locks : forall lk, lock_free s0 lk -> lock_free s lk;
  bd_cache : lock_free s LBcache;
  bd_bufs : strip <$> k_bufs s = strip <$> k_bufs s0;
  bd_list : path (k_bufs s) bhead (reverse (seqZ 0 n)) bhead;
  bd_sleep : forall i, 0 <= i < n -> lock_free s (LBuf i) /\ slk_locked (slk s (LBuf i)) = 0;
}.

Definition binit_body (b : Z) : K unit :=
  h <- get_buf bhead ;;
  upd_buf b (set_b_next h.(b_next)) ;;
  upd_buf b (set_b_prev bhead) ;;
  initsleeplock (LBuf b) "buffer" ;;
  upd_buf h.(b_next) (set_b_prev b) ;;
  upd_buf bhead (set_b_next b).

Lemma seqZ_reverse_S n : 0 <= n -> reverse (seqZ 0 (n + 1)) = n :: reverse (seqZ 0 n).
Proof.
  intros Hn. replace (n + 1) with (Z.of_nat (S (Z.to_nat n))) by lia.
  rewrite seqZ_S, reverse_snoc, Z2Nat.id by done. done.
Qed.

Lemma binit_step s0 n s :
  length (k_bufs s0) = Z.to_nat (NBUF + 1) -> 0 <= n < NBUF -> building s0 n s ->
  runs (binit_body n s) (fun _ => building s0 (n + 1)).
Proof.
  intros Hlen Hn [B1 B2 B3 B4 B5 B6]. unfold binit_body.
  assert (Hsome : forall bs i, strip <$> bs = strip <$> k_bufs s0 -> 0 <= i <= NBUF ->
    is_Some (bs !! Z.to_nat i)).
  { intros bs i Hs Hi. apply (strip_is_Some (k_bufs s0)); [done|]. apply lookup_lt_is_Some. lia. }
  assert (Hh0 : 0 <= bhead <= NBUF) by done.
  destruct (Hsome (k_bufs s) bhead B4 Hh0) as [h Hh].
  rewrite (bind_ok _ _ _ _ _ (get_buf_eq s bhead h (proj1 Hh0) Hh)).
  assert (Hnl : n ∉ reverse (seqZ 0 n)) by (rewrite elem_of_reverse, elem_of_seqZ; lia).
  assert (Hm : exists m, nxt (k_bufs s) bhead = Some m /\ (m = bhead \/ m ∈ reverse (seqZ 0 n))).
  { destruct (reverse (seqZ 0 n)) as [|z l]; simpl in B5.
    - destruct B5. exists bhead. auto.
    - destruct B5 as [[H1 _] _]. exists z. set_solver. }
  destruct Hm as (m & Hm & Hm').
  assert (Hhm : b_next h = m) by (unfold nxt in Hm; rewrite decide_True, Hh in Hm by done; by simplify_eq/=).
  assert (Hmr : 0 <= m <= NBUF).
  { destruct Hm' as [->|Hm']; [done|]. rewrite elem_of_reverse, elem_of_seqZ in Hm'. lia. }
  rewrite Hhm.
  destruct (set_next_run n m s (proj1 Hn)) as (bs1 & E1 & S1 & N1 & N1' & P1); [apply Hsome; [done|lia]|].
  rewrite (bind_ok _ _ _ _ _ E1).
  destruct (set_prev_run n bhead (set_bufs bs1 s) (proj1 Hn)) as (bs2 & E2 & S2 & P2 & P2' & N2);
    [apply Hsome; [cbn; congruence|lia]|]. rewrite (bind_ok _ _ _ _ _ E2).
  cbn [k_bufs set_bufs] in *. unfold initsleeplock, initlock, put_lock, put_slk.
  apply runs_bind. apply runs_bind. cbn [runs modify]. set (s3 := set_sleep _ _).
  destruct (set_prev_run m n s3 (proj1 Hmr)) as (bs4 & E4 & S4 & P4 & P4' & N4);
    [apply Hsome; [cbn; congruence|lia]|]. rewrite (bind_ok _ _ _ _ _ E4).
  destruct (set_next_run bhead n (set_bufs bs4 s3) (proj1 Hh0)) as (bs5 & E5 & S5 & N5 & N5' & P5);
    [apply Hsome; [cbn in *; congruence|lia]|]. rewrite E5. cbn [runs].
  change (k_bufs s3) with bs2 in *. cbn [k_bufs set_bufs] in *.
  assert (Hmn : m <> n) by (intros ->; destruct Hm' as [?|?]; [unfold bhead in *; lia|done]).
  split.
  - done.
  - intros lk Hlk. apply (initlock_free s (LBuf n) "sleep lock"). by apply B2.
  - apply (initlock_free s (LBuf n) "sleep lock"). done.
  - cbn. congruence.
  - rewrite seqZ_reverse_S by lia. cbn [k_bufs set_bufs].
    apply (path_push (k_bufs s) bs5 n m); try done.
    + by rewrite P5, P4' by congruence.
    + rewrite N5' by (unfold bhead; lia). rewrite N4, N2. done.
    + by rewrite P5.
    + intros a H1 H2. rewrite N5' by done. rewrite N4, N2, N1' by done. done.
    + intros a H1 H2. rewrite P5, P4', P2', P1 by done. done.
    + apply NoDup_cons. split; [rewrite elem_of_reverse, elem_of_seqZ; unfold bhead; lia|].
      by rewrite reverse_Permutation; apply NoDup_seqZ.
    + unfold bhead. lia.
    + unfold bhead. lia.
    + rewrite elem_of_reverse, elem_of_seqZ. unfold bhead. lia.
  - intros i Hi. unfold slk. cbn [k_sleep set_bufs s3 set_sleep].
    destruct (decide (i = n)) as [->|Hne].
    + split; [exists "sleep lock"; apply lookup_insert_eq|]. by rewrite lookup_insert_eq.
    + destruct (B6 i) as [H1 H2]; [lia|]. split; [by apply (initlock_free s (LBuf n) "sleep lock")|].
      rewrite lookup_insert_ne by congruence. done.
Qed.

(** [binit] on buffers that are free and hold no block. *)
Lemma binit_spec dev s pid :
  procs_ok s -> (exists p pr, 0 <= p /\ c_proc (k_cpu s) = Some p /\
    k_procs s !! Z.to_nat p = Some pr /\ p_pid pr = pid) ->
  length (k_bufs s) = Z.to_nat (NBUF + 1) ->
  (forall i b, entry (k_bufs s) i b -> b_refcnt b = 0 /\ b_dev b <> dev) ->
  runs (binit s) (fun _ s' => binv dev s' pid ∅ /\ k_disk s' = k_disk s /\ busy s' = O /\
    (forall w, rc dev s' w = 0) /\ (forall w, view dev s' w = disk_block (k_disk s) w) /\
    forall lk, lock_free s lk -> lock_free s' lk).
Proof.
  intros Hok Hcur Hlen Hz. unfold binit, initlock, put_lock.
  apply runs_bind. cbn [runs modify]. set (s1 := set_locks _ s).
  assert (Hl1 : forall lk, lock_free s lk -> lock_free s1 lk)
    by (intros lk Hlk; by apply initlock_free).
  assert (Hsome : forall bs, strip <$> bs = strip <$> k_bufs s -> is_Some (bs !! Z.to_nat bhead)).
  { intros bs Hs. apply (strip_is_Some (k_bufs s)); [done|]. apply lookup_lt_is_Some. rewrite Hlen.
    unfold bhead, NBUF, MAXOPBLOCKS. lia. }
  assert (Hh0 : 0 <= bhead) by done.
  destruct (set_prev_run bhead bhead s1 Hh0 (Hsome _ eq_refl)) as (bs1 & E1 & S1 & P1 & _ & N1).
  rewrite (bind_ok _ _ _ _ _ E1).
  destruct (set_next_run bhead bhead (set_bufs bs1 s1) Hh0 (Hsome _ S1)) as (bs2 & E2 & S2 & N2 & _ & P2).
  rewrite (bind_ok _ _ _ _ _ E2). cbn [k_bufs set_bufs] in *.
  apply (runs_for (building s)).
  - split; try done.
    + exists "bcache". apply lookup_insert_eq.
    + etrans; [exact S2|exact S1].
    + split; cbn; [done|]. by rewrite P2.
    + intros i Hi. lia.
  - intros i s2 Hi. apply binit_step; [done|]. rewrite Z2Nat.id in Hi by done. lia.
  - intros s2 [(C1 & C2 & C3 & C4) C5 C6 C7 C8 C9].
    rewrite Z2Nat.id, Z.add_0_l in * by done.
    assert (He : forall i b, entry (k_bufs s2) i b -> b_refcnt b = 0 /\ b_dev b <> dev).
    { intros i b Hi. destruct (strip_entry (k_bufs s) (k_bufs s2) i b C7 Hi) as
        (b' & Hb' & (_ & -> & _ & -> & _)%strip_fields). by apply (Hz i). }
    assert (Hn : forall w, cbuf dev (k_bufs s2) w = None).
    { intros w. apply eq_None_not_Some. intros [b Hb]. unfold cbuf in Hb.
      destruct (list_find _ _) as [[i b']|] eqn:E; simplify_eq/=.
      apply list_find_Some in E as (Hi & [Hd _] & _).
      destruct (He (Z.of_nat i) b); [|done]. apply entry_take. rewrite Nat2Z.id. split; [lia|done]. }
    split; [|split; [done|split; [|split; [|split; [|done]]]]].
    + split.
      * split.
        -- destruct Hok as (A1 & A2 & A3). split; [unfold cpu_ok, ints_on; by rewrite C1, C2|].
           split; [by rewrite C3|]. intros i Hi. by apply C5, A3.
        -- by rewrite C1, C3.
        -- done.
        -- intros i Hi. by apply C9.
      * by rewrite <- (length_fmap strip), C7, length_fmap.
      * exists (reverse (seqZ 0 NBUF)). split; [by rewrite reverse_Permutation; apply NoDup_seqZ|].
        split; [|done]. intros i. rewrite elem_of_reverse, elem_of_seqZ. lia.
      * intros i j bi bj bno Hi _ [Hd _]. by destruct (He i bi Hi).
      * intros i b Hi. destruct (He i b Hi) as [-> _]. done.
      * intros i b Hi Hd. by destruct (He i b Hi).
      * intros i bno Hi. by rewrite lookup_empty in Hi.
      * intros i Hi _. by apply C9.
    + unfold busy.
      assert (Hf : filter (fun b => b_refcnt b <> 0) (take (Z.to_nat NBUF) (k_bufs s2)) = []).
      { apply elem_of_nil_inv. intros b Hb.
        apply list_elem_of_filter in Hb as [Hr Hb].
        apply list_elem_of_lookup in Hb as [i Hi]. destruct Hr.
        apply (He (Z.of_nat i)). apply entry_take. rewrite Nat2Z.id. split; [lia|done]. }
      by rewrite Hf.
    + intros w. unfold rc. by rewrite Hn.
    + intros w. unfold view. by rewrite Hn, C4.
Qed.
