(* ===== verification/BioSpec.v ===== *)
(** * The buffer cache: results

    [bio.c] as a cache of disk blocks. *)

From S2P Require Import Prelude CMem Machine Sv32 Spinlock KallocProof PageTable UserMem.
From S2P Require Import Sched SchedProof SchedSpec Sleeplock Bio BioProof.

Section results.
Context `{W : WaitFuel, D : BlockDev, !BlockDevOk D} (dev : Z).

(** C10: [bread] returns the one buffer of the block, locked, and the content it
    gives is the last one given to that block: the cached content of no block
    changes, whichever buffer was evicted, and nothing is written to disk.
    The buffer has one user more, and every invariant of the cache holds
    again: every buffer is on the list once, no block is cached twice, and a
    buffer without users agrees with the disk. *)
Theorem bread_correct (s : kstate) (pid : Z) (H : gmap Z Z) (bno : Z) :
  binv dev s pid H -> (0 < wait_fuel)%nat -> (forall i, H !! i <> Some bno) ->
  rc dev s bno < 2^32 - 1 -> (rc dev s bno = 0 -> Z.of_nat (busy s) < NBUF) ->
  runs (bread dev bno s) (fun b s' =>
    H !! b = None /\ binv dev s' pid (<[b := bno]> H) /\ bframe s s' /\
    k_disk s' = k_disk s /\
    (exists x, k_bufs s' !! Z.to_nat b = Some x /\ b_blockno x = bno /\
       b_data x = view dev s bno) /\
    (forall w, view dev s' w = view dev s w) /\
    (forall w, rc dev s' w = if decide (w = bno) then rc dev s w + 1 else rc dev s w)).
Proof.
  intros HI Hf HH Hrc Hroom. eapply runs_mono; [by apply (bread_spec dev s pid H bno)|].
  intros b s' [A0 A1 A2 A3 A4 A5 A6]. do 4 (split; [done|]). split; [|by split].
  destruct (held_entry dev s' pid _ b bno A1 (lookup_insert_eq _ _ _)) as
    (x & nm & [_ Hx] & [_ Hb] & _ & Hd & _).
  exists x. by rewrite Hd, A4.
Qed.

(** C40: when all [NBUF] buffers have users, a block that is not cached cannot
    be read: [bread] panics.  The log may pin as many blocks as there are
    buffers, so a large enough transaction ends this way. *)
Theorem bread_full_panics (s : kstate) (pid : Z) (H : gmap Z Z) (bno : Z) :
  binv dev s pid H -> Z.of_nat (busy s) = NBUF -> rc dev s bno = 0 ->
  NBUF = LOGBLOCKS /\ bread dev bno s = Stop (Panicked "bget: no buffers").
Proof.
  intros HI Hb Hr. split; [done|]. pose proof (fun i b => busy_all s pid H dev i b HI Hb) as Hall.
  unfold bread, bind at 1. rewrite (bget_full dev s pid H bno HI); [done| |done].
  unfold rc in Hr. destruct (cbuf dev (k_bufs s) bno) as [b|] eqn:E; [|done].
  apply cbuf_Some in E as (i & Hi & _); [|apply HI]. by destruct (Hall i b Hi).
Qed.
End results.

(** ** Witnesses *)

(** The process 1 on a machine with a given disk, its cache empty. *)
Definition demo_disk_proc : proc := set_p_pid 1 (set_p_state RUNNING zero_proc).

Lemma demo_cache (d0 : disk_t) : exists s, binv 1 s 1 ∅ /\ k_disk s = d0 /\ busy s = O /\
  (forall w, rc 1 s w = 0) /\ lock_free s LPr /\ lock_free s LLog /\ lock_free s LItable.
Proof.
  destruct demo_sched as (s0 & (Hc & Hlen & Hl) & Hn & Hp).
  set (s := set_disk d0 (set_bufs (replicate (Z.to_nat (NBUF + 1)) zero_buf)
    (set_locks (<[LPr := mkLock 0 false "pr"]> (<[LLog := mkLock 0 false "log"]>
      (<[LItable := mkLock 0 false "itable"]> (k_locks s0))))
    (set_cpu (mkCpu (Some 0) 0 0)
    (set_procs (demo_disk_proc :: replicate (Z.to_nat NPROC - 1) zero_proc) s0))))).
  assert (Hok : procs_ok s).
  { split; [destruct Hc as (H1 & _); split; [exact H1|split; [reflexivity|intros H; inversion H]]|].
    split; [cbn [k_procs s set_disk set_bufs set_locks set_cpu set_procs]; reflexivity|].
    intros i Hi. destruct (Hl i Hi) as [nm Hnm]. exists nm. cbn [k_locks s set_disk set_bufs set_locks].
    by rewrite !lookup_insert_ne by done. }
  assert (Hcur : exists p pr, 0 <= p /\ c_proc (k_cpu s) = Some p /\
    k_procs s !! Z.to_nat p = Some pr /\ p_pid pr = 1).
  { exists 0, demo_disk_proc. split; [lia|]. split; [reflexivity|]. split; reflexivity. }
  assert (Hbl : length (k_bufs s) = Z.to_nat (NBUF + 1)) by apply length_replicate.
  assert (Hbz : forall i b, entry (k_bufs s) i b -> b_refcnt b = 0 /\ b_dev b <> 1).
  { intros i b [_ Hb]. apply lookup_replicate in Hb as [-> _]. split; [reflexivity|discriminate]. }
  destruct (proj1 (runs_ok (binit s) _) (binit_spec 1 s 1 Hok Hcur Hbl Hbz))
    as ([] & s' & _ & HI & Hd & Hb & Hr & _ & Hlk).
  exists s'. split; [exact HI|]. split; [exact Hd|]. split; [exact Hb|]. split; [exact Hr|]. split; [|split].
  - apply Hlk. exists "pr". apply lookup_insert_eq.
  - apply Hlk. exists "log". cbn [k_locks s set_disk set_bufs set_locks].
    rewrite lookup_insert_ne by done. apply lookup_insert_eq.
  - apply Hlk. exists "itable". cbn [k_locks s set_disk set_bufs set_locks].
    rewrite !lookup_insert_ne by done. apply lookup_insert_eq.
Qed.

Lemma bframe_lock s s' lk : bframe s s' -> lock_free s lk -> lock_free s' lk.
Proof. by intros (sl & bs & d & j & ps & _ & _ & ->). Qed.

Lemma bread_correct_witness : exists s,
  busy s = O /\
  runs (@bread 1%nat ram_disk 1 5 s) (fun b s' =>
    (∅ : gmap Z Z) !! b = None /\ binv 1 s' 1 (<[b := 5]> ∅) /\ bframe s s' /\
    k_disk s' = k_disk s /\
    (exists x, k_bufs s' !! Z.to_nat b = Some x /\ b_blockno x = 5 /\ b_data x = view 1 s 5) /\
    (forall w, view 1 s' w = view 1 s w) /\
    (forall w, rc 1 s' w = if decide (w = 5) then rc 1 s w + 1 else rc 1 s w)).
Proof.
  destruct (demo_cache (mkDisk ∅ [])) as (s & HI & Hd & Hb & Hr & _). exists s. split; [exact Hb|].
  apply (@bread_correct 1%nat ram_disk ram_disk_ok 1 s 1 ∅ 5 HI).
  - exact (Nat.lt_0_succ 0).
  - intros i. rewrite lookup_empty. discriminate.
  - rewrite Hr. reflexivity.
  - intros _. rewrite Hb. reflexivity.
Defined.

(** The blocks below [n] locked, one after the other. *)
Lemma demo_locked n : (n <= Z.to_nat NBUF)%nat -> exists s H, binv 1 s 1 H /\ busy s = n /\
  (forall w, rc 1 s w = if decide (0 <= w < Z.of_nat n) then 1 else 0) /\
  (forall i w, H !! i = Some w -> 0 <= w < Z.of_nat n).
Proof.
  induction n as [|n IH]; intros Hn.
  - destruct (demo_cache (mkDisk ∅ [])) as (s & HI & _ & Hb & Hr & _). exists s, ∅. split; [exact HI|].
    split; [exact Hb|]. split; [|intros i w; by rewrite lookup_empty].
    intros w. rewrite Hr. destruct (decide _); [lia|done].
  - destruct IH as (s & H & HI & Hb & Hr & HH); [lia|].
    assert (Hr0 : rc 1 s (Z.of_nat n) = 0) by (rewrite Hr; destruct (decide _); lia).
    destruct (proj1 (runs_ok _ _) (@bread_spec 1%nat 1 ram_disk ram_disk_ok s 1 H (Z.of_nat n) HI
      (Nat.lt_0_succ 0) ltac:(intros i Hi; apply HH in Hi; lia) ltac:(rewrite Hr0; lia)
      ltac:(intros _; unfold NBUF, MAXOPBLOCKS in *; lia)))
      as (b & s' & _ & [A0 A1 A2 A3 A4 A5 A6]).
    exists s', (<[b := Z.of_nat n]> H). split; [exact A1|].
    split; [rewrite A6, Hr0, Hb; simpl; lia|]. split.
    + intros w. rewrite A5, Hr. repeat destruct (decide _); lia.
    + intros i w Hi. apply lookup_insert_Some in Hi as [[_ <-]|[_ Hi]]; [lia|].
      apply HH in Hi. lia.
Qed.

Lemma bread_full_panics_witness : exists s,
  busy s = Z.to_nat NBUF /\ NBUF = LOGBLOCKS /\
  @bread 1%nat ram_disk 1 100 s = Stop (Panicked "bget: no buffers").
Proof.
  destruct (demo_locked (Z.to_nat NBUF) (Nat.le_refl _)) as (s & H & HI & Hb & Hr & _).
  exists s. split; [exact Hb|].
  apply (@bread_full_panics 1%nat ram_disk 1 s 1 H 100 HI).
  - rewrite Hb. reflexivity.
  - rewrite Hr. reflexivity.
Defined.
