(* ===== verification/Virtio.v ===== *)
(** * The disk driver

    Models [src/os/kernel/virtio_disk.c] and [virtio.h].  A request is a chain of
    three descriptors, handed to the device through the avail ring and returned
    through the used ring.  The device is reached through its registers: writes
    are recorded, and what a read returns is a parameter. *)

From S2P Require Import Prelude CMem Machine Sv32 Spinlock Kalloc Sched AddrSpace Sleeplock Bio.

Definition VIRTIO_MMIO_MAGIC_VALUE : Z := 0x000.
Definition VIRTIO_MMIO_VERSION : Z := 0x004.
Definition VIRTIO_MMIO_DEVICE_ID : Z := 0x008.
Definition VIRTIO_MMIO_VENDOR_ID : Z := 0x00c.
Definition VIRTIO_MMIO_DEVICE_FEATURES : Z := 0x010.
Definition VIRTIO_MMIO_DRIVER_FEATURES : Z := 0x020.
Definition VIRTIO_MMIO_QUEUE_SEL : Z := 0x030.
Definition VIRTIO_MMIO_QUEUE_NUM_MAX : Z := 0x034.
Definition VIRTIO_MMIO_QUEUE_NUM : Z := 0x038.
Definition VIRTIO_MMIO_QUEUE_READY : Z := 0x044.
Definition VIRTIO_MMIO_QUEUE_NOTIFY : Z := 0x050.
Definition VIRTIO_MMIO_INTERRUPT_STATUS : Z := 0x060.
Definition VIRTIO_MMIO_INTERRUPT_ACK : Z := 0x064.
Definition VIRTIO_MMIO_STATUS : Z := 0x070.
Definition VIRTIO_MMIO_QUEUE_DESC_LOW : Z := 0x080.
Definition VIRTIO_MMIO_QUEUE_DESC_HIGH : Z := 0x084.
Definition VIRTIO_MMIO_DRIVER_DESC_LOW : Z := 0x090.
Definition VIRTIO_MMIO_DRIVER_DESC_HIGH : Z := 0x094.
Definition VIRTIO_MMIO_DEVICE_DESC_LOW : Z := 0x0a0.
Definition VIRTIO_MMIO_DEVICE_DESC_HIGH : Z := 0x0a4.
Definition VIRTIO_CONFIG_S_ACKNOWLEDGE : Z := 1.
Definition VIRTIO_CONFIG_S_DRIVER : Z := 2.
Definition VIRTIO_CONFIG_S_DRIVER_OK : Z := 4.
Definition VIRTIO_CONFIG_S_FEATURES_OK : Z := 8.
Definition VIRTIO_BLK_F_RO : Z := 5.
Definition VIRTIO_BLK_F_SCSI : Z := 7.
Definition VIRTIO_BLK_F_CONFIG_WCE : Z := 11.
Definition VIRTIO_BLK_F_MQ : Z := 12.
Definition VIRTIO_F_ANY_LAYOUT : Z := 27.
Definition VIRTIO_RING_F_INDIRECT_DESC : Z := 28.
Definition VIRTIO_RING_F_EVENT_IDX : Z := 29.

(** The device's registers: the value of a register after the writes so far. *)
Class VirtioDev := vreg : list (Z * Z) -> Z -> Z.

Definition reg_read `{VirtioDev} (r : Z) : K Z := gets (fun s => u32 (vreg (vd_mmio (k_vdisk s)) r)).
Definition reg_write (r x : Z) : K unit :=
  upd_vdisk (fun d => set_vd_mmio (vd_mmio d ++ [(r, u32 x)]) d).

(** Elements of the arrays of [struct disk]. *)
Definition vd_get {A} (f : vdisk -> list A) : Z -> K A := get_elt (fun s => f (k_vdisk s)).
Definition vd_upd {A} (f : vdisk -> list A) (set : list A -> vdisk -> vdisk)
    : Z -> (A -> A) -> K unit :=
  upd_elt (fun s => f (k_vdisk s)) (fun l s => set_vdisk (set l (k_vdisk s)) s).
Definition put_free (i x : Z) : K unit := vd_upd vd_free set_vd_free i (fun _ => x).
Definition put_desc (i : Z) (d : virtq_desc) : K unit := vd_upd vd_desc set_vd_desc i (fun _ => d).
Definition put_op (i : Z) (r : virtio_blk_req) : K unit := vd_upd vd_ops set_vd_ops i (fun _ => r).
Definition upd_info : Z -> (vinfo -> vinfo) -> K unit := vd_upd vd_info set_vd_info.

(** ** Descriptors *)

Definition alloc_desc : K Z :=
  r <- for_find (Z.to_nat NUM) 0 (fun i =>
    f <- vd_get vd_free i ;;
    if negb (f =? 0) then put_free i 0 ;; ret (Some i) else ret None) ;;
  ret (default (-1) r).

Definition free_desc (i : Z) : K unit :=
  if i >=? NUM then panic "free_desc 1" else
  f <- vd_get vd_free i ;;
  if negb (f =? 0) then panic "free_desc 2" else
  put_desc i zero_desc ;;
  put_free i 1 ;;
  wakeup ChDiskFree.

(** [while(1)] of [free_chain]; a descriptor is freed at most once, so [NUM]
    rounds are the most there can be.  What lies behind the array does not
    matter: [free_desc] panics there. *)
Fixpoint free_chain_loop (fuel : nat) (i : Z) : K unit :=
  match fuel with
  | O => nofuel
  | S n =>
      d <- (if i >=? NUM then ret zero_desc else vd_get vd_desc i) ;;
      let flag := d.(d_flags) in
      let nxt := d.(d_next) in
      free_desc i ;;
      if has flag VRING_DESC_F_NEXT then free_chain_loop n nxt else ret tt
  end.
Definition free_chain (i : Z) : K unit := free_chain_loop (Z.to_nat NUM + 1) i.

(** [idx[0]], [idx[1]], [idx[2]], or -1. *)
Definition alloc3_desc : K (option (Z * Z * Z)) :=
  i0 <- alloc_desc ;;
  if i0 <? 0 then ret None else
  i1 <- alloc_desc ;;
  if i1 <? 0 then free_desc i0 ;; ret None else
  i2 <- alloc_desc ;;
  if i2 <? 0 then free_desc i0 ;; free_desc i1 ;; ret None else
  ret (Some (i0, i1, i2)).

(** ** Requests *)

Section driver.
Context `{L : Layout, W : WaitFuel, V : VirtioDev}.

Fixpoint alloc3_wait (fuel : nat) : K (Z * Z * Z) :=
  match fuel with
  | O => nofuel
  | S n =>
      r <- alloc3_desc ;;
      match r with
      | Some idx => ret idx
      | None => sleep ChDiskFree LVdisk ;; alloc3_wait n
      end
  end.

(** The chain for buffer [b], and its head in the avail ring. *)
Definition virtio_submit (b : Z) (write : bool) (sector : Z) (idx : Z * Z * Z) : K unit :=
  let '(i0, i1, i2) := idx in
  put_op i0 (mkReq (if write then VIRTIO_BLK_T_OUT else VIRTIO_BLK_T_IN) 0 sector) ;;
  put_desc i0 (mkDesc (DReq i0) 16 VRING_DESC_F_NEXT i1) ;;
  put_desc i1 (mkDesc (DData b) BSIZE
                 (Z.lor (if write then 0 else VRING_DESC_F_WRITE) VRING_DESC_F_NEXT) i2) ;;
  upd_info i0 (fun x => mkInfo x.(in_b) 0xff) ;;
  put_desc i2 (mkDesc (DStatus i0) 1 VRING_DESC_F_WRITE 0) ;;
  upd_buf b (set_b_disk 1) ;;
  upd_info i0 (fun x => mkInfo (Some b) x.(in_status)) ;;
  d <- gets k_vdisk ;;
  vd_upd vd_avail_ring set_vd_avail_ring (vd_avail_idx d mod NUM) (fun _ => i0) ;;
  upd_vdisk (fun d => set_vd_avail_idx (u16 (vd_avail_idx d + 1)) d) ;;
  reg_write VIRTIO_MMIO_QUEUE_NOTIFY 0.

Definition virtio_finish (i0 : Z) : K unit :=
  upd_info i0 (fun x => mkInfo None x.(in_status)) ;;
  free_chain i0.

Definition vdisk_rw (b : Z) (write : bool) : K unit :=
  x <- get_buf b ;;
  let sector := u32 (x.(b_blockno) * (BSIZE / 512)) in
  acquire LVdisk ;;
  idx <- alloc3_wait wait_fuel ;;
  virtio_submit b write sector idx ;;
  while_wait wait_fuel (x <- get_buf b ;; ret (x.(b_disk) =? 1)) (sleep (ChBuf b) LVdisk) ;;
  virtio_finish idx.1.1 ;;
  release LVdisk.

(** [while(disk.used_idx != disk.used->idx)]: the counters are 16 bits wide. *)
Fixpoint intr_loop (fuel : nat) : K unit :=
  match fuel with
  | O => nofuel
  | S n =>
      d <- gets k_vdisk ;;
      if vd_used_idx d =? vd_used_dev d then ret tt else
      id <- vd_get vd_used_ring (vd_used_idx d mod NUM) ;;
      x <- vd_get vd_info id ;;
      if negb (x.(in_status) =? 0) then panic "virtio_disk_intr status" else
      match x.(in_b) with
      | None => undefined "b->disk"
      | Some b =>
          upd_buf b (set_b_disk 0) ;;
          wakeup (ChBuf b) ;;
          upd_vdisk (fun d => set_vd_used_idx (u16 (vd_used_idx d + 1)) d) ;;
          intr_loop n
      end
  end.
Definition vdisk_intr : K unit :=
  acquire LVdisk ;;
  st <- reg_read VIRTIO_MMIO_INTERRUPT_STATUS ;;
  reg_write VIRTIO_MMIO_INTERRUPT_ACK (Z.land st 3) ;;
  d <- gets k_vdisk ;;
  intr_loop (Z.to_nat (u16 (vd_used_dev d - vd_used_idx d)) + 1) ;;
  release LVdisk.

(** The driver as the interface the buffer cache uses. *)
#[export] Instance virtio : BlockDev := {|
  virtio_disk_rw := vdisk_rw;
  virtio_disk_intr := vdisk_intr;
|}.

(** ** Initialisation *)

Definition drop_feature (n features : Z) : Z := Z.land features (Z.lnot (Z.shiftl 1 n)).

Definition virtio_disk_init : K unit :=
  initlock LVdisk "virtio_disk" ;;
  magic <- reg_read VIRTIO_MMIO_MAGIC_VALUE ;;
  version <- reg_read VIRTIO_MMIO_VERSION ;;
  device <- reg_read VIRTIO_MMIO_DEVICE_ID ;;
  vendor <- reg_read VIRTIO_MMIO_VENDOR_ID ;;
  if negb (magic =? 0x74726976) || negb (version =? 2) || negb (device =? 2) ||
     negb (vendor =? 0x554d4551)
  then panic "could not find virtio disk" else
  let status := 0 in
  reg_write VIRTIO_MMIO_STATUS status ;;
  let status := Z.lor status VIRTIO_CONFIG_S_ACKNOWLEDGE in
  reg_write VIRTIO_MMIO_STATUS status ;;
  let status := Z.lor status VIRTIO_CONFIG_S_DRIVER in
  reg_write VIRTIO_MMIO_STATUS status ;;
  features <- reg_read VIRTIO_MMIO_DEVICE_FEATURES ;;
  reg_write VIRTIO_MMIO_DRIVER_FEATURES
    (drop_feature VIRTIO_RING_F_INDIRECT_DESC (drop_feature VIRTIO_RING_F_EVENT_IDX
    (drop_feature VIRTIO_F_ANY_LAYOUT (drop_feature VIRTIO_BLK_F_MQ
    (drop_feature VIRTIO_BLK_F_CONFIG_WCE (drop_feature VIRTIO_BLK_F_SCSI
    (drop_feature VIRTIO_BLK_F_RO features))))))) ;;
  let status := Z.lor status VIRTIO_CONFIG_S_FEATURES_OK in
  reg_write VIRTIO_MMIO_STATUS status ;;
  status <- reg_read VIRTIO_MMIO_STATUS ;;
  if negb (has status VIRTIO_CONFIG_S_FEATURES_OK)
  then panic "virtio disk FEATURES_OK unset" else
  reg_write VIRTIO_MMIO_QUEUE_SEL 0 ;;
  ready <- reg_read VIRTIO_MMIO_QUEUE_READY ;;
  if negb (ready =? 0) then panic "virtio disk should not be ready" else
  max <- reg_read VIRTIO_MMIO_QUEUE_NUM_MAX ;;
  if max =? 0 then panic "virtio disk has no queue 0" else
  if max <? NUM then panic "virtio disk max queue too short" else
  desc <- kalloc ;;
  avail <- kalloc ;;
  used <- kalloc ;;
  upd_vdisk (set_vd_pages (desc, avail, used)) ;;
  if (desc =? 0) || (avail =? 0) || (used =? 0) then panic "virtio disk kalloc" else
  zero_page desc ;;
  zero_page avail ;;
  zero_page used ;;
  upd_vdisk (fun d =>
    set_vd_desc (replicate (Z.to_nat NUM) zero_desc)
    (set_vd_avail_idx 0 (set_vd_avail_ring (replicate (Z.to_nat NUM) 0)
    (set_vd_used_dev 0 (set_vd_used_ring (replicate (Z.to_nat NUM) 0) d))))) ;;
  reg_write VIRTIO_MMIO_QUEUE_NUM NUM ;;
  reg_write VIRTIO_MMIO_QUEUE_DESC_LOW desc ;;
  reg_write VIRTIO_MMIO_QUEUE_DESC_HIGH 0 ;;
  reg_write VIRTIO_MMIO_DRIVER_DESC_LOW avail ;;
  reg_write VIRTIO_MMIO_DRIVER_DESC_HIGH 0 ;;
  reg_write VIRTIO_MMIO_DEVICE_DESC_LOW used ;;
  reg_write VIRTIO_MMIO_DEVICE_DESC_HIGH 0 ;;
  reg_write VIRTIO_MMIO_QUEUE_READY 1 ;;
  for_ (Z.to_nat NUM) 0 (fun i => put_free i 1) ;;
  let status := Z.lor status VIRTIO_CONFIG_S_DRIVER_OK in
  reg_write VIRTIO_MMIO_STATUS status.
End driver.
