(* ===== verification/VirtioProof.v ===== *)
(** * The disk driver and the device

    The requests in flight, what the driver's arrays hold for each, and what the
    device may do with them.  The driver's operations and the device's steps
    keep the invariant; what each does to the requests is the protocol. *)

From S2P Require Import Prelude CMem Machine Sv32 Spinlock Kalloc Sched AddrSpace.
From S2P Require Import SchedProof UserMem Sleeplock Bio BioProof Virtio.

(** ** Arrays by index *)

Definition at_ {A} (l : list A) (i : Z) : option A := if 0 <=? i then l !! Z.to_nat i else None.
Definition put {A} (l : list A) (i : Z) (x : A) : list A := <[Z.to_nat i := x]> l.

Lemma at_put {A} (l : list A) i x j :
  0 <= i < Z.of_nat (length l) -> at_ (put l i x) j = if decide (j = i) then Some x else at_ l j.
Proof.
  intros Hi. unfold at_, put. destruct (Z.leb_spec 0 j) as [Hj|Hj].
  - case_decide as E; [subst; apply list_lookup_insert_eq; lia|]. apply list_lookup_insert_ne. lia.
  - rewrite decide_False by lia. done.
Qed.
Lemma put_length {A} (l : list A) i x : length (put l i x) = length l.
Proof. apply length_insert. Qed.
Lemma at_Some {A} (l : list A) i x : at_ l i = Some x -> 0 <= i < Z.of_nat (length l).
Proof.
  unfold at_. destruct (Z.leb_spec 0 i); [|done]. intros Hl%lookup_lt_Some. lia.
Qed.
Lemma at_is_Some {A} (l : list A) i : 0 <= i < Z.of_nat (length l) -> exists x, at_ l i = Some x.
Proof.
  intros Hi. unfold at_. replace (0 <=? i) with true by lia. apply lookup_lt_is_Some. lia.
Qed.

Lemma vd_get_eq {A} (f : vdisk -> list A) i x s :
  at_ (f (k_vdisk s)) i = Some x -> vd_get f i s = Ok x s.
Proof. unfold at_, vd_get, get_elt. by intros ->. Qed.
Lemma vd_upd_eq {A} (f : vdisk -> list A) set i g x s :
  at_ (f (k_vdisk s)) i = Some x ->
  vd_upd f set i g s = Ok tt (set_vdisk (set (put (f (k_vdisk s)) i (g x)) (k_vdisk s)) s).
Proof. unfold at_, vd_upd, upd_elt, put. by intros ->. Qed.

(** ** Requests in flight

    A request is queued in the avail ring, then taken by the device, then
    served (in the used ring), then acknowledged by the interrupt handler; its
    owner retires it.  [vr_val] is the content to transfer. *)
Inductive phase := Queued | Taken | Served | Acked.
#[export] Instance phase_eq_dec : EqDecision phase.
Proof. solve_decision. Defined.

Record vreq := mkVreq {
  vr_h0 : Z;
  vr_h1 : Z;
  vr_h2 : Z;
  vr_b : Z;
  vr_blk : Z;
  vr_write : bool;
  vr_val : list Z;
  vr_phase : phase;
}.
Definition set_phase (p : phase) (r : vreq) : vreq :=
  mkVreq (vr_h0 r) (vr_h1 r) (vr_h2 r) (vr_b r) (vr_blk r) (vr_write r) (vr_val r) p.
Definition chain (r : vreq) : list Z := [vr_h0 r; vr_h1 r; vr_h2 r].
Definition done_ (r : vreq) : bool := bool_decide (vr_phase r = Served \/ vr_phase r = Acked).

(** What the device does not keep in memory: how far it has read the avail
    ring, and the requests it is working on. *)
Record vdev := mkVdev {
  dv_seen : Z;
  dv_taken : list Z;
}.

(** The arrays of the driver for one request. *)
Record req_ok (d : vdisk) (bs : list buf) (dk : disk_t) (r : vreq) : Prop := {
  ro_d0 : at_ (vd_desc d) (vr_h0 r) = Some (mkDesc (DReq (vr_h0 r)) 16 VRING_DESC_F_NEXT (vr_h1 r));
  ro_d1 : at_ (vd_desc d) (vr_h1 r) = Some (mkDesc (DData (vr_b r)) BSIZE
    (Z.lor (if vr_write r then 0 else VRING_DESC_F_WRITE) VRING_DESC_F_NEXT) (vr_h2 r));
  ro_d2 : at_ (vd_desc d) (vr_h2 r) = Some (mkDesc (DStatus (vr_h0 r)) 1 VRING_DESC_F_WRITE 0);
  ro_op : at_ (vd_ops d) (vr_h0 r) = Some (mkReq (if vr_write r then VIRTIO_BLK_T_OUT else VIRTIO_BLK_T_IN) 0
    (u32 (vr_blk r * (BSIZE / 512))));
  ro_info : at_ (vd_info d) (vr_h0 r) = Some (mkInfo (Some (vr_b r)) (if done_ r then 0 else 0xff));
  ro_buf : exists x, at_ bs (vr_b r) = Some x /\ b_blockno x = vr_blk r /\
    b_disk x = (if decide (vr_phase r = Acked) then 0 else 1) /\
    (vr_write r = true \/ done_ r = true -> b_data x = vr_val r) /\
    (vr_write r = false \/ done_ r = true -> disk_block dk (vr_blk r) = vr_val r);
}.

Definition heads (p : phase) (P : list vreq) : list Z :=
  vr_h0 <$> filter (fun r => vr_phase r = p) P.

(** [X]: descriptors allocated and not in a request yet. *)
Record vinv (d : vdisk) (bs : list buf) (dk : disk_t) (v : vdev) (P : list vreq) (X : list Z)
    (q u : list Z) : Prop := {
  vi_lens : length (vd_desc d) = Z.to_nat NUM /\ length (vd_avail_ring d) = Z.to_nat NUM /\
    length (vd_used_ring d) = Z.to_nat NUM /\ length (vd_free d) = Z.to_nat NUM /\
    length (vd_info d) = Z.to_nat NUM /\ length (vd_ops d) = Z.to_nat NUM;
  vi_nodup : NoDup (X ++ mjoin (chain <$> P));
  vi_free : forall i, 0 <= i < NUM ->
    at_ (vd_free d) i = Some (if decide (i ∈ X ++ mjoin (chain <$> P)) then 0 else 1);
  vi_range : forall i, i ∈ X ++ mjoin (chain <$> P) -> 0 <= i < NUM;
  vi_bufs : NoDup (vr_b <$> P);
  vi_blks : NoDup (vr_blk <$> P);
  vi_blk : forall r, r ∈ P -> 0 <= vr_blk r < 2^31;
  vi_reqs : forall r, r ∈ P -> req_ok d bs dk r;
  vi_queue : q ≡ₚ heads Queued P;
  vi_avail : vd_avail_idx d = u16 (dv_seen v + Z.of_nat (length q));
  vi_ring : forall j h, q !! j = Some h ->
    at_ (vd_avail_ring d) ((dv_seen v + Z.of_nat j) mod NUM) = Some h;
  vi_taken : dv_taken v ≡ₚ heads Taken P;
  vi_used : u ≡ₚ heads Served P;
  vi_used_dev : vd_used_dev d = u16 (vd_used_idx d + Z.of_nat (length u));
  vi_used_idx : 0 <= vd_used_idx d < 2^16;
  vi_used_ring : forall j h, u !! j = Some h ->
    at_ (vd_used_ring d) ((vd_used_idx d + Z.of_nat j) mod NUM) = Some h;
  vi_seen : 0 <= dv_seen v < 2^16;
}.

Lemma u16_mod x : u16 x mod NUM = x mod NUM.
Proof. unfold u16, NUM. zlia. Qed.
Lemma u16_u16 x y : u16 (u16 x + y) = u16 (x + y).
Proof. unfold u16. apply Zplus_mod_idemp_l. Qed.
Lemma mod_NUM x : 0 <= x mod NUM < NUM.
Proof. apply Z.mod_pos_bound. done. Qed.

Lemma heads_cons p r P : heads p (r :: P) = if decide (vr_phase r = p) then vr_h0 r :: heads p P else heads p P.
Proof. unfold heads. rewrite filter_cons. by case_decide. Qed.
Lemma heads_elem p P h : h ∈ heads p P <-> exists r, r ∈ P /\ vr_h0 r = h /\ vr_phase r = p.
Proof.
  unfold heads. rewrite list_elem_of_fmap. setoid_rewrite list_elem_of_filter. naive_solver.
Qed.
#[export] Instance heads_perm p : Proper ((≡ₚ) ==> (≡ₚ)) (heads p).
Proof. intros P P' E. unfold heads. by rewrite E. Qed.
Lemma heads_length p P : (length (heads p P) <= length P)%nat.
Proof. unfold heads. rewrite length_fmap. apply length_filter. Qed.

Lemma chains_perm P P' : P ≡ₚ P' -> mjoin (chain <$> P) ≡ₚ mjoin (chain <$> P').
Proof. intros E. by rewrite E. Qed.
Lemma chains_cons r P : mjoin (chain <$> r :: P) = chain r ++ mjoin (chain <$> P).
Proof. done. Qed.
Lemma chain_elem P i : i ∈ mjoin (chain <$> P) <-> exists r, r ∈ P /\ i ∈ chain r.
Proof.
  rewrite list_elem_of_join. setoid_rewrite list_elem_of_fmap. naive_solver.
Qed.
Lemma chains_length P : length (mjoin (chain <$> P)) = (3 * length P)%nat.
Proof. induction P as [|r P IH]; [done|]. rewrite chains_cons, length_app, IH. simpl. lia. Qed.

Lemma heads_chains p P h : h ∈ heads p P -> h ∈ mjoin (chain <$> P).
Proof. intros (r & Hr & <- & _)%heads_elem. apply chain_elem. exists r. split; [done|]. unfold chain. set_solver. Qed.
Lemma heads_nodup d bs dk v P X q u p : vinv d bs dk v P X q u -> NoDup (heads p P).
Proof.
  intros HI. pose proof (vi_nodup _ _ _ _ _ _ _ _ HI) as Hn. apply NoDup_app in Hn as (_ & _ & Hn). clear HI.
  induction P as [|r P IH]; [by apply NoDup_nil|]. rewrite chains_cons in Hn. apply NoDup_app in Hn as (_ & Hd & Hn).
  rewrite heads_cons. case_decide; [|auto]. apply NoDup_cons. split; [|auto].
  intros Hin%heads_chains. apply (Hd (vr_h0 r)); [unfold chain; set_solver|done].
Qed.

(** The order of the requests does not matter. *)
Lemma vinv_perm d bs dk v P P' X q u : P ≡ₚ P' -> vinv d bs dk v P X q u -> vinv d bs dk v P' X q u.
Proof.
  intros E [I1 I2 I3 I4 I5 I6 I7 I8 I9 I10 I11 I12 I13 I14 I15 I16 I17].
  pose proof (chains_perm _ _ E) as Ec.
  assert (El : forall i, i ∈ X ++ mjoin (chain <$> P') <-> i ∈ X ++ mjoin (chain <$> P)).
  { intros i. rewrite !elem_of_app, Ec. done. }
  split; try done.
  - by rewrite <- Ec.
  - intros i Hi. rewrite I3 by done. f_equal. apply decide_ext. symmetry. apply El.
  - intros i Hi. apply I4, El, Hi.
  - by rewrite <- E.
  - by rewrite <- E.
  - intros r Hr. apply I7. by rewrite E.
  - intros r Hr. apply I8. by rewrite E.
  - by rewrite <- E.
  - by rewrite <- E.
  - by rewrite <- E.
Qed.

Lemma vinv_take d bs dk v P X q u r :
  vinv d bs dk v P X q u -> r ∈ P -> exists P0, P ≡ₚ (r :: P0) /\ vinv d bs dk v (r :: P0) X q u.
Proof.
  intros HI Hr. apply list_elem_of_split in Hr as (P1 & P2 & ->). exists (P1 ++ P2).
  assert (E : P1 ++ (r :: P2) ≡ₚ (r :: P1 ++ P2)) by (symmetry; apply Permutation_middle).
  split; [done|]. by eapply vinv_perm.
Qed.

Lemma in_flight_few d bs dk v P X q u :
  vinv d bs dk v P X q u -> (length X + 3 * length P <= Z.to_nat NUM)%nat.
Proof.
  intros HI. rewrite <- chains_length, <- length_app.
  rewrite <- (length_seqZ 0 NUM). apply submseteq_length, NoDup_submseteq; [apply HI|].
  intros i Hi. apply elem_of_seqZ. apply (vi_range _ _ _ _ _ _ _ _ HI) in Hi. lia.
Qed.

(** Requests do not interfere. *)
Lemma req_ok_ext d d' bs bs' dk dk' r :
  (forall i, i ∈ chain r -> at_ (vd_desc d') i = at_ (vd_desc d) i) ->
  at_ (vd_ops d') (vr_h0 r) = at_ (vd_ops d) (vr_h0 r) ->
  at_ (vd_info d') (vr_h0 r) = at_ (vd_info d) (vr_h0 r) ->
  at_ bs' (vr_b r) = at_ bs (vr_b r) -> disk_block dk' (vr_blk r) = disk_block dk (vr_blk r) ->
  req_ok d bs dk r -> req_ok d' bs' dk' r.
Proof.
  intros Hd Ho Hi Hb Hk [R1 R2 R3 R4 R5 R6]. unfold chain in Hd.
  split; rewrite ?Ho, ?Hi, ?Hb, ?Hk, ?Hd by set_solver; done.
Qed.

Lemma other_req d bs dk v r P X q u r' :
  vinv d bs dk v (r :: P) X q u -> r' ∈ P ->
  (forall i, i ∈ chain r' -> ~ (i ∈ chain r) /\ ~ (i ∈ X)) /\ vr_b r' <> vr_b r /\ vr_blk r' <> vr_blk r.
Proof.
  intros HI Hr'. pose proof (vi_nodup _ _ _ _ _ _ _ _ HI) as Hn.
  pose proof (vi_bufs _ _ _ _ _ _ _ _ HI) as Hb. pose proof (vi_blks _ _ _ _ _ _ _ _ HI) as Hk.
  split.
  - intros i Hi. assert (Hj : i ∈ mjoin (chain <$> P)) by (apply chain_elem; eauto).
    apply NoDup_app in Hn as (_ & Hx & Hn). rewrite chains_cons in Hn, Hx.
    apply NoDup_app in Hn as (_ & Hn & _). split; [by intros ?%Hn|].
    intros Hix. apply (Hx i Hix). apply elem_of_app. by right.
  - apply NoDup_cons in Hb as [Hb _]. apply NoDup_cons in Hk as [Hk _].
    split; intros E; [apply Hb|apply Hk]; rewrite <- E; by apply list_elem_of_fmap_2.
Qed.

(** ** The device

    The behaviour of a virtio block device (VIRTIO 1.1, 2.6 and 5.2): it takes
    the next head from the avail ring; it serves a request by following the
    chain of descriptors, moves the data, writes a zero status and puts the head
    into the used ring.  Requests may be served in any order. *)
Definition complete (j h : Z) (x : vinfo) (d : vdisk) : vdisk :=
  set_vd_used_dev (u16 (vd_used_dev d + 1))
  (set_vd_used_ring (put (vd_used_ring d) (vd_used_dev d mod NUM) h)
  (set_vd_info (put (vd_info d) j (mkInfo (in_b x) 0)) d)).

Inductive dev_step : kstate * vdev -> kstate * vdev -> Prop :=
| dev_take s seen T h :
    seen <> vd_avail_idx (k_vdisk s) ->
    at_ (vd_avail_ring (k_vdisk s)) (seen mod NUM) = Some h ->
    dev_step (s, mkVdev seen T) (s, mkVdev (u16 (seen + 1)) (T ++ [h]))
| dev_write s seen T T' h k i1 i2 b j sec x inf d :
    d = k_vdisk s -> T ≡ₚ (h :: T') ->
    at_ (vd_desc d) h = Some (mkDesc (DReq k) 16 VRING_DESC_F_NEXT i1) ->
    at_ (vd_ops d) k = Some (mkReq VIRTIO_BLK_T_OUT 0 sec) ->
    at_ (vd_desc d) i1 = Some (mkDesc (DData b) BSIZE VRING_DESC_F_NEXT i2) ->
    at_ (vd_desc d) i2 = Some (mkDesc (DStatus j) 1 VRING_DESC_F_WRITE 0) ->
    at_ (k_bufs s) b = Some x -> at_ (vd_info d) j = Some inf ->
    dev_step (s, mkVdev seen T)
      (set_vdisk (complete j h inf d) (set_disk (disk_write (sec / (BSIZE / 512)) (b_data x) (k_disk s)) s),
       mkVdev seen T')
| dev_read s seen T T' h k i1 i2 b j sec x inf d :
    d = k_vdisk s -> T ≡ₚ (h :: T') ->
    at_ (vd_desc d) h = Some (mkDesc (DReq k) 16 VRING_DESC_F_NEXT i1) ->
    at_ (vd_ops d) k = Some (mkReq VIRTIO_BLK_T_IN 0 sec) ->
    at_ (vd_desc d) i1 = Some (mkDesc (DData b) BSIZE (Z.lor VRING_DESC_F_WRITE VRING_DESC_F_NEXT) i2) ->
    at_ (vd_desc d) i2 = Some (mkDesc (DStatus j) 1 VRING_DESC_F_WRITE 0) ->
    at_ (k_bufs s) b = Some x -> at_ (vd_info d) j = Some inf ->
    dev_step (s, mkVdev seen T)
      (set_vdisk (complete j h inf d) (set_bufs (put (k_bufs s) b
         (set_b_data (disk_block (k_disk s) (sec / (BSIZE / 512))) x)) s),
       mkVdev seen T').

Lemma sector_block blk : 0 <= blk < 2^31 -> u32 (blk * (BSIZE / 512)) / (BSIZE / 512) = blk.
Proof.
  intros Hb. change (BSIZE / 512) with 2. unfold u32. rewrite Z.mod_small by lia. apply Z.div_mul. lia.
Qed.

(** The queue is read in order. *)
Lemma vinv_dev_take d bs dk seen T P X q u h :
  vinv d bs dk (mkVdev seen T) P X q u -> seen <> vd_avail_idx d ->
  at_ (vd_avail_ring d) (seen mod NUM) = Some h ->
  exists r P0 q', q = h :: q' /\ P ≡ₚ (r :: P0) /\ vr_h0 r = h /\ vr_phase r = Queued /\
    vinv d bs dk (mkVdev (u16 (seen + 1)) (T ++ [h])) (set_phase Taken r :: P0) X q' u.
Proof.
  intros HI Hne Hat. pose proof (vi_seen _ _ _ _ _ _ _ _ HI) as Hs. simpl in Hs.
  destruct q as [|h' q'].
  { exfalso. apply Hne. rewrite (vi_avail _ _ _ _ _ _ _ _ HI). simpl. unfold u16.
    rewrite Z.add_0_r, Z.mod_small by lia. done. }
  pose proof (vi_ring _ _ _ _ _ _ _ _ HI 0%nat h' eq_refl) as Hr. simpl in Hr.
  rewrite Z.add_0_r, Hat in Hr. injection Hr as <-.
  assert (Hin : h ∈ heads Queued P) by (rewrite <- (vi_queue _ _ _ _ _ _ _ _ HI); set_solver).
  apply heads_elem in Hin as (r & Hr & Hh & Hp).
  destruct (vinv_take _ _ _ _ _ _ _ _ r HI Hr) as (P0 & E & HI'). exists r, P0, q'.
  do 4 (split; [done|]). destruct HI' as [I1 I2 I3 I4 I5 I6 I7 I8 I9 I10 I11 I12 I13 I14 I15 I16 I17].
  rewrite heads_cons, ?Hp in I9, I12, I13. simpl in I9, I12, I13. rewrite Hh in I9.
  split; try done.
  - intros r' [->|Hr']%elem_of_cons; [apply (I7 r); set_solver|apply I7; set_solver].
  - intros r' [->|Hr']%elem_of_cons; [|apply I8; set_solver].
    destruct (I8 r ltac:(set_solver)) as [R1 R2 R3 R4 R5 R6]. unfold done_ in *. rewrite Hp in *.
    by split.
  - rewrite heads_cons. simpl. by apply Permutation_cons_inv in I9.
  - rewrite I10. simpl. rewrite u16_u16. f_equal. lia.
  - intros j x Hj. specialize (I11 (S j) x Hj). simpl in I11. rewrite <- I11. f_equal.
    simpl. unfold u16, NUM. zlia.
  - rewrite heads_cons. simpl. rewrite Hh. rewrite (Permutation_app_comm T [h]). simpl. by rewrite I12.
  - simpl. unfold u16. apply Z.mod_pos_bound. done.
Qed.

Lemma ring_apart x j k : 0 <= j < k -> k < NUM -> (x + j) mod NUM <> (x + k) mod NUM.
Proof. intros. unfold NUM in *. zlia. Qed.

Lemma served_few d bs dk v P X q u :
  vinv d bs dk v P X q u -> (length u < Z.to_nat NUM)%nat /\ (length q < Z.to_nat NUM)%nat.
Proof.
  intros HI. pose proof (in_flight_few _ _ _ _ _ _ _ _ HI) as Hf.
  rewrite (vi_used _ _ _ _ _ _ _ _ HI), (vi_queue _ _ _ _ _ _ _ _ HI).
  pose proof (heads_length Served P). pose proof (heads_length Queued P). unfold NUM in *. lia.
Qed.

Lemma vinv_complete d bs dk seen T T' X q u r P bs' dk' :
  vinv d bs dk (mkVdev seen T) (r :: P) X q u -> vr_phase r = Taken -> T ≡ₚ (vr_h0 r :: T') ->
  (forall r', r' ∈ P -> at_ bs' (vr_b r') = at_ bs (vr_b r') /\
     disk_block dk' (vr_blk r') = disk_block dk (vr_blk r')) ->
  (exists x, at_ bs' (vr_b r) = Some x /\ b_blockno x = vr_blk r /\ b_disk x = 1 /\
     b_data x = vr_val r /\ disk_block dk' (vr_blk r) = vr_val r) ->
  vinv (complete (vr_h0 r) (vr_h0 r) (mkInfo (Some (vr_b r)) 0xff) d) bs' dk' (mkVdev seen T')
    (set_phase Served r :: P) X q (u ++ [vr_h0 r]).
Proof.
  intros HI Hp HT Hoth (x & Hx & Hxb & Hxd & Hxv & Hdv). pose proof (served_few _ _ _ _ _ _ _ _ HI) as [Hu _].
  pose proof HI as [I1 I2 I3 I4 I5 I6 I7 I8 I9 I10 I11 I12 I13 I14 I15 I16 I17].
  destruct I1 as (L1 & L2 & L3 & L4 & L5 & L6).
  rewrite heads_cons, Hp in I9, I12, I13. simpl in I9, I12, I13.
  assert (H0 : 0 <= vr_h0 r < Z.of_nat (length (vd_info d))).
  { rewrite L5. apply I4. rewrite chains_cons. set_solver. }
  assert (Hring : 0 <= vd_used_dev d mod NUM < Z.of_nat (length (vd_used_ring d)))
    by (rewrite L3; pose proof (mod_NUM (vd_used_dev d)); lia).
  split; try done.
  - split_and!; try done; simpl; by rewrite put_length.
  - intros r' [->|Hr']%elem_of_cons; [apply (I7 r); set_solver|apply I7; set_solver].
  - intros r' [->|Hr']%elem_of_cons.
    + destruct (I8 r ltac:(set_solver)) as [R1 R2 R3 R4 R5 R6]. split; try done.
      * simpl. rewrite at_put by done. by rewrite decide_True.
      * exists x. simpl. by split_and!.
    + destruct (other_req _ _ _ _ _ _ _ _ _ r' HI Hr') as (Hc & Hb & Hk).
      destruct (Hoth r' Hr') as [E1 E2]. apply (req_ok_ext d _ bs _ dk); try done; [|apply I8; set_solver].
      simpl. rewrite at_put by done. rewrite decide_False; [done|].
      intros E. apply (Hc (vr_h0 r')); [set_solver|rewrite E; set_solver].
  - rewrite heads_cons. simpl. rewrite HT in I12. by apply Permutation_cons_inv in I12.
  - rewrite heads_cons. simpl. rewrite (Permutation_app_comm u). simpl. by rewrite I13.
  - simpl. rewrite I14, u16_u16, length_app. f_equal. simpl. lia.
  - intros j h Hj. simpl. rewrite at_put by done. rewrite I14, u16_mod.
    apply lookup_app_Some in Hj as [Hj|[Hge Hj]].
    + rewrite decide_False; [by apply I16|]. pose proof (lookup_lt_Some _ _ _ Hj).
      apply ring_apart; lia.
    + apply list_lookup_singleton_Some in Hj as [Hj <-]. rewrite decide_True; [done|]. do 2 f_equal. lia.
Qed.

(** ** States of the machine *)

Definition vst (s : kstate) (v : vdev) (P : list vreq) (X : list Z) : Prop :=
  exists q u, vinv (k_vdisk s) (k_bufs s) (k_disk s) v P X q u.

Definition rank (p : phase) : Z :=
  match p with Queued => 0 | Taken => 1 | Served => 2 | Acked => 3 end.
(** The same requests, perhaps further on. *)
Definition later (P P' : list vreq) : Prop :=
  (vr_b <$> P) ≡ₚ (vr_b <$> P') /\ (vr_blk <$> P) ≡ₚ (vr_blk <$> P') /\
  forall r, r ∈ P -> exists r', r' ∈ P' /\ r' = set_phase (vr_phase r') r /\
    rank (vr_phase r) <= rank (vr_phase r').

Lemma set_phase_id r : set_phase (vr_phase r) r = r.
Proof. by destruct r. Qed.
Lemma later_refl P : later P P.
Proof. do 2 (split; [done|]). intros r Hr. exists r. rewrite set_phase_id. by split_and!. Qed.
Lemma later_trans P1 P2 P3 : later P1 P2 -> later P2 P3 -> later P1 P3.
Proof.
  intros (A1 & A3 & A2) (B1 & B3 & B2). split; [by rewrite A1|]. split; [by rewrite A3|]. intros r (r1 & Hr1 & E1 & K1)%A2.
  apply B2 in Hr1 as (r2 & Hr2 & E2 & K2). exists r2. split; [done|]. split; [|lia].
  rewrite E2, E1 at 1. done.
Qed.
Lemma later_one P r P0 p : P ≡ₚ (r :: P0) -> rank (vr_phase r) <= rank p -> later P (set_phase p r :: P0).
Proof.
  intros E Hp. do 2 (split; [by rewrite E|]). intros r' Hr'. rewrite E in Hr'.
  apply elem_of_cons in Hr' as [->|Hr'].
  - exists (set_phase p r). split; [set_solver|]. done.
  - exists r'. rewrite set_phase_id. split; [set_solver|]. done.
Qed.

Lemma taken_req s seen T P X h T' :
  vst s (mkVdev seen T) P X -> T ≡ₚ (h :: T') ->
  exists r P0 q u, P ≡ₚ (r :: P0) /\ vr_h0 r = h /\ vr_phase r = Taken /\
    vinv (k_vdisk s) (k_bufs s) (k_disk s) (mkVdev seen T) (r :: P0) X q u /\
    req_ok (k_vdisk s) (k_bufs s) (k_disk s) r /\ 0 <= vr_blk r < 2^31.
Proof.
  intros (q & u & HI) HT.
  assert (Hin : h ∈ heads Taken P) by (rewrite <- (vi_taken _ _ _ _ _ _ _ _ HI); simpl; rewrite HT; set_solver).
  apply heads_elem in Hin as (r & Hr & Hh & Hp).
  destruct (vinv_take _ _ _ _ _ _ _ _ r HI Hr) as (P0 & E & HI'). exists r, P0, q, u.
  split_and!; try done; [apply (vi_reqs _ _ _ _ _ _ _ _ HI)|apply (vi_blk _ _ _ _ _ _ _ _ HI r)..]; done.
Qed.

(** What is not in flight is left alone. *)
Definition untouched (P : list vreq) (s s' : kstate) : Prop :=
  (forall b, ~ (b ∈ vr_b <$> P) -> at_ (k_bufs s') b = at_ (k_bufs s) b) /\
  (forall k, ~ (k ∈ vr_blk <$> P) -> disk_block (k_disk s') k = disk_block (k_disk s) k).

Lemma untouched_refl P s : untouched P s s.
Proof. done. Qed.
Lemma untouched_trans P P' s1 s2 s3 : later P P' -> untouched P s1 s2 -> untouched P' s2 s3 -> untouched P s1 s3.
Proof.
  intros (L1 & L2 & _) [A1 A2] [B1 B2].
  split; intros i Hi; [rewrite B1, A1|rewrite B2, A2]; rewrite <- ?L1, <- ?L2; done.
Qed.
Lemma in_flight_elem {A} (f : vreq -> A) P P0 r : P ≡ₚ (r :: P0) -> f r ∈ f <$> P.
Proof. intros ->. simpl. apply elem_of_cons. by left. Qed.

(** The device acknowledges nothing. *)
Definition no_ack (P P' : list vreq) : Prop := forall r, r ∈ P' -> vr_phase r = Acked -> r ∈ P.

(** Serving a request, for data moved either way. *)
Lemma serve_ok s seen T T' P X r P0 q u bs' dk' x :
  vinv (k_vdisk s) (k_bufs s) (k_disk s) (mkVdev seen T) (r :: P0) X q u -> P ≡ₚ (r :: P0) ->
  vr_phase r = Taken -> T ≡ₚ (vr_h0 r :: T') ->
  (forall b, b <> vr_b r -> at_ bs' b = at_ (k_bufs s) b) ->
  (forall k, k <> vr_blk r -> disk_block dk' k = disk_block (k_disk s) k) ->
  at_ bs' (vr_b r) = Some x -> b_blockno x = vr_blk r -> b_disk x = 1 -> b_data x = vr_val r ->
  disk_block dk' (vr_blk r) = vr_val r ->
  let s' := set_vdisk (complete (vr_h0 r) (vr_h0 r) (mkInfo (Some (vr_b r)) 0xff) (k_vdisk s))
              (set_bufs bs' (set_disk dk' s)) in
  exists P', vst s' (mkVdev seen T') P' X /\ later P P' /\ untouched P s s' /\ no_ack P P'.
Proof.
  intros HI E Hp HT Hbs Hdk Hx X1 X2 X3 X4 s'. exists (set_phase Served r :: P0). split; [|split; [|split]].
  - exists q, (u ++ [vr_h0 r]). apply (vinv_complete _ (k_bufs s) (k_disk s) seen T T'); try done.
    + intros r' Hr'. destruct (other_req _ _ _ _ _ _ _ _ _ r' HI Hr') as (_ & Hb & Hk). auto.
    + exists x. by split_and!.
  - apply later_one; [done|by rewrite Hp].
  - split; intros i Hi; [apply Hbs|apply Hdk]; intros ->; by apply Hi, (in_flight_elem _ _ _ _ E).
  - intros r' [->|Hr']%elem_of_cons Hp'; [done|]. rewrite E. apply elem_of_cons. by right.
Qed.

Lemma dev_step_ok s v s' v' P X :
  vst s v P X -> dev_step (s, v) (s', v') -> exists P', vst s' v' P' X /\ later P P' /\ untouched P s s' /\ no_ack P P'.
Proof.
  intros HV Hst. inversion Hst as [s0 seen T h Hne Hat|
    s0 seen T T' h k i1 i2 b j sec x inf d Ed HT H0 Hop H1 H2 Hx Hinf|
    s0 seen T T' h k i1 i2 b j sec x inf d Ed HT H0 Hop H1 H2 Hx Hinf]; subst.
  { destruct HV as (q & u & HI).
    destruct (vinv_dev_take _ _ _ _ _ _ _ _ _ _ HI Hne Hat) as (r & P0 & q' & _ & E & Hh & Hp & HI').
    exists (set_phase Taken r :: P0). split; [by exists q', u|]. split; [|split; [done|]].
    - apply later_one; [done|by rewrite Hp].
    - intros r' [->|Hr']%elem_of_cons Hp'; [done|]. rewrite E. apply elem_of_cons. by right. }
  all: destruct (taken_req _ _ _ _ _ _ _ HV HT) as (r & P0 & q & u & E & <- & Hp & HI & [R1 R2 R3 R4 R5 R6] & Hk);
    rewrite R1 in H0; injection H0 as <- <-; rewrite R4 in Hop; destruct (vr_write r) eqn:Hw; try done;
    injection Hop as <-; rewrite R2 in H1; injection H1 as <- <-; rewrite R3 in H2; injection H2 as <-;
    unfold done_ in R5, R6; rewrite Hp in R5, R6; simpl in R5, R6; rewrite R5 in Hinf; injection Hinf as <-;
    destruct R6 as (x' & Hx' & X1 & X2 & X3 & X4); rewrite Hx in Hx'; injection Hx' as <-;
    rewrite sector_block by done.
  - replace (set_disk _ s) with (set_bufs (k_bufs s) (set_disk (disk_write (vr_blk r) (b_data x) (k_disk s)) s))
      by (by destruct s).
    apply (serve_ok s seen T T' P X r P0 q u _ _ x); try done; [|auto|].
    + intros k Hk'. by rewrite disk_block_write, decide_False.
    + rewrite disk_block_write, decide_True by done. auto.
  - pose proof (at_Some _ _ _ Hx) as Hbr.
    set (bs' := put _ _ _). replace (set_bufs bs' s) with (set_bufs bs' (set_disk (k_disk s) s)) by (by destruct s).
    apply (serve_ok s seen T T' P X r P0 q u bs' _ (set_b_data (disk_block (k_disk s) (vr_blk r)) x)); try done.
    + intros b Hb. subst bs'. by rewrite at_put, decide_False.
    + subst bs'. by rewrite at_put, decide_True.
    + simpl. auto.
    + auto.
Qed.

(** A request the device has taken can be served: its chain is well formed. *)
Lemma dev_can_serve s seen T T' h P X :
  vst s (mkVdev seen T) P X -> T ≡ₚ (h :: T') -> exists s', dev_step (s, mkVdev seen T) (s', mkVdev seen T').
Proof.
  intros HV HT.
  destruct (taken_req _ _ _ _ _ _ _ HV HT) as (r & P0 & q & u & E & <- & Hp & HI & [R1 R2 R3 R4 R5 R6] & Hk).
  destruct R6 as (x & Hx & _). destruct (vr_write r) eqn:Hw; eexists.
  - eapply dev_write; [reflexivity|exact HT|exact R1|exact R4|exact R2|exact R3|exact Hx|exact R5].
  - eapply dev_read; [reflexivity|exact HT|exact R1|exact R4|exact R2|exact R3|exact Hx|exact R5].
Qed.
Lemma queue_head d bs dk seen T P X h q u :
  vinv d bs dk (mkVdev seen T) P X (h :: q) u ->
  seen <> vd_avail_idx d /\ at_ (vd_avail_ring d) (seen mod NUM) = Some h.
Proof.
  intros HI. pose proof (served_few _ _ _ _ _ _ _ _ HI) as [_ Hq].
  pose proof (vi_ring _ _ _ _ _ _ _ _ HI 0%nat h eq_refl) as Hat.
  simpl in Hat. rewrite Z.add_0_r in Hat. split; [|done].
  rewrite (vi_avail _ _ _ _ _ _ _ _ HI). pose proof (vi_seen _ _ _ _ _ _ _ _ HI). simpl in *.
  unfold u16, NUM in *. zlia.
Qed.

(** ** Descriptors *)

(** Inside a section: no process lock is held, and interrupts are off. *)
Definition crit (s : kstate) : Prop := procs_ok s /\ 0 < c_noff (k_cpu s).

Definition woke (ch : chan) (s : kstate) : kstate :=
  set_procs (imap (fun i p => woken (c_proc (k_cpu s)) (Some ch) (Z.of_nat i) p) (k_procs s)) s.

Lemma wakeup_crit ch s : crit s -> wakeup ch s = Ok tt (woke ch s).
Proof.
  intros [Hok Hn]. destruct (proj1 (runs_ok _ _) (wakeup_at_spec s (Some ch) Hok)) as ([] & s' & E & j & Hj & ->).
  unfold wakeup. rewrite E. f_equal. rewrite (Hj Hn). unfold woke. by destruct s as [[] ? ? ? ? ?].
Qed.

(** The control state is the same, and the processes are those of before. *)
Definition ctl_same (s s' : kstate) : Prop :=
  k_cpu s' = k_cpu s /\ k_csr s' = k_csr s /\ k_locks s' = k_locks s /\
  length (k_procs s') = length (k_procs s).
#[export] Instance ctl_same_preorder : PreOrder ctl_same.
Proof.
  split; [done|]. intros s1 s2 s3 (A1 & A2 & A3 & A4) (B1 & B2 & B3 & B4). split_and!; congruence.
Qed.
Lemma ctl_same_crit s s' : ctl_same s s' -> crit s -> crit s'.
Proof.
  intros (E1 & E2 & E3 & E4) [(Hc & Hl & Hp) Hn]. unfold crit, procs_ok, cpu_ok, lock_free, ints_on in *.
  rewrite E1, E2, E3, E4. done.
Qed.
Lemma woke_ctl ch s : ctl_same s (woke ch s).
Proof. split_and!; try done. simpl. apply length_imap. Qed.

(** The first descriptor that is free. *)
Lemma find_free n lo s :
  0 <= lo -> lo + Z.of_nat n = Z.of_nat (length (vd_free (k_vdisk s))) ->
  let body i := (f <- vd_get vd_free i ;; if negb (f =? 0) then put_free i 0 ;; ret (Some i) else ret None) in
  for_find n lo body s = Ok None s /\
    (forall i, lo <= i < lo + Z.of_nat n -> at_ (vd_free (k_vdisk s)) i = Some 0) \/
  exists i x, lo <= i < lo + Z.of_nat n /\ at_ (vd_free (k_vdisk s)) i = Some x /\ x <> 0 /\
    for_find n lo body s =
      Ok (Some i) (set_vdisk (set_vd_free (put (vd_free (k_vdisk s)) i 0) (k_vdisk s)) s).
Proof.
  intros Hlo Hn body. revert lo Hlo Hn. induction n as [|n IH]; intros lo Hlo Hn; simpl.
  { left. split; [done|]. lia. }
  destruct (at_is_Some (vd_free (k_vdisk s)) lo ltac:(lia)) as [x Hx].
  assert (Hb : body lo s = (if negb (x =? 0) then put_free lo 0 ;; ret (Some lo) else ret None) s)
    by (exact (bind_ok _ _ _ _ _ (vd_get_eq _ _ _ _ Hx))).
  destruct (Z.eqb_spec x 0) as [->|Hx0]; simpl in Hb.
  - rewrite (bind_ok _ _ _ _ _ Hb). destruct (IH (lo + 1) ltac:(lia) ltac:(lia)) as [[E Hall]|(i & y & Hi & Hy & Hy0 & E)].
    + left. split; [done|]. intros i Hi. destruct (decide (i = lo)) as [->|]; [done|]. apply Hall. lia.
    + right. exists i, y. split_and!; try done; lia.
  - right. exists lo, x. split; [lia|]. split; [done|]. split; [done|].
    unfold put_free in Hb.
    rewrite (bind_ok _ _ _ _ _ (vd_upd_eq vd_free set_vd_free lo (fun _ => 0) x s Hx)) in Hb.
    by rewrite (bind_ok _ _ _ _ _ Hb).
Qed.

Definition reserve (i : Z) (s : kstate) : kstate :=
  set_vdisk (set_vd_free (put (vd_free (k_vdisk s)) i 0) (k_vdisk s)) s.

Lemma alloc_desc_spec s v P X :
  vst s v P X ->
  alloc_desc s = Ok (-1) s /\ (forall i, 0 <= i < NUM -> i ∈ X ++ mjoin (chain <$> P)) \/
  exists i, 0 <= i < NUM /\ ~ (i ∈ X ++ mjoin (chain <$> P)) /\ alloc_desc s = Ok i (reserve i s) /\
    vst (reserve i s) v P (i :: X).
Proof.
  intros (q & u & HI). pose proof HI as [(L1 & L2 & L3 & L4 & L5 & L6) I2 I3 I4 I5 I6 I7 I8 I9 I10 I11 I12 I13 I14 I15 I16 I17].
  destruct (find_free (Z.to_nat NUM) 0 s ltac:(lia) ltac:(rewrite L4; unfold NUM; lia))
    as [[E Hall]|(i & x & Hi & Hx & Hx0 & E)]; unfold alloc_desc; rewrite (bind_ok _ _ _ _ _ E).
  - left. split; [done|]. intros i Hi. specialize (Hall i ltac:(unfold NUM in *; lia)).
    rewrite I3 in Hall by done. by destruct (decide _).
  - right. assert (Hi' : 0 <= i < NUM) by (unfold NUM in *; lia). exists i. split; [done|].
    rewrite I3 in Hx by done. destruct (decide (i ∈ X ++ mjoin (chain <$> P))) as [|Hni]; [congruence|].
    split; [done|]. split; [done|]. exists q, u. split; try done.
    + split_and!; try done. simpl. by rewrite put_length.
    + by apply NoDup_cons.
    + intros j Hj. simpl. rewrite at_put by (rewrite L4; unfold NUM in *; lia).
      destruct (decide (j = i)) as [->|Hne]; [rewrite decide_True by set_solver; done|].
      rewrite I3 by done. f_equal. apply decide_ext. simpl. rewrite elem_of_cons. naive_solver.
    + intros j. simpl. rewrite elem_of_cons. intros [->|Hj]; [done|by apply I4].
    + intros r Hr. apply (req_ok_ext (k_vdisk s) _ (k_bufs s) _ (k_disk s)); auto.
Qed.

Definition unreserve (i : Z) (s : kstate) : kstate :=
  let d := set_vd_desc (put (vd_desc (k_vdisk s)) i zero_desc) (k_vdisk s) in
  woke ChDiskFree (set_vdisk (set_vd_free (put (vd_free d) i 1) d) s).

Lemma unreserve_ctl i s : ctl_same s (unreserve i s).
Proof. split_and!; try done. simpl. apply length_imap. Qed.

Lemma free_desc_eq s i d :
  crit s -> 0 <= i < NUM -> at_ (vd_free (k_vdisk s)) i = Some 0 -> at_ (vd_desc (k_vdisk s)) i = Some d ->
  free_desc i s = Ok tt (unreserve i s).
Proof.
  intros Hc Hi Hf Hd. unfold free_desc. replace (i >=? NUM) with false by lia.
  rewrite (bind_ok _ _ _ _ _ (vd_get_eq _ _ _ _ Hf)). cbn [Z.eqb negb]. unfold put_desc, put_free.
  rewrite (bind_ok _ _ _ _ _ (vd_upd_eq vd_desc set_vd_desc i (fun _ => zero_desc) d s Hd)).
  set (s1 := set_vdisk _ s).
  rewrite (bind_ok _ _ _ _ _ (vd_upd_eq vd_free set_vd_free i (fun _ => 1) 0 s1 Hf)).
  set (s2 := set_vdisk _ s1). change (unreserve i s) with (woke ChDiskFree s2). by apply wakeup_crit.
Qed.

Lemma free_desc_spec s v P X X' i :
  vst s v P X -> crit s -> X ≡ₚ (i :: X') ->
  free_desc i s = Ok tt (unreserve i s) /\ vst (unreserve i s) v P X' /\ ctl_same s (unreserve i s) /\
  (forall j, j <> i -> at_ (vd_desc (k_vdisk (unreserve i s))) j = at_ (vd_desc (k_vdisk s)) j).
Proof.
  intros (q & u & HI) Hc EX.
  pose proof HI as [(L1 & L2 & L3 & L4 & L5 & L6) I2 I3 I4 I5 I6 I7 I8 I9 I10 I11 I12 I13 I14 I15 I16 I17].
  assert (El : forall j, j ∈ X ++ mjoin (chain <$> P) <-> j = i \/ j ∈ X' ++ mjoin (chain <$> P))
    by (intros j; rewrite !elem_of_app, EX, elem_of_cons; tauto).
  assert (Hnd : NoDup (i :: X' ++ mjoin (chain <$> P))).
  { change (NoDup ((i :: X') ++ mjoin (chain <$> P))). by rewrite <- EX. }
  apply NoDup_cons in Hnd as [Hni Hnd].
  assert (Hi : 0 <= i < NUM) by (apply I4, El; by left).
  pose proof (I3 i Hi) as Hf. rewrite decide_True in Hf by (apply El; by left).
  destruct (at_is_Some (vd_desc (k_vdisk s)) i ltac:(rewrite L1; unfold NUM in *; lia)) as [d Hd].
  split; [by eapply free_desc_eq|]. split; [|split; [apply unreserve_ctl|]].
  - exists q, u. split; try done.
    + split_and!; try done; simpl; by rewrite put_length.
    + intros j Hj. simpl. rewrite at_put by (rewrite L4; unfold NUM in *; lia).
      destruct (decide (j = i)) as [->|Hne]; [by rewrite decide_False|].
      rewrite I3 by done. f_equal. apply decide_ext. rewrite El. naive_solver.
    + intros j Hj. apply I4, El. by right.
    + intros r Hr. apply (req_ok_ext (k_vdisk s) _ (k_bufs s) _ (k_disk s)); auto.
      intros j Hj. simpl. rewrite at_put by (rewrite L1; unfold NUM in *; lia).
      rewrite decide_False; [done|]. intros ->. apply Hni, elem_of_app. right. apply chain_elem. eauto.
  - intros j Hj. simpl. rewrite at_put by (rewrite L1; unfold NUM in *; lia). by rewrite decide_False.
Qed.

Lemma all_taken d bs dk v P X q u :
  vinv d bs dk v P X q u -> (forall i, 0 <= i < NUM -> i ∈ X ++ mjoin (chain <$> P)) -> (length X <= 2)%nat ->
  (2 <= length P)%nat.
Proof.
  intros HI Hall HX. assert (Hl : (length (seqZ 0 NUM) <= length (X ++ mjoin (chain <$> P)))%nat).
  { apply submseteq_length, NoDup_submseteq; [apply NoDup_seqZ|]. intros i Hi%elem_of_seqZ. apply Hall. lia. }
  rewrite length_seqZ, length_app, chains_length in Hl. unfold NUM in *. lia.
Qed.

(** Three descriptors; or none, when two requests are in flight. *)
Lemma alloc3_desc_spec s v P :
  vst s v P [] -> crit s ->
  runs (alloc3_desc s) (fun r s' => ctl_same s s' /\ k_bufs s' = k_bufs s /\ k_disk s' = k_disk s /\
    match r with
    | None => vst s' v P [] /\ (2 <= length P)%nat
    | Some (i0, i1, i2) => vst s' v P [i2; i1; i0]
    end).
Proof.
  intros HV Hc. unfold alloc3_desc.
  assert (Hfull : forall t X, vst t v P X -> (forall i, 0 <= i < NUM -> i ∈ X ++ mjoin (chain <$> P)) ->
    (length X <= 2)%nat -> (2 <= length P)%nat) by (intros t X (q & u & HI); by apply (all_taken _ _ _ _ _ _ _ _ HI)).
  destruct (alloc_desc_spec s v P [] HV) as [[E HF]|(i0 & H0 & N0 & E & HV0)]; rewrite (bind_ok _ _ _ _ _ E).
  { cbn [Z.ltb Z.compare runs ret]. split_and!; try done. apply (Hfull s []); [done..|simpl; lia]. }
  replace (i0 <? 0) with false by lia. assert (C0 : crit (reserve i0 s)) by done.
  destruct (alloc_desc_spec _ v P [i0] HV0) as [[E1 HF]|(i1 & H1 & N1 & E1 & HV1)];
    rewrite (bind_ok _ _ _ _ _ E1).
  { destruct (free_desc_spec _ v P [i0] [] i0 HV0 C0 ltac:(done)) as (F & HV' & Hctl & _).
    cbn [Z.ltb Z.compare]. rewrite (bind_ok _ _ _ _ _ F). cbn [runs ret].
    split; [by etrans|]. split_and!; try done. apply (Hfull _ [i0] HV0 HF). simpl. lia. }
  replace (i1 <? 0) with false by lia. assert (C1 : crit (reserve i1 (reserve i0 s))) by done.
  destruct (alloc_desc_spec _ v P [i1; i0] HV1) as [[E2 HF]|(i2 & H2 & N2 & E2 & HV2)];
    rewrite (bind_ok _ _ _ _ _ E2); [|replace (i2 <? 0) with false by lia; by cbn].
  destruct (free_desc_spec _ v P [i1; i0] [i1] i0 HV1 C1 ltac:(apply Permutation_swap)) as (F & HV' & Hctl & _).
  cbn [Z.ltb Z.compare]. rewrite (bind_ok _ _ _ _ _ F).
  destruct (free_desc_spec _ v P [i1] [] i1 HV' ltac:(by eapply ctl_same_crit) ltac:(done)) as (F' & HV'' & Hctl' & _).
  rewrite (bind_ok _ _ _ _ _ F'). cbn [runs ret].
  split; [by etrans; [|exact Hctl']; etrans; [|exact Hctl]|]. split_and!; try done.
  apply (Hfull _ [i1; i0] HV1 HF). simpl. lia.
Qed.

(** ** Submitting a request *)

Lemma put_desc_eq i x s : 0 <= i < Z.of_nat (length (vd_desc (k_vdisk s))) ->
  put_desc i x s = Ok tt (set_vdisk (set_vd_desc (put (vd_desc (k_vdisk s)) i x) (k_vdisk s)) s).
Proof.
  intros Hi. destruct (at_is_Some _ _ Hi) as [y Hy].
  exact (vd_upd_eq vd_desc set_vd_desc i (fun _ => x) y s Hy).
Qed.
Lemma put_op_eq i x s : 0 <= i < Z.of_nat (length (vd_ops (k_vdisk s))) ->
  put_op i x s = Ok tt (set_vdisk (set_vd_ops (put (vd_ops (k_vdisk s)) i x) (k_vdisk s)) s).
Proof.
  intros Hi. destruct (at_is_Some _ _ Hi) as [y Hy].
  exact (vd_upd_eq vd_ops set_vd_ops i (fun _ => x) y s Hy).
Qed.
Lemma put_avail_eq i x s : 0 <= i < Z.of_nat (length (vd_avail_ring (k_vdisk s))) ->
  vd_upd vd_avail_ring set_vd_avail_ring i (fun _ => x) s =
  Ok tt (set_vdisk (set_vd_avail_ring (put (vd_avail_ring (k_vdisk s)) i x) (k_vdisk s)) s).
Proof.
  intros Hi. destruct (at_is_Some _ _ Hi) as [y Hy].
  exact (vd_upd_eq vd_avail_ring set_vd_avail_ring i (fun _ => x) y s Hy).
Qed.
Lemma upd_buf_at b f x s : at_ (k_bufs s) b = Some x -> upd_buf b f s = Ok tt (set_bufs (put (k_bufs s) b (f x)) s).
Proof. unfold at_, upd_buf, upd_elt, put. by intros ->. Qed.
Lemma get_buf_at b x s : at_ (k_bufs s) b = Some x -> get_buf b s = Ok x s.
Proof. unfold at_, get_buf, get_elt. by intros ->. Qed.

Lemma set_vdisk_vdisk d d' s : set_vdisk d (set_vdisk d' s) = set_vdisk d s.
Proof. by destruct s. Qed.
Lemma set_vdisk_bufs d d' l s : set_vdisk d (set_bufs l (set_vdisk d' s)) = set_vdisk d (set_bufs l s).
Proof. by destruct s. Qed.

(** The driver's arrays with the new request. *)
Definition submitted (b : Z) (write : bool) (sector i0 i1 i2 : Z) (d : vdisk) : vdisk :=
  mkVdisk (vd_pages d)
    (put (put (put (vd_desc d) i0 (mkDesc (DReq i0) 16 VRING_DESC_F_NEXT i1))
       i1 (mkDesc (DData b) BSIZE (Z.lor (if write then 0 else VRING_DESC_F_WRITE) VRING_DESC_F_NEXT) i2))
       i2 (mkDesc (DStatus i0) 1 VRING_DESC_F_WRITE 0))
    (u16 (vd_avail_idx d + 1)) (put (vd_avail_ring d) (vd_avail_idx d mod NUM) i0)
    (vd_used_dev d) (vd_used_ring d) (vd_free d) (vd_used_idx d)
    (put (vd_info d) i0 (mkInfo (Some b) 0xff))
    (put (vd_ops d) i0 (mkReq (if write then VIRTIO_BLK_T_OUT else VIRTIO_BLK_T_IN) 0 sector))
    (vd_mmio d ++ [(VIRTIO_MMIO_QUEUE_NOTIFY, 0)]).

Lemma submit_eq s b write sector i0 i1 i2 x :
  length (vd_desc (k_vdisk s)) = Z.to_nat NUM -> length (vd_info (k_vdisk s)) = Z.to_nat NUM ->
  length (vd_ops (k_vdisk s)) = Z.to_nat NUM -> length (vd_avail_ring (k_vdisk s)) = Z.to_nat NUM ->
  0 <= i0 < NUM -> 0 <= i1 < NUM -> 0 <= i2 < NUM -> at_ (k_bufs s) b = Some x ->
  virtio_submit b write sector (i0, i1, i2) s =
    Ok tt (set_vdisk (submitted b write sector i0 i1 i2 (k_vdisk s))
      (set_bufs (put (k_bufs s) b (set_b_disk 1 x)) s)).
Proof.
  intros L1 L5 L6 L2 H0 H1 H2 Hx. unfold virtio_submit.
  assert (HN : NUM = Z.of_nat (Z.to_nat NUM)) by done.
  destruct (at_is_Some (vd_info (k_vdisk s)) i0 ltac:(rewrite L5; lia)) as [y Hy].
  erewrite bind_ok by (apply put_op_eq; rewrite L6; lia).
  erewrite bind_ok by (apply put_desc_eq; simpl; rewrite L1; lia).
  erewrite bind_ok by (apply put_desc_eq; simpl; rewrite put_length, L1; lia).
  unfold upd_info. erewrite bind_ok by (apply vd_upd_eq; exact Hy).
  erewrite bind_ok by (apply put_desc_eq; simpl; rewrite !put_length, L1; lia).
  erewrite bind_ok by (apply upd_buf_at; exact Hx).
  erewrite bind_ok by (apply vd_upd_eq; simpl; rewrite at_put by (rewrite L5; lia); by rewrite decide_True).
  erewrite bind_ok by reflexivity.
  erewrite bind_ok by (apply put_avail_eq; simpl; rewrite L2; pose proof (mod_NUM (vd_avail_idx (k_vdisk s))); lia).
  unfold reg_write, upd_vdisk, bind, modify. cbn [rbind k_vdisk set_vdisk set_bufs k_bufs].
  repeat (rewrite ?set_vdisk_vdisk, ?set_vdisk_bufs). f_equal. f_equal.
  destruct (k_vdisk s). unfold submitted, put. cbn. by rewrite list_insert_insert_eq.
Qed.

Section submit.
Context (s : kstate) (v : vdev) (P : list vreq) (i0 i1 i2 b : Z) (write : bool) (x : buf).
Hypothesis (HV : vst s v P [i2; i1; i0]) (Hx : at_ (k_bufs s) b = Some x).
Hypothesis (Hblk : 0 <= b_blockno x < 2^31).
Hypothesis (Hb : ~ (b ∈ vr_b <$> P)) (Hk : ~ (b_blockno x ∈ vr_blk <$> P)).

Definition new_req : vreq :=
  mkVreq i0 i1 i2 b (b_blockno x) write
    (if write then b_data x else disk_block (k_disk s) (b_blockno x)) Queued.
Definition submit_state : kstate :=
  set_vdisk (submitted b write (u32 (b_blockno x * (BSIZE / 512))) i0 i1 i2 (k_vdisk s))
    (set_bufs (put (k_bufs s) b (set_b_disk 1 x)) s).

Lemma reserved_distinct :
  (i0 <> i1 /\ i0 <> i2 /\ i1 <> i2) /\ (0 <= i0 < NUM /\ 0 <= i1 < NUM /\ 0 <= i2 < NUM) /\
  forall r j, r ∈ P -> j ∈ chain r -> j <> i0 /\ j <> i1 /\ j <> i2.
Proof.
  destruct HV as (q & u & HI). pose proof (vi_nodup _ _ _ _ _ _ _ _ HI) as Hn.
  pose proof (vi_range _ _ _ _ _ _ _ _ HI) as Hr.
  apply NoDup_app in Hn as (Hn & Hd & _). rewrite !NoDup_cons in Hn.
  split; [set_solver|]. split; [split_and!; apply Hr; set_solver|].
  intros r j Hin Hj. assert (Hj' : j ∈ mjoin (chain <$> P)) by (apply chain_elem; eauto).
  split_and!; intros ->; eapply Hd; [|exact Hj'| |exact Hj'| |exact Hj']; set_solver.
Qed.

Lemma submit_old r : r ∈ P -> req_ok (k_vdisk submit_state) (k_bufs submit_state) (k_disk submit_state) r.
Proof.
  intros Hr. destruct reserved_distinct as (_ & (R0 & R1 & R2) & Hd). destruct HV as (q & u & HI).
  destruct (vi_lens _ _ _ _ _ _ _ _ HI) as (L1 & L2 & L3 & L4 & L5 & L6).
  assert (HN : NUM = Z.of_nat (Z.to_nat NUM)) by done.
  destruct (Hd r (vr_h0 r) Hr ltac:(set_solver)) as (Hne & _ & _).
  apply (req_ok_ext (k_vdisk s) _ (k_bufs s) _ (k_disk s)); [| | | |done|by apply (vi_reqs _ _ _ _ _ _ _ _ HI)].
  - intros j Hj. destruct (Hd r j Hr Hj) as (J0 & J1 & J2). simpl.
    by rewrite !at_put, !decide_False by (rewrite ?put_length, ?L1; done || lia).
  - simpl. by rewrite at_put, decide_False by (rewrite ?L6; done || lia).
  - simpl. by rewrite at_put, decide_False by (rewrite ?L5; done || lia).
  - simpl. rewrite at_put by (by apply at_Some in Hx). rewrite decide_False; [done|].
    intros E. apply Hb. rewrite <- E. by apply list_elem_of_fmap_2.
Qed.

Lemma submit_new : req_ok (k_vdisk submit_state) (k_bufs submit_state) (k_disk submit_state) new_req.
Proof.
  destruct reserved_distinct as ((D0 & D1 & D2) & (R0 & R1 & R2) & _). destruct HV as (q & u & HI).
  destruct (vi_lens _ _ _ _ _ _ _ _ HI) as (L1 & L2 & L3 & L4 & L5 & L6).
  assert (HN : NUM = Z.of_nat (Z.to_nat NUM)) by done.
  split; simpl; rewrite ?at_put by (rewrite ?put_length, ?L1, ?L5, ?L6; lia).
  - rewrite !(decide_False (P := i0 = _)), decide_True by done. done.
  - rewrite (decide_False (P := i1 = i2)), decide_True by done. done.
  - by rewrite decide_True.
  - by rewrite decide_True.
  - by rewrite decide_True.
  - exists (set_b_disk 1 x). rewrite at_put, decide_True by (done || by apply at_Some in Hx).
    split; [done|]. split; [done|]. split; [done|]. by destruct write; split; intros [|].
Qed.

Lemma submit_spec :
  virtio_submit b write (u32 (b_blockno x * (BSIZE / 512))) (i0, i1, i2) s = Ok tt submit_state /\
  vst submit_state v (new_req :: P) [].
Proof.
  pose proof submit_old as Hold. pose proof submit_new as Hnew.
  destruct reserved_distinct as (_ & (R0 & R1 & R2) & _). destruct HV as (q & u & HI).
  destruct (served_few _ _ _ _ _ _ _ _ HI) as [_ Hq].
  destruct HI as [(L1 & L2 & L3 & L4 & L5 & L6) I2 I3 I4 I5 I6 I7 I8 I9 I10 I11 I12 I13 I14 I15 I16 I17].
  split; [by apply submit_eq|]. exists (q ++ [i0]), u.
  assert (Ec : [i2; i1; i0] ++ mjoin (chain <$> P) ≡ₚ [] ++ mjoin (chain <$> new_req :: P)).
  { rewrite chains_cons. simpl. apply (Permutation_app_tail _ (Permutation_rev [i2; i1; i0])). }
  assert (Hav : 0 <= vd_avail_idx (k_vdisk s) mod NUM < Z.of_nat (length (vd_avail_ring (k_vdisk s))))
    by (rewrite L2; pose proof (mod_NUM (vd_avail_idx (k_vdisk s))); lia).
  split; try done.
  - split_and!; try done; simpl; by rewrite ?put_length.
  - by rewrite <- Ec.
  - intros j Hj. simpl. rewrite I3 by done. f_equal. apply decide_ext. by rewrite Ec.
  - intros j. rewrite <- Ec. apply I4.
  - by apply NoDup_cons.
  - by apply NoDup_cons.
  - intros r [->|Hr]%elem_of_cons; [done|by apply I7].
  - intros r [->|Hr]%elem_of_cons; auto.
  - rewrite heads_cons. simpl. rewrite (Permutation_app_comm q). simpl. by rewrite I9.
  - simpl. rewrite I10, u16_u16, length_app. f_equal. simpl. lia.
  - intros j h Hj. simpl. rewrite at_put by done. rewrite I10, u16_mod.
    apply lookup_app_Some in Hj as [Hj|[Hge Hj]].
    + rewrite decide_False; [by apply I11|]. pose proof (lookup_lt_Some _ _ _ Hj). apply ring_apart; lia.
    + apply list_lookup_singleton_Some in Hj as [Hj <-]. rewrite decide_True; [done|]. do 2 f_equal. lia.
Qed.
End submit.

(** ** The interrupt handler *)

Lemma vinv_ack d bs dk v r P X q u x :
  vinv d bs dk v (r :: P) X q (vr_h0 r :: u) -> vr_phase r = Served -> at_ bs (vr_b r) = Some x ->
  vinv (set_vd_used_idx (u16 (vd_used_idx d + 1)) d) (put bs (vr_b r) (set_b_disk 0 x)) dk v
    (set_phase Acked r :: P) X q u.
Proof.
  intros HI Hp Hx. pose proof HI as [I1 I2 I3 I4 I5 I6 I7 I8 I9 I10 I11 I12 I13 I14 I15 I16 I17].
  rewrite heads_cons, Hp in I9, I12, I13. simpl in I9, I12, I13. pose proof (at_Some _ _ _ Hx) as Hbr.
  split; try done.
  - intros r' [->|Hr']%elem_of_cons; [apply (I7 r); set_solver|apply I7; set_solver].
  - intros r' [->|Hr']%elem_of_cons.
    + destruct (I8 r ltac:(set_solver)) as [R1 R2 R3 R4 R5 R6]. unfold done_ in *. rewrite Hp in *.
      split; try done. destruct R6 as (y & Hy & Y1 & Y2 & Y3 & Y4). rewrite Hx in Hy. injection Hy as <-.
      exists (set_b_disk 0 x). simpl. rewrite at_put, decide_True by done. by split_and!.
    + destruct (other_req _ _ _ _ _ _ _ _ _ r' HI Hr') as (_ & Hb & _).
      apply (req_ok_ext d _ bs _ dk); try done; [|apply I8; set_solver].
      by rewrite at_put, decide_False by done.
  - rewrite heads_cons. simpl. by apply Permutation_cons_inv in I13.
  - simpl. rewrite I14, u16_u16. f_equal. simpl. lia.
  - simpl. unfold u16. apply Z.mod_pos_bound. done.
  - intros j h Hj. specialize (I16 (S j) h Hj). simpl. rewrite <- I16. f_equal. unfold u16, NUM. zlia.
Qed.

(** The processes that sleep on one of the buffers [B] become runnable. *)
Definition woken_on (me : option Z) (B : list Z) (i : Z) (p : proc) : proc :=
  if decide (Some i <> me /\ p_state p = SLEEPING /\ p_chan p ∈ (fun b => Some (ChBuf b)) <$> B)
  then set_p_state RUNNABLE p else p.
Definition woke_on (B : list Z) (s : kstate) : list proc :=
  imap (fun i p => woken_on (c_proc (k_cpu s)) B (Z.of_nat i) p) (k_procs s).

Lemma woken_on_cons me b B i p : woken_on me B i (woken me (Some (ChBuf b)) i p) = woken_on me (b :: B) i p.
Proof.
  assert (Hin : p_chan p ∈ (fun b => Some (ChBuf b)) <$> b :: B <->
    p_chan p = Some (ChBuf b) \/ p_chan p ∈ (fun b => Some (ChBuf b)) <$> B)
    by (rewrite fmap_cons, elem_of_cons; done).
  unfold woken, woken_on.
  destruct (decide (Some i <> me /\ p_state p = SLEEPING /\ p_chan p = Some (ChBuf b))) as [(A & B1 & C)|N].
  - rewrite decide_False by (intros (_ & E & _); done). rewrite decide_True by tauto. done.
  - apply decide_ext. tauto.
Qed.
Lemma woke_on_nil s : woke_on [] s = k_procs s.
Proof.
  unfold woke_on. apply list_eq. intros i. rewrite list_lookup_imap.
  destruct (k_procs s !! i) as [p|]; [|done]. simpl. unfold woken_on.
  rewrite decide_False; [done|]. intros (_ & _ & E). simpl in E. by apply elem_of_nil in E.
Qed.

Definition served (P : list vreq) (B : list Z) : Prop :=
  forall b, b ∈ B <-> exists r, r ∈ P /\ vr_phase r = Served /\ vr_b r = b.

(** Every served request acknowledged. *)
Definition ack (r : vreq) : vreq := if decide (vr_phase r = Served) then set_phase Acked r else r.

Lemma ack_phase r : exists ph, ack r = set_phase ph r /\ rank (vr_phase r) <= rank ph /\ ph <> Served.
Proof.
  unfold ack. case_decide as E; [exists Acked; by rewrite E|]. exists (vr_phase r). by rewrite set_phase_id.
Qed.
Lemma ack_fmap {A} (f : vreq -> A) (P : list vreq) :
  (forall ph r, f (set_phase ph r) = f r) -> f <$> (ack <$> P) = f <$> P.
Proof. intros Hf. rewrite <- list_fmap_compose. apply list_fmap_ext. intros _ r _. simpl. unfold ack. by case_decide. Qed.
Lemma later_ack P : later P (ack <$> P).
Proof.
  split; [by rewrite ack_fmap|]. split; [by rewrite ack_fmap|]. intros r Hr.
  destruct (ack_phase r) as (ph & E & Hk & _). exists (ack r). split; [by apply list_elem_of_fmap_2|]. by rewrite E.
Qed.
Lemma ack_none P : heads Served P = [] -> ack <$> P = P.
Proof.
  intros E. rewrite <- (list_fmap_id P) at 2. apply list_fmap_ext. intros i r Hr%list_elem_of_lookup_2.
  unfold ack. rewrite decide_False; [done|]. intros Hp.
  assert (Hin : vr_h0 r ∈ heads Served P) by (apply heads_elem; eauto). rewrite E in Hin. by apply elem_of_nil in Hin.
Qed.

Lemma intr_loop_spec fuel : forall s v P X q u,
  vinv (k_vdisk s) (k_bufs s) (k_disk s) v P X q u -> crit s -> (length u < fuel)%nat ->
  runs (intr_loop fuel s) (fun _ s' => exists B,
    vinv (k_vdisk s') (k_bufs s') (k_disk s') v (ack <$> P) X q [] /\ ctl_same s s' /\
    k_disk s' = k_disk s /\ untouched P s s' /\ served P B /\ k_procs s' = woke_on B s).
Proof.
  induction fuel as [|fuel IH]; intros s v P X q u HI Hc Hf; [lia|].
  cbn [intr_loop]. rewrite (bind_ok _ _ s (k_vdisk s) s) by done.
  pose proof (served_few _ _ _ _ _ _ _ _ HI) as [Hu _].
  pose proof (vi_used_dev _ _ _ _ _ _ _ _ HI) as Hdev. pose proof (vi_used_idx _ _ _ _ _ _ _ _ HI) as Hidx.
  destruct u as [|h u].
  - simpl in Hdev. replace (vd_used_idx (k_vdisk s) =? vd_used_dev (k_vdisk s)) with true
      by (rewrite Hdev; unfold u16; rewrite Z.add_0_r, Z.mod_small by lia; lia).
    pose proof (vi_used _ _ _ _ _ _ _ _ HI) as Hs. apply Permutation_nil_l in Hs.
    cbn [runs ret]. exists []. rewrite ack_none by done. split; [done|]. split; [reflexivity|].
    split; [done|]. split; [done|]. split; [|by rewrite woke_on_nil]. intros b. split; [by intros ?%elem_of_nil|].
    intros (r & Hr & Hp & _). exfalso. assert (Hin : vr_h0 r ∈ heads Served P) by (apply heads_elem; eauto).
    rewrite <- (vi_used _ _ _ _ _ _ _ _ HI) in Hin. by apply elem_of_nil in Hin.
  - replace (vd_used_idx (k_vdisk s) =? vd_used_dev (k_vdisk s)) with false
      by (rewrite Hdev; simpl in *; unfold u16, NUM in *; zlia).
    pose proof (vi_used_ring _ _ _ _ _ _ _ _ HI 0%nat h eq_refl) as Hat. simpl in Hat. rewrite Z.add_0_r in Hat.
    rewrite (bind_ok _ _ _ _ _ (vd_get_eq _ _ _ _ Hat)).
    assert (Hin : h ∈ heads Served P) by (rewrite <- (vi_used _ _ _ _ _ _ _ _ HI); set_solver).
    apply heads_elem in Hin as (r & Hr & <- & Hp).
    destruct (vinv_take _ _ _ _ _ _ _ _ r HI Hr) as (P0 & E & HI').
    destruct (vi_reqs _ _ _ _ _ _ _ _ HI r Hr) as [_ _ _ _ R5 (x & Hx & _)].
    unfold done_ in R5. rewrite Hp in R5. simpl in R5.
    rewrite (bind_ok _ _ _ _ _ (vd_get_eq _ _ _ _ R5)). cbn [in_status in_b Z.eqb negb].
    rewrite (bind_ok _ _ _ _ _ (upd_buf_at _ _ _ _ Hx)). set (s1 := set_bufs _ s).
    rewrite (bind_ok _ _ _ _ _ (wakeup_crit (ChBuf (vr_b r)) s1 Hc)).
    unfold upd_vdisk, modify, bind at 1. cbn [rbind]. set (s2 := set_vdisk _ _).
    assert (Hctl : ctl_same s s2) by (split_and!; try done; simpl; apply length_imap).
    eapply runs_mono; [apply (IH s2 v (set_phase Acked r :: P0) X q u)|].
    + exact (vinv_ack _ _ _ _ _ _ _ _ _ _ HI' Hp Hx).
    + by eapply ctl_same_crit.
    + simpl in Hf. lia.
    + intros [] s' (B & HI2 & Hctl2 & Hd & HU & HB & Hps). exists (vr_b r :: B).
      assert (Hl1 : later P (set_phase Acked r :: P0)) by (apply later_one; [done|by rewrite Hp]).
      split; [eapply vinv_perm; [|exact HI2]; rewrite E; cbn [fmap list_fmap]; unfold ack at 3;
        by rewrite decide_True|].
      split; [by etrans|]. split; [done|].
      split; [eapply untouched_trans; [exact Hl1| |exact HU]|].
      { split; [|done]. intros b Hb. cbn [k_bufs s2 set_vdisk woke set_procs s1 set_bufs].
        rewrite at_put, decide_False; [done| |by apply at_Some in Hx].
        intros ->. apply Hb, (in_flight_elem vr_b _ _ _ E). }
      split.
      * intros b. rewrite elem_of_cons, (HB b). setoid_rewrite E. setoid_rewrite elem_of_cons. split.
        -- intros [->|(r' & [->|Hr'] & Hp' & <-)]; [eauto 6|done|eauto 6].
        -- intros (r' & [->|Hr'] & Hp' & <-); [by left|]. right. eauto 6.
      * rewrite Hps. unfold woke_on. cbn [k_procs k_cpu s2 set_vdisk woke set_procs s1 set_bufs].
        apply list_eq. intros i. rewrite !list_lookup_imap.
        destruct (k_procs s !! i) as [p|]; [|done]. cbn [fmap option_fmap option_map].
        by rewrite woken_on_cons.
Qed.

(** ** Retiring a request *)

Lemma vinv_retire d bs dk v r P q u :
  vinv d bs dk v (r :: P) [] q u -> vr_phase r = Acked ->
  vinv (set_vd_info (put (vd_info d) (vr_h0 r) (mkInfo None 0)) d) bs dk v P (chain r) q u.
Proof.
  intros HI Hp. pose proof HI as [(L1 & L2 & L3 & L4 & L5 & L6) I2 I3 I4 I5 I6 I7 I8 I9 I10 I11 I12 I13 I14 I15 I16 I17].
  rewrite heads_cons, Hp in I9, I12, I13. simpl in I9, I12, I13. rewrite chains_cons in *.
  assert (H0 : 0 <= vr_h0 r < Z.of_nat (length (vd_info d))) by (rewrite L5; apply I4; set_solver).
  rewrite fmap_cons, NoDup_cons in I5, I6. split; try done.
  - split_and!; try done. simpl. by rewrite put_length.
  - apply I5.
  - apply I6.
  - intros r' Hr'. apply I7. set_solver.
  - intros r' Hr'. destruct (other_req _ _ _ _ _ _ _ _ _ r' HI Hr') as (Hc & _).
    apply (req_ok_ext d _ bs _ dk); try done; [|apply I8; set_solver].
    simpl. rewrite at_put, decide_False; [done| |done]. intros E.
    apply (Hc (vr_h0 r')); [set_solver|rewrite E; set_solver].
Qed.

Lemma free_chain_spec s v P r :
  vst s v P (chain r) -> crit s ->
  at_ (vd_desc (k_vdisk s)) (vr_h0 r) = Some (mkDesc (DReq (vr_h0 r)) 16 VRING_DESC_F_NEXT (vr_h1 r)) ->
  at_ (vd_desc (k_vdisk s)) (vr_h1 r) = Some (mkDesc (DData (vr_b r)) BSIZE
    (Z.lor (if vr_write r then 0 else VRING_DESC_F_WRITE) VRING_DESC_F_NEXT) (vr_h2 r)) ->
  at_ (vd_desc (k_vdisk s)) (vr_h2 r) = Some (mkDesc (DStatus (vr_h0 r)) 1 VRING_DESC_F_WRITE 0) ->
  runs (free_chain (vr_h0 r) s) (fun _ s' => vst s' v P [] /\ ctl_same s s' /\
    k_bufs s' = k_bufs s /\ k_disk s' = k_disk s).
Proof.
  intros HV Hc D0 D1 D2. unfold free_chain. change (Z.to_nat NUM + 1)%nat with 9%nat.
  destruct HV as (q & u & HI).
  assert (Hd : (vr_h0 r <> vr_h1 r /\ vr_h0 r <> vr_h2 r /\ vr_h1 r <> vr_h2 r) /\
    (vr_h0 r < NUM /\ vr_h1 r < NUM /\ vr_h2 r < NUM)).
  { pose proof (vi_nodup _ _ _ _ _ _ _ _ HI) as Hn. pose proof (vi_range _ _ _ _ _ _ _ _ HI) as Hr.
    apply NoDup_app in Hn as (Hn & _ & _). unfold chain in Hn. rewrite !NoDup_cons in Hn.
    split; [set_solver|]. split_and!; apply Hr; unfold chain; set_solver. }
  destruct Hd as ((N1 & N2 & N3) & (R0 & R1 & R2)).
  assert (HV : vst s v P (chain r)) by (by exists q, u). clear HI.
  destruct (free_desc_spec s v P _ [vr_h1 r; vr_h2 r] (vr_h0 r) HV Hc ltac:(done)) as (F0 & HV0 & C0 & K0).
  assert (Hc0 : crit (unreserve (vr_h0 r) s)) by (by eapply ctl_same_crit).
  destruct (free_desc_spec _ v P _ [vr_h2 r] (vr_h1 r) HV0 Hc0 ltac:(done)) as (F1 & HV1 & C1 & K1).
  assert (Hc1 : crit (unreserve (vr_h1 r) (unreserve (vr_h0 r) s))) by (by eapply ctl_same_crit).
  destruct (free_desc_spec _ v P _ [] (vr_h2 r) HV1 Hc1 ltac:(done)) as (F2 & HV2 & C2 & K2).
  assert (Hstep : forall n i t d s1, i < NUM -> at_ (vd_desc (k_vdisk t)) i = Some d -> free_desc i t = Ok tt s1 ->
    free_chain_loop (S n) i t =
      (if has (d_flags d) VRING_DESC_F_NEXT then free_chain_loop n (d_next d) else ret tt) s1).
  { intros n i t d s1 Hi Hd Hf. cbn [free_chain_loop]. replace (i >=? NUM) with false by lia.
    rewrite (bind_ok _ _ _ _ _ (vd_get_eq _ _ _ _ Hd)). cbv zeta. by rewrite (bind_ok _ _ _ _ _ Hf). }
  rewrite (Hstep _ _ _ _ _ R0 D0 F0). cbn [d_flags d_next].
  change (has VRING_DESC_F_NEXT VRING_DESC_F_NEXT) with true. cbv iota.
  rewrite (Hstep _ _ _ _ _ R1 ltac:(rewrite K0 by done; exact D1) F1). cbn [d_flags d_next].
  replace (has (Z.lor (if vr_write r then 0 else VRING_DESC_F_WRITE) VRING_DESC_F_NEXT) VRING_DESC_F_NEXT)
    with true by (by destruct (vr_write r)).
  rewrite (Hstep _ _ _ _ _ R2 ltac:(rewrite K1, K0 by done; exact D2) F2). cbn [d_flags d_next].
  change (has VRING_DESC_F_WRITE VRING_DESC_F_NEXT) with false. cbn [runs ret].
  split; [done|]. split; [|done]. etrans; [exact C0|]. by etrans.
Qed.

Lemma finish_spec s v P r P0 :
  vst s v P [] -> crit s -> P ≡ₚ (r :: P0) -> vr_phase r = Acked ->
  runs (virtio_finish (vr_h0 r) s) (fun _ s' => vst s' v P0 [] /\ ctl_same s s' /\
    k_bufs s' = k_bufs s /\ k_disk s' = k_disk s).
Proof.
  intros (q & u & HI) Hc E Hp. apply (vinv_perm _ _ _ _ _ _ _ _ _ E) in HI.
  destruct (vi_reqs _ _ _ _ _ _ _ _ HI r ltac:(set_solver)) as [R1 R2 R3 _ R5 _].
  unfold done_ in R5. rewrite Hp in R5. simpl in R5.
  unfold virtio_finish, upd_info. rewrite (bind_ok _ _ _ _ _ (vd_upd_eq _ _ _ _ _ _ R5)). simpl in_status.
  set (s1 := set_vdisk _ s).
  apply (free_chain_spec s1 v P0 r); try done. exists q, u. by apply vinv_retire.
Qed.

(** ** Runs of the device *)

Definition dev_data (s s' : kstate) : Prop :=
  exists d bs dk, s' = set_vdisk d (set_bufs bs (set_disk dk s)).
#[export] Instance dev_data_preorder : PreOrder dev_data.
Proof.
  split.
  - intros s. exists (k_vdisk s), (k_bufs s), (k_disk s). by destruct s.
  - intros s1 s2 s3 (d & bs & dk & ->) (d' & bs' & dk' & ->). exists d', bs', dk'. by destruct s1.
Qed.
Lemma dev_step_data s v s' v' : dev_step (s, v) (s', v') -> dev_data s s'.
Proof.
  intros Hst. inversion Hst; subst; [done|..].
  - exists (complete j h inf (k_vdisk s)), (k_bufs s), (disk_write (sec / (BSIZE / 512)) (b_data x) (k_disk s)).
    by destruct s.
  - eexists _, _, (k_disk s). by destruct s.
Qed.

(** What steps of the device give: the invariant, with every request at the
    same phase or further. *)
Definition dev_run (s : kstate) (v : vdev) (P X : _) (s' : kstate) (v' : vdev) (P' : list vreq) : Prop :=
  rtc dev_step (s, v) (s', v') /\ vst s' v' P' X /\ later P P' /\ untouched P s s' /\ no_ack P P' /\
  dev_data s s'.

Lemma dev_run_step s v P X s1 v1 P1 s2 v2 :
  dev_run s v P X s1 v1 P1 -> dev_step (s1, v1) (s2, v2) -> exists P2, dev_run s v P X s2 v2 P2 /\ later P1 P2.
Proof.
  intros (H1 & HV & HL & HU & HN & HD) Hst. destruct (dev_step_ok _ _ _ _ _ _ HV Hst) as (P2 & HV2 & HL2 & HU2 & HN2).
  exists P2. split; [|done]. split; [by eapply rtc_r|]. split; [done|]. split; [by eapply later_trans|].
  split; [by eapply untouched_trans|]. split; [intros r Hr Hp; apply HN; [by apply HN2|done]|].
  etrans; [exact HD|by eapply dev_step_data].
Qed.

(** The device can take everything that is queued. *)
Lemma dev_takes_all s X q : forall v P u,
  vinv (k_vdisk s) (k_bufs s) (k_disk s) v P X q u ->
  exists v' P', rtc dev_step (s, v) (s, v') /\ later P P' /\ no_ack P P' /\
    vinv (k_vdisk s) (k_bufs s) (k_disk s) v' P' X [] u.
Proof.
  induction q as [|h q IH]; intros [seen T] P u HI.
  { exists (mkVdev seen T), P. split; [apply rtc_refl|]. split; [apply later_refl|]. split; [by intros r Hr _|done]. }
  destruct (queue_head _ _ _ _ _ _ _ _ _ _ HI) as [Hne Hat].
  destruct (vinv_dev_take _ _ _ _ _ _ _ _ _ _ HI Hne Hat) as (r & P0 & q' & [= <-] & E & Hh & Hp & HI').
  destruct (IH _ _ _ HI') as (v' & P' & Hrun & HL & HN & HI2). exists v', P'.
  split; [by eapply rtc_l; [apply dev_take|]|]. split; [|split; [|done]].
  - eapply later_trans; [|exact HL]. apply later_one; [done|by rewrite Hp].
  - intros r' Hr' Hp'. apply HN in Hr' as [->|Hr']%elem_of_cons; [done| |done]. rewrite E. apply elem_of_cons. by right.
Qed.

(** A request in flight: where it is by then. *)
Lemma later_req P P' r : later P P' -> r ∈ P -> exists ph, set_phase ph r ∈ P' /\ rank (vr_phase r) <= rank ph.
Proof. intros (_ & _ & HL) Hr. destruct (HL r Hr) as (r' & Hr' & E & Hk). exists (vr_phase r'). by rewrite <- E. Qed.

(** The device can serve every request. *)
Lemma dev_serves s v P X r :
  vst s v P X -> r ∈ P ->
  exists s' v' P' ph, dev_run s v P X s' v' P' /\ set_phase ph r ∈ P' /\ rank Served <= rank ph.
Proof.
  intros (q & u & HI) Hr. destruct (dev_takes_all s X q v P u HI) as ([seen T] & P1 & Hrun & HL & HN & HI1).
  assert (Hrun1 : dev_run s v P X s (mkVdev seen T) P1) by (split_and!; try done; by exists [], u).
  destruct (later_req _ _ r HL Hr) as (ph & Hr1 & _).
  destruct (decide (rank Served <= rank ph)) as [Hge|Hlt].
  { exists s, (mkVdev seen T), P1, ph. done. }
  assert (Hph : ph = Taken).
  { destruct ph; simpl in Hlt; try lia; [|done]. exfalso.
    assert (Hin : vr_h0 r ∈ heads Queued P1) by (apply heads_elem; by eexists).
    rewrite <- (vi_queue _ _ _ _ _ _ _ _ HI1) in Hin. by apply elem_of_nil in Hin. }
  subst ph. assert (HT : vr_h0 r ∈ T).
  { change T with (dv_taken (mkVdev seen T)). rewrite (vi_taken _ _ _ _ _ _ _ _ HI1). apply heads_elem.
    by eexists. }
  apply list_elem_of_split in HT as (T1 & T2 & ->).
  assert (ET : T1 ++ (vr_h0 r :: T2) ≡ₚ (vr_h0 r :: T1 ++ T2)) by (symmetry; apply Permutation_middle).
  destruct (dev_can_serve s seen _ _ _ P1 X ltac:(by exists [], u) ET) as [s2 Hst].
  destruct (dev_run_step _ _ _ _ _ _ _ _ _ Hrun1 Hst) as (P2 & Hrun2 & HL2).
  destruct (later_req _ _ _ HL2 Hr1) as (ph & Hr2 & Hk). exists s2, (mkVdev seen (T1 ++ T2)), P2, ph.
  split; [done|]. split; [done|]. destruct ph; simpl in *; try lia. exfalso.
  pose proof (heads_nodup _ _ _ _ _ _ _ _ Taken HI1) as Hn.
  rewrite <- (vi_taken _ _ _ _ _ _ _ _ HI1) in Hn. simpl in Hn. rewrite ET in Hn. apply NoDup_cons in Hn as [Hn _].
  apply Hn. destruct Hrun2 as (_ & (q2 & u2 & HI2) & _).
  change (vr_h0 r ∈ dv_taken (mkVdev seen (T1 ++ T2))). rewrite (vi_taken _ _ _ _ _ _ _ _ HI2).
  apply heads_elem. by eexists.
Qed.
