(* ===== verification/VirtioSpec.v ===== *)
(** * The disk driver beside others

    [virtio_disk_rw] sleeps while the device works, and meanwhile other
    processes use the driver.  What each may do to the other's request is a
    rely-guarantee pair; the device and the interrupt handler keep the rely too. *)

From S2P Require Import Prelude CMem Machine Sv32 Spinlock Kalloc Sched AddrSpace.
From S2P Require Import SchedProof SchedSpec UserMem SleepProof Sleeplock Bio BioProof Virtio VirtioProof.

(** ** The protocol *)

(** The ghost state: what the device has taken, and the requests in flight. *)
Definition flight : Type := vdev * list vreq.
Definition vok (g : flight) (s : kstate) : Prop := vst s g.1 g.2 [].
Definition idle (b : Z) (g : flight) (x : buf) : Prop :=
  ~ (b ∈ vr_b <$> g.2) /\ ~ (b_blockno x ∈ vr_blk <$> g.2).

(** What the holder of buffer [b] relies on: its request stays in flight and
    only advances; without a request, the buffer and its block do not change. *)
Definition keeps (b : Z) (g : flight) (s : kstate) (g' : flight) (s' : kstate) : Prop :=
  vok g s -> vok g' s' /\
  (forall r, r ∈ g.2 -> vr_b r = b ->
     exists p, rank (vr_phase r) <= rank p /\ set_phase p r ∈ g'.2) /\
  (forall x, at_ (k_bufs s) b = Some x -> idle b g x ->
     exists x', at_ (k_bufs s') b = Some x' /\ idle b g' x' /\
       b_blockno x' = b_blockno x /\ b_data x' = b_data x /\
       disk_block (k_disk s') (b_blockno x) = disk_block (k_disk s) (b_blockno x)).

(** What it guarantees: the requests and buffers of others and the disk are
    left alone; only the device writes the disk. *)
Definition only (b : Z) (g : flight) (s : kstate) (g' : flight) (s' : kstate) : Prop :=
  vok g s -> vok g' s' /\ g'.1 = g.1 /\ k_disk s' = k_disk s /\
  (forall r, vr_b r <> b -> r ∈ g'.2 <-> r ∈ g.2) /\
  (forall b', b' <> b -> at_ (k_bufs s') b' = at_ (k_bufs s) b') /\
  (forall x, at_ (k_bufs s) b = Some x ->
     exists x', at_ (k_bufs s') b = Some x' /\ b_blockno x' = b_blockno x).

Lemma only_refl b g s : only b g s g s.
Proof. intros H. split_and!; try done. eauto. Qed.
Lemma only_trans b g1 s1 g2 s2 g3 s3 : only b g1 s1 g2 s2 -> only b g2 s2 g3 s3 -> only b g1 s1 g3 s3.
Proof.
  intros H12 H23 H1. destruct (H12 H1) as (H2 & V1 & D1 & R1 & B1 & X1).
  destruct (H23 H2) as (H3 & V2 & D2 & R2 & B2 & X2).
  split; [done|]. do 2 (split; [congruence|]). split; [intros r Hr; rewrite R2, R1 by done; done|].
  split; [intros b' Hb; rewrite B2, B1 by done; done|].
  intros x (x' & Hx' & E1)%X1. apply X2 in Hx' as (y & Hy & E2). exists y. split; [done|congruence].
Qed.

(** The guarantee of one process implies what another relies on. *)
Lemma only_keeps b b' x x' g s g' s' :
  b <> b' -> at_ (k_bufs s) b = Some x -> at_ (k_bufs s) b' = Some x' -> b_blockno x <> b_blockno x' ->
  only b g s g' s' -> keeps b' g s g' s'.
Proof.
  intros Hne Hx Hx' Hk Ho Hg. destruct (Ho Hg) as (Hg' & _ & Hd & HR & HB & HX). split; [done|]. split.
  - intros r Hr <-. exists (vr_phase r). rewrite set_phase_id. split; [done|]. by apply HR.
  - intros y Hy [I1 I2]. rewrite Hx' in Hy. injection Hy as <-. exists x'. rewrite HB by done.
    split; [done|]. rewrite Hd. split; [|done]. split.
    + intros (r & -> & Hr)%list_elem_of_fmap. apply I1, list_elem_of_fmap. exists r. split; [done|]. by apply HR.
    + intros (r & E & Hr)%list_elem_of_fmap. destruct (decide (vr_b r = b)) as [Eb|Nb].
      * destruct Hg' as (q & u & HI). destruct (vi_reqs _ _ _ _ _ _ _ _ HI r Hr) as [_ _ _ _ _ (z & Hz & Ez & _)].
        rewrite Eb in Hz. destruct (HX x Hx) as (z' & Hz' & Ez'). rewrite Hz in Hz'. injection Hz' as <-. congruence.
      * apply I2, list_elem_of_fmap. exists r. split; [done|]. by apply HR.
Qed.

(** Requests that advance while what is not in flight stays. *)
Lemma later_keeps b g s g' s' :
  (vok g s -> vok g' s') -> later g.2 g'.2 -> untouched g.2 s s' -> keeps b g s g' s'.
Proof.
  intros Hv (L1 & L2 & L3) [U1 U2] Hg. split; [auto|]. split.
  - intros r Hr <-. destruct (L3 r Hr) as (r' & Hr' & E & Hk). exists (vr_phase r'). rewrite <- E. done.
  - intros x Hx [I1 I2]. exists x. rewrite U1, U2 by done. unfold idle. rewrite <- L1, <- L2. done.
Qed.

Lemma same_head g s r r' : vok g s -> r ∈ g.2 -> r' ∈ g.2 -> vr_h0 r = vr_h0 r' -> r = r'.
Proof.
  intros (q & u & HI) Hr Hr' E. destruct (vinv_take _ _ _ _ _ _ _ _ r HI Hr) as (P0 & EP & HI').
  rewrite EP in Hr'. apply elem_of_cons in Hr' as [->|Hr']; [done|]. exfalso.
  destruct (other_req _ _ _ _ _ _ _ _ _ r' HI' Hr') as (Hc & _).
  apply (Hc (vr_h0 r')); [|rewrite <- E]; unfold chain; set_solver.
Qed.

(** ** Sleeping in the driver *)

Definition same_data (s s' : kstate) : Prop :=
  k_vdisk s' = k_vdisk s /\ k_bufs s' = k_bufs s /\ k_disk s' = k_disk s.
Lemma vok_data g s s' : same_data s s' -> vok g s -> vok g s'.
Proof. intros (E1 & E2 & E3). unfold vok, vst. by rewrite E1, E2, E3. Qed.
Lemma only_data b g s g' s' s'' : same_data s' s'' -> only b g s g' s' -> only b g s g' s''.
Proof.
  intros HD Ho Hg. destruct (Ho Hg) as (Hg' & H). split; [by eapply vok_data|].
  destruct HD as (E1 & E2 & E3). by rewrite E2, E3.
Qed.
Lemma keeps_data b g s1 s g' s' s2 :
  same_data s1 s -> same_data s' s2 -> keeps b g s g' s' -> keeps b g s1 g' s2.
Proof.
  intros HD HD' Hk Hg. destruct (Hk (vok_data _ _ _ HD Hg)) as (Hg' & H). split; [by eapply vok_data|].
  destruct HD as (E1 & E2 & E3), HD' as (F1 & F2 & F3). by rewrite F2, F3, <- E2, <- E3.
Qed.

(** Other processes, the device and the interrupt handler, until [s'] runs. *)
Definition meanwhile (b : Z) (g : flight) (s : kstate) (g' : flight) (s' : kstate) : Prop :=
  resumed s s' /\ keeps b g s g' s'.

Section call.
Context `{W : WaitFuel, V : VirtioDev}.
Context (p : Z) (s : kstate).
Hypothesis (Hp : 0 <= p < NPROC) (Hcur : c_proc (k_cpu s) = Some p) (Hnoff : c_noff (k_cpu s) = 0).
Hypothesis (Hok : procs_ok s) (Hlk : lock_free s LVdisk).

(** Inside the driver's critical section, in a call from [s]. *)
Definition inside (s1 : kstate) : Prop :=
  exists s0, same_ctl s s0 /\ length (k_procs s0) = Z.to_nat NPROC /\ in_crit LVdisk s0 s1 /\
    length (k_procs s1) = Z.to_nat NPROC.

Lemma call_ok s0 : same_ctl s s0 -> length (k_procs s0) = Z.to_nat NPROC -> procs_ok s0 /\ lock_free s0 LVdisk.
Proof.
  intros HC Hl. destruct Hok as (Hc & _ & Hf). split; [|by eapply same_ctl_lock_free].
  split; [by eapply same_ctl_cpu_ok|]. split; [done|]. intros i Hi. eapply same_ctl_lock_free; [done|by apply Hf].
Qed.

Lemma inside_enter : inside (enter LVdisk s).
Proof. exists s. destruct Hok as (_ & Hl & _). by split_and!. Qed.
Lemma inside_ctl s1 s2 : ctl_same s1 s2 -> inside s1 -> inside s2.
Proof.
  intros (E1 & E2 & E3 & E4) (s0 & HC & Hl & (F1 & F2 & F3) & Hl1). exists s0. unfold in_crit.
  by rewrite E1, E2, E3, E4.
Qed.
Lemma inside_crit s1 : inside s1 -> crit s1.
Proof.
  intros (s0 & HC & Hl & (F1 & F2 & F3) & Hl1). destruct (call_ok s0 HC Hl) as [(Hc & _ & Hf) _].
  pose proof (enter_cpu_ok LVdisk s0 Hc) as Hc'. split; [split; [|split; [done|]]|].
  - unfold cpu_ok, ints_on in *. by rewrite F2, F3.
  - intros i Hi. unfold lock_free. rewrite F1. apply (enter_lock_free LVdisk (LProc i) s0); [done|auto].
  - rewrite F3. destruct Hc as (_ & ? & _). simpl. lia.
Qed.

Lemma inside_release s1 Q :
  inside s1 -> (forall s2, same_ctl s s2 -> same_data s1 s2 -> k_procs s2 = k_procs s1 -> Q tt s2) -> runs (release LVdisk s1) Q.
Proof.
  intros (s0 & HC & Hl & Hin & Hl1) HQ. destruct (call_ok s0 HC Hl) as [(Hc & _ & _) Hf].
  apply (runs_release LVdisk s0); [done..|]. intros i _. apply HQ; [|done..].
  etrans; [exact HC|apply leave_same_ctl].
Qed.

Lemma sleep_rely b ch g0 t0 g s1 Q :
  inside s1 -> only b g0 t0 g s1 ->
  (forall g' t' s', inside s' -> same_data t' s' -> keeps b g s1 g' t' -> Q g' t' tt s') ->
  rely (only b) (meanwhile b) g0 t0 (sleep ch LVdisk s1) Q.
Proof.
  intros (s0 & HC & Hl & Hin & Hl1) Ho HQ. destruct (call_ok s0 HC Hl) as [Hok0 Hlk0].
  destruct (lookup_lt_is_Some_2 (k_procs s1) (Z.to_nat p) ltac:(rewrite Hl1; lia)) as [pr Hpr].
  assert (Hn0 : c_noff (k_cpu s0) = 0) by (destruct HC as (_ & _ & _ & ->); done).
  assert (Hc0 : c_proc (k_cpu s0) = Some p) by (destruct HC as (_ & _ & -> & _); done).
  destruct (sleep_block p LVdisk s0 Hp Hc0 Hn0 Hok0 Hlk0 ltac:(done) ch s1 pr Hin Hl1 Hpr) as (k & -> & Hk).
  set (sb := with_ctl _ _) in *. assert (HD : same_data s1 sb) by done.
  cbn [rely]. exists g. split; [by eapply only_data|]. intros g' t' [Hres Hkp].
  destruct (Hk t' Hres) as (j & Hj & ->). cbn [rely].
  assert (Hlt : length (k_procs t') = Z.to_nat NPROC).
  { destruct Hres as (_ & _ & _ & _ & ->). subst sb. cbn. by rewrite length_insert. }
  apply HQ; [|done|by eapply keeps_data].
  exists (leave s0 j (set_procs (awake p (k_procs t')) t')). split; [etrans; [exact HC|apply leave_same_ctl]|].
  cbn. unfold awake. by rewrite length_alter.
Qed.

(** ** One request *)

Context (b : Z) (write : bool) (blk : Z) (val : list Z).
Hypothesis (Hblk : 0 <= blk < 2^31).

(** Nothing is in flight for [b], and the transfer is of [val]. *)
Definition ready (g : flight) (s1 : kstate) : Prop :=
  exists x, at_ (k_bufs s1) b = Some x /\ idle b g x /\ b_blockno x = blk /\
    (if write then b_data x else disk_block (k_disk s1) blk) = val.
(** The request with head [i0] is in flight. *)
Definition asked (i0 : Z) (g : flight) : Prop :=
  exists r, r ∈ g.2 /\ vr_b r = b /\ vr_h0 r = i0 /\ vr_blk r = blk /\ vr_val r = val.

Lemma ready_keeps g s1 g' s2 : vok g s1 -> keeps b g s1 g' s2 -> ready g s1 -> ready g' s2.
Proof.
  intros Hg Hk (x & Hx & Hi & Hb & Hv). destruct (Hk Hg) as (_ & _ & HX).
  destruct (HX x Hx Hi) as (x' & Hx' & Hi' & Hb' & Hd & Hdk). exists x'.
  split; [done|]. split; [done|]. split; [congruence|]. rewrite Hb in Hdk. rewrite Hdk, Hd. done.
Qed.
Lemma asked_keeps i0 g s1 g' s2 : vok g s1 -> keeps b g s1 g' s2 -> asked i0 g -> asked i0 g'.
Proof.
  intros Hg Hk (r & Hr & Hb & Hh & Hbl & Hv). destruct (Hk Hg) as (_ & HR & _).
  destruct (HR r Hr Hb) as (ph & _ & Hr'). exists (set_phase ph r). done.
Qed.

(** A stretch that begins at [t0] and has come to [s1], with [X] allocated. *)
Definition so_far (g0 : flight) (t0 s1 : kstate) (X : list Z) : Prop :=
  inside s1 /\ vok g0 t0 /\ vst s1 g0.1 g0.2 X /\ k_bufs s1 = k_bufs t0 /\ k_disk s1 = k_disk t0 /\
  ready g0 t0.

Lemma alloc3_wait_rely fuel : forall g0 t0 s1,
  so_far g0 t0 s1 [] ->
  rely (only b) (meanwhile b) g0 t0 (alloc3_wait fuel s1)
    (fun g1 t1 idx s2 => let '(i0, i1, i2) := idx in so_far g1 t1 s2 [i2; i1; i0]).
Proof.
  induction fuel as [|fuel IH]; intros g0 t0 s1 (Hin & Ht & HV & EB & ED & Hr); [done|].
  cbn [alloc3_wait]. apply rely_bind, runs_rely.
  eapply runs_mono; [exact (alloc3_desc_spec s1 _ _ HV (inside_crit s1 Hin))|].
  intros [[[i0 i1] i2]|] s2 (HC & EB2 & ED2 & HV2); [|destruct HV2 as [HV2 _]]; cbv iota.
  { cbn [rely ret]. split_and!; try done; [by eapply inside_ctl|congruence..]. }
  assert (Ho : only b g0 t0 g0 s2).
  { intros _. rewrite EB2, ED2, EB, ED. split_and!; try done. eauto. }
  apply rely_bind, (sleep_rely b _ g0 t0 g0 s2); [by eapply inside_ctl|done|].
  intros g' t' s' Hin' HD Hk. destruct (Hk HV2) as (Hg' & _). apply IH. split; [done|]. split; [done|].
  split; [by eapply vok_data|]. destruct HD as (_ & E2 & E3). split; [done|]. split; [done|].
  apply (ready_keeps g0 s2 g' t'); [done..|]. unfold ready in *. by rewrite EB2, ED2, EB, ED.
Qed.

Lemma submit_rely g0 t0 s1 i0 i1 i2 :
  so_far g0 t0 s1 [i2; i1; i0] ->
  runs (virtio_submit b write (u32 (blk * (BSIZE / 512))) (i0, i1, i2) s1) (fun _ s2 =>
    inside s2 /\ (exists x, at_ (k_bufs s2) b = Some x /\ b_disk x = 1) /\
    exists g, asked i0 g /\ vok g s2 /\ only b g0 t0 g s2).
Proof.
  intros (Hin & Ht & HV & EB & ED & (x & Hx & [I1 I2] & <- & Hv)). rewrite <- EB in Hx.
  destruct (submit_spec s1 _ _ i0 i1 i2 b write x HV Hx Hblk I1 I2) as [E HV2]. rewrite E. cbn [runs].
  pose proof (at_Some _ _ _ Hx) as Hr. split; [by eapply inside_ctl; [|done]|].
  split; [exists (set_b_disk 1 x); split; [|done]; simpl; by rewrite at_put, decide_True|].
  exists (g0.1, new_req s1 i0 i1 i2 b write x :: g0.2). split.
  { eexists. split; [apply elem_of_cons; by left|]. rewrite <- ED in Hv. by split_and!. }
  split; [exact HV2|]. intros _.
  split; [exact HV2|]. split; [done|]. split; [exact ED|]. split.
  { intros r Hne. cbn [snd]. rewrite elem_of_cons. split; [|by right]. intros [->|]; done. }
  cbn [submit_state k_bufs set_vdisk set_bufs]. rewrite <- EB. split.
  - intros b' Hne. by rewrite at_put, decide_False.
  - intros y Hy. rewrite Hx in Hy. injection Hy as <-. exists (set_b_disk 1 x).
    by rewrite at_put, decide_True.
Qed.

(** In flight, and back from the device. *)
Lemma asked_req i0 g s1 :
  asked i0 g -> vok g s1 ->
  exists r P0 x, g.2 ≡ₚ (r :: P0) /\ vr_b r = b /\ vr_h0 r = i0 /\ at_ (k_bufs s1) b = Some x /\
    b_blockno x = blk /\ b_disk x = (if decide (vr_phase r = Acked) then 0 else 1) /\
    ~ (b ∈ vr_b <$> P0) /\ ~ (blk ∈ vr_blk <$> P0) /\
    (vr_phase r = Acked -> b_data x = val /\ disk_block (k_disk s1) blk = val).
Proof.
  intros (r & Hr & <- & <- & <- & <-) (q & u & HI).
  destruct (vinv_take _ _ _ _ _ _ _ _ r HI Hr) as (P0 & E & HI').
  destruct (vi_reqs _ _ _ _ _ _ _ _ HI r Hr) as [_ _ _ _ _ (x & Hx & X1 & X2 & X3 & X4)].
  pose proof (vi_bufs _ _ _ _ _ _ _ _ HI') as Nb. pose proof (vi_blks _ _ _ _ _ _ _ _ HI') as Nk.
  rewrite fmap_cons, NoDup_cons in Nb, Nk.
  exists r, P0, x. do 6 (split; [done|]). split; [apply Nb|]. split; [apply Nk|].
  intros Hph. unfold done_ in *. rewrite Hph in *. auto.
Qed.

Lemma wait_rely i0 fuel : forall g0 t0 g s1,
  inside s1 -> asked i0 g -> vok g s1 -> only b g0 t0 g s1 ->
  rely (only b) (meanwhile b) g0 t0
    (while_wait fuel (x <- get_buf b ;; ret (b_disk x =? 1)) (sleep (ChBuf b) LVdisk) s1)
    (fun g1 t1 _ s2 => inside s2 /\ exists g2 r, r ∈ g2.2 /\ vr_h0 r = i0 /\ vr_phase r = Acked /\
       asked i0 g2 /\ vok g2 s2 /\ only b g1 t1 g2 s2).
Proof.
  induction fuel as [|fuel IH]; intros g0 t0 g s1 Hin Ha Hg Ho; [done|]. cbn [while_wait].
  destruct (asked_req i0 g s1 Ha Hg) as (r & P0 & x & E & Eb & Eh & Hx & _ & Hd & _).
  assert (Ht : (x <- get_buf b ;; ret (b_disk x =? 1)) s1 = Ok (b_disk x =? 1) s1)
    by (exact (bind_ok _ _ _ _ _ (get_buf_at _ _ _ Hx))).
  apply rely_bind, runs_rely. rewrite Ht. cbn [runs]. rewrite Hd.
  destruct (decide (vr_phase r = Acked)) as [Hph|Hph].
  - change (0 =? 1) with false. cbv iota. cbn [rely ret]. split; [done|]. exists g, r.
    split; [rewrite E; apply elem_of_cons; by left|]. done.
  - change (1 =? 1) with true. cbv iota. apply rely_bind, (sleep_rely b _ g0 t0 g s1); [done..|].
    intros g' t' s' Hin' HD Hk. destruct (Hk Hg) as (Hg' & _).
    apply (IH g' t' g' s'); [done|by apply (asked_keeps i0 g s1 g' t')|by eapply vok_data|].
    eapply only_data; [done|apply only_refl].
Qed.

(** What the caller gets: buffer and block hold [val], and nothing of [b] is
    left in flight. *)
Definition transferred (g : flight) (s1 : kstate) : Prop :=
  exists x, at_ (k_bufs s1) b = Some x /\ idle b g x /\ b_blockno x = blk /\ b_disk x = 0 /\
    b_data x = val /\ disk_block (k_disk s1) blk = val.

Lemma finish_rely i0 g0 t0 g r s1 :
  inside s1 -> r ∈ g.2 -> vr_h0 r = i0 -> vr_phase r = Acked -> asked i0 g -> vok g s1 -> only b g0 t0 g s1 ->
  runs (virtio_finish i0 s1) (fun _ s2 =>
    inside s2 /\ exists g2, transferred g2 s2 /\ only b g0 t0 g2 s2).
Proof.
  intros Hin Hr Hh Hph Ha Hg Ho. destruct (asked_req i0 g s1 Ha Hg) as (r' & P0 & x & E & Eb & Eh & Hx & Hbl & Hd & Nb & Nk & Hv).
  assert (r' = r) as -> by (apply (same_head g s1); [done|rewrite E; apply elem_of_cons; by left|done|congruence]).
  rewrite decide_True in Hd by done. destruct (Hv Hph) as [Hv1 Hv2]. subst i0.
  eapply runs_mono; [exact (finish_spec s1 g.1 g.2 r P0 Hg (inside_crit s1 Hin) E Hph)|].
  intros [] s2 (HV2 & HC & EB & ED). split; [by eapply inside_ctl|]. exists (g.1, P0).
  split; [exists x; unfold idle; rewrite EB, ED, Hbl; by split_and!|].
  apply (only_trans b g0 t0 g s1); [done|]. intros _. rewrite EB, ED. do 3 (split; [done|]).
  split; [|eauto]. intros r2 Hr2. cbn [snd]. rewrite E, elem_of_cons. split; [by right|]. intros [->|]; done.
Qed.

Lemma vdisk_rw_rely g :
  vok g s -> ready g s ->
  rely (only b) (meanwhile b) g s (vdisk_rw b write s)
    (fun g1 s1 _ s2 => same_ctl s s2 /\ exists g2, only b g1 s1 g2 s2 /\ transferred g2 s2).
Proof.
  intros Hg Hr. pose proof Hr as (x & Hx & _ & Hbl & _). unfold vdisk_rw.
  apply rely_bind, runs_rely. rewrite (get_buf_at _ _ _ Hx). cbn [runs]. cbv zeta. rewrite Hbl.
  apply rely_bind, runs_rely, runs_acquire; [done|].
  apply rely_bind. eapply rely_mono; [apply (alloc3_wait_rely _ g s)|].
  { split; [apply inside_enter|]. by split_and!. }
  intros g1 t1 [[i0 i1] i2] s1 Hs. apply rely_bind, runs_rely.
  eapply runs_mono; [by apply (submit_rely g1 t1 s1)|]. intros [] s2 (Hin & _ & g2 & Ha & Hg2 & Ho).
  apply rely_bind. eapply rely_mono; [by eapply (wait_rely i0)|]. cbn [fst].
  intros g3 t3 [] s3 (Hin3 & g4 & r & Hr4 & Hh & Hph & Ha4 & Hg4 & Ho4).
  apply rely_bind, runs_rely. eapply runs_mono; [by eapply (finish_rely i0 g3 t3 g4 r s3)|].
  intros [] s4 (Hin4 & g5 & Htr & Ho5). apply runs_rely, inside_release; [done|].
  intros s5 HC HD _. split; [done|]. exists g5. split; [by eapply only_data|].
  destruct Htr as (y & Hy). exists y. destruct HD as (_ & -> & ->). done.
Qed.

(** ** A request that is answered *)

Lemma rw_returns n g0 t0 g r s1 :
  inside s1 -> r ∈ g.2 -> vr_phase r = Acked -> asked (vr_h0 r) g -> vok g s1 ->
  only b g0 t0 g s1 ->
  runs ((while_wait (S n) (x <- get_buf b ;; ret (b_disk x =? 1)) (sleep (ChBuf b) LVdisk) ;;
         virtio_finish (vr_h0 r) ;; release LVdisk) s1)
    (fun _ s2 => same_ctl s s2 /\ exists g2, only b g0 t0 g2 s2 /\ transferred g2 s2).
Proof.
  intros Hin Hr Hph Ha Hg Ho. destruct (asked_req _ g s1 Ha Hg) as (r' & P0 & x & E & Eb & Eh & Hx & _ & Hd & _).
  assert (r' = r) as -> by (apply (same_head g s1); [done|rewrite E; apply elem_of_cons; by left|done..]).
  rewrite decide_True in Hd by done. cbn [while_wait].
  rewrite (bind_ok _ _ s1 tt s1) by (rewrite (bind_ok _ _ s1 false s1); [done|];
    rewrite (bind_ok _ _ _ _ _ (get_buf_at _ _ _ Hx)), Hd; done).
  apply runs_bind. eapply runs_mono; [by apply (finish_rely (vr_h0 r) g0 t0 g r s1)|].
  intros [] s2 (Hin2 & g2 & Htr & Ho2). apply inside_release; [done|]. intros s3 HC HD _.
  split; [done|]. exists g2. split; [by eapply only_data|].
  destruct Htr as (y & Hy). exists y. destruct HD as (_ & -> & ->). done.
Qed.

(** With room for a request, the call submits it and sleeps; when it is
    dispatched with the request acknowledged, it returns. *)
Lemma vdisk_rw_sleeps n g :
  wait_fuel = S (S n) -> vok g s -> ready g s -> (length g.2 <= 1)%nat ->
  exists sb k i0 g1 pr, vdisk_rw b write s = Block sb k /\ asked i0 g1 /\ vok g1 sb /\ g1.1 = g.1 /\
    (forall r, r ∈ g1.2 -> vr_h0 r = i0 -> vr_phase r <> Acked) /\ k_procs sb !! Z.to_nat p = Some pr /\ p_state pr = SLEEPING /\ p_chan pr = Some (ChBuf b) /\
    forall g2 s2 r, resumed sb s2 -> vok g2 s2 -> asked i0 g2 -> r ∈ g2.2 -> vr_h0 r = i0 -> vr_phase r = Acked ->
      runs (k s2) (fun _ s3 => same_ctl s s3 /\ exists g3, only b g2 s2 g3 s3 /\ transferred g3 s3).
Proof.
  intros Hf Hg Hr Hfew. pose proof Hr as (x & Hx & _ & Hbl & _). unfold vdisk_rw.
  rewrite (bind_ok _ _ _ _ _ (get_buf_at _ _ _ Hx)). cbv zeta. rewrite Hbl, Hf.
  rewrite (bind_ok _ _ _ _ _ (acquire_eq s LVdisk Hlk)). cbn [alloc3_wait].
  pose proof inside_enter as Hin.
  destruct (proj1 (runs_ok _ _) (alloc3_desc_spec (enter LVdisk s) g.1 g.2 Hg (inside_crit _ Hin)))
    as ([[[i0 i1] i2]|] & s1 & E & HC & EB & ED & HV); [|exfalso; lia].
  erewrite (bind_ok _ _ _ _ s1) by (rewrite (bind_ok _ _ _ _ _ E); reflexivity). clear E.
  assert (Hso : so_far g s s1 [i2; i1; i0]) by (split_and!; try done; by eapply inside_ctl).
  destruct (proj1 (runs_ok _ _) (submit_rely g s s1 i0 i1 i2 Hso)) as ([] & s2 & E & Hin2 & (y & Hy & Hyd) & g1 & Ha & Hg1 & Ho).
  rewrite (bind_ok _ _ _ _ _ E). clear E. cbn [while_wait fst].
  assert (Ht : (x <- get_buf b ;; ret (b_disk x =? 1)) s2 = Ok true s2).
  { rewrite (bind_ok _ _ _ _ _ (get_buf_at _ _ _ Hy)), Hyd. done. }
  pose proof Hin2 as (s0 & HC0 & Hl & Hcr & Hl2). destruct (call_ok s0 HC0 Hl) as [Hok0 Hlk0].
  destruct (lookup_lt_is_Some_2 (k_procs s2) (Z.to_nat p) ltac:(rewrite Hl2; lia)) as [pr Hpr].
  assert (Hn0 : c_noff (k_cpu s0) = 0) by (destruct HC0 as (_ & _ & _ & ->); done).
  assert (Hc0 : c_proc (k_cpu s0) = Some p) by (destruct HC0 as (_ & _ & -> & _); done).
  destruct (sleep_block p LVdisk s0 Hp Hc0 Hn0 Hok0 Hlk0 ltac:(done) (ChBuf b) s2 pr Hcr Hl2 Hpr) as (k & E & Hk).
  set (sb := with_ctl _ _) in *. assert (HD : same_data s2 sb) by done.
  unfold bind at 1. rewrite (bind_ok _ _ _ _ _ Ht). unfold bind at 1. rewrite E. cbn [rbind].
  eexists sb, _, i0, g1, (slept (ChBuf b) pr). split; [reflexivity|]. split; [done|].
  split; [by eapply vok_data|]. split; [by apply Ho|].
  split; [|split; [apply list_lookup_insert_eq; lia|]].
  { intros r Hr1 Hh Hph. destruct (asked_req i0 g1 s2 Ha Hg1) as (r' & P0 & z & EP & _ & Eh & Hz & _ & Hd & _).
    assert (r' = r) as -> by (apply (same_head g1 s2); [done|rewrite EP; apply elem_of_cons; by left|done|congruence]).
    rewrite decide_True in Hd by done. rewrite Hy in Hz. injection Hz as <-. lia. }
  split; [done|]. split; [unfold slept, mlfq_promote; cbn; by destruct (_ >? 0)|].
  intros g2 t2 r Hres Hg2 Ha2 Hr2 Hh2 Hp2. destruct (Hk t2 Hres) as (j & Hj & ->). cbn [rbind].
  set (t3 := enter _ _). assert (HD3 : same_data t2 t3) by done. subst i0.
  refine (rw_returns n g2 t2 g2 r t3 _ Hr2 Hp2 Ha2 (vok_data _ _ _ HD3 Hg2) _).
  - exists (leave s0 j (set_procs (awake p (k_procs t2)) t2)). split; [etrans; [exact HC0|apply leave_same_ctl]|].
    cbn. unfold awake. rewrite length_alter. destruct Hres as (_ & _ & _ & _ & ->). cbn. rewrite length_insert. done.
  - eapply only_data; [done|apply only_refl].
Qed.
End call.

(** ** The interrupt handler *)

Lemma vdisk_intr_spec `{V : VirtioDev} s g :
  procs_ok s -> lock_free s LVdisk -> vok g s ->
  runs (vdisk_intr s) (fun _ s' => same_ctl s s' /\ k_disk s' = k_disk s /\
    vok (g.1, ack <$> g.2) s' /\ untouched g.2 s s' /\
    exists B, served g.2 B /\ k_procs s' = woke_on B s).
Proof.
  intros Hok Hlk Hg. unfold vdisk_intr. apply runs_bind, runs_acquire; [done|].
  unfold reg_read, reg_write, upd_vdisk. apply runs_bind. cbn [runs gets]. apply runs_bind. cbn [runs modify].
  apply runs_bind. cbn [runs gets]. set (s1 := set_vdisk _ _).
  assert (Hin : inside s s1) by (eapply inside_ctl; [|by apply inside_enter]; done).
  destruct Hg as (q & u & HI). assert (HI1 : vinv (k_vdisk s1) (k_bufs s1) (k_disk s1) g.1 g.2 [] q u).
  { destruct HI as [I1 I2 I3 I4 I5 I6 I7 I8 I9 I10 I11 I12 I13 I14 I15 I16 I17]. split; try done.
    intros r Hr. apply (req_ok_ext (k_vdisk s) _ (k_bufs s) _ (k_disk s)); auto. }
  apply runs_bind. eapply runs_mono; [apply (intr_loop_spec _ s1 g.1 g.2 [] q u HI1)|].
  - by eapply inside_crit.
  - destruct (served_few _ _ _ _ _ _ _ _ HI1) as [Hu _]. rewrite (vi_used_dev _ _ _ _ _ _ _ _ HI1).
    pose proof (vi_used_idx _ _ _ _ _ _ _ _ HI1). unfold u16, NUM in *. zlia.
  - intros [] s2 (B & HI2 & HC & HD & HU & HB & Hps).
    eapply inside_release; [done..|by eapply inside_ctl|]. intros s3 HC3 (E1 & E2 & E3) E4.
    split; [done|]. split; [by rewrite E3|]. unfold vok, vst, untouched. rewrite E1, E2, E3, E4.
    split; [by exists q, []|]. split; [exact HU|]. by exists B.
Qed.

(** ** Results *)

(** C12: [virtio_disk_rw] transfers the block.  Called by a process for a buffer
    it holds, it never panics, however other requests are in flight and whatever
    others do while it sleeps within the protocol; each time it gives up the CPU
    it has left the requests and buffers of others and the disk alone, and the
    driver's rings consistent.  When it returns, the buffer and the block on disk
    are equal: to the buffer's content for a write, to the block's content for a
    read; no request for it is left in flight, and the locks are as before.  It
    stops only if its waiting loop is woken too often for the bound. *)
Theorem virtio_rw_correct `{W : WaitFuel, V : VirtioDev} p s g b write x :
  0 <= p < NPROC -> c_proc (k_cpu s) = Some p -> c_noff (k_cpu s) = 0 -> procs_ok s -> lock_free s LVdisk ->
  vok g s -> at_ (k_bufs s) b = Some x -> idle b g x -> 0 <= b_blockno x < 2^31 ->
  rely (only b) (meanwhile b) g s (virtio_disk_rw b write s) (fun g1 s1 _ s2 =>
    same_ctl s s2 /\ exists g2, only b g1 s1 g2 s2 /\
      transferred b (b_blockno x)
        (if write then b_data x else disk_block (k_disk s) (b_blockno x)) g2 s2).
Proof.
  intros Hp Hc Hn Hok Hlk Hg Hx Hi Hk. apply (vdisk_rw_rely p); try done. exists x. done.
Qed.

(** Every step of the device keeps the driver's invariant and what a sleeping
    caller relies on, and so does every stretch of a call for another buffer:
    what a call of [virtio_disk_rw] allows others to do while it sleeps is what
    they do. *)
Lemma virtio_protocol_kept b g s :
  (forall s' v', vok g s -> dev_step (s, g.1) (s', v') ->
     exists P', vok (v', P') s' /\ later g.2 P' /\ keeps b g s (v', P') s') /\
  (forall b' x x' g' s', b' <> b -> at_ (k_bufs s) b' = Some x' -> at_ (k_bufs s) b = Some x ->
     b_blockno x' <> b_blockno x -> only b' g s g' s' -> keeps b g s g' s').
Proof.
  split.
  - intros s' v' Hg Hst. destruct (dev_step_ok _ _ _ _ _ _ Hg Hst) as (P' & HV & HL & HU & _). exists P'.
    split; [done|]. split; [done|]. by apply later_keeps.
  - intros b' x x' g' s' Hne Hx' Hx Hk. by apply (only_keeps b' b x' x).
Qed.

(** C14: the interrupt handler returns, acknowledges every request the device has
    served and no other, wakes exactly the processes that sleep on the buffers
    of those requests, does not touch the disk, and keeps what each sleeping
    process relies on. *)
Theorem virtio_intr_correct `{W : WaitFuel, V : VirtioDev} s g :
  procs_ok s -> lock_free s LVdisk -> vok g s ->
  runs (virtio_disk_intr s) (fun _ s' => same_ctl s s' /\ k_disk s' = k_disk s /\
    vok (g.1, ack <$> g.2) s' /\ (forall b, keeps b g s (g.1, ack <$> g.2) s') /\
    exists B, served g.2 B /\ k_procs s' = woke_on B s).
Proof.
  intros Hok Hlk Hg. eapply runs_mono; [exact (vdisk_intr_spec s g Hok Hlk Hg)|].
  intros [] s' (HC & HD & Hv & HU & HB). do 3 (split; [done|]). split; [|done].
  intros b. apply later_keeps; [done|apply later_ack|done].
Qed.

(** C13: a request is answered, when at most one other request is in flight (a
    third finds no descriptors and waits for them first), the model follows the
    caller through at least two waits, and no other process touches the rings,
    the buffers or the process table meanwhile.  The call of [virtio_disk_rw]
    puts its caller to sleep; then there are steps of the device after which the
    interrupt handler returns with the caller runnable, and when the caller is
    dispatched [virtio_disk_rw] returns with the block transferred. *)
Theorem virtio_rw_completes `{W : WaitFuel, V : VirtioDev} n p s g b write x :
  wait_fuel = S (S n) -> (length g.2 <= 1)%nat ->
  0 <= p < NPROC -> c_proc (k_cpu s) = Some p -> c_noff (k_cpu s) = 0 -> procs_ok s -> lock_free s LVdisk ->
  vok g s -> at_ (k_bufs s) b = Some x -> idle b g x -> 0 <= b_blockno x < 2^31 ->
  exists sb k, virtio_disk_rw b write s = Block sb k /\
    forall s1, procs_ok s1 -> lock_free s1 LVdisk -> same_data sb s1 -> k_procs s1 = k_procs sb ->
      c_proc (k_cpu s1) <> Some p ->
      exists s2 v s3 pr, rtc dev_step (s1, g.1) (s2, v) /\ virtio_disk_intr s2 = Ok tt s3 /\
        k_procs s3 !! Z.to_nat p = Some pr /\ p_state pr = RUNNABLE /\
        forall s4, same_data s3 s4 -> resumed sb s4 ->
          runs (k s4) (fun _ s5 => same_ctl s s5 /\ exists g', vok g' s5 /\
            transferred b (b_blockno x)
              (if write then b_data x else disk_block (k_disk s) (b_blockno x)) g' s5).
Proof.
  intros Hf Hfew Hp Hc Hn Hok Hlk Hg Hx Hi Hk. set (val := if write then _ else _).
  destruct (vdisk_rw_sleeps p s Hp Hc Hn Hok Hlk b write (b_blockno x) val Hk n g Hf Hg
    ltac:(by exists x) Hfew) as (sb & k & i0 & g1 & pr & E & Ha & Hg1 & Ev & Hna & Hpr & Hst & Hch & Hret).
  exists sb, k. split; [exact E|]. intros s1 Hok1 Hlk1 HD Hps Hnp.
  pose proof Ha as (r & Hr & Hrb & Hh & Hrk & Hrv).
  destruct (dev_serves s1 g1.1 g1.2 [] r (vok_data _ _ _ HD Hg1) Hr)
    as (s2 & v & P & ph & (Hrun & HV & HL & HU & HN & HDD) & Hr2 & Hge).
  assert (Hph : ph = Served).
  { destruct ph; simpl in Hge; try lia; [done|]. exfalso. by apply (Hna _ (HN _ Hr2 eq_refl)). }
  subst ph. destruct HDD as (d & bs & dk & Es2).
  assert (Hok2 : procs_ok s2 /\ lock_free s2 LVdisk /\ k_procs s2 = k_procs sb /\ c_proc (k_cpu s2) <> Some p)
    by (by subst s2). destruct Hok2 as (Hok2 & Hlk2 & Hps2 & Hnp2).
  destruct (proj1 (runs_ok _ _) (vdisk_intr_spec s2 (v, P) Hok2 Hlk2 HV))
    as ([] & s3 & E3 & HC & HD3 & Hv3 & HU3 & B & HB & Hps3).
  exists s2, v, s3, (woken_on (c_proc (k_cpu s2)) B (Z.of_nat (Z.to_nat p)) pr).
  rewrite <- Ev. split; [done|]. split; [exact E3|]. split; [|split].
  - rewrite Hps3. unfold woke_on. rewrite list_lookup_imap, Hps2, Hpr. done.
  - unfold woken_on. rewrite decide_True; [done|]. rewrite Z2Nat.id, Hch by lia. split; [done|]. split; [done|].
    apply (list_elem_of_fmap_2 (fun b => Some (ChBuf b))), HB. by exists (set_phase Served r).
  - assert (Hack : set_phase Acked r ∈ ack <$> P) by (apply list_elem_of_fmap; by exists (set_phase Served r)).
    intros s4 HD4 Hres. eapply runs_mono; [apply (Hret (v, ack <$> P) s4 (set_phase Acked r)); try done|].
    + by eapply vok_data.
    + by exists (set_phase Acked r).
    + intros [] s5 (HC5 & g' & Ho & Ht). split; [done|]. exists g'. split; [|done]. apply Ho. by eapply vok_data.
Qed.

(** ** Concrete instances *)

(** The rings as [virtio_disk_init] leaves them. *)
Definition fresh_vdisk : vdisk := set_vd_free (replicate (Z.to_nat NUM) 1) zero_vdisk.
Definition no_requests : flight := (mkVdev 0 [], []).

Lemma fresh_vok s : k_vdisk s = fresh_vdisk -> vok no_requests s.
Proof.
  intros E. exists [], []. rewrite E. split; try done.
  - by apply NoDup_nil.
  - intros i Hi. rewrite decide_False by (simpl; apply not_elem_of_nil). unfold at_. replace (0 <=? i) with true by lia.
    cbn [fresh_vdisk vd_free set_vd_free]. apply lookup_replicate_2. unfold NUM in *. lia.
  - intros i Hi. simpl in Hi. by apply elem_of_nil in Hi.
  - by apply NoDup_nil.
  - by apply NoDup_nil.
  - intros r Hr. by apply elem_of_nil in Hr.
  - intros r Hr. by apply elem_of_nil in Hr.
Qed.


(** Process 0 about to write buffer 1, which holds block 7. *)
Definition demo_buf : buf := mkBuf 1 0 1 7 1 0 0 (replicate (Z.to_nat BSIZE) 5).
Definition demo_bufs : list buf := zero_buf :: demo_buf :: replicate (Z.to_nat NBUF) zero_buf.

Lemma demo_driver : exists s, procs_ok s /\ lock_free s LVdisk /\ c_proc (k_cpu s) = Some 0 /\
  c_noff (k_cpu s) = 0 /\ vok no_requests s /\ k_bufs s = demo_bufs.
Proof.
  destruct demo_sched as (s0 & (Hc & Hlen & Hl) & Hn & _).
  exists (set_vdisk fresh_vdisk (set_bufs demo_bufs (set_cpu (mkCpu (Some 0) 0 0)
    (set_locks (<[LVdisk := mkLock 0 false "virtio_disk"]> (k_locks s0)) s0)))).
  split; [|split; [eexists; apply lookup_insert_eq|split; [done|split; [done|split; [by apply fresh_vok|done]]]]].
  split; [destruct Hc as (H1 & _); split; [exact H1|split; [reflexivity|intros H; inversion H]]|].
  split; [exact Hlen|]. intros i Hi. destruct (Hl i Hi) as [nm Hnm]. exists nm.
  cbn [k_locks set_vdisk set_bufs set_cpu set_locks]. by rewrite lookup_insert_ne.
Qed.

Lemma demo_idle : idle 1 no_requests demo_buf.
Proof. split; apply not_elem_of_nil. Qed.

Lemma virtio_rw_correct_witness : exists s, k_bufs s = demo_bufs /\
  rely (only 1) (meanwhile 1) no_requests s
    (@virtio_disk_rw (@virtio 1%nat (fun _ _ => 0)) 1 true s) (fun g1 s1 _ s2 =>
    same_ctl s s2 /\ exists g2, only 1 g1 s1 g2 s2 /\
      transferred 1 (b_blockno demo_buf) (b_data demo_buf) g2 s2).
Proof.
  destruct demo_driver as (s & Hok & Hlk & Hc & Hn & Hg & Hb). exists s. split; [exact Hb|].
  apply (@virtio_rw_correct 1%nat (fun _ _ => 0) 0 s no_requests 1 true demo_buf); try assumption.
  - split; [apply Z.le_refl|reflexivity].
  - rewrite Hb. reflexivity.
  - exact demo_idle.
  - split; [discriminate|reflexivity].
Defined.

Lemma virtio_intr_correct_witness : exists s, k_bufs s = demo_bufs /\
  runs (@virtio_disk_intr (@virtio 1%nat (fun _ _ => 0)) s) (fun _ s' =>
    same_ctl s s' /\ k_disk s' = k_disk s /\
    vok (no_requests.1, ack <$> no_requests.2) s' /\
    (forall b, keeps b no_requests s (no_requests.1, ack <$> no_requests.2) s') /\
    exists B, served no_requests.2 B /\ k_procs s' = woke_on B s).
Proof.
  destruct demo_driver as (s & Hok & Hlk & _ & _ & Hg & Hb). exists s. split; [exact Hb|].
  apply (@virtio_intr_correct 1%nat (fun _ _ => 0) s no_requests); assumption.
Defined.

Lemma virtio_rw_completes_witness : exists s, k_bufs s = demo_bufs /\ exists sb k,
  @virtio_disk_rw (@virtio 2%nat (fun _ _ => 0)) 1 true s = Block sb k /\
    forall s1, procs_ok s1 -> lock_free s1 LVdisk -> same_data sb s1 -> k_procs s1 = k_procs sb ->
      c_proc (k_cpu s1) <> Some 0 ->
      exists s2 v s3 pr, rtc dev_step (s1, no_requests.1) (s2, v) /\
        @virtio_disk_intr (@virtio 2%nat (fun _ _ => 0)) s2 = Ok tt s3 /\
        k_procs s3 !! Z.to_nat 0 = Some pr /\ p_state pr = RUNNABLE /\
        forall s4, same_data s3 s4 -> resumed sb s4 ->
          runs (k s4) (fun _ s5 => same_ctl s s5 /\ exists g', vok g' s5 /\
            transferred 1 (b_blockno demo_buf) (b_data demo_buf) g' s5).
Proof.
  destruct demo_driver as (s & Hok & Hlk & Hc & Hn & Hg & Hb). exists s. split; [exact Hb|].
  apply (@virtio_rw_completes 2%nat (fun _ _ => 0) 0 0 s no_requests 1 true demo_buf); try assumption.
  - reflexivity.
  - apply le_S, le_n.
  - split; [apply Z.le_refl|reflexivity].
  - rewrite Hb. reflexivity.
  - exact demo_idle.
  - split; [discriminate|reflexivity].
Defined.
