(* ===== verification/Codec.v ===== *)
(** * Little-endian structures in block buffers

    The on-disk structures of [fs.h] and [log.c] are C structures laid over a
    block's bytes; these are the accessors for their fields. *)

From S2P Require Import Prelude CMem Machine.

(** Byte [off] of a block. *)
Definition byte_at (bs : list Z) (off : Z) : Z := default 0 (bs !! Z.to_nat off).
Definition put_byte (bs : list Z) (off v : Z) : list Z :=
  <[Z.to_nat off := v mod 256]> bs.

Definition get16 (bs : list Z) (off : Z) : Z :=
  byte_at bs off + 2^8 * byte_at bs (off + 1).
Definition put16 (bs : list Z) (off v : Z) : list Z :=
  put_byte (put_byte bs off v) (off + 1) (v / 2^8).
Definition get32 (bs : list Z) (off : Z) : Z :=
  get16 bs off + 2^16 * get16 bs (off + 2).
Definition put32 (bs : list Z) (off v : Z) : list Z :=
  put16 (put16 bs off v) (off + 2) (v / 2^16).

(** A [short]. *)
Definition i16 (x : Z) : Z :=
  let y := x mod 2^16 in if y <? 2^15 then y else y - 2^16.

(** [get32] of [n] consecutive words, and the reverse. *)
Fixpoint get32s (n : nat) (bs : list Z) (off : Z) : list Z :=
  match n with
  | O => []
  | S n' => get32 bs off :: get32s n' bs (off + 4)
  end.
Fixpoint put32s (bs : list Z) (off : Z) (vs : list Z) : list Z :=
  match vs with
  | [] => bs
  | v :: vs' => put32s (put32 bs off v) (off + 4) vs'
  end.

(** [memmove(bs + off, new, length new)] *)
Definition splice (bs : list Z) (off : Z) (new : list Z) : list Z :=
  take (Z.to_nat off) bs ++ new ++ drop (Z.to_nat off + length new) bs.
(** [n] bytes from [bs + off] *)
Definition slice (bs : list Z) (off n : Z) : list Z :=
  take (Z.to_nat n) (drop (Z.to_nat off) bs).

(** ** Laws *)

Lemma byte_at_put bs off v o :
  0 <= off -> 0 <= o -> (Z.to_nat off < length bs)%nat ->
  byte_at (put_byte bs off v) o = if decide (o = off) then v mod 256 else byte_at bs o.
Proof.
  intros H1 H2 Hl. unfold byte_at, put_byte. case_decide as He.
  - subst. by rewrite list_lookup_insert_eq.
  - rewrite list_lookup_insert_ne; [done|lia].
Qed.
Lemma put_byte_length bs off v : length (put_byte bs off v) = length bs.
Proof. apply length_insert. Qed.
Lemma put16_length bs off v : length (put16 bs off v) = length bs.
Proof. unfold put16. by rewrite !put_byte_length. Qed.
Lemma put32_length bs off v : length (put32 bs off v) = length bs.
Proof. unfold put32. by rewrite !put16_length. Qed.
Lemma put32s_length bs off vs : length (put32s bs off vs) = length bs.
Proof.
  revert bs off. induction vs as [|v vs IH]; intros bs off; simpl; [done|].
  by rewrite IH, put32_length.
Qed.

Lemma byte_at_put16 bs off v o :
  0 <= off -> 0 <= o -> (Z.to_nat off + 2 <= length bs)%nat ->
  byte_at (put16 bs off v) o =
    if decide (o = off) then v mod 256
    else if decide (o = off + 1) then v / 2^8 mod 256 else byte_at bs o.
Proof.
  intros H1 H2 Hl. unfold put16.
  rewrite byte_at_put by (rewrite ?put_byte_length; lia).
  rewrite byte_at_put by lia. repeat case_decide; try done; lia.
Qed.

Lemma get16_put16 bs off v :
  0 <= off -> (Z.to_nat off + 2 <= length bs)%nat -> get16 (put16 bs off v) off = v mod 2^16.
Proof.
  intros H1 Hl. unfold get16. rewrite !byte_at_put16 by lia.
  repeat case_decide; try lia. zlia.
Qed.
Lemma get16_put16_ne bs off v o :
  0 <= off -> 0 <= o -> (Z.to_nat off + 2 <= length bs)%nat ->
  off + 2 <= o \/ o + 2 <= off -> get16 (put16 bs off v) o = get16 bs o.
Proof.
  intros H1 H2 Hl Hd. unfold get16. rewrite !byte_at_put16 by lia.
  by repeat case_decide; try lia.
Qed.

Lemma get32_put32 bs off v :
  0 <= off -> (Z.to_nat off + 4 <= length bs)%nat -> get32 (put32 bs off v) off = v mod 2^32.
Proof.
  intros H1 Hl. unfold get32, put32.
  rewrite get16_put16_ne by (rewrite ?put16_length; lia).
  rewrite !get16_put16 by (rewrite ?put16_length; lia). zlia.
Qed.
Lemma get32_put32_ne bs off v o :
  0 <= off -> 0 <= o -> (Z.to_nat off + 4 <= length bs)%nat ->
  off + 4 <= o \/ o + 4 <= off -> get32 (put32 bs off v) o = get32 bs o.
Proof.
  intros H1 H2 Hl Hd. unfold get32, put32.
  by rewrite !get16_put16_ne by (rewrite ?put16_length; lia).
Qed.
Lemma get16_put32_ne bs off v o :
  0 <= off -> 0 <= o -> (Z.to_nat off + 4 <= length bs)%nat ->
  off + 4 <= o \/ o + 2 <= off -> get16 (put32 bs off v) o = get16 bs o.
Proof.
  intros H1 H2 Hl Hd. unfold put32.
  by rewrite !get16_put16_ne by (rewrite ?put16_length; lia).
Qed.
Lemma get32_put16_ne bs off v o :
  0 <= off -> 0 <= o -> (Z.to_nat off + 2 <= length bs)%nat ->
  off + 2 <= o \/ o + 4 <= off -> get32 (put16 bs off v) o = get32 bs o.
Proof.
  intros H1 H2 Hl Hd. unfold get32.
  by rewrite !get16_put16_ne by lia.
Qed.

Lemma get32_put32s_ne vs : forall bs off o,
  0 <= off -> 0 <= o -> (Z.to_nat off + 4 * length vs <= length bs)%nat ->
  off + 4 * Z.of_nat (length vs) <= o \/ o + 4 <= off ->
  get32 (put32s bs off vs) o = get32 bs o.
Proof.
  induction vs as [|v vs IH]; intros bs off o H1 H2 Hl Hd; simpl in *; [done|].
  rewrite IH by (rewrite ?put32_length; lia).
  rewrite get32_put32_ne by lia. done.
Qed.

Lemma get32s_put32s vs : forall bs off,
  0 <= off -> (Z.to_nat off + 4 * length vs <= length bs)%nat ->
  get32s (length vs) (put32s bs off vs) off = (fun v => v mod 2^32) <$> vs.
Proof.
  induction vs as [|v vs IH]; intros bs off H1 Hl; simpl in *; [done|].
  rewrite get32_put32s_ne by (rewrite ?put32_length; lia).
  rewrite get32_put32 by lia. f_equal. apply IH; [lia|]. rewrite put32_length. lia.
Qed.

Lemma splice_length bs off new :
  (Z.to_nat off + length new <= length bs)%nat -> length (splice bs off new) = length bs.
Proof. intros Hl. unfold splice. rewrite !length_app, length_take, length_drop. lia. Qed.
Lemma byte_at_splice bs off new o :
  0 <= off -> 0 <= o -> (Z.to_nat off + length new <= length bs)%nat ->
  byte_at (splice bs off new) o =
    if decide (off <= o < off + Z.of_nat (length new)) then byte_at new (o - off) else byte_at bs o.
Proof.
  intros H1 H2 Hl. unfold byte_at, splice. case_decide as Hin.
  - rewrite lookup_app_r by (rewrite length_take; lia). rewrite length_take.
    rewrite lookup_app_l by lia. do 2 f_equal. lia.
  - destruct (decide (o < off)).
    + rewrite lookup_app_l by (rewrite length_take; lia). by rewrite lookup_take_lt by lia.
    + rewrite lookup_app_r by (rewrite length_take; lia). rewrite length_take.
      rewrite lookup_app_r by lia. rewrite lookup_drop. do 2 f_equal. lia.
Qed.
Lemma slice_length bs off n :
  0 <= off -> 0 <= n -> off + n <= Z.of_nat (length bs) -> length (slice bs off n) = Z.to_nat n.
Proof. intros. unfold slice. rewrite length_take, length_drop. lia. Qed.
Lemma byte_at_slice bs off n o :
  0 <= off -> 0 <= o < n -> byte_at (slice bs off n) o = byte_at bs (off + o).
Proof.
  intros. unfold byte_at, slice. rewrite lookup_take_lt by lia. rewrite lookup_drop. do 2 f_equal. lia.
Qed.
