(* ===== verification/Log.v ===== *)
(** * The write-ahead log

    Models [src/os/kernel/log.c]: a transaction's blocks are pinned in the
    buffer cache, copied to the log area, committed by one write of the header
    block, then installed at their home locations. *)

From S2P Require Import Prelude CMem Machine Sv32 Spinlock Printf.
From S2P Require Import Sched Sleeplock Bio Codec.

Section log.
Context `{WaitFuel, BlockDev}.

(** [log.lh.block[i]] *)
Definition lh_get (i : Z) : K Z :=
  l <- gets k_log ;;
  match (if 0 <=? i then l.(lh_block) !! Z.to_nat i else None) with
  | Some b => ret b
  | None => undefined "log.lh.block"
  end.
Definition lh_put (i v : Z) : K unit :=
  l <- gets k_log ;;
  if (0 <=? i) && (i <? Z.of_nat (length l.(lh_block)))
  then upd_log (set_lh_block (<[Z.to_nat i := v]> l.(lh_block)))
  else undefined "log.lh.block".

(** [buf->data] assigned *)
Definition set_data (b : Z) (f : list Z -> list Z) : K unit :=
  upd_buf b (fun x => set_b_data (f x.(b_data)) x).

(** [memmove(dst->data, src->data, BSIZE)] *)
Definition copy_data (dst src : Z) : K unit :=
  x <- get_buf src ;; set_data dst (fun _ => x.(b_data)).

Definition install_trans (recovering : bool) : K unit :=
  l <- gets k_log ;;
  for_ (Z.to_nat l.(lh_n)) 0 (fun tail =>
    home <- lh_get tail ;;
    (if recovering
     then printf (cstr "recovering tail %d dst %d" ++ [10]) [VInt tail; VInt home]
     else ret tt) ;;
    l <- gets k_log ;;
    lbuf <- bread l.(lg_dev) (l.(lg_start) + tail + 1) ;;
    home <- lh_get tail ;;
    dbuf <- bread l.(lg_dev) home ;;
    copy_data dbuf lbuf ;;
    bwrite dbuf ;;
    (if negb recovering then bunpin dbuf else ret tt) ;;
    brelse lbuf ;;
    brelse dbuf).

Definition read_head : K unit :=
  l <- gets k_log ;;
  b <- bread l.(lg_dev) l.(lg_start) ;;
  x <- get_buf b ;;
  let n := i32 (get32 x.(b_data) 0) in
  upd_log (set_lh_n n) ;;
  for_ (Z.to_nat n) 0 (fun i => lh_put i (i32 (get32 x.(b_data) (4 + 4 * i)))) ;;
  brelse b.

Definition write_head : K unit :=
  l <- gets k_log ;;
  b <- bread l.(lg_dev) l.(lg_start) ;;
  set_data b (fun d => put32 d 0 l.(lh_n)) ;;
  for_ (Z.to_nat l.(lh_n)) 0 (fun i =>
    v <- lh_get i ;; set_data b (fun d => put32 d (4 + 4 * i) v)) ;;
  bwrite b ;;
  brelse b.

Definition recover_from_log : K unit :=
  read_head ;;
  install_trans true ;;
  upd_log (set_lh_n 0) ;;
  write_head.

(** [sizeof(struct logheader)] *)
Definition logheader_size : Z := 4 + 4 * LOGBLOCKS.

Definition initlog (dev : Z) (sb : superblock) : K unit :=
  if logheader_size >=? BSIZE then panic "initlog: too big logheader" else
  initlock LLog "log" ;;
  upd_log (set_lg_start sb.(sb_logstart)) ;;
  upd_log (set_lg_dev dev) ;;
  recover_from_log.

(** [log.committing || log.lh.n + (log.outstanding+1)*MAXOPBLOCKS > LOGBLOCKS]:
    the caller of [begin_op] sleeps *)
Definition log_full (l : log_t) : bool :=
  negb (l.(lg_committing) =? 0) ||
  (l.(lh_n) + (l.(lg_outstanding) + 1) * MAXOPBLOCKS >? LOGBLOCKS).

Definition begin_op : K unit :=
  acquire LLog ;;
  while_wait wait_fuel (l <- gets k_log ;; ret (log_full l)) (sleep ChLog LLog) ;;
  upd_log (fun l => set_lg_outstanding (l.(lg_outstanding) + 1) l) ;;
  release LLog.

Definition write_log : K unit :=
  l <- gets k_log ;;
  for_ (Z.to_nat l.(lh_n)) 0 (fun tail =>
    l <- gets k_log ;;
    to <- bread l.(lg_dev) (l.(lg_start) + tail + 1) ;;
    home <- lh_get tail ;;
    from <- bread l.(lg_dev) home ;;
    copy_data to from ;;
    bwrite to ;;
    brelse from ;;
    brelse to).

Definition commit : K unit :=
  l <- gets k_log ;;
  if l.(lh_n) >? 0 then
    write_log ;;
    write_head ;;
    install_trans false ;;
    upd_log (set_lh_n 0) ;;
    write_head
  else ret tt.

Definition end_op : K unit :=
  acquire LLog ;;
  upd_log (fun l => set_lg_outstanding (l.(lg_outstanding) - 1) l) ;;
  l <- gets k_log ;;
  if negb (l.(lg_committing) =? 0) then panic "log.committing" else
  let do_commit := l.(lg_outstanding) =? 0 in
  (if do_commit then upd_log (set_lg_committing 1) else wakeup ChLog) ;;
  release LLog ;;
  if do_commit then
    commit ;;
    acquire LLog ;;
    upd_log (set_lg_committing 0) ;;
    wakeup ChLog ;;
    release LLog
  else ret tt.

(** Index of the first logged block equal to [blockno], else [n]. *)
Fixpoint log_slot (n : nat) (i blockno : Z) : K Z :=
  match n with
  | O => ret i
  | S n' => v <- lh_get i ;; if v =? blockno then ret i else log_slot n' (i + 1) blockno
  end.

Definition log_write (b : Z) : K unit :=
  acquire LLog ;;
  l <- gets k_log ;;
  if l.(lh_n) >=? LOGBLOCKS then panic "too big a transaction" else
  if l.(lg_outstanding) <? 1 then panic "log_write outside of trans" else
  x <- get_buf b ;;
  i <- log_slot (Z.to_nat l.(lh_n)) 0 x.(b_blockno) ;;
  lh_put i x.(b_blockno) ;;
  (if i =? l.(lh_n) then
     bpin b ;;
     upd_log (fun l => set_lh_n (l.(lh_n) + 1) l)
   else ret tt) ;;
  release LLog.

End log.
