(* ===== verification/LogProof.v ===== *)
(** * The write-ahead log: properties

    [commit] writes the blocks of a transaction to the log, then the header,
    then the blocks to their places, then an empty header; recovery replays a
    committed log.  Whatever prefix of those writes reaches the disk before a
    crash, recovery leaves all of the transaction or none of it. *)

From S2P Require Import Prelude CMem Machine Sv32 Spinlock KallocProof PageTable UserMem.
From S2P Require Import Printf PrintfProof Sched SchedProof Sleeplock Bio BioProof Codec Log.

(** ** Sequences of block writes *)

Definition disk_writes (ws : list (Z * list Z)) (d : disk_t) : disk_t :=
  mkDisk d.(d_init) (d.(d_writes) ++ ws).

(** The contents [c] with block [b] replaced. *)
Definition bput (c : Z -> list Z) (b : Z) (v : list Z) : Z -> list Z :=
  fun w => if decide (w = b) then v else c w.

(** The contents [c] after the writes [ws]. *)
Definition after (ws : list (Z * list Z)) (c : Z -> list Z) : Z -> list Z :=
  foldl (fun c p => bput c p.1 p.2) c ws.

Lemma disk_write_writes b v d : disk_write b v d = disk_writes [(b, v)] d.
Proof. done. Qed.
Lemma disk_writes_app ws ws' d : disk_writes ws' (disk_writes ws d) = disk_writes (ws ++ ws') d.
Proof. unfold disk_writes. simpl. by rewrite app_assoc. Qed.
Lemma disk_writes_nil d : disk_writes [] d = d.
Proof. unfold disk_writes. rewrite app_nil_r. by destruct d. Qed.

Lemma after_app ws ws' c : after (ws ++ ws') c = after ws' (after ws c).
Proof. unfold after. apply foldl_app. Qed.

Lemma after_ext ws c c' : (forall w, c w = c' w) -> forall w, after ws c w = after ws c' w.
Proof.
  revert c c'. induction ws as [|[b v] ws IH]; intros c c' Hc w; simpl; [done|].
  apply IH. intros x. unfold bput. by case_decide.
Qed.

Lemma disk_block_writes ws d w : disk_block (disk_writes ws d) w = after ws (disk_block d) w.
Proof.
  revert d. induction ws as [|[b v] ws IH]; intros d; simpl; [by rewrite disk_writes_nil|].
  change ((b, v) :: ws) with ([(b, v)] ++ ws). rewrite <- disk_writes_app, IH.
  apply after_ext. intros x. rewrite <- disk_write_writes, disk_block_write. unfold bput. done.
Qed.

Lemma after_notin ws c w : w ∉ ws.*1 -> after ws c w = c w.
Proof.
  revert c. induction ws as [|[b v] ws IH]; intros c Hw; simpl in *; [done|].
  rewrite not_elem_of_cons in Hw. rewrite IH by tauto. unfold bput. rewrite decide_False; tauto.
Qed.

Lemma after_in ws c b v : NoDup ws.*1 -> (b, v) ∈ ws -> after ws c b = v.
Proof.
  revert c. induction ws as [|[b' v'] ws IH]; intros c Hnd Hin; simpl in *; [by apply elem_of_nil in Hin|].
  apply NoDup_cons in Hnd as [Hb Hnd]. apply elem_of_cons in Hin as [[= -> ->]|Hin]; [|by apply IH].
  rewrite after_notin by done. unfold bput. by rewrite decide_True.
Qed.

(** Blocks [L] in order, each with its content. *)
Definition installs (L : list Z) (v : Z -> list Z) : list (Z * list Z) := (fun h => (h, v h)) <$> L.
(** The log blocks after [st], with the contents of [L]. *)
Definition log_blocks (st : Z) (L : list Z) (v : Z -> list Z) : list (Z * list Z) :=
  imap (fun i h => (st + 1 + Z.of_nat i, v h)) L.

Lemma installs_fst L v : (installs L v).*1 = L.
Proof. unfold installs. rewrite <- list_fmap_compose. apply list_fmap_id. Qed.

Lemma after_installs L v c w :
  NoDup L -> after (installs L v) c w = if decide (w ∈ L) then v w else c w.
Proof.
  intros Hnd. case_decide as Hw.
  - apply after_in; [by rewrite installs_fst|]. unfold installs. apply list_elem_of_fmap. eauto.
  - apply after_notin. by rewrite installs_fst.
Qed.

Lemma log_blocks_fst st L v : (log_blocks st L v).*1 = imap (fun i _ => st + 1 + Z.of_nat i) L.
Proof. unfold log_blocks. by rewrite fmap_imap. Qed.

Lemma log_blocks_range st L v w :
  w ∈ (log_blocks st L v).*1 -> st < w <= st + Z.of_nat (length L).
Proof.
  rewrite log_blocks_fst. intros [i Hi]%list_elem_of_lookup. rewrite list_lookup_imap in Hi.
  destruct (L !! i) eqn:E; [|done]. apply lookup_lt_Some in E. simplify_eq/=. lia.
Qed.

Lemma log_blocks_nodup st L v : NoDup (log_blocks st L v).*1.
Proof.
  rewrite log_blocks_fst. apply NoDup_alt. intros i j x Hi Hj.
  rewrite list_lookup_imap in Hi, Hj. destruct (L !! i), (L !! j); simplify_eq/=. lia.
Qed.

Lemma after_log_blocks st L v c i h :
  L !! i = Some h -> after (log_blocks st L v) c (st + 1 + Z.of_nat i) = v h.
Proof.
  intros Hi. apply after_in; [apply log_blocks_nodup|]. apply list_elem_of_lookup. exists i.
  unfold log_blocks. by rewrite list_lookup_imap, Hi.
Qed.

(** ** The header block *)

Definition header (d : list Z) (L : list Z) : list Z :=
  put32s (put32 d 0 (Z.of_nat (length L))) 4 L.

Lemma put32s_snoc vs : forall bs off v,
  put32s bs off (vs ++ [v]) = put32 (put32s bs off vs) (off + 4 * Z.of_nat (length vs)) v.
Proof.
  induction vs as [|x vs IH]; intros bs off v; simpl; [f_equal; lia|]. rewrite IH. f_equal. lia.
Qed.

(** The block numbers a header holds. *)
Definition header_n (d : list Z) : Z := i32 (get32 d 0).
Definition header_blocks (d : list Z) : list Z :=
  (fun i => i32 (get32 d (4 + 4 * i))) <$> seqZ 0 (header_n d).

Lemma i32_small x : 0 <= x < 2^31 -> i32 (x mod 2^32) = x.
Proof. intros Hx. unfold i32, u32. rewrite (Z.mod_small x) by lia. rewrite ?(Z.mod_small x) by lia.
  by rewrite (proj2 (Z.ltb_lt x (2^31))) by lia. Qed.

Lemma get32s_lookup n : forall bs off i,
  (i < n)%nat -> get32s n bs off !! i = Some (get32 bs (off + 4 * Z.of_nat i)).
Proof.
  induction n as [|n IH]; intros bs off i Hi; [lia|]. destruct i as [|i]; simpl; [do 2 f_equal; lia|].
  rewrite IH by lia. do 2 f_equal. lia.
Qed.

Lemma header_read d L :
  (4 + 4 * length L <= length d)%nat -> Z.of_nat (length L) < 2^31 ->
  Forall (fun h => 0 <= h < 2^31) L ->
  header_n (header d L) = Z.of_nat (length L) /\ header_blocks (header d L) = L.
Proof.
  intros Hl Hn HL.
  assert (En : header_n (header d L) = Z.of_nat (length L)).
  { unfold header_n, header. rewrite get32_put32s_ne by (rewrite ?put32_length; lia).
    rewrite get32_put32 by lia. apply i32_small. lia. }
  split; [done|]. unfold header_blocks. rewrite En.
  apply list_eq. intros i. rewrite list_lookup_fmap.
  destruct (decide (i < length L)%nat) as [Hi|Hi].
  - rewrite lookup_seqZ_lt by lia. simpl.
    pose proof (get32s_put32s L (put32 d 0 (Z.of_nat (length L))) 4 ltac:(lia)
      ltac:(rewrite put32_length; lia)) as Hg.
    assert (Hgi := get32s_lookup (length L) (header d L) 4 i Hi). unfold header in Hgi at 1.
    rewrite Hg, list_lookup_fmap in Hgi.
    destruct (L !! i) as [h|] eqn:E; [|done]. simpl in Hgi. injection Hgi as Hgi.
    f_equal. replace (4 + 4 * (0 + Z.of_nat i)) with (4 + 4 * Z.of_nat i) by lia.
    rewrite <- Hgi. apply i32_small. by apply (Forall_lookup_1 _ _ _ _ HL E).
  - rewrite lookup_seqZ_ge by lia. symmetry. by apply lookup_ge_None; lia.
Qed.

(** ** The layout of a transaction *)

(** Blocks of a transaction are distinct and lie outside the log. *)
Record layout (st : Z) (L : list Z) : Prop := {
  ly_nodup : NoDup L;
  ly_out : forall h, h ∈ L -> ~ (st <= h <= st + LOGBLOCKS);
  ly_range : Forall (fun h => 0 <= h < 2^31) L;
}.

Lemma log_blocks_home st L v n h :
  layout st L -> (length L <= Z.to_nat LOGBLOCKS)%nat -> h ∈ L ->
  h ∉ (take n (log_blocks st L v)).*1.
Proof.
  intros HL Hm Hh Hin. rewrite fmap_take in Hin. apply subseteq_take in Hin.
  apply log_blocks_range in Hin. apply (ly_out _ _ HL h Hh). unfold LOGBLOCKS in *. lia.
Qed.

(** The contents of the log blocks are those of [L]. *)
Definition log_holds (c : Z -> list Z) (st : Z) (L : list Z) (v : Z -> list Z) : Prop :=
  forall i h, L !! i = Some h -> c (st + 1 + Z.of_nat i) = v h.

Lemma take_S_nodup (L : list Z) n h w :
  NoDup L -> L !! n = Some h -> w ∈ take (S n) L <-> w = h \/ w ∈ take n L.
Proof. intros _ Hh. rewrite (take_S_r L n h Hh). set_solver. Qed.

Lemma take_lookup_notin (L : list Z) n h : NoDup L -> L !! n = Some h -> h ∉ take n L.
Proof.
  intros Hnd Hh Hin. apply list_elem_of_lookup in Hin as [i Hi].
  apply lookup_take_Some in Hi as [Hi Hlt]. pose proof (NoDup_lookup _ _ _ _ Hnd Hi Hh). lia.
Qed.

Lemma after_view_out st L v c w :
  w ∈ L -> layout st L -> (length L <= Z.to_nat LOGBLOCKS)%nat ->
  after (log_blocks st L v ++ [(st, header (v st) L)]) c w = c w.
Proof.
  intros Hw HL Hm. apply after_notin. rewrite fmap_app. simpl. intros Hin.
  apply elem_of_app in Hin as [Hin|Hin].
  - apply log_blocks_range in Hin. apply (ly_out _ _ HL w Hw). unfold LOGBLOCKS in *. lia.
  - apply list_elem_of_singleton in Hin as ->. apply (ly_out _ _ HL st Hw). unfold LOGBLOCKS, MAXOPBLOCKS. lia.
Qed.

Lemma log_holds_after st L v c :
  layout st L -> (length L <= Z.to_nat LOGBLOCKS)%nat ->
  log_holds (after (log_blocks st L v ++ [(st, header (v st) L)]) c) st L v.
Proof.
  intros HL Hm i h Hi. rewrite after_app. rewrite after_notin.
  - by apply after_log_blocks.
  - simpl. rewrite list_elem_of_singleton. lia.
Qed.

(** ** One block copied to another *)

Section log.
Context `{W : WaitFuel, D : BlockDev, !BlockDevOk D} (dev : Z).
Hypothesis Hfuel : (0 < wait_fuel)%nat.

Lemma clean_view s pid H w :
  binv dev s pid H -> rc dev s w = 0 -> view dev s w = disk_block (k_disk s) w.
Proof.
  intros HI Hr. unfold view, rc in *. destruct (cbuf dev (k_bufs s) w) as [b|] eqn:E; [|done].
  destruct (Z.eqb_spec (b_valid b) 0); [done|].
  apply cbuf_Some in E as (i & Hi & Hd & Hw); [|apply HI]. rewrite <- Hw.
  by apply (bi_clean _ _ _ _ HI i).
Qed.

Lemma rc_nonneg s pid H w : binv dev s pid H -> 0 <= rc dev s w < 2^32.
Proof.
  intros HI. unfold rc. destruct (cbuf dev (k_bufs s) w) as [b|] eqn:E; [|done].
  apply cbuf_Some in E as (i & Hi & _); [|apply HI]. by apply (bi_ref _ _ _ _ HI i).
Qed.

(** The state after block [dst] was given [data] and written, with [k] users
    less. *)
Record moved (s : kstate) (pid dst : Z) (data : list Z) (k : Z) (s' : kstate) : Prop := {
  mv_inv : binv dev s' pid ∅;
  mv_frame : bframe s s';
  mv_disk : k_disk s' = disk_writes [(dst, data)] (k_disk s);
  mv_view : forall w, view dev s' w = bput (view dev s) dst data w;
  mv_rc : forall w, rc dev s' w = if decide (w = dst) then rc dev s w - k else rc dev s w;
  mv_busy : (busy s' <= busy s)%nat;
}.

(** [lbuf] and [dbuf] locked: copy, write, unpin if [k] is 1, release both. *)
Lemma copy_release s s0 pid src dst sb db (k : Z) :
  binv dev s pid {[sb := src; db := dst]} -> sb <> db -> src <> dst ->
  bframe s0 s -> k_disk s = k_disk s0 -> (forall w, view dev s w = view dev s0 w) ->
  (forall w, rc dev s w = rc dev s0 w + (if decide (w = src \/ w = dst) then 1 else 0)) ->
  (busy s = busy s0 + (if decide (rc dev s0 src = 0)%Z then 1 else 0)
                    + (if decide (rc dev s0 dst = 0)%Z then 1 else 0))%nat ->
  (k = 0 \/ k = 1 /\ 1 <= rc dev s0 dst) ->
  (0 <= rc dev s0 src /\ 0 <= rc dev s0 dst) ->
  (rc dev s0 src = 0 -> view dev s0 src = disk_block (k_disk s0) src) ->
  runs ((copy_data db sb ;; bwrite db ;; (if k =? 1 then bunpin db else ret tt) ;;
         brelse sb ;; brelse db) s)
    (fun _ => moved s0 pid dst (view dev s0 src) k).
Proof.
  intros HI Hne Hsd Hfr Hd Hv Hr Hb Hk [Hrs Hrd] Hcl. set (H := {[sb := src; db := dst]} : gmap Z Z) in *.
  assert (Hsb : H !! sb = Some src) by (apply lookup_insert_eq).
  assert (Hdb : H !! db = Some dst)
    by (unfold H; rewrite lookup_insert_ne by done; apply lookup_insert_eq).
  destruct (held_entry dev s pid H sb src HI Hsb) as (x & nm & [Hx0 Hx] & _ & _ & Hxd & _).
  unfold copy_data. apply runs_bind.
  rewrite (bind_ok _ _ _ _ _ (get_buf_eq s sb x (proj1 Hx0) Hx)).
  eapply runs_mono; [apply (set_data_spec dev s pid H db dst (fun _ => b_data x) HI Hdb)|].
  intros [] s1 [A1 A2 A3 A4 A5 A6]. apply runs_bind.
  eapply runs_mono; [apply (bwrite_spec dev s1 pid H db dst A1 Hdb)|].
  intros [] s2 [B1 B2 B3 B4 B5 B6]. rewrite A4, decide_True, Hxd, Hv, A3, Hd in B3 by done.
  assert (Hv2 : forall w, view dev s2 w = bput (view dev s0) dst (view dev s0 src) w).
  { intros w. rewrite B4, A4. unfold bput. rewrite Hxd, !Hv. done. }
  assert (Hr2 : forall w, rc dev s2 w = rc dev s w) by (intros w; by rewrite B5, A5).
  apply runs_bind. eapply (runs_mono _ (fun _ s3 => binv dev s3 pid H /\ bframe s2 s3 /\
    k_disk s3 = k_disk s2 /\ (forall w, view dev s3 w = view dev s2 w) /\
    (forall w, rc dev s3 w = if decide (w = dst) then rc dev s2 w - k else rc dev s2 w) /\
    busy s3 = busy s2)).
  { destruct Hk as [->|[-> Hk]]; cbn [Z.eqb].
    - cbn [runs ret]. do 4 (split; [done|]). split; [|done]. intros w. destruct (decide (w = dst)); lia.
    - assert (Hge : 2 <= rc dev s2 dst).
      { rewrite Hr2, Hr, decide_True by auto. lia. }
      eapply runs_mono; [by apply (bunpin_spec dev s2 pid H db dst)|].
      intros [] s3 [C1 C2 C3 C4 C5 C6]. do 4 (split; [done|]). split; [done|].
      rewrite decide_False in C6 by lia. lia. }
  intros [] s3 (C1 & C2 & C3 & C4 & C5 & C6). apply runs_bind.
  assert (Hrs3 : rc dev s3 src = rc dev s0 src + 1).
  { rewrite C5, decide_False by done. rewrite Hr2, Hr, decide_True by auto. done. }
  assert (Hrd3 : rc dev s3 dst = rc dev s0 dst + 1 - k).
  { rewrite C5, decide_True by done. rewrite Hr2, Hr, decide_True by auto. done. }
  eapply runs_mono.
  { apply (brelse_spec dev s3 pid H sb src C1 Hsb). intros Hone.
    rewrite C4, Hv2, C3, B3. unfold bput. rewrite decide_False by done.
    rewrite disk_block_write, decide_False by done. apply Hcl. lia. }
  intros [] s4 [E1 E2 E3 E4 E5 E6]. rewrite Hrs3 in E6.
  assert (Hdb4 : delete sb H !! db = Some dst) by (by rewrite lookup_delete_ne).
  assert (Hrd4 : rc dev s4 dst = rc dev s3 dst) by (rewrite E5, decide_False by done; done).
  eapply runs_mono.
  { apply (brelse_spec dev s4 pid (delete sb H) db dst E1 Hdb4). intros _.
    rewrite E4, C4, Hv2, E3, C3, B3. unfold bput. rewrite decide_True by done.
    by rewrite disk_block_write, decide_True. }
  intros [] s5 [F1 F2 F3 F4 F5 F6]. rewrite Hrd4, Hrd3 in F6. split.
  - replace (delete db (delete sb H)) with (∅ : gmap Z Z) in F1; [done|].
    unfold H. apply map_eq. intros i. rewrite lookup_empty.
    destruct (decide (i = db)) as [->|]; [by rewrite lookup_delete_eq|].
    rewrite lookup_delete_ne by done. destruct (decide (i = sb)) as [->|]; [by rewrite lookup_delete_eq|].
    by rewrite lookup_delete_ne, lookup_insert_ne, lookup_singleton_ne by done.
  - do 5 (etrans; [eassumption|]). done.
  - by rewrite F3, E3, C3, B3.
  - intros w. by rewrite F4, E4, C4, Hv2.
  - intros w. rewrite F5, E5, C5, Hr2, Hr. repeat case_decide; subst; try tauto; lia.
  - rewrite B6, A6 in C6. repeat case_decide; lia.
Qed.

(** The two orders in which the code locks the two buffers; the number of the
    second block comes from [home], which reads the log's variables. *)
Lemma copy_run s pid src dst (first : bool) (k : Z) (home : K Z) :
  (forall s', k_log s' = k_log s -> home s' = Ok (if first then dst else src) s') ->
  binv dev s pid ∅ -> src <> dst -> (busy s + 2 <= Z.to_nat NBUF)%nat ->
  rc dev s src < 2^32 - 1 -> rc dev s dst < 2^32 - 1 -> (k = 0 \/ k = 1 /\ 1 <= rc dev s dst) ->
  runs ((a <- bread dev (if first then src else dst) ;;
         y <- home ;;
         b <- bread dev y ;;
         let sb := if first then a else b in let db := if first then b else a in
         copy_data db sb ;; bwrite db ;; (if k =? 1 then bunpin db else ret tt) ;;
         brelse sb ;; brelse db) s)
    (fun _ => moved s pid dst (view dev s src) k).
Proof.
  intros Hhome HI Hne Hroom Hrs Hrd Hk.
  pose proof (rc_nonneg s pid ∅ src HI) as Hrs0. pose proof (rc_nonneg s pid ∅ dst HI) as Hrd0.
  pose proof (clean_view s pid ∅ src HI) as Hcl.
  set (x := if first then src else dst). set (y := if first then dst else src).
  assert (Hxy : x <> y) by (subst x y; destruct first; congruence).
  apply runs_bind. eapply runs_mono.
  { apply (bread_spec dev s pid ∅ x); [done|done|intros i; by rewrite lookup_empty| |];
      subst x; destruct first; lia. }
  intros a s1 [A0 A1 A2 A3 A4 A5 A6].
  assert (Hl1 : k_log s1 = k_log s) by (by destruct A2 as (? & ? & ? & ? & ? & _ & _ & ->)).
  rewrite (bind_ok _ _ _ _ _ (Hhome s1 Hl1)). apply runs_bind. eapply runs_mono.
  { apply (bread_spec dev s1 pid _ y A1); [done| | |].
    - intros i. destruct (decide (i = a)) as [->|]; [rewrite lookup_insert_eq; congruence|].
      by rewrite lookup_insert_ne, lookup_empty.
    - rewrite A5, decide_False by done. subst y. destruct first; lia.
    - intros _. rewrite A6. case_decide; lia. }
  intros b s2 [B0 B1 B2 B3 B4 B5 B6].
  assert (Hab : a <> b) by (intros ->; by rewrite lookup_insert_eq in B0).
  rewrite A5, (decide_False (P := y = x)) in B6 by done.
  assert (Hr : forall w, rc dev s2 w = rc dev s w + (if decide (w = src \/ w = dst) then 1 else 0)).
  { intros w. rewrite B5, A5. subst x y. destruct first; repeat case_decide; subst; try tauto; lia. }
  assert (Hb : (busy s2 = busy s + (if decide (rc dev s src = 0)%Z then 1 else 0)
                    + (if decide (rc dev s dst = 0)%Z then 1 else 0))%nat).
  { rewrite B6, A6. subst x y. destruct first; lia. }
  assert (Hfr : bframe s s2) by (by transitivity s1).
  assert (Hv : forall w, view dev s2 w = view dev s w) by (intros w; by rewrite B4, A4).
  assert (Hd : k_disk s2 = k_disk s) by congruence.
  subst x y. destruct first; cbv zeta.
  - apply copy_release; try done; [|lia].
    rewrite insert_insert_ne in B1 by done. exact B1.
  - apply copy_release; try done. lia.
Qed.

(** ** Sequences of copies *)

(** Only the cache, the disk, the log's variables and the console differ. *)
Definition lframe (s s' : kstate) : Prop :=
  bframe (set_uart (k_uart s') (set_log (k_log s') s)) s'.

#[export] Instance lframe_preorder : PreOrder lframe.
Proof.
  split.
  - intros s. unfold lframe. replace (set_uart _ _) with s by (by destruct s). reflexivity.
  - intros s1 s2 s3 (sl & bs & d & j & ps & Hj & Hps & E) (sl' & bs' & d' & j' & ps' & Hj' & Hps' & E').
    exists sl', bs', d', j', ps'. rewrite E in Hj', Hps', E'. cbn in *.
    split; [|split; [by rewrite Hps'|exact E']]. intros H. rewrite Hj' by done. by apply Hj.
Qed.

Lemma bframe_lframe s s' : bframe s s' -> lframe s s'.
Proof.
  intros (sl & bs & d & j & ps & Hj & Hps & ->). exists sl, bs, d, j, ps. by repeat split.
Qed.

(** After the writes [ws], the users of block [w] being [g w]. *)
Record progress (s : kstate) (pid : Z) (ws : list (Z * list Z)) (g : Z -> Z) (s' : kstate) : Prop := {
  pg_inv : binv dev s' pid ∅;
  pg_frame : lframe s s';
  pg_disk : k_disk s' = disk_writes ws (k_disk s);
  pg_view : forall w, view dev s' w = after ws (view dev s) w;
  pg_rc : forall w, rc dev s' w = g w;
  pg_busy : (busy s' <= busy s)%nat;
}.

Lemma progress_refl s pid : binv dev s pid ∅ -> progress s pid [] (rc dev s) s.
Proof. intros HI. split; try done. by rewrite disk_writes_nil. Qed.

Lemma progress_moved s pid ws g s1 dst data k s2 g' :
  progress s pid ws g s1 -> moved s1 pid dst data k s2 ->
  (forall w, g' w = if decide (w = dst) then g w - k else g w) ->
  progress s pid (ws ++ [(dst, data)]) g' s2 /\ k_log s2 = k_log s1.
Proof.
  intros [A1 A2 A3 A4 A5 A6] [B1 B2 B3 B4 B5 B6] Hg. split; [split|].
  - done.
  - etrans; [exact A2|by apply bframe_lframe].
  - by rewrite B3, A3, disk_writes_app.
  - intros w. rewrite B4, after_app. unfold after at 1. simpl. unfold bput. by rewrite A4.
  - intros w. rewrite B5, Hg, A5. done.
  - lia.
  - by destruct B2 as (sl & bs & d & j & ps & _ & _ & ->).
Qed.

Lemma progress_g s pid ws g g' s' :
  progress s pid ws g s' -> (forall w, g w = g' w) -> progress s pid ws g' s'.
Proof. intros [A1 A2 A3 A4 A5 A6] Hg. split; try done. intros w. by rewrite A5. Qed.

(** A change to the log's variables or to the console is not seen. *)
Lemma binv_log l s pid H : binv dev s pid H -> binv dev (set_log l s) pid H.
Proof. intros [[A1 A2 A3 A4] I2 I3 I4 I5 I6 I7 I8]. by split; [split|..]. Qed.
Lemma binv_uart u s pid H : binv dev s pid H -> binv dev (set_uart u s) pid H.
Proof. intros [[A1 A2 A3 A4] I2 I3 I4 I5 I6 I7 I8]. by split; [split|..]. Qed.

Lemma progress_log s pid ws g s' l :
  progress s pid ws g s' -> progress s pid ws g (set_log l s').
Proof.
  intros [A1 A2 A3 A4 A5 A6]. split; try done; [by apply binv_log|].
  etrans; [exact A2|]. exists (k_sleep s'), (k_bufs s'), (k_disk s').
  pose proof (bupd_refl (set_log l s')) as Hb. cbn in Hb.
  unfold set_uart. cbn. destruct s' as [[] ? ? ? ? ?]. exact Hb.
Qed.

(** ** The log's variables *)

Record logst (s : kstate) (st : Z) (L : list Z) : Prop := {
  ls_dev : lg_dev (k_log s) = dev;
  ls_start : lg_start (k_log s) = st;
  ls_n : lh_n (k_log s) = Z.of_nat (length L);
  ls_blocks : forall i h, L !! i = Some h -> lh_block (k_log s) !! i = Some h;
  ls_len : length (lh_block (k_log s)) = Z.to_nat LOGBLOCKS;
  ls_max : (length L <= Z.to_nat LOGBLOCKS)%nat;
}.

Lemma logst_log s s' st L : k_log s' = k_log s -> logst s st L -> logst s' st L.
Proof. clear Hfuel. intros E [A1 A2 A3 A4 A5 A6]. split; rewrite ?E; done. Qed.

Lemma lh_get_eq s st L i h :
  logst s st L -> 0 <= i -> L !! Z.to_nat i = Some h -> lh_get i s = Ok h s.
Proof. clear Hfuel.
  intros HL Hi Hh. unfold lh_get, bind, gets. cbn [rbind].
  replace (0 <=? i) with true by lia. by rewrite (ls_blocks _ _ _ HL _ _ Hh).
Qed.

(** Room for two more buffers, and no count near its limit. *)
Definition roomy (s : kstate) : Prop :=
  (busy s + 2 <= Z.to_nat NBUF)%nat /\ forall w, rc dev s w < 2^32 - 1.

Lemma write_log_spec s pid st L :
  binv dev s pid ∅ -> logst s st L -> layout st L -> roomy s ->
  runs (write_log s) (fun _ s' =>
    progress s pid (log_blocks st L (view dev s)) (rc dev s) s' /\ k_log s' = k_log s).
Proof.
  intros HI HLs HL [Hroom Hrc]. unfold write_log, bind at 1, gets. cbn [rbind].
  rewrite (ls_n _ _ _ HLs), Nat2Z.id. set (A := log_blocks st L (view dev s)).
  assert (HlenA : length A = length L) by (unfold A, log_blocks; apply length_imap).
  apply (runs_for (fun i s' => progress s pid (take (Z.to_nat i) A) (rc dev s) s' /\
    k_log s' = k_log s)).
  - split; [by apply progress_refl|done].
  - intros i s1 Hi [Hp Hl]. destruct (lookup_lt_is_Some_2 L (Z.to_nat i)) as [h Hh]; [lia|].
    assert (HhL : h ∈ L) by (by eapply list_elem_of_lookup_2).
    pose proof (logst_log s s1 st L Hl HLs) as HLs1.
    rewrite (bind_ok _ _ s1 (k_log s1) s1) by done. rewrite (ls_dev _ _ _ HLs1), (ls_start _ _ _ HLs1).
    assert (Hv1 : view dev s1 h = view dev s h).
    { rewrite (pg_view _ _ _ _ _ Hp). apply after_notin. by apply log_blocks_home; [|apply HLs|]. }
    pose proof (ls_max _ _ _ HLs) as Hmax.
    assert (Hout : h <> st + i + 1) by (intros ->; apply (ly_out _ _ HL _ HhL); lia).
    pose proof (pg_busy _ _ _ _ _ Hp).
    eapply (runs_mono _ (fun _ => moved s1 pid (st + i + 1) (view dev s h) 0)).
    { rewrite <- Hv1. apply (copy_run s1 pid h (st + i + 1) false 0 (lh_get i)).
      - intros s' Hl'. apply (lh_get_eq s' st L); [|lia|done]. by eapply logst_log.
      - apply (pg_inv _ _ _ _ _ Hp).
      - done.
      - lia.
      - rewrite (pg_rc _ _ _ _ _ Hp). apply Hrc.
      - rewrite (pg_rc _ _ _ _ _ Hp). apply Hrc.
      - by left. }
    intros [] s2 Hm.
    destruct (progress_moved s pid _ _ s1 _ _ 0 s2 (rc dev s) Hp Hm) as [Hp2 Hl2];
      [intros w; destruct (decide (w = st + i + 1)); lia|].
    split; [|congruence].
    replace (Z.to_nat (i + 1)) with (S (Z.to_nat i)) by lia.
    erewrite take_S_r; [exact Hp2|]. unfold A, log_blocks. rewrite list_lookup_imap, Hh. simpl.
    do 2 f_equal. lia.
  - intros s1 [Hp Hl]. rewrite Z.add_0_l, Nat2Z.id, take_ge in Hp by lia. by split.
Qed.

(** ** Installing *)

Definition unpins (L : list Z) (n : nat) (g : Z -> Z) (w : Z) : Z :=
  if decide (w ∈ take n L) then g w - 1 else g w.

(** [printf] from the recovery code: only the console changes. *)
Lemma recover_printf s pid a b :
  binv dev s pid ∅ -> lock_free s LPr ->
  runs (printf (cstr "recovering tail %d dst %d" ++ [10]) [VInt a; VInt b] s) (fun _ s' =>
    progress s pid [] (rc dev s) s' /\ k_log s' = k_log s).
Proof.
  intros HI Hl. destruct (bi_world _ _ _ _ HI) as [(Hc & _) _ _ _].
  set (ap := [VInt a; VInt b]).
  assert (Hr : exists cs, render (S (length (cstr "recovering tail %d dst %d" ++ [10])))
    (cstr "recovering tail %d dst %d" ++ [10]) ap = Some cs).
  { apply render_erase. vm_compute. by eexists. }
  destruct Hr as [cs Hr]. eapply runs_mono; [by eapply printf_spec|].
  intros [] s' (j & Hj & ->). split; [|done]. set (cs' := mjoin _). split; try done.
  - apply (binv_intena dev (sent s cs')); [by exists j|]. by apply binv_uart.
  - exists (k_sleep s), (k_bufs s), (k_disk s), j, (k_procs s). split; [done|]. split; [done|].
    by destruct s.
  - by rewrite disk_writes_nil.
Qed.

Lemma progress_trans s pid ws g s1 ws' g' s2 :
  progress s pid ws g s1 -> progress s1 pid ws' g' s2 -> progress s pid (ws ++ ws') g' s2.
Proof.
  intros [A1 A2 A3 A4 A5 A6] [B1 B2 B3 B4 B5 B6]. split; try done.
  - by transitivity s1.
  - by rewrite B3, A3, disk_writes_app.
  - intros w. rewrite B4, after_app. by apply after_ext.
  - lia.
Qed.

Lemma lframe_lock s s' lk : lframe s s' -> lock_free s lk -> lock_free s' lk.
Proof. by intros (sl & bs & d & j & ps & _ & _ & ->). Qed.

Lemma install_trans_spec s pid st L (recovering : bool) v :
  binv dev s pid ∅ -> logst s st L -> layout st L -> roomy s -> lock_free s LPr ->
  log_holds (view dev s) st L v ->
  (recovering = false -> forall h, h ∈ L -> 1 <= rc dev s h) ->
  runs (install_trans recovering s) (fun _ s' =>
    progress s pid (installs L v)
      (if recovering then rc dev s else unpins L (length L) (rc dev s)) s' /\ k_log s' = k_log s).
Proof.
  intros HI HLs HL [Hroom Hrc] Hpr Hv Hpin. unfold install_trans.
  rewrite (bind_ok _ _ s (k_log s) s) by done. rewrite (ls_n _ _ _ HLs), Nat2Z.id.
  set (g n := if recovering then rc dev s else unpins L n (rc dev s)).
  assert (Hg0 : forall w, rc dev s w = g O w) by (intros w; unfold g, unpins; destruct recovering; done).
  assert (HlenB : length (installs L v) = length L) by apply length_fmap.
  assert (Hgle : forall n w, g n w <= rc dev s w)
    by (intros n w; unfold g, unpins; destruct recovering; [lia|]; destruct (decide _); lia).
  apply (runs_for (fun i s' => progress s pid (take (Z.to_nat i) (installs L v)) (g (Z.to_nat i)) s' /\
    k_log s' = k_log s)).
  - split; [|done]. eapply progress_g; [by apply progress_refl|]. apply Hg0.
  - intros i s1 Hi [Hp Hl]. destruct (lookup_lt_is_Some_2 L (Z.to_nat i)) as [h Hh]; [lia|].
    assert (HhL : h ∈ L) by (by eapply list_elem_of_lookup_2).
    pose proof (logst_log s s1 st L Hl HLs) as HLs1. pose proof (ls_max _ _ _ HLs) as Hmax.
    rewrite (bind_ok _ _ _ _ _ (lh_get_eq s1 st L i h HLs1 (proj1 Hi) Hh)). apply runs_bind.
    eapply (runs_mono _ (fun _ s2 => progress s pid (take (Z.to_nat i) (installs L v))
      (g (Z.to_nat i)) s2 /\ k_log s2 = k_log s)).
    { destruct recovering; [|by split].
      eapply runs_mono; [apply (recover_printf s1 pid); [apply Hp|]|].
      - eapply lframe_lock; [apply (pg_frame _ _ _ _ _ Hp)|done].
      - intros [] s2 [Hp2 Hl2]. split; [|congruence].
        pose proof (progress_trans _ _ _ _ _ _ _ _ Hp Hp2) as Ht. rewrite app_nil_r in Ht.
        eapply progress_g; [exact Ht|]. intros w. apply (pg_rc _ _ _ _ _ Hp). }
    clear s1 Hp Hl HLs1. intros [] s1 [Hp Hl]. pose proof (logst_log s s1 st L Hl HLs) as HLs1.
    rewrite (bind_ok _ _ s1 (k_log s1) s1) by done. rewrite (ls_dev _ _ _ HLs1), (ls_start _ _ _ HLs1).
    assert (Hout : st + i + 1 <> h) by (intros <-; apply (ly_out _ _ HL _ HhL); lia).
    assert (Hv1 : view dev s1 (st + i + 1) = v h).
    { rewrite (pg_view _ _ _ _ _ Hp), after_notin.
      - rewrite <- (Hv _ _ Hh). f_equal. lia.
      - rewrite fmap_take, installs_fst. intros Hin. apply subseteq_take in Hin.
        apply (ly_out _ _ HL _ Hin). lia. }
    pose proof (pg_busy _ _ _ _ _ Hp) as Hbs. set (k := if recovering then 0 else 1).
    pose proof (take_lookup_notin L (Z.to_nat i) h (ly_nodup _ _ HL) Hh) as Hnin.
    assert (Hgh : g (Z.to_nat i) h = rc dev s h).
    { unfold g, unpins. destruct recovering; [done|]. by rewrite decide_False. }
    eapply (runs_mono _ (fun _ => moved s1 pid h (v h) k)).
    { rewrite <- Hv1. pose proof (copy_run s1 pid (st + i + 1) h true k (lh_get i)) as Hcp.
      assert (Hgoal : runs ((a <- bread dev (st + i + 1) ;; y <- lh_get i ;; b <- bread dev y ;;
        copy_data b a ;; bwrite b ;; (if k =? 1 then bunpin b else ret tt) ;;
        brelse a ;; brelse b) s1) (fun _ => moved s1 pid h (view dev s1 (st + i + 1)) k)).
      { apply Hcp.
        - intros s' Hl'. apply (lh_get_eq s' st L); [|lia|done]. by eapply logst_log.
        - apply Hp.
        - done.
        - lia.
        - rewrite (pg_rc _ _ _ _ _ Hp). eapply Z.le_lt_trans; [apply Hgle|apply Hrc].
        - rewrite (pg_rc _ _ _ _ _ Hp). eapply Z.le_lt_trans; [apply Hgle|apply Hrc].
        - rewrite (pg_rc _ _ _ _ _ Hp), Hgh. subst k. destruct recovering; [by left|right].
          split; [done|by apply Hpin]. }
      subst k. destruct recovering; exact Hgoal. }
    intros [] s2 Hm.
    destruct (progress_moved s pid _ _ s1 _ _ k s2 (g (S (Z.to_nat i))) Hp Hm) as [Hp2 Hl2].
    { intros w. subst k. unfold g, unpins. destruct recovering; [destruct (decide (w = h)); lia|].
      rewrite (decide_ext _ (w = h \/ w ∈ take (Z.to_nat i) L) _ _
        (take_S_nodup L (Z.to_nat i) h w (ly_nodup _ _ HL) Hh)).
      destruct (decide (w = h)) as [->|]; [rewrite (decide_True (P := _ \/ _)) by auto|];
        repeat destruct (decide _); try tauto; lia. }
    split; [|congruence]. replace (Z.to_nat (i + 1)) with (S (Z.to_nat i)) by lia.
    erewrite take_S_r; [exact Hp2|]. unfold installs. by rewrite list_lookup_fmap, Hh.
  - intros s1 [Hp Hl]. rewrite Z.add_0_l, Nat2Z.id, take_ge in Hp by lia. by split.
Qed.

(** ** The header on disk *)

Lemma bframe_log s s' : bframe s s' -> k_log s' = k_log s.
Proof. by intros (sl & bs & d & j & ps & _ & _ & ->). Qed.

(** The header being filled in: the buffer [b] of block [st] holds [f] of what
    it held. *)
Record filling (s : kstate) (pid b st : Z) (data : list Z) (s' : kstate) : Prop := {
  fi_inv : binv dev s' pid {[b := st]};
  fi_frame : bframe s s';
  fi_disk : k_disk s' = k_disk s;
  fi_view : forall w, view dev s' w = bput (view dev s) st data w;
  fi_rc : forall w, rc dev s' w = if decide (w = st) then rc dev s w + 1 else rc dev s w;
  fi_busy : busy s' = (busy s + if decide (rc dev s st = 0)%Z then 1 else 0)%nat;
}.

Lemma filling_set s pid b st data s1 f :
  filling s pid b st data s1 ->
  runs (set_data b f s1) (fun _ => filling s pid b st (f data)).
Proof.
  intros [A1 A2 A3 A4 A5 A6]. unfold set_data.
  eapply runs_mono; [apply (set_data_spec dev s1 pid _ b st f A1); apply lookup_singleton_eq|].
  intros [] s2 [B1 B2 B3 B4 B5 B6]. split; try done.
  - by transitivity s1.
  - congruence.
  - intros w. rewrite B4, !A4. unfold bput. destruct (decide (w = st)); [|done].
    by rewrite decide_True.
  - intros w. by rewrite B5.
  - by rewrite B6.
Qed.

Lemma write_head_spec s pid st L :
  binv dev s pid ∅ -> logst s st L -> roomy s ->
  runs (write_head s) (fun _ => moved s pid st (header (view dev s st) L) 0).
Proof.
  intros HI HLs [Hroom Hrc]. unfold write_head. rewrite (bind_ok _ _ s (k_log s) s) by done.
  rewrite (ls_dev _ _ _ HLs), (ls_start _ _ _ HLs). pose proof (rc_nonneg s pid ∅ st HI) as Hr0.
  apply runs_bind. eapply runs_mono.
  { apply (bread_spec dev s pid ∅ st); [done|done|intros i; by rewrite lookup_empty|apply Hrc|lia]. }
  intros b s1 [A0 A1 A2 A3 A4 A5 A6].
  assert (Hf1 : filling s pid b st (view dev s st) s1).
  { split; try done. intros w. rewrite A4. unfold bput. by destruct (decide (w = st)) as [->|]. }
  apply runs_bind. eapply runs_mono; [by apply (filling_set s pid b st)|]. clear s1 A0 A1 A2 A3 A4 A5 A6 Hf1.
  intros [] s1 Hf1. rewrite (ls_n _ _ _ HLs), Nat2Z.id in *. set (d := put32 _ _ _) in *.
  apply runs_bind. apply (runs_for (fun i => filling s pid b st (put32s d 4 (take (Z.to_nat i) L)))).
  - by rewrite take_0.
  - intros i s2 Hi Hf. destruct (lookup_lt_is_Some_2 L (Z.to_nat i)) as [h Hh]; [lia|].
    assert (HLs2 : logst s2 st L)
      by (eapply logst_log; [|exact HLs]; apply bframe_log, (fi_frame _ _ _ _ _ _ Hf)).
    rewrite (bind_ok _ _ _ _ _ (lh_get_eq s2 st L i h HLs2 (proj1 Hi) Hh)).
    eapply runs_mono; [by apply (filling_set s pid b st)|]. intros [] s3 Hf3.
    replace (Z.to_nat (i + 1)) with (S (Z.to_nat i)) by lia.
    rewrite (take_S_r L _ h Hh), put32s_snoc, length_take_le by lia. by rewrite Z2Nat.id by lia.
  - intros s2 [B1 B2 B3 B4 B5 B6]. rewrite Z.add_0_l, Nat2Z.id, firstn_all in B4.
    fold (header (view dev s st) L) in B4. set (h := header _ _) in *.
    assert (Hbs : ({[b := st]} : gmap Z Z) !! b = Some st) by apply lookup_singleton_eq.
    apply runs_bind. eapply runs_mono; [by apply (bwrite_spec dev s2 pid _ b st B1)|].
    intros [] s3 [C1 C2 C3 C4 C5 C6].
    assert (Hv3 : view dev s3 st = h) by (rewrite C4, B4; unfold bput; by rewrite decide_True).
    rewrite B4 in C3. unfold bput in C3. rewrite decide_True, B3 in C3 by done.
    eapply runs_mono; [apply (brelse_spec dev s3 pid _ b st C1 Hbs)|].
    { intros _. by rewrite Hv3, C3, disk_block_write, decide_True. }
    intros [] s4 [E1 E2 E3 E4 E5 E6]. split.
    + replace (delete b {[b := st]}) with (∅ : gmap Z Z) in E1; [done|]. symmetry. apply delete_singleton_eq.
    + do 2 (etrans; [eassumption|]). done.
    + by rewrite E3, C3.
    + intros w. by rewrite E4, C4, B4.
    + intros w. rewrite E5, C5, B5. destruct (decide (w = st)); lia.
    + rewrite C5, B5, (decide_True (P := st = st)) in E6 by done. rewrite C6, B6 in E6.
      destruct (decide (rc dev s st = 0)), (decide (rc dev s st + 1 = 1)); lia.
Qed.

(** ** Commit *)

(** The writes of [commit], in order. *)
Definition commit_writes (st : Z) (L : list Z) (v : Z -> list Z) : list (Z * list Z) :=
  let h := header (v st) L in
  log_blocks st L v ++ [(st, h)] ++ installs L v ++ [(st, header h [])].

Lemma roomy_progress s pid ws g s' :
  roomy s -> progress s pid ws g s' -> (forall w, g w <= rc dev s w) -> roomy s'.
Proof.
  intros [H1 H2] Hp Hg. pose proof (pg_busy _ _ _ _ _ Hp). split; [lia|].
  intros w. rewrite (pg_rc _ _ _ _ _ Hp). eapply Z.le_lt_trans; [apply Hg|apply H2].
Qed.

Lemma logst_empty s st L : logst s st L -> logst (set_log (set_lh_n 0 (k_log s)) s) st [].
Proof. clear Hfuel. intros [A1 A2 A3 A4 A5 A6]. split; try done. simpl. lia. Qed.

Lemma commit_spec s pid st L :
  binv dev s pid ∅ -> logst s st L -> layout st L -> roomy s -> lock_free s LPr ->
  (forall h, h ∈ L -> 1 <= rc dev s h) -> L <> [] ->
  runs (commit s) (fun _ s' =>
    progress s pid (commit_writes st L (view dev s)) (unpins L (length L) (rc dev s)) s' /\
    logst s' st [] /\ lg_outstanding (k_log s') = lg_outstanding (k_log s)).
Proof.
  intros HI HLs HL Hroom Hpr Hpin Hne. pose proof (ls_max _ _ _ HLs) as Hmax.
  unfold commit. rewrite (bind_ok _ _ s (k_log s) s) by done. rewrite (ls_n _ _ _ HLs).
  replace (Z.of_nat (length L) >? 0) with true by (destruct L; [done|reflexivity]).
  apply runs_bind. eapply runs_mono; [by apply (write_log_spec s pid st L)|].
  intros [] s1 [P1 L1]. pose proof (logst_log _ _ _ _ L1 HLs) as HLs1.
  apply runs_bind. eapply runs_mono.
  { apply (write_head_spec s1 pid st L); [apply P1|done|by eapply roomy_progress]. }
  intros [] s2 M2.
  assert (Hst : view dev s1 st = view dev s st).
  { rewrite (pg_view _ _ _ _ _ P1). apply after_notin. intros Hin.
    apply log_blocks_range in Hin. lia. }
  rewrite Hst in M2. destruct (progress_moved s pid _ _ s1 _ _ 0 s2 (rc dev s) P1 M2) as [P2 L2];
    [intros w; destruct (decide (w = st)); lia|].
  rewrite L1 in L2. pose proof (logst_log _ _ _ _ L2 HLs) as HLs2.
  apply runs_bind. eapply runs_mono.
  { apply (install_trans_spec s2 pid st L false (view dev s)); [apply P2|done|done| | | |].
    - by eapply roomy_progress.
    - eapply lframe_lock; [apply (pg_frame _ _ _ _ _ P2)|done].
    - intros i h Hi. rewrite (pg_view _ _ _ _ _ P2). by apply (log_holds_after st L (view dev s)).
    - intros _ h Hh. rewrite (pg_rc _ _ _ _ _ P2). by apply Hpin. }
  intros [] s3 [P3 L3]. pose proof (progress_trans _ _ _ _ _ _ _ _ P2 P3) as P3'.
  assert (Hg : forall w, unpins L (length L) (rc dev s2) w = unpins L (length L) (rc dev s) w).
  { intros w. unfold unpins. by rewrite (pg_rc _ _ _ _ _ P2). }
  pose proof (progress_g _ _ _ _ _ _ P3' Hg) as P4. clear P3'. rewrite L2 in L3.
  unfold bind at 1, upd_log, modify. cbn [rbind]. set (s4 := set_log _ s3).
  assert (HLs4 : logst s4 st []) by (apply (logst_empty s3 st L); by eapply logst_log).
  pose proof (progress_log _ _ _ _ _ (set_lh_n 0 (k_log s3)) P4) as P5. fold s4 in P5.
  eapply runs_mono.
  { apply (write_head_spec s4 pid st []); [apply P5|done|].
    eapply roomy_progress; [exact Hroom|exact P5|]. intros w. unfold unpins. destruct (decide _); lia. }
  intros [] s5 M5.
  destruct (progress_moved s pid _ _ s4 _ _ 0 s5 (unpins L (length L) (rc dev s)) P5 M5) as [P6 L6];
    [intros w; destruct (decide (w = st)); lia|].
  assert (Hst4 : view dev s4 st = header (view dev s st) L).
  { rewrite (pg_view _ _ _ _ _ P5), !after_app. rewrite after_notin.
    - unfold after at 1. simpl. unfold bput. by rewrite decide_True.
    - rewrite installs_fst. intros Hin. apply (ly_out _ _ HL _ Hin). unfold LOGBLOCKS, MAXOPBLOCKS. lia. }
  rewrite Hst4 in P6. split; [|split].
  - unfold commit_writes. by rewrite <- !app_assoc in P6.
  - by eapply logst_log.
  - rewrite L6. simpl. by rewrite L3.
Qed.

(** ** Recovery *)

Lemma lh_put_eq s i v :
  0 <= i < Z.of_nat (length (lh_block (k_log s))) ->
  lh_put i v s = Ok tt (set_log (set_lh_block (<[Z.to_nat i := v]> (lh_block (k_log s))) (k_log s)) s).
Proof. clear Hfuel.
  intros Hi. unfold lh_put, bind, gets. cbn [rbind].
  replace ((0 <=? i) && (i <? Z.of_nat (length (lh_block (k_log s))))) with true by lia. done.
Qed.

Lemma bread_progress s pid bno b s1 :
  opened dev s pid ∅ bno b s1 -> filling s pid b bno (view dev s bno) s1.
Proof.
  intros [A0 A1 A2 A3 A4 A5 A6]. split; try done.
  intros w. rewrite A4. unfold bput. by destruct (decide (w = bno)) as [->|].
Qed.

(** [read_head] loads the header of the log on disk. *)
Lemma read_head_spec s pid st L0 :
  binv dev s pid ∅ -> logst s st L0 -> roomy s -> rc dev s st = 0 ->
  0 <= header_n (view dev s st) <= LOGBLOCKS ->
  runs (read_head s) (fun _ s' =>
    progress s pid [] (rc dev s) s' /\ logst s' st (header_blocks (view dev s st))).
Proof.
  intros HI HLs [Hroom Hrc] Hr0 Hn. unfold read_head.
  rewrite (bind_ok _ _ s (k_log s) s) by done. rewrite (ls_dev _ _ _ HLs), (ls_start _ _ _ HLs).
  apply runs_bind. eapply runs_mono.
  { apply (bread_spec dev s pid ∅ st); [done|done|intros i; by rewrite lookup_empty|apply Hrc|lia]. }
  intros b s1 Ho. pose proof (bframe_log _ _ (op_frame _ _ _ _ _ _ _ Ho)) as Hl1.
  destruct (held_entry dev s1 pid _ b st (op_inv _ _ _ _ _ _ _ Ho)) as
    (x & nm & [Hx0 Hx] & _ & _ & Hxd & _); [apply lookup_insert_eq|].
  rewrite (bind_ok _ _ _ _ _ (get_buf_eq s1 b x (proj1 Hx0) Hx)).
  rewrite Hxd, (op_view _ _ _ _ _ _ _ Ho). set (d := view dev s st) in *.
  change (i32 (get32 d 0)) with (header_n d). set (n := header_n d) in *.
  unfold bind at 1, upd_log, modify. cbn [rbind].
  set (hb i := i32 (get32 d (4 + 4 * i))).
  apply runs_bind. apply (runs_for (fun i s2 => exists l, s2 = set_log l s1 /\
    lg_dev l = dev /\ lg_start l = st /\ lh_n l = n /\ length (lh_block l) = Z.to_nat LOGBLOCKS /\
    forall j, 0 <= j < i -> lh_block l !! Z.to_nat j = Some (hb j))).
  - exists (set_lh_n n (k_log s1)). split; [done|]. rewrite Hl1.
    split; [apply HLs|]. split; [apply HLs|]. split; [done|]. split; [apply HLs|]. intros j Hj. lia.
  - intros i s2 Hi (l & -> & E1 & E2 & E3 & E4 & E5). rewrite Z2Nat.id in Hi by lia.
    rewrite lh_put_eq by (cbn [k_log set_log]; rewrite E4; lia). cbn [runs k_log set_log].
    eexists. split; [reflexivity|]. do 3 (split; [done|]).
    split; [simpl; by rewrite length_insert|]. intros j Hj. simpl.
    destruct (decide (j = i)) as [->|].
    + rewrite list_lookup_insert_eq by lia. done.
    + rewrite list_lookup_insert_ne by lia. apply E5. lia.
  - intros s2 (l & -> & E1 & E2 & E3 & E4 & E5). rewrite Z.add_0_l, Z2Nat.id in E5 by lia.
    destruct (bread_progress _ _ _ _ _ Ho) as [A1 A2 A3 A4 A5 A6].
    eapply runs_mono.
    { apply (brelse_spec dev (set_log l s1) pid {[b := st]} b st).
      - by apply binv_log.
      - apply lookup_singleton_eq.
      - intros _. change (view dev (set_log l s1) st) with (view dev s1 st).
        change (k_disk (set_log l s1)) with (k_disk s1).
        rewrite (op_view _ _ _ _ _ _ _ Ho), A3. by apply (clean_view s pid ∅). }
    intros [] s3 [B1 B2 B3 B4 B5 B6].
    change (view dev (set_log l s1)) with (view dev s1) in *.
    change (rc dev (set_log l s1)) with (rc dev s1) in *.
    change (busy (set_log l s1)) with (busy s1) in *.
    change (k_disk (set_log l s1)) with (k_disk s1) in *.
    pose proof (bframe_log _ _ B2) as Hl3. split; [split|].
    + replace (delete b {[b := st]}) with (∅ : gmap Z Z) in B1; [done|]. symmetry. apply delete_singleton_eq.
    + etrans; [|by apply bframe_lframe]. etrans; [by apply bframe_lframe|].
      exists (k_sleep s1), (k_bufs s1), (k_disk s1). pose proof (bupd_refl (set_log l s1)) as Hb.
      unfold set_uart. cbn. destruct s1 as [[] ? ? ? ? ?]. exact Hb.
    + by rewrite B3, A3, disk_writes_nil.
    + intros w. rewrite B4. apply (op_view _ _ _ _ _ _ _ Ho).
    + intros w. rewrite B5, A5. destruct (decide (w = st)); lia.
    + rewrite A5, (decide_True (P := st = st)), Hr0 in B6 by done. rewrite A6, Hr0 in B6. simpl in B6. lia.
    + assert (Hlen : length (header_blocks d) = Z.to_nat n)
        by (unfold header_blocks; by rewrite length_fmap, length_seqZ).
      split; rewrite ?Hl3; cbn [k_log set_log]; try done.
      * rewrite E3, Hlen. lia.
      * intros i h Hi. unfold header_blocks in Hi. rewrite list_lookup_fmap in Hi.
        destruct (seqZ 0 (header_n d) !! i) as [j|] eqn:E; [|done].
        apply lookup_seqZ in E as [-> Hj]. simpl in Hi. injection Hi as <-.
        pose proof (E5 (0 + Z.of_nat i) ltac:(lia)) as E6.
        by replace (Z.to_nat (0 + Z.of_nat i)) with i in E6 by lia.
      * rewrite Hlen. lia.
Qed.

Lemma recover_spec s pid st L0 L v :
  binv dev s pid ∅ -> logst s st L0 -> roomy s -> rc dev s st = 0 -> lock_free s LPr ->
  header_n (view dev s st) = Z.of_nat (length L) -> header_blocks (view dev s st) = L ->
  (length L <= Z.to_nat LOGBLOCKS)%nat -> layout st L -> log_holds (view dev s) st L v ->
  runs (recover_from_log s) (fun _ s' =>
    progress s pid (installs L v ++ [(st, header (view dev s st) [])]) (rc dev s) s' /\
    logst s' st []).
Proof.
  intros HI HLs Hroom Hr0 Hpr Hn Hb Hmax HL Hv. unfold recover_from_log. apply runs_bind.
  eapply runs_mono.
  { apply (read_head_spec s pid st L0); try done. rewrite Hn. unfold LOGBLOCKS, MAXOPBLOCKS in *. lia. }
  rewrite Hb. intros [] s1 [P1 HLs1]. apply runs_bind. eapply runs_mono.
  { apply (install_trans_spec s1 pid st L true v); [apply P1|done|done| | | |done].
    - by eapply roomy_progress.
    - eapply lframe_lock; [apply (pg_frame _ _ _ _ _ P1)|done].
    - intros i h Hi. rewrite (pg_view _ _ _ _ _ P1). by apply Hv. }
  intros [] s2 [P2 L2]. pose proof (progress_trans _ _ _ _ _ _ _ _ P1 P2) as P3. simpl in P3.
  pose proof (progress_g _ _ _ _ (rc dev s) _ P3 (pg_rc _ _ _ _ _ P1)) as P4.
  unfold bind at 1, upd_log, modify. cbn [rbind]. set (s3 := set_log _ s2).
  assert (HLs3 : logst s3 st []) by (apply (logst_empty s2 st L); by eapply logst_log).
  pose proof (progress_log _ _ _ _ _ (set_lh_n 0 (k_log s2)) P4) as P5. fold s3 in P5.
  eapply runs_mono.
  { apply (write_head_spec s3 pid st []); [apply P5|done|by eapply roomy_progress]. }
  intros [] s4 M4. assert (Hst : view dev s3 st = view dev s st).
  { rewrite (pg_view _ _ _ _ _ P5). apply after_notin. rewrite installs_fst. intros Hin.
    apply (ly_out _ _ HL _ Hin). unfold LOGBLOCKS, MAXOPBLOCKS. lia. }
  rewrite Hst in M4.
  destruct (progress_moved s pid _ _ s3 _ _ 0 s4 (rc dev s) P5 M4) as [P6 L6];
    [intros w; destruct (decide (w = st)); lia|].
  split; [done|]. by eapply logst_log.
Qed.
End log.

(** ** Adding a block to the transaction *)

(** Position of the first [bno], or the length. *)
Fixpoint slot_of (L : list Z) (bno : Z) : Z :=
  match L with
  | [] => 0
  | h :: L' => if h =? bno then 0 else 1 + slot_of L' bno
  end.

Lemma slot_of_range L bno : 0 <= slot_of L bno <= Z.of_nat (length L).
Proof. induction L as [|h L IH]; simpl; [lia|]. destruct (h =? bno); lia. Qed.
Lemma slot_of_notin L bno : slot_of L bno = Z.of_nat (length L) <-> bno ∉ L.
Proof.
  induction L as [|h L IH]; simpl; [split; [intros _; apply not_elem_of_nil|done]|].
  pose proof (slot_of_range L bno). rewrite not_elem_of_cons.
  destruct (Z.eqb_spec h bno); [split; [lia|intros [? _]; congruence]|].
  rewrite <- IH. split; [intros ?; split; [congruence|lia]|lia].
Qed.
Lemma slot_of_in L bno : bno ∈ L -> L !! Z.to_nat (slot_of L bno) = Some bno.
Proof.
  induction L as [|h L IH]; [by intros ?%elem_of_nil|]. simpl. intros Hin.
  destruct (Z.eqb_spec h bno) as [->|Hne]; [done|].
  apply elem_of_cons in Hin as [?|Hin]; [congruence|]. pose proof (slot_of_range L bno).
  replace (Z.to_nat (1 + slot_of L bno)) with (S (Z.to_nat (slot_of L bno))) by lia. by apply IH.
Qed.

Lemma log_slot_eq s L' i bno :
  (forall j h, L' !! j = Some h -> lh_get (i + Z.of_nat j) s = Ok h s) ->
  log_slot (length L') i bno s = Ok (i + slot_of L' bno) s.
Proof.
  revert i. induction L' as [|h L' IH]; intros i Hget; simpl; [unfold ret; f_equal; lia|].
  pose proof (Hget O h eq_refl) as H0. rewrite Z.add_0_r in H0.
  rewrite (bind_ok _ _ _ _ _ H0). destruct (h =? bno); [unfold ret; f_equal; lia|].
  rewrite IH; [f_equal; lia|]. intros j x Hj.
  replace (i + 1 + Z.of_nat j) with (i + Z.of_nat (S j)) by lia. by apply Hget.
Qed.

Section log_write.
Context (dev : Z).

Lemma binv_enter s pid H :
  binv dev s pid H -> binv dev (enter LLog s) pid H.
Proof.
  intros [[(A1 & A2 & A3) A4 A5 A6] I2 I3 I4 I5 I6 I7 I8]. split; try done. split; try done.
  - split; [by apply enter_cpu_ok|]. split; [done|]. intros i Hi. apply enter_lock_free; [done|auto].
  - by apply enter_lock_free.
  - intros i Hi. apply enter_lock_free; [done|auto].
Qed.

(** The state a section of the log leaves, seen from outside. *)
Lemma binv_leave s s2 pid H j :
  bworld s pid -> binv dev s2 pid H -> ident <$> k_procs s2 = ident <$> k_procs s -> scratch s j ->
  binv dev (leave s j s2) pid H.
Proof.
  intros HW [B1 B2 B3 B4 B5 B6 B7 B8] Hps Hj. split; try done.
  destruct HW as [(Hc & Hlen & Hl) (p & pr & Hp & Hcp & Hpr & Hid) Hb Hs].
  assert (Hlen' : length (k_procs s2) = Z.to_nat NPROC).
  { rewrite <- Hlen, <- (length_fmap ident), Hps. apply length_fmap. }
  split; try done.
  assert (Hq : (ident <$> k_procs s2) !! Z.to_nat p = Some (ident pr))
    by (by rewrite Hps, list_lookup_fmap, Hpr).
  rewrite list_lookup_fmap in Hq. destruct (k_procs s2 !! Z.to_nat p) as [q|] eqn:E; [|done].
  exists p, q. unfold ident in Hq. simpl in *. by simplify_eq.
Qed.

Definition logged (L : list Z) (bno : Z) : list Z := if decide (bno ∈ L) then L else L ++ [bno].

Lemma logst_put s st L bno :
  logst dev s st L -> (length L < Z.to_nat LOGBLOCKS)%nat ->
  let l := set_lh_block (<[Z.to_nat (slot_of L bno) := bno]> (lh_block (k_log s))) (k_log s) in
  let n := if decide (bno ∈ L) then lh_n l else lh_n l + 1 in
  logst dev (set_log (set_lh_n n l) s) st (logged L bno).
Proof.
  intros [A1 A2 A3 A4 A5 A6] Hm l n. pose proof (slot_of_range L bno) as Hr.
  unfold logged. subst n. destruct (decide (bno ∈ L)) as [Hin|Hin]; split; try done.
  - intros i h Hi. simpl. pose proof (slot_of_in L bno Hin) as Hs.
    destruct (decide (i = Z.to_nat (slot_of L bno))) as [->|].
    + rewrite list_lookup_insert_eq; [congruence|]. rewrite A5. lia.
    + rewrite list_lookup_insert_ne by done. by apply A4.
  - simpl. by rewrite length_insert.
  - simpl. rewrite length_app, A3. simpl. lia.
  - intros i h Hi. simpl. apply slot_of_notin in Hin. rewrite Hin, Nat2Z.id.
    apply lookup_app_Some in Hi as [Hi|[Hge Hi]].
    + rewrite list_lookup_insert_ne by (apply lookup_lt_Some in Hi; lia). by apply A4.
    + apply list_lookup_singleton_Some in Hi as [Hi <-].
      replace i with (length L) by lia. apply list_lookup_insert_eq. lia.
  - simpl. by rewrite length_insert.
  - rewrite length_app. simpl. lia.
Qed.

(** A section of the log changes what [lframe] allows. *)
Lemma lframe_leave s j l l' s3 :
  scratch s j -> bframe (set_log l (enter LLog s)) s3 -> lframe s (leave s j (set_log l' s3)).
Proof.
  intros Hj (sl & bs & d & j0 & ps & _ & Hps & ->). exists sl, bs, d, j, ps.
  split; [done|]. split; [done|]. by destruct s.
Qed.

Lemma log_write_spec s pid H b bno st L :
  binv dev s pid H -> H !! b = Some bno -> logst dev s st L -> lock_free s LLog ->
  1 <= lg_outstanding (k_log s) -> (length L < Z.to_nat LOGBLOCKS)%nat -> rc dev s bno < 2^32 - 1 ->
  runs (log_write b s) (fun _ s' => lframe s s' /\ busy s' = busy s /\
    logst dev s' st (logged L bno) /\ binv dev s' pid H /\ k_disk s' = k_disk s /\
    lg_outstanding (k_log s') = lg_outstanding (k_log s) /\
    (forall w, view dev s' w = view dev s w) /\
    forall w, rc dev s' w = if decide (w = bno /\ bno ∉ L) then rc dev s w + 1 else rc dev s w).
Proof.
  intros HI HH HLs Hlk Hout Hm Hrc. pose proof (bi_world _ _ _ _ HI) as HW.
  destruct (held_entry dev s pid H b bno HI HH) as (x & nm & [Hb Hx] & [_ Hxb] & _).
  unfold log_write. apply runs_bind, runs_acquire; [done|]. set (s1 := enter LLog s).
  pose proof (ls_n _ _ _ _ HLs) as Hn.
  rewrite (bind_ok _ _ s1 (k_log s) s1) by done. rewrite Hn.
  replace (Z.of_nat (length L) >=? LOGBLOCKS) with false by (unfold LOGBLOCKS, MAXOPBLOCKS in *; lia).
  replace (lg_outstanding (k_log s) <? 1) with false by lia.
  rewrite (bind_ok _ _ _ _ _ (get_buf_eq s1 b x (proj1 Hb) Hx)), Hxb, Nat2Z.id.
  assert (Hget : forall j h, L !! j = Some h -> lh_get (0 + Z.of_nat j) s1 = Ok h s1).
  { intros j h Hj. apply (lh_get_eq dev s1 st L); [|lia|by rewrite Z.add_0_l, Nat2Z.id].
    exact (logst_log dev s s1 st L eq_refl HLs). }
  rewrite (bind_ok _ _ _ _ _ (log_slot_eq s1 L 0 bno Hget)), Z.add_0_l.
  pose proof (slot_of_range L bno) as Hr.
  rewrite (bind_ok _ _ _ _ _ (lh_put_eq s1 (slot_of L bno) bno ltac:(change (k_log s1) with (k_log s);
    rewrite (ls_len _ _ _ _ HLs); unfold LOGBLOCKS, MAXOPBLOCKS in *; lia))).
  change (k_log s1) with (k_log s).
  pose proof (logst_put s st L bno HLs Hm) as HL'. cbv zeta in HL'.
  set (l := set_lh_block _ (k_log s)) in *. set (s2 := set_log l s1).
  assert (HI2 : binv dev s2 pid H) by (by apply binv_log, binv_enter).
  apply runs_bind. destruct (decide (bno ∈ L)) as [Hin|Hin].
  - destruct (Z.eqb_spec (slot_of L bno) (Z.of_nat (length L))) as [E|_];
      [by apply slot_of_notin in E|]. cbn [runs ret].
    apply (runs_release _ s); [apply HW|done|done|]. intros j Hj.
    split; [by apply (lframe_leave s j l l (set_log l (enter LLog s)))|]. split; [done|].
    split; [destruct HL' as [B1 B2 B3 B4 B5 B6]; by split|].
    split; [by apply binv_leave|]. do 3 (split; [done|]).
    intros w. rewrite decide_False by tauto. done.
  - rewrite (proj2 (slot_of_notin L bno) Hin), Z.eqb_refl. apply runs_bind.
    eapply runs_mono; [apply (bpin_spec dev s2 pid H b bno HI2 HH); exact Hrc|].
    intros [] s3 [C1 C2 C3 C4 C5 C6]. unfold upd_log, modify. cbn [runs].
    pose proof C2 as (sl & bs & d & j0 & ps & Hj0 & Hps & E3).
    assert (Hc3 : k_cpu s3 = k_cpu s1).
    { rewrite E3. cbn [k_cpu set_cpu]. rewrite Hj0 by (apply enter_noff, HW). done. }
    apply (runs_release _ s); [apply HW|done| |].
    { split; [by rewrite E3|]. split; [by rewrite E3|]. exact Hc3. }
    intros j Hj. assert (Hl3 : k_log s3 = l) by (by rewrite E3). rewrite Hl3.
    split; [by apply (lframe_leave s j l)|]. split; [exact C6|].
    split; [destruct HL' as [B1 B2 B3 B4 B5 B6]; by split|].
    split; [apply binv_leave; [done|by apply binv_log|by rewrite E3|done]|].
    split; [done|]. split; [done|]. split; [done|].
    intros w. change (rc dev s3 w = if decide (w = bno /\ bno ∉ L) then rc dev s w + 1 else rc dev s w).
    rewrite C5. change (rc dev s2 w) with (rc dev s w). repeat destruct (decide _); tauto.
Qed.
End log_write.
