(* ===== verification/LogSpec.v ===== *)
(** * The write-ahead log: results

    Transactions are atomic across crashes, and the log never overflows. *)

From S2P Require Import Prelude CMem Machine Sv32 Spinlock KallocProof PageTable UserMem.
From S2P Require Import Printf PrintfProof Sched SchedProof SchedSpec Sleeplock Bio BioProof BioSpec.
From S2P Require Import Codec Log LogProof.

(** ** Crashes *)

(** Block [w] is not part of the log. *)
Definition outside (st w : Z) : Prop := ~ (st <= w <= st + LOGBLOCKS).

Section crash.
Context `{W : WaitFuel, D : BlockDev, !BlockDevOk D} (dev : Z).

(** A transaction that modified the blocks [L] is about to commit: they are
    pinned, every other block is unmodified, and the log on disk is empty. *)
Record committing (s : kstate) (pid st : Z) (L : list Z) : Prop := {
  co_inv : binv dev s pid ∅;
  co_log : logst dev s st L;
  co_layout : layout st L;
  co_room : roomy dev s;
  co_console : lock_free s LPr;
  co_pinned : forall h, h ∈ L -> 1 <= rc dev s h;
  co_some : L <> [];
  co_clean : forall w, w ∉ L -> view dev s w = disk_block (k_disk s) w;
  co_empty : header_n (view dev s st) = 0;
  co_size : length (view dev s st) = Z.to_nat BSIZE;
}.

(** A machine that started again with the disk [d]: nothing is cached. *)
Record rebooted (t : kstate) (pid st : Z) (d : disk_t) : Prop := {
  rb_inv : binv dev t pid ∅;
  rb_log : exists L0, logst dev t st L0;
  rb_room : roomy dev t;
  rb_console : lock_free t LPr;
  rb_unused : forall w, rc dev t w = 0;
  rb_disk : k_disk t = d;
}.

(** The contents after the first [k] writes of [commit]: the header is still
    empty, or it names all of [L] and the log holds their new contents, or the
    header is empty again and everything is installed. *)
Inductive crash_state (st : Z) (L : list Z) (c v c' : Z -> list Z) : Prop :=
| CrashBefore : c' st = c st -> (forall w, outside st w -> c' w = c w) ->
    crash_state st L c v c'
| CrashDuring : c' st = header (v st) L -> log_holds c' st L v ->
    (forall w, outside st w -> w ∉ L -> c' w = c w) -> crash_state st L c v c'
| CrashAfter : c' st = header (header (v st) L) [] ->
    (forall w, outside st w -> c' w = if decide (w ∈ L) then v w else c w) ->
    crash_state st L c v c'.

Lemma outside_start st w : outside st w -> w <> st.
Proof. unfold outside, LOGBLOCKS, MAXOPBLOCKS. lia. Qed.

Lemma outside_log st L v w n :
  (length L <= Z.to_nat LOGBLOCKS)%nat -> outside st w -> w ∉ (take n (log_blocks st L v)).*1.
Proof.
  intros Hm Ho Hin. rewrite fmap_take in Hin. apply subseteq_take in Hin.
  apply log_blocks_range in Hin. apply Ho. unfold LOGBLOCKS in *. lia.
Qed.

Lemma after_during st L v c n :
  layout st L -> (length L <= Z.to_nat LOGBLOCKS)%nat ->
  let c' := after (take n (installs L v)) (after (log_blocks st L v ++ [(st, header (v st) L)]) c) in
  c' st = header (v st) L /\ log_holds c' st L v /\
  (forall w, outside st w -> w ∉ L -> c' w = c w).
Proof.
  intros HL Hm c'.
  assert (Hnot : forall w, w ∉ L -> c' w = after (log_blocks st L v ++ [(st, header (v st) L)]) c w).
  { intros w Hw. apply after_notin. rewrite fmap_take, installs_fst. intros Hin.
    by apply subseteq_take in Hin. }
  assert (Hin : forall w, st <= w <= st + LOGBLOCKS -> w ∉ L)
    by (intros w Hw Hin; by apply (ly_out _ _ HL w)).
  split; [|split].
  - rewrite Hnot by (apply Hin; unfold LOGBLOCKS, MAXOPBLOCKS; lia). rewrite after_app.
    unfold after at 1. simpl. unfold bput. by rewrite decide_True.
  - intros i h Hi. rewrite Hnot.
    + by apply (log_holds_after st L v c HL Hm).
    + apply Hin. apply lookup_lt_Some in Hi. unfold LOGBLOCKS, MAXOPBLOCKS in *. lia.
  - intros w Ho Hw. rewrite Hnot by done. apply after_notin. rewrite fmap_app. simpl. intros Hi.
    apply elem_of_app in Hi as [Hi|Hi].
    + apply log_blocks_range in Hi. apply Ho. unfold LOGBLOCKS in *. lia.
    + apply list_elem_of_singleton in Hi. by apply outside_start in Ho.
Qed.

Lemma crash_cases st L v c k :
  layout st L -> (length L <= Z.to_nat LOGBLOCKS)%nat ->
  crash_state st L c v (after (take k (commit_writes st L v)) c).
Proof.
  intros HL Hm. set (A := log_blocks st L v). set (B := installs L v).
  assert (HA : length A = length L) by apply length_imap.
  assert (HB : length B = length L) by apply length_fmap.
  unfold commit_writes. fold A B. set (h := header (v st) L).
  destruct (decide (k <= length A)%nat) as [Hk|Hk].
  - rewrite take_app_le by done. apply CrashBefore.
    + apply after_notin. intros Hin. rewrite fmap_take in Hin. apply subseteq_take in Hin.
      apply log_blocks_range in Hin. lia.
    + intros w Ho. apply after_notin. by apply outside_log.
  - rewrite take_app_ge by lia. destruct (k - length A)%nat as [|k'] eqn:Ek; [lia|]. simpl.
    destruct (decide (k' <= length B)%nat) as [Hk'|Hk'].
    + rewrite take_app_le by done. change (A ++ (st, h) :: take k' B) with (A ++ [(st, h)] ++ take k' B).
      rewrite app_assoc, after_app.
      destruct (after_during st L v c k' HL Hm) as (H1 & H2 & H3). by apply CrashDuring.
    + rewrite (take_ge _ k') by (rewrite length_app; simpl; lia).
      change (A ++ (st, h) :: B ++ [(st, header h [])]) with (A ++ [(st, h)] ++ B ++ [(st, header h [])]).
      rewrite (app_assoc A), (app_assoc _ B), after_app. apply CrashAfter.
      * unfold after at 1. simpl. unfold bput. by rewrite decide_True.
      * intros w Ho. rewrite after_notin by (simpl; rewrite list_elem_of_singleton; by apply outside_start).
        rewrite after_app. unfold B. rewrite after_installs by apply HL.
        destruct (decide (w ∈ L)); [done|]. apply after_notin. rewrite fmap_app. simpl. intros Hi.
        apply elem_of_app in Hi as [Hi|Hi].
        -- apply log_blocks_range in Hi. apply Ho. unfold LOGBLOCKS in *. lia.
        -- apply list_elem_of_singleton in Hi. by apply outside_start in Ho.
Qed.

Lemma layout_nil st : layout st [].
Proof.
  split; [by apply NoDup_nil|by intros h ?%elem_of_nil|constructor].
Qed.

Lemma header_nil d : (4 <= length d)%nat -> header_n (header d []) = 0.
Proof. intros Hd. apply (header_read d []); simpl; [lia|done|done]. Qed.

Lemma header_n_nil d : header_n d = 0 -> header_blocks d = [].
Proof. intros H. unfold header_blocks. by rewrite H. Qed.

Lemma header_length d L : length (header d L) = length d.
Proof. unfold header. by rewrite put32s_length, put32_length. Qed.

(** Recovery from each of the three. *)
Lemma recover_crash t pid st L c v :
  (0 < wait_fuel)%nat -> rebooted t pid st (k_disk t) -> layout st L ->
  (length L <= Z.to_nat LOGBLOCKS)%nat -> length (v st) = Z.to_nat BSIZE ->
  header_n (c st) = 0 -> c st = v st ->
  crash_state st L c v (disk_block (k_disk t)) ->
  runs (recover_from_log t) (fun _ t' =>
    header_n (disk_block (k_disk t') st) = 0 /\
    ((forall w, outside st w -> disk_block (k_disk t') w = c w) \/
     (forall w, outside st w ->
        disk_block (k_disk t') w = if decide (w ∈ L) then v w else c w))).
Proof.
  intros Hf [HI [L0 HLs] Hroom Hpr Hun _] HL Hm Hlen Hc0 Hcv Hcr.
  assert (Hv : forall w, view dev t w = disk_block (k_disk t) w)
    by (intros w; by apply (clean_view dev t pid ∅)).
  assert (Hb4 : (4 <= Z.to_nat BSIZE)%nat) by (unfold BSIZE; lia).
  (* recovery of a log whose header is empty *)
  assert (Hnone : forall d, disk_block (k_disk t) st = d -> header_n d = 0 -> (4 <= length d)%nat ->
    runs (recover_from_log t) (fun _ t' => header_n (disk_block (k_disk t') st) = 0 /\
      forall w, outside st w -> disk_block (k_disk t') w = disk_block (k_disk t) w)).
  { intros d Hd Hd0 Hdl. eapply runs_mono.
    { apply (recover_spec dev Hf t pid st L0 [] v); try done.
      - by rewrite Hv, Hd, Hd0.
      - by rewrite Hv, Hd, header_n_nil.
      - simpl. lia.
      - apply layout_nil. }
    intros [] t' [Hp _]. rewrite (pg_disk _ _ _ _ _ _ Hp), Hv, Hd. simpl. split.
    - rewrite disk_block_writes. unfold after. simpl. unfold bput. rewrite decide_True by done.
      by apply header_nil.
    - intros w Ho. rewrite disk_block_writes. apply after_notin. simpl.
      rewrite list_elem_of_singleton. by apply outside_start. }
  destruct Hcr as [C1 C2|C1 C2 C3|C1 C2].
  - eapply runs_mono; [apply (Hnone (c st)); [done|done|rewrite Hcv; lia]|].
    intros [] t' [H1 H2]. split; [done|]. left. intros w Ho. by rewrite H2, C2.
  - assert (Hhl : (4 + 4 * length L <= length (v st))%nat).
    { rewrite Hlen. unfold BSIZE, LOGBLOCKS, MAXOPBLOCKS in *. lia. }
    destruct (header_read (v st) L) as [R1 R2];
      [done|unfold LOGBLOCKS, MAXOPBLOCKS in *; lia|apply HL|].
    eapply runs_mono.
    { apply (recover_spec dev Hf t pid st L0 L v); try done.
      - by rewrite Hv, C1.
      - by rewrite Hv, C1.
      - intros i h Hi. rewrite Hv. by apply C2. }
    intros [] t' [Hp _]. rewrite (pg_disk _ _ _ _ _ _ Hp), Hv, C1. split.
    + rewrite disk_block_writes, after_app. unfold after at 1. simpl. unfold bput.
      rewrite decide_True by done. apply header_nil. rewrite header_length. lia.
    + right. intros w Ho. rewrite disk_block_writes, after_app, after_notin.
      2: { simpl. rewrite list_elem_of_singleton. by apply outside_start. }
      rewrite after_installs by apply HL. destruct (decide (w ∈ L)); [done|]. by apply C3.
  - eapply runs_mono.
    { apply (Hnone (header (header (v st) L) [])); [done| |].
      - apply header_nil. rewrite header_length. lia.
      - rewrite !header_length. lia. }
    intros [] t' [H1 H2]. split; [done|]. right. intros w Ho. by rewrite H2, C2.
Qed.

(** C4: transactions are atomic.  [commit] returns, with the modified blocks at
    their places on disk.  If the machine stops after any number [k] of the
    block writes [commit] makes and starts again with that disk, then recovery
    runs to completion, leaves an empty log, and leaves on the disk outside
    the log either exactly the contents from before the transaction or exactly
    the contents after it. *)
Theorem commit_crash_atomic (s : kstate) (pid st : Z) (L : list Z) :
  (0 < wait_fuel)%nat -> committing s pid st L ->
  runs (commit s) (fun _ s' =>
    lh_n (k_log s') = 0 /\
    (forall w, outside st w -> disk_block (k_disk s') w = view dev s w) /\
    exists ws, k_disk s' = disk_writes ws (k_disk s) /\
      forall k t pid', rebooted t pid' st (disk_writes (take k ws) (k_disk s)) ->
        runs (recover_from_log t) (fun _ t' =>
          header_n (disk_block (k_disk t') st) = 0 /\
          ((forall w, outside st w -> disk_block (k_disk t') w = disk_block (k_disk s) w) \/
           (forall w, outside st w -> disk_block (k_disk t') w = view dev s w)))).
Proof.
  intros Hf [HI HLs HL Hroom Hpr Hpin Hne Hcl H0 Hlen]. pose proof (ls_max _ _ _ _ HLs) as Hm.
  eapply runs_mono; [by apply (commit_spec dev Hf s pid st L)|].
  intros [] s' (Hp & HLs' & _). set (ws := commit_writes st L (view dev s)) in *.
  assert (Hst : st ∉ L).
  { intros Hin. apply (ly_out _ _ HL st Hin). unfold LOGBLOCKS, MAXOPBLOCKS. lia. }
  assert (Hnew : forall w, (if decide (w ∈ L) then view dev s w else disk_block (k_disk s) w) =
    view dev s w) by (intros w; case_decide; [done|by rewrite Hcl]).
  split; [apply (ls_n _ _ _ _ HLs')|]. split.
  - intros w Ho. rewrite (pg_disk _ _ _ _ _ _ Hp), disk_block_writes.
    pose proof (crash_cases st L (view dev s) (disk_block (k_disk s)) (length ws) HL Hm) as Hcr.
    fold ws in Hcr. rewrite firstn_all in Hcr.
    pose proof (after_during st L (view dev s) (disk_block (k_disk s)) (length L) HL Hm) as (_ & _ & _).
    unfold ws, commit_writes. rewrite !app_assoc, after_app, after_notin
      by (simpl; rewrite list_elem_of_singleton; by apply outside_start).
    rewrite after_app, after_installs by apply HL. rewrite <- Hnew.
    destruct (decide (w ∈ L)); [done|].
    destruct (after_during st L (view dev s) (disk_block (k_disk s)) 0 HL Hm) as (_ & _ & H3).
    rewrite take_0 in H3. by apply H3.
  - exists ws. split; [apply (pg_disk _ _ _ _ _ _ Hp)|]. intros k t pid' Hrb.
    pose proof (rb_disk _ _ _ _ Hrb) as Hd.
    eapply runs_mono.
    { apply (recover_crash t pid' st L (disk_block (k_disk s)) (view dev s)); try done.
      - by rewrite Hd.
      - by rewrite <- Hcl.
      - by rewrite Hcl.
      - rewrite Hd. pose proof (crash_cases st L (view dev s) (disk_block (k_disk s)) k HL Hm) as Hcr.
        fold ws in Hcr. destruct Hcr as [C1 C2|C1 C2 C3|C1 C2];
          [apply CrashBefore|apply CrashDuring|apply CrashAfter];
          intros; unfold log_holds; intros; rewrite ?disk_block_writes; auto. }
    intros [] t' [H1 H2]. split; [done|]. destruct H2 as [H2|H2]; [by left|right].
    intros w Ho. by rewrite H2.
Qed.
End crash.

(** C11: [log_write] adds the block of a locked buffer to the transaction: a
    block already in it is absorbed, another one is appended and its buffer
    pinned.  The list stays within the log, disk and contents are untouched,
    and outside a transaction or with the log full the call panics. *)
Theorem log_write_correct (dev : Z) (s : kstate) (pid : Z) (H : gmap Z Z) (b bno st : Z) (L : list Z) :
  binv dev s pid H -> H !! b = Some bno -> logst dev s st L -> lock_free s LLog ->
  rc dev s bno < 2^32 - 1 ->
  if decide (LOGBLOCKS <= Z.of_nat (length L)) then
    log_write b s = Stop (Panicked "too big a transaction")
  else if decide (lg_outstanding (k_log s) < 1) then
    log_write b s = Stop (Panicked "log_write outside of trans")
  else runs (log_write b s) (fun _ s' =>
    logst dev s' st (if decide (bno ∈ L) then L else L ++ [bno]) /\
    binv dev s' pid H /\ k_disk s' = k_disk s /\
    lg_outstanding (k_log s') = lg_outstanding (k_log s) /\
    (forall w, view dev s' w = view dev s w) /\
    forall w, rc dev s' w = if decide (w = bno /\ bno ∉ L) then rc dev s w + 1 else rc dev s w).
Proof.
  intros HI HH HLs Hlk Hrc. pose proof (ls_n _ _ _ _ HLs) as Hn.
  assert (Hpre : forall P, (let s1 := enter LLog s in
      (if lh_n (k_log s) >=? LOGBLOCKS then panic "too big a transaction" else P) s1) =
    (let s1 := enter LLog s in
      (if decide (LOGBLOCKS <= Z.of_nat (length L)) then panic "too big a transaction" else P) s1)
    :> res kstate unit).
  { intros P. rewrite Hn. destruct (decide _);
      [by replace (_ >=? _) with true by lia|by replace (_ >=? _) with false by lia]. }
  destruct (decide (LOGBLOCKS <= Z.of_nat (length L))) as [Hbig|Hsmall].
  - unfold log_write. rewrite (bind_ok _ _ _ _ _ (acquire_eq s LLog Hlk)). apply Hpre.
  - destruct (decide (lg_outstanding (k_log s) < 1)) as [Ho|Ho].
    + unfold log_write. rewrite (bind_ok _ _ _ _ _ (acquire_eq s LLog Hlk)).
      rewrite (bind_ok _ _ (enter LLog s) (k_log s) (enter LLog s)) by done. rewrite Hpre.
      by replace (lg_outstanding (k_log s) <? 1) with true by lia.
    + eapply runs_mono; [by apply log_write_spec; try done; lia|]. by intros [] s' (_ & _ & Hpost).
Qed.

(** ** Witnesses *)

(** It modified block 100 under pin and released it. *)
Lemma demo_modified : exists s, binv 1 s 1 ∅ /\ k_disk s = mkDisk ∅ [] /\ (busy s <= 1)%nat /\
  (forall w, rc 1 s w = if decide (w = 100) then 1 else 0) /\
  (forall w, w <> 100 -> view 1 s w = zero_block) /\ lock_free s LPr /\ lock_free s LLog.
Proof.
  destruct (demo_cache (mkDisk ∅ [])) as (s0 & HI0 & Hd0 & Hb0 & Hr0 & Hpr & Hlg & _).
  assert (Hw : (0 < 1)%nat) by lia.
  destruct (proj1 (runs_ok _ _) (@bread_spec 1%nat 1 ram_disk ram_disk_ok s0 1 ∅ 100 HI0 Hw
    ltac:(intros i; by rewrite lookup_empty) ltac:(by rewrite Hr0) ltac:(by rewrite Hb0)))
    as (b & s1 & _ & [A0 A1 A2 A3 A4 A5 A6]).
  destruct (proj1 (runs_ok _ _) (set_data_spec 1 s1 1 _ b 100 (fun _ => replicate (Z.to_nat BSIZE) 7)
    A1 (lookup_insert_eq _ _ _))) as ([] & s2 & _ & [B1 B2 B3 B4 B5 B6]).
  destruct (proj1 (runs_ok _ _) (bpin_spec 1 s2 1 _ b 100 B1 (lookup_insert_eq _ _ _)
    ltac:(by rewrite B5, A5, Hr0))) as ([] & s3 & _ & [C1 C2 C3 C4 C5 C6]).
  assert (Hrc : rc 1 s3 100 = 2) by (rewrite C5, B5, A5, Hr0; done).
  destruct (proj1 (runs_ok _ _) (brelse_spec 1 s3 1 _ b 100 C1 (lookup_insert_eq _ _ _)
    ltac:(rewrite Hrc; done))) as ([] & s4 & _ & [E1 E2 E3 E4 E5 E6]).
  assert (Hfr : bframe s0 s4) by (do 3 (etrans; [eassumption|]); done).
  exists s4. split; [by rewrite delete_insert_id in E1 by done|].
  split; [congruence|]. split; [|split; [|split; [|split; by eapply bframe_lock]]].
  - rewrite C6, B6, A6, Hb0 in E6. destruct (decide _), (decide _); lia.
  - intros w. rewrite E5, C5, B5, A5, Hr0. by destruct (decide (w = 100)).
  - intros w Hne. rewrite E4, C4, B4, decide_False by done. rewrite A4.
    rewrite (clean_view 1 s0 1 ∅) by done. by rewrite Hd0.
Qed.

Definition demo_log : log_t := mkLog 2 0 0 1 1 (100 :: replicate (Z.to_nat LOGBLOCKS - 1) 0).

Lemma commit_crash_atomic_witness : exists s,
  disk_block (k_disk s) 100 = zero_block /\
  runs (@commit 1%nat ram_disk s) (fun _ s' =>
    lh_n (k_log s') = 0 /\
    (forall w, outside 2 w -> disk_block (k_disk s') w = view 1 s w) /\
    exists ws, k_disk s' = disk_writes ws (k_disk s) /\
      forall k t pid', rebooted 1 t pid' 2 (disk_writes (take k ws) (k_disk s)) ->
        runs (@recover_from_log 1%nat ram_disk t) (fun _ t' =>
          header_n (disk_block (k_disk t') 2) = 0 /\
          ((forall w, outside 2 w -> disk_block (k_disk t') w = disk_block (k_disk s) w) \/
           (forall w, outside 2 w -> disk_block (k_disk t') w = view 1 s w)))).
Proof.
  destruct demo_modified as (s0 & HI & Hd & Hb & Hr & Hv & Hpr & _).
  exists (set_log demo_log s0). split; [cbn [k_disk set_log]; rewrite Hd; reflexivity|].
  apply (@commit_crash_atomic 1%nat ram_disk ram_disk_ok 1 (set_log demo_log s0) 1 2 [100]).
  - exact (Nat.lt_0_succ 0).
  - assert (Hv' : forall w, view 1 (set_log demo_log s0) w = view 1 s0 w) by reflexivity.
    split; try exact Hpr.
    + apply binv_log. exact HI.
    + split; try reflexivity; [|simpl; unfold LOGBLOCKS, MAXOPBLOCKS; lia].
      intros [|i] h Hi; [|discriminate Hi]. exact Hi.
    + split; [apply NoDup_singleton| |repeat constructor; lia].
      intros h ->%list_elem_of_singleton. unfold LOGBLOCKS, MAXOPBLOCKS. lia.
    + split; [change (busy (set_log demo_log s0)) with (busy s0); unfold NBUF, MAXOPBLOCKS; lia|].
      intros w. change (rc 1 (set_log demo_log s0) w) with (rc 1 s0 w). rewrite Hr.
      destruct (decide (w = 100)); lia.
    + intros h ->%list_elem_of_singleton. change (1 <= rc 1 s0 100). rewrite Hr. done.
    + discriminate.
    + intros w Hw. rewrite Hv', Hv by (rewrite list_elem_of_singleton in Hw; exact Hw).
      cbn [k_disk set_log]. rewrite Hd. reflexivity.
    + rewrite Hv', Hv by done. vm_compute. reflexivity.
    + rewrite Hv', Hv by done. reflexivity.
Defined.

Lemma log_write_correct_witness : exists s b,
  runs (log_write b s) (fun _ s' =>
    logst 1 s' 2 (if decide (100 ∈ ([] : list Z)) then [] else [] ++ [100]) /\
    binv 1 s' 1 (<[b := 100]> ∅) /\ k_disk s' = k_disk s /\
    lg_outstanding (k_log s') = lg_outstanding (k_log s) /\
    (forall w, view 1 s' w = view 1 s w) /\
    forall w, rc 1 s' w = if decide (w = 100 /\ 100 ∉ ([] : list Z)) then rc 1 s w + 1 else rc 1 s w).
Proof.
  destruct (demo_cache (mkDisk ∅ [])) as (s0 & HI0 & Hd0 & Hb0 & Hr0 & Hpr & Hlg & _).
  destruct (proj1 (runs_ok _ _) (@bread_spec 1%nat 1 ram_disk ram_disk_ok s0 1 ∅ 100 HI0
    (Nat.lt_0_succ 0) ltac:(intros i; by rewrite lookup_empty) ltac:(by rewrite Hr0)
    ltac:(by rewrite Hb0))) as (b & s1 & _ & [A0 A1 A2 A3 A4 A5 A6]).
  set (l := mkLog 2 1 0 1 0 (replicate (Z.to_nat LOGBLOCKS) 0)).
  exists (set_log l s1), b.
  apply (log_write_correct 1 (set_log l s1) 1 (<[b := 100]> ∅) b 100 2 []).
  - apply binv_log. exact A1.
  - apply lookup_insert_eq.
  - split; try reflexivity; [|simpl; lia]. intros i h Hi. discriminate Hi.
  - exact (bframe_lock s0 s1 LLog A2 Hlg).
  - change (rc 1 (set_log l s1) 100) with (rc 1 s1 100). rewrite A5, Hr0. reflexivity.
Defined.
