(* ===== verification/Fs.v ===== *)
(** * The file system

    Models [src/os/kernel/fs.c]: the block bitmap, inodes on disk and in the
    in-memory table, file contents through direct and indirect blocks,
    directories and path names. *)

From S2P Require Import Prelude CMem Machine Sv32 Spinlock Kalloc Printf.
From S2P Require Import Sched AddrSpace Sleeplock Bio Codec Log.

Definition IBLOCK (i : Z) (sb : superblock) : Z := i / IPB + sb.(sb_inodestart).
Definition BBLOCK (b : Z) (sb : superblock) : Z := b / BPB + sb.(sb_bmapstart).

(** Field offsets of [struct dinode]; inode [inum]'s offset in its block. *)
Definition di_type : Z := 0.
Definition di_major : Z := 2.
Definition di_minor : Z := 4.
Definition di_nlink : Z := 6.
Definition di_size : Z := 8.
Definition di_addrs : Z := 12.
Definition dip_off (inum : Z) : Z := inum mod IPB * DINODE_SIZE.

(** [dip->... = ip->...] for every field of the inode *)
Definition dinode_put (d : list Z) (o : Z) (ip : inode) : list Z :=
  let d := put16 d (o + di_type) ip.(i_type) in
  let d := put16 d (o + di_major) ip.(i_major) in
  let d := put16 d (o + di_minor) ip.(i_minor) in
  let d := put16 d (o + di_nlink) ip.(i_nlink) in
  let d := put32 d (o + di_size) ip.(i_size) in
  put32s d (o + di_addrs) ip.(i_addrs).
(** [ip->... = dip->...] for every field of the inode *)
Definition dinode_get (d : list Z) (o : Z) (ip : inode) : inode :=
  mkInode ip.(i_dev) ip.(i_inum) ip.(i_ref) ip.(i_valid)
    (i16 (get16 d (o + di_type))) (i16 (get16 d (o + di_major)))
    (i16 (get16 d (o + di_minor))) (i16 (get16 d (o + di_nlink)))
    (get32 d (o + di_size)) (get32s 13 d (o + di_addrs)).

(** A [struct dirent]: its bytes, as read or to be written. *)
Definition de_inum (de : list Z) : Z := get16 de 0.
Definition de_name (de : list Z) : list Z := drop 2 de.

(** [strncmp(s, t, DIRSIZ)] and [strncpy(de.name, name, DIRSIZ)] on names held
    in local variables. *)
Definition namecmp (s t : list Z) : Z :=
  strncmp (write_bytes (write_bytes ∅ 0 s) 4096 t) 0 4096 DIRSIZ.
Definition dirent_make (old name : list Z) (inum : Z) : list Z :=
  let m := strncpy (write_bytes (write_bytes ∅ 0 (de_name old)) 4096 name) 0 4096 DIRSIZ in
  put16 (take 2 old ++ read_bytes (Z.to_nat DIRSIZ) m 0) 0 inum.

(** Where [readi] copies to and [writei] from: a user address, a page, or a
    local variable of the caller, whose bytes are passed. *)
Inductive dest := DUser (va : Z) | DPage (pa : Z) | DLocal.
Inductive source := SUser (va : Z) | SLocal (bs : list Z).

Section fs.
Context `{L : Layout, W : WaitFuel, D : BlockDev}.

Definition readsb (dev : Z) : K unit :=
  bp <- bread dev 1 ;;
  b <- get_buf bp ;;
  let w i := get32 b.(b_data) (4 * i) in
  modify (set_sb (mkSB (w 0) (w 1) (w 2) (w 3) (w 4) (w 5) (w 6) (w 7))) ;;
  brelse bp.

(** ** Blocks *)

Definition bzero (dev bno : Z) : K unit :=
  bp <- bread dev bno ;;
  set_data bp (fun _ => replicate (Z.to_nat BSIZE) 0) ;;
  log_write bp ;;
  brelse bp.

(** Is bit [bi] of a bitmap block clear? *)
Definition bit_clear (d : list Z) (bi : Z) : bool :=
  Z.land (byte_at d (bi / 8)) (Z.shiftl 1 (bi mod 8)) =? 0.
Definition bit_set (d : list Z) (bi : Z) : list Z :=
  put_byte d (bi / 8) (Z.lor (byte_at d (bi / 8)) (Z.shiftl 1 (bi mod 8))).
Definition bit_unset (d : list Z) (bi : Z) : list Z :=
  put_byte d (bi / 8) (Z.land (byte_at d (bi / 8)) (Z.lnot (Z.shiftl 1 (bi mod 8)))).

(** [for(bi = 0; bi < BPB && b + bi < sb.size; bi++)]: the first clear bit. *)
Fixpoint find_clear (n : nat) (d : list Z) (b bi size : Z) : option Z :=
  match n with
  | O => None
  | S n' =>
      if (bi <? BPB) && (b + bi <? size) then
        if bit_clear d bi then Some bi else find_clear n' d b (bi + 1) size
      else None
  end.

(** [for(b = 0; b < sb.size; b += BPB)] *)
Fixpoint balloc_loop (n : nat) (dev b : Z) : K Z :=
  match n with
  | O => nofuel
  | S n' =>
      sb <- gets k_sb ;;
      if b <? sb.(sb_size) then
        bp <- bread dev (BBLOCK b sb) ;;
        x <- get_buf bp ;;
        match find_clear (Z.to_nat BPB) x.(b_data) b 0 sb.(sb_size) with
        | Some bi =>
            set_data bp (fun d => bit_set d bi) ;;
            log_write bp ;;
            brelse bp ;;
            bzero dev (b + bi) ;;
            ret (b + bi)
        | None =>
            brelse bp ;;
            balloc_loop n' dev (b + BPB)
        end
      else
        printf (cstr "balloc: out of blocks" ++ [10]) [] ;;
        ret 0
  end.
Definition balloc (dev : Z) : K Z :=
  sb <- gets k_sb ;;
  balloc_loop (Z.to_nat (sb.(sb_size) / BPB + 2)) dev 0.

Definition bfree (dev b : Z) : K unit :=
  sb <- gets k_sb ;;
  bp <- bread dev (BBLOCK b sb) ;;
  let bi := b mod BPB in
  x <- get_buf bp ;;
  if bit_clear x.(b_data) bi then panic "freeing free block" else
  set_data bp (fun d => bit_unset d bi) ;;
  log_write bp ;;
  brelse bp.

(** ** Inodes *)

Definition iinit : K unit :=
  initlock LItable "itable" ;;
  for_ (Z.to_nat NINODE) 0 (fun i => initsleeplock (LInode i) "inode").

(** The table scan of [iget]: a hit, or the first free slot if any. *)
Fixpoint iget_scan (n : nat) (i dev inum : Z) (empty : option Z)
    : K (option Z * option Z) :=
  match n with
  | O => ret (None, empty)
  | S n' =>
      ip <- get_inode i ;;
      if (ip.(i_ref) >? 0) && (ip.(i_dev) =? dev) && (ip.(i_inum) =? inum)
      then ret (Some i, empty) else
      let empty := match empty with
                   | None => if ip.(i_ref) =? 0 then Some i else None
                   | e => e
                   end in
      iget_scan n' (i + 1) dev inum empty
  end.

Definition iget (dev inum : Z) : K Z :=
  acquire LItable ;;
  r <- iget_scan (Z.to_nat NINODE) 0 dev inum None ;;
  match r with
  | (Some i, _) =>
      upd_inode i (fun ip => set_i_ref (ip.(i_ref) + 1) ip) ;;
      release LItable ;;
      ret i
  | (None, None) => panic "iget: no inodes"
  | (None, Some i) =>
      upd_inode i (fun ip => set_i_valid 0 (set_i_ref 1
                               (set_i_inum inum (set_i_dev dev ip)))) ;;
      release LItable ;;
      ret i
  end.

Fixpoint ialloc_loop (n : nat) (inum dev type : Z) : K (option Z) :=
  match n with
  | O => nofuel
  | S n' =>
      sb <- gets k_sb ;;
      if inum <? sb.(sb_ninodes) then
        bp <- bread dev (IBLOCK inum sb) ;;
        x <- get_buf bp ;;
        if i16 (get16 x.(b_data) (dip_off inum + di_type)) =? 0 then
          set_data bp (fun d =>
            splice d (dip_off inum) (replicate (Z.to_nat DINODE_SIZE) 0)) ;;
          set_data bp (fun d => put16 d (dip_off inum + di_type) type) ;;
          log_write bp ;;
          brelse bp ;;
          i <- iget dev inum ;;
          ret (Some i)
        else
          brelse bp ;;
          ialloc_loop n' (inum + 1) dev type
      else
        printf (cstr "ialloc: no inodes" ++ [10]) [] ;;
        ret None
  end.
Definition ialloc (dev type : Z) : K (option Z) :=
  sb <- gets k_sb ;;
  ialloc_loop (Z.to_nat (sb.(sb_ninodes) + 1)) 1 dev type.

Definition iupdate (i : Z) : K unit :=
  sb <- gets k_sb ;;
  ip <- get_inode i ;;
  bp <- bread ip.(i_dev) (IBLOCK ip.(i_inum) sb) ;;
  ip <- get_inode i ;;
  set_data bp (fun d => dinode_put d (dip_off ip.(i_inum)) ip) ;;
  log_write bp ;;
  brelse bp.

Definition idup (i : Z) : K Z :=
  acquire LItable ;;
  upd_inode i (fun ip => set_i_ref (ip.(i_ref) + 1) ip) ;;
  release LItable ;;
  ret i.

Definition ilock (i : Z) : K unit :=
  ip <- get_inode i ;;
  if ip.(i_ref) <? 1 then panic "ilock" else
  acquiresleep (LInode i) ;;
  ip <- get_inode i ;;
  if ip.(i_valid) =? 0 then
    sb <- gets k_sb ;;
    bp <- bread ip.(i_dev) (IBLOCK ip.(i_inum) sb) ;;
    x <- get_buf bp ;;
    upd_inode i (fun ip => dinode_get x.(b_data) (dip_off ip.(i_inum)) ip) ;;
    brelse bp ;;
    upd_inode i (set_i_valid 1) ;;
    ip <- get_inode i ;;
    if ip.(i_type) =? 0 then panic "ilock: no type" else ret tt
  else ret tt.

Definition iunlock (i : Z) : K unit :=
  h <- holdingsleep (LInode i) ;;
  ip <- get_inode i ;;
  if negb h || (ip.(i_ref) <? 1) then panic "iunlock" else
  releasesleep (LInode i).

(** Truncation: direct blocks, then the indirect block's, then itself. *)
Definition itrunc (i : Z) : K unit :=
  for_ (Z.to_nat NDIRECT) 0 (fun k =>
    ip <- get_inode i ;;
    let a := nth (Z.to_nat k) ip.(i_addrs) 0 in
    if negb (a =? 0) then
      bfree ip.(i_dev) a ;;
      upd_inode i (fun ip => set_i_addrs (<[Z.to_nat k := 0]> ip.(i_addrs)) ip)
    else ret tt) ;;
  ip <- get_inode i ;;
  let ind := nth (Z.to_nat NDIRECT) ip.(i_addrs) 0 in
  (if negb (ind =? 0) then
     bp <- bread ip.(i_dev) ind ;;
     for_ (Z.to_nat NINDIRECT) 0 (fun j =>
       x <- get_buf bp ;;
       let a := get32 x.(b_data) (4 * j) in
       if negb (a =? 0) then bfree ip.(i_dev) a else ret tt) ;;
     brelse bp ;;
     bfree ip.(i_dev) ind ;;
     upd_inode i (fun ip =>
       set_i_addrs (<[Z.to_nat NDIRECT := 0]> ip.(i_addrs)) ip)
   else ret tt) ;;
  upd_inode i (set_i_size 0) ;;
  iupdate i.

Definition iput (i : Z) : K unit :=
  acquire LItable ;;
  ip <- get_inode i ;;
  (if (ip.(i_ref) =? 1) && negb (ip.(i_valid) =? 0) && (ip.(i_nlink) =? 0) then
     acquiresleep (LInode i) ;;
     release LItable ;;
     itrunc i ;;
     upd_inode i (set_i_type 0) ;;
     iupdate i ;;
     upd_inode i (set_i_valid 0) ;;
     releasesleep (LInode i) ;;
     acquire LItable
   else ret tt) ;;
  upd_inode i (fun ip => set_i_ref (ip.(i_ref) - 1) ip) ;;
  release LItable.

Definition iunlockput (i : Z) : K unit := iunlock i ;; iput i.

Definition ireclaim (dev : Z) : K unit :=
  sb <- gets k_sb ;;
  for_ (Z.to_nat (sb.(sb_ninodes) - 1)) 1 (fun inum =>
    bp <- bread dev (IBLOCK inum sb) ;;
    x <- get_buf bp ;;
    let o := dip_off inum in
    ip <- (if negb (i16 (get16 x.(b_data) (o + di_type)) =? 0) &&
              (i16 (get16 x.(b_data) (o + di_nlink)) =? 0) then
             printf (cstr "ireclaim: orphaned inode %d" ++ [10]) [VInt inum] ;;
             i <- iget dev inum ;; ret (Some i)
           else ret None) ;;
    brelse bp ;;
    match ip with
    | Some i => begin_op ;; ilock i ;; iunlock i ;; iput i ;; end_op
    | None => ret tt
    end).

Definition fsinit (dev : Z) : K unit :=
  readsb dev ;;
  sb <- gets k_sb ;;
  if negb (sb.(sb_magic) =? FSMAGIC) then panic "invalid file system" else
  initlog dev sb ;;
  ireclaim dev.

(** ** Contents *)

Definition bmap (i bn : Z) : K Z :=
  ip <- get_inode i ;;
  if bn <? NDIRECT then
    let addr := nth (Z.to_nat bn) ip.(i_addrs) 0 in
    if addr =? 0 then
      addr <- balloc ip.(i_dev) ;;
      if addr =? 0 then ret 0 else
      upd_inode i (fun ip => set_i_addrs (<[Z.to_nat bn := addr]> ip.(i_addrs)) ip) ;;
      ret addr
    else ret addr
  else
  let bn := bn - NDIRECT in
  if bn <? NINDIRECT then
    let addr := nth (Z.to_nat NDIRECT) ip.(i_addrs) 0 in
    addr <- (if addr =? 0 then
               addr <- balloc ip.(i_dev) ;;
               if addr =? 0 then ret 0 else
               upd_inode i (fun ip =>
                 set_i_addrs (<[Z.to_nat NDIRECT := addr]> ip.(i_addrs)) ip) ;;
               ret addr
             else ret addr) ;;
    if addr =? 0 then ret 0 else
    bp <- bread ip.(i_dev) addr ;;
    x <- get_buf bp ;;
    let addr := get32 x.(b_data) (4 * bn) in
    addr <- (if addr =? 0 then
               addr <- balloc ip.(i_dev) ;;
               (if negb (addr =? 0) then
                  set_data bp (fun d => put32 d (4 * bn) addr) ;;
                  log_write bp
                else ret tt) ;;
               ret addr
             else ret addr) ;;
    brelse bp ;;
    ret addr
  else panic "bmap: out of range".

(** [st->dev], [ino], [type], [nlink], [size] as the bytes of a [struct stat]:
    the 64-bit size is aligned to 8. *)
Definition stati (ip : inode) : list Z :=
  let d := replicate 24 0 in
  let d := put32 d 0 ip.(i_dev) in
  let d := put32 d 4 ip.(i_inum) in
  let d := put16 d 8 ip.(i_type) in
  let d := put16 d 10 ip.(i_nlink) in
  put32 d 16 ip.(i_size).

Definition dest_copy (dst : dest) (tot : Z) (bs : list Z) : K Z :=
  match dst with
  | DUser va => either_copyout true (u32 (va + tot)) bs
  | DPage pa => either_copyout false (u32 (pa + tot)) bs
  | DLocal => ret 0
  end.

(** Returns the count (or -1) and the bytes copied. *)
Fixpoint readi_loop (fuel : nat) (i : Z) (dst : dest) (off n tot : Z) (acc : list Z)
    : K (Z * list Z) :=
  match fuel with
  | O => nofuel
  | S f =>
      if tot <? n then
        addr <- bmap i (off / BSIZE) ;;
        if addr =? 0 then ret (tot, acc) else
        ip <- get_inode i ;;
        bp <- bread ip.(i_dev) addr ;;
        let m := Z.min (n - tot) (BSIZE - off mod BSIZE) in
        x <- get_buf bp ;;
        let bs := slice x.(b_data) (off mod BSIZE) m in
        e <- dest_copy dst tot bs ;;
        if e =? -1 then brelse bp ;; ret (-1, acc) else
        brelse bp ;;
        readi_loop f i dst (off + m) n (tot + m) (acc ++ bs)
      else ret (tot, acc)
  end.
Definition readi (i : Z) (dst : dest) (off n : Z) : K (Z * list Z) :=
  ip <- get_inode i ;;
  if (off >? ip.(i_size)) || (u32 (off + n) <? off) then ret (0, []) else
  let n := if off + n >? ip.(i_size) then ip.(i_size) - off else n in
  readi_loop (Z.to_nat (n / BSIZE + 3)) i dst off n 0 [].

Definition source_copy (src : source) (tot m : Z) : K (Z * list Z) :=
  match src with
  | SUser va => either_copyin true (u32 (va + tot)) m
  | SLocal bs => ret (0, slice bs tot m)
  end.

(** Returns the count and the offset reached.  A copy that fails midway has
    still changed the buffer, without logging it. *)
Fixpoint writei_loop (fuel : nat) (i : Z) (src : source) (off n tot : Z)
    : K (Z * Z) :=
  match fuel with
  | O => nofuel
  | S f =>
      if tot <? n then
        addr <- bmap i (off / BSIZE) ;;
        if addr =? 0 then ret (tot, off) else
        ip <- get_inode i ;;
        bp <- bread ip.(i_dev) addr ;;
        let m := Z.min (n - tot) (BSIZE - off mod BSIZE) in
        r <- source_copy src tot m ;;
        set_data bp (fun d => splice d (off mod BSIZE) r.2) ;;
        if r.1 =? -1 then brelse bp ;; ret (tot, off) else
        log_write bp ;;
        brelse bp ;;
        writei_loop f i src (off + m) n (tot + m)
      else ret (tot, off)
  end.
Definition writei (i : Z) (src : source) (off n : Z) : K Z :=
  ip <- get_inode i ;;
  if (off >? ip.(i_size)) || (u32 (off + n) <? off) then ret (-1) else
  if off + n >? MAXFILE * BSIZE then ret (-1) else
  r <- writei_loop (Z.to_nat (n / BSIZE + 3)) i src off n 0 ;;
  upd_inode i (fun ip => if r.2 >? ip.(i_size) then set_i_size r.2 ip else ip) ;;
  iupdate i ;;
  ret r.1.

(** ** Directories *)

(** The inode found and the offset of its entry. *)
Fixpoint dirlookup_loop (n : nat) (dp : Z) (name : list Z) (off : Z)
    : K (option (Z * Z)) :=
  match n with
  | O => nofuel
  | S n' =>
      d <- get_inode dp ;;
      if off <? d.(i_size) then
        r <- readi dp DLocal off DIRENT_SIZE ;;
        if negb (r.1 =? DIRENT_SIZE) then panic "dirlookup read" else
        let de := r.2 in
        if de_inum de =? 0 then dirlookup_loop n' dp name (off + DIRENT_SIZE) else
        if namecmp name (de_name de) =? 0 then
          ip <- iget d.(i_dev) (de_inum de) ;;
          ret (Some (ip, off))
        else dirlookup_loop n' dp name (off + DIRENT_SIZE)
      else ret None
  end.
Definition dirlookup (dp : Z) (name : list Z) : K (option (Z * Z)) :=
  d <- get_inode dp ;;
  if negb (d.(i_type) =? T_DIR) then panic "dirlookup not DIR" else
  dirlookup_loop (Z.to_nat (d.(i_size) / DIRENT_SIZE + 2)) dp name 0.

(** The scan for an empty entry: the offset it stops at and the last entry
    read. *)
Fixpoint dirlink_scan (n : nat) (dp off : Z) (de : list Z) : K (Z * list Z) :=
  match n with
  | O => nofuel
  | S n' =>
      d <- get_inode dp ;;
      if off <? d.(i_size) then
        r <- readi dp DLocal off DIRENT_SIZE ;;
        if negb (r.1 =? DIRENT_SIZE) then panic "dirlink read" else
        if de_inum r.2 =? 0 then ret (off, r.2)
        else dirlink_scan n' dp (off + DIRENT_SIZE) r.2
      else ret (off, de)
  end.
Definition dirlink (dp : Z) (name : list Z) (inum : Z) : K Z :=
  r <- dirlookup dp name ;;
  match r with
  | Some (ip, _) => iput ip ;; ret (-1)
  | None =>
      d <- get_inode dp ;;
      e <- dirlink_scan (Z.to_nat (d.(i_size) / DIRENT_SIZE + 2)) dp 0
             (replicate (Z.to_nat DIRENT_SIZE) 0) ;;
      let de := dirent_make e.2 name inum in
      w <- writei dp (SLocal de) e.1 DIRENT_SIZE ;;
      ret (if negb (w =? DIRENT_SIZE) then -1 else 0)
  end.

(** ** Paths *)

Definition slash : Z := 47.

(** Skip leading slashes; a path is its characters before the nul. *)
Fixpoint skip_slashes (path : list Z) : list Z :=
  match path with
  | c :: r => if c =? slash then skip_slashes r else path
  | [] => []
  end.
(** Advance to the next slash or the end: the element and the rest. *)
Fixpoint take_elem (path : list Z) : list Z * list Z :=
  match path with
  | c :: r => if c =? slash then ([], path) else
              let (e, t) := take_elem r in (c :: e, t)
  | [] => ([], [])
  end.

(** [None] is the null pointer; otherwise the new [name] and the rest.  The
    [DIRSIZ] bytes of [name] keep their old content after the nul. *)
Definition skipelem (path name : list Z) : option (list Z * list Z) :=
  let path := skip_slashes path in
  match path with
  | [] => None
  | _ =>
      let (e, t) := take_elem path in
      let len := Z.of_nat (length e) in
      let name' := if len >=? DIRSIZ then take (Z.to_nat DIRSIZ) e
                   else e ++ 0 :: drop (S (length e)) name in
      Some (name', skip_slashes t)
  end.

(** The loop over path elements; the result carries the final [name]. *)
Fixpoint namex_loop (fuel : nat) (ip : Z) (path : list Z) (nameiparent : bool)
    (name : list Z) : K (option Z * list Z) :=
  match fuel with
  | O => nofuel
  | S f =>
      match skipelem path name with
      | None =>
          if nameiparent then iput ip ;; ret (None, name) else ret (Some ip, name)
      | Some (name, path) =>
          ilock ip ;;
          d <- get_inode ip ;;
          if negb (d.(i_type) =? T_DIR) then iunlockput ip ;; ret (None, name) else
          if nameiparent && bool_decide (path = []) then
            iunlock ip ;; ret (Some ip, name)
          else
          next <- dirlookup ip name ;;
          match next with
          | None => iunlockput ip ;; ret (None, name)
          | Some (n, _) => iunlockput ip ;; namex_loop f n path nameiparent name
          end
      end
  end.
Definition namex (path : list Z) (nameiparent : bool) : K (option Z * list Z) :=
  ip <- (if nth 0 path 0 =? slash then iget ROOTDEV ROOTINO
         else p <- curproc ;; pr <- get_proc p ;;
              match pr.(p_cwd) with
              | Some c => idup c
              | None => undefined "idup(0)"
              end) ;;
  namex_loop (S (length path)) ip path nameiparent
    (replicate (Z.to_nat DIRSIZ) 0).

Definition namei (path : list Z) : K (option Z) :=
  r <- namex path false ;; ret r.1.
Definition nameiparent (path : list Z) : K (option Z * list Z) := namex path true.

End fs.
