(* ===== verification/FsInode.v ===== *)
(** * Inodes on disk

    [struct dinode] in its block: what [iupdate] writes [ilock] reads back, and
    the other inodes of the block are left alone. *)

From S2P Require Import Prelude CMem Machine Sv32 Spinlock Kalloc Printf.
From S2P Require Import Sched AddrSpace Sleeplock Bio Codec Log Fs.

(** ** Bytes of a structure *)

Lemma byte_at_put_ne bs off v o : 0 <= off -> 0 <= o -> o <> off -> byte_at (put_byte bs off v) o = byte_at bs o.
Proof. intros. unfold byte_at, put_byte. rewrite list_lookup_insert_ne; [done|lia]. Qed.
Lemma byte_at_put16_ne bs off v o :
  0 <= off -> 0 <= o -> o < off \/ off + 2 <= o -> byte_at (put16 bs off v) o = byte_at bs o.
Proof. intros. unfold put16. by rewrite !byte_at_put_ne by lia. Qed.
Lemma byte_at_put32_ne bs off v o :
  0 <= off -> 0 <= o -> o < off \/ off + 4 <= o -> byte_at (put32 bs off v) o = byte_at bs o.
Proof. intros. unfold put32. by rewrite !byte_at_put16_ne by lia. Qed.
Lemma byte_at_put32s_ne vs : forall bs off o,
  0 <= off -> 0 <= o -> o < off \/ off + 4 * Z.of_nat (length vs) <= o -> byte_at (put32s bs off vs) o = byte_at bs o.
Proof.
  induction vs as [|v vs IH]; intros bs off o H1 H2 Hd; simpl in *; [done|].
  rewrite IH by lia. apply byte_at_put32_ne; lia.
Qed.

Lemma get16_ext bs bs' off :
  (forall i, off <= i < off + 2 -> byte_at bs i = byte_at bs' i) -> get16 bs off = get16 bs' off.
Proof. intros H. unfold get16. by rewrite !H by lia. Qed.
Lemma get32_ext bs bs' off :
  (forall i, off <= i < off + 4 -> byte_at bs i = byte_at bs' i) -> get32 bs off = get32 bs' off.
Proof. intros H. unfold get32. f_equal; [|f_equal]; apply get16_ext; intros; apply H; lia. Qed.
Lemma get32s_ext n : forall bs bs' off,
  (forall i, off <= i < off + 4 * Z.of_nat n -> byte_at bs i = byte_at bs' i) -> get32s n bs off = get32s n bs' off.
Proof.
  induction n as [|n IH]; intros bs bs' off H; simpl; [done|].
  f_equal; [apply get32_ext|apply IH]; intros; apply H; lia.
Qed.

(** ** [struct dinode] *)

Definition set_disk_fields (ip z : inode) : inode :=
  mkInode (i_dev z) (i_inum z) (i_ref z) (i_valid z) (i_type ip) (i_major ip) (i_minor ip) (i_nlink ip)
    (i_size ip) (i_addrs ip).

Definition is_short (x : Z) : Prop := - 2^15 <= x < 2^15.
Definition is_uint (x : Z) : Prop := 0 <= x < 2^32.
(** The fields fit the structure on disk. *)
Record dinode_wf (ip : inode) : Prop := {
  dw_type : is_short (i_type ip);
  dw_major : is_short (i_major ip);
  dw_minor : is_short (i_minor ip);
  dw_nlink : is_short (i_nlink ip);
  dw_size : is_uint (i_size ip);
  dw_len : length (i_addrs ip) = Z.to_nat (NDIRECT + 1);
  dw_addrs : Forall is_uint (i_addrs ip);
}.

Lemma i16_short x : is_short x -> i16 (x mod 2^16) = x.
Proof. unfold is_short, i16. intros. case_match; zlia. Qed.

Lemma dinode_get_ext d d' o z :
  (forall i, o <= i < o + DINODE_SIZE -> byte_at d i = byte_at d' i) -> dinode_get d o z = dinode_get d' o z.
Proof.
  intros H. unfold dinode_get, DINODE_SIZE, di_type, di_major, di_minor, di_nlink, di_size, di_addrs in *.
  f_equal; try (f_equal; apply get16_ext; intros; apply H; lia).
  - apply get32_ext. intros. apply H. lia.
  - apply get32s_ext. intros. apply H. lia.
Qed.

Lemma byte_at_dinode_ne d o ip i :
  0 <= o -> 0 <= i -> length (i_addrs ip) = Z.to_nat (NDIRECT + 1) -> i < o \/ o + DINODE_SIZE <= i ->
  byte_at (dinode_put d o ip) i = byte_at d i.
Proof.
  intros Ho Hi Hl Hd. unfold dinode_put. change (Z.to_nat (NDIRECT + 1)) with 13%nat in Hl.
  unfold DINODE_SIZE, di_type, di_major, di_minor, di_nlink, di_size, di_addrs in *.
  rewrite byte_at_put32s_ne by (rewrite ?Hl; lia). rewrite byte_at_put32_ne by lia.
  by rewrite !byte_at_put16_ne by lia.
Qed.

Lemma dinode_put_length d o ip : length (dinode_put d o ip) = length d.
Proof. unfold dinode_put. by rewrite put32s_length, put32_length, !put16_length. Qed.

Lemma get16_put32s_ne vs : forall bs off o,
  0 <= off -> 0 <= o -> off + 4 * Z.of_nat (length vs) <= o \/ o + 2 <= off ->
  get16 (put32s bs off vs) o = get16 bs o.
Proof. intros. apply get16_ext. intros i Hi. apply byte_at_put32s_ne; lia. Qed.

Lemma dinode_get_put d o ip z :
  dinode_wf ip -> 0 <= o -> o + DINODE_SIZE <= Z.of_nat (length d) ->
  dinode_get (dinode_put d o ip) o z = set_disk_fields ip z.
Proof.
  intros [W1 W2 W3 W4 W5 W6 W7] Ho Hd. change (Z.to_nat (NDIRECT + 1)) with 13%nat in W6.
  assert (E13 : get32s 13 (dinode_put d o ip) (o + di_addrs) = i_addrs ip).
  { rewrite <- W6. unfold dinode_put, di_addrs, DINODE_SIZE in *.
    rewrite get32s_put32s by (rewrite ?put32_length, ?put16_length; lia).
    rewrite <- (list_fmap_id (i_addrs ip)) at 2. apply list_fmap_ext. intros i x Hx. simpl.
    apply (Forall_lookup_1 _ _ _ _ W7) in Hx. unfold is_uint in Hx. by rewrite Z.mod_small. }
  unfold dinode_get. rewrite E13. unfold set_disk_fields, dinode_put.
  unfold DINODE_SIZE, di_type, di_major, di_minor, di_nlink, di_size, di_addrs in *.
  f_equal; rewrite ?get16_put32s_ne, ?get32_put32s_ne by (rewrite ?put32_length, ?put16_length, ?W6; lia).
  5: rewrite get32_put32 by (rewrite ?put16_length; lia); unfold is_uint in W5; by rewrite Z.mod_small.
  all: rewrite get16_put32_ne by (rewrite ?put16_length; lia).
  all: rewrite ?get16_put16_ne by (rewrite ?put16_length; lia).
  all: rewrite get16_put16 by (rewrite ?put16_length; lia); by apply i16_short.
Qed.

(** Inode numbers in a block. *)
Lemma dip_off_range inum : 0 <= inum -> 0 <= dip_off inum /\ dip_off inum + DINODE_SIZE <= BSIZE.
Proof. intros. unfold dip_off, IPB, BSIZE, DINODE_SIZE. change (1024 / 64) with 16. zlia. Qed.
Lemma dip_off_apart sb i j :
  i <> j -> IBLOCK i sb = IBLOCK j sb ->
  dip_off i + DINODE_SIZE <= dip_off j \/ dip_off j + DINODE_SIZE <= dip_off i.
Proof. unfold IBLOCK, dip_off, IPB, BSIZE, DINODE_SIZE. change (1024 / 64) with 16. zlia. Qed.

(** The inode [inum] of a disk with blocks [v]. *)
Definition on_disk (sb : superblock) (v : Z -> list Z) (inum : Z) (z : inode) : inode :=
  dinode_get (v (IBLOCK inum sb)) (dip_off inum) z.
(** Its block with the inode replaced. *)
Definition with_inode (sb : superblock) (v : Z -> list Z) (inum : Z) (ip : inode) : Z -> list Z :=
  fun w => if decide (w = IBLOCK inum sb) then dinode_put (v (IBLOCK inum sb)) (dip_off inum) ip else v w.

Lemma on_disk_with_inode sb v inum ip j z :
  dinode_wf ip -> 0 <= inum -> 0 <= j -> length (v (IBLOCK inum sb)) = Z.to_nat BSIZE ->
  on_disk sb (with_inode sb v inum ip) j z =
    if decide (j = inum) then set_disk_fields ip z else on_disk sb v j z.
Proof.
  intros Hw Hi Hj Hl. pose proof (dip_off_range inum Hi) as [O1 O2]. pose proof (dip_off_range j Hj) as [O3 O4].
  unfold on_disk, with_inode. destruct (decide (j = inum)) as [->|Hne].
  - rewrite decide_True by done. apply dinode_get_put; [done..|]. rewrite Hl. unfold BSIZE in *. lia.
  - destruct (decide (IBLOCK j sb = IBLOCK inum sb)) as [E|E]; [|done]. apply dinode_get_ext.
    intros i Hii. rewrite E. apply byte_at_dinode_ne; [done|lia|apply Hw|].
    destruct (dip_off_apart sb j inum Hne E); lia.
Qed.
