(* ===== verification/FsTx.v ===== *)
(** * Blocks inside a transaction

    Between [begin_op] and [end_op] the file system changes blocks by [bread],
    a store to the buffer, [log_write] and [brelse].  Here these steps are laws
    about one function [v], the content of every block as the process sees it:
    the buffers the process holds, the blocks the transaction has logged and
    the state of the cache are one invariant. *)

From S2P Require Import Prelude CMem Machine Sv32 Spinlock Kalloc Printf PrintfProof.
From S2P Require Import Sched UserMem Sleeplock Bio BioProof Codec Log LogProof Fs.

(** ** The invariant

    [H]: buffers held and the blocks they cache; [L]: blocks logged; [D]: blocks
    changed in a held buffer and not logged yet; [op]: is a transaction open?
    (reading needs none). *)
Definition in_use (L : list Z) (H : gmap Z Z) : gset Z := list_to_set L ∪ map_img H.

Definition one (P : Prop) `{Decision P} : Z := if decide P then 1 else 0.

Record tx (dev : Z) (op : bool) (s : kstate) (pid st : Z) (L : list Z) (H : gmap Z Z) (D : gset Z)
    (v : Z -> list Z) : Prop := {
  tx_inv : binv dev s pid H;
  tx_log : logst dev s st L;
  tx_llog : lock_free s LLog;
  tx_lpr : lock_free s LPr;
  tx_open : op = true -> 1 <= lg_outstanding (k_log s);
  tx_nodup : NoDup L;
  tx_view : forall w, view dev s w = v w;
  tx_rc : forall w, rc dev s w = one (w ∈ L) + one (w ∈ (map_img H : gset Z));
  tx_busy : busy s = size (in_use L H);
  tx_clean : forall w, w ∉ L -> w ∉ D -> v w = disk_block (k_disk s) w;
}.

(** The rest of the machine is unchanged, and so is the disk. *)
Definition tframe (s s' : kstate) : Prop := lframe s s' /\ k_disk s' = k_disk s.

#[export] Instance tframe_preorder : PreOrder tframe.
Proof.
  split.
  - intros s. split; [reflexivity|done].
  - intros s1 s2 s3 [A1 A2] [B1 B2]. split; [by etrans|congruence].
Qed.

Lemma bframe_tframe s s' : bframe s s' -> k_disk s' = k_disk s -> tframe s s'.
Proof. intros A B. split; [by apply bframe_lframe|done]. Qed.
Lemma tframe_sb s s' : tframe s s' -> k_sb s' = k_sb s.
Proof. by intros [(sl & bs & d & j & ps & _ & _ & ->) _]. Qed.
Lemma tframe_inodes s s' : tframe s s' -> k_inodes s' = k_inodes s.
Proof. by intros [(sl & bs & d & j & ps & _ & _ & ->) _]. Qed.
Lemma tframe_lock s s' lk : tframe s s' -> lock_free s lk -> lock_free s' lk.
Proof. intros [F _]. by apply lframe_lock. Qed.
Lemma bframe_lk s s' lk : bframe s s' -> lock_free s lk -> lock_free s' lk.
Proof. intros A. apply lframe_lock. by apply bframe_lframe. Qed.
Lemma bframe_klog s s' : bframe s s' -> k_log s' = k_log s.
Proof. by intros (sl & bs & d & j & ps & _ & _ & ->). Qed.

Lemma elem_of_logged L bno w : w ∈ logged L bno <-> w = bno \/ w ∈ L.
Proof. unfold logged. case_decide; set_solver. Qed.
Lemma logged_nodup L bno : NoDup L -> NoDup (logged L bno).
Proof.
  intros HL. unfold logged. case_decide as Hin; [done|]. apply NoDup_app.
  split; [done|]. split; [set_solver|apply NoDup_singleton].
Qed.
Lemma length_set L : NoDup L -> length L = size (list_to_set L : gset Z).
Proof. intros HL. by rewrite size_list_to_set. Qed.

(** ** The steps *)

Section steps.
Context `{W : WaitFuel, BD : BlockDev, !BlockDevOk BD} (dev : Z) (op : bool).
Hypothesis Hfuel : (0 < wait_fuel)%nat.
Implicit Types (L : list Z) (H : gmap Z Z) (D : gset Z) (v : Z -> list Z).

Lemma img_insert H b bno w :
  H !! b = None -> w ∈ (map_img (<[b := bno]> H) : gset Z) <-> w = bno \/ w ∈ (map_img H : gset Z).
Proof. clear. intros Hb. rewrite map_img_insert_notin by done. set_solver. Qed.

Lemma in_use_insert L H b bno :
  H !! b = None -> in_use L (<[b := bno]> H) = {[bno]} ∪ in_use L H.
Proof. clear. intros Hb. unfold in_use. rewrite map_img_insert_notin_L by done. set_solver. Qed.

Lemma size_add (x : Z) (X : gset Z) :
  size ({[x]} ∪ X) = (size X + if decide (x ∈ X) then 0 else 1)%nat.
Proof. clear.
  case_decide as Hx.
  - replace ({[x]} ∪ X) with X by set_solver. lia.
  - rewrite size_union by set_solver. rewrite size_singleton. lia.
Qed.

Lemma size_union_le (X Y : gset Z) : (size (X ∪ Y) <= size X + size Y)%nat.
Proof. clear.
  rewrite size_union_alt. apply Nat.add_le_mono_l, subseteq_size. set_solver.
Qed.

Lemma one_True (P : Prop) `{Decision P} : P -> one P = 1.
Proof. clear. intros HP. unfold one. by rewrite decide_True. Qed.
Lemma one_False (P : Prop) `{Decision P} : ~ P -> one P = 0.
Proof. clear. intros HP. unfold one. by rewrite decide_False. Qed.
Lemma one_range (P : Prop) `{Decision P} : 0 <= one P <= 1.
Proof. clear. unfold one. case_decide; lia. Qed.
Lemma one_iff (P Q : Prop) `{Decision P, Decision Q} : (P <-> Q) -> one P = one Q.
Proof. clear. intros HPQ. unfold one. repeat case_decide; tauto. Qed.

Lemma tx_rc_free s pid st L H D v bno :
  tx dev op s pid st L H D v -> bno ∉ (map_img H : gset Z) -> rc dev s bno = one (bno ∈ L).
Proof. clear. intros HT Hn. rewrite (tx_rc _ _ _ _ _ _ _ _ _ HT), (one_False _ Hn). lia. Qed.

Lemma tx_bread s pid st L H D v bno :
  tx dev op s pid st L H D v -> bno ∉ (map_img H : gset Z) ->
  (size ({[bno]} ∪ in_use L H) <= Z.to_nat NBUF)%nat ->
  runs (bread dev bno s) (fun b s' =>
    H !! b = None /\ tx dev op s' pid st L (<[b := bno]> H) D v /\ tframe s s').
Proof.
  intros HT Hn Hroom. pose proof (tx_rc_free _ _ _ _ _ _ _ _ HT Hn) as Hrc.
  destruct HT as [A1 A2 A3 A4 A5 A0 A6 A7 A8 A9]. rewrite size_add in Hroom.
  assert (Hin : bno ∈ in_use L H <-> bno ∈ L) by (unfold in_use; set_solver).
  eapply runs_mono; [apply (bread_spec dev s pid H bno A1 Hfuel)|].
  - intros i Hi. apply Hn. by eapply elem_of_map_img_2.
  - rewrite Hrc. pose proof (one_range (bno ∈ L)). lia.
  - rewrite Hrc. intros Ho. destruct (decide (bno ∈ L)) as [Hl|Hl]; [by rewrite (one_True _ Hl) in Ho|].
    rewrite A8. rewrite decide_False in Hroom by tauto. lia.
  - intros b s' [B1 B2 B3 B4 B5 B6 B7]. split; [done|]. split; [|by apply bframe_tframe].
    split; try done.
    + apply (logst_log dev s); [by apply bframe_klog|done].
    + by eapply bframe_lk.
    + by eapply bframe_lk.
    + by rewrite (bframe_klog _ _ B3).
    + intros w. by rewrite B5.
    + intros w. rewrite B6, A7. rewrite (one_iff _ _ (img_insert H b bno w B1)).
      destruct (decide (w = bno)) as [->|Hw]; [rewrite (one_False _ Hn), (one_True (bno = bno \/ _)) by tauto; lia|].
      f_equal. apply one_iff. tauto.
    + rewrite B7, A8, in_use_insert, size_add, Hrc by done. unfold one.
      repeat case_decide; tauto || lia.
    + intros w Hw Hd. rewrite B4. auto.
Qed.

Lemma tx_get_buf s pid st L H D v b bno :
  tx dev op s pid st L H D v -> H !! b = Some bno ->
  exists x, get_buf b s = Ok x s /\ b_data x = v bno.
Proof. clear Hfuel.
  intros [A1 _ _ _ _ _ A6 _ _ _] Hb.
  destruct (held_entry dev s pid H b bno A1 Hb) as (x & nm & [Hr Hx] & _ & _ & Hd & _).
  exists x. split; [apply get_buf_eq; [lia|done]|]. by rewrite <- A6.
Qed.

Lemma tx_set_data s pid st L H D v b bno f :
  tx dev op s pid st L H D v -> H !! b = Some bno ->
  runs (set_data b f s) (fun _ s' =>
    tx dev op s' pid st L H ({[bno]} ∪ D) (bput v bno (f (v bno))) /\ tframe s s').
Proof. clear Hfuel.
  intros [A1 A2 A3 A4 A5 A0 A6 A7 A8 A9] Hb.
  eapply runs_mono; [by apply (set_data_spec dev s pid H b bno f)|].
  intros [] s' [B1 B2 B3 B4 B5 B6]. split; [|by apply bframe_tframe]. split; try done.
  - apply (logst_log dev s); [by apply bframe_klog|done].
  - by eapply bframe_lk.
  - by eapply bframe_lk.
  - by rewrite (bframe_klog _ _ B2).
  - intros w. rewrite B4. unfold bput. by rewrite !A6.
  - intros w. by rewrite B5.
  - by rewrite B6.
  - intros w Hw Hd. unfold bput. rewrite decide_False by set_solver. rewrite B3. apply A9; set_solver.
Qed.

Lemma tx_log_write s pid st L H D v b bno :
  tx dev true s pid st L H D v -> H !! b = Some bno -> (length L < Z.to_nat LOGBLOCKS)%nat ->
  runs (log_write b s) (fun _ s' =>
    tx dev true s' pid st (logged L bno) H (D ∖ {[bno]}) v /\ tframe s s').
Proof. clear Hfuel.
  intros [A1 A2 A3 A4 A5 A0 A6 A7 A8 A9] Hb Hlen.
  assert (Himg : bno ∈ (map_img H : gset Z)) by (by eapply elem_of_map_img_2).
  pose proof (elem_of_logged L bno) as Hin.
  specialize (A5 eq_refl).
  eapply runs_mono; [apply (log_write_spec dev s pid H b bno st L); try done|].
  { rewrite A7. pose proof (one_range (bno ∈ L)).
    pose proof (one_range (bno ∈ (map_img H : gset Z))). lia. }
  intros [] s' (B0 & B1 & B2 & B3 & B4 & B5 & B6 & B7). split; [|by split]. split; try done.
  - by eapply lframe_lock.
  - by eapply lframe_lock.
  - by rewrite B5.
  - by apply logged_nodup.
  - intros w. by rewrite B6.
  - intros w. rewrite B7, A7, (one_iff _ _ (Hin w)).
    destruct (decide (w = bno /\ bno ∉ L)) as [Hw|Hw].
    + destruct Hw as [-> Hw]. rewrite (one_False _ Hw), (one_True (bno = bno \/ _)) by tauto. lia.
    + f_equal. apply one_iff. split; [by right|]. intros [->|]; [|done].
      destruct (decide (bno ∈ L)); tauto.
  - rewrite B1, A8. f_equal. unfold in_use. apply set_eq. intros w.
    rewrite !elem_of_union, !elem_of_list_to_set, Hin. set_solver.
  - intros w Hw Hd. rewrite Hin in Hw. rewrite B4. apply A9; set_solver.
Qed.

Lemma tx_brelse s pid st L H D v b bno :
  tx dev op s pid st L (<[b := bno]> H) D v -> H !! b = None -> bno ∉ (map_img H : gset Z) -> bno ∉ D ->
  runs (brelse b s) (fun _ s' => tx dev op s' pid st L H D v /\ tframe s s').
Proof. clear Hfuel.
  intros [A1 A2 A3 A4 A5 A0 A6 A7 A8 A9] Hb Hn Hd.
  assert (Hrc : rc dev s bno = one (bno ∈ L) + 1).
  { rewrite A7, (one_iff _ _ (img_insert H b bno bno Hb)), (one_True (bno = bno \/ _)) by tauto. done. }
  eapply runs_mono; [apply (brelse_spec dev s pid _ b bno A1); [apply lookup_insert_eq|]|].
  { rewrite Hrc. intros Hr. rewrite A6. apply A9; [|done]. intros Hl. rewrite (one_True _ Hl) in Hr. lia. }
  intros [] s' [B1 B2 B3 B4 B5 B6]. rewrite delete_insert_id in B1 by done.
  split; [|by apply bframe_tframe]. split; try done.
  - apply (logst_log dev s); [by apply bframe_klog|done].
  - by eapply bframe_lk.
  - by eapply bframe_lk.
  - by rewrite (bframe_klog _ _ B2).
  - intros w. by rewrite B4.
  - intros w. rewrite B5, A7, (one_iff _ _ (img_insert H b bno w Hb)). destruct (decide (w = bno)) as [->|Hw].
    + rewrite (one_False _ Hn), (one_True (bno = bno \/ _)) by tauto. lia.
    + f_equal. apply one_iff. tauto.
  - rewrite A8, in_use_insert, size_add, Hrc in B6 by done.
    assert (Hin : bno ∈ in_use L H <-> bno ∈ L) by (unfold in_use; set_solver).
    unfold one in B6. repeat case_decide; tauto || lia.
  - intros w Hw Hwd. rewrite B3. auto.
Qed.

(** A message on the console. *)
Lemma tx_printf s pid st L H D v fmt ap cs :
  tx dev op s pid st L H D v -> render (S (length fmt)) fmt ap = Some cs ->
  runs (printf fmt ap s) (fun _ s' => tx dev op s' pid st L H D v /\ tframe s s').
Proof. clear Hfuel.
  intros [A1 A2 A3 A4 A5 A0 A6 A7 A8 A9] Hr. destruct (bi_world _ _ _ _ A1) as [(Hc & _) _ _ _].
  eapply runs_mono; [by eapply printf_spec|]. intros [] s' (j & Hj & ->).
  set (cs' := mjoin _). split; [split; try done|].
  - apply (binv_intena dev (sent s cs')); [by exists j|]. by apply binv_uart.
  - destruct A2 as [B1 B2 B3 B4 B5 B6]. by split.
  - split; [|done]. exists (k_sleep s), (k_bufs s), (k_disk s), j, (k_procs s).
    split; [done|]. split; [done|]. by destruct s.
Qed.
End steps.

Section update.
Context `{W : WaitFuel, BD : BlockDev, !BlockDevOk BD} (dev : Z).

(** Change a held block, log it and release it. *)
Lemma tx_update {A} s pid st L H v b bno f (k : K A) Q :
  tx dev true s pid st L (<[b := bno]> H) ∅ v -> H !! b = None -> bno ∉ (map_img H : gset Z) ->
  (length L < Z.to_nat LOGBLOCKS)%nat ->
  (forall s', tx dev true s' pid st (logged L bno) H ∅ (bput v bno (f (v bno))) -> tframe s s' ->
     runs (k s') Q) ->
  runs ((set_data b f ;; log_write b ;; brelse b ;; k) s) Q.
Proof.
  intros HT Hb Hn Hl Hk. pose proof (lookup_insert_eq H b bno) as Hb'. apply runs_bind.
  eapply runs_mono; [by apply (tx_set_data dev true s pid st L (<[b := bno]> H) ∅ v b bno f)|].
  intros [] s1 [HT1 F1]. apply runs_bind.
  eapply runs_mono; [by eapply (tx_log_write dev s1)|]. intros [] s2 [HT2 F2].
  replace (({[bno]} ∪ ∅) ∖ {[bno]}) with (∅ : gset Z) in HT2 by set_solver.
  apply runs_bind. eapply runs_mono; [eapply (tx_brelse dev true s2); [exact HT2|done|done|set_solver]|].
  intros [] s3 [HT3 F3]. apply Hk; [done|]. by do 2 (etrans; [eassumption|]).
Qed.

Lemma tx_update_last s pid st L H v b bno f :
  tx dev true s pid st L (<[b := bno]> H) ∅ v -> H !! b = None -> bno ∉ (map_img H : gset Z) ->
  (length L < Z.to_nat LOGBLOCKS)%nat ->
  runs ((set_data b f ;; log_write b ;; brelse b) s) (fun _ s' =>
    tx dev true s' pid st (logged L bno) H ∅ (bput v bno (f (v bno))) /\ tframe s s').
Proof.
  intros HT Hb Hn Hl. set (Q := fun (_ : unit) s' => _).
  assert (Hr : runs ((set_data b f ;; log_write b ;; brelse b ;; ret tt) s) Q)
    by (by apply (tx_update s pid st L H v b bno f (ret tt) Q)).
  clearbody Q. revert Hr. unfold bind. destruct (set_data b f s) as [[] s1| |]; try done. simpl.
  destruct (log_write b s1) as [[] s2| |]; try done. simpl.
  by destruct (brelse b s2) as [[] s3| |].
Qed.

(** Read a block. *)
Lemma tx_read {A} op s pid st L H v bno (k : Z -> K A) Q :
  (0 < wait_fuel)%nat -> tx dev op s pid st L H ∅ v -> bno ∉ (map_img H : gset Z) ->
  (size ({[bno]} ∪ in_use L H) <= Z.to_nat NBUF)%nat ->
  (forall b x s', H !! b = None -> tx dev op s' pid st L (<[b := bno]> H) ∅ v -> tframe s s' ->
     get_buf b s' = Ok x s' -> b_data x = v bno -> runs (k b s') Q) ->
  runs ((b <- bread dev bno ;; k b) s) Q.
Proof.
  intros Hfuel HT Hn Hr Hk. apply runs_bind. eapply runs_mono; [by apply (tx_bread dev op)|].
  intros b s' (Hb & HT' & F).
  destruct (tx_get_buf dev op s' pid st L _ ∅ v b bno HT' (lookup_insert_eq _ _ _)) as (x & Hx & Hd).
  by eapply Hk.
Qed.
End update.
