(* ===== verification/FsBitmap.v ===== *)
(** * Block allocation

    [balloc] and [bfree] of [fs.c] on the bitmap: which block is found, which
    bits and which blocks change, and how much of the log a call may use. *)

From S2P Require Import Prelude CMem Machine Sv32 Spinlock Kalloc Printf PrintfProof.
From S2P Require Import Sched UserMem Sleeplock Bio BioProof Codec Log LogProof Fs FsTx.

(** ** Bits of a block *)

Lemma bit_clear_testbit d bi :
  bit_clear d bi = negb (Z.testbit (byte_at d (bi / 8)) (bi mod 8)).
Proof.
  pose proof (has_testbit (byte_at d (bi / 8)) (bi mod 8) ltac:(apply Z.mod_pos_bound; lia)) as Ht.
  rewrite <- Ht. unfold has. by rewrite negb_involutive.
Qed.

(** A byte is stored modulo 256, which keeps its bits. *)
Lemma bit_clear_put d bi bi' x :
  0 <= bi -> 0 <= bi' -> (Z.to_nat (bi / 8) < length d)%nat ->
  bit_clear (put_byte d (bi / 8) x) bi' =
    if decide (bi' / 8 = bi / 8) then negb (Z.testbit x (bi' mod 8)) else bit_clear d bi'.
Proof.
  intros H1 H2 Hl. rewrite !bit_clear_testbit.
  rewrite byte_at_put by (try apply Z.div_pos; lia). case_decide; [|done].
  f_equal. change 256 with (2^8). apply Z.mod_pow2_bits_low. pose proof (Z.mod_pos_bound bi' 8). lia.
Qed.

Lemma same_byte bi bi' : bi' / 8 = bi / 8 -> bi' mod 8 = bi mod 8 -> bi' = bi.
Proof. intros. rewrite (Z.div_mod bi 8), (Z.div_mod bi' 8) by lia. congruence. Qed.

Lemma bit_clear_set d bi bi' :
  0 <= bi -> 0 <= bi' -> (Z.to_nat (bi / 8) < length d)%nat ->
  bit_clear (bit_set d bi) bi' = if decide (bi' = bi) then false else bit_clear d bi'.
Proof.
  intros H1 H2 Hl. unfold bit_set. rewrite bit_clear_put by done.
  pose proof (Z.mod_pos_bound bi 8). pose proof (Z.mod_pos_bound bi' 8).
  rewrite Z.shiftl_1_l, Z.lor_spec, Z.pow2_bits_eqb by lia. rewrite bit_clear_testbit.
  destruct (decide (bi' = bi)) as [->|Hne].
  - rewrite decide_True, Z.eqb_refl, orb_true_r by done. done.
  - destruct (decide (bi' / 8 = bi / 8)) as [E|E]; [|done]. rewrite E.
    destruct (Z.eqb_spec (bi mod 8) (bi' mod 8)); [|by rewrite orb_false_r].
    exfalso. apply Hne, same_byte; congruence.
Qed.

Lemma bit_clear_unset d bi bi' :
  0 <= bi -> 0 <= bi' -> (Z.to_nat (bi / 8) < length d)%nat ->
  bit_clear (bit_unset d bi) bi' = if decide (bi' = bi) then true else bit_clear d bi'.
Proof.
  intros H1 H2 Hl. unfold bit_unset. rewrite bit_clear_put by done.
  pose proof (Z.mod_pos_bound bi 8). pose proof (Z.mod_pos_bound bi' 8).
  rewrite Z.shiftl_1_l, Z.land_spec, Z.lnot_spec, Z.pow2_bits_eqb by lia. rewrite bit_clear_testbit.
  destruct (decide (bi' = bi)) as [->|Hne].
  - rewrite decide_True, Z.eqb_refl, andb_false_r by done. done.
  - destruct (decide (bi' / 8 = bi / 8)) as [E|E]; [|done]. rewrite E.
    destruct (Z.eqb_spec (bi mod 8) (bi' mod 8)); [|by rewrite andb_true_r].
    exfalso. apply Hne, same_byte; congruence.
Qed.

Lemma bit_set_length d bi : length (bit_set d bi) = length d.
Proof. apply put_byte_length. Qed.
Lemma bit_unset_length d bi : length (bit_unset d bi) = length d.
Proof. apply put_byte_length. Qed.

(** The scan of one bitmap block. *)
Lemma find_clear_spec n d b size : forall bi,
  0 <= bi -> bi + Z.of_nat n = BPB ->
  match find_clear n d b bi size with
  | Some x => bi <= x < BPB /\ b + x < size /\ bit_clear d x = true /\
              forall y, bi <= y < x -> bit_clear d y = false
  | None => forall y, bi <= y < BPB -> b + y < size -> bit_clear d y = false
  end.
Proof.
  induction n as [|n IH]; intros bi H0 Hn; simpl; [intros; lia|].
  replace (bi <? BPB) with true by lia. simpl.
  destruct (Z.ltb_spec (b + bi) size) as [Hs|Hs]; [|intros; lia].
  destruct (bit_clear d bi) eqn:E; [split; [lia|]; split; [lia|]; split; [done|intros; lia]|].
  specialize (IH (bi + 1) ltac:(lia) ltac:(lia)).
  assert (Hb : forall y, bi <= y -> y = bi \/ bi + 1 <= y) by lia.
  destruct (find_clear n d b (bi + 1) size) as [x|].
  - destruct IH as (I1 & I2 & I3 & I4). split; [lia|]. split; [done|]. split; [done|].
    intros y Hy. destruct (Hb y) as [->|]; [lia|done|]. apply I4. lia.
  - intros y Hy Hys. destruct (Hb y) as [->|]; [lia|done|]. apply IH; lia.
Qed.

(** ** The bitmap

    [used sb v b]: block [b]'s bit is set.  The bitmap blocks follow the inode
    blocks; the data blocks follow them. *)
Definition nbitmap (sb : superblock) : Z := (sb_size sb + BPB - 1) / BPB.
Definition bitmaps (sb : superblock) : gset Z :=
  list_to_set (seqZ (sb_bmapstart sb) (nbitmap sb)).
Definition datastart (sb : superblock) : Z := sb_bmapstart sb + nbitmap sb.
Definition used (sb : superblock) (v : Z -> list Z) (b : Z) : Prop :=
  bit_clear (v (BBLOCK b sb)) (b mod BPB) = false.
#[export] Instance used_dec sb v b : Decision (used sb v b).
Proof. unfold used. apply _. Defined.

(** The bitmap describes a disk: blocks have their size, and everything before
    the data blocks is marked in use. *)
Record mapped (sb : superblock) (v : Z -> list Z) : Prop := {
  mp_start : 0 < sb_bmapstart sb;
  mp_size : datastart sb <= sb_size sb < 2^32;
  mp_len : forall w, length (v w) = Z.to_nat BSIZE;
  mp_meta : forall b, 0 <= b < datastart sb -> used sb v b;
}.

Lemma nbitmap_nonneg sb v : mapped sb v -> 0 <= nbitmap sb.
Proof.
  intros Hm. pose proof (mp_start _ _ Hm). pose proof (mp_size _ _ Hm).
  unfold datastart, nbitmap, BPB, BSIZE in *. destruct (Z_le_gt_dec 0 (sb_size sb)); zlia.
Qed.
Lemma datastart_pos sb v : mapped sb v -> 0 < datastart sb.
Proof.
  intros Hm. pose proof (mp_start _ _ Hm). pose proof (nbitmap_nonneg sb v Hm). unfold datastart. lia.
Qed.

(** The blocks a transaction may have to hold, the bitmap among them. *)
Definition load (sb : superblock) (L : list Z) (H : gmap Z Z) : nat := size (bitmaps sb ∪ in_use L H).

Lemma BPB_pos : 0 < BPB.
Proof. done. Qed.
Lemma BBLOCK_bitmap sb b : 0 <= b < sb_size sb -> BBLOCK b sb ∈ bitmaps sb.
Proof.
  intros Hb. unfold bitmaps, BBLOCK. apply elem_of_list_to_set, elem_of_seqZ.
  unfold nbitmap, BPB, BSIZE in *. split; [zlia|]. zlia.
Qed.
Lemma bitmap_range sb w : w ∈ bitmaps sb <-> sb_bmapstart sb <= w < datastart sb.
Proof. unfold bitmaps, datastart. rewrite elem_of_list_to_set, elem_of_seqZ. done. Qed.

Lemma same_bit b b' : 0 <= b -> 0 <= b' -> b / BPB = b' / BPB -> b mod BPB = b' mod BPB -> b = b'.
Proof.
  intros. rewrite (Z.div_mod b BPB), (Z.div_mod b' BPB) by (unfold BPB, BSIZE; lia). congruence.
Qed.

Lemma bit_in_block b (d : list Z) : length d = Z.to_nat BSIZE -> (Z.to_nat (b mod BPB / 8) < length d)%nat.
Proof. intros ->. unfold BPB, BSIZE. zlia. Qed.

(** Changing the bit of block [a]. *)
Definition mark (sb : superblock) (v : Z -> list Z) (a : Z) : Z -> list Z :=
  bput v (BBLOCK a sb) (bit_set (v (BBLOCK a sb)) (a mod BPB)).
Definition unmark (sb : superblock) (v : Z -> list Z) (a : Z) : Z -> list Z :=
  bput v (BBLOCK a sb) (bit_unset (v (BBLOCK a sb)) (a mod BPB)).

Section bits.
Context (sb : superblock) (v : Z -> list Z).
Hypothesis (Hlen : forall w, length (v w) = Z.to_nat BSIZE).

Lemma used_flip (f : list Z -> Z -> list Z) (c : bool) a b :
  (forall d bi bi', 0 <= bi -> 0 <= bi' -> (Z.to_nat (bi / 8) < length d)%nat ->
     bit_clear (f d bi) bi' = if decide (bi' = bi) then c else bit_clear d bi') ->
  0 <= a -> 0 <= b ->
  bit_clear (bput v (BBLOCK a sb) (f (v (BBLOCK a sb)) (a mod BPB)) (BBLOCK b sb)) (b mod BPB) =
    if decide (b = a) then c else bit_clear (v (BBLOCK b sb)) (b mod BPB).
Proof.
  intros Hf Ha Hb. unfold bput. pose proof BPB_pos.
  pose proof (Z.mod_pos_bound a BPB) as Hma. pose proof (Z.mod_pos_bound b BPB) as Hmb.
  destruct (decide (BBLOCK b sb = BBLOCK a sb)) as [E|E].
  - rewrite Hf, E by (try apply bit_in_block; auto; lia).
    destruct (decide (b = a)) as [->|Hne]; [by rewrite decide_True|].
    rewrite decide_False; [done|]. intros Em. apply Hne, same_bit; [done|done| |done].
    unfold BBLOCK in E. lia.
  - rewrite decide_False; [done|]. by intros ->.
Qed.

Lemma used_mark a b : 0 <= a -> 0 <= b -> used sb (mark sb v a) b <-> b = a \/ used sb v b.
Proof.
  intros Ha Hb. unfold used, mark. rewrite (used_flip bit_set false) by (done || apply bit_clear_set).
  case_decide; tauto.
Qed.
Lemma used_unmark a b : 0 <= a -> 0 <= b -> used sb (unmark sb v a) b <-> b <> a /\ used sb v b.
Proof.
  intros Ha Hb. unfold used, unmark. rewrite (used_flip bit_unset true) by (done || apply bit_clear_unset).
  case_decide; [split; [done|tauto]|tauto].
Qed.

Lemma mark_length a w : length (mark sb v a w) = Z.to_nat BSIZE.
Proof. unfold mark, bput. case_decide; [by rewrite bit_set_length|done]. Qed.
Lemma mark_other a w : 0 <= a < sb_size sb -> w ∉ bitmaps sb -> mark sb v a w = v w.
Proof. intros Ha Hw. unfold mark, bput. rewrite decide_False; [done|]. intros ->. by apply Hw, BBLOCK_bitmap. Qed.
End bits.

(** Only the bitmap block counts. *)
Lemma used_ext sb v v' b : v' (BBLOCK b sb) = v (BBLOCK b sb) -> used sb v' b <-> used sb v b.
Proof. intros E. unfold used. by rewrite E. Qed.

(** ** [bzero], [balloc], [bfree] *)

Definition out_of_blocks : list Z := cstr "balloc: out of blocks" ++ [10].

Lemma load_length sb L H : NoDup L -> (length L <= load sb L H)%nat.
Proof. intros HL. rewrite (length_set L HL). apply subseteq_size. unfold in_use. set_solver. Qed.
Lemma load_logged sb L H w : (load sb (logged L w) H <= load sb L H + 1)%nat.
Proof.
  unfold load. etrans; [apply (subseteq_size _ ({[w]} ∪ (bitmaps sb ∪ in_use L H)))|].
  - intros x. unfold in_use. rewrite !elem_of_union, !elem_of_list_to_set, elem_of_logged. set_solver.
  - rewrite size_add. case_decide; lia.
Qed.
Lemma load_logged_in sb L H w :
  w ∈ bitmaps sb ∪ in_use L H -> load sb (logged L w) H = load sb L H.
Proof.
  intros Hw. unfold load. f_equal. apply set_eq. intros x. unfold in_use in *.
  rewrite !elem_of_union, !elem_of_list_to_set, elem_of_logged in *.
  split; [intros [?|[[->|?]|?]]; tauto|tauto].
Qed.
Lemma load_room sb L H w :
  w ∈ bitmaps sb -> (size ({[w]} ∪ in_use L H) <= load sb L H)%nat.
Proof. intros Hw. apply subseteq_size. set_solver. Qed.

Definition alloced (sb : superblock) (v : Z -> list Z) (a : Z) : Z -> list Z :=
  bput (mark sb v a) a zero_block.
Definition alloc_log (sb : superblock) (L : list Z) (a : Z) : list Z :=
  logged (logged L (BBLOCK a sb)) a.

Lemma load_alloc sb L H a :
  0 <= a < sb_size sb -> (load sb (alloc_log sb L a) H <= load sb L H + 1)%nat.
Proof.
  intros Ha. unfold alloc_log. etrans; [apply load_logged|].
  rewrite load_logged_in; [done|]. apply elem_of_union_l. by apply BBLOCK_bitmap.
Qed.

Section alloc.
Context `{W : WaitFuel, BD : BlockDev, !BlockDevOk BD} (dev : Z) (sb : superblock).
Hypothesis Hfuel : (0 < wait_fuel)%nat.

Lemma bzero_spec pid st L H v s a :
  tx dev true s pid st L H ∅ v -> a ∉ (map_img H : gset Z) -> (length L < Z.to_nat LOGBLOCKS)%nat ->
  (size ({[a]} ∪ in_use L H) <= Z.to_nat NBUF)%nat ->
  runs (bzero dev a s) (fun _ s' =>
    tx dev true s' pid st (logged L a) H ∅ (bput v a zero_block) /\ tframe s s').
Proof.
  intros HT Hn Hl Hr. unfold bzero. apply (tx_read dev true s pid st L H v); [done..|].
  intros b x s' Hb HT' F _ _. eapply runs_mono; [by eapply tx_update_last|].
  intros [] s2 [HT2 F2]. split; [exact HT2|by etrans].
Qed.

Context (pid st : Z) (L : list Z) (H : gmap Z Z) (v : Z -> list Z).

(** What [balloc] returns: the lowest free block, now marked and zeroed, or 0
    when every block is in use. *)
Definition alloc_post (s : kstate) (a : Z) (s' : kstate) : Prop :=
  tframe s s' /\
  (a = 0 /\ (forall b, 0 <= b < sb_size sb -> used sb v b) /\ tx dev true s' pid st L H ∅ v \/
   datastart sb <= a < sb_size sb /\ ~ used sb v a /\ (forall b, 0 <= b < a -> used sb v b) /\
   tx dev true s' pid st (alloc_log sb L a) H ∅ (alloced sb v a)).

Hypothesis Hm : mapped sb v.
Hypothesis Hheld : forall w, w ∈ (map_img H : gset Z) -> 0 <= w -> used sb v w /\ w ∉ bitmaps sb.
Hypothesis Hroom : (load sb L H < Z.to_nat LOGBLOCKS)%nat.

Lemma free_not_held a : 0 <= a -> ~ used sb v a -> a ∉ (map_img H : gset Z).
Proof. clear Hfuel. intros Ha Hn Hin. by apply Hn, Hheld. Qed.
Lemma bitmap_not_held b : 0 <= b < sb_size sb -> BBLOCK b sb ∉ (map_img H : gset Z).
Proof. clear Hfuel.
  intros Hb Hin. pose proof (BBLOCK_bitmap sb b Hb) as Hbm.
  pose proof (mp_start _ _ Hm). apply Hheld in Hin as [_ Hin]; [done|].
  apply bitmap_range in Hbm. lia.
Qed.

Lemma balloc_take s b bi x s1 bp :
  0 <= b -> (exists k, b = k * BPB) -> 0 <= bi < BPB -> b + bi < sb_size sb ->
  ~ used sb v (b + bi) -> (forall y, 0 <= y < b + bi -> used sb v y) ->
  H !! bp = None -> tx dev true s1 pid st L (<[bp := BBLOCK b sb]> H) ∅ v -> tframe s s1 ->
  get_buf bp s1 = Ok x s1 -> b_data x = v (BBLOCK b sb) ->
  runs ((set_data bp (fun d => bit_set d bi) ;; log_write bp ;; brelse bp ;;
         bzero dev (b + bi) ;; ret (b + bi)) s1) (alloc_post s).
Proof.
  intros Hb0 (k & Hk) Hbi Hsz Hfree Hlow Hbp HT F Hx Hd.
  assert (EB : BBLOCK (b + bi) sb = BBLOCK b sb).
  { unfold BBLOCK. f_equal. subst b. unfold BPB, BSIZE in *. zlia. }
  assert (EM : (b + bi) mod BPB = bi) by (subst b; unfold BPB, BSIZE in *; zlia).
  assert (Hin : 0 <= b + bi < sb_size sb) by lia.
  assert (Hlt : (length L < Z.to_nat LOGBLOCKS)%nat).
  { pose proof (load_length sb L H (tx_nodup _ _ _ _ _ _ _ _ _ HT)). lia. }
  pose proof (bitmap_not_held _ Hin) as Hnb. rewrite EB in Hnb.
  eapply tx_update; [done..|]. intros s2 HT2 F2.
  set (L1 := logged L (BBLOCK b sb)) in *.
  assert (Hl1 : (load sb L1 H = load sb L H)%nat)
    by (apply load_logged_in, elem_of_union_l; rewrite <- EB; by apply BBLOCK_bitmap).
  apply runs_bind. eapply runs_mono; [apply (bzero_spec _ _ _ _ _ s2 (b + bi) HT2)|].
  - apply free_not_held; [lia|done].
  - pose proof (load_length sb L1 H (tx_nodup _ _ _ _ _ _ _ _ _ HT2)). lia.
  - transitivity (load sb L H + 1)%nat; [|unfold NBUF, LOGBLOCKS, MAXOPBLOCKS in *; lia].
    rewrite <- Hl1. rewrite size_add. pose proof (subseteq_size (in_use L1 H) (bitmaps sb ∪ in_use L1 H)
      ltac:(set_solver)). unfold load. case_decide; lia.
  - intros [] s3 [HT3 F3]. cbn [runs ret]. split; [by do 2 (etrans; [eassumption|])|]. right.
    split.
    + split; [|lia]. destruct (decide (datastart sb <= b + bi)); [done|]. exfalso.
      apply Hfree, (mp_meta _ _ Hm). lia.
    + split; [done|]. split; [done|]. unfold alloc_log, alloced, mark. rewrite EB, EM. exact HT3.
Qed.

Lemma balloc_loop_spec s n : forall b,
  tx dev true s pid st L H ∅ v -> k_sb s = sb ->
  0 <= b -> (exists k, b = k * BPB) -> (forall y, 0 <= y < b -> y < sb_size sb -> used sb v y) ->
  (0 < n)%nat -> sb_size sb <= b + (Z.of_nat n - 1) * BPB ->
  runs (balloc_loop n dev b s) (alloc_post s).
Proof.
  revert s. induction n as [|n IH]; intros s b HT Hsb Hb0 Hk Hlow Hn Hsz; [lia|].
  cbn [balloc_loop]. rewrite (bind_ok _ _ s sb s) by (unfold gets; by rewrite Hsb).
  destruct (Z.ltb_spec b (sb_size sb)) as [Hb|Hb].
  - assert (Hin : 0 <= b < sb_size sb) by lia.
    eapply tx_read; [done|done|by apply bitmap_not_held| |].
    { etrans; [apply (load_room sb), BBLOCK_bitmap; done|]. unfold NBUF, LOGBLOCKS in *; lia. }
    intros bp x s1 Hbp HT1 F1 Hx Hd. rewrite (bind_ok _ _ _ _ _ Hx), Hd.
    pose proof (find_clear_spec (Z.to_nat BPB) (v (BBLOCK b sb)) b (sb_size sb) 0
      ltac:(lia) ltac:(done)) as Hf.
    assert (Hu : forall y, 0 <= y < BPB -> used sb v (b + y) <-> bit_clear (v (BBLOCK b sb)) y = false).
    { intros y Hy. destruct Hk as [k ->]. unfold used, BBLOCK.
      replace ((k * BPB + y) / BPB) with (k * BPB / BPB) by (unfold BPB, BSIZE in *; zlia).
      by replace ((k * BPB + y) mod BPB) with y by (unfold BPB, BSIZE in *; zlia). }
    assert (Hspan : forall y, 0 <= y -> y < b \/ y = b + (y - b) /\ 0 <= y - b) by lia.
    destruct (find_clear _ _ _ _ _) as [bi|].
    + destruct Hf as (F2 & F3 & F4 & F5). eapply balloc_take; try done.
      * rewrite Hu by done. by rewrite F4.
      * intros y Hy. destruct (Hspan y) as [|[-> ?]]; [lia|apply Hlow; lia|]. apply Hu; [lia|].
        apply F5. lia.
    + apply runs_bind. eapply runs_mono; [eapply tx_brelse; [exact HT1|done|by apply bitmap_not_held|set_solver]|].
      intros [] s2 [HT2 F2].
      assert (F12 : tframe s s2) by (by etrans).
      eapply runs_mono; [apply IH; try done|].
      * by rewrite (tframe_sb _ _ F12).
      * pose proof BPB_pos. lia.
      * destruct Hk as [k ->]. exists (k + 1). lia.
      * intros y Hy Hys. destruct (Hspan y) as [|[-> ?]]; [lia|by apply Hlow; lia|].
        apply Hu; [lia|]. apply Hf; lia.
      * pose proof BPB_pos. destruct n; lia.
      * lia.
      * intros a s3 [F3 Hpost]. split; [by etrans|done].
  - apply runs_bind.
    destruct (render (S (length out_of_blocks)) out_of_blocks []) as [cs|] eqn:Hr; [|by vm_compute in Hr].
    eapply runs_mono; [by eapply (tx_printf dev true)|]. intros [] s1 [HT1 F1]. cbn [runs ret].
    split; [done|]. left. split; [done|]. split; [|done]. intros y Hy. apply Hlow; lia.
Qed.

Lemma balloc_spec s :
  tx dev true s pid st L H ∅ v -> k_sb s = sb -> runs (balloc dev s) (alloc_post s).
Proof.
  intros HT Hsb. unfold balloc. rewrite (bind_ok _ _ s sb s) by (unfold gets; by rewrite Hsb).
  pose proof (mp_size _ _ Hm). pose proof (datastart_pos sb v Hm).
  apply balloc_loop_spec; try done.
  - by exists 0.
  - intros; lia.
  - unfold BPB, BSIZE in *. zlia.
  - unfold BPB, BSIZE in *. zlia.
Qed.

(** Freeing clears the block's bit and nothing else; a free block panics. *)
Lemma bfree_spec s b :
  tx dev true s pid st L H ∅ v -> k_sb s = sb -> 0 <= b < sb_size sb -> used sb v b ->
  runs (bfree dev b s) (fun _ s' =>
    tx dev true s' pid st (logged L (BBLOCK b sb)) H ∅ (unmark sb v b) /\ tframe s s').
Proof.
  intros HT Hsb Hb Hu. unfold bfree. rewrite (bind_ok _ _ s sb s) by (unfold gets; by rewrite Hsb).
  eapply tx_read; [done|done|by apply bitmap_not_held| |].
  { etrans; [apply (load_room sb), BBLOCK_bitmap; done|]. unfold NBUF, LOGBLOCKS in *; lia. }
  intros bp x s1 Hbp HT1 F1 Hx Hd. cbv zeta. rewrite (bind_ok _ _ _ _ _ Hx), Hd.
  unfold used in Hu. rewrite Hu.
  eapply runs_mono; [eapply tx_update_last; [exact HT1|done|by apply bitmap_not_held|]|].
  { pose proof (load_length sb L H (tx_nodup _ _ _ _ _ _ _ _ _ HT)). lia. }
  intros [] s2 [HT2 F2]. split; [exact HT2|by etrans].
Qed.

Lemma bfree_free s b :
  tx dev true s pid st L H ∅ v -> k_sb s = sb -> 0 <= b < sb_size sb -> ~ used sb v b ->
  bfree dev b s = Stop (Panicked "freeing free block").
Proof.
  intros HT Hsb Hb Hu. unfold bfree. rewrite (bind_ok _ _ s sb s) by (unfold gets; by rewrite Hsb).
  destruct (proj1 (runs_ok _ _) (tx_bread dev true Hfuel s pid st L H ∅ v (BBLOCK b sb) HT
    (bitmap_not_held b Hb) ltac:(etrans; [apply (load_room sb), BBLOCK_bitmap; done|];
    unfold NBUF, LOGBLOCKS in *; lia))) as (bp & s1 & E & Hbp & HT1 & F1).
  rewrite (bind_ok _ _ _ _ _ E). cbv zeta.
  destruct (tx_get_buf dev true s1 pid st L _ ∅ v bp _ HT1 (lookup_insert_eq _ _ _)) as (x & Hx & Hd).
  rewrite (bind_ok _ _ _ _ _ Hx), Hd. unfold used in Hu.
  by rewrite (not_false_is_true _ Hu).
Qed.
End alloc.

(** ** The bitmap after a call *)

Section after.
Context (sb : superblock) (v : Z -> list Z) (a : Z).
Hypothesis (Hm : mapped sb v) (Ha : datastart sb <= a < sb_size sb).

Lemma data_not_bitmap : a ∉ bitmaps sb.
Proof. rewrite bitmap_range. lia. Qed.
Lemma data_pos : 0 < a.
Proof. pose proof (datastart_pos sb v Hm). lia. Qed.

Lemma used_alloced b : 0 <= b < sb_size sb -> used sb (alloced sb v a) b <-> b = a \/ used sb v b.
Proof.
  intros Hb. pose proof data_pos. rewrite <- (used_mark sb v (mp_len _ _ Hm) a b) by lia.
  apply used_ext. unfold alloced, bput. rewrite decide_False; [done|].
  intros E. apply data_not_bitmap. rewrite <- E. by apply BBLOCK_bitmap.
Qed.

Lemma mapped_alloced : mapped sb (alloced sb v a).
Proof.
  pose proof (mp_size _ _ Hm). pose proof Hm as [M1 M2 M3 M4]. split; try done.
  - intros w. unfold alloced, bput. case_decide; [by apply length_replicate|]. by apply mark_length.
  - intros b Hb. apply used_alloced; [lia|]. right. by apply M4.
Qed.

(** Nothing else changes. *)
Lemma alloced_other w : w <> a -> w ∉ bitmaps sb -> alloced sb v a w = v w.
Proof.
  intros Hne Hw. pose proof data_pos. unfold alloced, bput. rewrite decide_False by done.
  apply mark_other; [lia|done].
Qed.
Lemma alloced_eq : alloced sb v a a = zero_block.
Proof. unfold alloced, bput. by rewrite decide_True. Qed.

Lemma used_unmarked b : 0 <= b < sb_size sb -> used sb (unmark sb v a) b <-> b <> a /\ used sb v b.
Proof. intros Hb. pose proof data_pos. apply used_unmark; [apply (mp_len _ _ Hm)|lia|lia]. Qed.
End after.

(** A block outside the bitmap. *)
Lemma bput_eq v w d : bput v w d w = d.
Proof. unfold bput. by rewrite decide_True. Qed.
Lemma bput_ne v w d x : x <> w -> bput v w d x = v x.
Proof. intros. unfold bput. by rewrite decide_False. Qed.
Lemma used_bput sb v w d b :
  w ∉ bitmaps sb -> 0 <= b < sb_size sb -> used sb (bput v w d) b <-> used sb v b.
Proof.
  intros Hw Hb. apply used_ext, bput_ne. intros E. apply Hw. rewrite <- E. by apply BBLOCK_bitmap.
Qed.
Lemma mapped_bput sb v w d :
  mapped sb v -> w ∉ bitmaps sb -> length d = Z.to_nat BSIZE -> mapped sb (bput v w d).
Proof.
  intros [M1 M2 M3 M4] Hw Hd. split; try done.
  - intros x. unfold bput. by case_decide.
  - intros b Hb. apply used_bput; [done|lia|auto].
Qed.

(** The log and the bitmap together. *)
Lemma load_bound sb L : NoDup L -> 0 <= nbitmap sb -> (load sb L ∅ <= length L + Z.to_nat (nbitmap sb))%nat.
Proof.
  intros HL Hn. unfold load, in_use. rewrite map_img_empty_L, (right_id_L ∅ _).
  etrans; [apply size_union_le|]. rewrite <- (length_set L HL). unfold bitmaps.
  rewrite size_list_to_set by apply NoDup_seqZ. rewrite length_seqZ. lia.
Qed.
Lemma logged_length L b : (length (logged L b) <= length L + 1)%nat.
Proof. unfold logged. case_decide; rewrite ?length_app; simpl; lia. Qed.
Lemma alloc_log_length sb L a : (length (alloc_log sb L a) <= length L + 2)%nat.
Proof.
  unfold alloc_log. pose proof (logged_length (logged L (BBLOCK a sb)) a).
  pose proof (logged_length L (BBLOCK a sb)). lia.
Qed.
