(* ===== verification/FsFile.v ===== *)
(** * Contents of a file

    [bmap], [readi] and [writei] of [fs.c].  A file is an inode and the blocks it
    names, directly or through its indirect block; its content is a function
    from offsets to bytes.  Finding a block may allocate it, which leaves the
    content as it was; writing changes the bytes written and no others. *)

From S2P Require Import Prelude CMem Machine Sv32 Spinlock Kalloc Printf PrintfProof.
From S2P Require Import Sched UserMem Sleeplock Bio BioProof Codec Log LogProof Fs FsTx FsBitmap.

(** ** The blocks of a file *)

Definition iblk (ip : inode) : Z := nth (Z.to_nat NDIRECT) (i_addrs ip) 0.
Definition fblk (v : Z -> list Z) (ip : inode) (bn : Z) : Z :=
  if bn <? NDIRECT then nth (Z.to_nat bn) (i_addrs ip) 0
  else if iblk ip =? 0 then 0 else get32 (v (iblk ip)) (4 * (bn - NDIRECT)).
Definition fbyte (v : Z -> list Z) (ip : inode) (k : Z) : Z :=
  let a := fblk v ip (k / BSIZE) in if a =? 0 then 0 else byte_at (v a) (k mod BSIZE).

Lemma MAXFILE_eq : MAXFILE = 268.
Proof. done. Qed.

Definition bnum (bn : Z) : Prop := 0 <= bn < MAXFILE.
Definition data_block (sb : superblock) (v : Z -> list Z) (w : Z) : Prop :=
  datastart sb <= w < sb_size sb /\ used sb v w.
(** [w] is a data block of the file, or its indirect block. *)
Definition owns (v : Z -> list Z) (ip : inode) (w : Z) : Prop :=
  w <> 0 /\ (w = iblk ip \/ exists bn, bnum bn /\ fblk v ip bn = w).

Record file_ok (sb : superblock) (v : Z -> list Z) (ip : inode) : Prop := {
  fo_len : length (i_addrs ip) = Z.to_nat (NDIRECT + 1);
  fo_data : forall bn, bnum bn -> fblk v ip bn <> 0 -> data_block sb v (fblk v ip bn);
  fo_ind : iblk ip <> 0 -> data_block sb v (iblk ip);
  fo_inj : forall bn bn', bnum bn -> bnum bn' -> fblk v ip bn <> 0 ->
    fblk v ip bn = fblk v ip bn' -> bn = bn';
  fo_apart : forall bn, bnum bn -> iblk ip <> 0 -> fblk v ip bn <> iblk ip;
}.

(** ** How a file changes

    Its inode only in the block numbers; those it had stay; new ones were free;
    blocks of others are not touched. *)
Record changed (sb : superblock) (v : Z -> list Z) (ip : inode) (v' : Z -> list Z) (ip' : inode)
    : Prop := {
  ch_map : mapped sb v';
  ch_ok : file_ok sb v' ip';
  ch_ip : ip' = set_i_addrs (i_addrs ip') ip;
  ch_keep : forall bn, bnum bn -> fblk v ip bn <> 0 -> fblk v' ip' bn = fblk v ip bn;
  ch_ind : iblk ip <> 0 -> iblk ip' = iblk ip;
  ch_used : forall w, 0 <= w < sb_size sb -> used sb v w -> used sb v' w;
  ch_new : forall w, 0 <= w < sb_size sb -> used sb v' w -> used sb v w \/ owns v' ip' w;
  ch_owns : forall w, owns v' ip' w -> owns v ip w \/ ~ used sb v w;
  ch_frame : forall w, 0 <= w < sb_size sb -> used sb v w -> w ∉ bitmaps sb -> ~ owns v ip w -> v' w = v w;
}.

Lemma data_owned sb v ip w : file_ok sb v ip -> owns v ip w -> data_block sb v w.
Proof. intros [_ F2 F3 _ _] [H0 [->|(bn & Hbn & <-)]]; auto. Qed.

Lemma changed_refl sb v ip : mapped sb v -> file_ok sb v ip -> changed sb v ip v ip.
Proof. intros Hm Hf. split; auto. by destruct ip. Qed.

Lemma changed_trans sb v ip v1 ip1 v2 ip2 :
  mapped sb v -> changed sb v ip v1 ip1 -> changed sb v1 ip1 v2 ip2 -> changed sb v ip v2 ip2.
Proof.
  intros Hm [A1 A2 A3 A4 A5 A6 A7 A8 A9] [B1 B2 B3 B4 B5 B6 B7 B8 B9].
  assert (Hown : forall w, owns v1 ip1 w -> owns v2 ip2 w).
  { intros w [H0 [->|(bn & Hbn & <-)]]; split; try done; [left|right].
    - by rewrite B5.
    - exists bn. by rewrite B4. }
  assert (Hrange : forall w, owns v2 ip2 w -> 0 <= w < sb_size sb).
  { intros w [[? ?] _]%(data_owned sb); [|done].
    pose proof (datastart_pos sb v Hm). lia. }
  split; auto.
  - rewrite B3, A3. by destruct ip.
  - intros bn Hbn H0. rewrite B4, A4; auto. by rewrite A4.
  - intros H0. rewrite B5, A5; auto. by rewrite A5.
  - intros w Hw Hu. destruct (B7 w Hw Hu) as [Hu1|]; [|by right].
    destruct (A7 w Hw Hu1) as [|Ho]; [by left|right; auto].
  - intros w Ho. destruct (B8 w Ho) as [Ho1|Hn]; [auto|]. right. intros Hu. apply Hn, A6; auto.
  - intros w Hw Hu Hb Ho. rewrite B9; auto. intros Ho1. apply A8 in Ho1 as [|]; auto.
Qed.

(** One block added, as the number of block [bn] or as the indirect block. *)
Definition placed (v : Z -> list Z) (ip : inode) (a : Z) (v' : Z -> list Z) (ip' : inode) : Prop :=
  (iblk ip' = iblk ip /\ exists bn, bnum bn /\ fblk v ip bn = 0 /\
     forall bn', bnum bn' -> fblk v' ip' bn' = if decide (bn' = bn) then a else fblk v ip bn') \/
  (iblk ip = 0 /\ iblk ip' = a /\ forall bn', bnum bn' -> fblk v' ip' bn' = fblk v ip bn').

Section place.
Context (sb : superblock) (v : Z -> list Z) (ip : inode) (a : Z) (v' : Z -> list Z) (ip' : inode).
Hypothesis (Hm : mapped sb v) (Hm' : mapped sb v') (Hf : file_ok sb v ip).
Hypothesis (Ha : datastart sb <= a < sb_size sb) (Hfree : ~ used sb v a).
Hypothesis (Hused : forall w, 0 <= w < sb_size sb -> used sb v' w <-> w = a \/ used sb v w).
Hypothesis (Hzero : v' a = zero_block).
Hypothesis (Hsame : forall w, w <> a -> w ∉ bitmaps sb -> w = 0 \/ w <> iblk ip -> v' w = v w).
Hypothesis (Hip : ip' = set_i_addrs (i_addrs ip') ip).
Hypothesis (Hlen : length (i_addrs ip') = Z.to_nat (NDIRECT + 1)).
Hypothesis (Hpl : placed v ip a v' ip').

Lemma owned_not_a w : owns v ip w -> w <> a.
Proof. intros Ho ->. apply (data_owned sb) in Ho as [_ Hu]; done. Qed.

Lemma placed_owns w : owns v' ip' w <-> w = a \/ owns v ip w.
Proof.
  pose proof (datastart_pos sb v Hm) as Hd. destruct Hpl as [(Ei & bn & Hbn & E0 & E)|(E0 & Ei & E)]; unfold owns; rewrite Ei.
  - split.
    + intros [H0 [->|(b & Hb & <-)]]; [right; auto|]. rewrite E in H0 |- * by done.
      case_decide; [by left|]. right. eauto.
    + intros [->|[H0 [->|(b & Hb & <-)]]].
      * split; [lia|]. right. exists bn. rewrite E, decide_True by done. done.
      * auto.
      * split; [done|]. right. exists b. rewrite E, decide_False by (done || congruence). done.
  - rewrite E0. split.
    + intros [H0 [->|(b & Hb & <-)]]; [by left|]. rewrite E in * by done. right. eauto.
    + intros [->|[H0 [->|(b & Hb & <-)]]]; [split; [lia|auto]|done|]. split; [done|]. right. exists b.
      by rewrite E.
Qed.

Lemma placed_data w : data_block sb v w -> data_block sb v' w.
Proof. intros [? ?]. pose proof (datastart_pos sb v Hm). split; [done|]. apply Hused; [lia|auto]. Qed.

Lemma placed_ok : file_ok sb v' ip'.
Proof.
  pose proof (datastart_pos sb v Hm) as Hd. pose proof Hf as [F1 F2 F3 F4 F5].
  assert (Hda : data_block sb v' a) by (split; [done|]; apply Hused; [lia|auto]).
  assert (Hno : forall bn, bnum bn -> fblk v ip bn <> 0 -> fblk v ip bn <> a).
  { intros bn Hbn H0. apply owned_not_a. split; eauto. }
  assert (Hna : iblk ip <> 0 -> iblk ip <> a) by (intros H0; apply owned_not_a; split; auto).
  destruct Hpl as [(Ei & bn & Hbn & E0 & E)|(E0 & Ei & E)]; split; try done.
  - intros b Hb. rewrite E by done. case_decide; [done|]. intros. apply placed_data; auto.
  - rewrite Ei. intros. apply placed_data; auto.
  - intros b b' Hb Hb'. rewrite !E by done. repeat case_decide; try congruence; intros Hz Hq.
    + destruct (decide (fblk v ip b' = 0)); [lia|]. exfalso. by apply (Hno b').
    + exfalso. by apply (Hno b).
    + auto.
  - intros b Hb. rewrite E, Ei by done. case_decide; [|auto]. intros H0 Hq. by apply Hna.
  - intros b Hb. rewrite E by done. intros. apply placed_data; auto.
  - rewrite Ei. done.
  - intros b b' Hb Hb'. rewrite !E by done. auto.
  - intros b Hb _. rewrite E, Ei by done. destruct (decide (fblk v ip b = 0)); [lia|auto].
Qed.

Lemma placed_changed : changed sb v ip v' ip'.
Proof.
  pose proof (datastart_pos sb v Hm) as Hd. split; try done.
  - apply placed_ok.
  - intros bn Hbn H0. destruct Hpl as [(Ei & b & Hb & E0 & E)|(E0 & Ei & E)]; rewrite E by done; [|done].
    rewrite decide_False; [done|]. by intros ->.
  - intros H0. destruct Hpl as [(Ei & _)|(E0 & _)]; [done|congruence].
  - intros w Hw Hu. apply Hused; auto.
  - intros w Hw [->|Hu]%Hused; [right|by left|done]. apply placed_owns. by left.
  - intros w [->|Ho]%placed_owns; auto.
  - intros w Hw Hu Hb Ho. apply Hsame; [congruence|done|]. destruct (decide (w = 0)); [by left|right].
    intros ->. apply Ho. split; auto.
Qed.

Lemma byte_at_zero k : byte_at zero_block k = 0.
Proof. clear. unfold byte_at, zero_block. destruct (replicate _ _ !! _) eqn:E; [|done].
  by apply lookup_replicate in E as [-> _]. Qed.

(** The content is the same. *)
Lemma placed_fbyte k : bnum (k / BSIZE) -> fbyte v' ip' k = fbyte v ip k.
Proof.
  intros Hk. pose proof (datastart_pos sb v Hm) as Hd. pose proof Hf as [F1 F2 F3 F4 F5]. unfold fbyte.
  assert (Hkeep : fblk v ip (k / BSIZE) <> 0 -> v' (fblk v ip (k / BSIZE)) = v (fblk v ip (k / BSIZE))).
  { intros H0. pose proof (F2 _ Hk H0) as [Hr _]. apply Hsame.
    - apply owned_not_a. split; eauto.
    - rewrite bitmap_range. lia.
    - destruct (decide (iblk ip = 0)) as [Ez|]; [right; by rewrite Ez|right; auto]. }
  destruct Hpl as [(Ei & b & Hb & E0 & E)|(E0 & Ei & E)]; rewrite E by done; [case_decide as Hkb|].
  - rewrite Hkb, E0. simpl. rewrite Hzero, byte_at_zero. by destruct (a =? 0).
  - destruct (Z.eqb_spec (fblk v ip (k / BSIZE)) 0); [done|]. by rewrite Hkeep.
  - destruct (Z.eqb_spec (fblk v ip (k / BSIZE)) 0); [done|]. by rewrite Hkeep.
Qed.
End place.

(** ** The three ways [bmap] adds a block *)

Definition with_addr (k : Z) (a : Z) (ip : inode) : inode :=
  set_i_addrs (<[Z.to_nat k := a]> (i_addrs ip)) ip.

Lemma nth_insert (l : list Z) i j x :
  (i < length l)%nat -> nth j (<[i := x]> l) 0 = if decide (j = i) then x else nth j l 0.
Proof.
  intros Hi. rewrite !nth_lookup. case_decide as Hj.
  - subst. by rewrite list_lookup_insert_eq.
  - by rewrite list_lookup_insert_ne.
Qed.

Section grow.
Context (sb : superblock) (v : Z -> list Z) (ip : inode) (a : Z).
Hypothesis (Hm : mapped sb v) (Hf : file_ok sb v ip).
Hypothesis (Ha : datastart sb <= a < sb_size sb) (Hfree : ~ used sb v a).

Lemma with_addr_nth k j :
  0 <= k <= NDIRECT -> 0 <= j -> nth (Z.to_nat j) (i_addrs (with_addr k a ip)) 0 =
    if decide (j = k) then a else nth (Z.to_nat j) (i_addrs ip) 0.
Proof.
  intros Hk Hj. unfold with_addr. cbn [i_addrs set_i_addrs].
  rewrite nth_insert by (rewrite (fo_len _ _ _ Hf); lia).
  destruct (decide (j = k)) as [->|]; [by rewrite decide_True|]. rewrite decide_False by lia. done.
Qed.
Lemma with_addr_length k : length (i_addrs (with_addr k a ip)) = Z.to_nat (NDIRECT + 1).
Proof. unfold with_addr. cbn [i_addrs set_i_addrs]. rewrite length_insert. apply Hf. Qed.

Lemma ind_kept : iblk ip <> 0 -> alloced sb v a (iblk ip) = v (iblk ip).
Proof.
  intros H0. pose proof (fo_ind _ _ _ Hf H0) as [Hr Hu]. apply (alloced_other sb v a Hm Ha).
  - intros E. apply Hfree. by rewrite <- E.
  - rewrite bitmap_range. lia.
Qed.

Lemma grow_direct bn :
  0 <= bn < NDIRECT -> fblk v ip bn = 0 ->
  let v' := alloced sb v a in let ip' := with_addr bn a ip in
  fblk v' ip' bn = a /\ changed sb v ip v' ip' /\ forall k, bnum (k / BSIZE) -> fbyte v' ip' k = fbyte v ip k.
Proof.
  intros Hbn H0 v' ip'.
  assert (Ei : iblk ip' = iblk ip).
  { unfold iblk, ip'. rewrite with_addr_nth by (unfold NDIRECT in *; lia).
    rewrite decide_False by (unfold NDIRECT in *; lia). done. }
  assert (Hall : forall b, bnum b -> fblk v' ip' b = if decide (b = bn) then a else fblk v ip b).
  { intros b [Hb _]. unfold fblk. rewrite Ei. unfold ip' at 1.
    rewrite with_addr_nth by (unfold NDIRECT in *; lia).
    destruct (Z.ltb_spec b NDIRECT); [done|]. rewrite decide_False by lia.
    destruct (Z.eqb_spec (iblk ip) 0); [done|]. unfold v'. by rewrite ind_kept. }
  assert (Hbn' : bnum bn) by (unfold bnum, NDIRECT in *; rewrite ?MAXFILE_eq in *; lia).
  assert (Hpl : placed v ip a v' ip') by (left; eauto 6).
  pose proof (mapped_alloced sb v a Hm Ha) as Hm'.
  pose proof (used_alloced sb v a Hm Ha) as Hu. pose proof (alloced_eq sb v a) as Hz.
  assert (Hs : forall w, w <> a -> w ∉ bitmaps sb -> w = 0 \/ w <> iblk ip -> v' w = v w)
    by (intros; by apply alloced_other).
  assert (Hl : length (i_addrs ip') = Z.to_nat (NDIRECT + 1)) by apply with_addr_length.
  split; [by rewrite Hall, decide_True|]. split; [|intros k Hk]; [by apply (placed_changed sb v ip a)|by apply (placed_fbyte sb v ip a)].
Qed.

Lemma get32_zero_block k : get32 zero_block k = 0.
Proof. clear. unfold get32, get16. by rewrite !byte_at_zero. Qed.

Lemma grow_indirect :
  iblk ip = 0 ->
  let v' := alloced sb v a in let ip' := with_addr NDIRECT a ip in
  iblk ip' = a /\ changed sb v ip v' ip' /\ forall k, bnum (k / BSIZE) -> fbyte v' ip' k = fbyte v ip k.
Proof.
  intros H0 v' ip'. pose proof (datastart_pos sb v Hm) as Hd. pose proof (alloced_eq sb v a) as Hz.
  assert (Ei : iblk ip' = a).
  { unfold iblk, ip'. rewrite with_addr_nth by (unfold NDIRECT; lia). by rewrite decide_True. }
  assert (Hpl : placed v ip a v' ip').
  { right. split; [done|]. split; [done|]. intros b [Hb _]. unfold fblk. rewrite Ei, H0. unfold ip' at 1.
    rewrite with_addr_nth by (unfold NDIRECT in *; lia).
    destruct (Z.ltb_spec b NDIRECT); [by rewrite decide_False by lia|].
    destruct (Z.eqb_spec a 0); [done|]. unfold v'. by rewrite Hz, get32_zero_block. }
  pose proof (mapped_alloced sb v a Hm Ha) as Hm'. pose proof (used_alloced sb v a Hm Ha) as Hu.
  assert (Hs : forall w, w <> a -> w ∉ bitmaps sb -> w = 0 \/ w <> iblk ip -> v' w = v w)
    by (intros; by apply alloced_other).
  assert (Hl : length (i_addrs ip') = Z.to_nat (NDIRECT + 1)) by apply with_addr_length.
  split; [done|]. split; [|intros k Hk]; [by apply (placed_changed sb v ip a)|by apply (placed_fbyte sb v ip a)].
Qed.

Lemma grow_entry bn :
  NDIRECT <= bn < MAXFILE -> iblk ip <> 0 -> fblk v ip bn = 0 ->
  let v' := bput (alloced sb v a) (iblk ip) (put32 (v (iblk ip)) (4 * (bn - NDIRECT)) a) in
  fblk v' ip bn = a /\ changed sb v ip v' ip /\ forall k, bnum (k / BSIZE) -> fbyte v' ip k = fbyte v ip k.
Proof.
  intros Hbn Hi H0 v'. pose proof (datastart_pos sb v Hm) as Hd. pose proof (mp_size _ _ Hm) as Hsz.
  pose proof (fo_ind _ _ _ Hf Hi) as [Hir Hiu].
  assert (Hne : a <> iblk ip) by (intros E; apply Hfree; by rewrite E).
  assert (Hib : iblk ip ∉ bitmaps sb) by (rewrite bitmap_range; lia).
  assert (Hoff : forall b, NDIRECT <= b < MAXFILE ->
    0 <= 4 * (b - NDIRECT) /\ (Z.to_nat (4 * (b - NDIRECT)) + 4 <= length (v (iblk ip)))%nat).
  { intros b Hb. rewrite (mp_len _ _ Hm). rewrite MAXFILE_eq in *. unfold NDIRECT, BSIZE in *. lia. }
  assert (Hall : forall b, bnum b -> fblk v' ip b = if decide (b = bn) then a else fblk v ip b).
  { intros b [Hb Hb']. unfold fblk.
    destruct (Z.ltb_spec b NDIRECT); [by rewrite decide_False by lia|].
    destruct (Z.eqb_spec (iblk ip) 0); [done|]. unfold v'. rewrite bput_eq.
    destruct (Hoff b) as [O1 O2]; [lia|]. destruct (Hoff bn) as [O3 O4]; [lia|].
    case_decide as Hbb; [subst b; rewrite get32_put32, Z.mod_small by lia; done|].
    rewrite get32_put32_ne by lia. done. }
  assert (Hbn' : bnum bn) by (unfold bnum, NDIRECT in *; rewrite ?MAXFILE_eq in *; lia).
  assert (Hpl : placed v ip a v' ip) by (left; eauto 6).
  assert (Hm' : mapped sb v').
  { apply mapped_bput; [by apply mapped_alloced|done|]. rewrite put32_length. apply (mp_len _ _ Hm). }
  assert (Hu : forall w, 0 <= w < sb_size sb -> used sb v' w <-> w = a \/ used sb v w)
    by (intros w Hw; unfold v'; rewrite used_bput by done; by apply used_alloced).
  assert (Hz : v' a = zero_block) by (unfold v'; rewrite bput_ne by done; apply alloced_eq).
  assert (Hs : forall w, w <> a -> w ∉ bitmaps sb -> w = 0 \/ w <> iblk ip -> v' w = v w).
  { intros w Hw Hb Hw'. unfold v'. rewrite bput_ne by (destruct Hw'; [congruence|done]).
    by apply alloced_other. }
  assert (Hip : ip = set_i_addrs (i_addrs ip) ip) by (by destruct ip).
  assert (Hl : length (i_addrs ip) = Z.to_nat (NDIRECT + 1)) by apply Hf.
  split; [by rewrite Hall, decide_True|]. split; [|intros k Hk]; [by apply (placed_changed sb v ip a)|by apply (placed_fbyte sb v ip a)].
Qed.
End grow.

(** ** Writing part of a data block *)

Section write.
Context (sb : superblock) (v : Z -> list Z) (ip : inode) (off : Z) (new : list Z).
Hypothesis (Hm : mapped sb v) (Hf : file_ok sb v ip).
Hypothesis (Hoff : 0 <= off) (Hbn : bnum (off / BSIZE)) (Ha : fblk v ip (off / BSIZE) <> 0).
Hypothesis (Hfit : off mod BSIZE + Z.of_nat (length new) <= BSIZE).
Let a := fblk v ip (off / BSIZE).
Let v' := bput v a (splice (v a) (off mod BSIZE) new).

Lemma write_bitmap : a ∉ bitmaps sb.
Proof. pose proof (fo_data _ _ _ Hf _ Hbn Ha) as [Hr _]. fold a in Hr. rewrite bitmap_range. lia. Qed.

Lemma write_fblk bn : fblk v' ip bn = fblk v ip bn.
Proof.
  unfold fblk. destruct (bn <? NDIRECT); [done|]. destruct (Z.eqb_spec (iblk ip) 0) as [|Hi]; [done|].
  unfold v'. rewrite bput_ne; [done|]. intros E. by apply (fo_apart _ _ _ Hf _ Hbn Hi).
Qed.
Lemma write_owns w : owns v' ip w <-> owns v ip w.
Proof. unfold owns. by setoid_rewrite write_fblk. Qed.

Lemma write_used w : 0 <= w < sb_size sb -> used sb v' w <-> used sb v w.
Proof. intros Hw. apply used_bput; [apply write_bitmap|done]. Qed.

Lemma splice_fits : (Z.to_nat (off mod BSIZE) + length new <= length (v a))%nat.
Proof. rewrite (mp_len _ _ Hm). unfold BSIZE in *. pose proof (Z.mod_pos_bound off 1024). lia. Qed.

Lemma write_changed : changed sb v ip v' ip.
Proof.
  pose proof (datastart_pos sb v Hm) as Hd. pose proof Hf as [F1 F2 F3 F4 F5].
  assert (Hdb : forall w, data_block sb v w -> data_block sb v' w)
    by (intros w [? ?]; split; [done|]; apply write_used; [lia|done]).
  split; try done.
  - apply mapped_bput; [done|apply write_bitmap|]. rewrite splice_length; [apply (mp_len _ _ Hm)|apply splice_fits].
  - split; try done; try (setoid_rewrite write_fblk); auto.
  - by destruct ip.
  - intros bn _ _. apply write_fblk.
  - intros w Hw. by apply write_used.
  - intros w Hw Hu. left. by apply write_used.
  - intros w Ho. left. by apply write_owns.
  - intros w Hw Hu Hb Ho. unfold v'. apply bput_ne. intros ->. apply Ho. split; [done|]. right. eauto.
Qed.

Lemma write_fbyte k :
  0 <= k -> bnum (k / BSIZE) -> fbyte v' ip k =
    if decide (off <= k < off + Z.of_nat (length new)) then byte_at new (k - off) else fbyte v ip k.
Proof.
  intros Hk Hkb. unfold fbyte. rewrite write_fblk.
  assert (HB : 0 < BSIZE) by done.
  pose proof (Z.div_mod off BSIZE ltac:(lia)) as Eo. pose proof (Z.div_mod k BSIZE ltac:(lia)) as Ek.
  pose proof (Z.mod_pos_bound off BSIZE HB). pose proof (Z.mod_pos_bound k BSIZE HB).
  destruct (decide (k / BSIZE = off / BSIZE)) as [E|E].
  - rewrite E. fold a. destruct (Z.eqb_spec a 0); [done|]. unfold v'. rewrite bput_eq.
    rewrite byte_at_splice by (apply splice_fits || lia).
    destruct (decide (off <= k < _)), (decide (off mod BSIZE <= k mod BSIZE < _)); try (f_equal; lia); nia.
  - rewrite decide_False by nia.
    destruct (Z.eqb_spec (fblk v ip (k / BSIZE)) 0) as [|Hne]; [done|]. unfold v'. rewrite bput_ne; [done|].
    intros Ea. by apply E, (fo_inj _ _ _ Hf).
Qed.
End write.

(** ** Changes a file does not see *)

(** The same numbers, the blocks of the file unchanged. *)
Lemma same_blocks v ip v' ip' :
  i_addrs ip' = i_addrs ip -> (forall w, owns v ip w -> v' w = v w) ->
  (forall bn, bnum bn -> fblk v' ip' bn = fblk v ip bn) /\
  (forall k, bnum (k / BSIZE) -> fbyte v' ip' k = fbyte v ip k) /\ (forall w, owns v' ip' w <-> owns v ip w).
Proof.
  intros E Hv.
  assert (Hb : forall bn, bnum bn -> fblk v' ip' bn = fblk v ip bn).
  { intros bn Hbn. unfold fblk, iblk. rewrite E. fold (iblk ip).
    destruct (bn <? NDIRECT); [done|]. destruct (Z.eqb_spec (iblk ip) 0); [done|].
    rewrite Hv; [done|]. split; auto. }
  split; [done|]. split.
  - intros k Hk. unfold fbyte. rewrite Hb by done.
    destruct (Z.eqb_spec (fblk v ip (k / BSIZE)) 0) as [|H0]; [done|]. rewrite Hv; [done|].
    split; [done|]. right. eauto.
  - intros w. unfold owns, iblk. rewrite E. split; intros [H0 [Hi|(bn & Hbn & Hw)]]; split; auto;
      right; exists bn; by rewrite <- ?Hw, Hb || rewrite Hb.
Qed.

Lemma file_ok_same sb v ip v' ip' :
  mapped sb v -> i_addrs ip' = i_addrs ip -> (forall w, owns v ip w -> v' w = v w) ->
  (forall w, 0 <= w < sb_size sb -> used sb v w -> used sb v' w) ->
  file_ok sb v ip -> file_ok sb v' ip'.
Proof.
  intros Hm E Hv Hu [F1 F2 F3 F4 F5]. destruct (same_blocks v ip v' ip' E Hv) as (Hb & _ & _).
  pose proof (datastart_pos sb v Hm) as Hd.
  assert (Hdb : forall w, data_block sb v w -> data_block sb v' w)
    by (intros w [? ?]; split; [done|]; apply Hu; [lia|done]).
  assert (Ei : iblk ip' = iblk ip) by (unfold iblk; by rewrite E).
  split; rewrite ?Ei, ?E; auto.
  - intros bn Hbn. rewrite Hb by done. auto.
  - intros bn bn' Hbn Hbn'. rewrite !Hb by done. auto.
  - intros bn Hbn. rewrite Hb by done. auto.
Qed.

(** Another file keeps its content when this one changes. *)
Lemma others_kept sb v ip v' ip' ip2 :
  mapped sb v -> changed sb v ip v' ip' -> file_ok sb v ip2 ->
  (forall w, owns v ip2 w -> ~ owns v ip w) -> forall w, owns v ip2 w -> v' w = v w.
Proof.
  intros Hm Hc Hf Hd w Ho. pose proof (data_owned _ _ _ _ Hf Ho) as [Hr Hu].
  pose proof (datastart_pos sb v Hm). apply (ch_frame _ _ _ _ _ Hc); [lia|done| |auto].
  rewrite bitmap_range. lia.
Qed.
