(* ===== verification/FsCopy.v ===== *)
(** * Copying between files and memory

    [readi] copies out of a buffer and [writei] into one while other buffers and
    the log change.  The copies touch memory and the page allocator, the file
    system everything else: here the two are laid side by side.  [dest_copy] and
    [source_copy] are described for every destination and source. *)

From S2P Require Import Prelude CMem Machine Sv32 Spinlock Kalloc KallocProof KallocSpec Printf PrintfProof.
From S2P Require Import Sched AddrSpace Regions PageTable UserMem UserCopy UserSpec UserFrame.
From S2P Require Import SchedProof Sleeplock Bio BioProof Codec Log LogProof Fs FsTx.

(** ** Frames *)

(** The state [s] with the memory and the allocator of [x]. *)
Definition with_mem (x s : kstate) : kstate := set_kmem (k_kmem x) (set_mem (k_mem x) s).
(** As [tframe], but memory and allocator may change. *)
Definition ioframe (s s' : kstate) : Prop := tframe (with_mem s' s) s'.

Lemma with_mem_same s s' : same_mem s s' -> with_mem s' s = s.
Proof. intros [E1 E2]. unfold with_mem. rewrite E1, E2. by destruct s. Qed.
Lemma tframe_with_mem x s s' : tframe s s' -> tframe (with_mem x s) (with_mem x s').
Proof.
  intros [(sl & bs & d & j & ps & Hj & Hps & E) Hd]. split; [|done]. exists sl, bs, d, j, ps.
  split; [done|]. split; [done|]. rewrite E. by destruct s.
Qed.
Lemma tframe_same_mem s s' : tframe s s' -> same_mem s s'.
Proof. intros [(sl & bs & d & j & ps & _ & _ & ->) _]. done. Qed.
Lemma tframe_ioframe s s' : tframe s s' -> ioframe s s'.
Proof. intros F. unfold ioframe. rewrite with_mem_same; [done|by apply tframe_same_mem]. Qed.
Lemma ioframe_tframe s s' : ioframe s s' -> same_mem s s' -> tframe s s'.
Proof. unfold ioframe. intros F Hm. by rewrite with_mem_same in F. Qed.
Lemma aframe_ioframe s s' : aframe s s' -> ioframe s s'.
Proof.
  intros (k & m & i & Hi & ->). split; [|done]. exists (k_sleep s), (k_bufs s), (k_disk s), i, (k_procs s).
  split; [done|]. split; [done|]. by destruct s.
Qed.
#[export] Instance ioframe_preorder : PreOrder ioframe.
Proof.
  split.
  - intros s. by apply tframe_ioframe.
  - intros s1 s2 s3 F1 F2. unfold ioframe in *. etrans; [|exact F2].
    apply (tframe_with_mem s3) in F1. by replace (with_mem s3 (with_mem s2 s1)) with (with_mem s3 s1) in F1 by (by destruct s1).
Qed.
Lemma ioframe_lock s s' lk : ioframe s s' -> lock_free s lk -> lock_free s' lk.
Proof. intros F H. by apply (tframe_lock _ _ _ F). Qed.
Lemma ioframe_inodes s s' : ioframe s s' -> k_inodes s' = k_inodes s.
Proof. intros F. by rewrite (tframe_inodes _ _ F). Qed.
Lemma ioframe_sb s s' : ioframe s s' -> k_sb s' = k_sb s.
Proof. intros F. by rewrite (tframe_sb _ _ F). Qed.

(** A copy leaves the file system alone. *)
Lemma tx_aframe dev op s pid st L H D v s' :
  aframe s s' -> tx dev op s pid st L H D v -> tx dev op s' pid st L H D v.
Proof.
  intros (k & m & i & Hi & ->) [A1 A2 A3 A4 A5 A0 A6 A7 A8 A9]. split; try done.
  - destruct A1 as [[(P1 & P2 & P3) P4 P5 P6] I2 I3 I4 I5 I6 I7 I8]. by split.
  - destruct A2 as [B1 B2 B3 B4 B5 B6]. by split.
Qed.

(** ** The running process *)

Section copy.
Context `{LY : Layout, W : WaitFuel, BD : BlockDev} (pr r : Z).

(** Its address space is in order. *)
Definition user_ok (s : kstate) (T : Z -> option Z) : Prop := uinv s r T /\ exists prc, current s pr prc r.

Lemma user_ok_tframe s s' T : tframe s s' -> cpu_ok s' -> user_ok s T -> user_ok s' T.
Proof.
  intros F Hc [Hu (prc & C1 & C2 & C3 & C4)]. split.
  - eapply (uinv_same_mem s); [by apply tframe_same_mem|done| |done].
    eapply tframe_lock; [exact F|]. by destruct (ui_alloc _ _ _ Hu) as (_ & ? & _).
  - destruct F as [(sl & bs & d & j & ps & _ & Hps & ->) _]. cbn in Hps.
    assert (Hq : (ident <$> ps) !! Z.to_nat pr = Some (ident prc)) by (by rewrite Hps, list_lookup_fmap, C3).
    rewrite list_lookup_fmap in Hq. destruct (ps !! Z.to_nat pr) as [q|] eqn:E; [|done]. cbn in Hq.
    exists q. unfold ident in Hq. injection Hq as _ Eas. unfold current. rewrite Eas.
    do 3 (split; [done|]). exact C4.
Qed.
Lemma user_ok_aframe s s' T T' : aframe s s' -> uinv s' r T' -> user_ok s T -> user_ok s' T'.
Proof.
  intros F Hu [_ (prc & C1 & C2 & C3 & C4)]. split; [done|]. exists prc.
  destruct (aframe_procs _ _ F) as (E1 & E2 & _). unfold current. by rewrite E1, E2.
Qed.

(** ** Destinations *)

(** What a copy to the destination requires. *)
Definition dest_ok (dst : dest) (s : kstate) (T : Z -> option Z) : Prop :=
  match dst with DUser _ => user_ok s T | _ => True end.

(** The bytes [bs] have gone to the destination, from offset [tot] on. *)
Definition delivered (dst : dest) (tot : Z) (bs : list Z) (s : kstate) (T : Z -> option Z)
    (s' : kstate) (T' : Z -> option Z) : Prop :=
  match dst with
  | DUser va => touches r s T (hits (u32 (va + tot)) (length bs)) s' T' /\
      forall j b, bs !! j = Some b -> peek false (k_mem s') T' (u32 (va + tot + Z.of_nat j)) = Some b
  | DPage pa => k_kmem s' = k_kmem s /\ k_mem s' = write_bytes (k_mem s) (pa + tot) bs /\ T' = T
  | DLocal => same_mem s s' /\ T' = T
  end.
(** A copy of [n] bytes failed on the way. *)
Definition spilled (dst : dest) (tot n : Z) (s : kstate) (T : Z -> option Z) (s' : kstate) (T' : Z -> option Z) : Prop :=
  match dst with DUser va => touches r s T (hits (u32 (va + tot)) (Z.to_nat n)) s' T' | _ => False end.
(** No copy of the [n] bytes from [tot] on can fail. *)
Definition dest_ready (dst : dest) (tot n : Z) (s : kstate) (T : Z -> option Z) : Prop :=
  match dst with
  | DUser va => forall x, hits (u32 (va + tot)) (Z.to_nat n) x -> ready (k_mem s) T x
  | _ => True
  end.
(** The addresses of a page do not wrap. *)
Definition dest_fits (dst : dest) (n : Z) : Prop :=
  match dst with DPage pa => 0 <= pa /\ pa + n <= 2^32 | _ => True end.

Lemma delivered_nil dst tot s T : dest_ok dst s T -> delivered dst tot [] s T s T.
Proof. destruct dst; cbn; [|done|done]. intros [Hu _]. split; [by apply touches_refl|done]. Qed.

Lemma u32_add a b : u32 (u32 a + b) = u32 (a + b).
Proof. unfold u32. apply Zplus_mod_idemp_l. Qed.
Lemma hits_u32 a n x : hits (u32 a) n x <-> exists j, (j < n)%nat /\ x = u32 (a + Z.of_nat j).
Proof. unfold hits. by setoid_rewrite u32_add. Qed.
Lemma hits_app_r a k n x : hits (u32 (a + Z.of_nat k)) n x -> hits (u32 a) (k + n) x.
Proof. rewrite !hits_u32. intros (j & Hj & ->). exists (k + j)%nat. split; [lia|]. f_equal. lia. Qed.
Lemma hits_apart a k n j : (j < k)%nat -> Z.of_nat (k + n) < 2^32 -> ~ hits (u32 (a + Z.of_nat k)) n (u32 (a + Z.of_nat j)).
Proof.
  rewrite hits_u32. intros Hj Hn (i & Hi & E). unfold u32 in E. change (2^32) with 4294967296 in *. zlia.
Qed.
Lemma write_bytes_app m a bs cs :
  write_bytes m a (bs ++ cs) = write_bytes (write_bytes m a bs) (a + Z.of_nat (length bs)) cs.
Proof.
  revert m a. induction bs as [|b bs IH]; intros m a; cbn [write_bytes app length]; [by rewrite Z.add_0_r|].
  rewrite IH. f_equal. lia.
Qed.

Lemma delivered_app dst tot bs cs s T s1 T1 s2 T2 :
  Z.of_nat (length bs + length cs) < 2^32 ->
  delivered dst tot bs s T s1 T1 -> delivered dst (tot + Z.of_nat (length bs)) cs s1 T1 s2 T2 ->
  delivered dst tot (bs ++ cs) s T s2 T2.
Proof.
  intros Hn. destruct dst as [va|pa|]; cbn.
  - replace (va + (tot + Z.of_nat (length bs))) with (va + tot + Z.of_nat (length bs)) by lia.
    intros [T12 B1] [T23 B2]. rewrite length_app. split.
    + eapply touches_trans; [exact T12|exact T23| |]; intros x; [apply hits_mono; lia|apply hits_app_r].
    + intros j b [Hj|[Hj Hb]]%lookup_app_Some.
      * apply (to_out _ _ _ _ _ _ T23); [apply u32_range| |by apply B1].
        apply hits_apart; [by eapply lookup_lt_Some|lia].
      * replace (va + tot + Z.of_nat j) with (va + tot + Z.of_nat (length bs) + Z.of_nat (j - length bs)) by lia. by apply B2.
  - intros (E1 & E2 & ->) (F1 & F2 & ->). rewrite F1, F2, E1, E2, write_bytes_app. by rewrite Z.add_assoc.
  - intros [[E1 E2] ->] [[F1 F2] ->]. split; [|done]. split; congruence.
Qed.
Lemma delivered_spilled dst tot bs n s T s1 T1 s2 T2 :
  0 <= n -> delivered dst tot bs s T s1 T1 -> spilled dst (tot + Z.of_nat (length bs)) n s1 T1 s2 T2 ->
  spilled dst tot (Z.of_nat (length bs) + n) s T s2 T2.
Proof.
  intros Hn. destruct dst as [va|pa|]; cbn; [|done|done]. intros [T12 _] T23.
  replace (va + (tot + Z.of_nat (length bs))) with (va + tot + Z.of_nat (length bs)) in T23 by lia.
  replace (Z.to_nat (Z.of_nat (length bs) + n)) with (length bs + Z.to_nat n)%nat by lia.
  eapply touches_trans; [exact T12|exact T23| |]; intros x; [apply hits_mono; lia|apply hits_app_r].
Qed.
Lemma spilled_mono dst tot n n' s T s' T' : n <= n' -> spilled dst tot n s T s' T' -> spilled dst tot n' s T s' T'.
Proof.
  intros Hn. destruct dst; cbn; [|done|done]. intros [H1 H2 H3]. split; [done| |done].
  intros u x b Hx Hh. apply H2; [done|]. intros Hh'. apply Hh. revert Hh'. apply hits_mono. lia.
Qed.

(** Steps of the file system before and after. *)
Lemma delivered_io dst tot bs s T s1 s2 s3 T' :
  tframe s s1 -> delivered dst tot bs s1 T s2 T' -> tframe s2 s3 -> cpu_ok s3 ->
  delivered dst tot bs s T s3 T'.
Proof.
  intros F1 Hd F2 Hc. pose proof (tframe_same_mem _ _ F1) as [M1 K1]. pose proof (tframe_same_mem _ _ F2) as [M2 K2].
  destruct dst as [va|pa|]; cbn in *.
  - destruct Hd as [Ht Hb]. split; [|by rewrite M2].
    eapply (touches_same_mem r s1 s s2 s3); [by split|by split|done| |exact Ht].
    eapply tframe_lock; [exact F2|]. by destruct (ui_alloc _ _ _ (to_inv _ _ _ _ _ _ Ht)) as (_ & ? & _).
  - by rewrite M2, K2, <- M1, <- K1.
  - destruct Hd as [[E1 E2] ->]. split; [|done]. split; congruence.
Qed.
Lemma spilled_io dst tot n s T s1 s2 s3 T' :
  tframe s s1 -> spilled dst tot n s1 T s2 T' -> tframe s2 s3 -> cpu_ok s3 -> spilled dst tot n s T s3 T'.
Proof.
  intros F1 Hd F2 Hc. pose proof (tframe_same_mem _ _ F1) as [M1 K1]. destruct dst; cbn in *; try done.
  eapply (touches_same_mem r s1 s s2 s3); [by split|by apply tframe_same_mem|done| |exact Hd].
  eapply tframe_lock; [exact F2|]. by destruct (ui_alloc _ _ _ (to_inv _ _ _ _ _ _ Hd)) as (_ & ? & _).
Qed.

Lemma intena_only_aframe s s' : intena_only s s' -> aframe s s'.
Proof.
  intros (i & Hi & ->). exists (k_kmem s), (k_mem s), i. split; [done|]. by destruct s.
Qed.
Lemma intena_only_touches s s0 T h s' T' : intena_only s s0 -> touches r s0 T h s' T' -> touches r s T h s' T'.
Proof.
  intros (i & _ & ->) H. destruct (ui_alloc _ _ _ (to_inv _ _ _ _ _ _ H)) as (? & ? & _).
  by eapply touches_same_mem; [| | | |exact H].
Qed.

Lemma user_copyout `{!LayoutOk LY} s T a bs :
  user_ok s T -> Forall (fun b => 0 <= b < 256) bs -> Z.of_nat (length bs) <= 2^32 ->
  runs (either_copyout true (u32 a) bs s) (fun e s' => exists T',
    aframe s s' /\ touches r s T (hits (u32 a) (length bs)) s' T' /\
    ((forall x, hits (u32 a) (length bs) x -> ready (k_mem s) T x) ->
       e = 0 /\ forall x, leaf (k_mem s') T' x = leaf (k_mem s) T x) /\
    (e = -1 \/ e = 0 /\ forall j b, bs !! j = Some b ->
       peek false (k_mem s') T' (u32 (a + Z.of_nat j)) = Some b)).
Proof.
  intros [Hu (prc & Hcur)] Hb Hl. pose proof Hcur as (H0 & Hc & Hp & Hwf & Hpt & _). unfold either_copyout.
  apply runs_bind, (runs_curproc s pr); [apply (ui_alloc _ _ _ Hu)|done|]. intros s0 Hs0.
  assert (Hu0 : uinv s0 r T) by (by eapply uinv_intena).
  pose proof (running_intena _ _ _ Hs0 (current_running _ _ _ _ Hcur)) as Hrun0.
  rewrite (bind_ok _ _ _ _ _ (get_proc_eq s0 pr prc H0 ltac:(by destruct Hs0 as (i & _ & ->)))), Hpt.
  pose proof (u32_range a) as Ha.
  pose proof (copyout_spec s0 r T prc (u32 a) bs Hu0 Hrun0 Hwf Ha Hl Hb) as H.
  pose proof (copyout_loop_ready (S (length bs)) s0 r T (u32 a) bs Hu0 Ha Hb ltac:(lia)) as Hrd.
  destruct (copyout (idx2pa r) (u32 a) bs s0) as [e s'| |] eqn:E; try done.
  destruct H as (T' & Hw & He). unfold copyout in E. rewrite E in Hrd. exists T'.
  assert (Em : k_mem s0 = k_mem s) by (by destruct Hs0 as (i & _ & ->)). split; [|split; [|split]].
  - etrans; [by apply intena_only_aframe|]. apply (wo_frame _ _ _ _ _ _ Hw).
  - eapply intena_only_touches; [exact Hs0|]. by eapply writes_touches.
  - rewrite Em in Hrd. intros Hr. destruct (Hrd Hr) as (-> & Hi' & Hlf). split; [done|]. intros x. rewrite <- Hlf.
    apply (leaf_unique s' r); [done|]. apply (wo_inv _ _ _ _ _ _ Hw).
  - destruct He as [->|[-> He]]; [by left|right]. split; [done|]. intros j b Hj. rewrite <- u32_add. by apply He.
Qed.

(** Bytes, where it matters. *)
Definition dest_bytes (dst : dest) (bs : list Z) : Prop :=
  match dst with DUser _ => Forall (fun b => 0 <= b < 256) bs | _ => True end.

(** What [readi] relies on: a copy succeeds or fails, and changes only what it
    may. *)
Class CopiesTo (dst : dest) : Prop := dest_copy_ok : forall tot bs s T,
  cpu_ok s -> is_Some (c_proc (k_cpu s)) -> dest_ok dst s T -> 0 <= tot -> Z.of_nat (length bs) < 2^32 ->
  dest_fits dst (tot + Z.of_nat (length bs)) -> (0 < length bs)%nat -> dest_bytes dst bs ->
  runs (dest_copy dst tot bs s) (fun e s' => exists T', aframe s s' /\ dest_ok dst s' T' /\
    (dest_ready dst tot (Z.of_nat (length bs)) s T ->
       e = 0 /\ forall k n, dest_ready dst k n s T -> dest_ready dst k n s' T') /\
    (e = 0 /\ delivered dst tot bs s T s' T' \/ e = -1 /\ spilled dst tot (Z.of_nat (length bs)) s T s' T')).

#[export] Instance copies_to_user `{!LayoutOk LY} va : CopiesTo (DUser va).
Proof.
  intros tot bs s T Hc [q Hq] Hok Ht Hl Hfit Hpos Hb. cbn [dest_copy].
  eapply runs_mono; [apply (user_copyout s T (va + tot)); [done|done|lia]|].
  intros e s' (T' & F & Htch & Hrd & He). exists T'. split; [done|].
  split; [eapply user_ok_aframe; [exact F|apply (to_inv _ _ _ _ _ _ Htch)|exact Hok]|]. cbn [dest_ready spilled delivered].
  rewrite Nat2Z.id. split; [|destruct He as [->|[-> He]]; [right|left]; by split].
  intros Hr. destruct (Hrd Hr) as [-> Hlf]. split; [done|]. unfold ready. intros k n Hk x Hx. rewrite Hlf. by apply Hk.
Qed.
#[export] Instance copies_to_page pa : CopiesTo (DPage pa).
Proof.
  intros tot bs s T Hc [q Hq] Hok Ht Hl Hfit Hpos Hb. cbn [dest_copy]. unfold either_copyout. apply runs_bind, (runs_curproc s q); [done|done|]. intros s0 Hs0.
    cbn in Hfit. unfold u32. rewrite Z.mod_small by lia.
    rewrite (bind_ok _ _ s0 tt (set_mem (write_bytes (k_mem s0) (pa + tot) bs) s0)) by done. cbn [runs ret].
    exists T. split; [etrans; [by apply intena_only_aframe|apply aframe_mem]|]. split; [done|].
    split; [done|]. left. split; [done|].
    by destruct Hs0 as (i & _ & ->).
Qed.
#[export] Instance copies_to_local : CopiesTo DLocal.
Proof.
  intros tot bs s T Hc _ Hok Ht Hl Hfit Hpos Hb. cbn [dest_copy runs ret]. exists T. split; [reflexivity|]. split; [done|].
  split; [done|by left].
Qed.

Lemma dest_ready_sub dst tot n k m s T :
  0 <= k -> 0 <= m -> k + m <= n -> dest_ready dst tot n s T -> dest_ready dst (tot + k) m s T.
Proof.
  intros Hk Hm Hn. destruct dst as [va|pa|]; cbn; [|done|done]. intros Hr x Hx. apply Hr.
  apply (hits_mono _ (Z.to_nat k + Z.to_nat m)); [lia|]. apply hits_app_r.
  by replace (va + tot + Z.of_nat (Z.to_nat k)) with (va + (tot + k)) by lia.
Qed.
Lemma dest_ok_tframe dst s s' T : tframe s s' -> cpu_ok s' -> dest_ok dst s T -> dest_ok dst s' T.
Proof. destruct dst; cbn; [apply user_ok_tframe|done|done]. Qed.
Lemma dest_ready_tframe dst k n s s' T : tframe s s' -> dest_ready dst k n s T -> dest_ready dst k n s' T.
Proof. intros F. destruct dst; cbn; [|done|done]. by rewrite (proj1 (tframe_same_mem _ _ F)). Qed.

(** ** Sources *)

(** The bytes [bs] are there to be copied, for a user source as the process
    itself could read them. *)
Definition source_ok (src : source) (bs : list Z) (s : kstate) (T : Z -> option Z) : Prop :=
  match src with
  | SUser va => user_ok s T /\
      forall j b, bs !! j = Some b -> peek true (k_mem s) T (u32 (va + Z.of_nat j)) = Some b
  | SLocal l => l = bs
  end.
(** What fetching changes: nothing that can be read. *)
Definition fetched (src : source) (s : kstate) (T : Z -> option Z) (s' : kstate) (T' : Z -> option Z) : Prop :=
  match src with
  | SUser _ => touches r s T (fun _ => False) s' T'
  | SLocal _ => same_mem s s' /\ T' = T
  end.

Lemma source_ok_tframe src bs s s' T : tframe s s' -> cpu_ok s' -> source_ok src bs s T -> source_ok src bs s' T.
Proof.
  intros F Hc. destruct src; cbn; [|done]. intros [Hu Hb]. split; [by eapply user_ok_tframe|].
  by rewrite (proj1 (tframe_same_mem _ _ F)).
Qed.
Lemma fetched_tframe src bs s s' T : tframe s s' -> cpu_ok s' -> source_ok src bs s T -> fetched src s T s' T.
Proof.
  intros F Hc Hok. destruct src; cbn in *.
  - destruct (user_ok_tframe _ _ _ F Hc (proj1 Hok)) as [Hu _]. destruct Hok as [[Hu0 _] _].
    eapply (touches_same_mem r s s s s'); [done|by apply tframe_same_mem|done| |by apply touches_refl].
    by destruct (ui_alloc _ _ _ Hu) as (_ & ? & _).
  - split; [by apply tframe_same_mem|done].
Qed.
Lemma fetched_trans src s T s1 T1 s2 T2 : fetched src s T s1 T1 -> fetched src s1 T1 s2 T2 -> fetched src s T s2 T2.
Proof.
  destruct src; cbn; [intros; by eapply touches_trans|]. intros [[E1 E2] ->] [[F1 F2] ->]. split; [|done]. split; congruence.
Qed.

Lemma peek_true_false m T x b : peek true m T x = Some b -> peek false m T x = Some b.
Proof.
  unfold peek. cbn [negb andb]. rewrite orb_false_r. destruct (has _ PTE_V); [|done]. cbn [andb].
  by destruct (has _ PTE_U).
Qed.

Class CopiesFrom (src : source) : Prop := source_copy_ok : forall bs tot m s T,
  source_ok src bs s T -> 0 <= tot -> 0 <= m < 2^32 -> tot + m <= Z.of_nat (length bs) ->
  runs (source_copy src tot m s) (fun e s' => e = (0, slice bs tot m) /\ exists T', aframe s s' /\
    source_ok src bs s' T' /\ fetched src s T s' T').

#[export] Instance copies_from_local l : CopiesFrom (SLocal l).
Proof. intros bs tot m s T -> Ht Hm Hl. split; [done|]. exists T. by repeat split. Qed.
#[export] Instance copies_from_user `{!LayoutOk LY} va : CopiesFrom (SUser va).
Proof.
  intros bs tot m s T Hok Ht Hm Hl. cbn [source_copy]. destruct Hok as [Hus Hby]. pose proof Hus as [Hu (prc & Hcur)]. pose proof Hcur as (H0 & Hc & Hp & Hwf & Hpt & _).
  unfold either_copyin. apply runs_bind, (runs_curproc s pr); [apply (ui_alloc _ _ _ Hu)|done|]. intros s0 Hs0.
  assert (Hu0 : uinv s0 r T) by (by eapply uinv_intena).
  pose proof (running_intena _ _ _ Hs0 (current_running _ _ _ _ Hcur)) as Hrun0.
  assert (Em : k_mem s0 = k_mem s) by (by destruct Hs0 as (i & _ & ->)).
  rewrite (bind_ok _ _ _ _ _ (get_proc_eq s0 pr prc H0 ltac:(by destruct Hs0 as (i & _ & ->)))), Hpt.
  pose proof (u32_range (va + tot)) as Ha.
  assert (Hat : forall j, (j < Z.to_nat m)%nat -> exists b, slice bs tot m !! j = Some b /\
    peek true (k_mem s0) T (u32 (u32 (va + tot) + Z.of_nat j)) = Some b).
  { intros j Hj. destruct (lookup_lt_is_Some_2 bs (Z.to_nat tot + j)) as [b Hb]; [lia|]. exists b. split.
    - unfold slice. rewrite lookup_take by lia. rewrite decide_True by lia. by rewrite lookup_drop.
    - rewrite u32_add, Em, <- (Hby _ _ Hb). do 2 f_equal. lia. }
  pose proof (copyin_loop_spec (S (Z.to_nat m)) s0 r T prc (u32 (va + tot)) m [] Hu0 Hrun0 Hwf Ha Hm ltac:(lia)) as H.
  pose proof (copyin_loop_ready (S (Z.to_nat m)) s0 r T (u32 (va + tot)) m [] Hu0 Ha ltac:(lia) ltac:(lia)) as Hrd.
  unfold copyin. destruct (copyin_loop _ _ _ _ _ s0) as [e s'| |] eqn:E; try done.
  destruct H as (T' & Hqt & He).
  assert (E0 : e.1 = 0) by (apply Hrd; intros x (j & Hj & ->); destruct (Hat j Hj) as (b & _ & Hb); by exists b).
  destruct He as [He|(cs & -> & Hlen & Hcs)]; [lia|]. cbn [app].
  assert (Hq : forall x b, 0 <= x < 2^32 -> peek true (k_mem s0) T x = Some b -> peek true (k_mem s') T' x = Some b)
    by (intros x b Hx; apply (q_peek _ _ _ _ _ Hqt); done).
  split.
  - f_equal. apply list_eq. intros j. destruct (decide (j < Z.to_nat m)%nat) as [Hj|Hj].
    + destruct (Hat j Hj) as (b & -> & Hb). destruct (lookup_lt_is_Some_2 cs j ltac:(lia)) as [c Hc'].
      rewrite Hc'. apply Hq, peek_true_false in Hb; [|apply u32_range]. rewrite (Hcs j c Hc') in Hb. done.
    + rewrite !lookup_ge_None_2; [done|rewrite slice_length; lia|lia].
  - exists T'. assert (F : aframe s s') by (etrans; [by apply intena_only_aframe|apply (q_frame _ _ _ _ _ Hqt)]).
    split; [done|]. split; [split|].
    + eapply user_ok_aframe; [exact F|apply (q_inv _ _ _ _ _ Hqt)|done].
    + intros j b Hj. apply Hq; [apply u32_range|]. rewrite Em. by apply Hby.
    + eapply intena_only_touches; [exact Hs0|]. by apply quiet_touches.
Qed.
End copy.
