(* ===== verification/FsIo.v ===== *)
(** * Reading and writing files

    [bmap], [readi] and [writei] run: what they return, the content of the file
    afterwards, and the part of the log they use. *)

From S2P Require Import Prelude CMem Machine Sv32 Spinlock Kalloc Printf PrintfProof.
From S2P Require Import Sched PageTable UserMem UserFrame SchedProof Sleeplock Bio BioProof Codec Log LogProof.
From S2P Require Import Fs FsInode FsTx FsBitmap FsFile FsCopy.

(** ** The inode in memory *)

Definition inode_at (s : kstate) (i : Z) (ip : inode) : Prop :=
  0 <= i /\ k_inodes s !! Z.to_nat i = Some ip.
(** The entry becomes [ip']; otherwise only the cache and the log change. *)
Definition fstep (i : Z) (s : kstate) (ip' : inode) (s' : kstate) : Prop :=
  tframe (set_inodes (<[Z.to_nat i := ip']> (k_inodes s)) s) s'.

Lemma get_inode_eq s i ip : inode_at s i ip -> get_inode i s = Ok ip s.
Proof. intros [Hi Hp]. unfold get_inode, get_elt. replace (0 <=? i) with true by lia. by rewrite Hp. Qed.
Lemma upd_inode_eq s i ip f :
  inode_at s i ip -> upd_inode i f s = Ok tt (set_inodes (<[Z.to_nat i := f ip]> (k_inodes s)) s).
Proof. intros [Hi Hp]. unfold upd_inode, upd_elt. replace (0 <=? i) with true by lia. by rewrite Hp. Qed.

Lemma set_inodes_id s : set_inodes (k_inodes s) s = s.
Proof. by destruct s. Qed.

Lemma tframe_set_inodes l s s' : tframe s s' -> tframe (set_inodes l s) (set_inodes l s').
Proof.
  intros [(sl & bs & d & j & ps & Hj & Hps & E) Hd]. split; [|done]. exists sl, bs, d, j, ps.
  split; [done|]. split; [done|]. rewrite E. by destruct s.
Qed.

Lemma fstep_tframe i s ip s' : inode_at s i ip -> tframe s s' -> fstep i s ip s'.
Proof. intros [_ Hp] F. unfold fstep. by rewrite list_insert_id, set_inodes_id. Qed.
Lemma fstep_inode_at i s ip ip' s' : inode_at s i ip -> fstep i s ip' s' -> inode_at s' i ip'.
Proof.
  intros [Hi Hp] F. split; [done|]. rewrite (tframe_inodes _ _ F). cbn [k_inodes set_inodes].
  apply list_lookup_insert_eq. by eapply lookup_lt_Some.
Qed.
Lemma fstep_trans i s ip1 s1 ip2 s2 : fstep i s ip1 s1 -> fstep i s1 ip2 s2 -> fstep i s ip2 s2.
Proof.
  unfold fstep. intros F1 F2. pose proof (tframe_inodes _ _ F1) as E. cbn [k_inodes set_inodes] in E.
  rewrite E, list_insert_insert_eq in F2. etrans; [|exact F2].
  apply (tframe_set_inodes (<[Z.to_nat i := ip2]> (k_inodes s))) in F1.
  by replace (set_inodes (<[Z.to_nat i:=ip2]> (k_inodes s)) (set_inodes (<[Z.to_nat i:=ip1]> (k_inodes s)) s))
    with (set_inodes (<[Z.to_nat i:=ip2]> (k_inodes s)) s) in F1 by (by destruct s).
Qed.
Lemma fstep_sb i s ip' s' : fstep i s ip' s' -> k_sb s' = k_sb s.
Proof. intros F. by rewrite (tframe_sb _ _ F). Qed.
Lemma fstep_set i s ip' : fstep i s ip' (set_inodes (<[Z.to_nat i := ip']> (k_inodes s)) s).
Proof. unfold fstep. reflexivity. Qed.

(** The same, but memory may change: bytes are copied on the way. *)
Definition iostep (i : Z) (s : kstate) (ip' : inode) (s' : kstate) : Prop :=
  ioframe (set_inodes (<[Z.to_nat i := ip']> (k_inodes s)) s) s'.
Lemma fstep_iostep i s ip' s' : fstep i s ip' s' -> iostep i s ip' s'.
Proof. apply tframe_ioframe. Qed.
Lemma iostep_fstep i s ip' s' : iostep i s ip' s' -> same_mem s s' -> fstep i s ip' s'.
Proof. intros F Hm. by apply ioframe_tframe. Qed.
Lemma ioframe_set_inodes l s s' : ioframe s s' -> ioframe (set_inodes l s) (set_inodes l s').
Proof.
  intros F. apply (tframe_set_inodes l) in F. unfold ioframe.
  by replace (with_mem (set_inodes l s') (set_inodes l s)) with (set_inodes l (with_mem s' s)) by (by destruct s).
Qed.
Lemma iostep_trans i s ip1 s1 ip2 s2 : iostep i s ip1 s1 -> iostep i s1 ip2 s2 -> iostep i s ip2 s2.
Proof.
  unfold iostep. intros F1 F2. pose proof (ioframe_inodes _ _ F1) as E. cbn [k_inodes set_inodes] in E.
  rewrite E, list_insert_insert_eq in F2. etrans; [|exact F2].
  apply (ioframe_set_inodes (<[Z.to_nat i := ip2]> (k_inodes s))) in F1.
  by replace (set_inodes (<[Z.to_nat i:=ip2]> (k_inodes s)) (set_inodes (<[Z.to_nat i:=ip1]> (k_inodes s)) s))
    with (set_inodes (<[Z.to_nat i:=ip2]> (k_inodes s)) s) in F1 by (by destruct s).
Qed.
Lemma iostep_ioframe i s ip s' : inode_at s i ip -> ioframe s s' -> iostep i s ip s'.
Proof. intros [_ Hp] F. unfold iostep. by rewrite list_insert_id, set_inodes_id. Qed.
Lemma iostep_inode_at i s ip ip' s' : inode_at s i ip -> iostep i s ip' s' -> inode_at s' i ip'.
Proof.
  intros [Hi Hp] F. split; [done|]. rewrite (ioframe_inodes _ _ F). cbn [k_inodes set_inodes].
  apply list_lookup_insert_eq. by eapply lookup_lt_Some.
Qed.
Lemma ioframe_inode_at i s ip s' : inode_at s i ip -> ioframe s s' -> inode_at s' i ip.
Proof. intros H F. eapply iostep_inode_at; [exact H|by apply iostep_ioframe]. Qed.

Lemma tx_cpu dev op s pid st L H D v :
  tx dev op s pid st L H D v -> cpu_ok s /\ is_Some (c_proc (k_cpu s)).
Proof.
  intros [A1 _ _ _ _ _ _ _ _ _]. destruct A1 as [[(P1 & _ & _) (p & q & _ & P2 & _) _ _] _ _ _ _ _ _ _].
  split; [done|]. by exists p.
Qed.

(** The source of a copy stays good while the file system works. *)
Lemma source_ok_fstep `{LY : Layout} pr r src bs i s ip' s' T :
  fstep i s ip' s' -> cpu_ok s' -> source_ok pr r src bs s T -> source_ok pr r src bs s' T /\ fetched r src s T s' T.
Proof.
  intros F Hc Hok. set (s0 := set_inodes (<[Z.to_nat i := ip']> (k_inodes s)) s).
  assert (Hok0 : source_ok pr r src bs s0 T).
  { destruct src; [|done]. destruct Hok as [[[U1 U2 U3 U4 U5] Hcur] Hb]. split; [|done]. split; [by split|done]. }
  split; [by eapply source_ok_tframe|]. pose proof (fetched_tframe pr r src bs s0 s' T F Hc Hok0) as Hf.
  destruct src; [|done]. destruct Hf as [T1 T2 T3]. by split.
Qed.

Lemma tx_inodes dev op s pid st L H D v l :
  tx dev op s pid st L H D v -> tx dev op (set_inodes l s) pid st L H D v.
Proof.
  intros [A1 A2 A3 A4 A5 A0 A6 A7 A8 A9]. split; try done.
  - destruct A1 as [[(P1 & P2 & P3) P4 P5 P6] I2 I3 I4 I5 I6 I7 I8]. by split.
  - destruct A2 as [B1 B2 B3 B4 B5 B6]. by split.
Qed.

(** ** The log space a file operation may use *)

Definition indset (ip : inode) : gset Z := if iblk ip =? 0 then ∅ else {[iblk ip]}.
Definition bset (sb : superblock) (L : list Z) (ip : inode) : gset Z :=
  bitmaps sb ∪ list_to_set L ∪ indset ip.
(** Blocks logged, the bitmap, and the indirect block, there or to come. *)
Definition budget (sb : superblock) (L : list Z) (ip : inode) : nat :=
  (size (bset sb L ip) + if decide (iblk ip = 0)%Z then 1 else 0)%nat.

Lemma budget_step sb L ip L' ip' x :
  iblk ip' = iblk ip -> (forall w, w ∈ L' -> w = x \/ w ∈ L \/ w ∈ bitmaps sb \/ w ∈ indset ip) ->
  (budget sb L' ip' <= budget sb L ip + 1)%nat.
Proof.
  intros E HL. unfold budget, bset, indset in *. rewrite E.
  assert (Hs : bitmaps sb ∪ list_to_set L' ∪ (if iblk ip =? 0 then ∅ else {[iblk ip]}) ⊆
    {[x]} ∪ (bitmaps sb ∪ list_to_set L ∪ (if iblk ip =? 0 then ∅ else {[iblk ip]}) : gset Z)).
  { intros w. rewrite !elem_of_union, !elem_of_list_to_set, elem_of_singleton.
    intros [[|Hw]|]; [tauto| |tauto]. apply HL in Hw. tauto. }
  apply subseteq_size in Hs. rewrite size_add in Hs. revert Hs. case_decide; lia.
Qed.

Lemma budget_ind sb L ip L' ip' :
  iblk ip = 0 -> iblk ip' <> 0 -> (forall w, w ∈ L' -> w = iblk ip' \/ w ∈ L \/ w ∈ bitmaps sb) ->
  (budget sb L' ip' <= budget sb L ip)%nat.
Proof.
  intros E E' HL. unfold budget. rewrite (decide_True _ _ E), (decide_False _ _ E').
  assert (Hs : bset sb L' ip' ⊆ {[iblk ip']} ∪ bset sb L ip).
  { intros w. unfold bset. rewrite !elem_of_union, !elem_of_list_to_set, elem_of_singleton.
    intros [[|Hw]|Hw]; [tauto|apply HL in Hw; tauto|]. unfold indset in Hw.
    destruct (Z.eqb_spec (iblk ip') 0); [done|]. left. by apply elem_of_singleton in Hw. }
  apply subseteq_size in Hs. rewrite size_add in Hs. revert Hs. case_decide; lia.
Qed.

Lemma budget_length sb L ip : NoDup L -> (length L <= budget sb L ip)%nat.
Proof.
  intros HL. rewrite (length_set L HL). unfold budget.
  pose proof (subseteq_size (list_to_set L) (bset sb L ip) ltac:(unfold bset; set_solver)). lia.
Qed.
(** The calls of [balloc]: nothing held, or the indirect block. *)
Lemma budget_load sb L ip (H : gmap Z Z) :
  map_img H ⊆ indset ip -> (load sb L H <= budget sb L ip)%nat.
Proof.
  intros HH. unfold load, budget. pose proof (subseteq_size (bitmaps sb ∪ in_use L H) (bset sb L ip)
    ltac:(unfold bset, in_use; set_solver)). lia.
Qed.
Lemma budget_room sb L ip w :
  (size ({[w]} ∪ in_use L ∅) <= budget sb (logged L w) ip)%nat.
Proof.
  unfold budget, in_use. rewrite map_img_empty_L, (right_id_L ∅ _).
  etrans; [apply (subseteq_size _ (bset sb (logged L w) ip))|lia].
  unfold bset. intros x. rewrite !elem_of_union, !elem_of_list_to_set, elem_of_logged. set_solver.
Qed.

Lemma elem_alloc_log sb L a w :
  0 <= a < sb_size sb -> w ∈ alloc_log sb L a -> w = a \/ w ∈ L \/ w ∈ bitmaps sb.
Proof.
  intros Ha. unfold alloc_log. rewrite !elem_of_logged.
  intros [->|[->|?]]; [auto| |auto]. right; right. by apply BBLOCK_bitmap.
Qed.

(** ** [bmap] *)

Section bmap.
Context `{W : WaitFuel, BD : BlockDev, !BlockDevOk BD}.
Context (dev : Z) (sb : superblock) (i pid st : Z).
Hypothesis Hfuel : (0 < wait_fuel)%nat.

(** A file being worked on inside a transaction, no buffer held. *)
Record fwork (s : kstate) (L : list Z) (v : Z -> list Z) (ip : inode) : Prop := {
  fw_tx : tx dev true s pid st L ∅ ∅ v;
  fw_sb : k_sb s = sb;
  fw_at : inode_at s i ip;
  fw_dev : i_dev ip = dev;
  fw_map : mapped sb v;
  fw_ok : file_ok sb v ip;
}.

(** Blocks may have been added to the file; its content is the same. *)
Record fgrow (s : kstate) (v : Z -> list Z) (ip : inode)
    (s' : kstate) (L' : list Z) (v' : Z -> list Z) (ip' : inode) : Prop := {
  fg_step : fstep i s ip' s';
  fg_work : fwork s' L' v' ip';
  fg_changed : changed sb v ip v' ip';
  fg_bytes : forall k, bnum (k / BSIZE) -> fbyte v' ip' k = fbyte v ip k;
}.

Definition full (v : Z -> list Z) : Prop := forall b, 0 <= b < sb_size sb -> used sb v b.

Definition alloc_addr (k : Z) : K Z :=
  addr <- balloc dev ;;
  if addr =? 0 then ret 0 else
  upd_inode i (fun ip => set_i_addrs (<[Z.to_nat k := addr]> ip.(i_addrs)) ip) ;;
  ret addr.

Lemma fwork_intro s v ip s' L' v' ip' w :
  fwork s w v ip -> iostep i s ip' s' -> tx dev true s' pid st L' ∅ ∅ v' -> changed sb v ip v' ip' ->
  fwork s' L' v' ip'.
Proof. clear Hfuel.
  intros [A1 A2 A3 A4 A5 A6] F HT Hc. split; try done.
  - by rewrite (ioframe_sb _ _ F).
  - by eapply iostep_inode_at.
  - rewrite (ch_ip _ _ _ _ _ Hc). by destruct ip.
  - apply Hc.
  - apply Hc.
Qed.

Lemma fgrow_trans s v ip s1 L1 v1 ip1 s2 L2 v2 ip2 :
  mapped sb v -> fgrow s v ip s1 L1 v1 ip1 -> fgrow s1 v1 ip1 s2 L2 v2 ip2 -> fgrow s v ip s2 L2 v2 ip2.
Proof. clear Hfuel.
  intros Hm [A1 A2 A3 A4] [B1 B2 B3 B4]. split; [by eapply fstep_trans|done|by eapply changed_trans|].
  intros k Hk. by rewrite B4, A4.
Qed.
Lemma fgrow_tframe s L v ip s' :
  fwork s L v ip -> tframe s s' -> tx dev true s' pid st L ∅ ∅ v -> fgrow s v ip s' L v ip.
Proof. clear Hfuel.
  intros Hw F HT. pose proof (changed_refl sb v ip (fw_map _ _ _ _ Hw) (fw_ok _ _ _ _ Hw)) as Hc.
  assert (Hst : fstep i s ip s') by (apply fstep_tframe; [apply Hw|done]).
  split; try done. eapply fwork_intro; [exact Hw|by apply fstep_iostep|done|done].
Qed.

Lemma alloc_addr_spec s L v ip k :
  fwork s L v ip -> (budget sb L ip < Z.to_nat LOGBLOCKS)%nat -> 
  (forall a, datastart sb <= a < sb_size sb -> ~ used sb v a ->
     changed sb v ip (alloced sb v a) (with_addr k a ip) /\
     forall j, bnum (j / BSIZE) -> fbyte (alloced sb v a) (with_addr k a ip) j = fbyte v ip j) ->
  runs (alloc_addr k s) (fun a s' =>
    a = 0 /\ full v /\ fgrow s v ip s' L v ip \/
    datastart sb <= a < sb_size sb /\ ~ used sb v a /\
    fgrow s v ip s' (alloc_log sb L a) (alloced sb v a) (with_addr k a ip)).
Proof.
  intros Hw Hb Hgrow. pose proof Hw as [A1 A2 A3 A4 A5 A6]. unfold alloc_addr. apply runs_bind.
  eapply runs_mono; [apply (balloc_spec dev sb Hfuel pid st L ∅ v A5); try done|].
  - eapply Nat.le_lt_trans; [apply (budget_load sb L ip)|done]. rewrite map_img_empty_L. set_solver.
  - intros a s1 [F1 [(-> & Hfull & HT)|(Ha & Hn & _ & HT)]].
    + left. split; [done|]. split; [done|]. by apply (fgrow_tframe s L).
    + pose proof (datastart_pos sb v A5). destruct (Z.eqb_spec a 0); [lia|].
      assert (At1 : inode_at s1 i ip)
        by (eapply fstep_inode_at; [exact A3|by apply fstep_tframe]).
      rewrite (bind_ok _ _ _ _ _ (upd_inode_eq s1 i ip _ At1)). cbn [runs ret]. right.
      split; [done|]. split; [done|]. destruct (Hgrow a Ha Hn) as [Hc Hby].
      assert (Hst : fstep i s (with_addr k a ip) (set_inodes (<[Z.to_nat i:=with_addr k a ip]> (k_inodes s1)) s1)).
      { eapply fstep_trans; [by apply fstep_tframe|]. apply fstep_set. }
      split; try done. eapply fwork_intro; [exact Hw|by apply fstep_iostep|by apply tx_inodes|done].
Qed.

Definition bmap_post (s : kstate) (L : list Z) (v : Z -> list Z) (ip : inode) (bn a : Z)
    (s' : kstate) : Prop :=
  exists L' v' ip', fgrow s v ip s' L' v' ip' /\
    (a = 0 /\ full v' /\ (budget sb L' ip' <= budget sb L ip)%nat \/
     a <> 0 /\ fblk v' ip' bn = a /\ (budget sb (logged L' a) ip' <= budget sb L ip + 1)%nat).

Lemma bmap_found s L v ip s' a bn :
  fwork s L v ip -> tframe s s' -> tx dev true s' pid st L ∅ ∅ v -> a <> 0 -> fblk v ip bn = a ->
  bmap_post s L v ip bn a s'.
Proof. clear Hfuel.
  intros Hw F HT H0 E. exists L, v, ip. split; [by apply (fgrow_tframe s L)|]. right.
  split; [done|]. split; [done|]. apply (budget_step sb L ip _ ip a); [done|].
  intros w. rewrite elem_of_logged. tauto.
Qed.

(** The indirect block is there. *)
Definition ind_entry (addr bn : Z) : K Z :=
  bp <- bread dev addr ;;
  x <- get_buf bp ;;
  let addr := get32 x.(b_data) (4 * bn) in
  addr <- (if addr =? 0 then
             addr <- balloc dev ;;
             (if negb (addr =? 0) then
                set_data bp (fun d => put32 d (4 * bn) addr) ;;
                log_write bp
              else ret tt) ;;
             ret addr
           else ret addr) ;;
  brelse bp ;;
  ret addr.

Section entry.
Context (s : kstate) (L : list Z) (v : Z -> list Z) (ip : inode) (bn : Z).
Hypothesis (Hw : fwork s L v ip) (Hbn : NDIRECT <= bn < MAXFILE) (Hi : iblk ip <> 0).
Hypothesis Hb : (budget sb L ip + 1 < Z.to_nat LOGBLOCKS)%nat.

Lemma ind_range : datastart sb <= iblk ip < sb_size sb /\ used sb v (iblk ip) /\ iblk ip ∉ bitmaps sb.
Proof. clear Hfuel.
  pose proof (fo_ind _ _ _ (fw_ok _ _ _ _ Hw) Hi) as [Hir Hiu].
  split; [done|]. split; [done|]. rewrite bitmap_range. lia.
Qed.
Lemma indset_eq : indset ip = {[iblk ip]}.
Proof. clear Hfuel. unfold indset. by destruct (Z.eqb_spec (iblk ip) 0). Qed.
Lemma held_ind (bp w : Z) : w ∈ (map_img (<[bp := iblk ip]> (∅ : gmap Z Z)) : gset Z) -> w = iblk ip.
Proof. clear. intros [->|Hin]%img_insert; [done| |done]. rewrite map_img_empty_L in Hin. set_solver. Qed.

(** The fresh entry, with the indirect block held in [bp]. *)
Lemma ind_alloc_spec s1 bp :
  tx dev true s1 pid st L (<[bp := iblk ip]> ∅) ∅ v -> k_sb s1 = sb ->
  runs ((addr <- balloc dev ;;
         (if negb (addr =? 0) then
            set_data bp (fun d => put32 d (4 * (bn - NDIRECT)) addr) ;; log_write bp
          else ret tt) ;;
         ret addr) s1) (fun a s2 => tframe s1 s2 /\
    (a = 0 /\ full v /\ tx dev true s2 pid st L (<[bp := iblk ip]> ∅) ∅ v \/
     datastart sb <= a < sb_size sb /\ ~ used sb v a /\
     tx dev true s2 pid st (logged (alloc_log sb L a) (iblk ip)) (<[bp := iblk ip]> ∅) ∅
       (bput (alloced sb v a) (iblk ip) (put32 (v (iblk ip)) (4 * (bn - NDIRECT)) a)))).
Proof.
  intros HT1 Hsb1. pose proof Hw as [A1 A2 A3 A4 A5 A6]. destruct ind_range as (Hir & Hiu & Hib).
  pose proof (datastart_pos sb v A5) as Hd. apply runs_bind. eapply runs_mono.
  { apply (balloc_spec dev sb Hfuel pid st L (<[bp := iblk ip]> ∅) v A5); [| |exact HT1|done].
    - by intros w ->%held_ind _.
    - eapply Nat.le_lt_trans; [apply (budget_load sb L ip)|lia]. rewrite indset_eq.
      intros w ->%held_ind. set_solver. }
  intros a s2 [F2 [(-> & Hfull & HT2)|(Ha & Hn & _ & HT2)]].
  - cbn [Z.eqb negb]. cbn [runs ret bind rbind]. auto.
  - destruct (Z.eqb_spec a 0); [lia|]. cbn [negb]. apply runs_bind, runs_bind.
    pose proof (lookup_insert_eq (∅ : gmap Z Z) bp (iblk ip)) as Hl.
    eapply runs_mono; [eapply tx_set_data; [exact HT2|exact Hl]|]. intros [] s3 [HT3 F3].
    eapply runs_mono; [eapply tx_log_write; [exact HT3|exact Hl|]|].
    { pose proof (budget_length sb (alloc_log sb L a) ip (tx_nodup _ _ _ _ _ _ _ _ _ HT3)).
      assert ((budget sb (alloc_log sb L a) ip <= budget sb L ip + 1)%nat); [|lia].
      apply (budget_step sb L ip (alloc_log sb L a) ip a eq_refl).
      intros w Hin. apply elem_alloc_log in Hin; [tauto|lia]. }
    intros [] s4 [HT4 F4]. cbn [runs ret].
    replace (({[iblk ip]} ∪ ∅) ∖ {[iblk ip]}) with (∅ : gset Z) in HT4 by set_solver.
    rewrite (ind_kept sb v ip a A5 A6 Ha Hn Hi) in HT4.
    split; [by do 2 (etrans; [eassumption|])|]. right. auto.
Qed.

Lemma ind_entry_spec :
  runs (ind_entry (iblk ip) (bn - NDIRECT) s) (bmap_post s L v ip bn).
Proof.
  pose proof Hw as [A1 A2 A3 A4 A5 A6]. unfold ind_entry. pose proof (datastart_pos sb v A5) as Hd.
  assert (Hblk : fblk v ip bn = get32 (v (iblk ip)) (4 * (bn - NDIRECT))).
  { unfold fblk. replace (bn <? NDIRECT) with false by lia. by destruct (Z.eqb_spec (iblk ip) 0). }
  eapply tx_read; [done|exact A1|rewrite map_img_empty_L; set_solver| |].
  { etrans; [apply (budget_room sb L ip)|].
    etrans; [apply (budget_step sb L ip _ ip (iblk ip) eq_refl)|unfold NBUF, LOGBLOCKS in *; lia].
    intros w. rewrite elem_of_logged. tauto. }
  intros bp x s1 Hbp HT1 F1 Hx Hdx. rewrite (bind_ok _ _ _ _ _ Hx), Hdx. cbv zeta. rewrite <- Hblk.
  assert (Hrel : forall s2 L2 v2, tx dev true s2 pid st L2 (<[bp := iblk ip]> ∅) ∅ v2 ->
    runs (brelse bp s2) (fun _ s3 => tx dev true s3 pid st L2 ∅ ∅ v2 /\ tframe s2 s3)).
  { intros s2 L2 v2 HT2. eapply tx_brelse; [exact HT2|done|rewrite map_img_empty_L|]; set_solver. }
  apply runs_bind. destruct (Z.eqb_spec (fblk v ip bn) 0) as [E|E].
  - eapply runs_mono; [apply ind_alloc_spec; [done|by rewrite (tframe_sb _ _ F1)]|].
    intros a s2 [F2 [(-> & Hfull & HT2)|(Ha & Hn & HT2)]]; apply runs_bind;
      (eapply runs_mono; [by apply Hrel|]); intros [] s3 [HT3 F3]; cbn [runs ret];
      assert (F : tframe s s3) by (by do 2 (etrans; [eassumption|])).
    + exists L, v, ip. split; [by apply (fgrow_tframe s L)|left; by split_and!].
    + destruct (grow_entry sb v ip a A5 A6 Ha Hn bn Hbn Hi E) as (Hpl & Hc & Hby).
      assert (Hst : fstep i s ip s3) by (by apply fstep_tframe).
      eexists _, _, ip. split.
      { split; [exact Hst|eapply fwork_intro; [exact Hw|by apply fstep_iostep|exact HT3|exact Hc]|exact Hc|exact Hby]. }
      right. split; [lia|]. split; [done|].
      apply (budget_step sb L ip _ ip a); [done|]. intros w. rewrite !elem_of_logged.
      intros [->|[->|Hin]]; [auto|rewrite indset_eq; set_solver|]. apply elem_alloc_log in Hin; [tauto|lia].
  - cbn [runs ret]. apply runs_bind. eapply runs_mono; [by apply Hrel|]. intros [] s2 [HT2 F2]. cbn [runs ret].
    apply (bmap_found s L); try done. by etrans.
Qed.
End entry.

Lemma bmap_eq s ip bn :
  inode_at s i ip -> i_dev ip = dev -> bnum bn ->
  bmap i bn s =
    (if bn <? NDIRECT then
       let addr := nth (Z.to_nat bn) (i_addrs ip) 0 in
       if addr =? 0 then alloc_addr bn else ret addr
     else
       addr <- (if iblk ip =? 0 then alloc_addr NDIRECT else ret (iblk ip)) ;;
       if addr =? 0 then ret 0 else ind_entry addr (bn - NDIRECT)) s.
Proof. clear Hfuel.
  intros Hat Hdev Hbn. unfold bmap. rewrite (bind_ok _ _ _ _ _ (get_inode_eq s i ip Hat)), Hdev.
  destruct (bn <? NDIRECT) eqn:E; [done|].
  unfold bnum in Hbn. rewrite MAXFILE_eq in Hbn. cbv zeta.
  replace (bn - NDIRECT <? NINDIRECT) with true; [done|].
  unfold NINDIRECT, NDIRECT, BSIZE in *. change (1024 / 4) with 256. lia.
Qed.

Lemma bmap_spec s L v ip bn :
  fwork s L v ip -> bnum bn -> (budget sb L ip + 1 < Z.to_nat LOGBLOCKS)%nat ->
  runs (bmap i bn s) (bmap_post s L v ip bn).
Proof.
  intros Hw Hbn Hb. pose proof Hw as [A1 A2 A3 A4 A5 A6]. rewrite (bmap_eq s ip bn A3 A4 Hbn).
  pose proof (datastart_pos sb v A5) as Hd.
  destruct (Z.ltb_spec bn NDIRECT) as [Hdir|Hdir]; cbv zeta.
  - assert (Ef : fblk v ip bn = nth (Z.to_nat bn) (i_addrs ip) 0)
      by (unfold fblk; by replace (bn <? NDIRECT) with true by lia).
    rewrite <- Ef. destruct (Z.eqb_spec (fblk v ip bn) 0) as [E|E];
      [|cbn [runs ret]; by apply (bmap_found s L)].
    destruct Hbn as [Hbn _].
    eapply runs_mono; [apply (alloc_addr_spec s L v ip bn); [done|lia|]|].
    { intros a Ha Hn. destruct (grow_direct sb v ip a A5 A6 Ha Hn bn ltac:(lia) E) as (_ & Hc & Hy). auto. }
    intros a s' [(-> & Hfull & Hg)|(Ha & Hn & Hg)].
    + exists L, v, ip. split; [done|]. left. by split_and!.
    + destruct (grow_direct sb v ip a A5 A6 Ha Hn bn ltac:(lia) E) as (Ea & Hc & _).
      eexists _, _, _. split; [exact Hg|]. right. split; [lia|]. split; [done|].
      apply (budget_step sb L ip _ _ a).
      * unfold iblk. rewrite (with_addr_nth sb v) by (done || unfold NDIRECT in *; lia).
        rewrite decide_False by lia. done.
      * intros w. rewrite elem_of_logged. intros [->|Hin]; [auto|]. apply elem_alloc_log in Hin; [tauto|lia].
  - apply runs_bind. destruct Hbn as [_ Hbn]. destruct (Z.eqb_spec (iblk ip) 0) as [E|E].
    + eapply runs_mono; [apply (alloc_addr_spec s L v ip NDIRECT); [done|lia|]|].
      { intros a Ha Hn. destruct (grow_indirect sb v ip a A5 A6 Ha Hn E) as (_ & Hc & Hy). auto. }
      intros a s1 [(-> & Hfull & Hg)|(Ha & Hn & Hg)].
      { exists L, v, ip. split; [done|]. left. by split_and!. }
      destruct (grow_indirect sb v ip a A5 A6 Ha Hn E) as (Ea & _ & _).
      destruct (Z.eqb_spec a 0); [lia|].
      set (ip1 := with_addr NDIRECT a ip) in *. set (L1 := alloc_log sb L a) in *.
      assert (Hb1 : (budget sb L1 ip1 <= budget sb L ip)%nat).
      { apply budget_ind; [done|by rewrite Ea|]. rewrite Ea. intros w Hin.
        apply elem_alloc_log in Hin; [tauto|lia]. }
      rewrite <- Ea. eapply runs_mono; [apply (ind_entry_spec s1 L1 (alloced sb v a) ip1 bn (fg_work _ _ _ _ _ _ _ Hg)); lia|].
      intros a' s2 (L' & v' & ip' & Hg' & Hpost). exists L', v', ip'.
      split; [by eapply fgrow_trans|]. destruct Hpost as [(? & ? & ?)|(? & ? & ?)]; [left|right]; split_and!; done || lia.
    + cbn [runs ret]. destruct (Z.eqb_spec (iblk ip) 0); [done|]. by apply ind_entry_spec.
Qed.

(** ** [writei] *)

Context `{LY : Layout} (pr r : Z) (src : source) `{CF : !CopiesFrom pr r src}.

(** The number of blocks [n] bytes at [off] touch. *)
Definition nblk (off n : Z) : Z := if n <=? 0 then 0 else (off + n - 1) / BSIZE - off / BSIZE + 1.

Lemma nblk_step off n :
  0 <= off -> 0 < n -> let m := Z.min n (BSIZE - off mod BSIZE) in
  0 < m /\ nblk off n = nblk (off + m) (n - m) + 1 /\ 0 <= nblk (off + m) (n - m).
Proof. clear.
  intros Ho Hn m. unfold nblk, m, BSIZE in *. replace (n <=? 0) with false by lia.
  destruct (Z.leb_spec (n - Z.min n (1024 - off mod 1024)) 0); zlia.
Qed.
Lemma nblk_bound off n : 0 <= off -> 0 <= n -> 0 <= nblk off n <= n / BSIZE + 2.
Proof. clear. intros Ho Hn. unfold nblk, BSIZE. destruct (Z.leb_spec n 0); zlia. Qed.

Record written (bs : list Z) (s : kstate) (L : list Z) (v : Z -> list Z) (ip : inode)
    (off n tot : Z) (r : Z * Z) (s' : kstate) (L' : list Z) (v' : Z -> list Z) (ip' : inode) : Prop := {
  wr_step : iostep i s ip' s';
  wr_work : fwork s' L' v' ip';
  wr_changed : changed sb v ip v' ip';
  wr_budget : Z.of_nat (budget sb L' ip') <= Z.of_nat (budget sb L ip) + nblk off (n - tot);
  wr_count : tot <= r.1 <= n /\ r.2 = off + (r.1 - tot);
  wr_bytes : forall k, 0 <= k -> bnum (k / BSIZE) -> fbyte v' ip' k =
    if decide (off <= k < r.2) then byte_at bs (tot + (k - off)) else fbyte v ip k;
  wr_short : r.1 < n -> full v';
}.

Lemma writei_loop_spec bs fuel : forall s T L v ip off n tot,
  fwork s L v ip -> source_ok pr r src bs s T -> 0 <= off -> 0 <= tot <= n -> off + (n - tot) <= MAXFILE * BSIZE ->
  n <= Z.of_nat (length bs) -> nblk off (n - tot) < Z.of_nat fuel ->
  Z.of_nat (budget sb L ip) + nblk off (n - tot) + 1 < LOGBLOCKS ->
  runs (writei_loop fuel i src off n tot s) (fun c s' =>
    (exists T', source_ok pr r src bs s' T' /\ fetched r src s T s' T') /\
    exists L' v' ip', written bs s L v ip off n tot c s' L' v' ip').
Proof.
  induction fuel as [|fuel IH]; intros s T L v ip off n tot Hw Hsrc Ho Ht Hmax Hbs Hfl Hb.
  { pose proof (nblk_bound off (n - tot)). lia. }
  pose proof (nblk_bound off (n - tot) Ho ltac:(lia)) as Hnb. cbn [writei_loop].
  pose proof Hw as [A1 A2 A3 A4 A5 A6]. destruct (Z.ltb_spec tot n) as [Hlt|Hge].
  - destruct (nblk_step off (n - tot) Ho ltac:(lia)) as (Hm0 & Hstep & Hrest).
    set (m := Z.min (n - tot) (BSIZE - off mod BSIZE)) in *.
    assert (Hbn : bnum (off / BSIZE)).
    { unfold bnum. rewrite MAXFILE_eq in *. unfold BSIZE in *. zlia. }
    apply runs_bind. eapply runs_mono; [apply (bmap_spec s L v ip _ Hw Hbn); lia|].
    intros a s1 (L1 & v1 & ip1 & [G1 G2 G3 G4] & [(-> & Hfull & Hb1)|(Ha & Ea & Hb1)]).
    + cbn [Z.eqb runs ret]. destruct (tx_cpu _ _ _ _ _ _ _ _ _ (fw_tx _ _ _ _ G2)) as [Hc1 _].
      split; [exists T; by apply (source_ok_fstep pr r src bs i s ip1)|].
      exists L1, v1, ip1. split; try done; cbn [fst snd]; [by apply fstep_iostep|lia|lia|].
      intros k Hk Hkb. rewrite decide_False by lia. by apply G4.
    + destruct (Z.eqb_spec a 0); [done|]. pose proof G2 as [B1 B2 B3 B4 B5 B6].
      rewrite (bind_ok _ _ _ _ _ (get_inode_eq s1 i ip1 B3)), B4.
      eapply tx_read; [done|exact B1|rewrite map_img_empty_L; set_solver| |].
      { etrans; [apply (budget_room sb L1 ip1)|]. unfold NBUF, LOGBLOCKS in *. lia. }
      intros bp x s2 Hbp HT2 F2 Hx Hdx. cbv zeta. fold m.
      destruct (source_ok_fstep pr r src bs i s ip1 s1 T G1) as [Hsrc1 Hf1]; [by eapply tx_cpu|done|].
      assert (Hcp2 : cpu_ok s2) by (by eapply tx_cpu).
      pose proof (source_ok_tframe pr r src bs _ _ T F2 Hcp2 Hsrc1) as Hsrc2.
      pose proof (fetched_tframe pr r src bs _ _ T F2 Hcp2 Hsrc1) as Hf2.
      apply runs_bind. assert (Hm32 : 0 <= m < 2^32) by (unfold m, BSIZE in *; zlia).
      eapply runs_mono; [by apply (source_copy_ok pr r bs tot m s2 T Hsrc2); lia|].
      intros e s2' (-> & T2 & Fa & Hsrc2' & Hf2'). cbn [fst snd Z.eqb].
      apply (tx_aframe _ _ _ _ _ _ _ _ _ _ Fa) in HT2.
      assert (Hsl : length (slice bs tot m) = Z.to_nat m) by (apply slice_length; lia).
      eapply tx_update; [exact HT2|done|rewrite map_img_empty_L; set_solver| |].
      { pose proof (budget_length sb (logged L1 a) ip1 (logged_nodup _ _ (tx_nodup _ _ _ _ _ _ _ _ _ B1))).
        assert ((length L1 <= length (logged L1 a))%nat); [|lia].
        unfold logged. case_decide; rewrite ?length_app; lia. }
      intros s3 HT3 F3. subst a.
      assert (Hfit : off mod BSIZE + Z.of_nat (length (slice bs tot m)) <= BSIZE) by (rewrite Hsl; lia).
      pose proof (write_changed sb v1 ip1 off _ B5 B6 Hbn Ha Hfit) as Hc2.
      pose proof (write_fbyte sb v1 ip1 off _ B5 B6 Hbn Ha Hfit) as Hy2.
      set (v2 := bput v1 _ _) in *. set (L2 := logged L1 _) in *.
      assert (F13 : iostep i s1 ip1 s3).
      { apply iostep_ioframe; [done|]. etrans; [by apply tframe_ioframe|]. etrans; [by apply aframe_ioframe|].
        by apply tframe_ioframe. }
      assert (Hw3 : fwork s3 L2 v2 ip1) by (by eapply fwork_intro).
      assert (Hcp3 : cpu_ok s3) by (by eapply tx_cpu).
      pose proof (source_ok_tframe pr r src bs _ _ T2 F3 Hcp3 Hsrc2') as Hsrc3.
      pose proof (fetched_tframe pr r src bs _ _ T2 F3 Hcp3 Hsrc2') as Hf3.
      replace (n - tot - m) with (n - (tot + m)) in * by lia.
      eapply runs_mono; [apply (IH s3 T2 L2 v2 ip1 (off + m) n (tot + m) Hw3 Hsrc3); lia|].
      intros c s4 ((T4 & Hsrc4 & Hf4) & L4 & v4 & ip4 & [C1 C2 C3 C4 C5 C6 C7]).
      split; [exists T4; split; [done|]; do 4 (eapply fetched_trans; [eassumption|]); exact Hf4|].
      exists L4, v4, ip4. split; try done.
      * eapply iostep_trans; [by apply fstep_iostep|]. by eapply iostep_trans.
      * eapply changed_trans; [done|exact G3|]. by eapply changed_trans.
      * lia.
      * lia.
      * intros k Hk Hkb. rewrite C6, Hy2, Hsl, G4 by done.
        destruct (decide (off + m <= k < c.2)), (decide (off <= k < c.2));
          try (f_equal; lia); try lia.
        -- rewrite decide_True by lia. rewrite byte_at_slice by lia. f_equal; lia.
        -- by rewrite decide_False by lia.
  - cbn [runs ret]. split; [exists T; split; [done|]; eapply fetched_tframe; [reflexivity|by eapply tx_cpu|done]|].
    exists L, v, ip. assert (tot = n) as -> by lia.
    pose proof (changed_refl sb v ip A5 A6). split; try done; cbn [fst snd]; try lia.
    + apply iostep_ioframe; [done|reflexivity].
    + intros k Hk Hkb. by rewrite decide_False by lia.
Qed.

(** ** [iupdate] *)

Lemma iupdate_spec s L v ip :
  tx dev true s pid st L ∅ ∅ v -> k_sb s = sb -> inode_at s i ip -> i_dev ip = dev ->
  (length L < Z.to_nat LOGBLOCKS)%nat -> (size ({[IBLOCK (i_inum ip) sb]} ∪ in_use L ∅) <= Z.to_nat NBUF)%nat ->
  runs (iupdate i s) (fun _ s' =>
    let w := IBLOCK (i_inum ip) sb in
    tx dev true s' pid st (logged L w) ∅ ∅ (bput v w (dinode_put (v w) (dip_off (i_inum ip)) ip)) /\
    tframe s s').
Proof.
  intros HT Hsb Hat Hdev Hl Hr. unfold iupdate.
  rewrite (bind_ok _ _ s sb s) by (unfold gets; by rewrite Hsb).
  rewrite (bind_ok _ _ _ _ _ (get_inode_eq s i ip Hat)), Hdev.
  eapply tx_read; [done|exact HT|rewrite map_img_empty_L; set_solver|done|].
  intros bp x s1 Hbp HT1 F1 _ _.
  assert (Hat1 : inode_at s1 i ip) by (eapply fstep_inode_at; [exact Hat|by apply fstep_tframe]).
  rewrite (bind_ok _ _ _ _ _ (get_inode_eq s1 i ip Hat1)).
  eapply runs_mono; [eapply tx_update_last; [exact HT1|done|rewrite map_img_empty_L; set_solver|done]|].
  intros [] s2 [HT2 F2]. split; [exact HT2|by etrans].
Qed.

(** ** The whole of [writei] *)


Lemma budget_bound L ip :
  NoDup L -> 0 <= nbitmap sb -> Z.of_nat (budget sb L ip) <= Z.of_nat (length L) + nbitmap sb + 1.
Proof. clear Hfuel.
  intros HL Hn. unfold budget.
  assert (Hs : (size (bset sb L ip) <= Z.to_nat (nbitmap sb) + length L + size (indset ip))%nat).
  { unfold bset. etrans; [apply size_union_le|]. apply Nat.add_le_mono_r.
    etrans; [apply size_union_le|]. rewrite <- (length_set L HL). apply Nat.add_le_mono_r.
    unfold bitmaps. rewrite size_list_to_set by apply NoDup_seqZ. by rewrite length_seqZ. }
  assert (Hi : (size (indset ip) + (if decide (iblk ip = 0)%Z then 1 else 0) <= 1)%nat).
  { unfold indset. case_decide as Hi; [by rewrite Hi|].
    destruct (Z.eqb_spec (iblk ip) 0); [done|]. by rewrite size_singleton. }
  lia.
Qed.

(** The file after [c] bytes of [bs] have been written at [off]. *)
Record wrote (bs : list Z) (s : kstate) (v : Z -> list Z) (ip : inode) (off c : Z)
    (s' : kstate) (L' : list Z) (v' : Z -> list Z) (ip' : inode) : Prop := {
  wt_work : fwork s' L' v' ip';
  wt_step : iostep i s ip' s';
  wt_inode : ip' = set_i_size (Z.max (i_size ip) (off + c)) (set_i_addrs (i_addrs ip') ip);
  wt_bytes : forall k, 0 <= k < MAXFILE * BSIZE -> fbyte v' ip' k =
    if decide (off <= k < off + c) then byte_at bs (k - off) else fbyte v ip k;
  wt_saved : let w := IBLOCK (i_inum ip) sb in v' w = dinode_put (v w) (dip_off (i_inum ip)) ip';
  wt_frame : forall w, 0 <= w < sb_size sb -> used sb v w -> w ∉ bitmaps sb -> ~ owns v ip w ->
    w <> IBLOCK (i_inum ip) sb -> v' w = v w;
  wt_used : forall w, 0 <= w < sb_size sb -> used sb v' w <-> used sb v w \/ owns v' ip' w;
  wt_keep : forall bn, bnum bn -> fblk v ip bn <> 0 -> fblk v' ip' bn = fblk v ip bn;
}.

Lemma bnum_off k : 0 <= k < MAXFILE * BSIZE -> bnum (k / BSIZE).
Proof. clear. unfold bnum. rewrite MAXFILE_eq. unfold BSIZE. intros. zlia. Qed.

(** The last steps: the new size, and the inode saved. *)
Lemma writei_finish bs s L v ip off n cn s1 L1 v1 ip1 :
  fwork s L v ip -> written bs s L v ip off n 0 cn s1 L1 v1 ip1 -> 0 <= off ->
  0 <= IBLOCK (i_inum ip) sb < sb_bmapstart sb ->
  Z.of_nat (budget sb L1 ip1) + 1 < LOGBLOCKS ->
  runs ((upd_inode i (fun ip => if cn.2 >? ip.(i_size) then set_i_size cn.2 ip else ip) ;;
         iupdate i ;; ret cn.1) s1) (fun c s' => c = cn.1 /\ (exists ip2, fstep i s1 ip2 s') /\ exists L' v' ip',
    wrote bs s v ip off c s' L' v' ip' /\ (c < n -> forall b, 0 <= b < sb_size sb -> used sb v' b)).
Proof.
  intros Hw [C1 C2 C3 C4 [C5 C5'] C6 C7] Ho Hib Hb. pose proof C2 as [B1 B2 B3 B4 B5 B6].
  pose proof Hw as [A1 A2 A3 A4 A5 A6].
  rewrite (bind_ok _ _ _ _ _ (upd_inode_eq s1 i ip1 _ B3)).
  set (ip2 := if cn.2 >? i_size ip1 then _ else _). set (s2 := set_inodes _ s1).
  pose proof (ch_ip _ _ _ _ _ C3) as Eip.
  assert (E2 : ip2 = set_i_size (Z.max (i_size ip) (off + cn.1)) (set_i_addrs (i_addrs ip1) ip)).
  { unfold ip2. rewrite C5', Eip. destruct ip as [d1 d2 d3 d4 d5 d6 d7 d8 sz d10].
    cbn [i_size i_addrs set_i_size set_i_addrs].
    destruct (Z.gtb_spec (off + (cn.1 - 0)) sz); [|by rewrite Z.max_l by lia].
    rewrite Z.max_r by lia. by replace (off + (cn.1 - 0)) with (off + cn.1) by lia. }
  assert (Ea : i_addrs ip2 = i_addrs ip1) by (by rewrite E2).
  assert (Einum : i_inum ip2 = i_inum ip) by (by rewrite E2).
  assert (F2 : fstep i s1 ip2 s2) by apply fstep_set.
  assert (Hat2 : inode_at s2 i ip2) by (exact (fstep_inode_at i s1 ip1 ip2 s2 B3 F2)).
  set (w := IBLOCK (i_inum ip) sb) in *.
  apply runs_bind. eapply runs_mono; [apply (iupdate_spec s2 L1 v1 ip2); [by apply tx_inodes|done| | | |]|].
  { done. }
  { rewrite E2. by destruct ip. }
  { pose proof (budget_length sb L1 ip1 (tx_nodup _ _ _ _ _ _ _ _ _ B1)). lia. }
  { etrans; [apply (budget_room sb L1 ip1)|].
    etrans; [apply (budget_step sb L1 ip1 _ ip1 (IBLOCK (i_inum ip2) sb) eq_refl)|unfold NBUF, LOGBLOCKS in *; lia].
    intros x. rewrite elem_of_logged. tauto. }
  rewrite Einum. fold w. intros [] s3 [HT3 F3]. cbn [runs ret]. split; [done|].
  split; [exists ip2; eapply fstep_trans; [exact F2|by apply fstep_tframe]|]. cbv zeta in HT3.
  set (v3 := bput v1 w _) in HT3.
  assert (Hwb : w ∉ bitmaps sb) by (rewrite bitmap_range; lia).
  assert (Hds : w < datastart sb) by (pose proof (nbitmap_nonneg sb v A5); unfold datastart; lia).
  assert (Hnw : forall x, owns v1 ip1 x -> v3 x = v1 x).
  { intros x Hx. apply bput_ne. intros ->. apply (data_owned sb) in Hx as [Hx _]; [|done].
    lia. }
  destruct (same_blocks v1 ip1 v3 ip2 Ea Hnw) as (Hsb & Hsy & Hso).
  assert (Hm3 : mapped sb v3).
  { apply mapped_bput; [done|done|]. rewrite dinode_put_length. apply (mp_len _ _ B5). }
  assert (Hu3 : forall x, 0 <= x < sb_size sb -> used sb v3 x <-> used sb v1 x)
    by (intros x Hx; by apply used_bput).
  eexists _, v3, ip2. split; [split|].
  - split; [exact HT3| | | |done|].
    + rewrite (tframe_sb _ _ F3). done.
    + eapply fstep_inode_at; [exact Hat2|by apply fstep_tframe].
    + rewrite E2. by destruct ip.
    + apply (file_ok_same sb v1 ip1); try done. intros x Hx. by apply Hu3.
  - eapply iostep_trans; [exact C1|]. apply fstep_iostep. eapply fstep_trans; [exact F2|].
    by apply fstep_tframe.
  - by rewrite Ea, E2.
  - intros k Hk. pose proof (bnum_off k Hk) as Hkb. rewrite Hsy by done.
    rewrite C6 by (done || lia). rewrite C5'. replace (off + (cn.1 - 0)) with (off + cn.1) by lia.
    case_decide; [f_equal; lia|done].
  - unfold v3. rewrite bput_eq. f_equal. pose proof (mp_size _ _ A5). apply (ch_frame _ _ _ _ _ C3); [lia| |done|].
    + apply (mp_meta _ _ A5). lia.
    + intros Hx. apply (data_owned sb) in Hx as [Hx _]; [lia|done].
  - intros x Hx Hu Hb' Hno Hne. unfold v3. rewrite bput_ne by done. by apply (ch_frame _ _ _ _ _ C3).
  - intros x Hx. rewrite Hu3, Hso by done. split; [apply (ch_new _ _ _ _ _ C3); done|].
    intros [Hu|Hu]; [by apply (ch_used _ _ _ _ _ C3)|]. by apply (data_owned sb) in Hu as [_ Hu].
  - intros bn Hbn H0. rewrite Hsb by done. by apply (ch_keep _ _ _ _ _ C3).
  - intros Hlt b Hb'. apply Hu3; [done|]. by apply C7.
Qed.

Definition writei_fits (ip : inode) (off n : Z) : Prop := off <= i_size ip /\ off + n <= MAXFILE * BSIZE.

Lemma writei_refused s ip off n :
  inode_at s i ip -> 0 <= off < 2^32 -> 0 <= n < 2^32 -> ~ writei_fits ip off n ->
  writei i src off n s = Ok (-1) s.
Proof. clear Hfuel.
  intros Hat Ho Hn Hno. unfold writei. rewrite (bind_ok _ _ _ _ _ (get_inode_eq s i ip Hat)).
  destruct (Z.gtb_spec off (i_size ip)); [done|].
  destruct (Z.ltb_spec (u32 (off + n)) off); [done|]. cbn [orb].
  destruct (Z.gtb_spec (off + n) (MAXFILE * BSIZE)) as [|Hle]; [done|].
  exfalso. apply Hno. by split.
Qed.

Lemma writei_io_spec bs s T L v ip off n :
  fwork s L v ip -> source_ok pr r src bs s T -> 0 <= off -> n = Z.of_nat (length bs) -> writei_fits ip off n ->
  0 <= IBLOCK (i_inum ip) sb < sb_bmapstart sb ->
  Z.of_nat (length L) + nbitmap sb + nblk off n + 2 < LOGBLOCKS ->
  runs (writei i src off n s) (fun c s' => (exists T', fetched r src s T s' T') /\ 0 <= c <= n /\ exists L' v' ip',
    wrote bs s v ip off c s' L' v' ip' /\ (c < n -> forall b, 0 <= b < sb_size sb -> used sb v' b)).
Proof.
  intros Hw Hsrc Ho Hn [Hsz Hmax] Hib Hb. pose proof Hw as [A1 A2 A3 A4 A5 A6].
  unfold writei. rewrite (bind_ok _ _ _ _ _ (get_inode_eq s i ip A3)).
  replace (off >? i_size ip) with false by (destruct (Z.gtb_spec off (i_size ip)); lia).
  assert (Hu : u32 (off + n) = off + n).
  { unfold u32. apply Z.mod_small. rewrite MAXFILE_eq in Hmax. unfold BSIZE in Hmax. lia. }
  rewrite Hu. replace (off + n <? off) with false by lia. cbn [orb].
  replace (off + n >? MAXFILE * BSIZE) with false by (destruct (Z.gtb_spec (off + n) (MAXFILE * BSIZE)); lia).
  pose proof (budget_bound L ip (tx_nodup _ _ _ _ _ _ _ _ _ A1) (nbitmap_nonneg _ _ A5)) as Hbb.
  pose proof (nblk_bound off n Ho ltac:(lia)) as Hnb.
  assert (Hz : nblk off (n - 0) = nblk off n) by (by rewrite Z.sub_0_r).
  apply runs_bind. eapply runs_mono; [apply (writei_loop_spec bs _ s T L v ip off n 0 Hw Hsrc); lia|].
  intros c s1 ((T1 & Hsrc1 & Hf1) & L1 & v1 & ip1 & Hwr). pose proof (wr_count _ _ _ _ _ _ _ _ _ _ _ _ _ Hwr) as [Hc _].
  pose proof (wr_budget _ _ _ _ _ _ _ _ _ _ _ _ _ Hwr) as Hb1.
  eapply runs_mono; [apply (writei_finish bs s L v ip off n c s1 L1 v1 ip1 Hw Hwr Ho Hib); lia|].
  intros c' s2 (-> & [ip2 F2] & L' & v' & ip' & Hpost & Hfull). split; [|split; [done|by exists L', v', ip']].
  exists T1. eapply fetched_trans; [exact Hf1|]. eapply source_ok_fstep; [exact F2| |done].
  eapply tx_cpu. apply (fw_tx _ _ _ _ (wt_work _ _ _ _ _ _ _ _ _ _ Hpost)).
Qed.
End bmap.

(** From a variable of the caller. *)
Lemma writei_spec `{W : WaitFuel, BD : BlockDev, !BlockDevOk BD, LY : Layout} dev sb i pid st bs s L v ip off n :
  (0 < wait_fuel)%nat -> fwork dev sb i pid st s L v ip -> 0 <= off -> n = Z.of_nat (length bs) ->
  writei_fits ip off n -> 0 <= IBLOCK (i_inum ip) sb < sb_bmapstart sb ->
  Z.of_nat (length L) + nbitmap sb + nblk off n + 2 < LOGBLOCKS ->
  runs (writei i (SLocal bs) off n s) (fun c s' => 0 <= c <= n /\ exists L' v' ip',
    wrote dev sb i pid st bs s v ip off c s' L' v' ip' /\ fstep i s ip' s' /\
    (c < n -> forall b, 0 <= b < sb_size sb -> used sb v' b)).
Proof.
  intros Hfuel Hw Ho Hn Hfit Hib Hb.
  eapply runs_mono; [by apply (writei_io_spec dev sb i pid st Hfuel 0 0 (SLocal bs) bs s (fun _ => None) L v ip off n)|].
  intros c s' ([T' [Hm _]] & Hc & L' & v' & ip' & Hwr & Hfull). split; [done|]. exists L', v', ip'.
  split; [done|]. split; [|done]. apply iostep_fstep; [apply Hwr|done].
Qed.

(** ** [readi] *)

Section read.
Context `{W : WaitFuel, LY : Layout, BD : BlockDev, !BlockDevOk BD}.
Context (dev : Z) (op : bool) (sb : superblock) (i pid st : Z) (L : list Z) (v : Z -> list Z) (ip : inode).
Hypothesis Hfuel : (0 < wait_fuel)%nat.
Hypothesis (Hdev : i_dev ip = dev) (Hlen : forall w, length (v w) = Z.to_nat BSIZE).
Hypothesis Hroom : (length L < Z.to_nat NBUF)%nat.

(** No transaction is needed: nothing is written. *)
Definition reading (s : kstate) : Prop := tx dev op s pid st L ∅ ∅ v /\ inode_at s i ip.

Lemma read_room s w : reading s -> (size ({[w]} ∪ in_use L ∅) <= Z.to_nat NBUF)%nat.
Proof. clear Hfuel.
  intros [HT _]. rewrite size_add. unfold in_use. rewrite map_img_empty_L, (right_id_L ∅ _).
  rewrite <- (length_set L) by apply HT. case_decide; lia.
Qed.

Lemma bmap_read s bn :
  reading s -> bnum bn -> fblk v ip bn <> 0 ->
  runs (bmap i bn s) (fun a s' => a = fblk v ip bn /\ reading s' /\ tframe s s').
Proof.
  intros Hrd Hbn Hnz. pose proof Hrd as [HT Hat]. rewrite (bmap_eq dev i s ip bn Hat Hdev Hbn). unfold fblk in *.
  destruct (Z.ltb_spec bn NDIRECT); cbv zeta.
  { destruct (Z.eqb_spec (nth (Z.to_nat bn) (i_addrs ip) 0) 0); [done|]. cbn [runs ret].
    split; [done|]. split; [by split|reflexivity]. }
  destruct (Z.eqb_spec (iblk ip) 0) as [|Hi]; [done|]. rewrite (bind_ok _ _ s (iblk ip) s) by done.
  destruct (Z.eqb_spec (iblk ip) 0); [done|]. unfold ind_entry.
  eapply tx_read; [done|exact HT|rewrite map_img_empty_L; set_solver|by eapply read_room|].
  intros bp x s1 Hbp HT1 F1 Hx Hdx. rewrite (bind_ok _ _ _ _ _ Hx), Hdx. cbv zeta.
  destruct (Z.eqb_spec (get32 (v (iblk ip)) (4 * (bn - NDIRECT))) 0); [done|].
  rewrite (bind_ok _ _ s1 (get32 (v (iblk ip)) (4 * (bn - NDIRECT))) s1) by done. apply runs_bind.
  eapply runs_mono; [eapply tx_brelse; [exact HT1|done|rewrite map_img_empty_L; set_solver|set_solver]|].
  intros [] s2 [HT2 F2]. cbn [runs ret]. assert (F : tframe s s2) by (by etrans).
  split; [done|]. split; [|done]. split; [done|].
  eapply fstep_inode_at; [exact Hat|by apply fstep_tframe].
Qed.

Definition fbytes (off n : Z) : list Z := fbyte v ip <$> seqZ off n.

Lemma fbytes_app off m n : 0 <= m -> 0 <= n -> fbytes off (m + n) = fbytes off m ++ fbytes (off + m) n.
Proof. clear. intros. unfold fbytes. by rewrite seqZ_app, fmap_app. Qed.

Lemma block_bytes off m :
  0 <= off -> 0 <= m -> off mod BSIZE + m <= BSIZE -> fblk v ip (off / BSIZE) <> 0 ->
  slice (v (fblk v ip (off / BSIZE))) (off mod BSIZE) m = fbytes off m.
Proof. clear Hfuel Hroom.
  intros Ho Hm Hfit Hnz. assert (HB : 0 < BSIZE) by done. pose proof (Z.mod_pos_bound off BSIZE HB).
  assert (Hl : length (slice (v (fblk v ip (off / BSIZE))) (off mod BSIZE) m) = Z.to_nat m)
    by (apply slice_length; rewrite ?Hlen; lia).
  apply list_eq. intros j. unfold fbytes. destruct (decide (j < Z.to_nat m)%nat) as [Hj|Hj].
  - rewrite list_lookup_fmap, lookup_seqZ_lt by lia. cbn [fmap option_fmap option_map].
    assert (Hd : (off + Z.of_nat j) / BSIZE = off / BSIZE) by (unfold BSIZE in *; zlia).
    assert (Hmd : (off + Z.of_nat j) mod BSIZE = off mod BSIZE + Z.of_nat j) by (unfold BSIZE in *; zlia).
    unfold fbyte. rewrite Hd, Hmd. destruct (Z.eqb_spec (fblk v ip (off / BSIZE)) 0); [done|].
    rewrite <- (byte_at_slice _ _ m) by lia. unfold byte_at. rewrite Nat2Z.id.
    destruct (slice _ _ m !! j) eqn:E; [done|]. apply lookup_ge_None in E. lia.
  - rewrite lookup_ge_None_2 by lia. rewrite lookup_ge_None_2; [done|].
    rewrite length_fmap, length_seqZ. lia.
Qed.

Lemma fbytes_length off n : length (fbytes off n) = Z.to_nat n.
Proof. clear. unfold fbytes. by rewrite length_fmap, length_seqZ. Qed.
Lemma fbytes_bytes off n : (forall w, Forall (fun b => 0 <= b < 256) (v w)) -> Forall (fun b => 0 <= b < 256) (fbytes off n).
Proof. clear.
  intros Hb. apply Forall_fmap, Forall_forall. intros k _. cbn. unfold fbyte. destruct (_ =? _); [lia|].
  unfold byte_at. destruct (_ !! _) as [b|] eqn:E; [|cbn; lia]. by apply (Forall_lookup_1 _ _ _ _ (Hb _) E).
Qed.

Context (pr r : Z) (dst : dest) `{CT : !CopiesTo pr r dst}.
Hypothesis Hbytes : match dst with DUser _ => forall w, Forall (fun b => 0 <= b < 256) (v w) | _ => True end.

(** The bytes [bs] of [n] asked for arrived, or a copy failed. *)
Definition read_out (tot n : Z) (acc bs : list Z) (s : kstate) (T : Z -> option Z) (c : Z * list Z) (s' : kstate) : Prop :=
  exists T', dest_ok pr r dst s' T' /\ (dest_ready dst tot (n - tot) s T -> c.1 = n) /\
    (c = (n, acc ++ bs) /\ delivered r dst tot bs s T s' T' \/ c.1 = -1 /\ spilled r dst tot (n - tot) s T s' T').

Lemma readi_loop_spec fuel : forall s T off n tot acc,
  reading s -> dest_ok pr r dst s T -> dest_fits dst n -> 0 <= off -> 0 <= tot <= n -> n < 2^32 ->
  off + (n - tot) <= MAXFILE * BSIZE ->
  (forall k, off <= k < off + (n - tot) -> fblk v ip (k / BSIZE) <> 0) ->
  nblk off (n - tot) < Z.of_nat fuel ->
  runs (readi_loop fuel i dst off n tot acc s) (fun c s' => reading s' /\ ioframe s s' /\
    read_out tot n acc (fbytes off (n - tot)) s T c s').
Proof.
  induction fuel as [|fuel IH]; intros s T off n tot acc Hrd Hok Hfit Ho Ht Hn Hmax Hnz Hfl.
  { pose proof (nblk_bound off (n - tot)). lia. }
  cbn [readi_loop]. destruct (Z.ltb_spec tot n) as [Hlt|Hge].
  - destruct (nblk_step off (n - tot) Ho ltac:(lia)) as (Hm0 & Hstep & Hrest).
    set (m := Z.min (n - tot) (BSIZE - off mod BSIZE)) in *.
    assert (Hbn : bnum (off / BSIZE)) by (apply bnum_off; lia).
    pose proof (Hnz off ltac:(lia)) as Ha.
    apply runs_bind. eapply runs_mono; [by apply bmap_read|]. intros a s1 (-> & Hrd1 & F1).
    destruct (Z.eqb_spec (fblk v ip (off / BSIZE)) 0); [done|]. pose proof Hrd1 as [HT1 Hat1].
    rewrite (bind_ok _ _ _ _ _ (get_inode_eq s1 i ip Hat1)), Hdev.
    eapply tx_read; [done|exact HT1|rewrite map_img_empty_L; set_solver|by eapply read_room|].
    intros bp x s2 Hbp HT2 F2 Hx Hdx. cbv zeta. fold m.
    rewrite (bind_ok _ _ _ _ _ Hx), Hdx, block_bytes by (done || lia).
    assert (F12 : tframe s s2) by (by etrans). destruct (tx_cpu _ _ _ _ _ _ _ _ _ HT2) as [Hc2 Hp2].
    assert (Hl : length (fbytes off m) = Z.to_nat m) by apply fbytes_length.
    apply runs_bind. eapply runs_mono.
    { apply (dest_copy_ok pr r tot (fbytes off m) s2 T Hc2 Hp2); [by eapply dest_ok_tframe|lia|lia| |lia|].
      - rewrite Hl. destruct dst; cbn in *; try done. lia.
      - destruct dst; cbn; try done. by apply fbytes_bytes. }
    rewrite Hl, Z2Nat.id by lia. intros e s3 (T3 & Fa & Hok3 & Hre & He).
    apply (tx_aframe _ _ _ _ _ _ _ _ _ _ Fa) in HT2.
    assert (Hrel : runs (brelse bp s3) (fun _ s4 => tx dev op s4 pid st L ∅ ∅ v /\ tframe s3 s4))
      by (eapply tx_brelse; [exact HT2|done|rewrite map_img_empty_L; set_solver|set_solver]).
    assert (Hio : forall s4, tframe s3 s4 -> ioframe s s4).
    { intros s4 F4. etrans; [by apply tframe_ioframe|]. etrans; [by apply aframe_ioframe|]. by apply tframe_ioframe. }
    assert (Hrdy : dest_ready dst tot (n - tot) s T -> e = 0 /\ dest_ready dst (tot + m) (n - (tot + m)) s3 T3).
    { intros Hr. apply (dest_ready_tframe _ _ _ _ _ _ F12) in Hr. destruct Hre as [He0 Hk].
      - rewrite <- (Z.add_0_r tot). apply (dest_ready_sub _ tot (n - tot)); (done || lia).
      - split; [done|]. apply Hk. apply (dest_ready_sub _ tot (n - tot)); (done || lia). }
    destruct He as [[-> Hd]|[-> Hsp]]; cbn [Z.eqb]; apply runs_bind; (eapply runs_mono; [exact Hrel|]); intros [] s4 [HT4 F4];
      pose proof (proj1 (tx_cpu _ _ _ _ _ _ _ _ _ HT4)) as Hc4;
      (assert (Hrd4 : reading s4) by (split; [done|]; eapply ioframe_inode_at; [apply Hrd|by apply Hio]));
      pose proof (dest_ok_tframe _ _ _ _ _ _ F4 Hc4 Hok3) as Hok4.
    + pose proof (delivered_io _ _ _ _ _ _ _ _ _ _ F12 Hd F4 Hc4) as Hd4.
      replace (n - tot - m) with (n - (tot + m)) in * by lia.
      eapply runs_mono; [apply (IH s4 T3 (off + m) n (tot + m)); try done; try lia|].
      { intros k Hk. apply Hnz. lia. }
      intros c s5 (Hrd5 & F5 & T5 & Hok5 & Hr5 & Hc5). split; [done|]. split; [etrans; [by apply Hio|done]|].
      assert (Esplit : fbytes off (n - tot) = fbytes off m ++ fbytes (off + m) (n - (tot + m)))
        by (rewrite <- fbytes_app by lia; f_equal; lia).
      exists T5. split; [done|]. split.
      { intros Hr. apply Hr5. apply (dest_ready_tframe _ _ _ _ _ _ F4). by apply Hrdy. }
      rewrite Esplit. destruct Hc5 as [[-> Hd5]|[Hc5 Hsp5]]; [left|right].
      * split; [by rewrite app_assoc|]. eapply delivered_app; [|exact Hd4|].
        { rewrite Hl, fbytes_length. lia. }
        rewrite Hl, Z2Nat.id by lia. exact Hd5.
      * split; [done|]. replace (n - tot) with (Z.of_nat (length (fbytes off m)) + (n - (tot + m))) by lia.
        eapply delivered_spilled; [lia|exact Hd4|]. by rewrite Hl, Z2Nat.id by lia.
    + cbn [runs ret]. split; [done|]. split; [by apply Hio|]. exists T3. split; [done|].
      split; [intros Hr; by destruct (Hrdy Hr)|]. right. split; [done|].
      eapply (spilled_mono _ _ _ m); [lia|]. by eapply spilled_io.
  - cbn [runs ret]. assert (tot = n) as -> by lia. rewrite Z.sub_diag. unfold fbytes. simpl.
    split; [done|]. split; [reflexivity|]. exists T. split; [done|]. split; [done|]. left.
    rewrite app_nil_r. split; [done|]. by eapply delivered_nil.
Qed.

(** [c] bytes from [off] are within the file. *)
Definition read_range (off n : Z) : option Z :=
  if decide (off <= i_size ip /\ off + n < 2^32) then Some (Z.min n (i_size ip - off)) else None.

Lemma readi_io_spec s T off n :
  reading s -> dest_ok pr r dst s T -> dest_fits dst n -> 0 <= off < 2^32 -> 0 <= n < 2^32 -> i_size ip <= MAXFILE * BSIZE ->
  (forall k, 0 <= k < i_size ip -> fblk v ip (k / BSIZE) <> 0) ->
  runs (readi i dst off n s) (fun res s' => reading s' /\ ioframe s s' /\
    match read_range off n with
    | Some c => read_out 0 c [] (fbytes off c) s T res s'
    | None => res = (0, []) /\ s' = s
    end).
Proof.
  intros Hrd Hok Hfit Ho Hn Hsz Hnz. unfold readi, read_range. rewrite (bind_ok _ _ _ _ _ (get_inode_eq s i ip (proj2 Hrd))).
  assert (Hu : u32 (off + n) = if decide (off + n < 2^32) then off + n else off + n - 2^32).
  { unfold u32. case_decide; [apply Z.mod_small; lia|].
    rewrite <- (Z_mod_plus_full (off + n) (-1) (2^32)). rewrite Z.mod_small; lia. }
  rewrite Hu. destruct (decide (off <= i_size ip /\ off + n < 2^32)) as [[H1 H2]|Hno].
  - rewrite decide_True by done.
    replace (off >? i_size ip) with false by (destruct (Z.gtb_spec off (i_size ip)); lia).
    replace (off + n <? off) with false by lia. cbn [orb]. cbv zeta.
    replace (if off + n >? i_size ip then i_size ip - off else n) with (Z.min n (i_size ip - off))
      by (destruct (Z.gtb_spec (off + n) (i_size ip)); lia).
    set (c := Z.min n (i_size ip - off)).
    pose proof (nblk_bound off c ltac:(lia) ltac:(lia)).
    eapply runs_mono; [apply (readi_loop_spec _ s T); try done; rewrite ?Z.sub_0_r; try lia|].
    + destruct dst; cbn in *; try done. lia.
    + intros k Hk. apply Hnz. lia.
    + intros res s' Hres. by rewrite Z.sub_0_r in Hres.
  - assert (Hor : (off >? i_size ip) || ((if decide (off + n < 2^32) then off + n else off + n - 2^32) <? off) = true).
    { destruct (Z.gtb_spec off (i_size ip)); [done|]. cbn [orb]. case_decide; lia. }
    rewrite Hor. cbn [runs ret]. split; [done|]. split; [reflexivity|done].
Qed.
End read.

(** To a variable of the caller. *)
Lemma readi_spec `{W : WaitFuel, LY : Layout, BD : BlockDev, !BlockDevOk BD} dev op i pid st L v ip :
  (0 < wait_fuel)%nat -> i_dev ip = dev -> (forall w, length (v w) = Z.to_nat BSIZE) -> (length L < Z.to_nat NBUF)%nat ->
  forall s off n, reading dev op i pid st L v ip s -> 0 <= off < 2^32 -> 0 <= n < 2^32 -> i_size ip <= MAXFILE * BSIZE ->
  (forall k, 0 <= k < i_size ip -> fblk v ip (k / BSIZE) <> 0) ->
  runs (readi i DLocal off n s) (fun r s' => reading dev op i pid st L v ip s' /\ tframe s s' /\
    r = if decide (off <= i_size ip /\ off + n < 2^32) then
          let c := Z.min n (i_size ip - off) in (c, fbytes v ip off c)
        else (0, [])).
Proof.
  intros Hf Hdev Hlen Hroom s off n Hrd Ho Hn Hsz Hnz.
  eapply runs_mono; [by apply (readi_io_spec dev op i pid st L v ip Hf Hdev Hlen Hroom 0 0 DLocal Logic.I s (fun _ => None) off n)|].
  unfold read_range. intros res s' (Hrd' & F & Hres). split; [done|]. case_decide.
  - destruct Hres as (T' & _ & _ & [[-> [Hm _]]|[_ []]]). split; [by apply ioframe_tframe|done].
  - destruct Hres as [-> ->]. split; [reflexivity|done].
Qed.
