(* ===== verification/FsDir.v ===== *)
(** * Directories and the inode table

    [iget] and [dirlookup] of [fs.c]: an inode has at most one entry in the
    table; a directory is searched in order, and the first entry with the name
    is returned. *)

From S2P Require Import Prelude CMem Machine Sv32 Spinlock Kalloc Printf PrintfProof.
From S2P Require Import Sched SchedProof UserMem Sleeplock Bio BioProof Codec Log LogProof.
From S2P Require Import Fs FsInode FsTx FsBitmap FsFile FsIo.

(** ** Names

    The characters of a name field, up to the first NUL or [n] bytes. *)
Fixpoint nul_str (n : nat) (l : list Z) : list Z :=
  match n, l with
  | S n', c :: l' => if c mod 256 =? 0 then [] else c mod 256 :: nul_str n' l'
  | _, _ => []
  end.
Definition dir_name (l : list Z) : list Z := nul_str (Z.to_nat DIRSIZ) l.

Lemma cstrn_write n : forall l m a,
  (forall b, a + Z.of_nat (length l) <= b < a + Z.of_nat n -> load8 m b = 0) ->
  cstrn n (write_bytes m a l) a = nul_str n l.
Proof.
  induction n as [|n IH]; intros l m a H; [done|]. destruct l as [|c l]; cbn [cstrn nul_str write_bytes].
  - by rewrite H by (simpl; lia).
  - rewrite write_bytes_out by lia. rewrite load8_store8_eq. destruct (c mod 256 =? 0); [done|]. f_equal.
    apply IH. intros b Hb. cbn [length] in H. rewrite load8_store8_ne by lia. apply H. lia.
Qed.

Lemma namecmp_eq0 s t : (length s <= 4096)%nat -> namecmp s t = 0 <-> dir_name s = dir_name t.
Proof.
  intros Hs. unfold namecmp, strncmp. rewrite strncmp_loop_eq0.
  assert (H0 : forall b, load8 ∅ b = 0) by (intros b; unfold load8; by rewrite lookup_empty).
  assert (E1 : cstrn (Z.to_nat DIRSIZ) (write_bytes (write_bytes ∅ 0 s) 4096 t) 0 = dir_name s).
  { rewrite (cstrn_ext _ (write_bytes ∅ 0 s)); [apply cstrn_write; intros; apply H0|].
    intros b Hb. apply write_bytes_out. unfold DIRSIZ in Hb. lia. }
  assert (E2 : cstrn (Z.to_nat DIRSIZ) (write_bytes (write_bytes ∅ 0 s) 4096 t) 4096 = dir_name t).
  { apply cstrn_write. intros b Hb. rewrite write_bytes_out by lia. apply H0. }
  by rewrite E1, E2.
Qed.

Lemma nul_str_read n : forall m a, nul_str n (read_bytes n m a) = cstrn n m a.
Proof.
  induction n as [|n IH]; intros m a; [done|]. cbn [nul_str read_bytes cstrn].
  rewrite Z.mod_small by apply load8_range. by rewrite IH.
Qed.

(** The entry [dirlink] writes: its size, its inode number and its name. *)
Section make.
Context (old name : list Z) (inum : Z).
Hypothesis (Hold : length old = Z.to_nat DIRENT_SIZE) (Hname : (length name <= 4096)%nat).

Lemma dirent_make_length : length (dirent_make old name inum) = Z.to_nat DIRENT_SIZE.
Proof.
  unfold dirent_make. rewrite put16_length, length_app, length_take, read_bytes_length, Hold. done.
Qed.
Lemma dirent_make_inum : de_inum (dirent_make old name inum) = inum mod 2^16.
Proof. clear Hname.
  unfold de_inum, dirent_make. apply get16_put16; [done|].
  rewrite length_app, length_take, read_bytes_length, Hold. unfold DIRENT_SIZE, DIRSIZ. lia.
Qed.
Lemma drop_put16 (l : list Z) x : drop 2 (put16 l 0 x) = drop 2 l.
Proof. clear. by destruct l as [|a [|b l]]. Qed.
Lemma dirent_make_name : dir_name (de_name (dirent_make old name inum)) = dir_name name.
Proof.
  unfold de_name, dirent_make. cbv zeta. rewrite drop_put16, drop_app_length'.
  2: { rewrite length_take, Hold. done. }
  unfold dir_name at 1. rewrite nul_str_read. unfold strncpy.
  rewrite strncpy_loop_cstrn by (unfold DIRSIZ; lia). apply cstrn_write. intros b Hb.
  assert (Hd : (length (de_name old) <= 14)%nat) by (unfold de_name; rewrite length_drop, Hold; done).
  rewrite write_bytes_out by (unfold DIRSIZ in *; lia). unfold load8. by rewrite lookup_empty.
Qed.
End make.

(** ** The inode table *)

Definition refers (dev inum : Z) (ip : inode) : Prop := 0 < i_ref ip /\ i_dev ip = dev /\ i_inum ip = inum.
#[export] Instance refers_dec dev inum ip : Decision (refers dev inum ip).
Proof. unfold refers. apply _. Defined.

(** At most one entry for an inode, and room for another. *)
Record itable_ok (l : list inode) : Prop := {
  it_len : length l = Z.to_nat NINODE;
  it_ref : forall i ip, l !! i = Some ip -> 0 <= i_ref ip;
  it_uniq : forall i j ip ip' dev inum, l !! i = Some ip -> l !! j = Some ip' ->
    refers dev inum ip -> refers dev inum ip' -> i = j;
}.
Definition has_room (l : list inode) : Prop := exists i ip, l !! i = Some ip /\ i_ref ip = 0.

(** What the scan finds: the entry of the inode; or none, and a free one. *)
Definition scanned (l : list inode) (dev inum : Z) (r : option Z * option Z) : Prop :=
  match r with
  | (Some i, _) => exists ip, 0 <= i /\ l !! Z.to_nat i = Some ip /\ refers dev inum ip
  | (None, e) => (forall j ip, l !! j = Some ip -> ~ refers dev inum ip) /\
      match e with
      | Some i => exists ip, 0 <= i /\ l !! Z.to_nat i = Some ip /\ i_ref ip = 0
      | None => ~ has_room l
      end
  end.

Lemma iget_scan_spec dev inum n : forall s i e,
  0 <= i -> i + Z.of_nat n = Z.of_nat (length (k_inodes s)) ->
  (forall j ip, (j < Z.to_nat i)%nat -> k_inodes s !! j = Some ip -> ~ refers dev inum ip /\ (e = None -> i_ref ip <> 0)) ->
  (forall j, e = Some j -> exists ip, 0 <= j /\ k_inodes s !! Z.to_nat j = Some ip /\ i_ref ip = 0) ->
  exists r, iget_scan n i dev inum e s = Ok r s /\ scanned (k_inodes s) dev inum r.
Proof.
  induction n as [|n IH]; intros s i e Hi Hn Hno He; cbn [iget_scan].
  - exists (None, e). split; [done|].
    assert (Hall : forall j ip, k_inodes s !! j = Some ip -> ~ refers dev inum ip /\ (e = None -> i_ref ip <> 0)).
    { intros j ip Hj. apply Hno with j; [|done]. apply lookup_lt_Some in Hj. lia. }
    split; [intros j ip Hj; by apply (Hall j ip)|]. destruct e as [j|]; [by apply He|].
    intros (j & ip & Hj & H0). by apply (Hall j ip).
  - destruct (lookup_lt_is_Some_2 (k_inodes s) (Z.to_nat i) ltac:(lia)) as [ip Hip].
    rewrite (bind_ok _ _ _ _ _ (get_inode_eq s i ip (conj Hi Hip))).
    destruct ((i_ref ip >? 0) && (i_dev ip =? dev) && (i_inum ip =? inum)) eqn:E.
    + exists (Some i, e). split; [done|]. exists ip. split; [done|]. split; [done|].
      apply andb_prop in E as [[E1 E2]%andb_prop E3]. unfold refers. lia.
    + cbv zeta. apply IH; [lia|lia| |].
      * intros j ip' Hj Hl. destruct (decide (j = Z.to_nat i)) as [->|Hne].
        -- rewrite Hip in Hl. injection Hl as <-. split.
           ++ intros (R1 & R2 & R3). replace (i_ref ip >? 0) with true in E by lia. rewrite R2, R3, !Z.eqb_refl in E. done.
           ++ destruct e; [done|]. destruct (Z.eqb_spec (i_ref ip) 0); [done|]. by intros.
        -- destruct (Hno j ip' ltac:(lia) Hl) as [H1 H2]. split; [done|]. destruct e; [done|]. intros _. by apply H2.
      * intros j. destruct e as [j'|]; [intros [= <-]; by apply He|].
        destruct (Z.eqb_spec (i_ref ip) 0) as [H0|]; [|done]. intros [= <-]. by exists ip.
Qed.

(** The entry [iget] returns, and what it becomes. *)
Definition got (l : list inode) (dev inum : Z) (i : Z) (ip' : inode) : Prop :=
  exists ip, 0 <= i /\ l !! Z.to_nat i = Some ip /\
    (refers dev inum ip /\ ip' = set_i_ref (i_ref ip + 1) ip \/
     (forall j jp, l !! j = Some jp -> ~ refers dev inum jp) /\ i_ref ip = 0 /\
     ip' = set_i_valid 0 (set_i_ref 1 (set_i_inum inum (set_i_dev dev ip)))).

Lemma got_refers l dev inum i ip' : itable_ok l -> got l dev inum i ip' -> refers dev inum ip'.
Proof.
  intros Hl (ip & Hi & Hip & [[(R1 & R2 & R3) ->]|(_ & _ & ->)]); unfold refers; simpl; [lia|done].
Qed.
Lemma got_ok l dev inum i ip' : itable_ok l -> got l dev inum i ip' -> itable_ok (<[Z.to_nat i := ip']> l).
Proof.
  intros [T1 T2 T3] HG. pose proof (got_refers l dev inum i ip' ltac:(done) HG) as Hr.
  destruct HG as (ip & Hi & Hip & HG). assert (Hil : (Z.to_nat i < length l)%nat) by (by eapply lookup_lt_Some).
  assert (Hsame : forall d n, refers d n ip' -> d = dev /\ n = inum) by (unfold refers in *; intros; lia).
  assert (Hother : forall j jp, j <> Z.to_nat i -> l !! j = Some jp -> ~ refers dev inum jp).
  { intros j jp Hne Hj Hrj. destruct HG as [[Hri _]|[Hno _]]; [|by apply (Hno j jp)]. apply Hne. exact (T3 j _ jp ip dev inum Hj Hip Hrj Hri). }
  assert (Hins : forall j jp, <[Z.to_nat i := ip']> l !! j = Some jp ->
    j = Z.to_nat i /\ jp = ip' \/ j <> Z.to_nat i /\ l !! j = Some jp).
  { intros j jp. destruct (decide (j = Z.to_nat i)) as [->|Hne].
    - rewrite list_lookup_insert_eq by done. intros [= <-]. by left.
    - rewrite list_lookup_insert_ne by done. by right. }
  split.
  - by rewrite length_insert.
  - intros j jp Hj. destruct (Hins j jp Hj) as [[_ ->]|[_ Hl]]; [unfold refers in Hr; lia|by apply (T2 j)].
  - intros j j' jp jp' d n Hj Hj' R1 R2.
    destruct (Hins j jp Hj) as [[-> ->]|[Hn Hl]], (Hins j' jp' Hj') as [[-> ->]|[Hn' Hl']]; try done.
    + destruct (Hsame _ _ R1) as [-> ->]. by destruct (Hother j' jp').
    + destruct (Hsame _ _ R2) as [-> ->]. by destruct (Hother j jp).
    + exact (T3 j j' jp jp' d n Hl Hl' R1 R2).
Qed.

(** Nothing but the entry changes. *)
Definition got_state (s : kstate) (dev inum i : Z) (s' : kstate) : Prop :=
  exists ip', got (k_inodes s) dev inum i ip' /\ fstep i s ip' s'.

Lemma leave_inodes s j i ip' :
  scratch s j ->
  intena_only (set_inodes (<[Z.to_nat i := ip']> (k_inodes s)) s)
    (leave s j (set_inodes (<[Z.to_nat i := ip']> (k_inodes s)) (enter LItable s))).
Proof. intros Hj. exists j. split; [done|]. by destruct s. Qed.

Lemma tframe_intena s s' : intena_only s s' -> tframe s s'.
Proof.
  intros (j & Hj & ->). split; [|done]. exists (k_sleep s), (k_bufs s), (k_disk s), j, (k_procs s).
  split; [done|]. split; [done|]. by destruct s.
Qed.

Lemma iget_spec s dev inum :
  cpu_ok s -> lock_free s LItable -> itable_ok (k_inodes s) ->
  (has_room (k_inodes s) \/ exists j jp, k_inodes s !! j = Some jp /\ refers dev inum jp) ->
  runs (iget dev inum s) (fun i s' => exists ip', got (k_inodes s) dev inum i ip' /\
    intena_only (set_inodes (<[Z.to_nat i := ip']> (k_inodes s)) s) s').
Proof.
  intros Hc Hlk Hok Hroom. unfold iget. apply runs_bind, runs_acquire; [done|].
  set (s1 := enter LItable s). change (k_inodes s) with (k_inodes s1) in Hok, Hroom.
  destruct (iget_scan_spec dev inum (Z.to_nat NINODE) s1 0 None) as (r & Hr & Hsc); try done.
  { rewrite (it_len _ Hok). lia. }
  { intros j ip Hj. lia. }
  rewrite (bind_ok _ _ _ _ _ Hr).
  assert (Hput : forall i ip f, 0 <= i -> k_inodes s1 !! Z.to_nat i = Some ip -> got (k_inodes s) dev inum i (f ip) ->
    runs ((upd_inode i f ;; release LItable ;; ret i) s1) (fun i s' => exists ip', got (k_inodes s) dev inum i ip' /\
      intena_only (set_inodes (<[Z.to_nat i := ip']> (k_inodes s)) s) s')).
  { intros i ip f Hi Hip HG. rewrite (bind_ok _ _ _ _ _ (upd_inode_eq s1 i ip f (conj Hi Hip))).
    apply runs_bind, (runs_release _ s); [done|done|done|]. intros j Hj. exists (f ip).
    split; [done|]. by apply leave_inodes. }
  destruct r as [[i|] [e|]]; cbn [scanned] in Hsc.
  1, 2: destruct Hsc as (ip & Hi & Hip & Hrf); apply (Hput i ip); try done;
    exists ip; split; [done|]; split; [done|]; by left.
  - destruct Hsc as (Hno & ip & Hi & Hip & H0). apply (Hput e ip); try done.
    exists ip. split; [done|]. split; [done|]. by right.
  - destruct Hsc as [Hno Hfull]. destruct Hroom as [Hr'|(j & jp & Hj & Hrf)]; [done|].
    by destruct (Hno j jp Hj).
Qed.

(** ** Searching a directory *)

Section lookup.
Context `{W : WaitFuel, LY : Layout, BD : BlockDev, !BlockDevOk BD}.
Context (dev : Z) (op : bool) (dp pid st : Z) (L : list Z) (v : Z -> list Z) (d : inode) (name : list Z).
Hypothesis Hfuel : (0 < wait_fuel)%nat.
Hypothesis (Hdev : i_dev d = dev) (Hlen : forall w, length (v w) = Z.to_nat BSIZE).
Hypothesis Hroom : (length L < Z.to_nat NBUF)%nat.

(** Entry [k] of the directory, and whether it has the name. *)
Definition dirent_at (k : Z) : list Z := fbyte v d <$> seqZ (DIRENT_SIZE * k) DIRENT_SIZE.
Definition named (k : Z) : Prop :=
  de_inum (dirent_at k) <> 0 /\ dir_name name = dir_name (de_name (dirent_at k)).

(** A directory: whole entries, every block present. *)
Record dir_ok : Prop := {
  dok_type : i_type d = T_DIR;
  dok_size : 0 <= i_size d <= MAXFILE * BSIZE;
  dok_whole : i_size d mod DIRENT_SIZE = 0;
  dok_blocks : forall k, 0 <= k < i_size d -> fblk v d (k / BSIZE) <> 0;
}.

(** The first entry with the name and the inode it names, or none. *)
Definition looked_up (s : kstate) (r : option (Z * Z)) (s' : kstate) : Prop :=
  tx dev op s' pid st L ∅ ∅ v /\
  match r with
  | Some (i, off) => exists k ip', off = DIRENT_SIZE * k /\ 0 <= off < i_size d /\ named k /\
      (forall j, 0 <= j < k -> ~ named j) /\
      got (k_inodes s) dev (de_inum (dirent_at k)) i ip' /\ fstep i s ip' s'
  | None => tframe s s' /\ forall j, 0 <= DIRENT_SIZE * j < i_size d -> ~ named j
  end.


Lemma reading_iget s inum :
  reading dev op dp pid st L v d s -> lock_free s LItable -> itable_ok (k_inodes s) -> has_room (k_inodes s) ->
  runs (iget dev inum s) (fun i s' => exists ip', tx dev op s' pid st L ∅ ∅ v /\
    got (k_inodes s) dev inum i ip' /\ fstep i s ip' s').
Proof.
  intros [HT Hat] Hlk Hok Hr. destruct (bi_world _ _ _ _ (tx_inv _ _ _ _ _ _ _ _ _ HT)) as [(Hc & _) _ _ _].
  eapply runs_mono; [apply iget_spec; auto|]. intros i s' (ip' & HG & HI). exists ip'.
  split; [|split; [done|by apply tframe_intena]].
  apply (tx_inodes _ _ _ _ _ _ _ _ _ (<[Z.to_nat i := ip']> (k_inodes s))) in HT.
  destruct HT as [A1 A2 A3 A4 A5 A0 A6 A7 A8 A9]. pose proof (binv_intena dev _ _ _ _ HI A1) as A1'.
  destruct HI as (j & Hj & ->). split; try done. destruct A2 as [B1 B2 B3 B4 B5 B6]. by split.
Qed.

Lemma dirent_read s k :
  reading dev op dp pid st L v d s -> dir_ok -> 0 <= k -> DIRENT_SIZE * k < i_size d ->
  runs (readi dp DLocal (DIRENT_SIZE * k) DIRENT_SIZE s) (fun r s' =>
    reading dev op dp pid st L v d s' /\ tframe s s' /\ r = (DIRENT_SIZE, dirent_at k)).
Proof.
  intros Hrd [D1 D2 D3 D4] Hk Hlt. change (MAXFILE * BSIZE) with 274432 in D2. unfold DIRENT_SIZE in *.
  eapply runs_mono; [apply (readi_spec dev op dp pid st L v d Hfuel Hdev Hlen Hroom s); try done; try lia|].
  { change (MAXFILE * BSIZE) with 274432. lia. }
  intros r s' (Hrd' & F & ->). split; [done|]. split; [done|].
  rewrite decide_True by lia. cbv zeta. by rewrite Z.min_l by zlia.
Qed.

Lemma looked_up_after s s1 r s' : tframe s s1 -> looked_up s1 r s' -> looked_up s r s'.
Proof.
  intros F [HT H]. split; [done|]. destruct r as [[i off]|].
  - destruct H as (k & ip' & E & Hr & Hn & Hno & HG & F1). exists k, ip'. rewrite (tframe_inodes _ _ F) in HG.
    do 5 (split; [done|]). unfold fstep in *. etrans; [|exact F1]. rewrite (tframe_inodes _ _ F).
    by apply tframe_set_inodes.
  - destruct H as [F1 H]. split; [by etrans|done].
Qed.

Lemma dirlookup_loop_spec n : forall s k,
  reading dev op dp pid st L v d s -> dir_ok -> lock_free s LItable -> itable_ok (k_inodes s) ->
  has_room (k_inodes s) -> (length name <= 4096)%nat -> 0 <= k <= i_size d / DIRENT_SIZE ->
  i_size d / DIRENT_SIZE - k < Z.of_nat n -> (forall j, 0 <= j < k -> ~ named j) ->
  runs (dirlookup_loop n dp name (DIRENT_SIZE * k) s) (looked_up s).
Proof.
  induction n as [|n IH]; intros s k Hrd Hd Hlk Hok Hr Hnm Hk Hn Hno; [lia|].
  pose proof (dok_whole Hd) as Hw. cbn [dirlookup_loop].
  rewrite (bind_ok _ _ _ _ _ (get_inode_eq s dp d (proj2 Hrd))).
  destruct (Z.ltb_spec (DIRENT_SIZE * k) (i_size d)) as [Hlt|Hge].
  2: { cbn [runs ret]. split; [apply Hrd|]. split; [reflexivity|]. intros j Hj. apply Hno. unfold DIRENT_SIZE in *. lia. }
  apply runs_bind. eapply runs_mono; [apply dirent_read; try done; lia|]. intros r s1 (Hrd1 & F1 & ->).
  cbn [fst snd]. change (negb (DIRENT_SIZE =? DIRENT_SIZE)) with false. cbv iota zeta.
  assert (Hnext : ~ named k -> runs (dirlookup_loop n dp name (DIRENT_SIZE * k + DIRENT_SIZE) s1) (looked_up s)).
  { intros Hnk. replace (DIRENT_SIZE * k + DIRENT_SIZE) with (DIRENT_SIZE * (k + 1)) by (unfold DIRENT_SIZE; lia).
    eapply runs_mono; [apply IH; rewrite ?(tframe_inodes _ _ F1); try done|].
    - by eapply tframe_lock.
    - unfold DIRENT_SIZE in *. zlia.
    - lia.
    - intros j Hj. destruct (decide (j = k)) as [->|]; [done|]. apply Hno. lia.
    - intros r s'. by apply looked_up_after. }
  destruct (Z.eqb_spec (de_inum (dirent_at k)) 0) as [E0|E0]; [apply Hnext; by intros [? _]|].
  pose proof (namecmp_eq0 name (de_name (dirent_at k)) Hnm) as Hcmp.
  destruct (Z.eqb_spec (namecmp name (de_name (dirent_at k))) 0) as [E1|E1];
    [|apply Hnext; intros [_ ?]; tauto].
  rewrite Hdev. apply runs_bind. rewrite <- (tframe_inodes _ _ F1) in Hok, Hr.
  eapply runs_mono; [apply reading_iget; try done; by eapply tframe_lock|].
  intros i s2 (ip' & HT2 & HG & F2). cbn [runs ret]. apply (looked_up_after s s1); [done|].
  split; [done|]. exists k, ip'. split; [done|]. split; [unfold DIRENT_SIZE in *; lia|]. split; [split; [done|by apply Hcmp]|]. done.
Qed.

Lemma dirlookup_spec s :
  reading dev op dp pid st L v d s -> dir_ok -> lock_free s LItable -> itable_ok (k_inodes s) ->
  has_room (k_inodes s) -> (length name <= 4096)%nat ->
  runs (dirlookup dp name s) (looked_up s).
Proof.
  intros Hrd Hd Hlk Hok Hr Hnm. unfold dirlookup. rewrite (bind_ok _ _ _ _ _ (get_inode_eq s dp d (proj2 Hrd))).
  rewrite (dok_type Hd), Z.eqb_refl. cbn [negb].
  pose proof (dok_size Hd). assert (0 <= i_size d / DIRENT_SIZE) by (apply Z.div_pos; [lia|done]).
  apply (dirlookup_loop_spec _ s 0); try done; lia.
Qed.
End lookup.

(** ** Adding an entry *)

Lemma bytes_back (bs : list Z) o :
  (fun x => byte_at bs (x - o)) <$> seqZ o (Z.of_nat (length bs)) = bs.
Proof.
  apply list_eq. intros i. rewrite list_lookup_fmap.
  destruct (decide (i < length bs)%nat) as [Hi|Hi].
  - rewrite lookup_seqZ_lt by lia. cbn [fmap option_fmap option_map]. unfold byte_at.
    replace (Z.to_nat (o + Z.of_nat i - o)) with i by lia.
    by destruct (lookup_lt_is_Some_2 bs i Hi) as [x ->].
  - rewrite lookup_seqZ_ge by lia. symmetry. apply lookup_ge_None_2. lia.
Qed.

Section link.
Context `{W : WaitFuel, LY : Layout, BD : BlockDev, !BlockDevOk BD}.
Context (dev : Z) (sb : superblock) (dp pid st : Z) (L : list Z) (v : Z -> list Z) (d : inode) (name : list Z).
Hypothesis Hfuel : (0 < wait_fuel)%nat.
Hypothesis (Hdev : i_dev d = dev) (Hlen : forall w, length (v w) = Z.to_nat BSIZE).
Hypothesis Hroom : (length L < Z.to_nat NBUF)%nat.
Hypothesis Hd : dir_ok v d.

(** The first unused entry, or the end. *)
Definition free_slot (k : Z) : Prop :=
  0 <= k /\ DIRENT_SIZE * k <= i_size d /\ (forall j, 0 <= j < k -> de_inum (dirent_at v d j) <> 0) /\
  (DIRENT_SIZE * k < i_size d -> de_inum (dirent_at v d k) = 0).

Lemma dirent_at_length k : length (dirent_at v d k) = Z.to_nat DIRENT_SIZE.
Proof. clear. unfold dirent_at. by rewrite length_fmap, length_seqZ. Qed.

Lemma dirlink_scan_spec n : forall s k de,
  reading dev true dp pid st L v d s -> length de = Z.to_nat DIRENT_SIZE ->
  0 <= k <= i_size d / DIRENT_SIZE -> i_size d / DIRENT_SIZE - k < Z.of_nat n ->
  (forall j, 0 <= j < k -> de_inum (dirent_at v d j) <> 0) ->
  runs (dirlink_scan n dp (DIRENT_SIZE * k) de s) (fun r s' =>
    reading dev true dp pid st L v d s' /\ tframe s s' /\ length r.2 = Z.to_nat DIRENT_SIZE /\
    exists k', r.1 = DIRENT_SIZE * k' /\ free_slot k').
Proof.
  induction n as [|n IH]; intros s k de Hrd Hde Hk Hn Hno; [lia|]. pose proof (dok_whole _ _ Hd) as Hw.
  cbn [dirlink_scan]. rewrite (bind_ok _ _ _ _ _ (get_inode_eq s dp d (proj2 Hrd))).
  destruct (Z.ltb_spec (DIRENT_SIZE * k) (i_size d)) as [Hlt|Hge].
  2: { cbn [runs ret]. split; [done|]. split; [reflexivity|]. split; [done|]. exists k. split; [done|].
       split; [lia|]. split; [unfold DIRENT_SIZE in *; zlia|]. split; [done|lia]. }
  apply runs_bind. eapply runs_mono; [apply (dirent_read dev true dp pid st L v d); try done; lia|].
  intros r s1 (Hrd1 & F1 & ->). cbn [fst snd]. change (negb (DIRENT_SIZE =? DIRENT_SIZE)) with false. cbv iota.
  destruct (Z.eqb_spec (de_inum (dirent_at v d k)) 0) as [E0|E0].
  { cbn [runs ret fst snd]. split; [done|]. split; [done|]. split; [apply dirent_at_length|]. exists k.
    split; [done|]. split; [lia|]. split; [lia|]. done. }
  replace (DIRENT_SIZE * k + DIRENT_SIZE) with (DIRENT_SIZE * (k + 1)) by (unfold DIRENT_SIZE; lia).
  eapply runs_mono; [apply IH; try done|].
  - unfold DIRENT_SIZE in *. zlia.
  - lia.
  - intros j Hj. destruct (decide (j = k)) as [->|]; [done|]. apply Hno. lia.
  - intros r s' (H1 & H2 & H3). split; [done|]. split; [by etrans|done].
Qed.

(** The directory after the entry [de] has been written in slot [k]. *)
Lemma wrote_entries de s k s' L' v' d' :
  length de = Z.to_nat DIRENT_SIZE -> de_inum de <> 0 -> free_slot k -> DIRENT_SIZE * k + DIRENT_SIZE <= MAXFILE * BSIZE ->
  wrote dev sb dp pid st de s v d (DIRENT_SIZE * k) DIRENT_SIZE s' L' v' d' ->
  dir_ok v' d' /\ i_size d' = Z.max (i_size d) (DIRENT_SIZE * k + DIRENT_SIZE) /\
  forall j, 0 <= DIRENT_SIZE * j < i_size d' ->
    dirent_at v' d' j = if decide (j = k) then de else dirent_at v d j.
Proof. clear Hfuel Hlen Hroom Hdev.
  intros Hde Hnz (K1 & K2 & K3 & K4) Hmax [T1 T2 T3 T4 T5 T6 T7 T8]. destruct Hd as [D1 D2 D3 D4].
  change (MAXFILE * BSIZE) with 274432 in *.
  assert (Hsz : i_size d' = Z.max (i_size d) (DIRENT_SIZE * k + DIRENT_SIZE)) by (by rewrite T3).
  assert (Hent : forall j, 0 <= DIRENT_SIZE * j < i_size d' ->
    dirent_at v' d' j = if decide (j = k) then de else dirent_at v d j).
  { intros j Hj. rewrite Hsz in Hj. unfold dirent_at. destruct (decide (j = k)) as [->|Hne].
    - transitivity ((fun x => byte_at de (x - DIRENT_SIZE * k)) <$> seqZ (DIRENT_SIZE * k) (Z.of_nat (length de)));
        [|apply bytes_back].
      rewrite Hde. apply list_fmap_ext. intros i x Hx%list_elem_of_lookup_2. apply elem_of_seqZ in Hx.
      unfold DIRENT_SIZE in *. rewrite T4 by lia. by rewrite decide_True by lia.
    - apply list_fmap_ext. intros i x Hx%list_elem_of_lookup_2. apply elem_of_seqZ in Hx.
      unfold DIRENT_SIZE in *. rewrite T4 by zlia. by rewrite decide_False by lia. }
  split; [|done]. split.
  - by rewrite T3.
  - rewrite Hsz. change (MAXFILE * BSIZE) with 274432. unfold DIRENT_SIZE in *. lia.
  - rewrite Hsz. unfold DIRENT_SIZE in *. zlia.
  - intros x Hx. rewrite Hsz in Hx. destruct (decide (x < i_size d)) as [Hlt|Hge].
    + rewrite T8; [apply D4; lia| |apply D4; lia]. apply bnum_off. change (MAXFILE * BSIZE) with 274432. lia.
    + assert (Hblk : forall y, DIRENT_SIZE * k <= y < DIRENT_SIZE * k + DIRENT_SIZE -> y / BSIZE = DIRENT_SIZE * k / BSIZE)
        by (unfold DIRENT_SIZE, BSIZE; intros; zlia).
      rewrite Hblk by (unfold DIRENT_SIZE in *; zlia). intros E. apply Hnz.
      pose proof (Hent k ltac:(unfold DIRENT_SIZE in *; lia)) as Hk. rewrite decide_True in Hk by done.
      assert (Hz : forall y, DIRENT_SIZE * k <= y < DIRENT_SIZE * k + DIRENT_SIZE -> fbyte v' d' y = 0)
        by (intros y Hy; unfold fbyte; rewrite (Hblk y Hy), E; done).
      rewrite <- Hk. unfold de_inum, get16, byte_at, dirent_at.
      rewrite !list_lookup_fmap, !lookup_seqZ_lt by (unfold DIRENT_SIZE; lia). cbn [fmap option_fmap option_map default].
      rewrite !Hz by (unfold DIRENT_SIZE; lia). done.
Qed.

(** The result of adding an entry: it is there with the name and the inode, in
    the first free slot, the other entries as before; or there was no room. *)
Definition linked (s : kstate) (inum r : Z) (s' : kstate) : Prop :=
  r = 0 /\ (exists k L' v' d', free_slot k /\ fwork dev sb dp pid st s' L' v' d' /\ fstep dp s d' s' /\ dir_ok v' d' /\
    i_size d' = Z.max (i_size d) (DIRENT_SIZE * k + DIRENT_SIZE) /\
    de_inum (dirent_at v' d' k) = inum mod 2^16 /\ named v' d' name k /\
    forall j, 0 <= DIRENT_SIZE * j < i_size d' -> j <> k -> dirent_at v' d' j = dirent_at v d j) \/
  r = -1 /\ (tframe s s' /\ tx dev true s' pid st L ∅ ∅ v /\ MAXFILE * BSIZE < i_size d + DIRENT_SIZE \/
    exists L' v' d', fwork dev sb dp pid st s' L' v' d' /\ fstep dp s d' s' /\
      forall b, 0 <= b < sb_size sb -> used sb v' b).

Lemma dirlink_spec s inum :
  fwork dev sb dp pid st s L v d -> lock_free s LItable -> itable_ok (k_inodes s) -> has_room (k_inodes s) ->
  (length name <= 4096)%nat -> (forall j, 0 <= DIRENT_SIZE * j < i_size d -> ~ named v d name j) ->
  inum mod 2^16 <> 0 -> 0 <= IBLOCK (i_inum d) sb < sb_bmapstart sb ->
  Z.of_nat (length L) + nbitmap sb + 3 < LOGBLOCKS ->
  runs (dirlink dp name inum s) (linked s inum).
Proof.
  intros Hw Hlk Hok Hr Hnm Hno Hin Hib Hlog. pose proof Hw as [A1 A2 A3 A4 A5 A6]. unfold dirlink. apply runs_bind.
  eapply runs_mono; [by apply (dirlookup_spec dev true dp pid st L v d name Hfuel Hdev Hlen Hroom s)|].
  intros [[i off]|] s1 [HT1 H1].
  { destruct H1 as (k & ip' & -> & Hr1 & Hnk & _). by destruct (Hno k Hr1). }
  destruct H1 as [F1 _]. assert (Hat1 : inode_at s1 dp d) by (eapply fstep_inode_at; [exact A3|by apply fstep_tframe]).
  rewrite (bind_ok _ _ _ _ _ (get_inode_eq s1 dp d Hat1)). apply runs_bind.
  pose proof (dok_size _ _ Hd). assert (0 <= i_size d / DIRENT_SIZE) by (apply Z.div_pos; [lia|done]).
  eapply runs_mono; [apply (dirlink_scan_spec _ s1 0); try done; lia|].
  intros [off de] s2 ([HT2 Hat2] & F2 & Hde & k & -> & Hk). cbn [fst snd] in *. cbv zeta.
  assert (F : tframe s s2) by (by etrans). pose proof (dirent_make_length de name inum Hde) as Hml.
  pose proof (dirent_make_inum de name inum Hde) as Hmi. set (nde := dirent_make de name inum) in *.
  assert (Hw2 : fwork dev sb dp pid st s2 L v d) by (split; try done; by rewrite (tframe_sb _ _ F)).
  apply runs_bind. pose proof Hk as (K1 & K2 & _).
  assert (Hn16 : DIRENT_SIZE = Z.of_nat (length nde)) by (by rewrite Hml).
  destruct (decide (writei_fits d (DIRENT_SIZE * k) DIRENT_SIZE)) as [Hfit|Hfit].
  - eapply runs_mono; [apply (writei_spec dev sb dp pid st nde s2 L v d); try done|].
    { unfold DIRENT_SIZE. lia. }
    { replace (nblk (DIRENT_SIZE * k) DIRENT_SIZE) with 1; [lia|].
      unfold nblk, DIRENT_SIZE, BSIZE. change (16 <=? 0) with false. cbv iota. zlia. }
    intros c s3 (Hc & L' & v' & d' & Hwr & Hst & Hfull). cbn [runs ret].
    assert (Hstep : fstep dp s d' s3).
    { eapply fstep_trans; [by apply fstep_tframe; [exact A3|exact F]|]. exact Hst. }
    destruct (Z.eqb_spec c DIRENT_SIZE) as [->|Hne]; cbn [negb].
    + left. split; [done|]. exists k, L', v', d'.
      destruct (wrote_entries nde s2 k s3 L' v' d') as (Hd' & Hsz & Hent); try done; [by rewrite Hmi|apply Hfit|].
      assert (Ek : dirent_at v' d' k = nde).
      { rewrite Hent; [by rewrite decide_True|]. rewrite Hsz. unfold DIRENT_SIZE. lia. }
      split; [done|]. split; [apply Hwr|]. split; [done|]. split; [done|]. split; [done|].
      rewrite Ek. split; [exact Hmi|]. split; [|intros j Hj Hjk; by rewrite Hent, decide_False].
      split; rewrite Ek; [by rewrite Hmi|symmetry; by apply dirent_make_name].
    + right. split; [done|]. right. exists L', v', d'. split; [apply Hwr|]. split; [done|]. apply Hfull. lia.
  - rewrite (writei_refused dp (SLocal nde) s2 d) by (try done; unfold DIRENT_SIZE, writei_fits in *; change (MAXFILE * BSIZE) with 274432 in *; lia).
    cbn [runs ret]. right. split; [done|]. left. split; [done|]. split; [done|].
    unfold writei_fits in Hfit. lia.
Qed.
End link.
