(* ===== verification/FsSpec.v ===== *)
(** * The file system: results

    Block allocation, and reading and writing files, for a process inside a
    transaction: what is returned, what the file contains afterwards, that other
    files keep their content, and that the log has room. *)

From S2P Require Import Prelude CMem Machine Sv32 Spinlock Kalloc KallocProof KallocSpec Printf PrintfProof.
From S2P Require Import Sched AddrSpace Regions PageTable UserMem UserCopy UserSpec UserFrame SchedProof.
From S2P Require Import Sleeplock Bio BioProof BioSpec Codec Log LogProof Fs FsTx FsBitmap FsFile FsCopy FsIo.

Section results.
Context `{W : WaitFuel, LY : Layout, BD : BlockDev, !BlockDevOk BD}.

(** C21: [balloc] returns the lowest free block of the disk, which is a data
    block; it is marked in use and filled with zeros, no other bit and no other
    block changes, and the bitmap still describes the disk.  Only when every
    block is in use does it return 0, with nothing changed. *)
Theorem balloc_correct (dev : Z) (sb : superblock) (s : kstate) (pid st : Z) (L : list Z)
    (v : Z -> list Z) :
  (0 < wait_fuel)%nat -> tx dev true s pid st L ∅ ∅ v -> k_sb s = sb -> mapped sb v ->
  Z.of_nat (length L) + nbitmap sb < LOGBLOCKS ->
  runs (balloc dev s) (fun a s' => tframe s s' /\
    (a = 0 /\ (forall b, 0 <= b < sb_size sb -> used sb v b) /\ tx dev true s' pid st L ∅ ∅ v \/
     datastart sb <= a < sb_size sb /\ ~ used sb v a /\ (forall b, 0 <= b < a -> used sb v b) /\
     exists L' v', tx dev true s' pid st L' ∅ ∅ v' /\ mapped sb v' /\ v' a = zero_block /\
       (forall b, 0 <= b < sb_size sb -> used sb v' b <-> b = a \/ used sb v b) /\
       (forall w, w <> a -> w ∉ bitmaps sb -> v' w = v w) /\ (length L' <= length L + 2)%nat)).
Proof.
  intros Hf HT Hsb Hm Hroom.
  eapply runs_mono; [apply (balloc_spec dev sb Hf pid st L ∅ v Hm); try done|].
  - pose proof (nbitmap_nonneg sb v Hm). eapply Nat.le_lt_trans; [apply (load_bound sb L)|lia]; [apply HT|done].
  - intros a s' [F [(-> & Hfull & HT')|(Ha & Hn & Hlow & HT')]]; (split; [done|]); [by left|right].
    do 3 (split; [done|]). eexists _, _. split; [exact HT'|]. split; [by apply mapped_alloced|].
    split; [apply alloced_eq|]. split; [by apply used_alloced|].
    split; [intros w; by apply alloced_other|apply alloc_log_length].
Qed.

(** C5: [writei] of the [n] bytes [bs] at [off], from a variable of the kernel
    or from user memory that the process itself can read there, is refused with
    -1, changing nothing, when the file would have a hole or grow over its
    maximum.  Otherwise it returns a count [c], less than [n] only when the disk
    is full.  The file then has [bs]'s first [c] bytes at [off], its other bytes
    as they were, and a size that covers them, through direct and indirect blocks
    it allocates as needed; the inode is saved in its block; every other file
    keeps its content, and so does everything that the process or another one can
    read in memory.  Beyond the bitmap, the indirect block and the inode's block,
    the transaction grows by one block for each block written.  A user source
    that cannot be read, where a copy fails midway, is not covered. *)
Theorem writei_correct `{!LayoutOk LY} (dev : Z) (sb : superblock) (i pid st pr r : Z) (src : source) (bs : list Z)
    (s : kstate) (T : Z -> option Z) (L : list Z) (v : Z -> list Z) (ip : inode) (off n : Z) :
  (0 < wait_fuel)%nat -> fwork dev sb i pid st s L v ip -> source_ok pr r src bs s T -> 0 <= off < 2^32 ->
  n = Z.of_nat (length bs) -> n < 2^32 -> 0 <= IBLOCK (i_inum ip) sb < sb_bmapstart sb ->
  Z.of_nat (length L) + nbitmap sb + nblk off n + 2 < LOGBLOCKS ->
  if decide (off <= i_size ip /\ off + n <= MAXFILE * BSIZE) then
    runs (writei i src off n s) (fun c s' => 0 <= c <= n /\ (exists T', fetched r src s T s' T') /\ exists L' v' ip',
      fwork dev sb i pid st s' L' v' ip' /\ iostep i s ip' s' /\
      (c < n -> forall b, 0 <= b < sb_size sb -> used sb v' b) /\
      ip' = set_i_size (Z.max (i_size ip) (off + c)) (set_i_addrs (i_addrs ip') ip) /\
      (forall k, 0 <= k < MAXFILE * BSIZE -> fbyte v' ip' k =
         if decide (off <= k < off + c) then byte_at bs (k - off) else fbyte v ip k) /\
      (let w := IBLOCK (i_inum ip) sb in v' w = dinode_put (v w) (dip_off (i_inum ip)) ip') /\
      (forall ip2, file_ok sb v ip2 -> (forall w, owns v ip2 w -> ~ owns v ip w) ->
         file_ok sb v' ip2 /\ forall k, 0 <= k < MAXFILE * BSIZE -> fbyte v' ip2 k = fbyte v ip2 k))
  else writei i src off n s = Ok (-1) s.
Proof.
  intros Hf Hw Hsrc Ho Hn Hn32 Hib Hroom. pose proof Hw as [A1 A2 A3 A4 A5 A6].
  assert (CF : CopiesFrom pr r src) by (destruct src; apply _).
  case_decide as Hfit; [|by apply (writei_refused i src s ip); try done; lia].
  eapply runs_mono; [by apply (writei_io_spec dev sb i pid st Hf pr r src bs s T L v ip off n); try done; lia|].
  intros c s' (Hft & Hc & L' & v' & ip' & [T1 T2 T3 T4 T5 T6 T7 _] & Hfull). split; [done|]. split; [done|].
  exists L', v', ip'. do 6 (split; [done|]). intros ip2 Hf2 Hd2.
  assert (Hkeep : forall w, owns v ip2 w -> v' w = v w).
  { intros w Ho2. pose proof (data_owned _ _ _ _ Hf2 Ho2) as [Hr Hu].
    pose proof (datastart_pos sb v A5). pose proof (nbitmap_nonneg sb v A5).
    apply T6; [lia|done|rewrite bitmap_range; lia|by apply Hd2|unfold datastart in *; lia]. }
  split.
  - apply (file_ok_same sb v ip2); try done. intros w Hwr Hu. apply T7; auto.
  - intros k Hk. apply (same_blocks v ip2 v' ip2); [done|done|by apply bnum_off].
Qed.

End results.

(** ** Witnesses

    A disk of 100 blocks, its bitmap in block 40 with the first 42 in use, and a
    file of five bytes in block 41. *)
Definition demo_sb : superblock := mkSB FSMAGIC 100 59 16 30 2 32 40.
Definition demo_bitmap : list Z := [255; 255; 255; 255; 255; 3] ++ replicate (Z.to_nat BSIZE - 6) 0.
Definition demo_content : list Z := [104; 101; 108; 108; 111] ++ replicate (Z.to_nat BSIZE - 5) 0.
Definition demo_disk (content : list Z) : disk_t := mkDisk (<[40 := demo_bitmap]> (<[41 := content]> ∅)) [].
Definition demo_fs_disk : disk_t := demo_disk demo_content.
Definition demo_inode : inode := mkInode 1 1 1 1 T_FILE 0 0 1 5 (41 :: replicate 12 0).
Definition demo_tx_log : log_t := mkLog 2 1 0 1 0 (replicate (Z.to_nat LOGBLOCKS) 0).

Section demo.
Context (content : list Z) (Hc : length content = Z.to_nat BSIZE).
Context (ip : inode) (Ha : i_addrs ip = 41 :: replicate 12 0).

Lemma demo_tx_at l : exists s, tx 1 true s 1 2 [] ∅ ∅ (disk_block (demo_disk content)) /\
  k_sb s = demo_sb /\ k_inodes s = l /\ lock_free s LItable.
Proof. clear Hc Ha.
  destruct (demo_cache (demo_disk content)) as (s0 & HI & Hd & Hb & Hr & Hpr & Hlg & Hit).
  set (s1 := set_log demo_tx_log s0).
  exists (set_inodes l (set_sb demo_sb s1)). split; [|by split].
  assert (HI1 : binv 1 s1 1 ∅) by (by apply binv_log).
  apply tx_inodes. split; try done.
  - destruct HI1 as [[(P1 & P2 & P3) P4 P5 P6] I2 I3 I4 I5 I6 I7 I8]. by split.
  - split; try done. simpl. lia.
  - apply NoDup_nil_2.
  - intros w. change (view 1 s0 w = disk_block (demo_disk content) w). rewrite <- Hd.
    by apply (clean_view 1 s0 1 ∅).
  - intros w _ _. change (disk_block (demo_disk content) w = disk_block (k_disk s0) w). by rewrite Hd.
Qed.

Lemma demo_block_length_at w : length (disk_block (demo_disk content) w) = Z.to_nat BSIZE.
Proof.
  unfold disk_block, demo_disk. cbn [d_init d_writes disk_apply].
  destruct (decide (w = 40)) as [->|H1]; [by rewrite lookup_insert_eq|].
  rewrite lookup_insert_ne by done.
  destruct (decide (w = 41)) as [->|H2]; [by rewrite lookup_insert_eq|].
  by rewrite lookup_insert_ne, lookup_empty by done.
Qed.

Lemma demo_used_at b : 0 <= b <= 41 -> used demo_sb (disk_block (demo_disk content)) b.
Proof. clear.
  intros Hb. unfold used. replace (BBLOCK b demo_sb) with 40
    by (unfold BBLOCK, BPB, BSIZE; cbn [sb_bmapstart demo_sb]; zlia).
  change (disk_block (demo_disk content) 40) with demo_bitmap.
  assert (Hall : forallb (fun b => negb (bit_clear demo_bitmap (b mod BPB))) (seqZ 0 42) = true) by (by vm_compute).
  rewrite forallb_forall in Hall. specialize (Hall b).
  destruct (bit_clear _ _); [|done]. discriminate Hall. apply list_elem_of_In, elem_of_seqZ. lia.
Qed.

Lemma demo_mapped_at : mapped demo_sb (disk_block (demo_disk content)).
Proof.
  split; [done|split; vm_compute; done|apply demo_block_length_at|]. intros b Hb. apply demo_used_at.
  change (datastart demo_sb) with 41 in Hb. lia.
Qed.

Lemma demo_fblk_at bn : bnum bn -> fblk (disk_block (demo_disk content)) ip bn = if decide (bn = 0) then 41 else 0.
Proof. clear Hc.
  intros Hbn. unfold fblk, iblk. rewrite Ha. change (nth (Z.to_nat NDIRECT) (41 :: replicate 12 0) 0 =? 0) with true. cbv iota.
  destruct (Z.ltb_spec bn NDIRECT) as [H1|H1]; [|rewrite decide_False; [done|unfold NDIRECT in *; lia]].
  destruct Hbn as [H0 _]. unfold NDIRECT in H1.
  assert (Hall : forallb (fun b => nth (Z.to_nat b) (41 :: replicate 12 0) 0 =? if decide (b = 0) then 41 else 0)
    (seqZ 0 12) = true) by (by vm_compute).
  rewrite forallb_forall in Hall. apply Z.eqb_eq, Hall, list_elem_of_In, elem_of_seqZ. lia.
Qed.

Lemma demo_file_ok_at : file_ok demo_sb (disk_block (demo_disk content)) ip.
Proof. clear Hc.
  assert (Hi : iblk ip = 0) by (unfold iblk; by rewrite Ha).
  split.
  - by rewrite Ha.
  - intros bn Hbn. rewrite demo_fblk_at by done. case_decide; [|done]. intros _.
    split; [split; vm_compute; done|]. by apply demo_used_at.
  - by rewrite Hi.
  - intros bn bn' Hbn Hbn'. rewrite !demo_fblk_at by done. repeat case_decide; congruence || done.
  - by rewrite Hi.
Qed.
End demo.

Lemma demo_tx : exists s, tx 1 true s 1 2 [] ∅ ∅ (disk_block demo_fs_disk) /\
  k_sb s = demo_sb /\ inode_at s 0 demo_inode.
Proof.
  destruct (demo_tx_at demo_content [demo_inode]) as (s & HT & Hsb & Hi & _). exists s.
  split; [exact HT|]. split; [exact Hsb|]. unfold inode_at. by rewrite Hi.
Qed.
Lemma demo_content_length : length demo_content = Z.to_nat BSIZE.
Proof. done. Qed.
Definition demo_used := demo_used_at demo_content.
Definition demo_mapped := demo_mapped_at demo_content demo_content_length.
Definition demo_file_ok := demo_file_ok_at demo_content demo_inode eq_refl.

Lemma balloc_correct_witness : exists s,
  runs (@balloc 1%nat ram_disk 1 s) (fun a s' => tframe s s' /\
    (a = 0 /\ (forall b, 0 <= b < sb_size demo_sb -> used demo_sb (disk_block demo_fs_disk) b) /\
       tx 1 true s' 1 2 [] ∅ ∅ (disk_block demo_fs_disk) \/
     datastart demo_sb <= a < sb_size demo_sb /\ ~ used demo_sb (disk_block demo_fs_disk) a /\
     (forall b, 0 <= b < a -> used demo_sb (disk_block demo_fs_disk) b) /\
     exists L' v', tx 1 true s' 1 2 L' ∅ ∅ v' /\ mapped demo_sb v' /\ v' a = zero_block /\
       (forall b, 0 <= b < sb_size demo_sb -> used demo_sb v' b <-> b = a \/ used demo_sb (disk_block demo_fs_disk) b) /\
       (forall w, w <> a -> w ∉ bitmaps demo_sb -> v' w = disk_block demo_fs_disk w) /\
       (length L' <= length ([] : list Z) + 2)%nat)).
Proof.
  destruct demo_tx as (s & HT & Hsb & _). exists s.
  apply (@balloc_correct 1%nat ram_disk ram_disk_ok 1 demo_sb s 1 2 []).
  - exact (Nat.lt_0_succ 0).
  - exact HT.
  - exact Hsb.
  - exact demo_mapped.
  - reflexivity.
Defined.

Lemma demo_work : exists s, fwork 1 demo_sb 0 1 2 s [] (disk_block demo_fs_disk) demo_inode.
Proof.
  destruct demo_tx as (s & HT & Hsb & Hat). exists s.
  split; [done|done|done|done|apply demo_mapped|apply demo_file_ok].
Qed.

(** A process with an address space inside a transaction. *)
Lemma tx_with_user dev op s pid st L H D v su r T A :
  tx dev op s pid st L H D v -> @uinv small_layout su r T -> as_wf A -> pagetable A = idx2pa r ->
  (forall i, 0 <= i < region_count A -> 0 <= perm (region A i) < 1024) ->
  exists s' pr, tx dev op s' pid st L H D v /\ @user_ok small_layout pr r s' T /\ k_mem s' = k_mem su /\
    k_sb s' = k_sb s /\ k_inodes s' = k_inodes s.
Proof.
  intros [A1 A2 A3 A4 A5 A0 A6 A7 A8 A9] Hu Hwf Hpt Hpm.
  destruct A1 as [[(P1 & P2 & P3) (p & q & Q1 & Q2 & Q3 & Q4) P5 P6] I2 I3 I4 I5 I6 I7 I8].
  assert (Hlp : (Z.to_nat p < length (k_procs s))%nat) by (by eapply lookup_lt_Some).
  set (s' := with_mem su (set_locks (<[LKmem := mkLock 0 false "kmem"]> (k_locks s))
    (set_procs (<[Z.to_nat p := set_p_as A q]> (k_procs s)) s))).
  assert (Hlk : forall lk, lk <> LKmem -> lock_free s lk -> lock_free s' lk).
  { intros lk Hne [nm Hnm]. exists nm. cbn. by rewrite lookup_insert_ne. }
  assert (Hcpu : cpu_ok s') by done.
  assert (Hq : k_procs s' !! Z.to_nat p = Some (set_p_as A q)) by (by apply list_lookup_insert_eq).
  exists s', p. split; [|split; [|done]].
  - split; try done; try (apply Hlk; done).
    + split; try done. split.
      * split; [done|]. split; [cbn; by rewrite length_insert|]. intros i Hi. apply Hlk; [done|auto].
      * exists p, (set_p_as A q). split_and!; done.
      * by apply Hlk.
      * intros i Hi. apply Hlk; [done|auto].
    + destruct A2 as [B1 B2 B3 B4 B5 B6]. by split.
  - split.
    + eapply (uinv_same_mem su); [done|done| |done]. exists "kmem". cbn. apply lookup_insert_eq.
    + exists (set_p_as A q). split_and!; done.
Qed.

(** Two bytes at the address 0 of a process that may read them. *)
Lemma demo_user_tx : exists s pr r T bs, fwork 1 demo_sb 0 1 2 s [] (disk_block demo_fs_disk) demo_inode /\
  @source_ok small_layout pr r (SUser 0) bs s T /\ @dest_ok small_layout pr r (DUser 0) s T /\ length bs = 2%nat.
Proof.
  destruct (UserSpec.demo_mapped (Z.lor PTE_R PTE_U)) as (su & r & T & n & Hu & _ & _ & Hlf & Hn & _);
    [vm_compute; split; [discriminate|reflexivity]|vm_compute; repeat split|].
  set (A := set_pagetable (idx2pa r) (p_as demo_proc)).
  destruct demo_work as (s & [A1 A2 A3 A4 A5 A6]).
  destruct (tx_with_user 1 true s 1 2 [] ∅ ∅ _ su r T A A1 Hu) as (s' & pr & HT & Hus & Hm & Hsb & Hin).
  - destruct demo_as_wf as [H1 H2 H3 H4 H5 H6]; split; assumption.
  - reflexivity.
  - intros i Hi. assert (i = 0) as -> by (cbn in Hi; lia). vm_compute. split; [discriminate|reflexivity].
  - exists s', pr, r, T, ((fun x => load8 (k_mem su) (PTE2PA (leaf (k_mem su) T x) + x mod PGSIZE)) <$> [0; 1]).
    split; [|split; [|split; [exact Hus|reflexivity]]].
    + split; [done|by rewrite Hsb|destruct A3 as [? ?]; split; [done|by rewrite Hin]|done|done|done].
    + split; [exact Hus|]. intros j b Hj. rewrite Hm.
      assert (Hx : exists x, (x = 0 \/ x = 1) /\ Z.of_nat j = x /\
        b = load8 (k_mem su) (PTE2PA (leaf (k_mem su) T x) + x mod PGSIZE)).
      { destruct j as [|[|j]]; [exists 0|exists 1|done]; injection Hj as <-; auto. }
      destruct Hx as (x & Hx & -> & ->). rewrite Z.add_0_l.
      assert (Ex : u32 x = x) by (destruct Hx as [->| ->]; done). rewrite Ex.
      assert (El : leaf (k_mem su) T x = leaf (k_mem su) T 0) by (destruct Hx as [->| ->]; done).
      unfold peek. rewrite El, Hlf. pose proof (idx2pa_range n Hn).
      assert (Hf : 0 <= Z.lor (Z.lor PTE_R PTE_U) PTE_V < 1024) by done.
      unfold PTE_V, PTE_U in *. by rewrite !has_mkpte.
Qed.

Lemma writei_correct_witness : exists s pr r T bs, length bs = 2%nat /\
  let v := disk_block demo_fs_disk in let off := 5 in let n := 2 in
  runs (@writei small_layout 1%nat ram_disk 0 (SUser 0) off n s) (fun c s' => 0 <= c <= n /\
    (exists T', @fetched small_layout r (SUser 0) s T s' T') /\ exists L' v' ip',
    fwork 1 demo_sb 0 1 2 s' L' v' ip' /\ iostep 0 s ip' s' /\
    (c < n -> forall b, 0 <= b < sb_size demo_sb -> used demo_sb v' b) /\
    ip' = set_i_size (Z.max (i_size demo_inode) (off + c)) (set_i_addrs (i_addrs ip') demo_inode) /\
    (forall k, 0 <= k < MAXFILE * BSIZE -> fbyte v' ip' k =
       if decide (off <= k < off + c) then byte_at bs (k - off) else fbyte v demo_inode k) /\
    (let w := IBLOCK (i_inum demo_inode) demo_sb in
       v' w = dinode_put (v w) (dip_off (i_inum demo_inode)) ip') /\
    (forall ip2, file_ok demo_sb v ip2 -> (forall w, owns v ip2 w -> ~ owns v demo_inode w) ->
       file_ok demo_sb v' ip2 /\ forall k, 0 <= k < MAXFILE * BSIZE -> fbyte v' ip2 k = fbyte v ip2 k)) /\
  @source_ok small_layout pr r (SUser 0) bs s T.
Proof.
  destruct demo_user_tx as (s & pr & r & T & bs & Hw & Hsrc & _ & Hl). exists s, pr, r, T, bs. split; [exact Hl|].
  cbv zeta. split; [|exact Hsrc].
  apply (@writei_correct 1%nat small_layout ram_disk ram_disk_ok small_layout_ok 1 demo_sb 0 1 2 pr r (SUser 0) bs s T []
    (disk_block demo_fs_disk) demo_inode 5 2).
  - exact (Nat.lt_0_succ 0).
  - exact Hw.
  - exact Hsrc.
  - split; reflexivity || discriminate.
  - rewrite Hl. reflexivity.
  - reflexivity.
  - split; reflexivity || discriminate.
  - reflexivity.
Defined.


