(* ===== verification/FsDirSpec.v ===== *)
(** * Directories and the inode table: results

    Looking up a name and adding one, for a process that holds the directory's
    lock: which entry is found, which is written, and what happens to the inode
    table. *)

From S2P Require Import Prelude CMem Machine Sv32 Spinlock Kalloc KallocProof KallocSpec Printf PrintfProof.
From S2P Require Import Sched UserMem Sleeplock Bio BioProof BioSpec Codec Log LogProof.
From S2P Require Import Fs FsInode FsTx FsBitmap FsFile FsIo FsDir FsSpec.

Section results.
Context `{W : WaitFuel, LY : Layout, BD : BlockDev, !BlockDevOk BD}.

(** C17: [dirlookup] returns the first entry in use whose name is the one asked
    for, names compared up to 14 characters, and nothing when there is none.
    The inode it returns is the one the entry names, with one more reference: the
    one entry of the inode table for that inode if it had one, else a free entry
    marked as not read yet.  The table still has at most one entry for an
    inode, and neither the disk nor any other entry changes. *)
Theorem dirlookup_correct (dev : Z) (op : bool) (dp pid st : Z) (L : list Z) (v : Z -> list Z)
    (d : inode) (name : list Z) (s : kstate) :
  (0 < wait_fuel)%nat -> tx dev op s pid st L ∅ ∅ v -> inode_at s dp d -> i_dev d = dev ->
  (forall w, length (v w) = Z.to_nat BSIZE) -> (length L < Z.to_nat NBUF)%nat -> dir_ok v d ->
  lock_free s LItable -> itable_ok (k_inodes s) -> has_room (k_inodes s) -> (length name <= 4096)%nat ->
  runs (dirlookup dp name s) (fun r s' => tx dev op s' pid st L ∅ ∅ v /\ itable_ok (k_inodes s') /\
    match r with
    | Some (i, off) => exists k ip', off = DIRENT_SIZE * k /\ 0 <= off < i_size d /\ named v d name k /\
        (forall j, 0 <= j < k -> ~ named v d name j) /\ inode_at s' i ip' /\
        refers dev (de_inum (dirent_at v d k)) ip' /\
        got (k_inodes s) dev (de_inum (dirent_at v d k)) i ip' /\ fstep i s ip' s'
    | None => tframe s s' /\ forall j, 0 <= DIRENT_SIZE * j < i_size d -> ~ named v d name j
    end).
Proof.
  intros Hf HT Hat Hdev Hlen Hroom Hd Hlk Hok Hr Hnm.
  eapply runs_mono; [by apply (dirlookup_spec dev op dp pid st L v d name)|].
  intros [[i off]|] s' [HT' H]; (split; [done|]).
  - destruct H as (k & ip' & E & Hoff & Hk & Hno & HG & F). pose proof (tframe_inodes _ _ F) as Ei.
    split; [rewrite Ei; by eapply got_ok|]. exists k, ip'. do 4 (split; [done|]). split; [|split; [|done]].
    + destruct HG as (ip & Hi & Hip & _). eapply fstep_inode_at; [exact (conj Hi Hip)|exact F].
    + by eapply got_refers.
  - destruct H as [F Hno]. split; [by rewrite (tframe_inodes _ _ F)|done].
Qed.

(** C18: [dirlink] of a name that the directory does not have writes an entry with
    the name and the inode number in the first unused slot, at the end of the
    directory if there is none, and leaves every other entry as it was; the
    result is a directory again.  It fails with -1 only when the directory has
    its maximal size, changing nothing, or when the disk is full. *)
Theorem dirlink_correct (dev : Z) (sb : superblock) (dp pid st : Z) (L : list Z) (v : Z -> list Z)
    (d : inode) (name : list Z) (inum : Z) (s : kstate) :
  (0 < wait_fuel)%nat -> fwork dev sb dp pid st s L v d -> dir_ok v d -> lock_free s LItable ->
  itable_ok (k_inodes s) -> has_room (k_inodes s) -> (length name <= 4096)%nat ->
  (forall j, 0 <= DIRENT_SIZE * j < i_size d -> ~ named v d name j) -> 0 < inum < 2^16 ->
  0 <= IBLOCK (i_inum d) sb < sb_bmapstart sb -> Z.of_nat (length L) + nbitmap sb + 3 < LOGBLOCKS ->
  runs (dirlink dp name inum s) (fun r s' =>
    r = 0 /\ (exists k L' v' d', free_slot v d k /\ fwork dev sb dp pid st s' L' v' d' /\ fstep dp s d' s' /\
      dir_ok v' d' /\ i_size d' = Z.max (i_size d) (DIRENT_SIZE * k + DIRENT_SIZE) /\
      de_inum (dirent_at v' d' k) = inum /\ named v' d' name k /\
      forall j, 0 <= DIRENT_SIZE * j < i_size d' -> j <> k -> dirent_at v' d' j = dirent_at v d j) \/
    r = -1 /\ (tframe s s' /\ tx dev true s' pid st L ∅ ∅ v /\ MAXFILE * BSIZE < i_size d + DIRENT_SIZE \/
      exists L' v' d', fwork dev sb dp pid st s' L' v' d' /\ fstep dp s d' s' /\
        forall b, 0 <= b < sb_size sb -> used sb v' b)).
Proof.
  intros Hf Hw Hd Hlk Hok Hr Hnm Hno Hin Hib Hlog. pose proof Hw as [A1 A2 A3 A4 A5 A6].
  pose proof (nbitmap_nonneg sb v A5). assert (Hm : inum mod 2^16 = inum) by (apply Z.mod_small; lia).
  eapply runs_mono; [apply (dirlink_spec dev sb dp pid st L v d name); try done|].
  - apply A5.
  - unfold LOGBLOCKS, NBUF in *. lia.
  - rewrite Hm. lia.
  - intros r s' HL. unfold linked in HL. by rewrite Hm in HL.
Qed.
End results.

(** ** Witnesses

    A directory with the entries [.], [..], an unused one and [a]. *)
Definition demo_entry (inum : Z) (name : list Z) : list Z :=
  [inum; 0] ++ name ++ replicate (14 - length name) 0.
Definition demo_entries : list Z :=
  demo_entry 1 [46] ++ demo_entry 1 [46; 46] ++ demo_entry 0 [120] ++ demo_entry 7 [97].
Definition demo_dir_block : list Z := demo_entries ++ replicate (Z.to_nat BSIZE - 64) 0.
Definition demo_dir : inode := mkInode 1 1 1 1 T_DIR 0 0 1 64 (41 :: replicate 12 0).
Definition demo_itable : list inode := demo_dir :: replicate 49 (mkInode 0 0 0 0 0 0 0 0 0 []).
Definition demo_dir_view : Z -> list Z := disk_block (demo_disk demo_dir_block).

Lemma demo_dir_block_length : length demo_dir_block = Z.to_nat BSIZE.
Proof. done. Qed.

Lemma demo_dir_ok : dir_ok demo_dir_view demo_dir.
Proof.
  split; [done|split; vm_compute; done|done|]. intros k Hk. change (i_size demo_dir) with 64 in Hk.
  unfold demo_dir_view. rewrite demo_fblk_at; [|done|].
  - rewrite decide_True; [done|]. unfold BSIZE. zlia.
  - split; rewrite ?MAXFILE_eq; unfold BSIZE; zlia.
Qed.

Lemma demo_itable_ok : itable_ok demo_itable /\ has_room demo_itable.
Proof.
  assert (H : forall i ip, demo_itable !! i = Some ip -> 0 <= i_ref ip /\ (0 < i_ref ip -> i = O)).
  { intros [|i] ip; [intros [= <-]; done|]. intros Hi. apply lookup_replicate in Hi as [-> _]. done. }
  split; [split|].
  - done.
  - intros i ip Hi. by destruct (H i ip Hi).
  - intros i j ip ip' dv n Hi Hj [Ri _] [Rj _]. by rewrite (proj2 (H i ip Hi) Ri), (proj2 (H j ip' Hj) Rj).
  - by exists 1%nat, (mkInode 0 0 0 0 0 0 0 0 0 []).
Qed.

Lemma dirlookup_correct_witness : exists s,
  runs (@dirlookup small_layout 1%nat ram_disk 0 [97; 0] s) (fun r s' =>
    tx 1 true s' 1 2 [] ∅ ∅ demo_dir_view /\ itable_ok (k_inodes s') /\
    match r with
    | Some (i, off) => exists k ip', off = DIRENT_SIZE * k /\ 0 <= off < i_size demo_dir /\
        named demo_dir_view demo_dir [97; 0] k /\
        (forall j, 0 <= j < k -> ~ named demo_dir_view demo_dir [97; 0] j) /\ inode_at s' i ip' /\
        refers 1 (de_inum (dirent_at demo_dir_view demo_dir k)) ip' /\
        got (k_inodes s) 1 (de_inum (dirent_at demo_dir_view demo_dir k)) i ip' /\ fstep i s ip' s'
    | None => tframe s s' /\
        forall j, 0 <= DIRENT_SIZE * j < i_size demo_dir -> ~ named demo_dir_view demo_dir [97; 0] j
    end).
Proof.
  destruct (demo_tx_at demo_dir_block demo_itable) as (s & HT & Hsb & Hi & Hlk). exists s.
  destruct demo_itable_ok as [Hok Hr]. rewrite <- Hi in Hok, Hr.
  apply (@dirlookup_correct 1%nat small_layout ram_disk ram_disk_ok 1 true 0 1 2 [] demo_dir_view demo_dir [97; 0] s).
  - exact (Nat.lt_0_succ 0).
  - exact HT.
  - split; [apply Z.le_refl|]. rewrite Hi. reflexivity.
  - reflexivity.
  - apply (demo_block_length_at demo_dir_block demo_dir_block_length).
  - apply Nat.ltb_lt. reflexivity.
  - exact demo_dir_ok.
  - exact Hlk.
  - exact Hok.
  - exact Hr.
  - apply Nat.leb_le. reflexivity.
Defined.

(** The name [b] is not in it. *)
Lemma demo_absent j : 0 <= DIRENT_SIZE * j < i_size demo_dir -> ~ named demo_dir_view demo_dir [98; 0] j.
Proof.
  intros Hj [_ Hn]. change (i_size demo_dir) with 64 in Hj. unfold DIRENT_SIZE in Hj.
  assert (Hall : forallb (fun j => negb (bool_decide (dir_name [98; 0] = dir_name (de_name (dirent_at demo_dir_view demo_dir j)))))
    (seqZ 0 4) = true) by (vm_compute; reflexivity).
  rewrite forallb_forall in Hall. specialize (Hall j ltac:(apply list_elem_of_In, elem_of_seqZ; lia)).
  apply negb_true_iff, bool_decide_eq_false in Hall. by apply Hall.
Qed.

Lemma dirlink_correct_witness : exists s,
  runs (@dirlink small_layout 1%nat ram_disk 0 [98; 0] 9 s) (fun r s' =>
    r = 0 /\ (exists k L' v' d', free_slot demo_dir_view demo_dir k /\ fwork 1 demo_sb 0 1 2 s' L' v' d' /\
      fstep 0 s d' s' /\ dir_ok v' d' /\
      i_size d' = Z.max (i_size demo_dir) (DIRENT_SIZE * k + DIRENT_SIZE) /\
      de_inum (dirent_at v' d' k) = 9 /\ named v' d' [98; 0] k /\
      forall j, 0 <= DIRENT_SIZE * j < i_size d' -> j <> k ->
        dirent_at v' d' j = dirent_at demo_dir_view demo_dir j) \/
    r = -1 /\ (tframe s s' /\ tx 1 true s' 1 2 [] ∅ ∅ demo_dir_view /\ MAXFILE * BSIZE < i_size demo_dir + DIRENT_SIZE \/
      exists L' v' d', fwork 1 demo_sb 0 1 2 s' L' v' d' /\ fstep 0 s d' s' /\
        forall b, 0 <= b < sb_size demo_sb -> used demo_sb v' b)).
Proof.
  destruct (demo_tx_at demo_dir_block demo_itable) as (s & HT & Hsb & Hi & Hlk). exists s.
  destruct demo_itable_ok as [Hok Hr]. rewrite <- Hi in Hok, Hr.
  apply (@dirlink_correct 1%nat small_layout ram_disk ram_disk_ok 1 demo_sb 0 1 2 [] demo_dir_view demo_dir [98; 0] 9 s).
  - exact (Nat.lt_0_succ 0).
  - split; [exact HT|exact Hsb| |reflexivity|apply (demo_mapped_at demo_dir_block demo_dir_block_length)|
      apply (demo_file_ok_at demo_dir_block demo_dir eq_refl)].
    split; [apply Z.le_refl|]. rewrite Hi. reflexivity.
  - exact demo_dir_ok.
  - exact Hlk.
  - exact Hok.
  - exact Hr.
  - apply Nat.leb_le. reflexivity.
  - exact demo_absent.
  - split; reflexivity.
  - split; reflexivity || discriminate.
  - reflexivity.
Defined.
