(* ===== verification/Mkfs.v ===== *)
(** * The image builder

    Models [src/os/mkfs/mkfs.c] on a little-endian host.  The image file is the
    list of its blocks; a read past its end fails and a write past it extends
    it.  An input file is its path and its content, or no content when it cannot
    be opened.  Progress messages are left out. *)

From S2P Require Import Prelude CMem Machine Printf Codec Fs.

(** The globals of the program that change. *)
Record mkfs_t := mkMkfs {
  mk_img : list (list Z);   (** the file behind [fsfd] *)
  mk_freeinode : Z;
  mk_freeblock : Z;
}.
Definition set_mk_img (v : list (list Z)) (r : mkfs_t) : mkfs_t := mkMkfs v (mk_freeinode r) (mk_freeblock r).
Definition set_mk_freeinode (v : Z) (r : mkfs_t) : mkfs_t := mkMkfs (mk_img r) v (mk_freeblock r).
Definition set_mk_freeblock (v : Z) (r : mkfs_t) : mkfs_t := mkMkfs (mk_img r) (mk_freeinode r) v.
Definition I (A : Type) : Type := M mkfs_t A.

(** [perror(s); exit(1)] *)
Definition die {A} (msg : string) : I A := panic msg.
Definition assert_ (b : bool) : I unit := if b then ret tt else panic "assert".

Definition NINODES : Z := 200.
Definition mk_nbitmap : Z := FSSIZE / BPB + 1.
Definition mk_ninodeblocks : Z := NINODES / IPB + 1.
Definition mk_nlog : Z := LOGBLOCKS + 1.
Definition mk_nmeta : Z := 2 + mk_nlog + mk_ninodeblocks + mk_nbitmap.
Definition mk_nblocks : Z := FSSIZE - mk_nmeta.

(** The value a little-endian reader finds in the bytes of [y]. *)
Definition xshort (x : Z) : Z := x mod 2^16.
Definition xint (x : Z) : Z := x mod 2^32.

(** [sb], constant after the first lines of [main] *)
Definition mk_sb : superblock :=
  mkSB FSMAGIC (xint FSSIZE) (xint mk_nblocks) (xint NINODES) (xint mk_nlog) (xint 2)
    (xint (2 + mk_nlog)) (xint (2 + mk_nlog + mk_ninodeblocks)).

Definition zeroes : list Z := replicate (Z.to_nat BSIZE) 0.

Definition wsect (sec : Z) (buf : list Z) : I unit :=
  modify (fun st =>
    let img := mk_img st in
    let n := Z.to_nat sec in
    set_mk_img (if (n <? length img)%nat then <[n := buf]> img
                else img ++ replicate (n - length img) zeroes ++ [buf]) st).
Definition rsect (sec : Z) : I (list Z) :=
  img <- gets mk_img ;;
  match img !! Z.to_nat sec with
  | Some buf => ret buf
  | None => die "read"
  end.

(** A [struct dinode] is an inode of which only the fields on disk matter. *)
Definition winode (inum : Z) (ip : inode) : I unit :=
  let bn := IBLOCK inum mk_sb in
  buf <- rsect bn ;;
  wsect bn (dinode_put buf (dip_off inum) ip).
Definition rinode (inum : Z) : I inode :=
  let bn := IBLOCK inum mk_sb in
  buf <- rsect bn ;;
  ret (dinode_get buf (dip_off inum) zero_inode).

Definition mk_ialloc (type : Z) : I Z :=
  inum <- gets mk_freeinode ;;
  modify (set_mk_freeinode (inum + 1)) ;;
  let din := mkInode 0 0 0 0 (i16 (xshort type)) 0 0 (i16 (xshort 1)) (xint 0) (replicate 13 0) in
  winode inum din ;;
  ret inum.

(** [buf[i/8] = buf[i/8] | (0x1 << (i%8))] for the first [used] bits *)
Definition mark_used (used : Z) (buf : list Z) : list Z :=
  foldl bit_set buf (seqZ 0 used).
Definition mk_balloc (used : Z) : I unit :=
  assert_ (used <? BPB) ;;
  wsect (sb_bmapstart mk_sb) (mark_used used zeroes).

Definition newblock : I Z :=
  b <- gets mk_freeblock ;;
  modify (set_mk_freeblock (b + 1)) ;;
  ret b.

(** Block [fbn] of the file: its number, allocated if it has none. *)
Definition mk_bmap (din : inode) (fbn : Z) : I (inode * Z) :=
  assert_ (fbn <? MAXFILE) ;;
  if fbn <? NDIRECT then
    din <- (if nth (Z.to_nat fbn) (i_addrs din) 0 =? 0 then
              b <- newblock ;; ret (set_i_addrs (<[Z.to_nat fbn := xint b]> (i_addrs din)) din)
            else ret din) ;;
    ret (din, nth (Z.to_nat fbn) (i_addrs din) 0)
  else
    din <- (if nth (Z.to_nat NDIRECT) (i_addrs din) 0 =? 0 then
              b <- newblock ;; ret (set_i_addrs (<[Z.to_nat NDIRECT := xint b]> (i_addrs din)) din)
            else ret din) ;;
    let ind := nth (Z.to_nat NDIRECT) (i_addrs din) 0 in
    indirect <- rsect ind ;;
    if get32 indirect (4 * (fbn - NDIRECT)) =? 0 then
      b <- newblock ;;
      let indirect := put32 indirect (4 * (fbn - NDIRECT)) (xint b) in
      wsect ind indirect ;;
      ret (din, get32 indirect (4 * (fbn - NDIRECT)))
    else ret (din, get32 indirect (4 * (fbn - NDIRECT))).

(** [while(n > 0)] of [iappend]; every round takes at least one byte. *)
Fixpoint iappend_loop (fuel : nat) (din : inode) (off : Z) (p : list Z) : I (inode * Z) :=
  match fuel with
  | O => nofuel
  | S k =>
      let n := Z.of_nat (length p) in
      if n >? 0 then
        let fbn := off / BSIZE in
        r <- mk_bmap din fbn ;;
        let '(din, x) := r in
        let n1 := Z.min n ((fbn + 1) * BSIZE - off) in
        buf <- rsect x ;;
        wsect x (splice buf (off - fbn * BSIZE) (take (Z.to_nat n1) p)) ;;
        iappend_loop k din (off + n1) (drop (Z.to_nat n1) p)
      else ret (din, off)
  end.
Definition iappend (inum : Z) (p : list Z) : I unit :=
  din <- rinode inum ;;
  r <- iappend_loop (length p + 1) din (i_size din) p ;;
  let '(din, off) := r in
  winode inum (set_i_size (xint off) din).

(** A directory entry for a zeroed [struct dirent]. *)
Definition mk_dirent (name : list Z) (inum : Z) : list Z :=
  dirent_make (replicate (Z.to_nat DIRENT_SIZE) 0) name (xshort inum).

(** [while((cc = read(fd, buf, sizeof(buf))) > 0) iappend(inum, buf, cc)] *)
Fixpoint copy_file (fuel : nat) (inum : Z) (data : list Z) : I unit :=
  match fuel with
  | O => nofuel
  | S k =>
      match data with
      | [] => ret tt
      | _ =>
          iappend inum (take (Z.to_nat BSIZE) data) ;;
          copy_file k inum (drop (Z.to_nat BSIZE) data)
      end
  end.

(** [strrchr(path, '/') + 1], or the whole path; then without a leading [_]. *)
Fixpoint basename (path : list Z) : list Z :=
  match path with
  | [] => []
  | c :: r => if bool_decide (slash ∈ path) then basename r else path
  end.
Definition underscore : Z := 95.
Definition shortname (path : list Z) : list Z :=
  match basename path with
  | c :: r => if c =? underscore then r else c :: r
  | [] => []
  end.

Definition add_file (rootino : Z) (f : list Z * option (list Z)) : I unit :=
  let '(path, content) := f in
  match content with
  | None => die "open"
  | Some data =>
      let name := shortname path in
      assert_ (Z.of_nat (length name) <=? DIRSIZ) ;;
      inum <- mk_ialloc T_FILE ;;
      iappend rootino (mk_dirent name inum) ;;
      copy_file (length data + 1) inum data
  end.
Fixpoint add_files (rootino : Z) (files : list (list Z * option (list Z))) : I unit :=
  match files with
  | [] => ret tt
  | f :: fs => add_file rootino f ;; add_files rootino fs
  end.

Definition sb_bytes : list Z :=
  put32s (replicate (Z.to_nat BSIZE) 0) 0
    [sb_magic mk_sb; sb_size mk_sb; sb_nblocks mk_sb; sb_ninodes mk_sb; sb_nlog mk_sb;
     sb_logstart mk_sb; sb_inodestart mk_sb; sb_bmapstart mk_sb].

Definition mkfs_main (files : list (list Z * option (list Z))) : I unit :=
  modify (set_mk_freeblock mk_nmeta) ;;
  for_ (Z.to_nat FSSIZE) 0 (fun i => wsect i zeroes) ;;
  wsect 1 sb_bytes ;;
  rootino <- mk_ialloc T_DIR ;;
  assert_ (rootino =? ROOTINO) ;;
  iappend rootino (mk_dirent (cstr ".") rootino) ;;
  iappend rootino (mk_dirent (cstr "..") rootino) ;;
  add_files rootino files ;;
  din <- rinode rootino ;;
  let off := xint (i_size din) in
  let off := (off / BSIZE + 1) * BSIZE in
  winode rootino (set_i_size (xint off) din) ;;
  fb <- gets mk_freeblock ;;
  mk_balloc fb.

(** The open file is empty; [uint freeinode = 1]. *)
Definition mkfs_start : mkfs_t := mkMkfs [] 1 0.
