(* ===== verification/MkfsProof.v ===== *)
(** * The image builder's files

    What [iappend] does to the image: the file grows by the bytes appended, at
    the price of a known number of new blocks, and nothing else changes. *)

From S2P Require Import Prelude CMem Machine Printf Codec LogProof Fs FsBitmap FsInode FsFile Mkfs.

(** ** Blocks of the image *)

Definition holds (st : mkfs_t) (v : Z -> list Z) : Prop :=
  length (mk_img st) = Z.to_nat FSSIZE /\
  (forall w, 0 <= w < FSSIZE -> mk_img st !! Z.to_nat w = Some (v w)) /\
  (forall w, length (v w) = Z.to_nat BSIZE).

Lemma rsect_eq st v w : holds st v -> 0 <= w < FSSIZE -> rsect w st = Ok (v w) st.
Proof. intros (_ & Hv & _) Hw. unfold rsect, bind, gets. cbn [rbind]. by rewrite Hv. Qed.

Definition put_block (w : Z) (b : list Z) (st : mkfs_t) : mkfs_t :=
  set_mk_img (<[Z.to_nat w := b]> (mk_img st)) st.

Lemma wsect_eq st v w b :
  holds st v -> 0 <= w < FSSIZE -> length b = Z.to_nat BSIZE ->
  wsect w b st = Ok tt (put_block w b st) /\ holds (put_block w b st) (bput v w b).
Proof.
  intros (Hl & Hv & Hb) Hw Hlb. split.
  - unfold wsect, modify. cbv zeta. rewrite (proj2 (Nat.ltb_lt _ _)) by lia. done.
  - split; [simpl; by rewrite length_insert|]. split.
    + intros u Hu. simpl. unfold bput. case_decide as E.
      * subst. apply list_lookup_insert_eq. lia.
      * rewrite list_lookup_insert_ne by lia. auto.
    + intros u. unfold bput. case_decide; auto.
Qed.

Lemma holds_free st v fb : holds st v -> holds (set_mk_freeblock fb st) v.
Proof. done. Qed.

(** ** A file of the image

    [ip] with its first [nb] blocks allocated below [fb], holding the bytes
    [c]. *)
Definition allocated (fb w : Z) : Prop := mk_nmeta <= w < fb.
Definition mine (v : Z -> list Z) (ip : inode) (nb w : Z) : Prop :=
  (exists bn, 0 <= bn < nb /\ fblk v ip bn = w) \/ (NDIRECT < nb /\ iblk ip = w).

Record fimg (v : Z -> list Z) (fb : Z) (ip : inode) (c : list Z) (nb : Z) : Prop := {
  fi_wf : dinode_wf ip;
  fi_nb : 0 <= nb <= MAXFILE;
  fi_len : Z.of_nat (length c) <= nb * BSIZE;
  fi_in : forall bn, 0 <= bn < nb -> allocated fb (fblk v ip bn);
  fi_out : forall bn, nb <= bn < MAXFILE -> fblk v ip bn = 0;
  fi_ind : NDIRECT < nb -> allocated fb (iblk ip);
  fi_noind : nb <= NDIRECT -> iblk ip = 0;
  fi_inj : forall bn bn', 0 <= bn < nb -> 0 <= bn' < nb -> fblk v ip bn = fblk v ip bn' -> bn = bn';
  fi_apart : forall bn, 0 <= bn < nb -> NDIRECT < nb -> fblk v ip bn <> iblk ip;
  fi_bytes : forall k, 0 <= k < Z.of_nat (length c) -> fbyte v ip k = byte_at c k;
  fi_tail : forall k, Z.of_nat (length c) <= k < nb * BSIZE -> fbyte v ip k = 0;
}.

Lemma nmeta_eq : mk_nmeta = 47.
Proof. done. Qed.
Lemma allocated_mono fb fb' w : fb <= fb' -> allocated fb w -> allocated fb' w.
Proof. unfold allocated. lia. Qed.
Lemma allocated_pos fb w : allocated fb w -> 0 < w.
Proof. unfold allocated. rewrite nmeta_eq. lia. Qed.

(** A file looks only at its own blocks. *)
Lemma fimg_fblk v v' fb ip c nb bn :
  fimg v fb ip c nb -> (forall w, mine v ip nb w -> v' w = v w) -> fblk v' ip bn = fblk v ip bn.
Proof.
  intros Hf Hv. unfold fblk. destruct (bn <? NDIRECT); [done|].
  destruct (Z.eqb_spec (iblk ip) 0) as [|Hi]; [done|]. rewrite Hv; [done|]. right.
  split; [|done]. destruct (Z.le_gt_cases nb NDIRECT) as [Hle|]; [|lia].
  by rewrite (fi_noind _ _ _ _ _ Hf Hle) in Hi.
Qed.

Lemma fimg_byte_in v fb ip c nb k :
  fimg v fb ip c nb -> 0 <= k < nb * BSIZE -> 0 <= k / BSIZE < nb /\ fbyte v ip k = byte_at (v (fblk v ip (k / BSIZE))) (k mod BSIZE).
Proof.
  intros Hf Hk. assert (Hbn : 0 <= k / BSIZE < nb) by (unfold BSIZE in *; zlia). split; [done|].
  unfold fbyte. pose proof (allocated_pos _ _ (fi_in _ _ _ _ _ Hf _ Hbn)).
  replace (fblk v ip (k / BSIZE) =? 0) with false by lia. done.
Qed.

Lemma fimg_frame v v' fb fb' ip c nb :
  fimg v fb ip c nb -> fb <= fb' -> (forall w, mine v ip nb w -> v' w = v w) -> fimg v' fb' ip c nb.
Proof.
  intros Hf Hfb Hv. assert (HE : forall bn, fblk v' ip bn = fblk v ip bn) by (intros; by eapply fimg_fblk).
  pose proof Hf as [F1 F2 F3 F4 F5 F6 F7 F8 F9 F10 F11].
  assert (Hby : forall k, 0 <= k < nb * BSIZE -> fbyte v' ip k = fbyte v ip k).
  { intros k Hk. destruct (fimg_byte_in v fb ip c nb k Hf Hk) as [Hbn E].
    rewrite E. unfold fbyte. rewrite HE. pose proof (allocated_pos _ _ (F4 _ Hbn)).
    replace (fblk v ip (k / BSIZE) =? 0) with false by lia. rewrite Hv; [done|]. left. eauto. }
  split; try done.
  - intros bn Hbn. rewrite HE. eapply allocated_mono; [done|auto].
  - intros bn Hbn. rewrite HE. auto.
  - intros Hn. eapply allocated_mono; [done|auto].
  - intros bn bn' Hbn Hbn'. rewrite !HE. auto.
  - intros bn Hbn. rewrite HE. auto.
  - intros k Hk. rewrite Hby by lia. auto.
  - intros k Hk. rewrite Hby by lia. auto.
Qed.

Lemma mine_frame v v' fb ip c nb w :
  fimg v fb ip c nb -> (forall w, mine v ip nb w -> v' w = v w) -> mine v' ip nb w <-> mine v ip nb w.
Proof.
  intros Hf Hv. unfold mine. split; (intros [(bn & Hbn & <-)|]; [left; exists bn|by right]); split; try done;
    [symmetry|]; by eapply fimg_fblk.
Qed.

Lemma mine_allocated v fb ip c nb w : fimg v fb ip c nb -> mine v ip nb w -> allocated fb w.
Proof. intros Hf [(bn & Hbn & <-)|[Hn <-]]; [by eapply fi_in|by eapply fi_ind]. Qed.

(** Blocks a file of [nb] blocks uses, and those of [len] bytes. *)
Definition cost (nb : Z) : Z := nb + (if NDIRECT <? nb then 1 else 0).
Definition nbl (len : Z) : Z := (len + BSIZE - 1) / BSIZE.

(** The disk from [fb] on has not been used. *)
Definition clear_from (v : Z -> list Z) (fb : Z) : Prop := forall w, fb <= w < FSSIZE -> v w = zeroes.

(** How a file grows: its new blocks were free, and only its blocks change. *)
Record grown (v : Z -> list Z) (fb : Z) (ip : inode) (nb : Z) (v' : Z -> list Z) (fb' : Z) (ip' : inode) (nb' : Z)
    : Prop := {
  gr_keep : forall w, mine v ip nb w -> mine v' ip' nb' w;
  gr_mine : forall w, mine v' ip' nb' w -> mine v ip nb w \/ fb <= w < fb';
  gr_frame : forall w, ~ mine v' ip' nb' w -> v' w = v w;
  gr_ip : ip' = set_i_addrs (i_addrs ip') ip;
}.

(** ** One more block *)

Lemma byte_at_zeroes k : byte_at zeroes k = 0.
Proof. unfold byte_at, zeroes. destruct (_ !! _) eqn:E; [|done]. by apply lookup_replicate in E as [-> _]. Qed.

Section extend.
Context (v : Z -> list Z) (fb : Z) (ip : inode) (c : list Z) (nb : Z).
Context (v' : Z -> list Z) (fb' : Z) (ip' : inode) (x : Z).
Hypothesis (Hf : fimg v fb ip c nb) (Hnb : nb < MAXFILE) (Hwf : dinode_wf ip').
Hypothesis (HE : forall bn, 0 <= bn < MAXFILE -> fblk v' ip' bn = if decide (bn = nb) then x else fblk v ip bn).
Hypothesis (Hx : fb <= x < fb') (Hfb : mk_nmeta <= fb).
Hypothesis (Hi1 : NDIRECT < nb -> iblk ip' = iblk ip).
Hypothesis (Hi2 : nb = NDIRECT -> fb <= iblk ip' < fb' /\ iblk ip' <> x).
Hypothesis (Hi3 : nb < NDIRECT -> iblk ip' = 0).
Hypothesis (Hd : forall bn, 0 <= bn < nb -> v' (fblk v ip bn) = v (fblk v ip bn)).
Hypothesis (Hz : v' x = zeroes).

Lemma extend_old bn : 0 <= bn < nb -> fblk v' ip' bn = fblk v ip bn.
Proof. intros. rewrite HE, decide_False by lia. done. Qed.
Lemma extend_new : fblk v' ip' nb = x.
Proof. rewrite HE, decide_True by (pose proof (fi_nb _ _ _ _ _ Hf); lia). done. Qed.

Lemma fimg_extend : fimg v' fb' ip' c (nb + 1).
Proof.
  pose proof Hf as [F1 F2 F3 F4 F5 F6 F7 F8 F9 F10 F11].
  assert (Hold : forall bn, 0 <= bn < nb -> mk_nmeta <= fblk v ip bn < fb) by (intros bn Hbn; apply F4, Hbn).
  assert (Hby : forall k, 0 <= k < nb * BSIZE -> fbyte v' ip' k = fbyte v ip k).
  { intros k Hk. destruct (fimg_byte_in v fb ip c nb k Hf Hk) as [Hbn E].
    rewrite E. unfold fbyte. rewrite extend_old by done. pose proof (Hold _ Hbn). rewrite nmeta_eq in *.
    replace (fblk v ip (k / BSIZE) =? 0) with false by lia. by rewrite Hd. }
  assert (Hcase : forall bn, 0 <= bn < nb + 1 -> 0 <= bn < nb \/ bn = nb) by lia.
  assert (Hapart : forall bn, 0 <= bn < nb -> NDIRECT < nb + 1 -> fblk v ip bn <> iblk ip').
  { intros bn Hbn Hn. destruct (Z.eq_dec nb NDIRECT) as [E|E].
    - specialize (Hold bn Hbn). destruct (Hi2 E). lia.
    - rewrite Hi1 by lia. apply F9; lia. }
  assert (Hind : NDIRECT < nb + 1 -> mk_nmeta <= iblk ip' < fb' /\ iblk ip' <> x).
  { intros Hn. destruct (Z.eq_dec nb NDIRECT) as [E|E]; [destruct (Hi2 E); lia|].
    rewrite Hi1 by lia. destruct (F6 ltac:(lia)). lia. }
  split; try done; try lia; try (unfold BSIZE in *; lia).
  - intros bn [Hbn| ->]%Hcase; [rewrite extend_old by done; specialize (Hold bn Hbn)|rewrite extend_new];
      unfold allocated; lia.
  - intros bn Hbn. rewrite HE, decide_False by lia. apply F5. lia.
  - intros Hn. destruct (Hind Hn). done.
  - intros bn bn' [Hbn| ->]%Hcase [Hbn'| ->]%Hcase; rewrite ?extend_new, ?extend_old by done; intros E; auto;
      [specialize (Hold bn Hbn)|specialize (Hold bn' Hbn')]; lia.
  - intros bn [Hbn| ->]%Hcase Hn; [rewrite extend_old by done; auto|]. rewrite extend_new.
    destruct (Hind Hn). congruence.
  - intros k Hk. rewrite Hby by lia. auto.
  - intros k Hk. destruct (Z.lt_ge_cases k (nb * BSIZE)) as [Hlt|Hge]; [rewrite Hby by lia; apply F11; lia|].
    unfold fbyte. replace (k / BSIZE) with nb by (unfold BSIZE in *; zlia). rewrite extend_new, Hz, byte_at_zeroes.
    by destruct (x =? 0).
Qed.

Lemma extend_mine w : mine v' ip' (nb + 1) w -> mine v ip nb w \/ fb <= w < fb'.
Proof.
  intros [(bn & Hbn & <-)|[Hn <-]].
  - destruct (Z.eq_dec bn nb) as [->|]; [rewrite extend_new; by right|].
    rewrite extend_old by lia. left. left. exists bn. split; [lia|done].
  - destruct (Z.eq_dec nb NDIRECT) as [E|E]; [right; by destruct (Hi2 E)|].
    rewrite Hi1 by lia. left. right. split; [lia|done].
Qed.
Lemma extend_keep w : mine v ip nb w -> mine v' ip' (nb + 1) w.
Proof.
  intros [(bn & Hbn & <-)|[Hn <-]].
  - left. exists bn. split; [lia|]. by apply extend_old.
  - right. split; [lia|]. by apply Hi1.
Qed.
End extend.

(** Setting a block number in the inode. *)
Lemma set_addr_wf ip k a :
  dinode_wf ip -> is_uint a -> dinode_wf (set_i_addrs (<[k := a]> (i_addrs ip)) ip).
Proof.
  intros [W1 W2 W3 W4 W5 W6 W7] Ha. split; try done; simpl.
  - by rewrite length_insert.
  - by apply Forall_insert.
Qed.
Lemma set_addr_nth ip k a j :
  dinode_wf ip -> 0 <= k < NDIRECT + 1 -> 0 <= j ->
  nth (Z.to_nat j) (<[Z.to_nat k := a]> (i_addrs ip)) 0 =
    if decide (j = k) then a else nth (Z.to_nat j) (i_addrs ip) 0.
Proof.
  intros Hw Hk Hj. pose proof (dw_len _ Hw) as Hl. rewrite !nth_lookup. case_decide as E.
  - subst. by rewrite list_lookup_insert_eq by lia.
  - by rewrite list_lookup_insert_ne by lia.
Qed.
Lemma xint_small x : 0 <= x <= FSSIZE -> xint x = x.
Proof. intros. unfold xint, FSSIZE in *. apply Z.mod_small. lia. Qed.

Lemma get32_zeroes o : get32 zeroes o = 0.
Proof. unfold get32, get16. by rewrite !byte_at_zeroes. Qed.

Lemma newblock_eq st : newblock st = Ok (mk_freeblock st) (set_mk_freeblock (mk_freeblock st + 1) st).
Proof. done. Qed.

(** What [mk_bmap] leaves: the file with [nb'] blocks. *)
Definition bmap_post (st : mkfs_t) (v : Z -> list Z) (ip : inode) (c : list Z) (nb nb' fbn : Z)
    (r : inode * Z) (st' : mkfs_t) : Prop :=
  exists v', holds st' v' /\ fimg v' (mk_freeblock st') r.1 c nb' /\ r.2 = fblk v' r.1 fbn /\
    mk_freeblock st' = mk_freeblock st + cost nb' - cost nb /\ mk_freeinode st' = mk_freeinode st /\
    grown v (mk_freeblock st) ip nb v' (mk_freeblock st') r.1 nb'.

Lemma fblk_direct v ip bn : bn < NDIRECT -> fblk v ip bn = nth (Z.to_nat bn) (i_addrs ip) 0.
Proof. intros. unfold fblk. by rewrite (proj2 (Z.ltb_lt _ _)). Qed.
Lemma fblk_indirect v ip bn : NDIRECT <= bn -> iblk ip <> 0 -> fblk v ip bn = get32 (v (iblk ip)) (4 * (bn - NDIRECT)).
Proof. intros. unfold fblk. replace (bn <? NDIRECT) with false by lia. by replace (iblk ip =? 0) with false by lia. Qed.

Section bmap.
Context (st : mkfs_t) (v : Z -> list Z) (ip : inode) (c : list Z) (nb : Z).
Let fb := mk_freeblock st.
Hypothesis (Hh : holds st v) (Hf : fimg v fb ip c nb) (Hc : clear_from v fb) (Hm : mk_nmeta <= fb <= FSSIZE).

Lemma bmap_have fbn : 0 <= fbn < nb -> runs (mk_bmap ip fbn st) (bmap_post st v ip c nb nb fbn).
Proof.
  intros Hn. pose proof (fi_nb _ _ _ _ _ Hf) as Hnb. pose proof (fi_in _ _ _ _ _ Hf fbn Hn) as Ha.
  pose proof (allocated_pos _ _ Ha) as Hp.
  assert (Hpost : bmap_post st v ip c nb nb fbn (ip, fblk v ip fbn) st).
  { exists v. split_and!; try done; [lia|]. split; [auto|auto|done|by destruct ip]. }
  unfold mk_bmap, assert_. replace (fbn <? MAXFILE) with true by lia. rewrite (bind_ok _ _ st tt st) by done.
  destruct (Z.ltb_spec fbn NDIRECT) as [Hd|Hd].
  - rewrite fblk_direct in Hp, Hpost by done.
    replace (nth (Z.to_nat fbn) (i_addrs ip) 0 =? 0) with false by lia. exact Hpost.
  - pose proof (fi_ind _ _ _ _ _ Hf ltac:(lia)) as Hi. pose proof (allocated_pos _ _ Hi) as Hip.
    rewrite fblk_indirect in Hp, Hpost by lia. fold (iblk ip) in *.
    replace (iblk ip =? 0) with false by lia. rewrite (bind_ok _ _ st ip st) by done. cbv zeta. fold (iblk ip).
    unfold allocated in Hi. rewrite nmeta_eq in *. erewrite bind_ok by (apply rsect_eq; [done|lia]).
    replace (get32 (v (iblk ip)) (4 * (fbn - NDIRECT)) =? 0) with false by lia. exact Hpost.
Qed.

Lemma bmap_direct : nb < NDIRECT -> fb < FSSIZE -> runs (mk_bmap ip nb st) (bmap_post st v ip c nb (nb + 1) nb).
Proof.
  intros Hn Hr. pose proof Hf as [F1 F2 F3 F4 F5 F6 F7 F8 F9 F10 F11].
  assert (HM : NDIRECT < MAXFILE) by done. rewrite nmeta_eq in Hm.
  unfold mk_bmap, assert_. replace (nb <? MAXFILE) with true by lia. rewrite (bind_ok _ _ st tt st) by done.
  replace (nb <? NDIRECT) with true by lia. rewrite <- (fblk_direct v) by done. rewrite F5 by lia.
  change (0 =? 0) with true. cbv iota. erewrite bind_ok by reflexivity. fold fb.
  rewrite xint_small by lia. set (ip' := set_i_addrs _ ip). set (st' := set_mk_freeblock _ st).
  assert (Hnth : forall j, 0 <= j -> nth (Z.to_nat j) (i_addrs ip') 0 =
    if decide (j = nb) then fb else nth (Z.to_nat j) (i_addrs ip) 0) by (intros j Hj; apply set_addr_nth; [done|lia|done]).
  assert (Hib : iblk ip' = iblk ip) by (unfold iblk; rewrite Hnth, decide_False by (unfold NDIRECT in *; lia); done).
  assert (HE : forall bn, 0 <= bn < MAXFILE -> fblk v ip' bn = if decide (bn = nb) then fb else fblk v ip bn).
  { intros bn Hbn. unfold fblk at 1. rewrite Hib, Hnth by lia. unfold fblk.
    destruct (Z.ltb_spec bn NDIRECT); [by case_decide|]. by rewrite decide_False by lia. }
  assert (HX : fimg v (fb + 1) ip' c (nb + 1)).
  { apply (fimg_extend v fb ip c nb v (fb + 1) ip' fb); try done; try lia.
    - apply set_addr_wf; [done|]. unfold is_uint, FSSIZE in *. lia.
    - rewrite nmeta_eq. lia.
    - apply Hc. lia. }
  cbn [runs ret bind rbind]. exists v. cbn [fst snd]. rewrite fblk_direct by done.
  split; [done|]. split; [done|]. split; [done|]. split; [|split; [done|]].
  - unfold cost. replace (NDIRECT <? nb + 1) with false by lia. replace (NDIRECT <? nb) with false by lia.
    cbn [st' mk_freeblock set_mk_freeblock]. fold fb. lia.
  - split; [| |done|done]; intros w; [eapply extend_keep|
      apply (extend_mine v fb ip c nb v (fb + 1) ip' fb)]; try done; rewrite ?nmeta_eq; lia.
Qed.

(** The entry of the indirect block. *)
Lemma ind_entry st1 ip1 :
  holds st1 v -> 0 <= iblk ip1 < FSSIZE -> NDIRECT <= nb < MAXFILE -> 0 <= mk_freeblock st1 < FSSIZE ->
  get32 (v (iblk ip1)) (4 * (nb - NDIRECT)) = 0 ->
  let fb1 := mk_freeblock st1 in
  let ind := put32 (v (iblk ip1)) (4 * (nb - NDIRECT)) fb1 in
  let st2 := put_block (iblk ip1) ind (set_mk_freeblock (fb1 + 1) st1) in
  holds st2 (bput v (iblk ip1) ind) /\
  (indirect <- rsect (iblk ip1) ;;
   if get32 indirect (4 * (nb - NDIRECT)) =? 0 then
     b <- newblock ;;
     let indirect := put32 indirect (4 * (nb - NDIRECT)) (xint b) in
     wsect (iblk ip1) indirect ;;
     ret (ip1, get32 indirect (4 * (nb - NDIRECT)))
   else ret (ip1, get32 indirect (4 * (nb - NDIRECT)))) st1 = Ok (ip1, fb1) st2.
Proof.
  intros Hh1 Hi Hn Hr H0 fb1 ind st2. pose proof Hh1 as (_ & _ & Hl).
  assert (Hmax : MAXFILE = NDIRECT + 256) by done.
  destruct (wsect_eq (set_mk_freeblock (fb1 + 1) st1) v (iblk ip1) ind) as [E HH];
    [done|done|unfold ind; by rewrite put32_length|]. split; [exact HH|].
  erewrite bind_ok by (by apply rsect_eq). rewrite H0. change (0 =? 0) with true. cbv iota.
  rewrite (bind_ok _ _ _ _ _ (newblock_eq st1)). fold fb1. cbv zeta. rewrite xint_small by (unfold fb1; lia). fold ind.
  rewrite (bind_ok _ _ _ _ _ E). unfold ret, ind. rewrite get32_put32 by (rewrite ?Hl; unfold BSIZE in *; lia).
  rewrite Z.mod_small by (unfold fb1, FSSIZE in *; lia). done.
Qed.

Lemma bmap_indirect :
  NDIRECT <= nb < MAXFILE -> fb + cost (nb + 1) - cost nb <= FSSIZE ->
  runs (mk_bmap ip nb st) (bmap_post st v ip c nb (nb + 1) nb).
Proof.
  intros Hn Hr. pose proof Hf as [F1 F2 F3 F4 F5 F6 F7 F8 F9 F10 F11]. rewrite nmeta_eq in Hm. pose proof Hh as (_ & _ & Hl).
  assert (HM : MAXFILE = NDIRECT + 256) by done.
  set (ip1 := if iblk ip =? 0 then set_i_addrs (<[Z.to_nat NDIRECT := fb]> (i_addrs ip)) ip else ip).
  set (fb1 := fb + (if iblk ip =? 0 then 1 else 0)). set (st1 := set_mk_freeblock fb1 st).
  assert (Hcost : cost (nb + 1) - cost nb = fb1 + 1 - fb).
  { unfold cost, fb1. replace (NDIRECT <? nb + 1) with true by lia. destruct (Z.eqb_spec (iblk ip) 0) as [E|E].
    - destruct (Z.ltb_spec NDIRECT nb) as [Hi|]; [|lia]. pose proof (allocated_pos _ _ (F6 Hi)). lia.
    - destruct (Z.ltb_spec NDIRECT nb); [lia|]. rewrite F7 in E by lia. done. }
  assert (Hf1 : fb <= fb1 < FSSIZE /\ (iblk ip = 0 -> fb1 = fb + 1)).
  { rewrite <- Z.add_sub_assoc, Hcost in Hr. split; [|intros E]; unfold fb1 in *; [destruct (iblk ip =? 0); lia|by rewrite E]. }
  destruct Hf1 as [Hf1 Hf2].
  assert (Hnth : forall j, 0 <= j < NDIRECT -> nth (Z.to_nat j) (i_addrs ip1) 0 = nth (Z.to_nat j) (i_addrs ip) 0).
  { intros j Hj. unfold ip1. destruct (iblk ip =? 0); [|done]. cbn [i_addrs set_i_addrs].
    rewrite set_addr_nth, decide_False by (done || unfold NDIRECT in *; lia). done. }
  assert (Hib : iblk ip1 = if iblk ip =? 0 then fb else iblk ip).
  { unfold ip1. destruct (iblk ip =? 0) eqn:E; [|done]. unfold iblk. cbn [i_addrs set_i_addrs].
    rewrite set_addr_nth, decide_True by (done || unfold NDIRECT in *; lia). done. }
  assert (Hir : 0 < iblk ip1 < FSSIZE).
  { rewrite Hib. destruct (Z.eqb_spec (iblk ip) 0) as [E|E]; [specialize (Hf2 E); lia|].
    destruct (Z.le_gt_cases nb NDIRECT) as [Hle|Hgt]; [by rewrite F7 in E|].
    pose proof (F6 ltac:(lia)) as Ha. pose proof (allocated_pos _ _ Ha). unfold allocated in Ha. lia. }
  assert (Hsame : forall bn, NDIRECT <= bn < MAXFILE -> get32 (v (iblk ip1)) (4 * (bn - NDIRECT)) = fblk v ip bn).
  { intros bn Hbn. rewrite Hib. destruct (Z.eqb_spec (iblk ip) 0) as [E|E].
    - rewrite (Hc fb) by lia. rewrite get32_zeroes. unfold fblk. replace (bn <? NDIRECT) with false by lia. by rewrite E.
    - by rewrite fblk_indirect by lia. }
  assert (Hwf : dinode_wf ip1).
  { unfold ip1. destruct (iblk ip =? 0); [|done]. apply set_addr_wf; [done|]. unfold is_uint, FSSIZE in *. lia. }
  destruct (ind_entry st1 ip1) as [HH2 E2]; [done|lia|done|cbn; lia|by rewrite Hsame, F5 by lia|].
  cbn [mk_freeblock st1 set_mk_freeblock] in HH2, E2.
  assert (E1 : mk_bmap ip nb st = Ok (ip1, fb1) (put_block (iblk ip1) (put32 (v (iblk ip1)) (4 * (nb - NDIRECT)) fb1)
    (set_mk_freeblock (fb1 + 1) st1))).
  { unfold mk_bmap, assert_. replace (nb <? MAXFILE) with true by lia. rewrite (bind_ok _ _ st tt st) by done.
    replace (nb <? NDIRECT) with false by lia. fold (iblk ip). rewrite (bind_ok _ _ st ip1 st1); [exact E2|].
    unfold ip1, st1, fb1. destruct (iblk ip =? 0).
    - rewrite (bind_ok _ _ _ _ _ (newblock_eq st)). fold fb. rewrite xint_small by lia. done.
    - rewrite Z.add_0_r. by destruct st. }
  rewrite E1. cbn [runs]. set (v' := bput _ _ _) in *.
  assert (HE : forall bn, 0 <= bn < MAXFILE -> fblk v' ip1 bn = if decide (bn = nb) then fb1 else fblk v ip bn).
  { intros bn Hbn. destruct (Z.lt_ge_cases bn NDIRECT) as [Hd|Hd].
    - rewrite !fblk_direct, Hnth, decide_False by lia. done.
    - rewrite fblk_indirect by lia. unfold v'. rewrite bput_eq. case_decide as Eb.
      + subst. rewrite get32_put32 by (rewrite ?Hl; unfold BSIZE in *; lia). apply Z.mod_small. unfold FSSIZE in *. lia.
      + rewrite get32_put32_ne by (rewrite ?Hl; unfold BSIZE in *; lia). apply Hsame. lia. }
  assert (Hi1 : NDIRECT < nb -> iblk ip1 = iblk ip).
  { intros Hlt. rewrite Hib. pose proof (allocated_pos _ _ (F6 Hlt)). by replace (iblk ip =? 0) with false by lia. }
  assert (Hi2 : nb = NDIRECT -> fb <= iblk ip1 < fb1 + 1 /\ iblk ip1 <> fb1).
  { intros En. rewrite Hib, (F7 ltac:(lia)). change (0 =? 0) with true. cbv iota. specialize (Hf2 (F7 ltac:(lia))). lia. }
  assert (Hda : forall bn, 0 <= bn < nb -> v' (fblk v ip bn) = v (fblk v ip bn)).
  { intros bn Hbn. unfold v'. rewrite bput_ne; [done|]. destruct (F4 bn Hbn) as [G1 G2].
    destruct (Z.eq_dec nb NDIRECT) as [En|En]; [destruct (Hi2 En); lia|]. rewrite Hi1 by lia. apply F9; lia. }
  exists v'. cbn [fst snd]. split; [exact HH2|]. change (mk_freeblock (put_block _ _ _)) with (fb1 + 1).
  split; [|split; [by rewrite HE, decide_True by lia|split; [fold fb; lia|split; [done|]]]].
  - apply (fimg_extend v fb ip c nb v' (fb1 + 1) ip1 fb1); try done; try lia; [rewrite nmeta_eq; lia|].
    unfold v'. rewrite bput_ne; [apply Hc; lia|]. destruct (Z.eq_dec nb NDIRECT) as [En|En]; [by destruct (Hi2 En)|].
    rewrite Hi1 by lia. destruct (F6 ltac:(lia)). lia.
  - split.
    + intros w. eapply extend_keep; try done; lia.
    + apply (extend_mine v fb ip c nb v' (fb1 + 1) ip1 fb1); try done; lia.
    + intros w Hw. unfold v'. apply bput_ne. intros ->. apply Hw. right. split; [lia|done].
    + unfold ip1. destruct (iblk ip =? 0); [done|by destruct ip].
Qed.

Lemma mk_bmap_spec fbn :
  0 <= fbn <= nb -> fbn < MAXFILE -> fb + cost (Z.max nb (fbn + 1)) - cost nb <= FSSIZE ->
  runs (mk_bmap ip fbn st) (bmap_post st v ip c nb (Z.max nb (fbn + 1)) fbn).
Proof.
  intros Hn HM Hr. destruct (Z.eq_dec fbn nb) as [->|Hne].
  - rewrite Z.max_r in * by lia. destruct (Z.lt_ge_cases nb NDIRECT) as [Hd|Hd]; [|by apply bmap_indirect].
    apply bmap_direct; [done|]. unfold cost in Hr.
    replace (NDIRECT <? nb + 1) with false in Hr by lia. replace (NDIRECT <? nb) with false in Hr by lia. lia.
  - rewrite Z.max_l in * by lia. apply bmap_have. lia.
Qed.
End bmap.

(** ** Appending *)

Lemma grown_trans v1 fb1 ip1 nb1 v2 fb2 ip2 nb2 v3 fb3 ip3 nb3 :
  grown v1 fb1 ip1 nb1 v2 fb2 ip2 nb2 -> grown v2 fb2 ip2 nb2 v3 fb3 ip3 nb3 -> fb1 <= fb2 <= fb3 ->
  grown v1 fb1 ip1 nb1 v3 fb3 ip3 nb3.
Proof.
  intros [A1 A2 A3 A4] [B1 B2 B3 B4] Hle. split.
  - auto.
  - intros w [Hw|Hw]%B2; [|right; lia]. apply A2 in Hw as [|]; [by left|right; lia].
  - intros w Hw. rewrite B3, A3; auto.
  - rewrite B4, A4. by destruct ip1.
Qed.

Section write.
Context (v : Z -> list Z) (fb : Z) (ip : inode) (c new : list Z) (nb : Z).
Let off := Z.of_nat (length c).
Let x := fblk v ip (off / BSIZE).
Hypothesis (Hf : fimg v fb ip c nb) (Hl : length (v x) = Z.to_nat BSIZE).
Hypothesis (Hb : off / BSIZE < nb) (Hn : off mod BSIZE + Z.of_nat (length new) <= BSIZE).
Let v' := bput v x (splice (v x) (off mod BSIZE) new).

Lemma append_bn : 0 <= off / BSIZE < nb.
Proof. split; [|done]. apply Z.div_pos; [unfold off; lia|done]. Qed.
Lemma append_fblk bn : fblk v' ip bn = fblk v ip bn.
Proof.
  unfold fblk at 1. fold (fblk v ip bn). unfold fblk. destruct (bn <? NDIRECT); [done|].
  destruct (Z.eqb_spec (iblk ip) 0) as [|Hi]; [done|]. unfold v'. rewrite bput_ne; [done|].
  intros E. destruct (Z.le_gt_cases nb NDIRECT) as [Hle|Hgt]; [by rewrite (fi_noind _ _ _ _ _ Hf Hle) in Hi|].
  apply (fi_apart _ _ _ _ _ Hf _ append_bn ltac:(lia)). done.
Qed.
Lemma append_fits : (Z.to_nat (off mod BSIZE) + length new <= length (v x))%nat.
Proof. rewrite Hl. pose proof (Z.mod_pos_bound off BSIZE ltac:(done)). lia. Qed.

Lemma append_byte k : 0 <= k < nb * BSIZE ->
  fbyte v' ip k = if decide (off <= k < off + Z.of_nat (length new)) then byte_at new (k - off) else fbyte v ip k.
Proof.
  intros Hk. assert (Hkb : 0 <= k / BSIZE < nb) by (unfold BSIZE in *; zlia). pose proof append_bn as Hbn.
  unfold fbyte. rewrite append_fblk. pose proof (allocated_pos _ _ (fi_in _ _ _ _ _ Hf _ Hkb)) as Hp.
  replace (fblk v ip (k / BSIZE) =? 0) with false by lia.
  destruct (decide (k / BSIZE = off / BSIZE)) as [E|E].
  - rewrite E. fold x. unfold v'. rewrite bput_eq.
    rewrite byte_at_splice by (try apply append_fits; apply Z.mod_pos_bound; done).
    assert (Hkm : k mod BSIZE - off mod BSIZE = k - off) by (unfold BSIZE in *; zlia). rewrite Hkm.
    destruct (decide (off <= k < off + Z.of_nat (length new))); [rewrite decide_True by lia|rewrite decide_False by lia]; done.
  - rewrite decide_False by (unfold BSIZE in *; zlia).
    unfold v'. rewrite bput_ne; [done|]. intros E2. apply E. by apply (fi_inj _ _ _ _ _ Hf).
Qed.

Lemma fimg_append : fimg v' fb ip (c ++ new) nb.
Proof.
  pose proof Hf as [F1 F2 F3 F4 F5 F6 F7 F8 F9 F10 F11]. pose proof append_bn as Hbn.
  assert (Hoff : off = off / BSIZE * BSIZE + off mod BSIZE) by (rewrite Z.mul_comm; apply Z.div_mod; done).
  split; [done|done| | | |done|done| | | |].
  2: intros bn; rewrite append_fblk; auto.
  2: intros bn; rewrite append_fblk; auto.
  2: intros bn bn'; rewrite !append_fblk; auto.
  2: intros bn; rewrite append_fblk; auto.
  - rewrite length_app. fold off. unfold BSIZE in *. nia.
  - intros k Hk. rewrite length_app in Hk. fold off in Hk. rewrite append_byte by (unfold BSIZE in *; lia).
    unfold byte_at. destruct (decide (k < off)) as [Hlt|Hge].
    + rewrite decide_False by lia. rewrite F10 by lia. by rewrite lookup_app_l by lia.
    + rewrite decide_True by lia. rewrite lookup_app_r by lia. do 2 f_equal. lia.
  - intros k Hk. rewrite length_app in Hk. rewrite append_byte by (unfold off in *; lia).
    rewrite decide_False by (unfold off; lia). apply F11. unfold off in *. lia.
Qed.

Lemma append_mine w : mine v' ip nb w <-> mine v ip nb w.
Proof. unfold mine. by setoid_rewrite append_fblk. Qed.
Lemma append_grown : grown v fb ip nb v' fb ip nb.
Proof.
  split.
  - intros w. by rewrite append_mine.
  - intros w. rewrite append_mine. auto.
  - intros w Hw. unfold v'. apply bput_ne. intros ->. apply Hw, append_mine. left. exists (off / BSIZE).
    split; [apply append_bn|done].
  - by destruct ip.
Qed.
End write.

Lemma nbl_step off n : 0 <= off -> 0 < n <= (off / BSIZE + 1) * BSIZE - off -> nbl (off + n) = off / BSIZE + 1.
Proof. unfold nbl, BSIZE. intros. zlia. Qed.
Lemma nbl_max off n :
  0 <= off -> 0 < n <= (off / BSIZE + 1) * BSIZE - off -> Z.max (nbl off) (off / BSIZE + 1) = nbl (off + n).
Proof. intros Ho Hn. rewrite (nbl_step off n) by done. unfold nbl, BSIZE in *. zlia. Qed.
Lemma nbl_mono a b : a <= b -> nbl a <= nbl b.
Proof. intros. unfold nbl. apply Z.div_le_mono; [done|lia]. Qed.
Lemma cost_mono a b : a <= b -> cost a <= cost b.
Proof. intros. unfold cost. destruct (Z.ltb_spec NDIRECT a), (Z.ltb_spec NDIRECT b); lia. Qed.
Lemma nbl_bound a : a <= MAXFILE * BSIZE -> nbl a <= MAXFILE.
Proof. unfold nbl, BSIZE. change MAXFILE with 268. intros. zlia. Qed.

(** The state of the builder between two blocks of a file. *)
Record building (st : mkfs_t) (v : Z -> list Z) (ip : inode) (c : list Z) : Prop := {
  bu_holds : holds st v;
  bu_file : fimg v (mk_freeblock st) ip c (nbl (Z.of_nat (length c)));
  bu_clear : clear_from v (mk_freeblock st);
  bu_meta : mk_nmeta <= mk_freeblock st <= FSSIZE;
}.

(** What appending [p] to [c] needs, and what it leaves. *)
Definition more (c p : list Z) : Z :=
  cost (nbl (Z.of_nat (length c + length p))) - cost (nbl (Z.of_nat (length c))).
Definition appended (st : mkfs_t) (v : Z -> list Z) (ip : inode) (c p : list Z) (ip' : inode) (st' : mkfs_t)
    (v' : Z -> list Z) : Prop :=
  building st' v' ip' (c ++ p) /\ mk_freeblock st' = mk_freeblock st + more c p /\
  mk_freeinode st' = mk_freeinode st /\
  grown v (mk_freeblock st) ip (nbl (Z.of_nat (length c))) v' (mk_freeblock st') ip'
    (nbl (Z.of_nat (length (c ++ p)))).

Lemma append_block {A} st v ip c p n1 (k : inode -> I A) Q :
  building st v ip c -> Z.of_nat (length c + length p) <= MAXFILE * BSIZE ->
  mk_freeblock st + more c p <= FSSIZE -> (0 < length p)%nat ->
  let off := Z.of_nat (length c) in
  n1 = Z.min (Z.of_nat (length p)) ((off / BSIZE + 1) * BSIZE - off) ->
  (forall ip' st' v', appended st v ip c (take (Z.to_nat n1) p) ip' st' v' -> runs (k ip' st') Q) ->
  runs ((r <- mk_bmap ip (off / BSIZE) ;;
         let '(din, x) := r in
         buf <- rsect x ;;
         wsect x (splice buf (off - off / BSIZE * BSIZE) (take (Z.to_nat n1) p)) ;; k din) st) Q.
Proof.
  intros [B1 B2 B3 B4] Hmax Hroom Hp off En HK. assert (Hoff : 0 <= off) by (unfold off; lia).
  pose proof (Z.mod_pos_bound off BSIZE ltac:(done)) as Hmod.
  assert (Hdm : off = off / BSIZE * BSIZE + off mod BSIZE) by (rewrite Z.mul_comm; apply Z.div_mod; done).
  assert (Hn1 : 0 < n1 <= (off / BSIZE + 1) * BSIZE - off) by (unfold BSIZE in *; lia).
  assert (Hfit : off mod BSIZE + n1 <= BSIZE) by (unfold BSIZE in *; lia).
  set (new := take (Z.to_nat n1) p) in *. assert (Hnew : Z.of_nat (length new) = n1) by (unfold new; rewrite length_take; lia).
  set (nb' := nbl (off + n1)). assert (Hnb' : Z.max (nbl off) (off / BSIZE + 1) = nb') by (by apply nbl_max).
  assert (Hnbd : nb' = off / BSIZE + 1) by (by apply nbl_step).
  assert (Hlast : cost nb' <= cost (nbl (Z.of_nat (length c + length p)))) by (apply cost_mono, nbl_mono; lia).
  assert (Hcm : cost (nbl off) <= cost nb') by (apply cost_mono, nbl_mono; lia).
  unfold more in Hroom. fold off in Hroom.
  apply runs_bind. eapply runs_mono; [apply (mk_bmap_spec st v ip c (nbl off) B1 B2 B3 B4 (off / BSIZE))|].
  - unfold nbl, BSIZE in *. zlia.
  - pose proof (nbl_bound (off + n1) ltac:(lia)). fold nb' in H. lia.
  - rewrite Hnb'. lia.
  - rewrite Hnb'. intros [ip' x] st1 (v1 & H1 & F1 & Ex & Efb & Efi & G1). cbn [fst snd] in *.
    assert (Hbn : 0 <= off / BSIZE < nb') by (split; [apply Z.div_pos; [done|done]|lia]).
    pose proof (fi_in _ _ _ _ _ F1 _ Hbn) as Hx. rewrite <- Ex in Hx. unfold allocated in Hx. rewrite nmeta_eq in Hx.
    assert (Hxr : 0 <= x < FSSIZE) by lia. pose proof H1 as (_ & _ & Hl).
    erewrite bind_ok by (by apply rsect_eq).
    destruct (wsect_eq st1 v1 x (splice (v1 x) (off - off / BSIZE * BSIZE) new)) as [EW HW]; [done|done| |].
    { rewrite splice_length; [apply Hl|]. rewrite Hl. unfold BSIZE in *. lia. }
    rewrite (bind_ok _ _ _ _ _ EW). eapply HK. replace (off - off / BSIZE * BSIZE) with (off mod BSIZE) in * by lia.
    subst x.
    assert (F2 := fimg_append v1 (mk_freeblock st1) ip' c new nb' F1 (Hl _) (proj2 Hbn) ltac:(by rewrite Hnew)).
    assert (G2 := append_grown v1 (mk_freeblock st1) ip' c new nb' F1 (Hl _) (proj2 Hbn)).
    assert (Elen : Z.of_nat (length (c ++ new)) = off + n1) by (rewrite length_app; lia).
    split; [|split; [|split; [exact Efi|]]].
    + split; [exact HW| | |].
      * rewrite Elen. exact F2.
      * intros w Hw. change (mk_freeblock (put_block _ _ _)) with (mk_freeblock st1) in Hw.
        assert (Hnm : ~ allocated (mk_freeblock st1) w) by (intros [? ?]; lia).
        rewrite bput_ne by (intros ->; destruct (fi_in _ _ _ _ _ F1 _ Hbn); lia).
        rewrite (gr_frame _ _ _ _ _ _ _ _ G1), B3; [done|lia|].
        intros Hm. apply Hnm. exact (mine_allocated _ _ _ _ _ _ F1 Hm).
      * change (mk_freeblock (put_block _ _ _)) with (mk_freeblock st1). rewrite Efb. fold off. lia.
    + change (mk_freeblock (put_block _ _ _)) with (mk_freeblock st1). rewrite Efb. unfold more.
      replace (Z.of_nat (length c + length new)) with (off + n1) by lia. fold off nb'. lia.
    + rewrite Elen. fold off nb'. eapply grown_trans; [exact G1|exact G2|].
      change (mk_freeblock (put_block _ _ _)) with (mk_freeblock st1). lia.
Qed.

Lemma more_app c p1 p2 : more c (p1 ++ p2) = more c p1 + more (c ++ p1) p2.
Proof. unfold more. rewrite !length_app, Nat.add_assoc. lia. Qed.
Lemma more_nonneg c p : 0 <= more c p.
Proof. apply Z.le_0_sub, cost_mono, nbl_mono. lia. Qed.

Lemma iappend_loop_spec fuel : forall st v ip c p,
  building st v ip c -> Z.of_nat (length c + length p) <= MAXFILE * BSIZE ->
  mk_freeblock st + more c p <= FSSIZE -> (length p < fuel)%nat ->
  runs (iappend_loop fuel ip (Z.of_nat (length c)) p st) (fun r st' =>
    r.2 = Z.of_nat (length (c ++ p)) /\ exists v', appended st v ip c p r.1 st' v').
Proof.
  induction fuel as [|fuel IH]; intros st v ip c p HB Hmax Hroom Hf; [lia|]. cbn [iappend_loop]. cbv zeta.
  destruct (Z.gtb_spec (Z.of_nat (length p)) 0) as [Hp|Hp].
  - eapply append_block; [exact HB|done|done|lia|reflexivity|].
    set (n1 := Z.min _ _). intros ip1 st1 v1 (HB1 & Efb & Efi & HG).
    assert (Hn1 : 0 < n1 <= Z.of_nat (length p)) by (unfold n1, BSIZE; zlia).
    set (p1 := take (Z.to_nat n1) p) in *. set (p2 := drop (Z.to_nat n1) p).
    assert (E : p1 ++ p2 = p) by apply take_drop.
    assert (L1 : Z.of_nat (length p1) = n1) by (unfold p1; rewrite length_take; lia).
    assert (L2 : (length p1 + length p2 = length p)%nat) by (by rewrite <- length_app, E).
    replace (Z.of_nat (length c) + n1) with (Z.of_nat (length (c ++ p1))) by (rewrite length_app; lia).
    assert (Em : more c p = more c p1 + more (c ++ p1) p2) by (by rewrite <- more_app, E).
    pose proof (more_nonneg c p1). pose proof (more_nonneg (c ++ p1) p2).
    eapply runs_mono; [apply (IH st1 v1 ip1 (c ++ p1) p2 HB1)|].
    + rewrite length_app. lia.
    + lia.
    + lia.
    + intros [ip2 off2] st2 [E2 (v2 & HB2 & Efb2 & Efi2 & HG2)]. cbn [fst snd] in *.
      rewrite <- app_assoc, E in *. split; [done|]. exists v2. split; [done|]. split; [lia|]. split; [congruence|].
      eapply grown_trans; [exact HG|exact HG2|]. lia.
  - destruct p; [|simpl in Hp; lia]. cbn [runs ret fst snd]. rewrite app_nil_r. split; [done|]. exists v.
    unfold appended. rewrite app_nil_r. split; [done|]. unfold more. simpl. rewrite Nat.add_0_r.
    split; [lia|]. split; [done|]. split; auto. by destruct ip.
Qed.
