(* ===== verification/MkfsSpec.v ===== *)
(** * The image the builder writes

    The inodes and files of the image while it is built, and the result: an
    image on which the kernel finds the files given, in a state that satisfies
    what the theorems about [fs.c] assume of the disk. *)

From S2P Require Import Prelude CMem Machine Printf Codec LogProof Fs FsBitmap FsInode FsFile FsDir Mkfs MkfsProof.

(** ** The table of files

    File [i] of the list is inode [i + 1]. *)
Definition files_cost (F : list (inode * list Z)) : Z :=
  foldr (fun f n => cost (nbl (Z.of_nat (length f.2))) + n) 0 F.

Definition file_at (v : Z -> list Z) (fb : Z) (ip : inode) (c : list Z) : Prop :=
  fimg v fb ip c (nbl (Z.of_nat (length c))) /\ i_size ip = Z.of_nat (length c) /\
  Z.of_nat (length c) <= MAXFILE * BSIZE.
Definition owned (v : Z -> list Z) (f : inode * list Z) (w : Z) : Prop :=
  mine v f.1 (nbl (Z.of_nat (length f.2))) w.

Record world (st : mkfs_t) (v : Z -> list Z) (F : list (inode * list Z)) : Prop := {
  wo_holds : holds st v;
  wo_inodes : mk_freeinode st = Z.of_nat (length F) + 1;
  wo_few : Z.of_nat (length F) < NINODES;
  wo_blocks : mk_freeblock st = mk_nmeta + files_cost F;
  wo_room : mk_freeblock st <= FSSIZE;
  wo_clear : clear_from v (mk_freeblock st);
  wo_files : forall i ip c, F !! i = Some (ip, c) -> file_at v (mk_freeblock st) ip c;
  wo_disk : forall i ip c, F !! i = Some (ip, c) -> on_disk mk_sb v (Z.of_nat i + 1) zero_inode = ip;
  wo_apart : forall i j f g w, i <> j -> F !! i = Some f -> F !! j = Some g -> owned v f w -> ~ owned v g w;
}.

Lemma cost_nonneg nb : 0 <= nb -> 0 <= cost nb.
Proof. unfold cost. destruct (_ <? _); lia. Qed.
Lemma nbl_nonneg (n : nat) : 0 <= nbl (Z.of_nat n).
Proof. unfold nbl, BSIZE. zlia. Qed.
Lemma files_cost_nonneg F : 0 <= files_cost F.
Proof.
  induction F as [|f F IH]; [done|]. simpl. pose proof (cost_nonneg _ (nbl_nonneg (length f.2))). lia.
Qed.
Lemma files_cost_insert F k ip ip' c p :
  F !! k = Some (ip, c) -> files_cost (<[k := (ip', c ++ p)]> F) = files_cost F + more c p.
Proof.
  revert k. induction F as [|f F IH]; intros [|k] Hk; simpl in *; try done.
  - injection Hk as ->. simpl. unfold more. rewrite length_app. lia.
  - rewrite IH by done. lia.
Qed.
Lemma files_cost_app F G : files_cost (F ++ G) = files_cost F + files_cost G.
Proof. induction F as [|f F IH]; simpl; [done|]. rewrite IH. lia. Qed.
Lemma files_cost_snoc F ip : files_cost (F ++ [(ip, [])]) = files_cost F.
Proof. induction F as [|f F IH]; simpl; [done|]. by rewrite IH. Qed.

(** Blocks before the data. *)
Lemma IBLOCK_meta inum : 0 <= inum < NINODES -> 33 <= IBLOCK inum mk_sb < 46.
Proof.
  unfold IBLOCK, NINODES. change (sb_inodestart mk_sb) with 33. change IPB with 16. intros. zlia.
Qed.
Lemma fimg_size v fb ip c nb n : fimg v fb ip c nb -> is_uint n -> fimg v fb (set_i_size n ip) c nb.
Proof. intros [[W1 W2 W3 W4 W5 W6 W7] F2 F3 F4 F5 F6 F7 F8 F9 F10 F11] Hn. by split. Qed.
Lemma meta_not_mine v fb ip c nb w : fimg v fb ip c nb -> w < mk_nmeta -> ~ mine v ip nb w.
Proof. intros Hf Hw Hm. apply (mine_allocated _ _ _ _ _ _ Hf) in Hm as [? _]. lia. Qed.

(** ** Writing an inode *)

Lemma winode_eq st v inum ip :
  holds st v -> 0 <= inum < NINODES ->
  exists st', winode inum ip st = Ok tt st' /\ holds st' (with_inode mk_sb v inum ip) /\
    mk_freeinode st' = mk_freeinode st /\ mk_freeblock st' = mk_freeblock st.
Proof.
  intros Hh Hi. pose proof (IBLOCK_meta inum Hi) as Hb. pose proof Hh as (_ & _ & Hl).
  destruct (wsect_eq st v (IBLOCK inum mk_sb) (dinode_put (v (IBLOCK inum mk_sb)) (dip_off inum) ip)) as [E HH];
    [done|unfold FSSIZE; lia|by rewrite dinode_put_length|].
  eexists. split; [|split; [exact HH|done]]. unfold winode. cbv zeta.
  erewrite bind_ok by (apply rsect_eq; [done|unfold FSSIZE; lia]). exact E.
Qed.
Lemma rinode_eq st v inum :
  holds st v -> 0 <= inum < NINODES -> rinode inum st = Ok (on_disk mk_sb v inum zero_inode) st.
Proof.
  intros Hh Hi. pose proof (IBLOCK_meta inum Hi) as Hb. unfold rinode. cbv zeta.
  erewrite bind_ok by (apply rsect_eq; [done|unfold FSSIZE; lia]). done.
Qed.
Lemma with_inode_ne sb v inum ip w : w <> IBLOCK inum sb -> with_inode sb v inum ip w = v w.
Proof. intros. unfold with_inode. by rewrite decide_False. Qed.

(** ** A file grows *)

Section append.
Context (st : mkfs_t) (v : Z -> list Z) (F : list (inode * list Z)) (k : nat) (ip : inode) (c p : list Z).
Context (ip1 : inode) (st1 : mkfs_t) (v1 : Z -> list Z) (st2 : mkfs_t).
Hypothesis (HW : world st v F) (Hk : F !! k = Some (ip, c)).
Hypothesis (Hmax : Z.of_nat (length c + length p) <= MAXFILE * BSIZE).
Hypothesis (HA : appended st v ip c p ip1 st1 v1).
Let inum := Z.of_nat k + 1.
Let ip2 := set_i_size (Z.of_nat (length (c ++ p))) ip1.
Let v2 := with_inode mk_sb v1 inum ip2.
Hypothesis (Hh2 : holds st2 v2) (Hi2 : mk_freeinode st2 = mk_freeinode st1).
Hypothesis (Hb2 : mk_freeblock st2 = mk_freeblock st1).

Lemma append_inum : 0 <= inum < NINODES.
Proof. pose proof (wo_few _ _ _ HW). apply lookup_lt_Some in Hk. unfold inum. lia. Qed.
Lemma inode_not_mine fb ip' c' nb : fimg v1 fb ip' c' nb -> forall w, mine v1 ip' nb w -> v2 w = v1 w.
Proof.
  intros Hf w Hw. apply with_inode_ne. intros ->. pose proof (IBLOCK_meta _ append_inum).
  apply (meta_not_mine _ _ _ _ _ _ Hf) in Hw; [done|]. rewrite nmeta_eq. lia.
Qed.
Lemma append_le : mk_freeblock st <= mk_freeblock st1.
Proof.
  destruct HA as (_ & -> & _). pose proof (more_nonneg c p). lia.
Qed.

(** The others are as they were. *)
Lemma other_frame i g w : i <> k -> F !! i = Some g -> owned v g w -> v1 w = v w /\ ~ mine v1 ip1 (nbl (Z.of_nat (length (c ++ p)))) w.
Proof.
  intros Hne Hg Hw. destruct HA as (_ & _ & _ & [G1 G2 G3 G4]). destruct g as [ip' c'].
  assert (Hn : ~ mine v1 ip1 (nbl (Z.of_nat (length (c ++ p)))) w).
  { intros [Hm|Hm]%G2; [by apply (wo_apart _ _ _ HW i k _ _ w Hne Hg Hk Hw)|].
    destruct (wo_files _ _ _ HW i ip' c' Hg) as [Hf _].
    apply (mine_allocated _ _ _ _ _ _ Hf) in Hw as [_ ?]. lia. }
  split; [by apply G3|done].
Qed.
Lemma other_file i ip' c' : i <> k -> F !! i = Some (ip', c') -> file_at v2 (mk_freeblock st2) ip' c'.
Proof.
  intros Hne Hg. destruct (wo_files _ _ _ HW i ip' c' Hg) as (Hf & Hs & Hl). split; [|done].
  assert (Hf1 : fimg v1 (mk_freeblock st1) ip' c' (nbl (Z.of_nat (length c')))).
  { eapply fimg_frame; [exact Hf|apply append_le|]. intros w Hw. by apply (other_frame i (ip', c') w). }
  rewrite Hb2. eapply fimg_frame; [exact Hf1|done|]. by eapply inode_not_mine.
Qed.
Lemma other_owned i g w : i <> k -> F !! i = Some g -> owned v2 g w <-> owned v g w.
Proof.
  intros Hne Hg. destruct g as [ip' c']. destruct (wo_files _ _ _ HW i ip' c' Hg) as (Hf & _).
  unfold owned. cbn [fst snd]. apply (mine_frame v v2 (mk_freeblock st) ip' c'); [done|]. intros u Hu.
  destruct (other_frame i (ip', c') u Hne Hg Hu) as [<- _]. apply with_inode_ne. intros ->.
  pose proof (IBLOCK_meta _ append_inum). apply (meta_not_mine _ _ _ _ _ _ Hf) in Hu; [done|]. rewrite nmeta_eq. lia.
Qed.

(** The file itself. *)
Lemma this_file : file_at v2 (mk_freeblock st2) ip2 (c ++ p).
Proof.
  destruct HA as ([_ Hf _ _] & _). split; [|split; [done|rewrite length_app; lia]]. rewrite Hb2. apply fimg_size.
  - eapply fimg_frame; [exact Hf|done|]. by eapply inode_not_mine.
  - unfold is_uint. rewrite length_app. change (MAXFILE * BSIZE) with 274432 in Hmax. lia.
Qed.
Lemma this_owned w : owned v2 (ip2, c ++ p) w <-> mine v1 ip1 (nbl (Z.of_nat (length (c ++ p)))) w.
Proof.
  destruct HA as ([_ Hf _ _] & _). unfold owned. cbn [fst snd].
  apply (mine_frame v1 v2 (mk_freeblock st1) ip1 (c ++ p)); [done|]. by eapply inode_not_mine.
Qed.

Lemma append_disk i ip' c' :
  <[k := (ip2, c ++ p)]> F !! i = Some (ip', c') -> on_disk mk_sb v2 (Z.of_nat i + 1) zero_inode = ip'.
Proof.
  intros Hi. destruct HA as ([(_ & _ & Hl) Hf _ _] & _ & _ & [_ _ G3 G4]).
  pose proof (wo_disk _ _ _ HW k ip c Hk) as Hd.
  assert (Hwf : dinode_wf ip2) by (destruct this_file as [T _]; apply (fi_wf _ _ _ _ _ T)).
  unfold v2. rewrite on_disk_with_inode by (done || apply append_inum || lia).
  destruct (decide (i = k)) as [->|Hne].
  - rewrite decide_True by done. rewrite list_lookup_insert_eq in Hi by (by eapply lookup_lt_Some).
    injection Hi as <- <-. unfold ip2. rewrite G4, <- Hd. done.
  - rewrite decide_False by (unfold inum; lia). rewrite list_lookup_insert_ne in Hi by done.
    rewrite <- (wo_disk _ _ _ HW i ip' c' Hi). unfold on_disk. f_equal. apply G3.
    apply (meta_not_mine _ _ _ _ _ _ Hf).
    assert (0 <= Z.of_nat i + 1 < NINODES) by (pose proof (wo_few _ _ _ HW); apply lookup_lt_Some in Hi; lia).
    pose proof (IBLOCK_meta _ H). rewrite nmeta_eq. lia.
Qed.

Lemma append_world : world st2 v2 (<[k := (ip2, c ++ p)]> F).
Proof.
  destruct HA as ([_ _ Hc Hm] & Efb & Efi & _). assert (Hkl : (k < length F)%nat) by (by eapply lookup_lt_Some).
  split.
  - done.
  - rewrite Hi2, Efi, length_insert. apply HW.
  - rewrite length_insert. apply HW.
  - rewrite Hb2, Efb, (files_cost_insert F k ip) by done. rewrite (wo_blocks _ _ _ HW). lia.
  - rewrite Hb2. lia.
  - rewrite Hb2. intros w Hw. unfold v2. rewrite with_inode_ne; [by apply Hc|].
    pose proof (IBLOCK_meta _ append_inum). rewrite nmeta_eq in Hm. lia.
  - intros i ip' c' Hi. destruct (decide (i = k)) as [->|Hne].
    + rewrite list_lookup_insert_eq in Hi by done. injection Hi as <- <-. apply this_file.
    + rewrite list_lookup_insert_ne in Hi by done. by apply (other_file i).
  - apply append_disk.
  - intros i j f g w Hij Hf Hg. destruct (decide (i = k)) as [->|Hi], (decide (j = k)) as [->|Hj]; try done.
    + rewrite list_lookup_insert_eq in Hf by done. rewrite list_lookup_insert_ne in Hg by done. injection Hf as <-.
      rewrite this_owned, (other_owned j g) by done. intros H1 H2. by apply (other_frame j g w Hj Hg H2).
    + rewrite list_lookup_insert_ne in Hf by done. rewrite list_lookup_insert_eq in Hg by done. injection Hg as <-.
      rewrite this_owned, (other_owned i f) by done. intros H1 H2. by apply (other_frame i f w Hi Hf H1).
    + rewrite list_lookup_insert_ne in Hf, Hg by done. rewrite (other_owned i f), (other_owned j g) by done.
      by apply (wo_apart _ _ _ HW i j).
Qed.
End append.

(** The fields of an inode that [iappend] keeps. *)
Definition kind (t : Z) (ip : inode) : Prop :=
  i_type ip = t /\ i_major ip = 0 /\ i_minor ip = 0 /\ i_nlink ip = 1.
(** The boot block, the superblock and the log. *)
Definition low_same (v v' : Z -> list Z) : Prop := forall w, w < 33 -> v' w = v w.

Lemma iappend_spec st v F k ip c p t :
  world st v F -> F !! k = Some (ip, c) -> kind t ip ->
  Z.of_nat (length c + length p) <= MAXFILE * BSIZE -> mk_freeblock st + more c p <= FSSIZE ->
  runs (iappend (Z.of_nat k + 1) p st) (fun _ st' => exists v' ip',
    world st' v' (<[k := (ip', c ++ p)]> F) /\ kind t ip' /\ low_same v v').
Proof.
  intros HW Hk Ht Hmax Hroom. assert (Hn : 0 <= Z.of_nat k + 1 < NINODES) by (by eapply append_inum).
  destruct (wo_files _ _ _ HW k ip c Hk) as (Hf & Hs & Hl). unfold iappend.
  rewrite (bind_ok _ _ _ _ _ (rinode_eq st v _ (wo_holds _ _ _ HW) Hn)), (wo_disk _ _ _ HW k ip c Hk), Hs.
  apply runs_bind. eapply runs_mono; [apply (iappend_loop_spec (length p + 1) st v ip c p); [|done|done|lia]|].
  { split; [apply HW|done|apply HW|]. pose proof (wo_room _ _ _ HW). pose proof (files_cost_nonneg F).
    rewrite (wo_blocks _ _ _ HW) in *. lia. }
  intros [ip1 off] st1 [Eo (v1 & HA)]. cbn [fst snd] in *. subst off. pose proof HA as ([Hh1 _ _ _] & _ & _ & [_ _ G3 G4]).
  unfold xint. rewrite Z.mod_small by (rewrite length_app; change (MAXFILE * BSIZE) with 274432 in Hmax; lia).
  destruct (winode_eq st1 v1 _ (set_i_size (Z.of_nat (length (c ++ p))) ip1) Hh1 Hn) as (st2 & E & Hh2 & Ei & Eb).
  rewrite E. cbn [runs]. eexists _, _. split; [by eapply append_world|]. split; [unfold kind; by rewrite G4|].
  intros w Hw. pose proof (IBLOCK_meta _ Hn). rewrite with_inode_ne by lia. apply G3.
  destruct HA as ([_ Hf1 _ _] & _). apply (meta_not_mine _ _ _ _ _ _ Hf1). rewrite nmeta_eq. lia.
Qed.

(** ** A new file *)

Lemma empty_fimg v fb ip : dinode_wf ip -> i_addrs ip = replicate 13 0 -> fimg v fb ip [] 0.
Proof.
  intros Hw Ha. assert (Hz : forall j, nth j (i_addrs ip) 0 = 0).
  { intros j. rewrite Ha, nth_lookup. destruct (_ !! _) eqn:E; [|done]. by apply lookup_replicate in E as [-> _]. }
  assert (Hi : iblk ip = 0) by apply Hz.
  split; try done; try (intros; simpl in *; lia).
  intros bn _. unfold fblk. rewrite Hi. destruct (_ <? _); [apply Hz|done].
Qed.

Section snoc.
Context (st : mkfs_t) (v : Z -> list Z) (F : list (inode * list Z)) (ip : inode) (st2 : mkfs_t).
Let inum := Z.of_nat (length F) + 1.
Let v' := with_inode mk_sb v inum ip.
Hypothesis (HW : world st v F) (Hn : inum < NINODES) (Hwf : dinode_wf ip).
Hypothesis (Hip : set_disk_fields ip zero_inode = ip) (Ha : i_addrs ip = replicate 13 0) (Hs : i_size ip = 0).
Hypothesis (Hh2 : holds st2 v') (Hi2 : mk_freeinode st2 = inum + 1) (Hb2 : mk_freeblock st2 = mk_freeblock st).

Lemma snoc_block : 33 <= IBLOCK inum mk_sb < 46.
Proof. apply IBLOCK_meta. unfold inum in *. lia. Qed.
Lemma snoc_old i f : F !! i = Some f -> forall w, owned v f w -> v' w = v w.
Proof.
  intros Hi w Hw. apply with_inode_ne. intros ->. destruct f as [ip' c'], (wo_files _ _ _ HW i ip' c' Hi) as (Hf & _).
  pose proof snoc_block. apply (meta_not_mine _ _ _ _ _ _ Hf) in Hw; [done|]. rewrite nmeta_eq. lia.
Qed.
Lemma snoc_lookup i f : (F ++ [(ip, [])]) !! i = Some f -> F !! i = Some f \/ i = length F /\ f = (ip, []).
Proof.
  intros [Hi|[Hge Hi]]%lookup_app_Some; [by left|]. apply list_lookup_singleton_Some in Hi as [Hi <-].
  right. split; [lia|done].
Qed.
Lemma snoc_owned i f w : (F ++ [(ip, [])]) !! i = Some f -> owned v' f w -> F !! i = Some f /\ owned v f w.
Proof.
  intros [Hi|[-> ->]]%snoc_lookup.
  - destruct f as [ip' c'], (wo_files _ _ _ HW i ip' c' Hi) as (Hf & _). intros Hw. split; [done|]. revert Hw.
    apply (mine_frame v v' (mk_freeblock st) ip' c'); [done|]. by apply (snoc_old i (ip', c')).
  - intros [(bn & Hbn & _)|[Hbn _]]; [|done]. change (nbl (Z.of_nat (length (ip, []).2))) with 0 in Hbn. lia.
Qed.

Lemma world_snoc : world st2 v' (F ++ [(ip, [])]).
Proof.
  pose proof HW as [W1 W2 W3 W4 W5 W6 W7 W8 W9]. pose proof W1 as (_ & _ & Hl). split.
  - done.
  - rewrite Hi2, length_app. cbn. unfold inum. lia.
  - rewrite length_app. cbn. unfold inum in *. lia.
  - rewrite Hb2, files_cost_snoc. done.
  - by rewrite Hb2.
  - rewrite Hb2. intros w Hw. pose proof snoc_block. unfold v'. rewrite with_inode_ne; [by apply W6|].
    pose proof (files_cost_nonneg F). rewrite W4, nmeta_eq in Hw. lia.
  - intros i ip' c' [Hi|[_ [= -> ->]]]%snoc_lookup; rewrite Hb2; [|split; [by apply empty_fimg|done]].
    destruct (W7 i ip' c' Hi) as (Hf & Hs' & Hl'). split; [|done]. eapply fimg_frame; [exact Hf|done|].
    by apply (snoc_old i (ip', c')).
  - intros i ip' c' Hi. unfold v'. rewrite on_disk_with_inode by (done || unfold inum; lia).
    apply snoc_lookup in Hi as [Hi|[-> [= -> ->]]]; [|by rewrite decide_True].
    rewrite decide_False by (apply lookup_lt_Some in Hi; unfold inum; lia). by apply (W8 i ip' c').
  - intros i j f g w Hij Hf Hg [Hf' H1]%(snoc_owned i) [Hg' H2]%(snoc_owned j); try done. by apply (W9 i j f g w).
Qed.
End snoc.

Lemma mk_ialloc_spec st v F t :
  world st v F -> Z.of_nat (length F) + 1 < NINODES -> 0 <= t < 4 ->
  runs (mk_ialloc t st) (fun inum st' => inum = Z.of_nat (length F) + 1 /\ mk_freeblock st' = mk_freeblock st /\
    exists v' ip, world st' v' (F ++ [(ip, [])]) /\ kind t ip /\ low_same v v').
Proof.
  intros HW Hn Ht. unfold mk_ialloc. rewrite (bind_ok _ _ st (mk_freeinode st) st) by done.
  rewrite (wo_inodes _ _ _ HW). set (inum := Z.of_nat (length F) + 1).
  rewrite (bind_ok _ _ st tt (set_mk_freeinode (inum + 1) st)) by done. cbv zeta.
  set (ip := mkInode _ _ _ _ _ _ _ _ _ _). set (st1 := set_mk_freeinode _ st).
  assert (Hk : kind t ip).
  { split_and!; try done. unfold ip. cbn [i_type]. unfold xshort. apply i16_short. unfold is_short. lia. }
  assert (Hwf : dinode_wf ip).
  { destruct Hk as (K1 & K2 & K3 & K4). split; rewrite ?K1, ?K2, ?K3, ?K4; try done; try (unfold is_short; lia).
    by apply Forall_replicate. }
  assert (Hin : 0 <= inum < NINODES) by (unfold inum; lia). pose proof (IBLOCK_meta _ Hin) as Hib.
  destruct (winode_eq st1 v inum ip (wo_holds _ _ _ HW) Hin) as (st2 & E & Hh2 & Ei & Eb).
  rewrite (bind_ok _ _ _ _ _ E). cbn [runs ret]. split; [done|]. split; [done|].
  exists (with_inode mk_sb v inum ip), ip.
  split; [|split; [done|intros w Hw; apply with_inode_ne; lia]]. by apply (world_snoc st).
Qed.

(** ** All files *)

Lemma copy_file_spec t fuel : forall st v F k ip c data,
  world st v F -> F !! k = Some (ip, c) -> kind t ip ->
  Z.of_nat (length c + length data) <= MAXFILE * BSIZE -> mk_freeblock st + more c data <= FSSIZE ->
  (length data < fuel)%nat ->
  runs (copy_file fuel (Z.of_nat k + 1) data st) (fun _ st' => exists v' ip',
    world st' v' (<[k := (ip', c ++ data)]> F) /\ kind t ip' /\ low_same v v').
Proof.
  induction fuel as [|fuel IH]; intros st v F k ip c data HW Hk Ht Hmax Hroom Hf; [lia|]. cbn [copy_file].
  destruct data as [|x data0] eqn:Ed.
  { cbn [runs ret]. exists v, ip. rewrite app_nil_r, list_insert_id by done. done. }
  rewrite <- Ed in *. assert (Hpos : (0 < length data)%nat) by (subst; simpl; lia). clear x data0 Ed.
  set (p1 := take (Z.to_nat BSIZE) data). set (p2 := drop (Z.to_nat BSIZE) data).
  assert (E : p1 ++ p2 = data) by apply take_drop.
  assert (L : (length p1 + length p2 = length data)%nat) by (by rewrite <- length_app, E).
  assert (Lp : (0 < length p1)%nat) by (unfold p1; rewrite length_take; unfold BSIZE; lia).
  rewrite <- E, more_app in Hroom. pose proof (more_nonneg c p1). pose proof (more_nonneg (c ++ p1) p2).
  apply runs_bind. eapply runs_mono; [apply (iappend_spec st v F k ip c p1 t); try done; lia|].
  intros [] st1 (v1 & ip1 & HW1 & Ht1 & Hl1). assert (Hkl : (k < length F)%nat) by (by eapply lookup_lt_Some).
  assert (Efb : mk_freeblock st1 = mk_freeblock st + more c p1).
  { rewrite (wo_blocks _ _ _ HW1), (files_cost_insert F k ip), (wo_blocks _ _ _ HW) by done. lia. }
  eapply runs_mono; [apply (IH st1 v1 (<[k := (ip1, c ++ p1)]> F) k ip1 (c ++ p1) p2 HW1); try done|].
  - by apply list_lookup_insert_eq.
  - rewrite length_app. lia.
  - lia.
  - lia.
  - intros [] st2 (v2 & ip2 & HW2 & Ht2 & Hl2). rewrite list_insert_insert_eq, <- app_assoc, E in HW2.
    exists v2, ip2. split; [done|]. split; [done|]. intros w Hw. rewrite Hl2, Hl1 by done. done.
Qed.

Lemma put16_len_dirent name inum : length (mk_dirent name inum) = Z.to_nat DIRENT_SIZE.
Proof. unfold mk_dirent, dirent_make. rewrite put16_length, length_app, read_bytes_length. done. Qed.

(** A file to be put on the image: it can be opened, its name fits. *)
Definition fits (f : list Z * option (list Z)) (data : list Z) : Prop :=
  f.2 = Some data /\ Z.of_nat (length (shortname f.1)) <= DIRSIZ /\ Z.of_nat (length data) <= MAXFILE * BSIZE.

(** The root directory and the rest; [rc] its content so far. *)
Lemma add_file_spec st v rip rc F f data :
  world st v ((rip, rc) :: F) -> kind T_DIR rip -> fits f data ->
  Z.of_nat (length F) + 2 < NINODES -> Z.of_nat (length rc) + DIRENT_SIZE <= MAXFILE * BSIZE ->
  let de := mk_dirent (shortname f.1) (Z.of_nat (length F) + 2) in
  mk_freeblock st + more rc de + more [] data <= FSSIZE ->
  runs (add_file ROOTINO f st) (fun _ st' => exists v' rip' ip,
    world st' v' ((rip', rc ++ de) :: F ++ [(ip, data)]) /\ kind T_DIR rip' /\ kind T_FILE ip /\ low_same v v').
Proof.
  intros HW Hr (E1 & E2 & E3) Hn Hmax de Hroom. destruct f as [path content]. cbn [fst snd] in *. subst content.
  pose proof (put16_len_dirent (shortname path) (Z.of_nat (length F) + 2)) as Lde. fold de in Lde.
  pose proof (more_nonneg rc de). pose proof (more_nonneg [] data).
  unfold add_file, assert_. rewrite (proj2 (Z.leb_le _ _)) by done. rewrite (bind_ok _ _ st tt st) by done.
  apply runs_bind. eapply runs_mono; [apply (mk_ialloc_spec st v _ T_FILE HW); [cbn [length]; lia|done]|].
  intros inum st1 (-> & Efb1 & v1 & ip1 & HW1 & Ht1 & Hl1). cbn [length] in *.
  replace (Z.of_nat (S (length F)) + 1) with (Z.of_nat (length F) + 2) in * by lia. fold de.
  apply runs_bind. eapply runs_mono; [apply (iappend_spec st1 v1 _ 0 rip rc de T_DIR HW1); try done; [|lia]|].
  { rewrite Nat2Z.inj_add, Lde. exact Hmax. }
  intros [] st2 (v2 & rip2 & HW2 & Hr2 & Hl2). cbn [insert list_insert app] in HW2.
  assert (Efb2 : mk_freeblock st2 = mk_freeblock st1 + more rc de).
  { rewrite (wo_blocks _ _ _ HW2), (wo_blocks _ _ _ HW1). cbn [files_cost foldr snd app].
    unfold more. rewrite length_app. lia. }
  replace (Z.of_nat (length F) + 2) with (Z.of_nat (S (length F)) + 1) by lia.
  assert (Hlk : ((rip2, rc ++ de) :: F ++ [(ip1, [])]) !! S (length F) = Some (ip1, [])).
  { transitivity ((F ++ [(ip1, [] : list Z)]) !! length F); [done|]. by rewrite lookup_app_r, Nat.sub_diag by done. }
  eapply runs_mono; [apply (copy_file_spec T_FILE _ st2 v2 _ (S (length F)) ip1 [] data HW2 Hlk Ht1); [done|lia|lia]|].
  intros [] st3 (v3 & ip3 & HW3 & Ht3 & Hl3). exists v3, rip2, ip3.
  split; [|split; [done|split; [done|intros w Hw; by rewrite Hl3, Hl2, Hl1]]].
  replace (F ++ [(ip3, data)]) with (<[length F := (ip3, data)]> (F ++ [(ip1, [] : list Z)]))
    by (by rewrite insert_app_r_alt, Nat.sub_diag by done). exact HW3.
Qed.

(** The directory entries of the files, from inode [n] on. *)
Fixpoint dirents (n : Z) (files : list (list Z * option (list Z))) : list Z :=
  match files with
  | [] => []
  | f :: fs => mk_dirent (shortname f.1) n ++ dirents (n + 1) fs
  end.
Lemma dirents_length n files : length (dirents n files) = (16 * length files)%nat.
Proof.
  revert n. induction files as [|f fs IH]; intros n; [done|]. cbn [dirents length]. rewrite length_app, IH, put16_len_dirent.
  change (Z.to_nat DIRENT_SIZE) with 16%nat. lia.
Qed.

Lemma more_nil d : more [] d = cost (nbl (Z.of_nat (length d))).
Proof. unfold more. cbn [length Nat.add]. change (cost (nbl (Z.of_nat 0))) with 0. lia. Qed.
Definition contents_cost (datas : list (list Z)) : Z := foldr (fun d n => more [] d + n) 0 datas.
Lemma contents_cost_nonneg datas : 0 <= contents_cost datas.
Proof. induction datas as [|d ds IH]; simpl; [done|]. pose proof (more_nonneg [] d). lia. Qed.

Lemma add_files_spec files : forall datas st v rip rc F,
  world st v ((rip, rc) :: F) -> kind T_DIR rip -> Forall2 fits files datas ->
  Z.of_nat (length F + length files) + 1 < NINODES ->
  Z.of_nat (length rc + 16 * length files) <= MAXFILE * BSIZE ->
  let de := dirents (Z.of_nat (length F) + 2) files in
  mk_freeblock st + more rc de + contents_cost datas <= FSSIZE ->
  runs (add_files ROOTINO files st) (fun _ st' => exists v' rip' F',
    world st' v' ((rip', rc ++ de) :: F ++ F') /\ kind T_DIR rip' /\ Forall (fun f => kind T_FILE f.1) F' /\
    F'.*2 = datas /\ low_same v v').
Proof.
  induction files as [|f fs IH]; intros datas st v rip rc F HW Hr HF Hn Hmax de Hroom.
  { apply Forall2_nil_inv_l in HF as ->. cbn [add_files runs ret]. exists v, rip, []. cbn [dirents de]. rewrite !app_nil_r.
    split_and!; try done. }
  apply Forall2_cons_inv_l in HF as (data & ds & Hf & Hfs & ->). cbn [add_files].
  set (de1 := mk_dirent (shortname f.1) (Z.of_nat (length F) + 2)). set (de2 := dirents (Z.of_nat (length F) + 3) fs).
  assert (Ede : de = de1 ++ de2) by (unfold de, de1, de2; cbn [dirents]; do 2 f_equal; lia).
  assert (L1 : length de1 = 16%nat) by apply put16_len_dirent. rewrite Ede, more_app in Hroom. cbn [contents_cost foldr] in Hroom.
  pose proof (contents_cost_nonneg ds) as Hc. fold (contents_cost ds) in Hroom. cbn [length] in *.
  pose proof (more_nonneg (rc ++ de1) de2). pose proof (more_nonneg [] data).
  apply runs_bind. eapply runs_mono; [apply (add_file_spec st v rip rc F f data HW Hr Hf)|].
  - lia.
  - unfold DIRENT_SIZE. lia.
  - fold de1. lia.
  - intros [] st1 (v1 & rip1 & ip1 & HW1 & Hr1 & Ht1 & Hl1). fold de1 in HW1.
    assert (EL : Z.of_nat (length (F ++ [(ip1, data)])) = Z.of_nat (length F) + 1) by (rewrite length_app; simpl; lia).
    assert (Efb : mk_freeblock st1 = mk_freeblock st + more rc de1 + more [] data).
    { rewrite (wo_blocks _ _ _ HW1), (wo_blocks _ _ _ HW). cbn [files_cost foldr snd].
      fold (files_cost F) (files_cost (F ++ [(ip1, data)])). rewrite files_cost_app, more_nil.
      cbn [files_cost foldr snd]. unfold more. rewrite length_app. lia. }
    eapply runs_mono; [apply (IH ds st1 v1 rip1 (rc ++ de1) (F ++ [(ip1, data)]) HW1 Hr1 Hfs)|].
    + rewrite length_app. cbn. lia.
    + rewrite length_app. lia.
    + rewrite EL. replace (Z.of_nat (length F) + 1 + 2) with (Z.of_nat (length F) + 3) by lia. fold de2. lia.
    + rewrite EL. replace (Z.of_nat (length F) + 1 + 2) with (Z.of_nat (length F) + 3) by lia. fold de2.
      intros [] st2 (v2 & rip2 & F2 & HW2 & Hr2 & Hk2 & E2 & Hl2). rewrite <- !app_assoc, <- Ede in HW2. cbn [app] in HW2.
      exists v2, rip2, ((ip1, data) :: F2). split; [done|]. split; [done|]. split; [by apply Forall_cons|].
      split; [by rewrite fmap_cons, E2|]. intros w Hw. by rewrite Hl2, Hl1.
Qed.

(** ** The whole image *)

Lemma bits_set l : forall buf b,
  Forall (fun i => 0 <= i < BPB) l -> 0 <= b -> length buf = Z.to_nat BSIZE ->
  length (foldl bit_set buf l) = Z.to_nat BSIZE /\
  bit_clear (foldl bit_set buf l) b = if decide (b ∈ l) then false else bit_clear buf b.
Proof.
  induction l as [|i l IH]; intros buf b Hl Hb Hlen; cbn [foldl].
  { rewrite decide_False by (apply not_elem_of_nil). done. }
  apply Forall_cons in Hl as [Hi Hl]. destruct (IH (bit_set buf i) b Hl Hb) as [E1 E2]; [by rewrite bit_set_length|].
  split; [done|]. rewrite E2, bit_clear_set; [|lia|lia|rewrite Hlen; unfold BPB, BSIZE in *; zlia].
  repeat case_decide; set_solver.
Qed.
Lemma mark_used_bit n b :
  0 <= n <= BPB -> 0 <= b -> length (mark_used n zeroes) = Z.to_nat BSIZE /\
  (bit_clear (mark_used n zeroes) b = false <-> b < n).
Proof.
  intros Hn Hb. destruct (bits_set (seqZ 0 n) zeroes b) as [E1 E2]; [|done|done|].
  { apply Forall_forall. intros i Hi%elem_of_seqZ. lia. }
  split; [exact E1|]. unfold mark_used. rewrite E2. case_decide as Hin; rewrite elem_of_seqZ in Hin; [split; [lia|done]|].
  split; [|lia]. unfold bit_clear. rewrite byte_at_zeroes. done.
Qed.

(** Every block zeroed. *)
Lemma zero_image st :
  mk_img st = [] ->
  runs (for_ (Z.to_nat FSSIZE) 0 (fun i => wsect i zeroes) st) (fun _ st' =>
    st' = set_mk_img (replicate (Z.to_nat FSSIZE) zeroes) st).
Proof.
  intros E. apply (runs_for (fun i st' => 0 <= i /\ st' = set_mk_img (replicate (Z.to_nat i) zeroes) st)).
  - split; [done|]. destruct st. simpl in *. by subst.
  - intros i s Hi [_ ->]. unfold wsect, modify. cbn [runs]. split; [lia|]. cbn [mk_img set_mk_img].
    rewrite length_replicate, Nat.ltb_irrefl, Nat.sub_diag. cbn [replicate app].
    replace (Z.to_nat (i + 1)) with (S (Z.to_nat i)) by lia. by rewrite <- replicate_S_end.
  - intros s' [_ ->]. done.
Qed.

Definition start_view : Z -> list Z := bput (fun _ => zeroes) 1 sb_bytes.

Lemma start_world st :
  mk_img st = replicate (Z.to_nat FSSIZE) zeroes -> mk_freeinode st = 1 -> mk_freeblock st = mk_nmeta ->
  exists st', wsect 1 sb_bytes st = Ok tt st' /\ world st' start_view [].
Proof.
  intros E1 E2 E3. assert (Hh : holds st (fun _ => zeroes)).
  { split; [by rewrite E1, length_replicate|]. split; [|done]. intros w Hw. rewrite E1. apply lookup_replicate_2. lia. }
  destruct (wsect_eq st (fun _ => zeroes) 1 sb_bytes Hh) as [E HH]; [done|done|]. eexists. split; [exact E|].
  split; try done.
  - cbn. rewrite E3. done.
  - rewrite nmeta_eq in E3. intros w Hw. cbn in Hw. rewrite E3 in Hw. unfold start_view. apply bput_ne. lia.
Qed.

(** The superblock as [readsb] decodes it. *)
Definition sb_of (d : list Z) : superblock :=
  let w i := get32 d (4 * i) in mkSB (w 0) (w 1) (w 2) (w 3) (w 4) (w 5) (w 6) (w 7).
Lemma sb_of_bytes : sb_of sb_bytes = mk_sb.
Proof. vm_compute. reflexivity. Qed.

(** What the kernel needs of a file on the disk: its inode, every block below
    its size, its bytes. *)
Definition stored (v : Z -> list Z) (inum t size : Z) (c : list Z) : Prop :=
  let ip := on_disk mk_sb v inum zero_inode in
  kind t ip /\ i_size ip = size /\ file_ok mk_sb v ip /\
  (forall k, 0 <= k < size -> fblk v ip (k / BSIZE) <> 0) /\
  (forall k, 0 <= k < Z.of_nat (length c) -> fbyte v ip k = byte_at c k) /\
  (forall k, Z.of_nat (length c) <= k < MAXFILE * BSIZE -> fbyte v ip k = 0).

Definition dots : list Z := mk_dirent (cstr ".") ROOTINO ++ mk_dirent (cstr "..") ROOTINO.

Record image_ok (files : list (list Z * option (list Z))) (datas : list (list Z)) (v : Z -> list Z) : Prop := {
  im_sb : sb_of (v 1) = mk_sb;
  im_log : v 2 = zeroes;
  im_mapped : mapped mk_sb v;
  im_file : forall j data, datas !! j = Some data ->
    stored v (Z.of_nat j + 2) T_FILE (Z.of_nat (length data)) data;
  im_root : let c := dots ++ dirents 2 files in
    stored v ROOTINO T_DIR (nbl (Z.of_nat (length c)) * BSIZE) c;
  im_dir : dir_ok v (on_disk mk_sb v ROOTINO zero_inode);
  im_apart : forall i j w, 0 < i <= Z.of_nat (length datas) + 1 -> 0 < j <= Z.of_nat (length datas) + 1 -> i <> j ->
    owns v (on_disk mk_sb v i zero_inode) w -> ~ owns v (on_disk mk_sb v j zero_inode) w;
}.

(** A file of the table is a file for the kernel, once the bitmap is written. *)
Section finish.
Context (v : Z -> list Z) (fb : Z).
Hypothesis (Hfb : mk_nmeta <= fb <= FSSIZE).
Hypothesis (Hu : forall b, 0 <= b < FSSIZE -> used mk_sb v b <-> b < fb).

Lemma fimg_block ip c nb w : fimg v fb ip c nb -> mine v ip nb w -> data_block mk_sb v w.
Proof.
  intros Hf [H1 H2]%(mine_allocated _ _ _ _ _ _ Hf). rewrite nmeta_eq in *.
  split; [change (datastart mk_sb) with 47; change (sb_size mk_sb) with FSSIZE; lia|]. apply Hu; lia.
Qed.
Lemma fimg_bn ip c nb bn : fimg v fb ip c nb -> bnum bn -> fblk v ip bn <> 0 -> 0 <= bn < nb.
Proof.
  intros Hf [H1 H2] H0. split; [done|]. destruct (Z.lt_ge_cases bn nb) as [|Hge]; [done|].
  exfalso. apply H0. apply (fi_out _ _ _ _ _ Hf). lia.
Qed.
Lemma fimg_iblk ip c nb : fimg v fb ip c nb -> iblk ip <> 0 -> NDIRECT < nb.
Proof.
  intros Hf H0. destruct (Z.lt_ge_cases NDIRECT nb) as [|Hge]; [done|]. exfalso. apply H0, (fi_noind _ _ _ _ _ Hf). lia.
Qed.
Lemma owns_mine ip c nb w : fimg v fb ip c nb -> owns v ip w -> mine v ip nb w.
Proof.
  intros Hf [H0 [->|(bn & Hbn & <-)]]; [right|left].
  - split; [by eapply fimg_iblk|done].
  - exists bn. split; [by eapply fimg_bn|done].
Qed.
Lemma fimg_file_ok ip c nb : fimg v fb ip c nb -> file_ok mk_sb v ip.
Proof.
  intros Hf. split.
  - apply (dw_len _ (fi_wf _ _ _ _ _ Hf)).
  - intros bn Hbn H0. eapply fimg_block; [exact Hf|]. left. exists bn. split; [by eapply fimg_bn|done].
  - intros H0. eapply fimg_block; [exact Hf|]. right. split; [by eapply fimg_iblk|done].
  - intros bn bn' Hbn Hbn' H0 E. apply (fi_inj _ _ _ _ _ Hf); [by eapply fimg_bn|eapply fimg_bn; [done|done|congruence]|done].
  - intros bn Hbn H0 E. assert (Hb : fblk v ip bn <> 0) by congruence.
    eapply (fi_apart _ _ _ _ _ Hf); [by eapply fimg_bn|by eapply fimg_iblk|done].
Qed.
Lemma fimg_zero ip c nb k :
  fimg v fb ip c nb -> Z.of_nat (length c) <= k < MAXFILE * BSIZE -> fbyte v ip k = 0.
Proof.
  intros Hf Hk. destruct (Z.lt_ge_cases k (nb * BSIZE)) as [Hlt|Hge]; [apply (fi_tail _ _ _ _ _ Hf); lia|].
  unfold fbyte. rewrite (fi_out _ _ _ _ _ Hf); [done|]. change MAXFILE with 268 in *. unfold BSIZE in *. zlia.
Qed.
Lemma fimg_stored inum t size c nb ip :
  fimg v fb ip c nb -> on_disk mk_sb v inum zero_inode = ip -> kind t ip -> i_size ip = size -> size <= nb * BSIZE ->
  stored v inum t size c.
Proof.
  intros Hf E Hk Hs Hn. unfold stored. rewrite E. split; [done|]. split; [done|]. split; [by eapply fimg_file_ok|].
  split.
  { intros k Hk'. pose proof (allocated_pos _ _ (fi_in _ _ _ _ _ Hf (k / BSIZE) ltac:(unfold BSIZE in *; zlia))). lia. }
  split; [apply (fi_bytes _ _ _ _ _ Hf)|]. intros k Hk'. by eapply fimg_zero.
Qed.
End finish.

(** The last two writes: the size of the root directory and the bitmap. *)
Section last.
Context (st : mkfs_t) (v : Z -> list Z) (rip : inode) (rc : list Z) (F : list (inode * list Z)).
Hypothesis (HW : world st v ((rip, rc) :: F)).
Let fb := mk_freeblock st.
Let rip' := set_i_size ((Z.of_nat (length rc) / BSIZE + 1) * BSIZE) rip.
Let v1 := with_inode mk_sb v ROOTINO rip'.
Let v2 := bput v1 (sb_bmapstart mk_sb) (mark_used fb zeroes).

Lemma last_fb : mk_nmeta <= fb <= FSSIZE.
Proof.
  pose proof (wo_room _ _ _ HW). pose proof (files_cost_nonneg ((rip, rc) :: F)). unfold fb.
  rewrite (wo_blocks _ _ _ HW) in *. lia.
Qed.
Lemma last_high w : 46 < w \/ 33 > w -> v2 w = v w.
Proof.
  intros Hw. unfold v2. rewrite bput_ne by (change (sb_bmapstart mk_sb) with 46; lia).
  apply with_inode_ne. change (IBLOCK ROOTINO mk_sb) with 33. lia.
Qed.
Lemma last_mine ip c nb w : fimg v fb ip c nb -> mine v ip nb w -> v2 w = v w.
Proof. intros Hf [H1 _]%(mine_allocated _ _ _ _ _ _ Hf). rewrite nmeta_eq in H1. apply last_high. lia. Qed.
Lemma last_len w : length (v2 w) = Z.to_nat BSIZE.
Proof.
  pose proof last_fb as Hfb. destruct (wo_holds _ _ _ HW) as (_ & _ & Hl). unfold v2, v1, with_inode, bput.
  case_decide; [apply (mark_used_bit fb 0); [rewrite nmeta_eq in *; unfold FSSIZE in *; change BPB with 8192; lia|lia]|].
  case_decide; [by rewrite dinode_put_length|done].
Qed.
Lemma last_used b : 0 <= b < FSSIZE -> used mk_sb v2 b <-> b < fb.
Proof.
  pose proof last_fb as Hfb. intros Hb. unfold used, BBLOCK. change (sb_bmapstart mk_sb) with 46.
  rewrite Z.div_small, Z.mod_small by (unfold FSSIZE in *; change BPB with 8192; lia). unfold v2. rewrite bput_eq.
  apply mark_used_bit; [rewrite nmeta_eq in *; unfold FSSIZE in *; change BPB with 8192; lia|lia].
Qed.
Lemma last_mapped : mapped mk_sb v2.
Proof.
  pose proof last_fb as Hfb. split; [done|done|apply last_len|]. change (datastart mk_sb) with 47. rewrite nmeta_eq in Hfb.
  intros b Hb. apply last_used; unfold FSSIZE; lia.
Qed.

Definition final (i : nat) (ip : inode) : inode := if decide (i = 0%nat) then rip' else ip.

Lemma last_wf : dinode_wf rip'.
Proof.
  destruct (wo_files _ _ _ HW 0 rip rc eq_refl) as (Hf & _ & Hl). destruct (fi_wf _ _ _ _ _ Hf). split; try done.
  change (is_uint ((Z.of_nat (length rc) / BSIZE + 1) * BSIZE)). unfold is_uint.
  change (MAXFILE * BSIZE) with 274432 in Hl. unfold BSIZE. zlia.
Qed.
Lemma last_disk i ip c :
  ((rip, rc) :: F) !! i = Some (ip, c) -> on_disk mk_sb v2 (Z.of_nat i + 1) zero_inode = final i ip.
Proof.
  intros Hi. pose proof (wo_few _ _ _ HW) as Hn. pose proof (lookup_lt_Some _ _ _ Hi) as Hil.
  destruct (wo_holds _ _ _ HW) as (_ & _ & Hl).
  pose proof (IBLOCK_meta (Z.of_nat i + 1) ltac:(lia)) as Hb. unfold on_disk, v2.
  rewrite bput_ne by (change (sb_bmapstart mk_sb) with 46; lia).
  change (on_disk mk_sb v1 (Z.of_nat i + 1) zero_inode = final i ip). unfold v1.
  rewrite on_disk_with_inode by (apply last_wf || apply Hl || unfold ROOTINO; lia). unfold final.
  destruct (decide (i = 0%nat)) as [->|Hne].
  - rewrite decide_True by done. unfold rip'. by rewrite <- (wo_disk _ _ _ HW 0 rip rc eq_refl).
  - rewrite decide_False by (unfold ROOTINO; lia). by apply (wo_disk _ _ _ HW i ip c).
Qed.
Lemma last_fimg i ip c :
  ((rip, rc) :: F) !! i = Some (ip, c) -> fimg v2 fb (final i ip) c (nbl (Z.of_nat (length c))).
Proof.
  intros Hi. destruct (wo_files _ _ _ HW i ip c Hi) as (Hf & _).
  assert (H2 : fimg v2 fb ip c (nbl (Z.of_nat (length c)))).
  { eapply fimg_frame; [exact Hf|done|]. intros w. by eapply last_mine. }
  unfold final. case_decide as E; [|done]. subst. injection Hi as <- <-. apply fimg_size; [done|]. apply last_wf.
Qed.
Lemma last_owned i ip c w :
  ((rip, rc) :: F) !! i = Some (ip, c) -> owns v2 (final i ip) w -> owned v (ip, c) w.
Proof.
  intros Hi Ho. apply (owns_mine v2 fb _ c (nbl (Z.of_nat (length c))) w (last_fimg i ip c Hi)) in Ho.
  destruct (wo_files _ _ _ HW i ip c Hi) as (Hf & _). apply (mine_frame v v2 fb ip c); [done| |].
  - intros u. by eapply last_mine.
  - unfold final in Ho. revert Ho. case_decide as E; [|done]. subst. by injection Hi as <- <-.
Qed.

Lemma last_image files :
  Z.of_nat (length rc) mod BSIZE <> 0 -> Z.of_nat (length rc) mod DIRENT_SIZE = 0 -> kind T_DIR rip -> Forall (fun f => kind T_FILE f.1) F -> rc = dots ++ dirents 2 files -> low_same start_view v ->
  image_ok files F.*2 v2.
Proof.
  intros Hpart Hwhole Hr HF Erc Hlow. pose proof last_fb as Hfb. pose proof last_mapped as Hm.
  pose proof (last_fimg 0 rip rc eq_refl) as HR. pose proof (last_disk 0 rip rc eq_refl) as HD.
  change (Z.of_nat 0 + 1) with ROOTINO in HD.
  assert (Esz : i_size (final 0 rip) = nbl (Z.of_nat (length rc)) * BSIZE).
  { change ((Z.of_nat (length rc) / BSIZE + 1) * BSIZE = nbl (Z.of_nat (length rc)) * BSIZE).
    unfold nbl, BSIZE in *. zlia. }
  split.
  - rewrite last_high, Hlow by lia. apply sb_of_bytes.
  - rewrite last_high, Hlow by lia. done.
  - done.
  - intros j data Hj. apply list_lookup_fmap_Some in Hj as ([ip c] & -> & Hj). cbn [snd].
    destruct (wo_files _ _ _ HW (S j) ip c Hj) as (_ & Hs & _).
    apply (fimg_stored v2 fb Hfb last_used _ _ _ c (nbl (Z.of_nat (length c))) ip); try done.
    + exact (last_fimg (S j) ip c Hj).
    + replace (Z.of_nat j + 2) with (Z.of_nat (S j) + 1) by lia. exact (last_disk (S j) ip c Hj).
    + apply (Forall_lookup_1 _ _ _ _ HF Hj).
    + unfold nbl, BSIZE. zlia.
  - cbv zeta. rewrite <- Erc.
    by apply (fimg_stored v2 fb Hfb last_used _ _ _ rc (nbl (Z.of_nat (length rc))) (final 0 rip)).
  - rewrite HD. split; rewrite ?Esz.
    + apply Hr.
    + pose proof (fi_nb _ _ _ _ _ HR). unfold BSIZE. lia.
    + unfold DIRENT_SIZE, BSIZE. zlia.
    + intros k Hk. pose proof (allocated_pos _ _ (fi_in _ _ _ _ _ HR (k / BSIZE) ltac:(unfold BSIZE in *; zlia))). lia.
  - rewrite length_fmap. intros i j w Hi Hj Hij Ho1 Ho2.
    assert (Hget : forall i, 0 < i <= Z.of_nat (length F) + 1 -> exists k f, i = Z.of_nat k + 1 /\ ((rip, rc) :: F) !! k = Some f).
    { intros n Hn. destruct (lookup_lt_is_Some_2 ((rip, rc) :: F) (Z.to_nat (n - 1))) as [f Hf]; [cbn; lia|].
      exists (Z.to_nat (n - 1)), f. split; [lia|done]. }
    destruct (Hget i Hi) as (k & [ip c] & -> & Hk), (Hget j Hj) as (k' & [ip' c'] & -> & Hk').
    rewrite (last_disk k ip c Hk) in Ho1. rewrite (last_disk k' ip' c' Hk') in Ho2.
    apply (wo_apart _ _ _ HW k k' (ip, c) (ip', c') w); [lia|done|done| |].
    + by apply (last_owned k).
    + by apply (last_owned k').
Qed.

Lemma last_writes :
  runs ((din <- rinode ROOTINO ;;
         let off := xint (i_size din) in
         let off := (off / BSIZE + 1) * BSIZE in
         winode ROOTINO (set_i_size (xint off) din) ;;
         fb <- gets mk_freeblock ;;
         mk_balloc fb) st) (fun _ st' => holds st' v2).
Proof.
  pose proof last_fb as Hfb. destruct (wo_files _ _ _ HW 0 rip rc eq_refl) as (_ & Hs & Hl).
  change (MAXFILE * BSIZE) with 274432 in Hl. pose proof (wo_holds _ _ _ HW) as Hh.
  rewrite (bind_ok _ _ _ _ _ (rinode_eq st v ROOTINO Hh ltac:(done))).
  pose proof (wo_disk _ _ _ HW 0 rip rc eq_refl) as Hd. change (Z.of_nat 0 + 1) with ROOTINO in Hd. rewrite Hd, Hs.
  unfold xint.
  rewrite !(Z.mod_small _ (2^32)) by (unfold BSIZE; zlia). cbv zeta. fold rip'.
  destruct (winode_eq st v ROOTINO rip' Hh ltac:(done)) as (st1 & E & Hh1 & _ & Eb).
  rewrite (bind_ok _ _ _ _ _ E), (bind_ok _ _ st1 (mk_freeblock st1) st1) by done. rewrite Eb. fold fb.
  unfold mk_balloc, assert_. rewrite (proj2 (Z.ltb_lt fb BPB)) by (unfold FSSIZE in *; change BPB with 8192; lia).
  rewrite (bind_ok _ _ st1 tt st1) by done.
  destruct (wsect_eq st1 v1 (sb_bmapstart mk_sb) (mark_used fb zeroes) Hh1) as [EW HH]; [done| |].
  - apply (mark_used_bit fb 0); [rewrite nmeta_eq in *; unfold FSSIZE in *; change BPB with 8192; lia|done].
  - rewrite EW. exact HH.
Qed.
End last.

Lemma low_same_trans v1 v2 v3 : low_same v1 v2 -> low_same v2 v3 -> low_same v1 v3.
Proof. intros A B w Hw. by rewrite B, A. Qed.

(** The root directory with its two entries. *)
Lemma root_spec {A} st v (k : Z -> I A) Q :
  world st v [] -> mk_freeblock st + more [] dots <= FSSIZE ->
  (forall st' v' rip, world st' v' [(rip, dots)] -> kind T_DIR rip -> low_same v v' -> runs (k ROOTINO st') Q) ->
  runs ((rootino <- mk_ialloc T_DIR ;;
         assert_ (rootino =? ROOTINO) ;;
         iappend rootino (mk_dirent (cstr ".") rootino) ;;
         iappend rootino (mk_dirent (cstr "..") rootino) ;; k rootino) st) Q.
Proof.
  intros HW Hroom HK. unfold dots in *. rewrite more_app in Hroom. set (d1 := mk_dirent (cstr ".") ROOTINO) in *.
  set (d2 := mk_dirent (cstr "..") ROOTINO) in *. pose proof (more_nonneg [] d1). pose proof (more_nonneg ([] ++ d1) d2).
  apply runs_bind. eapply runs_mono; [by apply (mk_ialloc_spec st v [] T_DIR HW)|].
  intros root st1 (-> & Eb1 & v1 & rip1 & HW1 & Hr1 & Hl1). cbn [length app] in *.
  change (Z.of_nat 0 + 1) with ROOTINO. rewrite (bind_ok _ _ st1 tt st1) by done. fold d1 d2.
  apply runs_bind. eapply runs_mono; [apply (iappend_spec st1 v1 _ 0 rip1 [] d1 T_DIR HW1 eq_refl Hr1); [done|lia]|].
  intros [] st2 (v2 & rip2 & HW2 & Hr2 & Hl2). cbn [insert list_insert app] in HW2.
  assert (Eb2 : mk_freeblock st2 = mk_freeblock st1 + more [] d1).
  { rewrite (wo_blocks _ _ _ HW2), (wo_blocks _ _ _ HW1), more_nil. cbn [files_cost foldr snd].
    change (cost (nbl (Z.of_nat (length (@nil Z))))) with 0. lia. }
  apply runs_bind. eapply runs_mono; [apply (iappend_spec st2 v2 _ 0 rip2 d1 d2 T_DIR HW2 eq_refl Hr2); [done|lia]|].
  intros [] st3 (v3 & rip3 & HW3 & Hr3 & Hl3). apply (HK st3 v3 rip3); [exact HW3|done|].
  eapply low_same_trans; [exact Hl1|]. by eapply low_same_trans.
Qed.

(** C15: [mkfs] builds a file system.  Given files that can be opened, whose names
    fit a directory entry, whose sizes are within the limit of a file and which
    fit on the disk together, and whose entries with [.] and [..] do not fill
    the last block of the root directory (64 entries a block), it finishes, and
    the image it leaves satisfies what the kernel relies on: the superblock
    decodes to the layout, the log is empty, the bitmap marks the blocks of
    metadata and of files, and the inode of each input file leads through direct
    and indirect blocks, all of them present, to exactly its bytes; the root is
    a directory as the kernel requires, of whole blocks that are all present,
    and lists the files after [.] and [..]; no two files share a block. *)
Theorem mkfs_correct (files : list (list Z * option (list Z))) (datas : list (list Z)) :
  Forall2 fits files datas -> Z.of_nat (length files) + 2 < NINODES ->
  (Z.of_nat (length files) + 2) mod 64 <> 0 ->
  mk_nmeta + more [] (dots ++ dirents 2 files) + contents_cost datas <= FSSIZE ->
  runs (mkfs_main files mkfs_start) (fun _ st => exists v, holds st v /\ image_ok files datas v).
Proof.
  intros HF Hn Hpart Hroom. unfold mkfs_main. rewrite (bind_ok _ _ _ tt (mkMkfs [] 1 mk_nmeta)) by done.
  apply runs_bind. eapply runs_mono; [by apply zero_image|]. intros [] st0 ->.
  set (st0 := set_mk_img _ _). destruct (start_world st0 eq_refl eq_refl eq_refl) as (st1 & E1 & HW1).
  rewrite (bind_ok _ _ _ _ _ E1). assert (Eb1 : mk_freeblock st1 = mk_nmeta) by (rewrite (wo_blocks _ _ _ HW1); done).
  rewrite more_app in Hroom. pose proof (more_nonneg ([] ++ dots) (dirents 2 files)). pose proof (contents_cost_nonneg datas).
  apply (root_spec st1 start_view _ _ HW1); [lia|]. intros st2 v2 rip2 HW2 Hr2 Hl2.
  assert (Eb2 : mk_freeblock st2 = mk_nmeta + more [] dots).
  { rewrite (wo_blocks _ _ _ HW2), more_nil. cbn [files_cost foldr snd]. lia. }
  apply runs_bind. eapply runs_mono; [apply (add_files_spec files datas st2 v2 rip2 dots [] HW2 Hr2 HF)|].
  - cbn [length Nat.add]. lia.
  - change (length dots) with 32%nat. change (MAXFILE * BSIZE) with 274432. unfold NINODES in Hn. lia.
  - change (Z.of_nat (length (@nil (inode * list Z))) + 2) with 2. cbn [app] in *. lia.
  - change (Z.of_nat (length (@nil (inode * list Z))) + 2) with 2.
    intros [] st3 (v3 & rip3 & F & HW3 & Hr3 & HF3 & <- & Hl3). cbn [app] in HW3.
    eapply runs_mono; [by eapply last_writes|]. intros [] st4 Hh4. eexists. split; [exact Hh4|].
    assert (El : Z.of_nat (length (dots ++ dirents 2 files)) = DIRENT_SIZE * (Z.of_nat (length files) + 2)).
    { rewrite length_app, dirents_length. change (length dots) with 32%nat. unfold DIRENT_SIZE. lia. }
    apply (last_image st3 v3 rip3 _ F HW3); try done; [| |by eapply low_same_trans]; rewrite El; unfold DIRENT_SIZE, BSIZE; zlia.
Qed.

Definition demo_files : list (list Z * option (list Z)) :=
  [(cstr "user/_cat", Some (replicate 1500 7)); (cstr "README", Some [72; 105])].
Definition demo_datas : list (list Z) := [replicate 1500 7; [72; 105]].

Lemma mkfs_correct_witness :
  runs (mkfs_main demo_files mkfs_start) (fun _ st => exists v, holds st v /\ image_ok demo_files demo_datas v).
Proof.
  apply mkfs_correct.
  - apply Forall2_cons; split; [|apply Forall2_cons; split; [|apply Forall2_nil; exact Logic.I]];
      split; [reflexivity| |reflexivity|]; vm_compute; split; discriminate.
  - reflexivity.
  - vm_compute. discriminate.
  - vm_compute. discriminate.
Defined.
