(* ===== verification/Console.v ===== *)
(** * The console

    Models [src/os/kernel/console.c], the interrupt-driven half of
    [src/os/kernel/uart.c] and [procdump] of [taskmgr.c]: line editing of
    typed characters into a ring buffer, and the reads and writes of user
    processes. *)

From S2P Require Import Prelude CMem Machine Sv32 Spinlock Kalloc Printf Sched AddrSpace.

(** ** taskmgr.c: procdump *)

Definition state_name (st : procstate) : list Z :=
  match st with
  | UNUSED => cstr "unused" | USED => cstr "used" | SLEEPING => cstr "sleep "
  | RUNNABLE => cstr "runble" | RUNNING => cstr "run   " | ZOMBIE => cstr "zombie"
  end.

(** A name field as a C string: the bytes before its nul. *)
Fixpoint until_nul (bs : list Z) : list Z :=
  match bs with
  | [] => []
  | b :: bs' => if b =? 0 then [] else b :: until_nul bs'
  end.

Definition procdump : K unit :=
  printf [10] [] ;;
  for_ (Z.to_nat NPROC) 0 (fun i =>
    p <- get_proc i ;;
    if decide (p.(p_state) = UNUSED) then ret tt else
    printf (cstr "%d %s %s")
      [VInt p.(p_pid); VStr (state_name p.(p_state)); VStr (until_nul p.(p_name))] ;;
    printf [10] []).

(** ** console.c: the input buffer *)

(** [C('D')] and the like *)
Definition ctrl_P : Z := 16.
Definition ctrl_U : Z := 21.
Definition ctrl_H : Z := 8.
Definition ctrl_D : Z := 4.
Definition del_key : Z := 127.
Definition newline : Z := 10.
Definition carriage_return : Z := 13.

(** [cons.buf[i % INPUT_BUF_SIZE]] for an unsigned [i] *)
Definition cons_at (c : cons_t) (i : Z) : Z := aget c.(cons_buf) (u32 i mod INPUT_BUF_SIZE).

Definition erase_one : K unit :=
  upd_cons (fun c => set_cons_e (u32 (c.(cons_e) - 1)) c) ;;
  consputc BACKSPACE.

(** [while(cons.e != cons.w && cons.buf[(cons.e-1) % ...] != '\n')]; the edit
    index is at most [INPUT_BUF_SIZE] ahead of the write index. *)
Fixpoint kill_line (fuel : nat) : K unit :=
  match fuel with
  | O => nofuel
  | S f =>
      c <- gets k_cons ;;
      if negb (c.(cons_e) =? c.(cons_w)) && negb (cons_at c (c.(cons_e) - 1) =? newline)
      then erase_one ;; kill_line f
      else ret tt
  end.

Definition consoleintr (c : Z) : K unit :=
  acquire LCons ;;
  (if c =? ctrl_P then procdump
   else if c =? ctrl_U then kill_line (Z.to_nat (INPUT_BUF_SIZE + 1))
   else if (c =? ctrl_H) || (c =? del_key) then
     t <- gets k_cons ;;
     if negb (t.(cons_e) =? t.(cons_w)) then erase_one else ret tt
   else
     t <- gets k_cons ;;
     if negb (c =? 0) && (u32 (t.(cons_e) - t.(cons_r)) <? INPUT_BUF_SIZE) then
       let c := if c =? carriage_return then newline else c in
       consputc c ;;
       upd_cons (fun t =>
         set_cons_e (u32 (t.(cons_e) + 1))
           (set_cons_buf (<[t.(cons_e) mod INPUT_BUF_SIZE := c mod 256]> t.(cons_buf)) t)) ;;
       t <- gets k_cons ;;
       if (c =? newline) || (c =? ctrl_D) ||
          (u32 (t.(cons_e) - t.(cons_r)) =? INPUT_BUF_SIZE) then
         upd_cons (set_cons_w t.(cons_e)) ;;
         wakeup ChCons
       else ret tt
     else ret tt) ;;
  release LCons.

(** ** uart.c *)

(** One byte if [LSR_RX_READY], else -1 *)
Definition uartgetc : K Z :=
  u <- gets k_uart ;;
  match u.(u_in) with
  | c :: r => upd_uart (set_u_in r) ;; ret c
  | [] => ret (-1)
  end.

(** [while(1){ c = uartgetc(); if(c == -1) break; consoleintr(c); }] *)
Fixpoint uart_drain (fuel : nat) : K unit :=
  match fuel with
  | O => nofuel
  | S f =>
      c <- uartgetc ;;
      if c =? -1 then ret tt else consoleintr c ;; uart_drain f
  end.

(** [tx_idle] is the [LSR_TX_IDLE] bit the handler reads. *)
Definition uartintr (tx_idle : bool) : K unit :=
  acquire LUart ;;
  (if tx_idle then upd_uart (set_u_tx_busy 0) ;; wakeup ChUart else ret tt) ;;
  release LUart ;;
  n <- gets (fun s => length (k_uart s).(u_in)) ;;
  uart_drain (S n).

Definition uartinit : K unit := initlock LUart "uart".

Section console.
Context `{L : Layout, W : WaitFuel}.

Fixpoint uartwrite_loop (buf : list Z) : K unit :=
  match buf with
  | [] => ret tt
  | c :: buf' =>
      while_wait wait_fuel
        (u <- gets k_uart ;; ret (negb (u.(u_tx_busy) =? 0)))
        (sleep ChUart LUart) ;;
      thr_write c ;;
      upd_uart (set_u_tx_busy 1) ;;
      uartwrite_loop buf'
  end.
Definition uartwrite (buf : list Z) : K unit :=
  acquire LUart ;;
  uartwrite_loop buf ;;
  release LUart.

(** [while(i < n)]: batches of 32 bytes *)
Fixpoint consolewrite_loop (fuel : nat) (user_src : bool) (src i n : Z) : K Z :=
  match fuel with
  | O => nofuel
  | S f =>
      if i <? n then
        let nn := Z.min 32 (n - i) in
        r <- either_copyin user_src (u32 (src + i)) nn ;;
        if r.1 =? -1 then ret i else
        uartwrite r.2 ;;
        consolewrite_loop f user_src src (i + nn) n
      else ret i
  end.
Definition consolewrite (user_src : bool) (src n : Z) : K Z :=
  consolewrite_loop (S (Z.to_nat n)) user_src src 0 n.

(** The wait for input; [true] when the reader has been killed. *)
Fixpoint cons_wait (fuel : nat) : K bool :=
  match fuel with
  | O => nofuel
  | S f =>
      t <- gets k_cons ;;
      if t.(cons_r) =? t.(cons_w) then
        p <- curproc ;;
        k <- killed p ;;
        if negb (k =? 0) then ret true else
        sleep ChCons LCons ;;
        cons_wait f
      else ret false
  end.

(** [while(n > 0)] of [consoleread]: [None] after the killed return, else the
    count left. *)
Fixpoint consoleread_loop (k : nat) (user_dst : bool) (dst n target : Z)
    : K (option Z) :=
  match k with
  | O => ret (Some n)
  | S k' =>
      dead <- cons_wait wait_fuel ;;
      if (dead : bool) then release LCons ;; ret None else
      t <- gets k_cons ;;
      let c := cons_at t t.(cons_r) in
      upd_cons (fun t => set_cons_r (u32 (t.(cons_r) + 1)) t) ;;
      if c =? ctrl_D then
        (if n <? target
         then upd_cons (fun t => set_cons_r (u32 (t.(cons_r) - 1)) t)
         else ret tt) ;;
        ret (Some n)
      else
      e <- either_copyout user_dst (u32 dst) [c] ;;
      if e =? -1 then ret (Some n) else
      if c =? newline then ret (Some (n - 1))
      else consoleread_loop k' user_dst (dst + 1) (n - 1) target
  end.
Definition consoleread (user_dst : bool) (dst n : Z) : K Z :=
  acquire LCons ;;
  r <- consoleread_loop (Z.to_nat n) user_dst dst n n ;;
  match r with
  | None => ret (-1)
  | Some rest => release LCons ;; ret (n - rest)
  end.

Definition consoleinit : K unit :=
  initlock LCons "cons" ;;
  uartinit.
End console.
