(* ===== verification/Pipe.v ===== *)
(** * Pipes

    Models the data path of [src/os/kernel/pipe.c]: the bounded byte buffer
    between two file descriptors.  [pipealloc] is with the file table. *)

From S2P Require Import Prelude CMem Machine Sv32 Spinlock Kalloc Printf Sched AddrSpace.

Definition get_pipe (pi : Z) : K pipe :=
  fun s => match k_pipes s !! pi with
           | Some p => Ok p s
           | None => Stop (Undefined "struct pipe")
           end.
Definition put_pipe (pi : Z) (p : pipe) : K unit :=
  modify (fun s => set_pipes (<[pi := p]> (k_pipes s)) s).
Definition upd_pipe (pi : Z) (f : pipe -> pipe) : K unit :=
  p <- get_pipe pi ;; put_pipe pi (f p).

(** [pi->data[pi->nwrite++ % PIPESIZE] = ch] *)
Definition pipe_push (ch : Z) (p : pipe) : pipe :=
  set_pi_nwrite (u32 (p.(pi_nwrite) + 1))
    (set_pi_data (<[p.(pi_nwrite) mod PIPESIZE := ch]> p.(pi_data)) p).
(** [pi->data[pi->nread % PIPESIZE]] *)
Definition pipe_front (p : pipe) : Z := aget p.(pi_data) (p.(pi_nread) mod PIPESIZE).
Definition pipe_pop (p : pipe) : pipe := set_pi_nread (u32 (p.(pi_nread) + 1)) p.
Definition pipe_full (p : pipe) : bool :=
  p.(pi_nwrite) =? u32 (p.(pi_nread) + PIPESIZE).
Definition pipe_empty (p : pipe) : bool := p.(pi_nread) =? p.(pi_nwrite).

Section pipe.
Context `{L : Layout, W : WaitFuel}.

Definition pipeclose (pi : Z) (writable : bool) : K unit :=
  acquire (LPipe pi) ;;
  (if writable then
     upd_pipe pi (set_pi_writeopen 0) ;; wakeup (ChPipeRead pi)
   else
     upd_pipe pi (set_pi_readopen 0) ;; wakeup (ChPipeWrite pi)) ;;
  p <- get_pipe pi ;;
  if (p.(pi_readopen) =? 0) && (p.(pi_writeopen) =? 0) then
    release (LPipe pi) ;;
    kfree pi
  else release (LPipe pi).

(** [while(i < n)] of [pipewrite]: a round copies one byte or sleeps.  The
    result is the value returned; the lock is still held unless it is the -1
    of a closed pipe or a killed writer. *)
Fixpoint pipewrite_loop (fuel : nat) (pr pi addr i n : Z) : K (option Z) :=
  match fuel with
  | O => nofuel
  | S f =>
      if i <? n then
        p <- get_pipe pi ;;
        k <- (if p.(pi_readopen) =? 0 then ret 1 else killed pr) ;;
        if negb (k =? 0) then release (LPipe pi) ;; ret None else
        p <- get_pipe pi ;;
        if pipe_full p then
          wakeup (ChPipeRead pi) ;;
          sleep (ChPipeWrite pi) (LPipe pi) ;;
          pipewrite_loop f pr pi addr i n
        else
          q <- get_proc pr ;;
          c <- copyin q.(p_as).(pagetable) (u32 (addr + i)) 1 ;;
          if c.1 =? -1 then ret (Some i) else
          upd_pipe pi (pipe_push (nth 0 c.2 0)) ;;
          pipewrite_loop f pr pi addr (i + 1) n
      else ret (Some i)
  end.
Definition pipewrite (pi addr n : Z) : K Z :=
  pr <- curproc ;;
  acquire (LPipe pi) ;;
  r <- pipewrite_loop (S (Z.to_nat n) + wait_fuel) pr pi addr 0 n ;;
  match r with
  | None => ret (-1)
  | Some i =>
      wakeup (ChPipeRead pi) ;;
      release (LPipe pi) ;;
      ret i
  end.

(** The wait of [piperead]; [true] when the reader has been killed. *)
Fixpoint pipe_wait (fuel : nat) (pr pi : Z) : K bool :=
  match fuel with
  | O => nofuel
  | S f =>
      p <- get_pipe pi ;;
      if pipe_empty p && negb (p.(pi_writeopen) =? 0) then
        k <- killed pr ;;
        if negb (k =? 0) then ret true else
        sleep (ChPipeRead pi) (LPipe pi) ;;
        pipe_wait f pr pi
      else ret false
  end.
(** [for(i = 0; i < n; i++)] of [piperead], [k] rounds left *)
Fixpoint piperead_loop (k : nat) (pr pi addr i : Z) : K Z :=
  match k with
  | O => ret i
  | S k' =>
      p <- get_pipe pi ;;
      if pipe_empty p then ret i else
      let ch := pipe_front p in
      q <- get_proc pr ;;
      e <- copyout q.(p_as).(pagetable) (u32 (addr + i)) [ch] ;;
      if e =? -1 then ret (if i =? 0 then -1 else i) else
      upd_pipe pi pipe_pop ;;
      piperead_loop k' pr pi addr (i + 1)
  end.
Definition piperead (pi addr n : Z) : K Z :=
  pr <- curproc ;;
  acquire (LPipe pi) ;;
  dead <- pipe_wait wait_fuel pr pi ;;
  if (dead : bool) then release (LPipe pi) ;; ret (-1) else
  i <- piperead_loop (Z.to_nat n) pr pi addr 0 ;;
  wakeup (ChPipeWrite pi) ;;
  release (LPipe pi) ;;
  ret i.
End pipe.
