(* ===== verification/PipeProof.v ===== *)
(** * Pipes: properties

    The ring buffer of [pipe.c] is a bounded queue of bytes, also across the
    wrap-around of its 32-bit counters, and [piperead] and [pipewrite] move
    bytes between that queue and user memory in order. *)

From S2P Require Import Prelude CMem Machine Sv32 Spinlock Kalloc KallocProof.
From S2P Require Import KallocSpec Sched AddrSpace Regions PageTable UserMem UserCopy.
From S2P Require Import UserSpec UserFrame SchedProof SchedSpec Printf Pipe.

(** ** The ring buffer as a queue *)

(** [p] holds the bytes [q], oldest first. *)
Record queue (p : pipe) (q : list Z) : Prop := {
  qu_read : 0 <= p.(pi_nread) < 2^32;
  qu_write : p.(pi_nwrite) = u32 (p.(pi_nread) + Z.of_nat (length q));
  qu_len : Z.of_nat (length q) <= PIPESIZE;
  qu_data : forall i b, q !! i = Some b ->
    aget p.(pi_data) ((p.(pi_nread) + Z.of_nat i) mod PIPESIZE) = b;
}.

Lemma u32_mod_pipe x : u32 x mod PIPESIZE = x mod PIPESIZE.
Proof.
  unfold u32, PIPESIZE. change (2^32) with (512 * 8388608).
  rewrite Z.rem_mul_r by lia. rewrite Z.mul_comm, Z_mod_plus_full. by rewrite Z.mod_mod.
Qed.

Lemma queue_empty p q : queue p q -> pipe_empty p = true <-> q = [].
Proof.
  intros [H1 H2 H3 _]. unfold pipe_empty. rewrite H2, Z.eqb_eq. unfold u32, PIPESIZE in *.
  split; [|intros ->; simpl; rewrite Z.mod_small; lia].
  intros H. destruct q as [|b q]; [done|]. simpl length in *. zlia.
Qed.

Lemma queue_full p q : queue p q -> pipe_full p = true <-> Z.of_nat (length q) = PIPESIZE.
Proof.
  intros [H1 H2 H3 _]. unfold pipe_full. rewrite H2, Z.eqb_eq. unfold u32, PIPESIZE in *.
  split; [|intros ->; done]. intros H. zlia.
Qed.

Lemma queue_push p q ch :
  queue p q -> pipe_full p = false -> queue (pipe_push ch p) (q ++ [ch]).
Proof.
  intros Hq Hf. assert (Hlt : Z.of_nat (length q) < PIPESIZE).
  { destruct (queue_full p q Hq) as [_ Hff]. pose proof (qu_len _ _ Hq).
    destruct (Z.eq_dec (Z.of_nat (length q)) PIPESIZE); [|lia]. by rewrite Hff in Hf. }
  destruct Hq as [H1 H2 H3 H4]. unfold pipe_push. split; simpl.
  - done.
  - rewrite length_app. simpl. rewrite H2. unfold u32. rewrite Zplus_mod_idemp_l. f_equal. lia.
  - rewrite length_app. simpl. lia.
  - intros i b Hi. unfold aget. rewrite H2, u32_mod_pipe.
    apply lookup_app_Some in Hi as [Hi|[Hge Hi]].
    + pose proof (lookup_lt_Some _ _ _ Hi). rewrite lookup_insert_ne; [by apply H4|].
      unfold PIPESIZE in *. zlia.
    + apply list_lookup_singleton_Some in Hi as [Hi <-].
      replace (Z.of_nat i) with (Z.of_nat (length q)) by lia. by rewrite lookup_insert_eq.
Qed.

Lemma queue_pop p c q : queue p (c :: q) -> pipe_front p = c /\ queue (pipe_pop p) q.
Proof.
  intros [H1 H2 H3 H4]. simpl length in *. split.
  - unfold pipe_front. rewrite <- (Z.add_0_r (pi_nread p)). by apply (H4 O).
  - unfold pipe_pop. split; simpl.
    + unfold u32. apply Z.mod_pos_bound. done.
    + rewrite H2. unfold u32. rewrite Zplus_mod_idemp_l. f_equal. lia.
    + lia.
    + intros i b Hi. rewrite <- (H4 (S i) b Hi).
      rewrite <- (Zplus_mod_idemp_l (u32 (pi_nread p + 1))), u32_mod_pipe, Zplus_mod_idemp_l.
      f_equal. f_equal. lia.
Qed.

(** ** Operations on the buffer, as the code guards them *)

Inductive pipe_op := Push (ch : Z) | Pop.

(** Push unless full, pop unless empty; what is popped. *)
Definition pipe_exec (op : pipe_op) (p : pipe) : pipe * option Z :=
  match op with
  | Push ch => if pipe_full p then (p, None) else (pipe_push ch p, None)
  | Pop => if pipe_empty p then (p, None) else (pipe_pop p, Some (pipe_front p))
  end.
(** The same on an abstract bounded queue. *)
Definition queue_exec (op : pipe_op) (q : list Z) : list Z * option Z :=
  match op with
  | Push ch => if decide (Z.of_nat (length q) = PIPESIZE) then (q, None) else (q ++ [ch], None)
  | Pop => match q with [] => ([], None) | c :: q' => (q', Some c) end
  end.
Definition run_ops {A} (f : pipe_op -> A -> A * option Z) (ops : list pipe_op) (a : A)
    : A * list (option Z) :=
  foldl (fun acc op => let '(a', v) := f op acc.1 in (a', acc.2 ++ [v])) (a, []) ops.

Lemma pipe_exec_refines op p q :
  queue p q ->
  queue (pipe_exec op p).1 (queue_exec op q).1 /\ (pipe_exec op p).2 = (queue_exec op q).2.
Proof.
  intros Hq. destruct op as [ch|]; simpl.
  - pose proof (queue_full p q Hq) as Hf. case_decide as Hd.
    + by rewrite (proj2 Hf Hd).
    + destruct (pipe_full p) eqn:E; [destruct Hd; by apply Hf|]. simpl.
      split; [by apply queue_push|done].
  - pose proof (queue_empty p q Hq) as He. destruct q as [|c q].
    + by rewrite (proj2 He eq_refl).
    + destruct (pipe_empty p); [by discriminate (proj1 He eq_refl)|]. simpl.
      destruct (queue_pop _ _ _ Hq) as [-> ?]. done.
Qed.

Lemma run_ops_refines ops p q vs :
  queue p q ->
  let a := foldl (fun acc op => let '(a', v) := pipe_exec op acc.1 in (a', acc.2 ++ [v])) (p, vs) ops in
  let b := foldl (fun acc op => let '(a', v) := queue_exec op acc.1 in (a', acc.2 ++ [v])) (q, vs) ops in
  queue a.1 b.1 /\ a.2 = b.2.
Proof.
  revert p q vs. induction ops as [|op ops IH]; intros p q vs Hq; simpl; [done|].
  destruct (pipe_exec_refines op p q Hq) as [H1 H2].
  destruct (pipe_exec op p) as [p' v], (queue_exec op q) as [q' w]. simpl in *. subst w.
  by apply IH.
Qed.

(** ** Bytes delivered to user memory *)

Section transfer.
Context `{L : Layout, W : WaitFuel}.

(** The state after a transfer: user memory, the allocator and one pipe. *)
Definition piped (pi : Z) (p' : pipe) (s s' : kstate) : Prop :=
  exists sx, aframe s sx /\ s' = set_pipes (<[pi := p']> (k_pipes s)) sx.

Lemma piped_current pi p' s s' pr prc r :
  piped pi p' s s' -> current s pr prc r -> current s' pr prc r.
Proof.
  intros (sx & Hf & ->) (H1 & H2 & H3 & H4). destruct (aframe_procs _ _ Hf) as (E1 & E2 & _).
  unfold current. simpl. by rewrite E1, E2.
Qed.

Lemma piped_procs_ok pi p' s s' : piped pi p' s s' -> procs_ok s -> procs_ok s'.
Proof.
  intros (sx & Hf & ->) (Hc & Hlen & Hl). destruct (aframe_procs _ _ Hf) as (E1 & E2 & E3 & E4 & E5).
  split; [|split; [simpl; by rewrite E1|]].
  - destruct Hc as (? & ? & ?). unfold cpu_ok, ints_on in *. simpl. by rewrite E3, E4.
  - intros i Hi. destruct (Hl i Hi) as [nm Hnm]. exists nm. simpl. by rewrite E5.
Qed.

Lemma aframe_pipes s s' : aframe s s' -> k_pipes s' = k_pipes s.
Proof. by intros (k & m & i & _ & ->). Qed.

Lemma piped_trans pi p1 p2 s s1 s2 : piped pi p1 s s1 -> piped pi p2 s1 s2 -> piped pi p2 s s2.
Proof.
  intros (sx & (k & m & i & Hi & ->) & ->) (sy & (k' & m' & i' & Hi' & ->) & ->).
  exists (set_cpu (mkCpu (c_proc (k_cpu s)) (c_noff (k_cpu s)) i') (set_mem m' (set_kmem k' s))).
  split; [exists k', m', i'; split; [|done]; intros H; rewrite Hi' by done; by apply Hi|]. simpl. by rewrite insert_insert_eq.
Qed.

Lemma piped_refl pi p s : k_pipes s !! pi = Some p -> piped pi p s s.
Proof.
  intros Hp. exists s. split; [reflexivity|]. rewrite insert_id by done. by destruct s.
Qed.

Lemma upd_pipe_eq pi f p s :
  k_pipes s !! pi = Some p -> upd_pipe pi f s = Ok tt (set_pipes (<[pi := f p]> (k_pipes s)) s).
Proof.
  intros Hp. unfold upd_pipe, get_pipe, put_pipe, bind. rewrite Hp. done.
Qed.

Lemma get_pipe_eq pi p s : k_pipes s !! pi = Some p -> get_pipe pi s = Ok p s.
Proof. intros Hp. unfold get_pipe. by rewrite Hp. Qed.

Lemma uinv_set_pipes x s r T : uinv s r T -> uinv (set_pipes x s) r T.
Proof. intros [H1 H2 H3 H4 H5]. by split. Qed.

Lemma touches_set_pipes x r s T h s' T' :
  touches r s T h s' T' -> touches r s T h (set_pipes x s') T'.
Proof. intros [H1 H2 H3]. split; [by apply uinv_set_pipes|done|done]. Qed.

(** ** [piperead] *)

(** After [m] of at most [k] bytes of [q] went to [addr + i], [addr + i + 1]... *)
Definition read_post (r : Z) (s : kstate) (T : Z -> option Z) (pi addr i : Z) (k : nat)
    (q : list Z) (v : Z) (s' : kstate) : Prop :=
  exists T' p' m, (m <= k)%nat /\ (m <= length q)%nat /\
    touches r s T (hits (u32 (addr + i)) k) s' T' /\ piped pi p' s s' /\
    queue p' (drop m q) /\
    (forall j b, (j < m)%nat -> q !! j = Some b ->
       peek false (k_mem s') T' (u32 (addr + i + Z.of_nat j)) = Some b) /\
    ((forall x, hits (u32 (addr + i)) (Nat.min k (length q)) x -> ready (k_mem s) T x) ->
       m = Nat.min k (length q) /\ v = i + Z.of_nat m) /\
    (v = i + Z.of_nat m \/ v = -1 /\ i = 0 /\ m = O).

(** One byte of the loop: copied, or the loop ends. *)
Lemma read_step `{!LayoutOk L} s r T pr prc a ch :
  uinv s r T -> current s pr prc r -> 0 <= ch < 256 ->
  runs (copyout (pagetable (p_as prc)) (u32 a) [ch] s) (fun e s' => exists T',
    writes_only r s T (hits (u32 a) 1) s' T' /\
    (ready (k_mem s) T (u32 a) -> e = 0 /\ forall x, leaf (k_mem s') T' x = leaf (k_mem s) T x) /\
    (e = -1 \/ e = 0 /\ peek false (k_mem s') T' (u32 a) = Some ch)).
Proof.
  intros Hinv Hcur Hch. pose proof (current_running _ _ _ _ Hcur) as Hrun.
  destruct Hcur as (_ & _ & _ & Hwf & -> & _). pose proof (u32_range a) as Ha.
  assert (Hb : Forall (fun b => 0 <= b < 256) [ch]) by (by constructor).
  pose proof (copyout_spec s r T prc (u32 a) [ch] Hinv Hrun Hwf Ha ltac:(simpl; lia) Hb) as H.
  pose proof (copyout_loop_ready 2 s r T (u32 a) [ch] Hinv Ha Hb ltac:(simpl; lia)) as H0.
  destruct (copyout (idx2pa r) (u32 a) [ch] s) as [e s'| |] eqn:E; try done.
  destruct H as (T' & Hw & He). exists T'. split; [done|].
  assert (Hself : u32 (u32 a + Z.of_nat 0) = u32 a)
    by (unfold u32; rewrite Z.add_0_r, Z.mod_mod; done).
  split.
  - intros Hr. unfold copyout in E. simpl length in E. rewrite E in H0.
    destruct H0 as (-> & Hi' & Hl).
    { intros x (j & Hj & ->). simpl in Hj. replace j with O by lia. by rewrite Hself. }
    split; [done|]. intros x. rewrite <- Hl. apply (leaf_unique s' r); [done|].
    apply (wo_inv _ _ _ _ _ _ Hw).
  - destruct He as [->|[-> He]]; [by left|right]. split; [done|].
    rewrite <- Hself. by apply He.
Qed.

Lemma piperead_loop_spec `{!LayoutOk L} k s r T pr prc pi addr i p q :
  uinv s r T -> current s pr prc r -> k_pipes s !! pi = Some p -> queue p q ->
  Forall (fun b => 0 <= b < 256) q -> 0 <= i -> i + Z.of_nat k < 2^32 ->
  runs (piperead_loop k pr pi addr i s) (read_post r s T pi addr i k q).
Proof.
  revert s T i p q. induction k as [|k IH]; intros s T i p q Hinv Hcur Hp Hq Hb Hi Hk.
  { exists T, p, O. do 2 (split; [simpl; lia|]). split; [by apply touches_refl|].
    split; [by apply piped_refl|]. split; [done|]. split; [intros; lia|].
    split; [intros _; simpl; lia|]. left. lia. }
  cbn [piperead_loop]. rewrite (bind_ok _ _ _ _ _ (get_pipe_eq _ _ _ Hp)).
  pose proof (queue_empty p q Hq) as He. destruct (pipe_empty p) eqn:Ee.
  { rewrite (proj1 He eq_refl) in *. exists T, p, O. do 2 (split; [simpl; lia|]).
    split; [by apply touches_refl|]. split; [by apply piped_refl|]. split; [done|].
    split; [intros; lia|]. split; [intros _; simpl; lia|]. left. lia. }
  destruct q as [|c q]; [by discriminate (proj2 He eq_refl)|].
  destruct (queue_pop _ _ _ Hq) as [Hfront Hpop]. rewrite Hfront. cbv zeta.
  inversion Hb as [|? ? Hc Hb']; subst.
  pose proof Hcur as (Hpr & _ & Hprc & _).
  rewrite (bind_ok _ _ _ _ _ (get_proc_eq s pr prc Hpr Hprc)). apply runs_bind.
  eapply runs_mono; [by apply (read_step s r T pr prc (addr + i))|].
  intros e s1 (T1 & Hw & Hrd & Her).
  assert (Hp1 : k_pipes s1 !! pi = Some p)
    by (rewrite (aframe_pipes _ _ (wo_frame _ _ _ _ _ _ Hw)); done).
  assert (Hhit : forall x, hits (u32 (addr + i)) 1 x -> hits (u32 (addr + i)) (S k) x)
    by (intros x; apply hits_mono; lia).
  destruct Her as [->|[-> Hpk]].
  { cbn. exists T1, p, O. do 2 (split; [simpl; lia|]).
    split; [by eapply writes_touches|]. split.
    { exists s1. split; [apply (wo_frame _ _ _ _ _ _ Hw)|].
      rewrite insert_id by done. rewrite <- (aframe_pipes _ _ (wo_frame _ _ _ _ _ _ Hw)).
      by destruct s1. }
    split; [done|]. split; [intros; lia|]. split.
    { intros Hr. destruct Hrd as [Hbad _]; [|done]. apply Hr, hits_first; [apply u32_range|simpl; lia]. }
    destruct (Z.eqb_spec i 0); [right; lia|left; lia]. }
  cbn [Z.eqb]. rewrite (bind_ok _ _ _ _ _ (upd_pipe_eq _ pipe_pop _ _ Hp1)).
  set (s2 := set_pipes _ s1).
  assert (Hpiped : piped pi (pipe_pop p) s s2).
  { exists s1. split; [apply (wo_frame _ _ _ _ _ _ Hw)|]. unfold s2.
    by rewrite (aframe_pipes _ _ (wo_frame _ _ _ _ _ _ Hw)). }
  eapply runs_mono.
  { apply (IH s2 T1 (i + 1) (pipe_pop p) q); try done; try lia.
    - apply uinv_set_pipes, (wo_inv _ _ _ _ _ _ Hw).
    - by eapply piped_current.
    - apply lookup_insert_eq. }
  intros v s3 (T3 & p3 & m & Hmk & Hmq & Ht & Hpd & Hq3 & Hpk3 & Hall & Hv).
  replace (addr + (i + 1)) with (addr + i + 1) in * by lia.
  exists T3, p3, (S m). split; [lia|]. split; [simpl; lia|]. split.
  { eapply (touches_trans r s T s2 T1 _ _ _ _ _); [|exact Ht|exact Hhit|apply hits_tail].
    apply touches_set_pipes. by eapply writes_touches. }
  split; [by eapply piped_trans|]. split; [done|]. split; [|split; [|left; lia]].
  - intros [|j] b Hj Hb0; simpl in Hb0.
    + simplify_eq. rewrite Z.add_0_r. apply (to_out _ _ _ _ _ _ Ht); [apply u32_range| |done].
      apply hits_head_tail. lia.
    + replace (addr + i + Z.of_nat (S j)) with (addr + i + 1 + Z.of_nat j) by lia.
      apply Hpk3; [lia|done].
  - intros Hr. destruct Hall as [-> ->]; [|simpl; lia]. intros x Hx.
    destruct Hrd as [_ Hl]; [apply Hr, hits_first; [apply u32_range|simpl; lia]|].
    unfold ready. change (k_mem s2) with (k_mem s1). rewrite Hl. apply Hr. simpl. by apply hits_tail.
Qed.

(** ** The whole call *)

(** Inside a section the CPU state does not change. *)
Lemma aframe_cpu s s' : 0 < c_noff (k_cpu s) -> aframe s s' -> k_cpu s' = k_cpu s.
Proof.
  intros Hn (k & m & i & Hi & ->). simpl. rewrite Hi by done. by destruct (k_cpu s).
Qed.

Lemma psame_cpu s l s' : 0 < c_noff (k_cpu s) -> psame s l s' -> k_cpu s' = k_cpu s.
Proof. intros Hn (i & Hi & ->). simpl. rewrite Hi by done. by destruct (k_cpu s). Qed.

(** A system call on pipe [pi] by the process [pr]. *)
Record pipe_call (s : kstate) (pr : Z) (prc : proc) (r : Z) (T : Z -> option Z) (pi : Z)
    (p : pipe) (q : list Z) : Prop := {
  pc_procs : procs_ok s;
  pc_lock : lock_free s (LPipe pi);
  pc_space : uinv s r T;
  pc_cur : current s pr prc r;
  pc_pipe : k_pipes s !! pi = Some p;
  pc_queue : queue p q;
  pc_bytes : Forall (fun b => 0 <= b < 256) q;
}.

(** Entering the section opened by the lock of the pipe. *)
Lemma pipe_call_enter s pr prc r T pi p q :
  pipe_call s pr prc r T pi p q ->
  let s1 := enter (LPipe pi) s in
  procs_ok s1 /\ uinv s1 r T /\ current s1 pr prc r /\ k_pipes s1 !! pi = Some p /\
  0 < c_noff (k_cpu s1).
Proof.
  intros [(Hc & Hlen & Hl) Hlk Hsp Hcur Hp _ _] s1.
  assert (Hc1 : cpu_ok s1) by (by apply enter_cpu_ok).
  split; [split; [done|split; [done|]]|].
  { intros i Hi. apply enter_lock_free; [done|]. by apply Hl. }
  split; [|split; [done|split; [done|]]].
  - eapply (uinv_same_mem s); [done|done| |done].
    apply enter_lock_free; [done|]. by destruct (ui_alloc _ _ _ Hsp) as (_ & ? & _).
  - simpl. destruct Hc as (_ & Hn & _). lia.
Qed.

(** Leaving it, after a transfer and a wakeup of [ch]. *)
Lemma pipe_call_leave s pr prc r T pi p q hit s2 T' p' ch s3 j :
  pipe_call s pr prc r T pi p q ->
  touches r (enter (LPipe pi) s) T hit s2 T' -> piped pi p' (enter (LPipe pi) s) s2 ->
  psame s2 (imap (fun i p => woken (Some pr) ch (Z.of_nat i) p) (k_procs s2)) s3 ->
  scratch s j ->
  let s' := leave s j s3 in
  in_crit (LPipe pi) s s3 /\ touches r s T hit s' T' /\ same_ctl s s' /\
  k_pipes s' = <[pi := p']> (k_pipes s) /\ k_mem s' = k_mem s2 /\
  k_procs s' = imap (fun i p => woken (Some pr) ch (Z.of_nat i) p) (k_procs s).
Proof.
  intros Hcall Ht (sx & Hf & ->) Hs3 Hj s'.
  destruct (pipe_call_enter _ _ _ _ _ _ _ _ Hcall) as (_ & _ & _ & _ & Hn).
  assert (Hcx : k_cpu sx = k_cpu (enter (LPipe pi) s)) by (by apply aframe_cpu).
  assert (Hc3 : k_cpu s3 = k_cpu (enter (LPipe pi) s)).
  { rewrite <- Hcx. change (k_cpu sx) with (k_cpu (set_pipes (<[pi:=p']>
      (k_pipes (enter (LPipe pi) s))) sx)).
    eapply psame_cpu; [|exact Hs3]. simpl. by rewrite Hcx. }
  destruct (aframe_procs _ _ Hf) as (E1 & E2 & E3 & E4 & E5).
  destruct Hs3 as (i & Hi & ->).
  split; [split; [exact E5|split; [exact E4|exact Hc3]]|].
  split; [|split; [done|split; [done|split; [done|]]]].
  - eapply (touches_same_mem r (enter (LPipe pi) s)); [done| | | |exact Ht]; [done| |].
    + by eapply same_ctl_cpu_ok; [apply leave_same_ctl|apply (proj1 (pc_procs _ _ _ _ _ _ _ _ Hcall))].
    + eapply same_ctl_lock_free; [apply leave_same_ctl|].
      by destruct (ui_alloc _ _ _ (pc_space _ _ _ _ _ _ _ _ Hcall)) as (_ & ? & _).
  - simpl. by rewrite E1.
Qed.

Definition piperead_post (r : Z) (s : kstate) (T : Z -> option Z) (pr pi addr n : Z)
    (q : list Z) (v : Z) (s' : kstate) : Prop :=
  exists T' p' m, Z.of_nat m <= n /\ (m <= length q)%nat /\
    touches r s T (hits (u32 addr) (Z.to_nat n)) s' T' /\ same_ctl s s' /\
    k_pipes s' = <[pi := p']> (k_pipes s) /\ queue p' (drop m q) /\
    k_procs s' = imap (fun i p => woken (Some pr) (Some (ChPipeWrite pi)) (Z.of_nat i) p) (k_procs s) /\
    (forall j b, (j < m)%nat -> q !! j = Some b ->
       peek false (k_mem s') T' (u32 (addr + Z.of_nat j)) = Some b) /\
    ((forall x, hits (u32 addr) (Nat.min (Z.to_nat n) (length q)) x -> ready (k_mem s) T x) ->
       v = Z.min n (Z.of_nat (length q))) /\
    (v = Z.of_nat m \/ v = -1 /\ m = O).

Lemma intena_call s s0 pr prc r T pi p q :
  intena_only s s0 -> pipe_call s pr prc r T pi p q -> pipe_call s0 pr prc r T pi p q.
Proof.
  intros Hs [H1 H2 H3 H4 H5 H6 H7]. pose proof (uinv_intena _ _ _ _ Hs H3) as H3'.
  destruct Hs as (i & _ & ->). by split.
Qed.

Lemma intena_touches s s0 r T h s' T' :
  intena_only s s0 -> touches r s0 T h s' T' -> touches r s T h s' T'.
Proof.
  intros (i & _ & ->) H. destruct (ui_alloc _ _ _ (to_inv _ _ _ _ _ _ H)) as (? & ? & _).
  by eapply touches_same_mem; [| | | |exact H].
Qed.

(** The call once it has waited. *)
Lemma piperead_rest `{!LayoutOk L} s pr prc r T pi p q addr n :
  pipe_call s pr prc r T pi p q -> 0 <= n < 2^31 ->
  runs ((i <- piperead_loop (Z.to_nat n) pr pi addr 0 ;;
         wakeup (ChPipeWrite pi) ;; release (LPipe pi) ;; ret i) (enter (LPipe pi) s))
    (piperead_post r s T pr pi addr n q).
Proof.
  intros Hcall Hn. pose proof (pc_cur _ _ _ _ _ _ _ _ Hcall) as (Hpr & Hcp & _).
  destruct (pipe_call_enter _ _ _ _ _ _ _ _ Hcall) as (Hok1 & Hinv1 & Hcur1 & Hp1 & Hn1).
  set (s1 := enter (LPipe pi) s) in *.
  pose proof (pc_queue _ _ _ _ _ _ _ _ Hcall) as Hq. apply runs_bind. eapply runs_mono.
  { apply (piperead_loop_spec (Z.to_nat n) s1 r T pr prc pi addr 0 p q); try done; try lia.
    apply (pc_bytes _ _ _ _ _ _ _ _ Hcall). }
  intros v s2 (T' & p' & m & Hmn & Hmq & Ht & Hpd & Hq' & Hpk & Hall & Hv).
  rewrite Z.add_0_r in *.
  pose proof (piped_procs_ok _ _ _ _ Hpd Hok1) as Hok2.
  assert (Hcp2 : c_proc (k_cpu s2) = Some pr) by (by apply (piped_current _ _ _ _ _ _ _ Hpd Hcur1)).
  apply runs_bind.
  eapply runs_mono; [by apply (wakeup_at_spec s2 (Some (ChPipeWrite pi)))|].
  intros [] s3 Hs3. rewrite Hcp2 in Hs3. apply runs_bind.
  apply (runs_release _ s); [apply (pc_procs _ _ _ _ _ _ _ _ Hcall)|
    apply (pc_lock _ _ _ _ _ _ _ _ Hcall)| |].
  { eapply (pipe_call_leave s pr prc r T pi p q _ s2 T' p' _ s3 (c_intena (k_cpu s))); try done. }
  intros j Hj. cbn [runs ret].
  destruct (pipe_call_leave s pr prc r T pi p q _ s2 T' p' _ s3 j Hcall Ht Hpd Hs3 Hj)
    as (_ & Ht' & Hctl & Hpp & Hmem & Hprocs).
  exists T', p', m. split; [lia|]. do 6 (split; [done|]). split; [by rewrite Hmem|].
  assert (Hvm : v = Z.of_nat m \/ v = -1 /\ m = O) by lia. split; [|done].
  intros Hr. destruct (Hall Hr). lia.
Qed.
Lemma intena_piperead s s0 r T pr pi addr n q v s' :
  intena_only s s0 -> piperead_post r s0 T pr pi addr n q v s' -> piperead_post r s T pr pi addr n q v s'.
Proof.
  intros Hs (T' & p' & m & H1 & H2 & H3 & H). exists T', p', m. do 2 (split; [done|]).
  split; [by eapply intena_touches|]. by destruct Hs as (i0 & _ & ->).
Qed.

Lemma piperead_spec `{!LayoutOk L} s pr prc r T pi p q addr n :
  pipe_call s pr prc r T pi p q -> (0 < wait_fuel)%nat -> 0 <= n < 2^31 ->
  q <> [] \/ p.(pi_writeopen) = 0 ->
  runs (piperead pi addr n s) (piperead_post r s T pr pi addr n q).
Proof.
  intros Hcall0 Hfuel Hn Hready. pose proof (pc_cur _ _ _ _ _ _ _ _ Hcall0) as (Hpr & Hcp & _).
  unfold piperead. apply runs_bind.
  apply (runs_curproc s pr); [apply (pc_procs _ _ _ _ _ _ _ _ Hcall0)|done|].
  intros s0 Hs0. pose proof (intena_call _ _ _ _ _ _ _ _ _ Hs0 Hcall0) as Hcall.
  apply runs_bind, runs_acquire; [apply (pc_lock _ _ _ _ _ _ _ _ Hcall)|].
  destruct (pipe_call_enter _ _ _ _ _ _ _ _ Hcall) as (_ & _ & _ & Hp1 & _).
  pose proof (pc_queue _ _ _ _ _ _ _ _ Hcall) as Hq.
  assert (Hwait : pipe_wait wait_fuel pr pi (enter (LPipe pi) s0) = Ok false (enter (LPipe pi) s0)).
  { destruct wait_fuel as [|f]; [lia|]. cbn [pipe_wait].
    rewrite (bind_ok _ _ _ _ _ (get_pipe_eq _ _ _ Hp1)).
    replace (pipe_empty p && negb (pi_writeopen p =? 0)) with false; [done|]. symmetry.
    apply andb_false_iff. destruct Hready as [Hne| ->]; [left|by right].
    destruct (pipe_empty p) eqn:E; [|done]. by apply (queue_empty p q Hq) in E. }
  rewrite (bind_ok _ _ _ _ _ Hwait). eapply runs_mono; [by eapply piperead_rest|].
  intros v s'. by apply intena_piperead.
Qed.

(** ** [pipewrite] *)

Lemma intena_only_trans s1 s2 s3 : intena_only s1 s2 -> intena_only s2 s3 -> intena_only s1 s3.
Proof.
  intros (i & Hi & ->) (j & Hj & ->). exists j. split; [|done].
  intros H. rewrite Hj by done. by apply Hi.
Qed.

(** A section in which nothing else happened. *)
Lemma leave_enter s lk j : scratch s j -> intena_only s (leave s j (enter lk s)).
Proof. intros Hj. exists j. split; [done|]. by destruct s. Qed.

Lemma killed_nested s pr prc r :
  procs_ok s -> 0 < c_noff (k_cpu s) -> current s pr prc r ->
  killed pr s = Ok (p_killed prc) s.
Proof. intros Hok Hn (Hpr & _ & Hl & _). by apply killed_inside. Qed.

Lemma peek_range u m T x b : peek u m T x = Some b -> 0 <= b < 256.
Proof. intros H. destruct (peek_userish _ _ _ _ _ H) as [_ ->]. apply load8_range. Qed.

(** One byte fetched from the writer. *)
Lemma write_step `{!LayoutOk L} s r T pr prc a :
  uinv s r T -> current s pr prc r ->
  runs (copyin (pagetable (p_as prc)) (u32 a) 1 s) (fun e s' => exists T',
    quiet r s T s' T' /\
    ((exists b, peek true (k_mem s) T (u32 a) = Some b) -> e.1 = 0) /\
    (e.1 = -1 \/ exists b, e = (0, [b]) /\ peek false (k_mem s') T' (u32 a) = Some b)).
Proof.
  intros Hinv Hcur. pose proof (current_running _ _ _ _ Hcur) as Hrun.
  destruct Hcur as (_ & _ & _ & Hwf & -> & _). pose proof (u32_range a) as Ha.
  pose proof (copyin_loop_spec 2 s r T prc (u32 a) 1 [] Hinv Hrun Hwf Ha
    ltac:(lia) ltac:(lia)) as H.
  pose proof (copyin_loop_ready 2 s r T (u32 a) 1 [] Hinv Ha ltac:(lia) ltac:(lia)) as H0.
  unfold copyin. change (S (Z.to_nat 1)) with 2%nat.
  destruct (copyin_loop 2 (idx2pa r) (u32 a) 1 [] s) as [e s'| |] eqn:E; try done.
  destruct H as (T' & Hq & He). exists T'. split; [done|].
  assert (Hself : u32 (u32 a + Z.of_nat 0) = u32 a)
    by (unfold u32; rewrite Z.add_0_r, Z.mod_mod; done).
  split.
  - intros [b Hb]. apply H0. intros x (j & Hj & ->). replace j with O by lia.
    rewrite Hself. by exists b.
  - destruct He as [He|(bs & -> & Hlen & Hbs)]; [by left|right].
    destruct bs as [|b [|? ?]]; simpl in Hlen; try lia. exists b. split; [done|].
    rewrite <- Hself. by apply (Hbs O).
Qed.

(** After the bytes [bs], at most [k] of them, were taken from [addr + i]... *)
Definition write_post (r : Z) (s : kstate) (T : Z -> option Z) (pi addr i : Z) (k : nat)
    (q : list Z) (v : option Z) (s' : kstate) : Prop :=
  exists T' p' bs, (length bs <= k)%nat /\ v = Some (i + Z.of_nat (length bs)) /\
    touches r s T (fun _ => False) s' T' /\ piped pi p' s s' /\ queue p' (q ++ bs) /\
    (forall j b, bs !! j = Some b ->
       peek false (k_mem s') T' (u32 (addr + i + Z.of_nat j)) = Some b) /\
    ((forall x, hits (u32 (addr + i)) k x -> exists b, peek true (k_mem s) T x = Some b) ->
       length bs = k).

Lemma write_post_none r s T pi addr i k q p s' T' :
  touches r s T (fun _ => False) s' T' -> piped pi p s s' -> queue p q ->
  ((forall x, hits (u32 (addr + i)) k x -> exists b, peek true (k_mem s) T x = Some b) -> k = O) ->
  write_post r s T pi addr i k q (Some i) s'.
Proof.
  intros Ht Hp Hq Hk. exists T', p, []. rewrite app_nil_r. split; [simpl; lia|].
  split; [simpl; f_equal; lia|]. do 3 (split; [done|]). split; [done|]. intros H.
  by rewrite Hk.
Qed.

Lemma quiet_piped r s T s' T' pi p :
  quiet r s T s' T' -> k_pipes s !! pi = Some p -> piped pi p s s'.
Proof.
  intros Hq Hp. exists s'. split; [apply (q_frame _ _ _ _ _ Hq)|].
  rewrite insert_id by done. rewrite <- (aframe_pipes _ _ (q_frame _ _ _ _ _ Hq)).
  by destruct s'.
Qed.

Lemma pipewrite_loop_spec `{!LayoutOk L} k fuel s r T pr prc pi addr i n p q :
  procs_ok s -> 0 < c_noff (k_cpu s) -> uinv s r T -> current s pr prc r ->
  k_pipes s !! pi = Some p -> queue p q -> p.(pi_readopen) <> 0 -> p_killed prc = 0 ->
  Z.of_nat (length q + k) <= PIPESIZE -> n = i + Z.of_nat k -> (k < fuel)%nat ->
  runs (pipewrite_loop fuel pr pi addr i n s) (write_post r s T pi addr i k q).
Proof.
  revert fuel s T i p q. induction k as [|k IH];
    intros fuel s T i p q Hok Hn Hinv Hcur Hp Hq Hopen Hkl Hroom -> Hfuel;
    (destruct fuel as [|fuel]; [lia|]); cbn [pipewrite_loop].
  { rewrite (proj2 (Z.ltb_ge i (i + Z.of_nat 0))) by lia.
    apply (write_post_none r s T pi addr i O q p s T); [by apply touches_refl|by apply piped_refl|done|done]. }
  rewrite (proj2 (Z.ltb_lt i (i + Z.of_nat (S k)))) by lia. rewrite (bind_ok _ _ _ _ _ (get_pipe_eq _ _ _ Hp)).
  replace (pi_readopen p =? 0) with false by lia.
  rewrite (bind_ok _ _ _ _ _ (killed_nested s pr prc r Hok Hn Hcur)), Hkl. cbn [negb Z.eqb].
  rewrite (bind_ok _ _ _ _ _ (get_pipe_eq _ _ _ Hp)).
  pose proof (queue_full p q Hq) as Hf. destruct (pipe_full p) eqn:Ef.
  { pose proof (proj1 Hf eq_refl). lia. }
  pose proof Hcur as (Hpr & _ & Hprc & _).
  rewrite (bind_ok _ _ _ _ _ (get_proc_eq s pr prc Hpr Hprc)). apply runs_bind.
  eapply runs_mono; [by apply (write_step s r T pr prc (addr + i))|].
  intros e s1 (T1 & Hqt & Hrd & He).
  pose proof (quiet_piped _ _ _ _ _ _ _ Hqt Hp) as Hpd1.
  assert (Hp1 : k_pipes s1 !! pi = Some p)
    by (rewrite (aframe_pipes _ _ (q_frame _ _ _ _ _ Hqt)); done).
  destruct He as [He|(b & -> & Hb)].
  { rewrite He. apply (write_post_none r s T pi addr i (S k) q p s1 T1); try done;
      [by apply quiet_touches|].
    intros Hr. rewrite Hrd in He; [done|]. apply Hr, hits_first; [apply u32_range|lia]. }
  cbn [fst snd Z.eqb nth]. rewrite (bind_ok _ _ _ _ _ (upd_pipe_eq _ (pipe_push b) _ _ Hp1)).
  set (s2 := set_pipes _ s1).
  assert (Hpd : piped pi (pipe_push b p) s s2).
  { exists s1. split; [apply (q_frame _ _ _ _ _ Hqt)|]. unfold s2.
    by rewrite (aframe_pipes _ _ (q_frame _ _ _ _ _ Hqt)). }
  assert (Ht : touches r s T (fun _ => False) s2 T1) by (by apply touches_set_pipes, quiet_touches).
  eapply runs_mono.
  { apply (IH fuel s2 T1 (i + 1) (pipe_push b p) (q ++ [b])); try done; try lia.
    - by eapply piped_procs_ok.
    - change (k_cpu s2) with (k_cpu s1). by rewrite (aframe_cpu s s1 Hn (q_frame _ _ _ _ _ Hqt)).
    - apply (to_inv _ _ _ _ _ _ Ht).
    - by eapply piped_current.
    - apply lookup_insert_eq.
    - by apply queue_push.
    - rewrite length_app. simpl. lia. }
  intros v s3 (T3 & p3 & bs & Hlen & -> & Ht3 & Hpd3 & Hq3 & Hbs & Hall).
  replace (addr + (i + 1)) with (addr + i + 1) in * by lia.
  exists T3, p3, (b :: bs). simpl length. split; [lia|]. split; [f_equal; lia|].
  split; [by eapply touches_trans|]. split; [by eapply piped_trans|].
  split; [by rewrite <- app_assoc in Hq3|]. split.
  - intros [|j] c Hj; simpl in Hj.
    + simplify_eq. rewrite Z.add_0_r. apply (to_out _ _ _ _ _ _ Ht3); [apply u32_range|by intros []|done].
    + replace (addr + i + Z.of_nat (S j)) with (addr + i + 1 + Z.of_nat j) by lia. by apply Hbs.
  - intros Hr. rewrite Hall; [done|]. intros x Hx.
    destruct (Hr x) as [c Hc]; [by apply hits_tail|]. exists c.
    apply (to_out _ _ _ _ _ _ Ht); [|by intros []|done]. destruct Hx as (? & _ & ->). apply u32_range.
Qed.

(** The whole call on an open pipe with room: the bytes [bs] are appended. *)
Definition pipewrite_post (r : Z) (s : kstate) (T : Z -> option Z) (pr pi addr n : Z)
    (q : list Z) (v : Z) (s' : kstate) : Prop :=
  exists T' p' bs, 0 <= v <= n /\ v = Z.of_nat (length bs) /\
    touches r s T (fun _ => False) s' T' /\ same_ctl s s' /\
    k_pipes s' = <[pi := p']> (k_pipes s) /\ queue p' (q ++ bs) /\
    k_procs s' = imap (fun i p => woken (Some pr) (Some (ChPipeRead pi)) (Z.of_nat i) p) (k_procs s) /\
    (forall j b, bs !! j = Some b ->
       peek false (k_mem s') T' (u32 (addr + Z.of_nat j)) = Some b) /\
    ((forall x, hits (u32 addr) (Z.to_nat n) x -> exists b, peek true (k_mem s) T x = Some b) ->
       v = n).

Lemma pipewrite_spec `{!LayoutOk L} s pr prc r T pi p q addr n :
  pipe_call s pr prc r T pi p q -> 0 <= n -> Z.of_nat (length q) + n <= PIPESIZE ->
  p.(pi_readopen) <> 0 -> p_killed prc = 0 ->
  runs (pipewrite pi addr n s) (pipewrite_post r s T pr pi addr n q).
Proof.
  intros Hcall0 Hn Hroom Hopen Hkl. pose proof (pc_cur _ _ _ _ _ _ _ _ Hcall0) as (Hpr & Hcp & _).
  unfold pipewrite. apply runs_bind.
  apply (runs_curproc s pr); [apply (pc_procs _ _ _ _ _ _ _ _ Hcall0)|done|].
  intros s0 Hs0. pose proof (intena_call _ _ _ _ _ _ _ _ _ Hs0 Hcall0) as Hcall.
  apply runs_bind, runs_acquire; [apply (pc_lock _ _ _ _ _ _ _ _ Hcall)|].
  destruct (pipe_call_enter _ _ _ _ _ _ _ _ Hcall) as (Hok1 & Hinv1 & Hcur1 & Hp1 & Hn1).
  set (s1 := enter (LPipe pi) s0) in *. apply runs_bind. eapply runs_mono.
  { apply (pipewrite_loop_spec (Z.to_nat n) _ s1 r T pr prc pi addr 0 n p q); try done; try lia.
    apply (pc_queue _ _ _ _ _ _ _ _ Hcall). }
  intros v s2 (T' & p' & bs & Hlen & -> & Ht & Hpd & Hq' & Hbs & Hall).
  rewrite Z.add_0_r in *. cbn [Z.add].
  pose proof (piped_procs_ok _ _ _ _ Hpd Hok1) as Hok2.
  assert (Hcp2 : c_proc (k_cpu s2) = Some pr) by (by apply (piped_current _ _ _ _ _ _ _ Hpd Hcur1)).
  apply runs_bind. eapply runs_mono; [by apply (wakeup_at_spec s2 (Some (ChPipeRead pi)))|].
  intros [] s3 Hs3. rewrite Hcp2 in Hs3. apply runs_bind.
  apply (runs_release _ s0); [apply (pc_procs _ _ _ _ _ _ _ _ Hcall)|
    apply (pc_lock _ _ _ _ _ _ _ _ Hcall)| |].
  { eapply (pipe_call_leave s0 pr prc r T pi p q _ s2 T' p' _ s3 (c_intena (k_cpu s0))); try done. }
  intros j Hj. cbn [runs ret].
  destruct (pipe_call_leave s0 pr prc r T pi p q _ s2 T' p' _ s3 j Hcall Ht Hpd Hs3 Hj)
    as (_ & Ht' & Hctl & Hpp & Hmem & Hprocs).
  exists T', p', bs. split; [lia|]. split; [done|].
  split; [by eapply intena_touches|]. destruct Hs0 as (i0 & _ & ->).
  do 4 (split; [done|]). split; [by rewrite Hmem|].
  intros Hr. pose proof (Hall Hr). lia.
Qed.

(** A writer that is killed, or has nobody to read, gets -1 and changes nothing. *)
Lemma pipewrite_refused `{!LayoutOk L} s pr prc r T pi p q addr n :
  pipe_call s pr prc r T pi p q -> 0 < n -> p.(pi_readopen) = 0 \/ p_killed prc <> 0 ->
  runs (pipewrite pi addr n s) (fun v s' => v = -1 /\ intena_only s s').
Proof.
  intros Hcall0 Hn Hbad. pose proof (pc_cur _ _ _ _ _ _ _ _ Hcall0) as (Hpr & Hcp & _).
  unfold pipewrite. apply runs_bind.
  apply (runs_curproc s pr); [apply (pc_procs _ _ _ _ _ _ _ _ Hcall0)|done|].
  intros s0 Hs0. pose proof (intena_call _ _ _ _ _ _ _ _ _ Hs0 Hcall0) as Hcall.
  apply runs_bind, runs_acquire; [apply (pc_lock _ _ _ _ _ _ _ _ Hcall)|].
  destruct (pipe_call_enter _ _ _ _ _ _ _ _ Hcall) as (Hok1 & Hinv1 & Hcur1 & Hp1 & Hn1).
  set (s1 := enter (LPipe pi) s0) in *. apply runs_bind. cbn [pipewrite_loop Nat.add].
  replace (0 <? n) with true by lia. rewrite (bind_ok _ _ _ _ _ (get_pipe_eq _ _ _ Hp1)).
  assert (Hk : exists v, (if pi_readopen p =? 0 then ret 1 else killed pr) s1 = Ok v s1 /\ v <> 0).
  { destruct (Z.eqb_spec (pi_readopen p) 0); [by exists 1|].
    exists (p_killed prc). split; [by eapply killed_nested|]. by destruct Hbad. }
  destruct Hk as (v & Hk & Hv). rewrite (bind_ok _ _ _ _ _ Hk).
  replace (v =? 0) with false by lia. cbn [negb]. apply runs_bind.
  apply (runs_release _ s0); [apply (pc_procs _ _ _ _ _ _ _ _ Hcall)|
    apply (pc_lock _ _ _ _ _ _ _ _ Hcall)|done|].
  intros j Hj. cbn [runs ret]. split; [done|]. eapply intena_only_trans; [exact Hs0|].
  by apply leave_enter.
Qed.
End transfer.
