(* ===== verification/PipeWait.v ===== *)
(** * Pipes: waiting

    The whole of [piperead] and [pipewrite], the sleeps included.  A call runs
    in stretches between the points where it gives up the CPU; other processes
    do as they like in between, as long as the pipe is a queue of bytes and the
    caller's address space is one when the caller runs again. *)

From S2P Require Import Prelude CMem Machine Sv32 Spinlock Kalloc KallocProof.
From S2P Require Import KallocSpec Sched AddrSpace Regions PageTable UserMem UserCopy.
From S2P Require Import UserSpec UserFrame SchedProof SchedSpec SleepProof Printf Pipe PipeProof.

(** The state of a call: the translations of the caller, the bytes in the pipe
    and the bytes the call has written so far. *)
Record pview := mkView { v_map : Z -> option Z; v_queue : list Z; v_sent : list Z }.

Section wait.
Context `{L : Layout, W : WaitFuel} (pr r pi : Z) (s : kstate).
Hypothesis (Hpr : 0 <= pr < NPROC) (Hcur : c_proc (k_cpu s) = Some pr) (Hnoff : c_noff (k_cpu s) = 0).
Hypothesis (Hok : procs_ok s) (Hlk : lock_free s (LPipe pi)).

(** What others leave when the caller is dispatched again. *)
Definition pipe_others (g : pview) (s : kstate) (g' : pview) (s' : kstate) : Prop :=
  resumed s s' /\ v_sent g' = v_sent g /\ uinv s' r (v_map g') /\
  exists prc p, current s' pr prc r /\ k_pipes s' !! pi = Some p /\ queue p (v_queue g') /\
    Forall (fun b => 0 <= b < 256) (v_queue g').

(** The caller at the beginning of a stretch, before it takes the lock: the
    state others left, but for the control state and its own channel. *)
Definition begins (t s0 : kstate) : Prop :=
  same_but_procs t s0 /\ (k_procs s0 = k_procs t \/ k_procs s0 = awake pr (k_procs t)).
Definition stretch (g : pview) (t s0 : kstate) : Prop :=
  begins t s0 /\ same_ctl s s0 /\ exists prc p, pipe_call s0 pr prc r (v_map g) pi p (v_queue g).

Lemma pipe_sleep {A} (G : pview -> kstate -> pview -> kstate -> Prop) ch s0 s1 prc g0 t g (k : K A) Q :
  same_ctl s s0 -> procs_ok s0 -> lock_free s0 (LPipe pi) -> in_crit (LPipe pi) s0 s1 ->
  length (k_procs s1) = Z.to_nat NPROC -> k_procs s1 !! Z.to_nat pr = Some prc -> lock_free s0 LKmem ->
  G g0 t g (with_ctl (enter (LProc pr) s0) (set_procs (<[Z.to_nat pr := slept ch prc]> (k_procs s1)) s1)) ->
  (forall g' t' s0', stretch g' t' s0' -> v_sent g' = v_sent g ->
     rely G pipe_others g' t' (k (enter (LPipe pi) s0')) Q) ->
  rely G pipe_others g0 t ((sleep ch (LPipe pi) ;; k) s1) Q.
Proof.
  intros HC Hok0 Hlk0 Hin Hl1 Hprc Hkm HG HQ. apply rely_bind.
  assert (Hn0 : c_noff (k_cpu s0) = 0) by (destruct HC as (_ & _ & _ & ->); done).
  assert (Hc0 : c_proc (k_cpu s0) = Some pr) by (destruct HC as (_ & _ & -> & _); done).
  destruct (sleep_block pr (LPipe pi) s0 Hpr Hc0 Hn0 Hok0 Hlk0 ltac:(done) ch s1 prc Hin Hl1 Hprc) as (kk & -> & Hk).
  set (sb := with_ctl _ _) in *. cbn [rely]. exists g. split; [done|].
  intros g' t' (Hres & Hsent & Hu & prc' & p' & (C1 & C2 & C3 & C4) & Hp & Hq & Hb).
  destruct (Hk t' Hres) as (j & Hj & ->). cbn [rely].
  assert (Hlt : length (k_procs t') = Z.to_nat NPROC).
  { destruct Hres as (_ & _ & _ & _ & ->). subst sb. cbn. by rewrite length_insert. }
  set (s0' := leave s0 j _). assert (HC' : same_ctl s0 s0') by apply leave_same_ctl.
  apply (HQ g' t' s0'); [|done]. split; [split; [by destruct t'|by right]|]. split; [by etrans|].
  destruct Hok0 as (Hcpu & _ & Hf).
  assert (Hcpu' : cpu_ok s0') by (by eapply same_ctl_cpu_ok).
  exists (set_p_chan None prc'), p'. split.
  - split; [done|]. split; [cbn; unfold awake; by rewrite length_alter|].
    intros i Hi. eapply same_ctl_lock_free; [exact HC'|by apply Hf].
  - by eapply same_ctl_lock_free.
  - eapply (uinv_same_mem t'); [done|done| |done]. by eapply same_ctl_lock_free.
  - split; [done|]. split; [cbn; by rewrite Hc0|]. split; [|done]. cbn. unfold awake.
    by rewrite list_lookup_alter_eq, C3.
  - exact Hp.
  - exact Hq.
  - exact Hb.
Qed.

(** ** [piperead] *)

(** Waiting to read changes nothing. *)
Definition pipe_waits (g : pview) (s : kstate) (g' : pview) (s' : kstate) : Prop :=
  g' = g /\ same_but_procs s s'.

Lemma pipe_wait_spec fuel : forall g t s0, stretch g t s0 ->
  rely pipe_waits pipe_others g t (pipe_wait fuel pr pi (enter (LPipe pi) s0)) (fun g' t' dead s1 =>
    exists s0' prc p, s1 = enter (LPipe pi) s0' /\ begins t' s0' /\ same_ctl s s0' /\
      pipe_call s0' pr prc r (v_map g') pi p (v_queue g') /\
      if (dead : bool) then v_queue g' = [] /\ p.(pi_writeopen) <> 0 /\ p_killed prc <> 0
      else v_queue g' <> [] \/ p.(pi_writeopen) = 0).
Proof.
  induction fuel as [|f IH]; intros g t s0 (Hb & HC & prc & p & Hcall); [done|]. cbn [pipe_wait].
  destruct (pipe_call_enter _ _ _ _ _ _ _ _ Hcall) as (Hok1 & _ & Hcur1 & Hp1 & Hn1).
  rewrite (bind_ok _ _ _ _ _ (get_pipe_eq _ _ _ Hp1)).
  pose proof (queue_empty p _ (pc_queue _ _ _ _ _ _ _ _ Hcall)) as He.
  destruct (pipe_empty p) eqn:Ee; cbn [andb].
  2: { cbn [rely ret]. exists s0, prc, p. do 4 (split; [done|]). left. intros E. by apply He in E. }
  destruct (Z.eqb_spec (pi_writeopen p) 0) as [Hw|Hw]; cbn [negb].
  { cbn [rely ret]. exists s0, prc, p. do 4 (split; [done|]). by right. }
  rewrite (bind_ok _ _ _ _ _ (killed_nested _ _ _ _ Hok1 Hn1 Hcur1)).
  destruct (Z.eqb_spec (p_killed prc) 0) as [Hk|Hk]; cbn [negb].
  2: { cbn [rely ret]. exists s0, prc, p. do 4 (split; [done|]). split; [by apply He|done]. }
  destruct Hok1 as (_ & Hl1 & _). pose proof Hcur1 as (_ & _ & Hprc & _).
  eapply (pipe_sleep pipe_waits (ChPipeRead pi) s0 (enter (LPipe pi) s0) prc g t g); try done.
  - apply (pc_procs _ _ _ _ _ _ _ _ Hcall).
  - apply (pc_lock _ _ _ _ _ _ _ _ Hcall).
  - by destruct (ui_alloc _ _ _ (pc_space _ _ _ _ _ _ _ _ Hcall)) as (_ & ? & _).
  - split; [done|]. eapply same_but_procs_trans; [apply Hb|]. by destruct s0.
  - intros g' t' s0' Hs _. by apply IH.
Qed.

(** The call in its last stretch: it took bytes, or it was killed waiting. *)
Definition read_or_killed (addr n : Z) (g : pview) (t : kstate) (v : Z) (s' : kstate) : Prop :=
  exists s0 prc p, begins t s0 /\ same_ctl s s0 /\ pipe_call s0 pr prc r (v_map g) pi p (v_queue g) /\
    ((v_queue g <> [] \/ p.(pi_writeopen) = 0) /\ piperead_post r s0 (v_map g) pr pi addr n (v_queue g) v s' \/
     v = -1 /\ v_queue g = [] /\ p.(pi_writeopen) <> 0 /\ p_killed prc <> 0 /\ intena_only s0 s').

Lemma piperead_waits `{!LayoutOk L} prc T p q addr n :
  pipe_call s pr prc r T pi p q -> 0 <= n < 2^31 ->
  rely pipe_waits pipe_others (mkView T q []) s (piperead pi addr n s) (read_or_killed addr n).
Proof.
  intros Hcall0 Hn. unfold piperead.
  apply rely_bind, runs_rely, (runs_curproc s pr); [apply Hok|done|]. intros s0 Hs0.
  pose proof (intena_call _ _ _ _ _ _ _ _ _ Hs0 Hcall0) as Hcall.
  apply rely_bind, runs_rely, runs_acquire; [apply (pc_lock _ _ _ _ _ _ _ _ Hcall)|].
  apply rely_bind. eapply rely_mono.
  { apply (pipe_wait_spec wait_fuel (mkView T q []) s s0). destruct Hs0 as (i & _ & ->).
    split; [split; [by destruct s|by left]|]. split; [done|]. by exists prc, p. }
  intros g t dead s1 (s0' & prc' & p' & -> & Hb & HC & Hcall' & Hd). destruct dead.
  - apply rely_bind, runs_rely, (runs_release _ s0'); [apply (pc_procs _ _ _ _ _ _ _ _ Hcall')|
      apply (pc_lock _ _ _ _ _ _ _ _ Hcall')|done|].
    intros j Hj. cbn. exists s0', prc', p'. do 3 (split; [done|]). right. split; [done|].
    do 3 (split; [apply Hd|]). by apply leave_enter.
  - apply runs_rely. eapply runs_mono; [by eapply piperead_rest|]. intros v s' Hv.
    exists s0', prc', p'. do 3 (split; [done|]). by left.
Qed.

(** ** [pipewrite] *)

Section write.
Context (addr n : Z).

(** The bytes [bs] lie in the caller's memory, after the [k] first. *)
Definition from_user (m : mem) (T : Z -> option Z) (k : nat) (bs : list Z) : Prop :=
  forall j b, bs !! j = Some b -> peek false m T (u32 (addr + Z.of_nat (k + j))) = Some b.
Definition readers_woken (l : list proc) : list proc :=
  imap (fun i p => woken (Some pr) (Some (ChPipeRead pi)) (Z.of_nat i) p) l.

(** A stretch that ends asleep has appended bytes until the pipe was full, and
    woken the readers. *)
Definition pipe_sends (g : pview) (t : kstate) (g' : pview) (s' : kstate) : Prop :=
  exists s0 prc p bs, begins t s0 /\
    v_sent g' = v_sent g ++ bs /\ v_queue g' = v_queue g ++ bs /\ Z.of_nat (length (v_queue g')) = PIPESIZE /\
    touches r s0 (v_map g) (fun _ => False) s' (v_map g') /\
    k_pipes s' = <[pi := p]> (k_pipes s0) /\ queue p (v_queue g') /\
    from_user (k_mem s') (v_map g') (length (v_sent g)) bs /\
    k_procs s' = <[Z.to_nat pr := slept (ChPipeWrite pi) prc]> (readers_woken (k_procs s0)).

(** Inside a stretch, after [bs]. *)
Record writing (g : pview) (t s0 : kstate) (prc : proc) (p0 : pipe) (T : Z -> option Z) (p : pipe)
    (bs : list Z) (s1 : kstate) : Prop := {
  wr_begins : begins t s0;
  wr_ctl : same_ctl s s0;
  wr_call : pipe_call s0 pr prc r (v_map g) pi p0 (v_queue g);
  wr_touches : touches r (enter (LPipe pi) s0) (v_map g) (fun _ => False) s1 T;
  wr_piped : piped pi p (enter (LPipe pi) s0) s1;
  wr_queue : queue p (v_queue g ++ bs);
  wr_bytes : from_user (k_mem s1) T (length (v_sent g)) bs;
  wr_open : p.(pi_readopen) = p0.(pi_readopen);
}.

Lemma writing_start g t s0 prc p : begins t s0 -> same_ctl s s0 ->
  pipe_call s0 pr prc r (v_map g) pi p (v_queue g) ->
  writing g t s0 prc p (v_map g) p [] (enter (LPipe pi) s0).
Proof.
  intros Hb HC Hcall. destruct (pipe_call_enter _ _ _ _ _ _ _ _ Hcall) as (_ & Hu & _ & Hp & _).
  split; [done|done|done|by apply touches_refl|by apply piped_refl| |done|done].
  rewrite app_nil_r. apply (pc_queue _ _ _ _ _ _ _ _ Hcall).
Qed.

Lemma writing_inside g t s0 prc p0 T p bs s1 : writing g t s0 prc p0 T p bs s1 ->
  procs_ok s1 /\ 0 < c_noff (k_cpu s1) /\ uinv s1 r T /\ current s1 pr prc r /\ k_pipes s1 !! pi = Some p /\
  c_proc (k_cpu s1) = Some pr.
Proof.
  intros [Hb HC Hcall Ht Hpd _ _ _]. destruct (pipe_call_enter _ _ _ _ _ _ _ _ Hcall) as (Hok1 & _ & Hcur1 & _ & Hn1).
  pose proof (piped_current _ _ _ _ _ _ _ Hpd Hcur1) as Hc.
  split; [by eapply piped_procs_ok|]. split; [|split; [apply (to_inv _ _ _ _ _ _ Ht)|split; [done|split; [|apply Hc]]]].
  - destruct Hpd as (sx & Hf & ->). cbn. by rewrite (aframe_cpu _ _ Hn1 Hf).
  - destruct Hpd as (sx & Hf & ->). apply lookup_insert_eq.
Qed.

(** One more byte. *)
Lemma writing_push g t s0 prc p0 T p bs s1 s2 T2 b :
  writing g t s0 prc p0 T p bs s1 -> pipe_full p = false -> quiet r s1 T s2 T2 ->
  peek false (k_mem s2) T2 (u32 (addr + Z.of_nat (length (v_sent g) + length bs))) = Some b ->
  writing g t s0 prc p0 T2 (pipe_push b p) (bs ++ [b]) (set_pipes (<[pi := pipe_push b p]> (k_pipes s2)) s2).
Proof.
  intros Hw Hf Hq Hb. destruct (writing_inside _ _ _ _ _ _ _ _ _ Hw) as (_ & _ & _ & _ & Hp & _).
  destruct Hw as [W1 W2 W3 W4 W5 W6 W7 W8]. pose proof (quiet_touches _ _ _ _ _ Hq) as Ht. split; try done.
  - eapply touches_trans; [exact W4|by apply touches_set_pipes| |]; done.
  - eapply piped_trans; [exact W5|]. exists s2. split; [apply (q_frame _ _ _ _ _ Hq)|].
    by rewrite (aframe_pipes _ _ (q_frame _ _ _ _ _ Hq)).
  - rewrite app_assoc. by apply queue_push.
  - intros j c [Hj|[Hj Hc]]%lookup_app_Some.
    + apply (to_out _ _ _ _ _ _ Ht); [apply u32_range|by intros []|]. by apply W7.
    + apply list_lookup_singleton_Some in Hc as [Hc <-]. by replace j with (length bs) by lia.
Qed.

(** The pipe is full: the readers are woken and the caller sleeps. *)
Lemma writing_sleep {A} g t s0 prc p0 T p bs s1 (k : K A) Q :
  writing g t s0 prc p0 T p bs s1 -> pipe_full p = true ->
  (forall g' t' s0', stretch g' t' s0' -> v_sent g' = v_sent g ++ bs ->
     rely pipe_sends pipe_others g' t' (k (enter (LPipe pi) s0')) Q) ->
  rely pipe_sends pipe_others g t ((wakeup (ChPipeRead pi) ;; sleep (ChPipeWrite pi) (LPipe pi) ;; k) s1) Q.
Proof.
  intros Hw Hf HQ. destruct (writing_inside _ _ _ _ _ _ _ _ _ Hw) as (Hok1 & Hn1 & _ & _ & _ & Hcp1).
  destruct Hw as [W1 W2 W3 W4 W5 W6 W7 W8]. apply rely_bind, runs_rely.
  eapply runs_mono; [by apply (wakeup_at_spec s1 (Some (ChPipeRead pi)))|]. intros [] s2 Hs2. rewrite Hcp1 in Hs2.
  destruct (pipe_call_leave s0 pr prc r _ pi p0 _ _ s1 T p _ s2 (c_intena (k_cpu s0)) W3 W4 W5 Hs2 ltac:(done))
    as (Hin & _ & _ & Hpp & Hmem & Hprocs). cbn [leave set_cpu set_csr set_locks k_pipes k_mem k_procs] in Hpp, Hmem, Hprocs.
  pose proof (pc_procs _ _ _ _ _ _ _ _ W3) as Hok0. pose proof Hok0 as (Hcpu0 & Hl0 & Hf0).
  destruct (ui_alloc _ _ _ (pc_space _ _ _ _ _ _ _ _ W3)) as (_ & Hkm & _).
  assert (Hl2 : length (k_procs s2) = Z.to_nat NPROC) by (rewrite Hprocs, length_imap; done).
  destruct (lookup_lt_is_Some_2 (k_procs s2) (Z.to_nat pr) ltac:(rewrite Hl2; lia)) as [prc2 Hprc2].
  eapply (pipe_sleep pipe_sends (ChPipeWrite pi) s0 s2 prc2 g t (mkView T (v_queue g ++ bs) (v_sent g ++ bs))); try done.
  - apply (pc_lock _ _ _ _ _ _ _ _ W3).
  - exists s0, prc2, p, bs. do 3 (split; [done|]). split; [by apply (queue_full p)|].
    split; [|split; [done|split; [done|split; [cbn; by rewrite Hmem|cbn; by rewrite Hprocs]]]].
    eapply (touches_same_mem r (enter (LPipe pi) s0)); [done| | | |exact W4].
    + destruct Hs2 as (i & _ & ->). done.
    + by apply (enter_cpu_ok (LProc pr)).
    + by apply (enter_lock_free (LProc pr) LKmem s0).
Qed.

(** A caller that is killed, or has nobody to read, gives up. *)
Definition gave_up (prc : proc) (p : pipe) (s0 s' : kstate) : Prop :=
  (p.(pi_readopen) = 0 \/ p_killed prc <> 0) /\ intena_only s0 s'.
(** If the caller itself can read all the bytes, all are taken. *)
Definition complete (g : pview) (s0 : kstate) (v : Z) : Prop :=
  (forall x, hits (u32 addr) (Z.to_nat n) x -> exists b, peek true (k_mem s0) (v_map g) x = Some b) -> v = n.

Definition write_ends (g : pview) (t : kstate) (v : option Z) (s' : kstate) : Prop :=
  exists s0 prc p0, match v with
  | Some v => exists T p bs, writing g t s0 prc p0 T p bs s' /\
      v = Z.of_nat (length (v_sent g) + length bs) /\ v <= n /\ complete g s0 v
  | None => begins t s0 /\ same_ctl s s0 /\ pipe_call s0 pr prc r (v_map g) pi p0 (v_queue g) /\
      gave_up prc p0 s0 s'
  end.

Lemma readable_now g t s0 prc p0 T p bs s1 i :
  writing g t s0 prc p0 T p bs s1 -> 0 <= i < n ->
  (forall x, hits (u32 addr) (Z.to_nat n) x -> exists b, peek true (k_mem s0) (v_map g) x = Some b) ->
  exists b, peek true (k_mem s1) T (u32 (addr + i)) = Some b.
Proof.
  intros Hw Hi Hr. destruct (Hr (u32 (addr + i))) as [b Hb].
  { exists (Z.to_nat i). split; [lia|]. unfold u32. rewrite Z2Nat.id, Zplus_mod_idemp_l by lia. done. }
  exists b. apply (to_out _ _ _ _ _ _ (wr_touches _ _ _ _ _ _ _ _ _ Hw)); [apply u32_range|by intros []|done].
Qed.

Lemma pipewrite_loop_waits `{!LayoutOk L} fuel : forall g t s0 prc p0 T p bs s1,
  writing g t s0 prc p0 T p bs s1 -> Z.of_nat (length (v_sent g) + length bs) <= n ->
  (bs = [] -> s1 = enter (LPipe pi) s0) -> (bs <> [] -> p0.(pi_readopen) <> 0 /\ p_killed prc = 0) ->
  rely pipe_sends pipe_others g t
    (pipewrite_loop fuel pr pi addr (Z.of_nat (length (v_sent g) + length bs)) n s1) write_ends.
Proof.
  induction fuel as [|f IH]; intros g t s0 prc p0 T p bs s1 Hw Hle H0 H1; [done|]. cbn [pipewrite_loop].
  set (i := Z.of_nat _) in *. destruct (Z.ltb_spec i n) as [Hlt|Hge].
  2: { cbn [rely ret]. exists s0, prc, p0, T, p, bs. do 3 (split; [done|]). intros _. lia. }
  destruct (writing_inside _ _ _ _ _ _ _ _ _ Hw) as (Hok1 & Hn1 & Hu1 & Hcur1 & Hp1 & Hcp1).
  rewrite (bind_ok _ _ _ _ _ (get_pipe_eq _ _ _ Hp1)).
  assert (Hk : (if pi_readopen p =? 0 then ret 1 else killed pr) s1 =
    Ok (if pi_readopen p =? 0 then 1 else p_killed prc) s1).
  { destruct (_ =? _); [done|]. by eapply killed_nested. }
  rewrite (bind_ok _ _ _ _ _ Hk). pose proof (wr_open _ _ _ _ _ _ _ _ _ Hw) as Hop.
  destruct (negb ((if pi_readopen p =? 0 then 1 else p_killed prc) =? 0)) eqn:Ek.
  { assert (Hbad : p0.(pi_readopen) = 0 \/ p_killed prc <> 0).
    { destruct (Z.eqb_spec (pi_readopen p) 0); [left; lia|right]. by destruct (Z.eqb_spec (p_killed prc) 0). }
    assert (bs = []) as -> by (destruct bs; [done|]; destruct H1 as [? ?]; [done|]; by destruct Hbad).
    rewrite H0 by done. pose proof (wr_call _ _ _ _ _ _ _ _ _ Hw) as Hcall.
    apply rely_bind, runs_rely, (runs_release _ s0); [apply (pc_procs _ _ _ _ _ _ _ _ Hcall)|
      apply (pc_lock _ _ _ _ _ _ _ _ Hcall)|done|].
    intros j Hj. cbn. exists s0, prc, p0. split; [apply Hw|]. split; [apply Hw|]. split; [done|].
    split; [done|]. by apply leave_enter. }
  assert (Hgood : p0.(pi_readopen) <> 0 /\ p_killed prc = 0).
  { destruct (Z.eqb_spec (pi_readopen p) 0); [done|]. split; [lia|]. by destruct (Z.eqb_spec (p_killed prc) 0). }
  rewrite (bind_ok _ _ _ _ _ (get_pipe_eq _ _ _ Hp1)). destruct (pipe_full p) eqn:Ef.
  { eapply writing_sleep; [done|done|]. intros g' t' s0' (Hb & HC & prc' & p' & Hcall') Hsent.
    replace i with (Z.of_nat (length (v_sent g') + length (@nil Z))) by (rewrite Hsent, length_app; unfold i; cbn; lia).
    eapply IH; [by apply writing_start|rewrite Hsent, length_app; cbn; lia|done|done]. }
  pose proof Hcur1 as (Hpr0 & _ & Hprc & _).
  rewrite (bind_ok _ _ _ _ _ (get_proc_eq s1 pr prc Hpr0 Hprc)). apply rely_bind, runs_rely.
  eapply runs_mono; [by apply (write_step s1 r T pr prc (addr + i))|].
  intros e s2 (T2 & Hqt & Hrd & He). destruct He as [He|(b & -> & Hb)].
  - rewrite He. cbn [Z.eqb rely ret]. exists s0, prc, p0, T2, p, bs. split; [|split; [done|split; [done|]]].
    + pose proof (quiet_touches _ _ _ _ _ Hqt) as Ht. destruct Hw as [W1 W2 W3 W4 W5 W6 W7 W8]. split; try done.
      * by eapply touches_trans; [exact W4|exact Ht|..].
      * eapply piped_trans; [exact W5|]. by eapply quiet_piped.
      * intros j c Hj. apply (to_out _ _ _ _ _ _ Ht); [apply u32_range|by intros []|]. by apply W7.
    + intros Hr. rewrite Hrd in He; [done|]. eapply readable_now; [exact Hw|unfold i; lia|done].
  - cbn [fst snd Z.eqb nth].
    assert (Hp2 : k_pipes s2 !! pi = Some p) by (rewrite (aframe_pipes _ _ (q_frame _ _ _ _ _ Hqt)); done).
    rewrite (bind_ok _ _ _ _ _ (upd_pipe_eq _ (pipe_push b) _ _ Hp2)).
    replace (i + 1) with (Z.of_nat (length (v_sent g) + length (bs ++ [b]))) by (rewrite length_app; unfold i; cbn; lia).
    eapply IH; [by eapply writing_push|rewrite length_app; cbn; lia|by destruct bs|done].
Qed.

(** The call in its last stretch. *)
Definition written (g : pview) (t : kstate) (v : Z) (s' : kstate) : Prop :=
  exists s0 prc p, begins t s0 /\ same_ctl s s0 /\ pipe_call s0 pr prc r (v_map g) pi p (v_queue g) /\
    (v = -1 /\ gave_up prc p s0 s' \/
     exists T' p' bs, v = Z.of_nat (length (v_sent g) + length bs) /\ v <= n /\ complete g s0 v /\
       touches r s0 (v_map g) (fun _ => False) s' T' /\ same_ctl s0 s' /\
       k_pipes s' = <[pi := p']> (k_pipes s0) /\ queue p' (v_queue g ++ bs) /\
       from_user (k_mem s') T' (length (v_sent g)) bs /\ k_procs s' = readers_woken (k_procs s0)).

Lemma pipewrite_waits `{!LayoutOk L} prc T p q :
  pipe_call s pr prc r T pi p q -> 0 <= n ->
  rely pipe_sends pipe_others (mkView T q []) s (pipewrite pi addr n s) written.
Proof.
  intros Hcall0 Hn. unfold pipewrite.
  apply rely_bind, runs_rely, (runs_curproc s pr); [apply Hok|done|]. intros s0 Hs0.
  pose proof (intena_call _ _ _ _ _ _ _ _ _ Hs0 Hcall0) as Hcall.
  apply rely_bind, runs_rely, runs_acquire; [apply (pc_lock _ _ _ _ _ _ _ _ Hcall)|].
  apply rely_bind. eapply rely_mono.
  { eapply (pipewrite_loop_waits _ (mkView T q []) s s0 prc p T p []); [|cbn; lia|done|done].
    apply (writing_start (mkView T q [])); [|by destruct Hs0 as (i & _ & ->)|done].
    destruct Hs0 as (i & _ & ->). split; [by destruct s|by left]. }
  intros g t [v|] s1 (s0' & prc' & p0 & Hv).
  2: { destruct Hv as (Hb & HC & Hcall' & Hg). cbn. exists s0', prc', p0. do 3 (split; [done|]). by left. }
  destruct Hv as (T' & p' & bs & Hw & -> & Hvn & Hall).
  destruct (writing_inside _ _ _ _ _ _ _ _ _ Hw) as (Hok1 & _ & _ & _ & _ & Hcp1).
  destruct Hw as [W1 W2 W3 W4 W5 W6 W7 W8]. apply rely_bind, runs_rely.
  eapply runs_mono; [by apply (wakeup_at_spec s1 (Some (ChPipeRead pi)))|]. intros [] s2 Hs2. rewrite Hcp1 in Hs2.
  apply rely_bind, runs_rely, (runs_release _ s0'); [apply (pc_procs _ _ _ _ _ _ _ _ W3)|
    apply (pc_lock _ _ _ _ _ _ _ _ W3)| |].
  { eapply (pipe_call_leave s0' pr prc' r _ pi p0 _ _ s1 T' p' _ s2 (c_intena (k_cpu s0'))); try done. }
  intros j Hj.
  destruct (pipe_call_leave s0' pr prc' r _ pi p0 _ _ s1 T' p' _ s2 j W3 W4 W5 Hs2 Hj)
    as (_ & Ht & Hctl & Hpp & Hmem & Hprocs).
  cbn [rely ret]. exists s0', prc', p0. do 3 (split; [done|]). right. exists T', p', bs.
  do 7 (split; [done|]). split; [by rewrite Hmem|done].
Qed.
End write.
End wait.
