(* ===== verification/PipeSpec.v ===== *)
(** * Pipes: results

    [pipe.c] as a bounded queue of bytes: the ring buffer refines the queue,
    and the two system calls move bytes between the queue and the memory of
    the calling process. *)

From S2P Require Import Prelude CMem Machine Sv32 Spinlock Kalloc KallocProof.
From S2P Require Import KallocSpec Sched AddrSpace Regions PageTable UserMem UserCopy.
From S2P Require Import UserSpec UserFrame SchedProof SchedSpec SleepProof Printf Pipe PipeProof PipeWait.

(** C7: the ring buffer is a queue of at most [PIPESIZE] bytes.  Any sequence of
    guarded pushes and pops, as the two loops perform them, returns the bytes
    the abstract queue returns, in order, and leaves a buffer that holds the
    abstract queue, also when the 32-bit counters wrap around. *)
Theorem pipe_fifo (ops : list pipe_op) (p : pipe) (q : list Z) :
  queue p q ->
  queue (run_ops pipe_exec ops p).1 (run_ops queue_exec ops q).1 /\
  (run_ops pipe_exec ops p).2 = (run_ops queue_exec ops q).2.
Proof. apply run_ops_refines. Qed.

Section results.
Context `{L : Layout, W : WaitFuel}.

Lemma pipe_caller s pr prc r T pi p q :
  pipe_call s pr prc r T pi p q -> 0 <= pr < NPROC /\ c_proc (k_cpu s) = Some pr.
Proof.
  intros [(_ & Hl & _) _ _ (H0 & Hc & Hp & _) _ _ _]. apply lookup_lt_Some in Hp. split; [lia|done].
Qed.


(** C33: a write to a pipe appends the caller's bytes in order and waits only
    while the pipe is full.  Whatever other processes do while it sleeps, each
    stretch that ends asleep has appended the next bytes found at the addresses
    from [addr] until the pipe was full and woken exactly the readers asleep on
    it, and has changed no byte the process can read and no page of another
    address space.  When it returns, then its last stretch has appended the
    following bytes, woken the readers and returned the number of bytes appended
    in all stretches together, at most [n], and [n] itself if the caller could
    read all its bytes at the beginning of that stretch; or, with no reader left
    or the caller killed, it returned -1 and changed nothing in that stretch,
    however many bytes earlier stretches had appended.  It stops otherwise only
    if woken in vain more often than the bound on waiting; a write for which
    there is room, and one with no reader left or by a killed caller, returns at
    once. *)
Theorem pipewrite_correct `{!LayoutOk L} (s : kstate) (pr : Z) (prc : proc) (r : Z)
    (T : Z -> option Z) (pi : Z) (p : pipe) (q : list Z) (addr n : Z) :
  pipe_call s pr prc r T pi p q -> c_noff (k_cpu s) = 0 -> 0 <= n ->
  rely (pipe_sends pr r pi addr) (pipe_others pr r pi) (mkView T q []) s (pipewrite pi addr n s)
    (written pr r pi s addr n) /\
  (Z.of_nat (length q) + n <= PIPESIZE -> p.(pi_readopen) <> 0 -> p_killed prc = 0 ->
   runs (pipewrite pi addr n s) (pipewrite_post r s T pr pi addr n q)) /\
  (0 < n -> p.(pi_readopen) = 0 \/ p_killed prc <> 0 ->
   runs (pipewrite pi addr n s) (fun v s' => v = -1 /\ intena_only s s')).
Proof.
  intros Hcall Hn0 Hn. destruct (pipe_caller _ _ _ _ _ _ _ _ Hcall) as [Hpr Hc]. split.
  - eapply pipewrite_waits; try done; [apply (pc_procs _ _ _ _ _ _ _ _ Hcall)|apply (pc_lock _ _ _ _ _ _ _ _ Hcall)].
  - split; [intros Hroom Hopen Hk; by eapply pipewrite_spec|]. intros Hpos Hbad. by eapply pipewrite_refused.
Qed.
End results.

(** ** Witnesses *)

(** A buffer whose counters are about to wrap. *)
Definition demo_pipe : pipe :=
  pipe_push 66 (pipe_push 65 (mkPipe ∅ (2^32 - 1) (2^32 - 1) 1 1)).

Lemma demo_pipe_queue : queue demo_pipe [65; 66].
Proof.
  assert (H0 : queue (mkPipe ∅ (2^32 - 1) (2^32 - 1) 1 1) []) by (split; done).
  apply (queue_push _ [65] 66); [|done]. by apply (queue_push _ [] 65).
Qed.

Lemma pipe_fifo_witness :
  queue (run_ops pipe_exec [Pop; Push 7; Pop; Pop; Pop] demo_pipe).1 [] /\
  (run_ops pipe_exec [Pop; Push 7; Pop; Pop; Pop] demo_pipe).2 =
    [Some 65; None; Some 66; Some 7; None].
Proof. apply (pipe_fifo [Pop; Push 7; Pop; Pop; Pop] demo_pipe [65; 66] demo_pipe_queue). Defined.

(** A process with an empty address space calls the pipe at [KERNBASE]. *)
Definition demo_locks (l : gmap lockid spinlock) : gmap lockid spinlock :=
  <[LPipe KERNBASE := mkLock 0 false "pipe"]>
    (foldr (fun i m => <[LProc i := mkLock 0 false "proc"]> m) l (seqZ 0 NPROC)).

Lemma demo_locks_proc l i :
  0 <= i < NPROC -> demo_locks l !! LProc i = Some (mkLock 0 false "proc").
Proof.
  intros Hi. unfold demo_locks. rewrite lookup_insert_ne by done.
  assert (Hin : i ∈ seqZ 0 NPROC) by (apply elem_of_seqZ; lia). revert Hin.
  induction (seqZ 0 NPROC) as [|j js IH]; [by intros ?%elem_of_nil|]. intros Hin. simpl.
  destruct (decide (j = i)) as [->|]; [apply lookup_insert_eq|].
  rewrite lookup_insert_ne by congruence. apply IH. by apply elem_of_cons in Hin as [->|].
Qed.

Lemma demo_locks_kmem l : demo_locks l !! LKmem = l !! LKmem.
Proof.
  unfold demo_locks. rewrite lookup_insert_ne by done.
  induction (seqZ 0 NPROC) as [|j js IH]; [done|]. simpl. by rewrite lookup_insert_ne.
Qed.

Lemma demo_pipe_call : exists s prc r T,
  @pipe_call small_layout s 0 prc r T KERNBASE demo_pipe [65; 66] /\ p_killed prc = 0 /\ c_noff (k_cpu s) = 0.
Proof.
  destruct demo_empty as (s & r & Hinv).
  set (prc := set_p_as (set_pagetable (idx2pa r) (p_as demo_proc)) demo_proc).
  set (s' := set_pipes {[KERNBASE := demo_pipe]} (set_locks (demo_locks (k_locks s))
    (set_cpu (mkCpu (Some 0) 0 0) (set_procs (prc :: replicate (Z.to_nat NPROC - 1) zero_proc) s)))).
  destruct (ui_alloc _ _ _ Hinv) as (Hc & (nm & Hl) & Hk).
  assert (Hc' : cpu_ok s').
  { destruct Hc as (H1 & H2 & H3). split; [exact H1|]. split; [done|]. done. }
  exists s', prc, r, (fun _ => None). split; [|split; reflexivity]. split.
  - split; [done|]. split; [done|]. intros i Hi. exists "proc". by apply demo_locks_proc.
  - exists "pipe". apply lookup_insert_eq.
  - eapply (uinv_same_mem s); [done|done| |done]. exists nm.
    change (demo_locks (k_locks s) !! LKmem = Some (mkLock 0 false nm)).
    rewrite demo_locks_kmem. exact Hl.
  - split; [done|]. split; [done|]. split; [done|].
    split; [destruct demo_as_wf as [H1 H2 H3 H4 H5 H6]; split; assumption|]. split; [done|].
    intros i Hi. assert (i = 0) as -> by (cbn in Hi; lia). vm_compute. intuition congruence.
  - apply lookup_singleton_eq.
  - apply demo_pipe_queue.
  - repeat constructor; lia.
Qed.


Lemma pipewrite_correct_witness : exists s prc r T,
  p_killed prc = 0 /\
  rely (@pipe_sends small_layout 0 r KERNBASE 0xfff) (@pipe_others small_layout 0 r KERNBASE)
    (mkView T [65; 66] []) s (@pipewrite small_layout 1%nat KERNBASE 0xfff 1000 s)
    (@written small_layout 0 r KERNBASE s 0xfff 1000) /\
  (Z.of_nat (length [65; 66]) + 1000 <= PIPESIZE -> demo_pipe.(pi_readopen) <> 0 -> p_killed prc = 0 ->
   runs (@pipewrite small_layout 1%nat KERNBASE 0xfff 1000 s)
     (@pipewrite_post small_layout r s T 0 KERNBASE 0xfff 1000 [65; 66])) /\
  (0 < 1000 -> demo_pipe.(pi_readopen) = 0 \/ p_killed prc <> 0 ->
   runs (@pipewrite small_layout 1%nat KERNBASE 0xfff 1000 s) (fun v s' => v = -1 /\ intena_only s s')).
Proof.
  destruct demo_pipe_call as (s & prc & r & T & Hcall & Hk & Hn). exists s, prc, r, T.
  split; [exact Hk|].
  apply (@pipewrite_correct small_layout 1%nat small_layout_ok s 0 prc r T KERNBASE
    demo_pipe [65; 66] 0xfff 1000 Hcall Hn).
  lia.
Defined.
