(* ===== verification/ConsoleProof.v ===== *)
(** * The console: properties

    The ring buffer and its three indices hold the committed input and the line
    being typed; each typed character is a step of a line discipline. *)

From S2P Require Import Prelude CMem Machine Sv32 Spinlock Kalloc Printf PrintfProof Sched AddrSpace.
From S2P Require Import SchedProof Console.

(** ** The line discipline *)

(** Committed input and the line that can still be edited; what is echoed; whether
    a reader is woken. *)
Definition typed (c : Z) : Z := if c =? carriage_return then newline else c.
Definition ends_line (c n : Z) : bool := (c =? newline) || (c =? ctrl_D) || (n =? INPUT_BUF_SIZE).

Definition edit (q line : list Z) (c : Z) : list Z * list Z * list Z * bool :=
  if c =? ctrl_P then (q, line, [], false)
  else if c =? ctrl_U then (q, [], replicate (length line) BACKSPACE, false)
  else if (c =? ctrl_H) || (c =? del_key) then
    (q, removelast line, match line with [] => [] | _ => [BACKSPACE] end, false)
  else
    let n := Z.of_nat (length q + length line) in
    if (c =? 0) || (INPUT_BUF_SIZE <=? n) then (q, line, [], false)
    else if ends_line (typed c) (n + 1) then (q ++ line ++ [typed c], [], [typed c], true)
    else (q, line ++ [typed c], [typed c], false).

(** ** The ring *)

Record ring (t : cons_t) (q line : list Z) : Prop := {
  rg_r : 0 <= cons_r t < 2^32;
  rg_w : cons_w t = u32 (cons_r t + Z.of_nat (length q));
  rg_e : cons_e t = u32 (cons_r t + Z.of_nat (length q + length line));
  rg_len : Z.of_nat (length q + length line) <= INPUT_BUF_SIZE;
  rg_full : Z.of_nat (length q + length line) = INPUT_BUF_SIZE -> line = [];
  rg_chars : forall i c, (q ++ line) !! i = Some c -> cons_at t (cons_r t + Z.of_nat i) = c;
  rg_line : Forall (fun c => c <> newline /\ c <> ctrl_D) line;
}.

Lemma ring_index x : u32 x mod INPUT_BUF_SIZE = x mod INPUT_BUF_SIZE.
Proof. unfold u32, INPUT_BUF_SIZE. zlia. Qed.
Lemma cons_at_eq t i : cons_at t i = aget (cons_buf t) (i mod INPUT_BUF_SIZE).
Proof. unfold cons_at. by rewrite ring_index. Qed.

Section ring.
Context (t : cons_t) (q line : list Z) (H : ring t q line).

Lemma ring_line : (cons_e t =? cons_w t) = match line with [] => true | _ => false end.
Proof.
  rewrite (rg_e _ _ _ H), (rg_w _ _ _ H). pose proof (rg_len _ _ _ H) as Hl. unfold INPUT_BUF_SIZE in Hl.
  destruct line as [|c l]; simpl length in *; [by rewrite Nat.add_0_r, Z.eqb_refl|].
  apply Z.eqb_neq. unfold u32. zlia.
Qed.
Lemma ring_used : u32 (cons_e t - cons_r t) = Z.of_nat (length q + length line).
Proof.
  rewrite (rg_e _ _ _ H). pose proof (rg_len _ _ _ H) as Hl. unfold INPUT_BUF_SIZE in Hl.
  pose proof (rg_r _ _ _ H). unfold u32. zlia.
Qed.

(** Taking the last character of the line back. *)
Lemma ring_erase l c :
  line = l ++ [c] -> ring (set_cons_e (u32 (cons_e t - 1)) t) q l /\ cons_at t (cons_e t - 1) = c.
Proof.
  intros ->. destruct H as [Hr Hw He Hl Hf Hc Hn]. rewrite length_app in He, Hl, Hf. simpl in He, Hl, Hf. split.
  - split; simpl; try done.
    + rewrite He. unfold u32. rewrite Zminus_mod_idemp_l. f_equal. lia.
    + lia.
    + intros E. lia.
    + intros i x Hi. rewrite <- (Hc i x); [done|]. rewrite app_assoc. by apply lookup_app_l_Some.
    + by apply Forall_app in Hn as [? _].
  - rewrite <- (Hc (length q + length l)%nat c).
    + rewrite He, !cons_at_eq. f_equal. unfold u32, INPUT_BUF_SIZE. zlia.
    + rewrite app_assoc, lookup_app_r by (rewrite length_app; lia). by rewrite length_app, Nat.sub_diag.
Qed.

(** Storing one more. *)
Definition stored (c : Z) : cons_t :=
  set_cons_e (u32 (cons_e t + 1)) (set_cons_buf (<[cons_e t mod INPUT_BUF_SIZE := c mod 256]> (cons_buf t)) t).

Lemma ring_store c :
  0 <= c < 256 -> Z.of_nat (length q + length line) < INPUT_BUF_SIZE ->
  (forall i x, (q ++ line ++ [c]) !! i = Some x -> cons_at (stored c) (cons_r t + Z.of_nat i) = x) /\
  cons_e (stored c) = u32 (cons_r t + Z.of_nat (length q + length (line ++ [c]))).
Proof.
  intros Hc Hl. destruct H as [Hr Hw He _ _ Hch Hn]. split.
  - intros i x Hi. rewrite cons_at_eq. unfold stored. cbn [cons_buf set_cons_e set_cons_buf]. unfold aget.
    rewrite He, ring_index. rewrite app_assoc in Hi. apply lookup_app_Some in Hi as [Hi|[Hge Hi]].
    + rewrite lookup_insert_ne; [by rewrite <- (Hch i x Hi), cons_at_eq|].
      apply lookup_lt_Some in Hi. rewrite length_app in Hi. unfold INPUT_BUF_SIZE in *. zlia.
    + rewrite length_app in Hge, Hi. apply list_lookup_singleton_Some in Hi as [Hi <-].
      replace (Z.of_nat i) with (Z.of_nat (length q + length line)) by lia.
      rewrite lookup_insert_eq. simpl. by rewrite Z.mod_small.
  - simpl. rewrite He, length_app. unfold u32. rewrite Zplus_mod_idemp_l. f_equal. simpl. lia.
Qed.

Lemma ring_typed c :
  0 < c < 256 -> Z.of_nat (length q + length line) < INPUT_BUF_SIZE ->
  if ends_line c (Z.of_nat (length q + length line) + 1)
  then ring (set_cons_w (cons_e (stored c)) (stored c)) (q ++ line ++ [c]) []
  else ring (stored c) q (line ++ [c]).
Proof.
  intros Hc Hl. destruct (ring_store c ltac:(lia) Hl) as [Hat He]. pose proof H as [Hr Hw _ _ _ _ Hn].
  rewrite length_app in He. cbn [length] in He. unfold ends_line. case_match eqn:E.
  - split; cbn [cons_r cons_w cons_e set_cons_w]; rewrite ?length_app; simpl length; try done.
    + rewrite He, Nat.add_0_r. done.
    + lia.
    + intros i x Hi. rewrite app_nil_r in Hi. by apply Hat.
  - apply orb_false_iff in E as [E E3]. apply orb_false_iff in E as [E1 E2].
    split; rewrite ?length_app; simpl length; try done.
    + lia.
    + intros E4. apply Z.eqb_neq in E3. lia.
    + apply Forall_app. split; [done|]. repeat constructor; lia.
Qed.
End ring.

(** ** Interrupts *)

Lemma upd_cons_eq f s : upd_cons f s = Ok tt (set_cons (f (k_cons s)) s).
Proof. done. Qed.

(** [cs] given to [consputc] *)
Definition echoed (cs : list Z) (s : kstate) : kstate := sent s (mjoin (cons_chars <$> cs)).

Lemma echoed_app cs cs' s1 : echoed cs' (echoed cs s1) = echoed (cs ++ cs') s1.
Proof. unfold echoed. by rewrite sent_app, fmap_app, join_app. Qed.
Lemma erase_one_eq s :
  cpu_ok s -> 0 < c_noff (k_cpu s) ->
  erase_one s = Ok tt (echoed [BACKSPACE] (set_cons (set_cons_e (u32 (cons_e (k_cons s) - 1)) (k_cons s)) s)).
Proof.
  intros Hc Hn. unfold erase_one. rewrite (bind_ok _ _ _ _ _ (upd_cons_eq _ s)).
  by rewrite consputc_eq.
Qed.

Lemma kill_line_spec fuel line : forall s q,
  cpu_ok s -> 0 < c_noff (k_cpu s) -> ring (k_cons s) q line -> (length line < fuel)%nat ->
  exists t, ring t q [] /\ kill_line fuel s = Ok tt (echoed (replicate (length line) BACKSPACE) (set_cons t s)).
Proof.
  revert line. induction fuel as [|f IH]; intros line s q Hc Hn Hr Hf; [lia|]. cbn [kill_line].
  rewrite (bind_ok _ _ s (k_cons s) s) by done. rewrite (ring_line _ _ _ Hr).
  destruct line as [|c0 l0] using rev_ind; [exists (k_cons s); split; [done|]|].
  { unfold echoed. simpl. rewrite sent_nil. by destruct s. }
  clear IHl0. destruct (ring_erase _ _ _ Hr l0 c0 eq_refl) as [Hr' ->].
  assert (Hc0 : c0 <> newline).
  { pose proof (rg_line _ _ _ Hr) as Hl. apply Forall_app in Hl as [_ Hl]. rewrite Forall_singleton in Hl. apply Hl. }
  replace (match l0 ++ [c0] with [] => true | _ => false end) with false by (by destruct l0).
  destruct (Z.eqb_spec c0 newline); [done|]. cbn [negb andb].
  rewrite (bind_ok _ _ _ _ _ (erase_one_eq s Hc Hn)). set (s1 := echoed _ _).
  rewrite length_app in Hf |- *. simpl in Hf.
  destruct (IH l0 s1 q) as (t & Ht & ->); [done|done|done|lia|]. exists t. split; [done|]. f_equal.
  unfold s1. rewrite Nat.add_comm. cbn [length Nat.add replicate].
  change (BACKSPACE :: replicate (length l0) BACKSPACE) with ([BACKSPACE] ++ replicate (length l0) BACKSPACE).
  rewrite <- echoed_app. by destruct s.
Qed.

(** Inside a section [printf] leaves only its text. *)
Lemma printf_inside s fmt ap :
  cpu_ok s -> 0 < c_noff (k_cpu s) -> lock_free s LPr -> is_Some (render (S (length fmt)) fmt ap) ->
  runs (printf fmt ap s) (fun _ s' => exists out, s' = sent s out).
Proof.
  intros Hc Hn Hl [cs Hcs]. eapply runs_mono; [by apply (printf_spec s fmt ap cs)|].
  intros _ s' (j & Hj & ->). exists (mjoin (cons_chars <$> cs)). rewrite (Hj Hn). by destruct s as [[]].
Qed.

Lemma procdump_spec s :
  procs_ok s -> 0 < c_noff (k_cpu s) -> lock_free s LPr ->
  runs (procdump s) (fun _ s' => exists out, s' = sent s out).
Proof.
  intros (Hc & Hlen & Hl) Hn Hp. unfold procdump. apply runs_bind.
  eapply runs_mono; [by apply printf_inside; [done..|exists [10]]|]. intros _ s1 [o1 ->].
  apply (runs_for (fun _ s' => exists out, s' = sent s out)); [by exists o1| |done].
  intros i s2 Hi [o2 ->]. destruct (procs_lookup s i) as [p Hpp]; [done|lia|].
  apply runs_bind. rewrite (get_proc_eq (sent s o2) i p) by (done || lia). cbn [runs].
  case_decide; [by exists o2|]. apply runs_bind.
  eapply runs_mono; [apply printf_inside; try done; apply render_erase; by eexists|]. intros _ s3 [o3 ->].
  eapply runs_mono; [by apply printf_inside; [done..|exists [10]]|]. intros _ s4 [o4 ->].
  rewrite !sent_app. by eexists.
Qed.

(** The state after input: text sent, another buffer, other process states. *)
Definition after_input (s : kstate) (out : list Z) (t : cons_t) (l : list proc) : kstate :=
  set_procs l (set_cons t (sent s out)).
Definition readers_woken (s : kstate) : list proc :=
  imap (fun i p => woken (c_proc (k_cpu s)) (Some ChCons) (Z.of_nat i) p) (k_procs s).

Lemma after_echo s cs t : echoed cs (set_cons t s) = after_input s (mjoin (cons_chars <$> cs)) t (k_procs s).
Proof. by destruct s. Qed.
Lemma after_nothing s : s = after_input s [] (k_cons s) (k_procs s).
Proof. unfold after_input. rewrite sent_nil. by destruct s. Qed.

(** What one character did. *)
Definition input_step (s : kstate) (q line : list Z) (c : Z) (s' : kstate) : Prop :=
  exists t out, s' = after_input s out t (if (edit q line c).2 then readers_woken s else k_procs s) /\
    ring t (edit q line c).1.1.1 (edit q line c).1.1.2 /\
    (c <> ctrl_P -> out = mjoin (cons_chars <$> (edit q line c).1.2)).

(** The default case of the switch. *)
Definition cons_input (c : Z) : K unit :=
  t <- gets k_cons ;;
  if negb (c =? 0) && (u32 (t.(cons_e) - t.(cons_r)) <? INPUT_BUF_SIZE) then
    let c := if c =? carriage_return then newline else c in
    consputc c ;;
    upd_cons (fun t =>
      set_cons_e (u32 (t.(cons_e) + 1))
        (set_cons_buf (<[t.(cons_e) mod INPUT_BUF_SIZE := c mod 256]> t.(cons_buf)) t)) ;;
    t <- gets k_cons ;;
    if (c =? newline) || (c =? ctrl_D) ||
       (u32 (t.(cons_e) - t.(cons_r)) =? INPUT_BUF_SIZE) then
      upd_cons (set_cons_w t.(cons_e)) ;;
      wakeup ChCons
    else ret tt
  else ret tt.

Lemma cons_input_spec s q line c :
  procs_ok s -> 0 < c_noff (k_cpu s) -> ring (k_cons s) q line -> 0 <= c < 256 ->
  c <> ctrl_P -> c <> ctrl_U -> c <> ctrl_H -> c <> del_key ->
  runs (cons_input c s) (fun _ => input_step s q line c).
Proof.
  intros Hok Hn Hr Hc H1 H2 H3 H4. unfold cons_input, input_step, edit.
  rewrite (proj2 (Z.eqb_neq _ _) H1), (proj2 (Z.eqb_neq _ _) H2), (proj2 (Z.eqb_neq _ _) H3), (proj2 (Z.eqb_neq _ _) H4).
  cbv zeta. cbn [orb]. rewrite (bind_ok _ _ s (k_cons s) s) by done. rewrite (ring_used _ _ _ Hr).
  set (n := Z.of_nat (length q + length line)). fold (typed c). rewrite Z.ltb_antisym, <- negb_orb.
  destruct ((c =? 0) || (INPUT_BUF_SIZE <=? n)) eqn:Efull; cbn [negb].
  { exists (k_cons s), []. split; [apply after_nothing|]. done. }
  apply orb_false_iff in Efull as [Ez Efull]. apply Z.eqb_neq in Ez. apply Z.leb_gt in Efull.
  assert (Ht : 0 < typed c < 256) by (unfold typed, newline; destruct (c =? carriage_return); lia).
  pose proof (ring_typed _ _ _ Hr (typed c) Ht Efull) as Hring. fold n in Hring.
  rewrite (bind_ok _ _ _ _ _ (consputc_eq s (typed c) (proj1 Hok) Hn)).
  rewrite (bind_ok _ _ _ _ _ (upd_cons_eq _ _)). set (t := stored (k_cons s) (typed c)) in Hring.
  change (set_cons _ (sent s (cons_chars (typed c)))) with (set_cons t (sent s (cons_chars (typed c)))).
  set (s2 := set_cons t _). rewrite (bind_ok _ _ s2 t s2) by done.
  assert (Hused : u32 (cons_e t - cons_r t) = n + 1).
  { destruct (ring_store _ _ _ Hr (typed c) ltac:(lia) Efull) as [_ He]. fold t in He. rewrite He, length_app.
    pose proof (rg_r _ _ _ Hr). change (cons_r t) with (cons_r (k_cons s)). simpl length.
    unfold u32, n, INPUT_BUF_SIZE in *. zlia. }
  rewrite Hused. fold (ends_line (typed c) (n + 1)). destruct (ends_line (typed c) (n + 1)).
  - rewrite (bind_ok _ _ _ _ _ (upd_cons_eq _ s2)). set (s3 := set_cons _ s2).
    eapply runs_mono; [apply (wakeup_at_spec s3 (Some ChCons)); exact Hok|].
    intros _ s' (j & Hj & ->). exists (set_cons_w (cons_e t) t), (cons_chars (typed c)).
    split; [|split; [done|intros _; simpl; by rewrite app_nil_r]].
    rewrite (Hj Hn). unfold s3, s2. by destruct s as [[]].
  - cbn [runs ret]. exists t, (cons_chars (typed c)). split; [unfold s2; by destruct s|].
    split; [done|intros _; simpl; by rewrite app_nil_r].
Qed.

Lemma consoleintr_spec s q line c :
  procs_ok s -> lock_free s LCons -> lock_free s LPr -> ring (k_cons s) q line -> 0 <= c < 256 ->
  runs (consoleintr c s) (fun _ s' => exists j s1, scratch s j /\ input_step s q line c s1 /\
    s' = set_cpu (mkCpu (c_proc (k_cpu s)) (c_noff (k_cpu s)) j) s1).
Proof.
  intros Hok Hl Hp Hr Hc. unfold consoleintr. apply runs_bind, runs_acquire; [done|].
  set (s1 := enter LCons s).
  assert (Hok1 : procs_ok s1).
  { destruct Hok as (? & ? & Hf). split; [by apply enter_cpu_ok|]. split; [done|].
    intros i Hi. apply enter_lock_free; [done|]. by apply Hf. }
  assert (Hn1 : 0 < c_noff (k_cpu s1)) by (destruct Hok as [(_ & ? & _) _]; simpl; lia).
  assert (Hp1 : lock_free s1 LPr) by (by apply enter_lock_free).
  apply runs_bind. apply (runs_mono _ (fun _ => input_step s1 q line c)).
  - destruct (Z.eqb_spec c ctrl_P) as [->|H1].
    { eapply runs_mono; [by apply procdump_spec|]. intros _ s2 [out ->]. exists (k_cons s), out.
      split; [by destruct s|]. done. }
    destruct (Z.eqb_spec c ctrl_U) as [->|H2].
    { destruct (kill_line_spec (Z.to_nat (INPUT_BUF_SIZE + 1)) line s1 q) as (t & Ht & ->);
        [apply Hok1|done|done|pose proof (rg_len _ _ _ Hr); lia|].
      exists t, (mjoin (cons_chars <$> replicate (length line) BACKSPACE)). split; [apply after_echo|]. done. }
    destruct ((c =? ctrl_H) || (c =? del_key)) eqn:E.
    { rewrite (bind_ok _ _ s1 (k_cons s) s1) by done. rewrite (ring_line _ _ _ Hr). unfold input_step, edit.
      rewrite (proj2 (Z.eqb_neq _ _) H1), (proj2 (Z.eqb_neq _ _) H2), E.
      destruct line as [|x l] using rev_ind; cbn [negb].
      { exists (k_cons s), []. split; [apply (after_nothing s1)|]. done. }
      replace (match l ++ [x] with [] => true | _ => false end) with false by (by destruct l). cbn [negb].
      rewrite (erase_one_eq s1 (proj1 Hok1) Hn1). rewrite removelast_last.
      eexists _, _. split; [apply after_echo|]. split; [by apply (ring_erase _ _ _ Hr l x)|]. intros _. by destruct l. }
    apply orb_false_iff in E as [H3%Z.eqb_neq H4%Z.eqb_neq]. by apply cons_input_spec.
  - intros _ s2 (t & out & -> & Ht & Hout). apply (runs_release _ s); [apply Hok|done|done|].
    intros j Hj. exists j, (after_input s out t (if (edit q line c).2 then readers_woken s else k_procs s)).
    split; [done|]. split; [by exists t, out|]. unfold s1. by destruct s.
Qed.

(** ** Everything the serial line has received *)

Fixpoint type_in (q line cs : list Z) : list Z * list Z * list Z * bool :=
  match cs with
  | [] => (q, line, [], false)
  | c :: cs' =>
      let '(q1, l1, o1, w1) := edit q line c in
      let '(q2, l2, o2, w2) := type_in q1 l1 cs' in
      (q2, l2, o1 ++ o2, w1 || w2)
  end.

Lemma woken_twice me ch i p : woken me ch i (woken me ch i p) = woken me ch i p.
Proof.
  unfold woken at 1. case_decide as H; [|done]. unfold woken in *. case_decide; [|done].
  destruct H as (_ & H & _). simpl in H. discriminate H.
Qed.
Lemma readers_woken_twice s l :
  l = k_procs s \/ l = readers_woken s ->
  imap (fun i p => woken (c_proc (k_cpu s)) (Some ChCons) (Z.of_nat i) p) l = readers_woken s.
Proof.
  intros [-> | ->]; [done|]. unfold readers_woken. apply list_eq. intros i. rewrite !list_lookup_imap.
  destruct (k_procs s !! i); simpl; [by rewrite woken_twice|done].
Qed.

(** [cs] received in state [s]. *)
Definition typed_in (s : kstate) (q line cs : list Z) (s' : kstate) : Prop :=
  exists j t out, scratch s j /\
    s' = set_cpu (mkCpu (c_proc (k_cpu s)) (c_noff (k_cpu s)) j)
           (set_uart (set_u_in [] (set_u_out (u_out (k_uart s) ++ out) (k_uart s)))
             (set_procs (if (type_in q line cs).2 then readers_woken s else k_procs s) (set_cons t s))) /\
    ring t (type_in q line cs).1.1.1 (type_in q line cs).1.1.2 /\
    (ctrl_P ∉ cs -> out = (fun c => c mod 256) <$> mjoin (cons_chars <$> (type_in q line cs).1.2)).

Lemma uart_drain_spec cs : forall s q line,
  procs_ok s -> lock_free s LCons -> lock_free s LPr -> ring (k_cons s) q line ->
  u_in (k_uart s) = cs -> Forall (fun c => 0 <= c < 256) cs ->
  runs (uart_drain (S (length cs)) s) (fun _ => typed_in s q line cs).
Proof.
  induction cs as [|c cs IH]; intros s q line Hok Hl Hp Hr Hin Hb; cbn [uart_drain length].
  { unfold uartgetc. rewrite (bind_ok _ _ s (-1) s) by (rewrite (bind_ok _ _ s (k_uart s) s) by done; by rewrite Hin).
    cbn. exists (c_intena (k_cpu s)), (k_cons s), []. split; [done|]. split; [|done].
    rewrite app_nil_r. destruct s as [[] ? ? ? ? ? ? ? ? ? ? ? []]. simpl in *. by subst. }
  apply Forall_cons in Hb as [Hc Hb]. set (s1 := set_uart (set_u_in cs (k_uart s)) s).
  rewrite (bind_ok _ _ s c s1) by (unfold uartgetc; rewrite (bind_ok _ _ s (k_uart s) s) by done; by rewrite Hin).
  destruct (Z.eqb_spec c (-1)); [lia|]. apply runs_bind.
  eapply runs_mono; [apply (consoleintr_spec s1 q line c); done|].
  intros _ s3 (j & s2 & Hj & (t & out & -> & Ht & Hout) & ->). set (s2 := set_cpu _ _).
  set (q1 := (edit q line c).1.1.1) in *. set (l1 := (edit q line c).1.1.2) in *.
  assert (Hok2 : procs_ok s2).
  { destruct Hok as (H1 & H2 & H3). split; [done|]. split; [|done]. simpl. destruct (edit q line c).2; [|done].
    unfold readers_woken. by rewrite length_imap. }
  eapply runs_mono; [apply (IH s2 q1 l1); done|].
  intros _ s4 (j' & t' & out' & Hj' & -> & Ht' & Hout').
  exists j', t', (((fun c => c mod 256) <$> out) ++ out').
  split; [intros Hn; rewrite (Hj' Hn); simpl; by apply Hj|]. cbn [type_in].
  destruct (edit q line c) as [[[q2 l2] o1] w1] eqn:Ee. cbn [fst snd] in q1, l1, Hout. subst q1 l1.
  destruct (type_in q2 l2 cs) as [[[q3 l3] o2] w2] eqn:Et. cbn [fst snd] in Ht', Hout' |- *.
  split; [|split; [done|]].
  - unfold s2, s1. rewrite app_assoc. destruct w1, w2; cbn [orb];
      [|destruct s as [[] ? ? ? ? ? ? ? ? ? ? ? []]; reflexivity..].
    pose proof (readers_woken_twice s (readers_woken s) ltac:(by right)) as Hw. rewrite <- Hw.
    destruct s as [[] ? ? ? ? ? ? ? ? ? ? ? []]; reflexivity.
  - intros Hno. rewrite Hout, Hout' by set_solver. by rewrite fmap_app, join_app, fmap_app.
Qed.
