(* ===== verification/ConsoleSpec.v ===== *)
(** * The console: reading, and results

    [consoleread] delivers a committed line to user memory; and the results for
    both ends of the input buffer. *)

From S2P Require Import Prelude CMem Machine Sv32 Spinlock Kalloc KallocProof.
From S2P Require Import KallocSpec Sched AddrSpace Regions PageTable UserMem UserCopy.
From S2P Require Import UserSpec UserFrame SchedProof SchedSpec Printf PrintfProof Pipe PipeProof PipeSpec.
From S2P Require Import Console ConsoleProof.

(** What a read of at most [n] characters takes off the committed input: up to and
    with a newline, or up to an end of file, which is consumed only by a read
    that has nothing else to return.  [None] when the read has to wait. *)
Fixpoint take_line (n : nat) (fresh : bool) (q : list Z) : option (list Z * list Z) :=
  match n, q with
  | O, _ => Some ([], q)
  | S _, [] => None
  | S n', c :: q' =>
      if c =? ctrl_D then Some ([], if fresh then q' else q)
      else if c =? newline then Some ([c], q')
      else '(d, rest) ← take_line n' false q'; Some (c :: d, rest)
  end.

Lemma take_line_length n fresh q d rest : take_line n fresh q = Some (d, rest) -> (length d <= n)%nat.
Proof.
  revert fresh q d rest. induction n as [|n IH]; intros fresh [|c q] d rest; simpl;
    try (intros [= <- <-]; simpl; lia); try done. destruct (c =? ctrl_D); [intros [= <- <-]; simpl; lia|].
  destruct (c =? newline); [intros [= <- <-]; simpl; lia|].
  destruct (take_line n false q) as [[d' q']|] eqn:E; [|done]. intros [= <- <-]. apply IH in E. simpl. lia.
Qed.

Lemma ring_pop t c q line :
  ring t (c :: q) line ->
  cons_at t (cons_r t) = c /\ (cons_r t =? cons_w t) = false /\ ring (set_cons_r (u32 (cons_r t + 1)) t) q line.
Proof.
  intros [Hr Hw He Hl Hf Hc Hn]. simpl length in *. split; [|split].
  - rewrite <- (Z.add_0_r (cons_r t)). by apply (Hc O).
  - apply Z.eqb_neq. rewrite Hw. unfold u32, INPUT_BUF_SIZE in *. zlia.
  - split; simpl.
    + apply u32_range.
    + rewrite Hw. unfold u32. rewrite Zplus_mod_idemp_l. f_equal. lia.
    + rewrite He. unfold u32. rewrite Zplus_mod_idemp_l. f_equal. lia.
    + lia.
    + intros E. lia.
    + intros i x Hi. rewrite <- (Hc (S i) x Hi), !cons_at_eq. simpl. f_equal.
      rewrite <- (Zplus_mod_idemp_l (u32 _)), ring_index, Zplus_mod_idemp_l. f_equal. lia.
    + done.
Qed.

Section read.
Context `{L : Layout, W : WaitFuel}.

(** The state after a transfer: user memory, the allocator and the console. *)
Definition consd (t : cons_t) (s s' : kstate) : Prop := exists sx, aframe s sx /\ s' = set_cons t sx.

Lemma consd_trans t1 t2 s s1 s2 : consd t1 s s1 -> consd t2 s1 s2 -> consd t2 s s2.
Proof.
  intros (sx & (k & m & i & Hi & ->) & ->) (sy & (k' & m' & i' & Hi' & ->) & ->).
  exists (set_cpu (mkCpu (c_proc (k_cpu s)) (c_noff (k_cpu s)) i') (set_mem m' (set_kmem k' s))).
  split; [exists k', m', i'; split; [|done]; intros H; rewrite Hi' by done; by apply Hi|]. done.
Qed.
Lemma consd_set t s : consd t s (set_cons t s).
Proof. by exists s. Qed.
Lemma consd_current t s s' pr prc r : consd t s s' -> current s pr prc r -> current s' pr prc r.
Proof.
  intros (sx & Hf & ->) (H1 & H2 & H3 & H4). destruct (aframe_procs _ _ Hf) as (E1 & E2 & _).
  unfold current. simpl. by rewrite E1, E2.
Qed.
Lemma consd_cpu t s s' : 0 < c_noff (k_cpu s) -> consd t s s' -> k_cpu s' = k_cpu s.
Proof. intros Hn (sx & Hf & ->). cbn [k_cpu set_cons]. by apply aframe_cpu. Qed.
Lemma uinv_set_cons t s r T : uinv s r T -> uinv (set_cons t s) r T.
Proof. intros [H1 H2 H3 H4 H5]. by split. Qed.
Lemma touches_set_cons t r s T h s' T' : touches r s T h s' T' -> touches r s T h (set_cons t s') T'.
Proof. intros [H1 H2 H3]. split; [by apply uinv_set_cons|done|done]. Qed.

(** One character to user memory, or a failure; none where the memory is present
    and private. *)
Lemma deliver `{!LayoutOk L} s r T pr prc a c :
  uinv s r T -> current s pr prc r -> cpu_ok s -> 0 < c_noff (k_cpu s) -> 0 <= c < 256 ->
  runs (either_copyout true (u32 a) [c] s) (fun e s' => exists T',
    writes_only r s T (hits (u32 a) 1) s' T' /\
    (ready (k_mem s) T (u32 a) -> e = 0 /\ forall x, leaf (k_mem s') T' x = leaf (k_mem s) T x) /\
    (e = -1 \/ e = 0 /\ peek false (k_mem s') T' (u32 a) = Some c)).
Proof.
  intros Hinv Hcur Hc Hn Hb. pose proof Hcur as (Hpr & Hcp & Hprc & _). unfold either_copyout. apply runs_bind.
  apply (runs_curproc s pr); [done|done|]. intros s0 Hs0.
  assert (s0 = s) as -> by (destruct Hs0 as (i & Hi & ->); rewrite (Hi Hn); by destruct s as [[]]).
  rewrite (bind_ok _ _ _ _ _ (get_proc_eq s pr prc Hpr Hprc)). by apply (read_step s r T pr prc a c).
Qed.

Lemma cons_wait_ready s : (0 < wait_fuel)%nat -> (cons_r (k_cons s) =? cons_w (k_cons s)) = false ->
  cons_wait wait_fuel s = Ok false s.
Proof.
  intros Hf He. destruct wait_fuel as [|f]; [lia|]. cbn [cons_wait].
  rewrite (bind_ok _ _ s (k_cons s) s) by done. by rewrite He.
Qed.

(** Of the characters [d] of [q], [m] have been delivered at [dst], and [rest] is
    left: what a read leaves, or what follows the character that could not be
    copied, which is lost. *)
Definition read_part (r : Z) (s : kstate) (T : Z -> option Z) (dst : Z) (d q q' : list Z) (m : nat)
    (rest : list Z) (s' : kstate) (T' : Z -> option Z) : Prop :=
  touches r s T (hits (u32 dst) (length d)) s' T' /\
  (m = length d /\ rest = q' \/ (m < length d)%nat /\ rest = drop (S m) q) /\
  ((forall x, hits (u32 dst) (length d) x -> ready (k_mem s) T x) -> m = length d) /\
  forall j b, (j < m)%nat -> d !! j = Some b -> peek false (k_mem s') T' (u32 (dst + Z.of_nat j)) = Some b.

Lemma read_part_none r s T dst q q' s' T' :
  touches r s T (hits (u32 dst) 0) s' T' -> read_part r s T dst [] q q' 0 q' s' T'.
Proof. intros Ht. split; [done|]. split; [by left|]. split; [done|]. intros j b Hj. lia. Qed.

Lemma consoleread_loop_spec `{!LayoutOk L} k : forall s r T pr prc dst n target q line d q',
  (0 < wait_fuel)%nat -> uinv s r T -> current s pr prc r -> cpu_ok s -> 0 < c_noff (k_cpu s) ->
  ring (k_cons s) q line -> Forall (fun c => 0 <= c < 256) q ->
  n = Z.of_nat k -> n <= target -> n < 2^31 -> take_line k (bool_decide (n = target)) q = Some (d, q') ->
  runs (consoleread_loop k true dst n target s) (fun v s' => exists m rest T' t, v = Some (n - Z.of_nat m) /\
    consd t s s' /\ ring t rest line /\ read_part r s T dst d q q' m rest s' T').
Proof.
  induction k as [|k IH]; intros s r T pr prc dst n target q line d q' Hf Hinv Hcur Hc Hn Hr Hb Hnk Ht Hn31 Htl.
  { simpl in Htl. injection Htl as <- <-. cbn. exists O, q, T, (k_cons s). split; [f_equal; lia|].
    split; [exists s; split; [reflexivity|]; by destruct s|]. split; [done|]. by apply read_part_none, touches_refl. }
  cbn [consoleread_loop]. destruct q as [|c q]; [done|]. cbn [take_line] in Htl.
  destruct (ring_pop _ _ _ _ Hr) as (Hat & Hne & Hr1). apply Forall_cons in Hb as [Hcb Hb].
  rewrite (bind_ok _ _ _ _ _ (cons_wait_ready s Hf Hne)). cbv iota.
  rewrite (bind_ok _ _ s (k_cons s) s) by done. cbv zeta. rewrite Hat.
  rewrite (bind_ok _ _ _ _ _ (upd_cons_eq _ s)). set (t1 := set_cons_r _ _) in *.
  destruct (c =? ctrl_D).
  { injection Htl as <- <-. case_bool_decide as Hnt.
    - replace (n <? target) with false by lia. cbn. exists O, q, T, t1. split; [f_equal; lia|].
      split; [apply consd_set|]. split; [done|]. by apply read_part_none, touches_set_cons, touches_refl.
    - replace (n <? target) with true by lia. rewrite (bind_ok _ _ _ _ _ (upd_cons_eq _ _)). cbn [runs ret].
      exists O, (c :: q), T, (k_cons s). split; [f_equal; simpl; lia|].
      assert (Hback : set_cons (set_cons_r (u32 (cons_r (k_cons (set_cons t1 s)) - 1)) (k_cons (set_cons t1 s))) (set_cons t1 s) = s).
      { unfold t1. cbn [k_cons set_cons cons_r set_cons_r]. unfold u32. rewrite Zminus_mod_idemp_l.
        rewrite Z.add_simpl_r, Z.mod_small by (pose proof (rg_r _ _ _ Hr); lia). by destruct s as [? ? ? ? ? ? ? ? ? ? ? []]. }
      rewrite Hback. split; [exists s; split; [reflexivity|]; by destruct s|]. split; [done|].
      by apply read_part_none, touches_refl. }
  set (s1 := set_cons t1 s). apply runs_bind.
  assert (Hnz : (0 < length d)%nat).
  { destruct (c =? newline); [injection Htl as <- <-; simpl; lia|]. destruct (take_line k false q) as [[]|]; simplify_eq/=. lia. }
  eapply runs_mono; [apply (deliver s1 r T pr prc dst c); try done; by apply uinv_set_cons|].
  intros e s2 (T2 & Hw & Hrd & He). change (k_mem s1) with (k_mem s) in Hrd.
  assert (Hd2 : consd t1 s s2).
  { destruct (wo_frame _ _ _ _ _ _ Hw) as (k' & m' & i' & Hi' & ->).
    exists (set_cpu (mkCpu (c_proc (k_cpu s)) (c_noff (k_cpu s)) i') (set_mem m' (set_kmem k' s))).
    split; [by exists k', m', i'|]. done. }
  assert (Hk2 : k_cons s2 = t1) by (by destruct (wo_frame _ _ _ _ _ _ Hw) as (k' & m' & i' & Hi' & ->)).
  assert (Ht2 : forall h, (forall x, hits (u32 dst) 1 x -> h x) -> touches r s T h s2 T2).
  { intros h Hh. apply (touches_trans r s T s1 T s2 T2 (fun _ => False) (hits (u32 dst) 1) h); [| |done|done].
    - by apply touches_set_cons, touches_refl.
    - by eapply writes_touches. }
  assert (Hfst : (forall x, hits (u32 dst) (length d) x -> ready (k_mem s) T x) -> ready (k_mem s) T (u32 dst))
    by (intros H; apply H, hits_first; [apply u32_range|done]).
  destruct He as [->|[-> Hpk]].
  { cbn. exists O, q, T2, t1. split; [f_equal; lia|]. split; [done|]. split; [done|].
    split; [apply Ht2; intros x; apply hits_mono; lia|]. split; [by right|].
    split; [intros H; by destruct (Hrd (Hfst H))|]. intros j b Hj. lia. }
  cbn [Z.eqb]. destruct (c =? newline).
  { injection Htl as <- <-. cbn. exists 1%nat, q, T2, t1. split; [f_equal; lia|]. split; [done|]. split; [done|].
    split; [by apply Ht2|]. split; [by left|]. split; [done|].
    intros [|j] b Hj Hl; [|lia]. injection Hl as <-. by rewrite Z.add_0_r. }
  destruct (take_line k false q) as [[d1 q1]|] eqn:Etl; [|done]. injection Htl as <- <-.
  eapply runs_mono.
  { apply (IH s2 r T2 pr prc (dst + 1) (n - 1) target q line d1 q1); try done; try lia.
    - apply (wo_inv _ _ _ _ _ _ Hw).
    - by eapply consd_current.
    - eapply same_ctl_cpu_ok; [|exact Hc]. destruct Hd2 as (sx & (k' & m' & i' & Hi' & ->) & ->). done.
    - by rewrite (consd_cpu _ _ _ Hn Hd2).
    - by rewrite Hk2.
    - by rewrite bool_decide_eq_false_2 by lia. }
  intros v s3 (m & rest & T3 & t3 & -> & Hd3 & Hr3 & Ht3 & Hm & Hall & Hpk3).
  exists (S m), rest, T3, t3. split; [f_equal; lia|]. split; [by eapply consd_trans|]. split; [done|].
  pose proof (take_line_length _ _ _ _ _ Etl) as Hlen. split; [|split; [|split]].
  - eapply (touches_trans r s T s2 T2); [by apply Ht2|exact Ht3| |].
    + intros x. apply hits_mono. simpl. lia.
    + intros x. apply hits_tail.
  - destruct Hm as [[-> ->]|[Hm ->]]; [by left|right]. split; [simpl; lia|done].
  - intros H. rewrite Hall; [done|]. intros x Hx. destruct (Hrd (Hfst H)) as [_ Hleaf].
    unfold ready. rewrite Hleaf. apply H. by apply hits_tail.
  - intros [|j] b Hj Hl; simpl in Hl.
    + injection Hl as <-. rewrite Z.add_0_r. apply (to_out _ _ _ _ _ _ Ht3); [apply u32_range| |done].
      apply hits_head_tail. lia.
    + replace (dst + Z.of_nat (S j)) with (dst + 1 + Z.of_nat j) by lia. apply Hpk3; [lia|done].
Qed.

(** A read by the process [pr]. *)
Record console_call (s : kstate) (pr : Z) (prc : proc) (r : Z) (T : Z -> option Z) (q line : list Z) : Prop := {
  cc_procs : procs_ok s;
  cc_lock : lock_free s LCons;
  cc_space : uinv s r T;
  cc_cur : current s pr prc r;
  cc_ring : ring (k_cons s) q line;
  cc_bytes : Forall (fun c => 0 <= c < 256) q;
}.

Lemma consoleread_spec `{!LayoutOk L} s pr prc r T q line dst n d q' :
  console_call s pr prc r T q line -> (0 < wait_fuel)%nat -> 0 <= n < 2^31 ->
  take_line (Z.to_nat n) true q = Some (d, q') ->
  runs (consoleread true dst n s) (fun v s' => exists m rest T', v = Z.of_nat m /\
    same_ctl s s' /\ k_procs s' = k_procs s /\ ring (k_cons s') rest line /\
    read_part r s T dst d q q' m rest s' T').
Proof.
  intros [Hp Hlk Hsp Hcur Hr Hb] Hf Hn Htl. pose proof Hp as (Hc & _ & _). unfold consoleread.
  apply runs_bind, runs_acquire; [done|]. set (s1 := enter LCons s).
  destruct (ui_alloc _ _ _ Hsp) as (_ & Hlm & _).
  assert (Hn1 : 0 < c_noff (k_cpu s1)) by (destruct Hc as (_ & ? & _); simpl; lia).
  apply runs_bind. eapply runs_mono.
  { apply (consoleread_loop_spec (Z.to_nat n) s1 r T pr prc dst n n q line d q'); try done; try lia.
    - eapply (uinv_same_mem s); [done|by apply enter_cpu_ok|by apply enter_lock_free|done].
    - by apply enter_cpu_ok.
    - by rewrite bool_decide_eq_true_2. }
  intros v s2 (m & rest & T' & t & -> & Hd & Hr' & Ht & Hm & Hall & Hpk). pose proof (consd_cpu _ _ _ Hn1 Hd) as Hcpu.
  destruct Hd as (sx & Hfr & ->). destruct (aframe_procs _ _ Hfr) as (E1 & E2 & E3 & E4 & E5).
  apply runs_bind, (runs_release _ s); [done|done|split; [exact E5|split; [exact E4|exact Hcpu]]|].
  intros j Hj. cbn [runs ret]. exists m, rest, T'. split; [lia|]. do 3 (split; [done|]). split; [|by split].
  eapply (touches_same_mem r s1); [done| | | |exact Ht]; [done| |].
  - eapply same_ctl_cpu_ok; [apply leave_same_ctl|done].
  - eapply same_ctl_lock_free; [apply leave_same_ctl|done].
Qed.
End read.

(** ** Results *)

(** C35: characters that arrive on the serial line are edited into lines.  After
    [uart_drain] has taken them all, the ring buffer holds what the line
    discipline makes of them: backspace and kill act on the line being typed
    only, a newline, an end of file or a full buffer commits it, carriage
    returns are newlines, and input beyond the buffer is dropped; also across
    the wrap-around of the indices.  Unless the process list was asked for, the
    terminal was sent exactly the echo; the readers asleep were woken exactly if
    a line was committed; and nothing else of the kernel has changed. *)
Theorem uart_drain_correct (s : kstate) (q line cs : list Z) :
  procs_ok s -> lock_free s LCons -> lock_free s LPr -> ring (k_cons s) q line ->
  u_in (k_uart s) = cs -> Forall (fun c => 0 <= c < 256) cs ->
  runs (uart_drain (S (length cs)) s) (fun _ => typed_in s q line cs).
Proof. apply uart_drain_spec. Qed.

Section results.
Context `{L : Layout, W : WaitFuel}.

(** C36: a read from the console that need not wait takes from the committed input
    up to [n] characters, to the end of the line or of the file, delivers them in
    order at the addresses from [dst] and returns their number; an end of file
    behind other characters is kept for the next read.  Where a character cannot
    be copied to the process's memory the read ends there, with the number
    delivered so far, and that character is lost; this does not happen where the
    destination is present, writable and not shared.  The line being typed stays,
    and no other byte of the process nor any page of another space changes. *)
Theorem consoleread_correct `{!LayoutOk L} (s : kstate) (pr : Z) (prc : proc) (r : Z) (T : Z -> option Z)
    (q line : list Z) (dst n : Z) (d q' : list Z) :
  console_call s pr prc r T q line -> (0 < wait_fuel)%nat -> 0 <= n < 2^31 ->
  take_line (Z.to_nat n) true q = Some (d, q') ->
  runs (consoleread true dst n s) (fun v s' => exists m rest T', v = Z.of_nat m /\
    same_ctl s s' /\ k_procs s' = k_procs s /\ ring (k_cons s') rest line /\
    touches r s T (hits (u32 dst) (length d)) s' T' /\
    (m = length d /\ rest = q' \/ (m < length d)%nat /\ rest = drop (S m) q) /\
    ((forall x, hits (u32 dst) (length d) x -> ready (k_mem s) T x) -> m = length d) /\
    forall j b, (j < m)%nat -> d !! j = Some b -> peek false (k_mem s') T' (u32 (dst + Z.of_nat j)) = Some b).
Proof. apply consoleread_spec. Qed.
End results.

(** ** Witnesses *)

(** "ab", backspace, "c", return. *)
Definition demo_keys : list Z := [97; 98; 8; 99; 13].
Definition demo_cons (t : cons_t) (s : kstate) : kstate :=
  set_locks (<[LCons := mkLock 0 false "cons"]> (<[LPr := mkLock 0 false "pr"]> (k_locks s))) (set_cons t s).
Definition empty_cons : cons_t := mkCons ∅ (2^32 - 2) (2^32 - 2) (2^32 - 2).

Lemma empty_ring : ring empty_cons [] [].
Proof. split; try done. Qed.

Lemma demo_cons_procs t s : procs_ok s -> procs_ok (demo_cons t s).
Proof.
  intros (Hc & Hlen & Hl). split; [done|]. split; [done|]. intros i Hi. destruct (Hl i Hi) as [nm Hn].
  exists nm. cbn [demo_cons k_locks set_locks]. by rewrite !lookup_insert_ne.
Qed.

Lemma uart_drain_correct_witness : exists s,
  type_in [] [] demo_keys = ([97; 99; 10], [], [97; 98; BACKSPACE; 99; 10], true) /\
  runs (uart_drain (S (length demo_keys)) s) (fun _ => typed_in s [] [] demo_keys).
Proof.
  destruct demo_sched as (s & Hok & _).
  exists (set_uart (set_u_in demo_keys (k_uart s)) (demo_cons empty_cons s)). split; [reflexivity|].
  apply (uart_drain_correct (set_uart (set_u_in demo_keys (k_uart s)) (demo_cons empty_cons s)) [] [] demo_keys).
  - exact (demo_cons_procs _ _ Hok).
  - exists "cons". apply lookup_insert_eq.
  - exists "pr". cbn. rewrite lookup_insert_ne by discriminate. apply lookup_insert_eq.
  - exact empty_ring.
  - reflexivity.
  - repeat constructor; discriminate.
Defined.

(** A process with one private page reads "hi" and leaves what follows. *)
Definition demo_rw : Z := Z.lor PTE_R (Z.lor PTE_W PTE_U).
Lemma demo_rw_ok : demo_done (demo demo_rw demo_boot).
Proof. vm_compute. done. Qed.
Definition demo_line : cons_t :=
  mkCons (<[126 := 104]> (<[127 := 105]> (<[0 := 10]> (<[1 := 120]> ∅)))) (2^32 - 2) 1 2.

Lemma demo_line_ring : ring demo_line [104; 105; 10] [120].
Proof.
  split; try done.
  - intros i c Hi. do 4 (destruct i as [|i]; [injection Hi as <-; done|]). done.
  - repeat constructor; done.
Qed.

Lemma demo_console_call : exists s prc r T,
  @console_call small_layout s 0 prc r T [104; 105; 10] [120] /\
  forall x, hits (u32 16) 3 x -> ready (k_mem s) T x.
Proof.
  destruct (demo_mapped demo_rw ltac:(done) demo_rw_ok) as (s & r & T & n & Hinv & _ & _ & Hl & Hn & _).
  set (prc := set_p_as (set_pagetable (idx2pa r) (p_as demo_proc)) demo_proc).
  set (s' := demo_cons demo_line (set_locks (demo_locks (k_locks s))
    (set_cpu (mkCpu (Some 0) 0 0) (set_procs (prc :: replicate (Z.to_nat NPROC - 1) zero_proc) s)))).
  destruct (ui_alloc _ _ _ Hinv) as (Hc & (nm & Hlk) & Hk).
  assert (Hc' : cpu_ok s') by (destruct Hc as (H1 & H2 & H3); split; [exact H1|]; done).
  exists s', prc, r, T. split; [split|].
  - apply demo_cons_procs. split; [done|]. split; [done|]. intros i Hi. exists "proc". by apply demo_locks_proc.
  - exists "cons". apply lookup_insert_eq.
  - eapply (uinv_same_mem s); [done|done| |done]. exists nm. cbn [s' demo_cons k_locks set_locks].
    rewrite !lookup_insert_ne by done. rewrite demo_locks_kmem. exact Hlk.
  - split; [done|]. split; [done|]. split; [done|].
    split; [destruct demo_as_wf as [H1 H2 H3 H4 H5 H6]; split; assumption|]. split; [done|].
    intros i Hi. assert (i = 0) as -> by (cbn in Hi; lia). vm_compute. intuition congruence.
  - exact demo_line_ring.
  - repeat constructor; done.
  - intros x (i & Hi & ->). unfold ready. change (k_mem s') with (k_mem s).
    assert (Hv : leaf (k_mem s) T (u32 (u32 16 + Z.of_nat i)) = leaf (k_mem s) T 0).
    { do 3 (destruct i as [|i]; [by apply leaf_vpn|]). lia. }
    rewrite Hv, Hl. pose proof (idx2pa_range n Hn) as Hr.
    unfold PTE_V, PTE_U, PTE_W, PTE_COW. by rewrite !has_mkpte.
Qed.

Lemma consoleread_correct_witness : exists s prc r T,
  (@console_call small_layout s 0 prc r T [104; 105; 10] [120] /\
   forall x, hits (u32 16) (length [104; 105; 10]) x -> ready (k_mem s) T x) /\
  runs (@consoleread small_layout 1%nat true 16 10 s) (fun v s' => exists m rest T', v = Z.of_nat m /\
    same_ctl s s' /\ k_procs s' = k_procs s /\ ring (k_cons s') rest [120] /\
    @touches small_layout r s T (hits (u32 16) (length [104; 105; 10])) s' T' /\
    (m = length [104; 105; 10] /\ rest = [] \/
     (m < length [104; 105; 10])%nat /\ rest = drop (S m) [104; 105; 10]) /\
    ((forall x, hits (u32 16) (length [104; 105; 10]) x -> ready (k_mem s) T x) -> m = length [104; 105; 10]) /\
    forall j b, (j < m)%nat -> [104; 105; 10] !! j = Some b ->
      peek false (k_mem s') T' (u32 (16 + Z.of_nat j)) = Some b).
Proof.
  destruct demo_console_call as (s & prc & r & T & Hc & Hr). exists s, prc, r, T. split; [split; [exact Hc|exact Hr]|].
  apply (@consoleread_correct small_layout 1%nat small_layout_ok s 0 prc r T [104; 105; 10] [120] 16 10 [104; 105; 10] []).
  - exact Hc.
  - apply Nat.lt_0_1.
  - split; [discriminate|reflexivity].
  - reflexivity.
Defined.
