(* ===== verification/File.v ===== *)
(** * Open files, pipes' ends and semaphores

    Models [src/os/kernel/file.c], [pipealloc] of [pipe.c] and the objects of
    [sem.c]: the table of open files and what a descriptor stands for. *)

From S2P Require Import Prelude CMem Machine Sv32 Spinlock Kalloc Printf Sched AddrSpace.
From S2P Require Import Sleeplock Bio Codec Log Fs Console Pipe.

Definition fileinit : K unit := initlock LFtable "ftable".

Definition filealloc : K (option Z) :=
  acquire LFtable ;;
  r <- for_find (Z.to_nat NFILE) 0 (fun i =>
    f <- get_file i ;;
    if f.(f_ref) =? 0 then upd_file i (set_f_ref 1) ;; ret (Some i) else ret None) ;;
  release LFtable ;;
  ret r.

Definition filedup (f : Z) : K Z :=
  acquire LFtable ;;
  x <- get_file f ;;
  if x.(f_ref) <? 1 then panic "filedup" else
  upd_file f (fun x => set_f_ref (x.(f_ref) + 1) x) ;;
  release LFtable ;;
  ret f.

(** ** sem.c: the semaphore object *)

Definition get_sem (a : Z) : K semaphore :=
  fun s => match k_sems s !! a with
           | Some x => Ok x s
           | None => Stop (Undefined "struct semaphore")
           end.
Definition upd_sem (a : Z) (f : semaphore -> semaphore) : K unit :=
  x <- get_sem a ;; modify (fun s => set_sems (<[a := f x]> (k_sems s)) s).

Definition sem_alloc (value : Z) : K Z :=
  a <- kalloc ;;
  if a =? 0 then ret 0 else
  modify (fun s => set_sems (<[a := mkSem value 0 0]> (k_sems s)) s) ;;
  initlock (LSem a) "sem" ;;
  ret a.

Section file.
Context `{L : Layout, W : WaitFuel, D : BlockDev}.

Definition sem_close (a : Z) : K unit :=
  acquire (LSem a) ;;
  upd_sem a (fun x => set_sem_ref_count (x.(sem_ref_count) - 1) x) ;;
  x <- get_sem a ;;
  if x.(sem_ref_count) >? 0 then release (LSem a) else
  release (LSem a) ;;
  kfree a.

(** ** file.c *)

Definition file_ip (f : file) : K Z :=
  match f.(f_ip) with Some i => ret i | None => undefined "f->ip" end.

Definition fileclose (f : Z) : K unit :=
  acquire LFtable ;;
  x <- get_file f ;;
  if x.(f_ref) <? 1 then panic "fileclose" else
  upd_file f (fun x => set_f_ref (x.(f_ref) - 1) x) ;;
  ff <- get_file f ;;
  if ff.(f_ref) >? 0 then release LFtable else
  upd_file f (fun x => set_f_type FD_NONE (set_f_ref 0 x)) ;;
  release LFtable ;;
  match ff.(f_type) with
  | FD_PIPE => pipeclose ff.(f_pipe) (negb (ff.(f_writable) =? 0))
  | FD_SEM => sem_close ff.(f_sem)
  | FD_INODE | FD_DEVICE => ip <- file_ip ff ;; begin_op ;; iput ip ;; end_op
  | FD_NONE => ret tt
  end.

Definition filestat (f addr : Z) : K Z :=
  p <- curproc ;;
  x <- get_file f ;;
  match x.(f_type) with
  | FD_INODE | FD_DEVICE =>
      i <- file_ip x ;;
      ilock i ;;
      ip <- get_inode i ;;
      let st := stati ip in
      iunlock i ;;
      pr <- get_proc p ;;
      e <- copyout pr.(p_as).(pagetable) addr st ;;
      ret (if e <? 0 then -1 else 0)
  | _ => ret (-1)
  end.

(** [devsw]: only the console is registered *)
Definition CONSOLE : Z := 1.
Definition dev_ok (major : Z) : bool :=
  (0 <=? major) && (major <? NDEV) && (major =? CONSOLE).

Definition fileread (f addr n : Z) : K Z :=
  x <- get_file f ;;
  if x.(f_readable) =? 0 then ret (-1) else
  match x.(f_type) with
  | FD_PIPE => piperead x.(f_pipe) addr n
  | FD_DEVICE =>
      if negb (dev_ok x.(f_major)) then ret (-1) else consoleread true addr n
  | FD_INODE =>
      i <- file_ip x ;;
      ilock i ;;
      r <- readi i (DUser addr) x.(f_off) (u32 n) ;;
      (if r.1 >? 0 then upd_file f (fun x => set_f_off (u32 (x.(f_off) + r.1)) x)
       else ret tt) ;;
      iunlock i ;;
      ret r.1
  | _ => panic "fileread"
  end.

(** [((MAXOPBLOCKS-1-1-2) / 2) * BSIZE] *)
Definition write_max : Z := (MAXOPBLOCKS - 1 - 1 - 2) / 2 * BSIZE.

(** [while(i < n)] of [filewrite] *)
Fixpoint filewrite_loop (fuel : nat) (f ip addr i n : Z) : K Z :=
  match fuel with
  | O => nofuel
  | S k =>
      if i <? n then
        let n1 := Z.min (n - i) write_max in
        begin_op ;;
        ilock ip ;;
        x <- get_file f ;;
        r <- writei ip (SUser (u32 (addr + i))) x.(f_off) n1 ;;
        (if r >? 0 then upd_file f (fun x => set_f_off (u32 (x.(f_off) + r)) x)
         else ret tt) ;;
        iunlock ip ;;
        end_op ;;
        if negb (r =? n1) then ret i else
        filewrite_loop k f ip addr (i + r) n
      else ret i
  end.
Definition filewrite (f addr n : Z) : K Z :=
  x <- get_file f ;;
  if x.(f_writable) =? 0 then ret (-1) else
  match x.(f_type) with
  | FD_PIPE => pipewrite x.(f_pipe) addr n
  | FD_DEVICE =>
      if negb (dev_ok x.(f_major)) then ret (-1) else consolewrite true addr n
  | FD_INODE =>
      ip <- file_ip x ;;
      i <- filewrite_loop (S (Z.to_nat n)) f ip addr 0 n ;;
      ret (if i =? n then n else -1)
  | _ => panic "filewrite"
  end.

(** ** pipe.c: pipealloc *)

Definition close_opt (f : option Z) : K unit :=
  match f with Some i => fileclose i | None => ret tt end.
Definition pipe_end (pi readable writable : Z) (x : file) : file :=
  set_f_pipe pi (set_f_writable writable (set_f_readable readable
    (set_f_type FD_PIPE x))).

Definition pipealloc : K (option (Z * Z)) :=
  f0 <- filealloc ;;
  f1 <- (match f0 with Some _ => filealloc | None => ret None end) ;;
  match f0, f1 with
  | Some r, Some w =>
      pi <- kalloc ;;
      if pi =? 0 then close_opt f0 ;; close_opt f1 ;; ret None else
      put_pipe pi (mkPipe ∅ 0 0 1 1) ;;
      initlock (LPipe pi) "pipe" ;;
      upd_file r (pipe_end pi 1 0) ;;
      upd_file w (pipe_end pi 0 1) ;;
      ret (Some (r, w))
  | _, _ => close_opt f0 ;; close_opt f1 ;; ret None
  end.
End file.
