(* ===== verification/Proc.v ===== *)
(** * The life of a process

    Models the rest of [src/os/kernel/taskmgr.c]: creation, fork, exit and
    wait, and growth of the heap. *)

From S2P Require Import Prelude CMem Machine Sv32 Spinlock Kalloc Printf Sched AddrSpace.
From S2P Require Import Sleeplock Bio Codec Log Fs Console Pipe File.

(** [safestrcpy(dst, src, sizeof(p->name))] on name fields; [src] may be any
    nul-terminated string. *)
Definition name_copy (dst src : list Z) : list Z :=
  let m := write_bytes (write_bytes ∅ 0 dst) 4096 src in
  read_bytes 16 (safestrcpy m 0 4096 16) 0.

Section proc.
Context `{L : Layout, W : WaitFuel, D : BlockDev}.

Definition freeproc (p : Z) : K unit :=
  pr <- get_proc p ;;
  (if negb (pr.(p_trapframe) =? 0) then kfree pr.(p_trapframe) else ret tt) ;;
  upd_proc p (set_p_trapframe 0) ;;
  pr <- get_proc p ;;
  (if negb (pr.(p_as).(pagetable) =? 0) then proc_addrspace_free p else ret tt) ;;
  upd_proc p (fun x =>
    mkProc UNUSED None 0 0 0 None x.(p_kstack) zero_as x.(p_trapframe) x.(p_context)
      x.(p_ofile) x.(p_cwd) 0 0 0 (<[0%nat := 0]> x.(p_name))).

(** Returns with [p->lock] held. *)
Definition allocproc : K (option Z) :=
  r <- for_find (Z.to_nat NPROC) 0 (fun i =>
    acquire (LProc i) ;;
    p <- get_proc i ;;
    if decide (p.(p_state) = UNUSED) then ret (Some i)
    else release (LProc i) ;; ret None) ;;
  match r with
  | None => ret None
  | Some p =>
      pid <- allocpid ;;
      upd_proc p (set_p_pid pid) ;;
      upd_proc p (set_p_state USED) ;;
      upd_proc p mlfq_reset_proc ;;
      tf <- kalloc ;;
      upd_proc p (set_p_trapframe tf) ;;
      if tf =? 0 then freeproc p ;; release (LProc p) ;; ret None else
      as_ <- proc_addrspace_create tf ;;
      upd_proc p (set_p_as as_) ;;
      if as_.(pagetable) =? 0 then freeproc p ;; release (LProc p) ;; ret None else
      upd_proc p (fun x => set_p_context
        (mkContext forkret_addr (u32 (x.(p_kstack) + PGSIZE)) (replicate 12 0)) x) ;;
      ret (Some p)
  end.

Definition userinit : K unit :=
  r <- allocproc ;;
  upd_ptab (set_initproc r) ;;
  ip <- namei (cstr "/") ;;
  match r with
  | None => undefined "userinit"
  | Some p =>
      upd_proc p (set_p_cwd ip) ;;
      upd_proc p (set_p_state RUNNABLE) ;;
      release (LProc p)
  end.

(** [sz + n] is 32-bit arithmetic; the comparisons are unsigned. *)
Definition growproc (n : Z) : K Z :=
  p <- curproc ;;
  pr <- get_proc p ;;
  let as_ := pr.(p_as) in
  let h := as_region_index as_ MR_HEAP in
  if h =? -1 then ret (-1) else
  let heap := region as_ h in
  let sz := heap.(va_end) in
  let newsz := u32 (sz + n) in
  r <- (if n >? 0 then
          if (newsz <? sz) || (newsz >? TRAPFRAME) then ret None else
          newsz <- uvmalloc as_ sz newsz PTE_W ;;
          if newsz =? 0 then ret None else ret (Some newsz)
        else if n <? 0 then
          if (newsz >? sz) || (newsz <? heap.(va_start)) then ret (Some sz) else
          newsz <- uvmdealloc as_ sz newsz ;; ret (Some newsz)
        else ret (Some newsz)) ;;
  match r with
  | None => ret (-1)
  | Some newsz =>
      let (as', e) := as_resize_region as_ MR_HEAP newsz in
      upd_proc p (set_p_as as') ;;
      ret (if e <? 0 then -1 else 0)
  end.

Definition kfork : K Z :=
  p <- curproc ;;
  r <- allocproc ;;
  match r with
  | None => ret (-1)
  | Some np =>
      pr <- get_proc p ;;
      npr <- get_proc np ;;
      c <- uvmcopy npr.(p_as) pr.(p_as) ;;
      upd_proc np (set_p_as c.1) ;;
      if c.2 <? 0 then freeproc np ;; release (LProc np) ;; ret (-1) else
      npr <- get_proc np ;;
      upd_mem (fun m => memmove m npr.(p_trapframe) pr.(p_trapframe) tf_size) ;;
      upd_proc np mlfq_reset_proc ;;
      upd_mem (fun m => store32 m (npr.(p_trapframe) + tf_a0) 0) ;;
      for_ (Z.to_nat NOFILE) 0 (fun i =>
        pr <- get_proc p ;;
        match pr.(p_ofile) !! Z.to_nat i with
        | Some (Some f) =>
            f' <- filedup f ;;
            upd_proc np (fun x =>
              set_p_ofile (<[Z.to_nat i := Some f']> x.(p_ofile)) x)
        | _ => ret tt
        end) ;;
      match pr.(p_cwd) with
      | Some c => c' <- idup c ;; upd_proc np (set_p_cwd (Some c'))
      | None => undefined "idup(0)"
      end ;;
      upd_proc np (fun x => set_p_name (name_copy x.(p_name) pr.(p_name)) x) ;;
      npr <- get_proc np ;;
      let pid := npr.(p_pid) in
      release (LProc np) ;;
      acquire LWait ;;
      upd_proc np (set_p_parent (Some p)) ;;
      release LWait ;;
      acquire (LProc np) ;;
      upd_proc np (set_p_state RUNNABLE) ;;
      release (LProc np) ;;
      ret pid
  end.

(** [wakeup] on a possibly null process pointer *)
Definition wakeup_proc (p : option Z) : K unit :=
  wakeup_at (ChProc <$> p).

Definition reparent (p : Z) : K unit :=
  for_ (Z.to_nat NPROC) 0 (fun i =>
    pp <- get_proc i ;;
    if decide (pp.(p_parent) = Some p) then
      t <- gets k_ptab ;;
      upd_proc i (set_p_parent t.(initproc)) ;;
      wakeup_proc t.(initproc)
    else ret tt).

Definition kexit (status : Z) : K unit :=
  p <- curproc ;;
  t <- gets k_ptab ;;
  if decide (t.(initproc) = Some p) then panic "init exiting" else
  for_ (Z.to_nat NOFILE) 0 (fun fd =>
    pr <- get_proc p ;;
    match pr.(p_ofile) !! Z.to_nat fd with
    | Some (Some f) =>
        fileclose f ;;
        upd_proc p (fun x => set_p_ofile (<[Z.to_nat fd := None]> x.(p_ofile)) x)
    | _ => ret tt
    end) ;;
  begin_op ;;
  pr <- get_proc p ;;
  match pr.(p_cwd) with
  | Some c => iput c
  | None => undefined "iput(0)"
  end ;;
  end_op ;;
  upd_proc p (set_p_cwd None) ;;
  acquire LWait ;;
  reparent p ;;
  pr <- get_proc p ;;
  wakeup_proc pr.(p_parent) ;;
  acquire (LProc p) ;;
  upd_proc p (fun x => set_p_state ZOMBIE (set_p_xstate status x)) ;;
  release LWait ;;
  sched ;;
  panic "zombie exit".

(** The bytes of a 32-bit object. *)
Definition bytes32 (v : Z) : list Z :=
  [v mod 256; v / 2^8 mod 256; v / 2^16 mod 256; v / 2^24 mod 256].

(** The scan of [kwait]: the value to return, or whether there are children. *)
Fixpoint kwait_scan (n : nat) (i p addr : Z) (havekids : bool) : K (Z + bool) :=
  match n with
  | O => ret (inr havekids)
  | S n' =>
      pp <- get_proc i ;;
      if decide (pp.(p_parent) = Some p) then
        acquire (LProc i) ;;
        pp <- get_proc i ;;
        if decide (pp.(p_state) = ZOMBIE) then
          let pid := pp.(p_pid) in
          pr <- get_proc p ;;
          e <- (if negb (addr =? 0)
                then copyout pr.(p_as).(pagetable) addr (bytes32 pp.(p_xstate))
                else ret 0) ;;
          if e <? 0 then
            release (LProc i) ;; release LWait ;; ret (inl (-1))
          else
            freeproc i ;; release (LProc i) ;; release LWait ;; ret (inl pid)
        else
          release (LProc i) ;;
          kwait_scan n' (i + 1) p addr true
      else kwait_scan n' (i + 1) p addr havekids
  end.
Fixpoint kwait_loop (fuel : nat) (p addr : Z) : K Z :=
  match fuel with
  | O => nofuel
  | S f =>
      r <- kwait_scan (Z.to_nat NPROC) 0 p addr false ;;
      match r with
      | inl v => ret v
      | inr havekids =>
          k <- (if havekids : bool then killed p else ret 1) ;;
          if negb (k =? 0) then release LWait ;; ret (-1) else
          sleep (ChProc p) LWait ;;
          kwait_loop f p addr
      end
  end.
Definition kwait (addr : Z) : K Z :=
  p <- curproc ;;
  acquire LWait ;;
  kwait_loop wait_fuel p addr.

End proc.
