(* ===== verification/Exec.v ===== *)
(** * Program loading

    Models [src/os/kernel/loader_exec.c]: address-space randomisation, segment
    allocation and loading, and [kexec]. *)

From S2P Require Import Prelude CMem Machine Sv32 Spinlock Kalloc Printf Sched AddrSpace Sleeplock.
From S2P Require Import Bio Codec Log Fs Console Pipe File Proc.

(** ** ASLR *)

Definition aslr_next : K Z :=
  c <- gets k_csr ;;
  st <- gets k_aslr ;;
  let x := Z.lxor st (u32 (c.(r_time) + 0x7f4a7c15)) in
  let x := Z.lxor x (u32 (Z.shiftl x 13)) in
  let x := Z.lxor x (Z.shiftr x 17) in
  let x := Z.lxor x (u32 (Z.shiftl x 5)) in
  modify (set_aslr x) ;;
  ret x.

Definition aslr_pages (max_pages : Z) : K Z :=
  if max_pages =? 0 then ret 0 else
  x <- aslr_next ;; ret (x mod (max_pages + 1)).

(** map ELF permissions to PTE permission bits *)
Definition flags2perm (flags : Z) : Z :=
  let p := if has flags 1 then PTE_X else 0 in
  if has flags 2 then Z.lor p PTE_W else p.

(** ** ELF headers (elf.h) *)

Definition ELF_MAGIC : Z := 0x464C457F.
Definition ELF_PROG_LOAD : Z := 1.
Definition elfhdr_size : Z := 52.
Definition proghdr_size : Z := 32.
Definition elf_magic (e : list Z) : Z := get32 e 0.
Definition elf_entry (e : list Z) : Z := get32 e 24.
Definition elf_phoff (e : list Z) : Z := get32 e 28.
Definition elf_phnum (e : list Z) : Z := get16 e 44.
Definition ph_type (p : list Z) : Z := get32 p 0.
Definition ph_off (p : list Z) : Z := get32 p 4.
Definition ph_vaddr (p : list Z) : Z := get32 p 8.
Definition ph_filesz (p : list Z) : Z := get32 p 16.
Definition ph_memsz (p : list Z) : Z := get32 p 20.
Definition ph_flags (p : list Z) : Z := get32 p 24.

(** The part of a path after its last slash. *)
Fixpoint last_elem (path last : list Z) : list Z :=
  match path with
  | [] => last
  | c :: r => last_elem r (if c =? slash then r else last)
  end.

Section exec.
Context `{L : Layout, W : WaitFuel, D : BlockDev}.

(** ** Segments *)

Fixpoint allocseg_loop (n : nat) (pagetable a last perm : Z) : K Z :=
  match n with
  | O => nofuel
  | S n' =>
      pte <- walk pagetable a false ;;
      v <- (if pte =? 0 then ret 0 else load_pte pte) ;;
      if negb (pte =? 0) && has v PTE_V then
        store_pte pte (Z.lor v (Z.lor (Z.lor PTE_R PTE_U) perm)) ;;
        if a =? last then ret 0
        else allocseg_loop n' pagetable (u32 (a + PGSIZE)) last perm
      else
        mem <- kalloc ;;
        if mem =? 0 then ret (-1) else
        zero_page mem ;;
        e <- mappages pagetable a PGSIZE mem (Z.lor (Z.lor PTE_R PTE_U) perm) ;;
        if negb (e =? 0) then kfree mem ;; ret (-1) else
        if a =? last then ret 0
        else allocseg_loop n' pagetable (u32 (a + PGSIZE)) last perm
  end.
Definition allocseg (pagetable va sz perm : Z) : K Z :=
  if sz =? 0 then ret 0 else
  let last := PGROUNDDOWN (u32 (va + sz - 1)) in
  allocseg_loop (Z.to_nat (sz / PGSIZE + 2)) pagetable va last perm.

Fixpoint loadseg_loop (n : nat) (pagetable va ip offset sz i : Z) : K Z :=
  match n with
  | O => nofuel
  | S n' =>
      if i <? sz then
        pa <- walkaddr pagetable (u32 (va + i)) ;;
        if pa =? 0 then panic "loadseg: address should exist" else
        let n := if sz - i <? PGSIZE then sz - i else PGSIZE in
        r <- readi ip (DPage pa) (u32 (offset + i)) n ;;
        if negb (r.1 =? n) then ret (-1)
        else loadseg_loop n' pagetable va ip offset sz (i + PGSIZE)
      else ret 0
  end.
Definition loadseg (pagetable va ip offset sz : Z) : K Z :=
  loadseg_loop (Z.to_nat (sz / PGSIZE + 2)) pagetable va ip offset sz 0.

(** The program headers: [None] is [goto bad], otherwise the end of the image. *)
Fixpoint load_segments (n : nat) (pagetable ip off sz : Z) : K (option Z) :=
  match n with
  | O => ret (Some sz)
  | S n' =>
      r <- readi ip DLocal (u32 off) proghdr_size ;;
      if negb (r.1 =? proghdr_size) then ret None else
      let ph := r.2 in
      if negb (ph_type ph =? ELF_PROG_LOAD)
      then load_segments n' pagetable ip (off + proghdr_size) sz else
      if ph_memsz ph <? ph_filesz ph then ret None else
      let segva := ph_vaddr ph in
      let segend := u32 (segva + ph_memsz ph) in
      if segend <? segva then ret None else
      if segend >=? TRAPFRAME then ret None else
      if negb (segva mod PGSIZE =? 0) then ret None else
      e <- allocseg pagetable segva (ph_memsz ph) (flags2perm (ph_flags ph)) ;;
      if e <? 0 then ret None else
      let sz := if segend >? sz then segend else sz in
      e <- loadseg pagetable segva ip (ph_off ph) (ph_filesz ph) ;;
      if e <? 0 then ret None else
      load_segments n' pagetable ip (off + proghdr_size) sz
  end.

(** ** Arguments *)

(** Copies the strings of [argv] below [sp]; [None] is [goto bad], otherwise
    the stack pointer and [ustack]. *)
Fixpoint push_args (argv : list (list Z)) (argc sp stackbase pagetable : Z)
    (ustack : list Z) : K (option (Z * list Z)) :=
  match argv with
  | [] => ret (Some (sp, ustack))
  | s :: argv' =>
      if argc >=? MAXARG then ret None else
      let sp := u32 (sp - (Z.of_nat (length s) + 1)) in
      let sp := sp - sp mod 16 in
      if sp <? stackbase then ret None else
      e <- copyout pagetable sp (s ++ [0]) ;;
      if e <? 0 then ret None else
      push_args argv' (argc + 1) sp stackbase pagetable (ustack ++ [sp])
  end.

(** ** kexec *)

(** The pages that randomise the placement of code, freed before use. *)
Fixpoint jitter_alloc (n : nat) : K (list Z) :=
  match n with
  | O => ret []
  | S n' =>
      p <- kalloc ;;
      if p =? 0 then ret [] else
      ps <- jitter_alloc n' ;; ret (p :: ps)
  end.
Fixpoint kfree_all (ps : list Z) : K unit :=
  match ps with
  | [] => ret tt
  | p :: ps' => kfree p ;; kfree_all ps'
  end.

(** [bad:]; [ip] is [None] once the file has been released. *)
Definition exec_bad (jitter : list Z) (new_as : addr_space) (ip : option Z) : K Z :=
  kfree_all jitter ;;
  (if negb (new_as.(pagetable) =? 0) then as_destroy new_as ;; ret tt else ret tt) ;;
  match ip with
  | Some i => iunlockput i ;; end_op
  | None => ret tt
  end ;;
  ret (-1).

(** From the end of loading: stack, heap region, arguments, commit. *)
Definition exec_finish (p : Z) (path : list Z) (argv : list (list Z))
    (elf : list Z) (new_as : addr_space) (sz : Z) : K Z :=
  let pt := new_as.(pagetable) in
  let text_end := PGROUNDUP sz in
  g <- aslr_pages ASLR_STACK_GAP_MAX_PAGES ;;
  let stack_gap := g * PGSIZE in
  let stack_end := u32 (text_end + stack_gap + (USERSTACK + 1) * PGSIZE) in
  let stack_guard := u32 (stack_end - (USERSTACK + 1) * PGSIZE) in
  if (stack_end <? text_end) || (stack_end >=? TRAPFRAME)
  then exec_bad [] new_as None else
  sz1 <- uvmalloc new_as stack_guard stack_end PTE_W ;;
  if sz1 =? 0 then exec_bad [] new_as None else
  uvmclear pt stack_guard ;;
  let stackbase := u32 (sz1 - USERSTACK * PGSIZE) in
  h <- aslr_pages ASLR_HEAP_GAP_MAX_PAGES ;;
  let heap_base := u32 (sz1 + h * PGSIZE) in
  if (heap_base <? sz1) || (heap_base >=? TRAPFRAME)
  then exec_bad [] new_as None else
  let (as1, e1) := as_add_region new_as 0 text_end MR_TEXT
                     (Z.lor (Z.lor PTE_R PTE_W) PTE_X) in
  if e1 <? 0 then exec_bad [] as1 None else
  let (as2, e2) := as_add_region as1 stack_guard sz1 MR_STACK (Z.lor PTE_R PTE_W) in
  if e2 <? 0 then exec_bad [] as2 None else
  let (as3, e3) := as_add_region as2 heap_base heap_base MR_HEAP (Z.lor PTE_R PTE_W) in
  if e3 <? 0 then exec_bad [] as3 None else
  a <- push_args argv 0 sz1 stackbase pt [] ;;
  match a with
  | None => exec_bad [] as3 None
  | Some (sp, ustack) =>
      let argc := Z.of_nat (length ustack) in
      let sp := u32 (sp - (argc + 1) * 4) in
      let sp := sp - sp mod 16 in
      if sp <? stackbase then exec_bad [] as3 None else
      e <- copyout pt sp (concat (bytes32 <$> (ustack ++ [0]))) ;;
      if e <? 0 then exec_bad [] as3 None else
      pr <- get_proc p ;;
      upd_mem (fun m => store32 m (pr.(p_trapframe) + tf_a1) sp) ;;
      upd_proc p (fun x =>
        set_p_name (name_copy x.(p_name) (last_elem path path ++ [0])) x) ;;
      if elf_entry elf >=? TRAPFRAME then exec_bad [] as3 None else
      let old_as := pr.(p_as) in
      upd_proc p (set_p_as as3) ;;
      upd_mem (fun m => store32 m (pr.(p_trapframe) + tf_epc) (elf_entry elf)) ;;
      upd_mem (fun m => store32 m (pr.(p_trapframe) + tf_sp) sp) ;;
      as_destroy old_as ;;
      ret argc
  end.

Definition kexec (path : list Z) (argv : list (list Z)) : K Z :=
  p <- curproc ;;
  begin_op ;;
  oip <- namei path ;;
  match oip with
  | None => end_op ;; ret (-1)
  | Some ip =>
      ilock ip ;;
      r <- readi ip DLocal 0 elfhdr_size ;;
      if negb (r.1 =? elfhdr_size) then exec_bad [] zero_as (Some ip) else
      let elf := r.2 in
      if negb (elf_magic elf =? ELF_MAGIC) then exec_bad [] zero_as (Some ip) else
      pr <- get_proc p ;;
      new_as <- proc_addrspace_create pr.(p_trapframe) ;;
      if new_as.(pagetable) =? 0 then exec_bad [] new_as (Some ip) else
      code_jitter <- aslr_pages ASLR_CODE_MAX_PAGES ;;
      jitter <- jitter_alloc (Z.to_nat code_jitter) ;;
      osz <- load_segments (Z.to_nat (elf_phnum elf)) new_as.(pagetable) ip
               (elf_phoff elf) 0 ;;
      match osz with
      | None => exec_bad jitter new_as (Some ip)
      | Some sz =>
          kfree_all jitter ;;
          iunlockput ip ;;
          end_op ;;
          exec_finish p path argv elf new_as sz
      end
  end.
End exec.
