(* ===== verification/Syscall.v ===== *)
(** * System calls

    Models [src/os/kernel/syscall_gate.c] (argument fetching and dispatch),
    [sysproc.c], [sysfile.c] and the system calls of [sem.c]. *)

From S2P Require Import Prelude CMem Machine Sv32 Spinlock Kalloc Printf Sched AddrSpace Sleeplock.
From S2P Require Import Bio Codec Log Fs Console Pipe File Proc Exec.

Definition O_RDONLY : Z := 0x000.
Definition O_WRONLY : Z := 0x001.
Definition O_RDWR : Z := 0x002.
Definition O_CREATE : Z := 0x200.
Definition O_TRUNC : Z := 0x400.
Definition SBRK_EAGER : Z := 1.

Section syscall.
Context `{L : Layout, W : WaitFuel, D : BlockDev}.

(** ** Arguments *)

(** The eight bytes at [addr] of the current process. *)
Definition fetchaddr (addr : Z) : K (Z * list Z) :=
  p <- curproc ;;
  pr <- get_proc p ;;
  let he := heap_end pr.(p_as) in
  if (addr >=? he) || (u64 (addr + 8) >? he) then ret (-1, []) else
  r <- copyin pr.(p_as).(pagetable) (u32 addr) 8 ;;
  ret (if negb (r.1 =? 0) then (-1, r.2) else (0, r.2)).

(** The length (or -1) and the bytes stored in [buf]. *)
Definition fetchstr (addr max : Z) : K (Z * list Z) :=
  p <- curproc ;;
  pr <- get_proc p ;;
  r <- copyinstr pr.(p_as).(pagetable) (u32 addr) max ;;
  if r.1 <? 0 then ret (-1, r.2)
  else ret (Z.of_nat (length (until_nul r.2)), r.2).

Definition argraw (n : Z) : K Z :=
  p <- curproc ;;
  pr <- get_proc p ;;
  if (0 <=? n) && (n <=? 5)
  then gets (fun s => load32 (k_mem s) (pr.(p_trapframe) + tf_a0 + 4 * n))
  else panic "argraw".
Definition argint (n : Z) : K Z := v <- argraw n ;; ret (i32 v).
Definition argaddr (n : Z) : K Z := argraw n.
(** The length (or -1) and the string. *)
Definition argstr (n max : Z) : K (Z * list Z) :=
  addr <- argaddr n ;;
  r <- fetchstr addr max ;;
  ret (r.1, until_nul r.2).

(** ** sysproc.c *)

Definition sys_exit : K Z := n <- argint 0 ;; kexit n ;; ret 0.
Definition sys_getpid : K Z := p <- curproc ;; pr <- get_proc p ;; ret pr.(p_pid).
Definition sys_fork : K Z := kfork.
Definition sys_wait : K Z := p <- argaddr 0 ;; kwait p.

Definition sys_sbrk : K Z :=
  n <- argint 0 ;;
  t <- argint 1 ;;
  p <- curproc ;;
  pr <- get_proc p ;;
  let addr := heap_end pr.(p_as) in
  if (t =? SBRK_EAGER) || (n <? 0) then
    e <- growproc n ;;
    ret (if e <? 0 then -1 else addr)
  else if u64 (addr + n) <? addr then ret (-1)
  else if addr + n >? TRAPFRAME then ret (-1)
  else
    let (as', e) := as_resize_region pr.(p_as) MR_HEAP (u32 (addr + n)) in
    upd_proc p (set_p_as as') ;;
    ret (if e <? 0 then -1 else addr).

(** [while(ticks - ticks0 < n)]; [true] when the process has been killed. *)
Fixpoint pause_loop (fuel : nat) (ticks0 n : Z) : K bool :=
  match fuel with
  | O => nofuel
  | S f =>
      t <- gets k_ticks ;;
      if u32 (t - ticks0) <? n then
        p <- curproc ;;
        k <- killed p ;;
        if negb (k =? 0) then ret true else
        sleep ChTicks LTicks ;;
        pause_loop f ticks0 n
      else ret false
  end.
Definition sys_pause : K Z :=
  n <- argint 0 ;;
  let n := if n <? 0 then 0 else n in
  acquire LTicks ;;
  ticks0 <- gets k_ticks ;;
  dead <- pause_loop wait_fuel ticks0 n ;;
  release LTicks ;;
  ret (if dead : bool then -1 else 0).

Definition sys_kill : K Z := pid <- argint 0 ;; kkill pid.

Definition sys_uptime : K Z :=
  acquire LTicks ;;
  x <- gets k_ticks ;;
  release LTicks ;;
  ret x.

(** ** sysfile.c: descriptors *)

Definition ofile (pr : proc) (fd : Z) : option Z :=
  if (0 <=? fd) && (fd <? NOFILE)
  then default None (pr.(p_ofile) !! Z.to_nat fd) else None.
Definition set_fd (p fd : Z) (f : option Z) : K unit :=
  upd_proc p (fun x => set_p_ofile (<[Z.to_nat fd := f]> x.(p_ofile)) x).

Definition argfd (n : Z) : K (option (Z * Z)) :=
  fd <- argint n ;;
  p <- curproc ;;
  pr <- get_proc p ;;
  ret (match ofile pr fd with Some f => Some (fd, f) | None => None end).

(** The lowest free descriptor of the current process, taken for [f]. *)
Definition fdalloc (f : Z) : K Z :=
  p <- curproc ;;
  r <- for_find (Z.to_nat NOFILE) 0 (fun fd =>
    pr <- get_proc p ;;
    match ofile pr fd with
    | None => set_fd p fd (Some f) ;; ret (Some fd)
    | Some _ => ret None
    end) ;;
  ret (default (-1) r).

Definition sys_dup : K Z :=
  a <- argfd 0 ;;
  match a with
  | None => ret (-1)
  | Some (_, f) =>
      fd <- fdalloc f ;;
      if fd <? 0 then ret (-1) else
      filedup f ;;
      ret fd
  end.

Definition sys_read : K Z :=
  p <- argaddr 1 ;;
  n <- argint 2 ;;
  a <- argfd 0 ;;
  match a with None => ret (-1) | Some (_, f) => fileread f p n end.

Definition sys_write : K Z :=
  p <- argaddr 1 ;;
  n <- argint 2 ;;
  a <- argfd 0 ;;
  match a with None => ret (-1) | Some (_, f) => filewrite f p n end.

Definition sys_close : K Z :=
  a <- argfd 0 ;;
  match a with
  | None => ret (-1)
  | Some (fd, f) =>
      p <- curproc ;;
      set_fd p fd None ;;
      fileclose f ;;
      ret 0
  end.

Definition sys_fstat : K Z :=
  st <- argaddr 1 ;;
  a <- argfd 0 ;;
  match a with None => ret (-1) | Some (_, f) => filestat f st end.

(** ** sysfile.c: names *)

Definition sys_link : K Z :=
  old <- argstr 0 MAXPATH ;;
  if old.1 <? 0 then ret (-1) else
  new <- argstr 1 MAXPATH ;;
  if new.1 <? 0 then ret (-1) else
  begin_op ;;
  oip <- namei old.2 ;;
  match oip with
  | None => end_op ;; ret (-1)
  | Some ip =>
      ilock ip ;;
      d <- get_inode ip ;;
      if d.(i_type) =? T_DIR then iunlockput ip ;; end_op ;; ret (-1) else
      upd_inode ip (fun d => set_i_nlink (i16 (d.(i_nlink) + 1)) d) ;;
      iupdate ip ;;
      iunlock ip ;;
      let bad :=
        ilock ip ;;
        upd_inode ip (fun d => set_i_nlink (i16 (d.(i_nlink) - 1)) d) ;;
        iupdate ip ;;
        iunlockput ip ;;
        end_op ;;
        ret (-1) in
      r <- nameiparent new.2 ;;
      match r with
      | (None, _) => bad
      | (Some dp, name) =>
          ilock dp ;;
          dd <- get_inode dp ;;
          d <- get_inode ip ;;
          e <- (if negb (dd.(i_dev) =? d.(i_dev)) then ret (-1)
                else dirlink dp name d.(i_inum)) ;;
          if e <? 0 then iunlockput dp ;; bad else
          iunlockput dp ;;
          iput ip ;;
          end_op ;;
          ret 0
      end
  end.

(** [for(off=2*sizeof(de); off<dp->size; off+=sizeof(de))] *)
Fixpoint isdirempty_loop (n : nat) (dp off : Z) : K bool :=
  match n with
  | O => nofuel
  | S n' =>
      d <- get_inode dp ;;
      if off <? d.(i_size) then
        r <- readi dp DLocal off DIRENT_SIZE ;;
        if negb (r.1 =? DIRENT_SIZE) then panic "isdirempty: readi" else
        if negb (de_inum r.2 =? 0) then ret false
        else isdirempty_loop n' dp (off + DIRENT_SIZE)
      else ret true
  end.
Definition isdirempty (dp : Z) : K bool :=
  d <- get_inode dp ;;
  isdirempty_loop (Z.to_nat (d.(i_size) / DIRENT_SIZE + 2)) dp (2 * DIRENT_SIZE).

Definition sys_unlink : K Z :=
  path <- argstr 0 MAXPATH ;;
  if path.1 <? 0 then ret (-1) else
  begin_op ;;
  r <- nameiparent path.2 ;;
  match r with
  | (None, _) => end_op ;; ret (-1)
  | (Some dp, name) =>
      ilock dp ;;
      let bad := iunlockput dp ;; end_op ;; ret (-1) in
      if (namecmp name (cstr ".") =? 0) || (namecmp name (cstr "..") =? 0) then bad else
      l <- dirlookup dp name ;;
      match l with
      | None => bad
      | Some (ip, off) =>
          ilock ip ;;
          d <- get_inode ip ;;
          if d.(i_nlink) <? 1 then panic "unlink: nlink < 1" else
          full <- (if d.(i_type) =? T_DIR
                   then e <- isdirempty ip ;; ret (negb e) else ret false) ;;
          if (full : bool) then iunlockput ip ;; bad else
          w <- writei dp (SLocal (replicate (Z.to_nat DIRENT_SIZE) 0)) off DIRENT_SIZE ;;
          if negb (w =? DIRENT_SIZE) then panic "unlink: writei" else
          d <- get_inode ip ;;
          (if d.(i_type) =? T_DIR then
             upd_inode dp (fun d => set_i_nlink (i16 (d.(i_nlink) - 1)) d) ;;
             iupdate dp
           else ret tt) ;;
          iunlockput dp ;;
          upd_inode ip (fun d => set_i_nlink (i16 (d.(i_nlink) - 1)) d) ;;
          iupdate ip ;;
          iunlockput ip ;;
          end_op ;;
          ret 0
      end
  end.

(** Returns the inode locked. *)
Definition create (path : list Z) (type major minor : Z) : K (option Z) :=
  r <- nameiparent path ;;
  match r with
  | (None, _) => ret None
  | (Some dp, name) =>
      ilock dp ;;
      l <- dirlookup dp name ;;
      match l with
      | Some (ip, _) =>
          iunlockput dp ;;
          ilock ip ;;
          d <- get_inode ip ;;
          if (type =? T_FILE) && ((d.(i_type) =? T_FILE) || (d.(i_type) =? T_DEVICE))
          then ret (Some ip)
          else iunlockput ip ;; ret None
      | None =>
          dd <- get_inode dp ;;
          oip <- ialloc dd.(i_dev) type ;;
          match oip with
          | None => iunlockput dp ;; ret None
          | Some ip =>
              ilock ip ;;
              upd_inode ip (fun d =>
                set_i_nlink 1 (set_i_minor (i16 minor) (set_i_major (i16 major) d))) ;;
              iupdate ip ;;
              d <- get_inode ip ;;
              dd <- get_inode dp ;;
              e <- (if type =? T_DIR then
                      e <- dirlink ip (cstr ".") d.(i_inum) ;;
                      if e <? 0 then ret e
                      else dirlink ip (cstr "..") dd.(i_inum)
                    else ret 0) ;;
              e <- (if e <? 0 then ret e else dirlink dp name d.(i_inum)) ;;
              if e <? 0 then
                upd_inode ip (set_i_nlink 0) ;;
                iupdate ip ;;
                iunlockput ip ;;
                iunlockput dp ;;
                ret None
              else
                (if type =? T_DIR then
                   upd_inode dp (fun d => set_i_nlink (i16 (d.(i_nlink) + 1)) d) ;;
                   iupdate dp
                 else ret tt) ;;
                iunlockput dp ;;
                ret (Some ip)
          end
      end
  end.

(** The inode [sys_open] opens, locked; [None] after [end_op]. *)
Definition open_inode (path : list Z) (omode : Z) : K (option Z) :=
  if has omode O_CREATE then
    r <- create path T_FILE 0 0 ;;
    match r with
    | None => end_op ;; ret None
    | Some ip => ret (Some ip)
    end
  else
    r <- namei path ;;
    match r with
    | None => end_op ;; ret None
    | Some ip =>
        ilock ip ;;
        d <- get_inode ip ;;
        if (d.(i_type) =? T_DIR) && negb (omode =? O_RDONLY)
        then iunlockput ip ;; end_op ;; ret None
        else ret (Some ip)
    end.

Definition b2z (b : bool) : Z := if b then 1 else 0.

Definition sys_open : K Z :=
  omode <- argint 1 ;;
  path <- argstr 0 MAXPATH ;;
  if path.1 <? 0 then ret (-1) else
  begin_op ;;
  r <- open_inode path.2 omode ;;
  match r with
  | None => ret (-1)
  | Some ip =>
      d <- get_inode ip ;;
      if (d.(i_type) =? T_DEVICE) && ((d.(i_major) <? 0) || (d.(i_major) >=? NDEV))
      then iunlockput ip ;; end_op ;; ret (-1) else
      ofl <- filealloc ;;
      fd <- (match ofl with Some f => fdalloc f | None => ret (-1) end) ;;
      match ofl with
      | Some f =>
          if fd <? 0 then fileclose f ;; iunlockput ip ;; end_op ;; ret (-1) else
          (if d.(i_type) =? T_DEVICE
           then upd_file f (fun x => set_f_major d.(i_major) (set_f_type FD_DEVICE x))
           else upd_file f (fun x => set_f_off 0 (set_f_type FD_INODE x))) ;;
          upd_file f (fun x =>
            set_f_writable (b2z (has omode O_WRONLY || has omode O_RDWR))
              (set_f_readable (b2z (negb (has omode O_WRONLY)))
                 (set_f_ip (Some ip) x))) ;;
          (if has omode O_TRUNC && (d.(i_type) =? T_FILE) then itrunc ip else ret tt) ;;
          iunlock ip ;;
          end_op ;;
          ret fd
      | None => iunlockput ip ;; end_op ;; ret (-1)
      end
  end.

Definition sys_mkdir : K Z :=
  begin_op ;;
  path <- argstr 0 MAXPATH ;;
  r <- (if path.1 <? 0 then ret None else create path.2 T_DIR 0 0) ;;
  match r with
  | None => end_op ;; ret (-1)
  | Some ip => iunlockput ip ;; end_op ;; ret 0
  end.

Definition sys_mknod : K Z :=
  begin_op ;;
  major <- argint 1 ;;
  minor <- argint 2 ;;
  path <- argstr 0 MAXPATH ;;
  r <- (if path.1 <? 0 then ret None else create path.2 T_DEVICE major minor) ;;
  match r with
  | None => end_op ;; ret (-1)
  | Some ip => iunlockput ip ;; end_op ;; ret 0
  end.

Definition sys_chdir : K Z :=
  p <- curproc ;;
  begin_op ;;
  path <- argstr 0 MAXPATH ;;
  r <- (if path.1 <? 0 then ret None else namei path.2) ;;
  match r with
  | None => end_op ;; ret (-1)
  | Some ip =>
      ilock ip ;;
      d <- get_inode ip ;;
      if negb (d.(i_type) =? T_DIR) then iunlockput ip ;; end_op ;; ret (-1) else
      iunlock ip ;;
      pr <- get_proc p ;;
      match pr.(p_cwd) with
      | Some c => iput c
      | None => undefined "iput(0)"
      end ;;
      end_op ;;
      upd_proc p (set_p_cwd (Some ip)) ;;
      ret 0
  end.

(** [argv] is collected page by page: the pages and the strings in them. *)
Fixpoint fetch_args (n : nat) (i uargv : Z) (pages : list Z) (args : list (list Z))
    : K (list Z * option (list (list Z))) :=
  match n with
  | O => ret (pages, None)
  | S n' =>
      p <- curproc ;;
      pr <- get_proc p ;;
      r <- copyin pr.(p_as).(pagetable) (u32 (uargv + 4 * i)) 4 ;;
      if r.1 <? 0 then ret (pages, None) else
      let uarg := get32 r.2 0 in
      if uarg =? 0 then ret (pages, Some args) else
      pg <- kalloc ;;
      if pg =? 0 then ret (pages, None) else
      s <- fetchstr uarg PGSIZE ;;
      upd_mem (fun m => write_bytes m pg s.2) ;;
      let pages := pages ++ [pg] in
      if s.1 <? 0 then ret (pages, None) else
      fetch_args n' (i + 1) uargv pages (args ++ [until_nul s.2])
  end.
Definition sys_exec : K Z :=
  uargv <- argaddr 1 ;;
  path <- argstr 0 MAXPATH ;;
  if path.1 <? 0 then ret (-1) else
  r <- fetch_args (Z.to_nat MAXARG) 0 uargv [] [] ;;
  match r with
  | (pages, None) => kfree_all pages ;; ret (-1)
  | (pages, Some args) =>
      e <- kexec path.2 args ;;
      kfree_all pages ;;
      ret e
  end.

Definition sys_pipe : K Z :=
  p <- curproc ;;
  fdarray <- argaddr 0 ;;
  r <- pipealloc ;;
  match r with
  | None => ret (-1)
  | Some (rf, wf) =>
      fd0 <- fdalloc rf ;;
      fd1 <- (if fd0 <? 0 then ret (-1) else fdalloc wf) ;;
      if (fd0 <? 0) || (fd1 <? 0) then
        (if fd0 >=? 0 then set_fd p fd0 None else ret tt) ;;
        fileclose rf ;;
        fileclose wf ;;
        ret (-1)
      else
        pr <- get_proc p ;;
        let pt := pr.(p_as).(pagetable) in
        e <- copyout pt fdarray (bytes32 fd0) ;;
        e <- (if e <? 0 then ret e else copyout pt (u32 (fdarray + 4)) (bytes32 fd1)) ;;
        if e <? 0 then
          set_fd p fd0 None ;;
          set_fd p fd1 None ;;
          fileclose rf ;;
          fileclose wf ;;
          ret (-1)
        else ret 0
  end.

(** ** sem.c *)

Definition sys_sem_create : K Z :=
  p <- curproc ;;
  value <- argint 0 ;;
  if value <? 0 then ret (-1) else
  ofl <- filealloc ;;
  match ofl with
  | None => ret (-1)
  | Some f =>
      a <- sem_alloc value ;;
      if a =? 0 then fileclose f ;; ret (-1) else
      fd <- fdalloc f ;;
      if fd <? 0 then fileclose f ;; ret (-1) else
      upd_file f (fun x => set_f_sem a (set_f_writable 1 (set_f_readable 1
                             (set_f_type FD_SEM x)))) ;;
      acquire (LSem a) ;;
      upd_sem a (fun x => set_sem_ref_count (x.(sem_ref_count) + 1) x) ;;
      release (LSem a) ;;
      ret fd
  end.

(** The semaphore behind argument 0: its descriptor, file and object. *)
Definition argsem : K (option (Z * Z * Z)) :=
  a <- argfd 0 ;;
  match a with
  | None => ret None
  | Some (fd, f) =>
      x <- get_file f ;;
      if decide (x.(f_type) = FD_SEM) then ret (Some (fd, f, x.(f_sem))) else ret None
  end.

(** [while(s->value <= 0)]; [true] for the -1 return. *)
Fixpoint sem_wait_loop (fuel : nat) (p a : Z) : K bool :=
  match fuel with
  | O => nofuel
  | S n =>
      x <- get_sem a ;;
      if x.(sem_value) <=? 0 then
        k <- (if negb (x.(sem_destroyed) =? 0) then ret 1 else killed p) ;;
        if negb (k =? 0) then ret true else
        sleep (ChSem a) (LSem a) ;;
        sem_wait_loop n p a
      else ret false
  end.
Definition sem_wait (p a : Z) : K Z :=
  acquire (LSem a) ;;
  dead <- sem_wait_loop wait_fuel p a ;;
  if (dead : bool) then release (LSem a) ;; ret (-1) else
  upd_sem a (fun x => set_sem_value (x.(sem_value) - 1) x) ;;
  release (LSem a) ;;
  ret 0.
Definition sys_sem_wait : K Z :=
  p <- curproc ;;
  r <- argsem ;;
  match r with None => ret (-1) | Some (_, _, a) => sem_wait p a end.

Definition sem_post (a : Z) : K Z :=
  acquire (LSem a) ;;
  upd_sem a (fun x => set_sem_value (i32 (x.(sem_value) + 1)) x) ;;
  wakeup (ChSem a) ;;
  release (LSem a) ;;
  ret 0.
Definition sys_sem_post : K Z :=
  r <- argsem ;;
  match r with None => ret (-1) | Some (_, _, a) => sem_post a end.

Definition sys_sem_destroy : K Z :=
  p <- curproc ;;
  r <- argsem ;;
  match r with
  | None => ret (-1)
  | Some (fd, f, a) =>
      acquire (LSem a) ;;
      upd_sem a (set_sem_destroyed 1) ;;
      wakeup (ChSem a) ;;
      release (LSem a) ;;
      set_fd p fd None ;;
      fileclose f ;;
      ret 0
  end.

(** ** Dispatch *)

(** [syscalls[]], indexed by the numbers of syscall.h from 1 *)
Definition syscalls : list (K Z) :=
  [sys_fork; sys_exit; sys_wait; sys_pipe; sys_read; sys_kill; sys_exec; sys_fstat;
   sys_chdir; sys_dup; sys_getpid; sys_sbrk; sys_pause; sys_uptime; sys_open;
   sys_write; sys_mknod; sys_unlink; sys_link; sys_mkdir; sys_close; sys_sem_create;
   sys_sem_wait; sys_sem_post; sys_sem_destroy].

(** The handler of system call [num]; entry 0 of the table is empty. *)
Definition syscall_entry (num : Z) : option (K Z) :=
  if (num >? 0) && (num <? Z.of_nat (length syscalls) + 1)
  then syscalls !! Z.to_nat (num - 1) else None.

Definition set_a0 (p v : Z) : K unit :=
  pr <- get_proc p ;;
  upd_mem (fun m => store32 m (pr.(p_trapframe) + tf_a0) (u32 v)).

Definition syscall : K unit :=
  p <- curproc ;;
  pr <- get_proc p ;;
  num <- gets (fun s => i32 (load32 (k_mem s) (pr.(p_trapframe) + tf_a7))) ;;
  match syscall_entry num with
  | Some h => v <- h ;; set_a0 p v
  | None =>
      printf (cstr "%d %s: unknown sys call %d" ++ [10])
        [VInt pr.(p_pid); VStr (until_nul pr.(p_name)); VInt num] ;;
      set_a0 p (-1)
  end.
End syscall.
