(* ===== verification/SemSpec.v ===== *)
(** * Semaphores: properties

    [sys_sem_wait] and [sys_sem_post] of [sem.c] on the semaphore they found:
    a wait takes one unit, atomically and only when there is one, however other
    processes run while it sleeps; a post adds one and wakes the waiters. *)

From S2P Require Import Prelude CMem Machine Sv32 Spinlock Kalloc Sched SchedProof SchedSpec UserMem.
From S2P Require Import SleepProof Printf AddrSpace File Syscall.

Lemma get_sem_eq a x s : k_sems s !! a = Some x -> get_sem a s = Ok x s.
Proof. intros H. unfold get_sem. by rewrite H. Qed.
Lemma upd_sem_eq a f x s :
  k_sems s !! a = Some x -> upd_sem a f s = Ok tt (set_sems (<[a := f x]> (k_sems s)) s).
Proof. intros H. unfold upd_sem. by rewrite (bind_ok _ _ _ _ _ (get_sem_eq a x s H)). Qed.

(** Waiting changes nothing of the others' data ... *)
Definition sem_waits (_ : unit) (s : kstate) (_ : unit) (s' : kstate) : Prop := same_but_procs s s'.
(** ... and others may do as they like, as long as the semaphore exists. *)
Definition sem_others (a : Z) (_ : unit) (s : kstate) (_ : unit) (s' : kstate) : Prop :=
  resumed s s' /\ is_Some (k_sems s' !! a).

Section wait.
Context `{W : WaitFuel} (p a : Z) (s : kstate).
Hypothesis (Hp : 0 <= p < NPROC) (Hcur : c_proc (k_cpu s) = Some p) (Hnoff : c_noff (k_cpu s) = 0).
Hypothesis (Hok : procs_ok s) (Hlk : lock_free s (LSem a)).

(** Inside the semaphore's critical section, in a stretch that began at [t]. *)
Definition sem_inside (t s1 : kstate) (x : semaphore) : Prop :=
  same_but_procs t s1 /\ k_sems t !! a = Some x /\
  exists s0, same_ctl s s0 /\ length (k_procs s0) = Z.to_nat NPROC /\ in_crit (LSem a) s0 s1 /\
    length (k_procs s1) = Z.to_nat NPROC.

Lemma sem_call_ok s0 : same_ctl s s0 -> length (k_procs s0) = Z.to_nat NPROC -> procs_ok s0 /\ lock_free s0 (LSem a).
Proof.
  intros HC Hl. destruct Hok as (Hc & _ & Hf). split; [|by eapply same_ctl_lock_free].
  split; [by eapply same_ctl_cpu_ok|]. split; [done|]. intros i Hi. eapply same_ctl_lock_free; [done|by apply Hf].
Qed.

Lemma sem_inside_ok t s1 x : sem_inside t s1 x -> procs_ok s1 /\ 0 < c_noff (k_cpu s1) /\ k_sems s1 !! a = Some x.
Proof.
  intros (Hsb & Hx & s0 & HC & Hl & (F1 & F2 & F3) & Hl1). destruct (sem_call_ok s0 HC Hl) as [(Hc & _ & Hf) _].
  pose proof (enter_cpu_ok (LSem a) s0 Hc) as Hc'. split; [|split].
  - split; [unfold cpu_ok, ints_on in *; by rewrite F2, F3|]. split; [done|].
    intros i Hi. unfold lock_free. rewrite F1. apply (enter_lock_free (LSem a) (LProc i) s0); [done|auto].
  - rewrite F3. destruct Hc as (_ & ? & _). simpl. lia.
  - by rewrite (same_but_procs_sems _ _ Hsb).
Qed.

Lemma sem_sleep t s1 x Q :
  sem_inside t s1 x -> (forall t' s' x', sem_inside t' s' x' -> Q tt t' tt s') ->
  rely sem_waits (sem_others a) tt t (sleep (ChSem a) (LSem a) s1) Q.
Proof.
  intros (Hsb & Hx & s0 & HC & Hl & Hin & Hl1) HQ. destruct (sem_call_ok s0 HC Hl) as [Hok0 Hlk0].
  destruct (lookup_lt_is_Some_2 (k_procs s1) (Z.to_nat p) ltac:(rewrite Hl1; lia)) as [pr Hpr].
  assert (Hn0 : c_noff (k_cpu s0) = 0) by (destruct HC as (_ & _ & _ & ->); done).
  assert (Hc0 : c_proc (k_cpu s0) = Some p) by (destruct HC as (_ & _ & -> & _); done).
  destruct (sleep_block p (LSem a) s0 Hp Hc0 Hn0 Hok0 Hlk0 ltac:(done) (ChSem a) s1 pr Hin Hl1 Hpr) as (k & -> & Hk).
  set (sb := with_ctl _ _) in *. cbn [rely]. exists tt. split.
  { eapply same_but_procs_trans; [exact Hsb|]. unfold sb. by destruct s1. }
  intros [] t' [Hres [x' Hx']]. destruct (Hk t' Hres) as (j & Hj & ->). cbn [rely].
  assert (Hlt : length (k_procs t') = Z.to_nat NPROC).
  { destruct Hres as (_ & _ & _ & _ & ->). subst sb. cbn. by rewrite length_insert. }
  apply (HQ t' _ x'). split; [by destruct t'|]. split; [done|].
  exists (leave s0 j (set_procs (awake p (k_procs t')) t')). split; [etrans; [exact HC|apply leave_same_ctl]|]. cbn.
  unfold awake. by rewrite length_alter.
Qed.

(** The loop ends with a unit to take, or with a reason to give up. *)
Lemma sem_wait_loop_spec fuel : forall t s1 x,
  sem_inside t s1 x ->
  rely sem_waits (sem_others a) tt t (sem_wait_loop fuel p a s1) (fun _ t' dead s' => exists x',
    sem_inside t' s' x' /\
    if dead then sem_value x' <= 0 /\ (sem_destroyed x' <> 0 \/
      exists pr, k_procs s' !! Z.to_nat p = Some pr /\ p_killed pr <> 0)
    else 0 < sem_value x').
Proof.
  induction fuel as [|f IH]; intros t s1 x Hin; [done|]. cbn [sem_wait_loop].
  destruct (sem_inside_ok _ _ _ Hin) as (Hok1 & Hn1 & Hx).
  apply rely_bind, runs_rely. rewrite (get_sem_eq a x s1 Hx). cbn [runs].
  destruct (Z.leb_spec (sem_value x) 0) as [Hv|Hv]; [|cbn; by exists x].
  destruct (procs_lookup s1 p Hok1 Hp) as [pr Hpr].
  assert (Hk : (if negb (sem_destroyed x =? 0) then ret 1 else killed p) s1 =
    Ok (if negb (sem_destroyed x =? 0) then 1 else p_killed pr) s1).
  { destruct (negb _); [done|]. by apply killed_inside; [..|lia|]. }
  apply rely_bind, runs_rely. rewrite Hk. cbn [runs].
  destruct (negb ((if negb (sem_destroyed x =? 0) then 1 else p_killed pr) =? 0)) eqn:Ed.
  - cbn. exists x. split; [done|]. split; [done|]. destruct (Z.eqb_spec (sem_destroyed x) 0); [|by left].
    right. exists pr. split; [done|]. cbn in Ed. by destruct (Z.eqb_spec (p_killed pr) 0).
  - apply rely_bind, (sem_sleep t s1 x); [done|]. intros t' s' x' Hin'. by apply (IH t' s' x').
Qed.

(** What [sem_wait] returns, and the step from the stretch's beginning. *)
Definition waited (t : kstate) (v : Z) (s' : kstate) : Prop :=
  exists x, k_sems t !! a = Some x /\ same_ctl s s' /\
    ((v = 0 /\ 0 < sem_value x /\
        same_but_procs (set_sems (<[a := set_sem_value (sem_value x - 1) x]> (k_sems t)) t) s') \/
     (v = -1 /\ sem_value x <= 0 /\ same_but_procs t s' /\
        (sem_destroyed x <> 0 \/ exists pr, k_procs s' !! Z.to_nat p = Some pr /\ p_killed pr <> 0))).

Lemma sem_wait_spec x :
  k_sems s !! a = Some x ->
  rely sem_waits (sem_others a) tt s (sem_wait p a s) (fun _ t v s' => waited t v s').
Proof.
  intros Hx. unfold sem_wait. apply rely_bind, runs_rely, runs_acquire; [done|].
  apply rely_bind. eapply rely_mono.
  { apply (sem_wait_loop_spec wait_fuel s (enter (LSem a) s) x). split; [by destruct s|]. split; [done|].
    exists s. destruct Hok as (_ & Hl & _). by split_and!. }
  intros [] t dead s1 (x1 & Hin & Hd). destruct (sem_inside_ok _ _ _ Hin) as (_ & _ & Hx1).
  destruct Hin as (Hsb & Hxt & s0 & HC & Hl & Hcrit & Hl1). destruct (sem_call_ok s0 HC Hl) as [(Hc0 & _) Hlk0].
  assert (Hctl : forall j s2, same_ctl s (leave s0 j s2)) by (intros j s2; etrans; [exact HC|apply leave_same_ctl]).
  destruct dead.
  - apply rely_bind, runs_rely, (runs_release _ s0); [done..|]. intros j Hj. cbn. exists x1. split; [done|].
    split; [apply Hctl|]. right. split; [done|]. split; [apply Hd|]. split; [|apply Hd].
    eapply same_but_procs_trans; [exact Hsb|]. by destruct s1.
  - apply rely_bind, runs_rely. rewrite (upd_sem_eq a _ x1 s1 Hx1). cbn [runs].
    apply rely_bind, runs_rely, (runs_release _ s0); [done..|]. intros j Hj. cbn. exists x1. split; [done|].
    split; [apply Hctl|]. left. split; [done|]. split; [done|].
    rewrite (same_but_procs_sems _ _ Hsb). unfold same_but_procs in *. rewrite Hsb. by destruct t.
Qed.
End wait.

(** A post adds a unit and makes exactly the waiters runnable. *)
Lemma sem_post_spec s a x :
  procs_ok s -> lock_free s (LSem a) -> k_sems s !! a = Some x ->
  runs (sem_post a s) (fun v s' => v = 0 /\ same_ctl s s' /\
    k_sems s' = <[a := set_sem_value (i32 (sem_value x + 1)) x]> (k_sems s) /\
    k_procs s' = imap (fun i p => woken (c_proc (k_cpu s)) (Some (ChSem a)) (Z.of_nat i) p) (k_procs s)).
Proof.
  intros Hok Hl Hx. unfold sem_post. apply runs_bind, runs_acquire; [done|]. set (s1 := enter (LSem a) s).
  apply runs_bind. rewrite (upd_sem_eq a _ x s1 Hx). cbn [runs]. set (s2 := set_sems _ s1).
  assert (Hok2 : procs_ok s2).
  { destruct Hok as (Hc & Hlen & Hf). split; [exact (enter_cpu_ok (LSem a) s Hc)|]. split; [done|].
    intros i Hi. apply (enter_lock_free (LSem a) (LProc i) s); [done|]. by apply Hf. }
  apply runs_bind. eapply runs_mono; [apply (wakeup_at_spec s2 (Some (ChSem a)) Hok2)|].
  intros _ s3 (j & Hj & ->).
  assert (Hn : 0 < c_noff (k_cpu s2)) by (destruct Hok as ((_ & ? & _) & _); simpl; lia).
  rewrite (Hj Hn). apply runs_bind, (runs_release _ s); [apply Hok|done|done|]. intros i Hi. cbn. by split_and!.
Qed.

(** ** Results *)

(** C34: a wait on a semaphore never takes a unit that is not there.  Whatever
    other processes do while it sleeps, each time it gives up the CPU it has
    changed nothing but its own process state; when it returns 0 the value was
    positive at the beginning of its last stretch on the CPU and is one less at
    the end of it, with nothing in between; it returns -1, without a change, only
    if the value was not positive and the semaphore was destroyed or the process
    killed.  Locks and interrupts are as before the call.  It stops only if it is
    woken in vain more often than the bound on waiting. *)
Theorem sem_wait_correct `{W : WaitFuel} (p a : Z) (s : kstate) (x : semaphore) :
  0 <= p < NPROC -> c_proc (k_cpu s) = Some p -> c_noff (k_cpu s) = 0 -> procs_ok s -> lock_free s (LSem a) ->
  k_sems s !! a = Some x ->
  rely sem_waits (sem_others a) tt s (sem_wait p a s) (fun _ t v s' => waited p a s t v s').
Proof. intros Hp Hc Hn Hok Hl Hx. by apply (sem_wait_spec p a s Hp Hc Hn Hok Hl x). Qed.

(** ** Witness *)

Definition demo_sem (value : Z) (s : kstate) : kstate :=
  set_sems {[KERNBASE := mkSem value 1 0]}
    (set_locks (<[LSem KERNBASE := mkLock 0 false "sem"]> (k_locks s)) (set_cpu (mkCpu (Some 0) 0 0) s)).

(** An empty semaphore: process 0 sleeps until another one posts. *)
Lemma sem_wait_correct_witness : exists s,
  k_sems s !! KERNBASE = Some (mkSem 0 1 0) /\
  rely sem_waits (sem_others KERNBASE) tt s (@sem_wait 2%nat 0 KERNBASE s)
    (fun _ t v s' => waited 0 KERNBASE s t v s').
Proof.
  destruct demo_sched as (s & (Hc & Hlen & Hl) & Hn & _). exists (demo_sem 0 s).
  assert (Hx : k_sems (demo_sem 0 s) !! KERNBASE = Some (mkSem 0 1 0)) by apply lookup_singleton_eq.
  split; [exact Hx|].
  apply (@sem_wait_correct 2%nat 0 KERNBASE (demo_sem 0 s) (mkSem 0 1 0)).
  - split; [discriminate|reflexivity].
  - reflexivity.
  - reflexivity.
  - split; [|split; [exact Hlen|]].
    + destruct Hc as (H1 & H2 & H3). split; [exact H1|]. split; [discriminate|]. intros Hpos. discriminate Hpos.
    + intros i Hi. destruct (Hl i Hi) as [nm Hnm]. exists nm. cbn. rewrite lookup_insert_ne by discriminate. exact Hnm.
  - exists "sem". apply lookup_insert_eq.
  - exact Hx.
Defined.
