(* ===== verification/Trap.v ===== *)
(** * Traps, interrupts and boot

    Models [src/os/kernel/irqtrap.c] and [main] of [bootflow.c].  What the
    hardware reports at an interrupt (the interrupt number the PLIC hands out
    and the UART's transmit-idle bit) is an argument of the handlers. *)

From S2P Require Import Prelude CMem Machine Sv32 Spinlock Kalloc Printf Sched AddrSpace Sleeplock Bio.
From S2P Require Import Virtio Codec Log Fs Console Pipe File Proc Exec Syscall.

Definition UART0_IRQ : Z := 10.
Definition VIRTIO0_IRQ : Z := 1.

(** [plic_claim()] and [LSR_TX_IDLE] as the handlers find them. *)
Record hw := mkHw { hw_irq : Z; hw_tx_idle : bool }.

Definition w_sepc (v : Z) : K unit :=
  upd_csr (fun c => mkCsrs c.(r_sstatus) v c.(r_scause) c.(r_stval) c.(r_stvec)
                      c.(r_satp) c.(r_time) c.(r_stimecmp)).
Definition w_stvec (v : Z) : K unit :=
  upd_csr (fun c => mkCsrs c.(r_sstatus) c.(r_sepc) c.(r_scause) c.(r_stval) v
                      c.(r_satp) c.(r_time) c.(r_stimecmp)).
Definition w_stimecmp (v : Z) : K unit :=
  upd_csr (fun c => mkCsrs c.(r_sstatus) c.(r_sepc) c.(r_scause) c.(r_stval)
                      c.(r_stvec) c.(r_satp) c.(r_time) v).

Definition trapinit : K unit := initlock LTicks "time".

Definition clockintr : K unit :=
  acquire LTicks ;;
  t <- gets k_ticks ;;
  modify (set_ticks (u32 (t + 1))) ;;
  now <- gets k_ticks ;;
  wakeup ChTicks ;;
  release LTicks ;;
  mlfq_tick ;;
  (if now mod MLFQ_BOOST_TICKS =? 0 then mlfq_mark_boost else ret tt) ;;
  c <- gets k_csr ;;
  w_stimecmp (u32 (c.(r_time) + 1000000)).

Section trap.
Context `{L : Layout, W : WaitFuel, D : BlockDev}.

Definition trapinithart : K unit := w_stvec kernelvec.

Definition devintr (h : hw) : K Z :=
  c <- gets k_csr ;;
  let scause := c.(r_scause) in
  if scause =? 0x80000009 then
    (if h.(hw_irq) =? UART0_IRQ then uartintr h.(hw_tx_idle)
     else if h.(hw_irq) =? VIRTIO0_IRQ then virtio_disk_intr
     else if negb (h.(hw_irq) =? 0)
     then printf (cstr "unexpected interrupt irq=%d" ++ [10]) [VInt h.(hw_irq)]
     else ret tt) ;;
    ret 1
  else if scause =? 0x80000005 then clockintr ;; ret 2
  else ret 0.

Definition prepare_return : K unit :=
  p <- curproc ;;
  intr_off ;;
  w_stvec (u32 (TRAMPOLINE + (uservec - trampoline))) ;;
  c <- gets k_csr ;;
  pr <- get_proc p ;;
  let tf := pr.(p_trapframe) in
  upd_mem (fun m => store32 m (tf + tf_kernel_satp) c.(r_satp)) ;;
  upd_mem (fun m => store32 m (tf + tf_kernel_sp) (u32 (pr.(p_kstack) + PGSIZE))) ;;
  upd_mem (fun m => store32 m (tf + tf_kernel_trap) usertrap_addr) ;;
  upd_mem (fun m => store32 m (tf + tf_kernel_hartid) 0) ;;
  let x := Z.land c.(r_sstatus) (u32 (Z.lnot SSTATUS_SPP)) in
  let x := Z.lor x SSTATUS_SPIE in
  w_sstatus x ;;
  epc <- gets (fun s => load32 (k_mem s) (tf + tf_epc)) ;;
  w_sepc epc.

Definition usertrap (h : hw) : K Z :=
  c <- gets k_csr ;;
  if has c.(r_sstatus) SSTATUS_SPP then panic "usertrap: not from user mode" else
  w_stvec kernelvec ;;
  p <- curproc ;;
  pr <- get_proc p ;;
  let tf := pr.(p_trapframe) in
  upd_mem (fun m => store32 m (tf + tf_epc) c.(r_sepc)) ;;
  which_dev <- (
    if c.(r_scause) =? 8 then
      k <- killed p ;;
      (if negb (k =? 0) then kexit (-1) else ret tt) ;;
      upd_mem (fun m => store32 m (tf + tf_epc) (u32 (load32 m (tf + tf_epc) + 4))) ;;
      intr_on ;;
      syscall ;;
      ret 0
    else
      d <- devintr h ;;
      if negb (d =? 0) then ret d else
      ok <- (if (c.(r_scause) =? 15) || (c.(r_scause) =? 13) then
               pa <- vmfault pr.(p_as).(pagetable) c.(r_stval) (c.(r_scause) =? 13) ;;
               ret (negb (pa =? 0))
             else ret false) ;;
      (if (ok : bool) then ret tt else
       printf (cstr "usertrap(): unexpected scause 0x%x pid=%d" ++ [10])
         [VInt c.(r_scause); VInt pr.(p_pid)] ;;
       printf (cstr "            sepc=0x%x stval=0x%x" ++ [10])
         [VInt c.(r_sepc); VInt c.(r_stval)] ;;
       setkilled p) ;;
      ret 0) ;;
  k <- killed p ;;
  (if negb (k =? 0) then kexit (-1) else ret tt) ;;
  (if which_dev =? 2 then yield true else ret tt) ;;
  prepare_return ;;
  pr <- get_proc p ;;
  ret (MAKE_SATP pr.(p_as).(pagetable)).

Definition kerneltrap (h : hw) : K unit :=
  c <- gets k_csr ;;
  if negb (has c.(r_sstatus) SSTATUS_SPP)
  then panic "kerneltrap: not from supervisor mode" else
  i <- intr_get ;;
  if negb (i =? 0) then panic "kerneltrap: interrupts enabled" else
  d <- devintr h ;;
  if d =? 0 then
    printf (cstr "scause=0x%x sepc=0x%x stval=0x%x" ++ [10])
      [VInt c.(r_scause); VInt c.(r_sepc); VInt c.(r_stval)] ;;
    panic "kerneltrap"
  else
  (if d =? 2 then
     p <- myproc ;;
     match p with Some _ => yield true | None => ret tt end
   else ret tt) ;;
  w_sepc c.(r_sepc) ;;
  w_sstatus c.(r_sstatus).

(** The first run of a process; its result is the [satp] for user mode. *)
Definition forkret : K Z :=
  p <- curproc ;;
  release (LProc p) ;;
  first <- gets k_first ;;
  (if negb (first =? 0) then
     fsinit ROOTDEV ;;
     modify (set_first 0) ;;
     a0 <- kexec (cstr "/init") [cstr "/init"] ;;
     set_a0 p a0 ;;
     pr <- get_proc p ;;
     v <- gets (fun s => load32 (k_mem s) (pr.(p_trapframe) + tf_a0)) ;;
     if v =? u32 (-1) then panic "exec" else ret tt
   else ret tt) ;;
  prepare_return ;;
  pr <- get_proc p ;;
  ret (MAKE_SATP pr.(p_as).(pagetable)).

(** [main] up to the call of [scheduler()], without the interrupt controller. *)
Definition main_init `{V : VirtioDev} : K unit :=
  consoleinit ;;
  printfinit ;;
  printf [10] [] ;;
  printf (cstr "YHsys RV32-UP kernel booting" ++ [10]) [] ;;
  printf (cstr "YHsys: Sv32 + COW + LazyAlloc + UP" ++ [10]) [] ;;
  printf [10] [] ;;
  kinit ;;
  kvminit ;;
  kvminithart ;;
  procinit ;;
  trapinit ;;
  trapinithart ;;
  binit ;;
  iinit ;;
  fileinit ;;
  virtio_disk_init ;;
  userinit.
End trap.
