(* ===== verification/Boot.v ===== *)
(** * Start in machine mode, interrupt controller and serial line

    Models [src/os/kernel/start.c] and [plic.c], and [uartinit] of [uart.c]:
    the registers they write.  The devices are what the writes mean to them: the
    interrupt controller's priorities, enable bits and threshold; the 16550's
    divisor latch, which shares addresses with other registers. *)

From S2P Require Import Prelude CMem Machine Sv32 Spinlock Trap.

(** ** Machine mode *)

Record mregs := mkMregs {
  mr_mstatus : Z; mr_mepc : Z; mr_satp : Z; mr_medeleg : Z; mr_mideleg : Z; mr_sie : Z;
  mr_mie : Z; mr_pmpaddr0 : Z; mr_pmpcfg0 : Z; mr_mcounteren : Z; mr_time : Z; mr_stimecmp : Z;
}.

Definition MSTATUS_MPP_MASK : Z := Z.shiftl 3 11.
Definition MSTATUS_MPP_S : Z := Z.shiftl 1 11.
Definition SIE_SEIE : Z := Z.shiftl 1 9.
Definition SIE_STIE : Z := Z.shiftl 1 5.
Definition MIE_STIE : Z := Z.shiftl 1 5.

Definition timerinit (r : mregs) : mregs :=
  mkMregs (mr_mstatus r) (mr_mepc r) (mr_satp r) (mr_medeleg r) (mr_mideleg r) (mr_sie r)
    (Z.lor (mr_mie r) MIE_STIE) (mr_pmpaddr0 r) (mr_pmpcfg0 r) (Z.lor (mr_mcounteren r) 2)
    (mr_time r) (u32 (mr_time r + 1000000)).

(** The registers at [mret]; [main] is the address of [main]. *)
Definition start (main : Z) (r : mregs) : mregs :=
  let x := Z.lor (Z.land (mr_mstatus r) (u32 (Z.lnot MSTATUS_MPP_MASK))) MSTATUS_MPP_S in
  timerinit (mkMregs x main 0 0xffff 0xffff (Z.lor (Z.lor (mr_sie r) SIE_SEIE) SIE_STIE)
    (mr_mie r) 0xffffffff 0xf (mr_mcounteren r) (mr_time r) (mr_stimecmp r)).

(** [mret] goes to [mepc] in the mode of bits 11 and 12 of [mstatus]. *)
Definition mret_mode (r : mregs) : Z := Z.land (Z.shiftr (mr_mstatus r) 11) 3.

(** [start] ends in supervisor mode at [main], paging off, with every interrupt
    and exception delegated, external and timer interrupts enabled, and all of
    memory accessible; it leaves the other bits of [mstatus] alone. *)
Lemma start_enters_main main r :
  let r' := start main r in
  mret_mode r' = 1 /\ mr_mepc r' = main /\ mr_satp r' = 0 /\
  (forall n, 0 <= n < 16 -> Z.testbit (mr_medeleg r') n = true /\ Z.testbit (mr_mideleg r') n = true) /\
  Z.testbit (mr_sie r') 9 = true /\ Z.testbit (mr_sie r') 5 = true /\ Z.testbit (mr_mie r') 5 = true /\
  (forall n, 0 <= n < 32 -> n <> 11 -> n <> 12 -> Z.testbit (mr_mstatus r') n = Z.testbit (mr_mstatus r) n).
Proof.
  cbv zeta. split; [|split; [done|split; [done|split; [|split; [|split; [|split]]]]]].
  - unfold mret_mode. apply Z.bits_inj'. intros n Hn. cbn [start timerinit mr_mstatus].
    rewrite Z.land_spec, Z.shiftr_spec, Z.lor_spec, Z.land_spec by done.
    destruct (decide (n = 0)) as [->|H0]; [by rewrite andb_false_r|].
    destruct (decide (n = 1)) as [->|H1]; [by rewrite andb_false_r|].
    assert (Hz : forall c, 0 <= c < 4 -> Z.testbit c n = false).
    { intros c Hc. destruct (decide (c = 0)) as [->|]; [apply Z.bits_0|]. apply Z.bits_above_log2; [lia|].
      assert (Z.log2 c < 2) by (apply Z.log2_lt_pow2; lia). lia. }
    rewrite (Hz 3), (Hz 1) by lia. apply andb_false_r.
  - intros n Hn. cbn [start timerinit mr_medeleg mr_mideleg].
    change 0xffff with (Z.ones 16). by rewrite Z.ones_spec_low by lia.
  - cbn [start timerinit mr_sie]. rewrite !Z.lor_spec. change (Z.testbit SIE_SEIE 9) with true. by rewrite orb_true_r.
  - cbn [start timerinit mr_sie]. rewrite !Z.lor_spec. change (Z.testbit SIE_STIE 5) with true. by rewrite orb_true_r.
  - cbn [start timerinit mr_mie]. rewrite Z.lor_spec. change (Z.testbit MIE_STIE 5) with true. by rewrite orb_true_r.
  - intros n Hn H11 H12. cbn [start timerinit mr_mstatus]. rewrite Z.lor_spec, Z.land_spec.
    unfold u32. rewrite Z.mod_pow2_bits_low, Z.lnot_spec by lia.
    unfold MSTATUS_MPP_MASK, MSTATUS_MPP_S. rewrite !Z.shiftl_spec by lia.
    assert (Hz : forall c, 0 <= c < 4 -> Z.testbit c (n - 11) = false).
    { intros c Hc. destruct (decide (n < 11)); [apply Z.testbit_neg_r; lia|].
      destruct (decide (c = 0)) as [->|]; [apply Z.bits_0|]. apply Z.bits_above_log2; [lia|].
      assert (Z.log2 c < 2) by (apply Z.log2_lt_pow2; lia). lia. }
    rewrite (Hz 3), (Hz 1) by lia. by rewrite andb_true_r, orb_false_r.
Qed.

(** ** The interrupt controller *)

Definition PLIC : Z := 0x0c000000.
Definition PLIC_SENABLE (hart : Z) : Z := PLIC + 0x2080 + hart * 0x100.
Definition PLIC_SPRIORITY (hart : Z) : Z := PLIC + 0x201000 + hart * 0x2000.
Definition PLIC_SCLAIM (hart : Z) : Z := PLIC + 0x201004 + hart * 0x2000.

(** Device registers by address; a write is a store. *)
Abbreviation mmio := (gmap Z Z).

Definition plicinit (d : mmio) : mmio :=
  <[PLIC + VIRTIO0_IRQ * 4 := 1]> (<[PLIC + UART0_IRQ * 4 := 1]> d).
Definition plicinithart (d : mmio) : mmio :=
  <[PLIC_SPRIORITY 0 := 0]>
    (<[PLIC_SENABLE 0 := Z.lor (Z.shiftl 1 UART0_IRQ) (Z.shiftl 1 VIRTIO0_IRQ)]> d).
(** The device answers a read of the claim register. *)
Definition plic_claim (d : mmio) : Z := i32 (default 0 (d !! PLIC_SCLAIM 0)).
Definition plic_complete (irq : Z) (d : mmio) : mmio := <[PLIC_SCLAIM 0 := irq]> d.

(** Source [irq] interrupts the hart: its priority is above the threshold and it
    is enabled. *)
Definition plic_delivers (d : mmio) (irq : Z) : bool :=
  (default 0 (d !! (PLIC + irq * 4)) >? default 0 (d !! PLIC_SPRIORITY 0)) &&
  Z.testbit (default 0 (d !! (PLIC_SENABLE 0 + irq / 32 * 4))) (irq mod 32).

(** From reset exactly the serial line and the disk interrupt. *)
Lemma plic_exact irq :
  0 < irq < 1024 -> plic_delivers (plicinithart (plicinit ∅)) irq = true <-> irq = UART0_IRQ \/ irq = VIRTIO0_IRQ.
Proof.
  intros Hi. unfold plic_delivers, plicinithart, plicinit.
  assert (Hall : forallb (fun i => Bool.eqb (plic_delivers (plicinithart (plicinit ∅)) i) ((i =? UART0_IRQ) || (i =? VIRTIO0_IRQ)))
    (seqZ 0 1024) = true) by (vm_compute; reflexivity).
  rewrite forallb_forall in Hall. specialize (Hall irq ltac:(apply list_elem_of_In, elem_of_seqZ; lia)).
  apply Bool.eqb_prop in Hall. unfold plic_delivers, plicinithart, plicinit in Hall. rewrite Hall.
  rewrite orb_true_iff, !Z.eqb_eq. done.
Qed.

(** ** The serial line *)

Definition IER : Z := 1.
Definition IER_RX_ENABLE : Z := Z.shiftl 1 0.
Definition IER_TX_ENABLE : Z := Z.shiftl 1 1.
Definition FCR : Z := 2.
Definition FCR_FIFO_ENABLE : Z := Z.shiftl 1 0.
Definition FCR_FIFO_CLEAR : Z := Z.shiftl 3 1.
Definition LCR : Z := 3.
Definition LCR_EIGHT_BITS : Z := Z.shiftl 3 0.
Definition LCR_BAUD_LATCH : Z := Z.shiftl 1 7.

(** The writes of [uartinit], in order; its lock is set up in [Console.uartinit]. *)
Definition uartinit_writes : list (Z * Z) :=
  [(IER, 0x00); (LCR, LCR_BAUD_LATCH); (0, 0x03); (1, 0x00); (LCR, LCR_EIGHT_BITS);
   (FCR, Z.lor FCR_FIFO_ENABLE FCR_FIFO_CLEAR); (IER, Z.lor IER_TX_ENABLE IER_RX_ENABLE)].

(** A 16550: while the latch bit of [LCR] is set, registers 0 and 1 are the
    divisor. *)
Record uart16550 := mkUart16550 { ux_divisor : Z; ux_ier : Z; ux_lcr : Z; ux_fcr : Z; ux_sent : list Z }.
Definition uart16550_write (u : uart16550) (w : Z * Z) : uart16550 :=
  let '(reg, v) := w in
  let latch := Z.testbit (ux_lcr u) 7 in
  if reg =? 0 then
    if latch then mkUart16550 (ux_divisor u / 256 * 256 + v) (ux_ier u) (ux_lcr u) (ux_fcr u) (ux_sent u)
    else mkUart16550 (ux_divisor u) (ux_ier u) (ux_lcr u) (ux_fcr u) (ux_sent u ++ [v])
  else if reg =? IER then
    if latch then mkUart16550 (ux_divisor u mod 256 + 256 * v) (ux_ier u) (ux_lcr u) (ux_fcr u) (ux_sent u)
    else mkUart16550 (ux_divisor u) v (ux_lcr u) (ux_fcr u) (ux_sent u)
  else if reg =? FCR then mkUart16550 (ux_divisor u) (ux_ier u) (ux_lcr u) v (ux_sent u)
  else if reg =? LCR then mkUart16550 (ux_divisor u) (ux_ier u) v (ux_fcr u) (ux_sent u)
  else u.

(** Whatever the device's state: divisor 3 (38.4K), 8 bits, FIFOs on, both
    interrupts enabled, and nothing has been sent. *)
Lemma uartinit_configures u :
  let u' := foldl uart16550_write u uartinit_writes in
  ux_divisor u' = 3 /\ ux_lcr u' = 3 /\ ux_fcr u' = 7 /\ ux_ier u' = 3 /\ ux_sent u' = ux_sent u.
Proof.
  cbv zeta. unfold uartinit_writes. cbn [foldl].
  assert (Hoff : ux_sent (uart16550_write u (IER, 0)) = ux_sent u) by (cbn; by destruct (ux_lcr u); try case_match).
  assert (Hs : ux_sent (uart16550_write (uart16550_write u (IER, 0)) (LCR, LCR_BAUD_LATCH)) = ux_sent u) by exact Hoff.
  assert (Hl : ux_lcr (uart16550_write (uart16550_write u (IER, 0)) (LCR, LCR_BAUD_LATCH)) = 128) by reflexivity.
  destruct (uart16550_write (uart16550_write u _) _) as [d i l f o]. cbn [ux_sent ux_lcr] in Hs, Hl. subst l o.
  cbn -[Z.div Z.modulo Z.mul Z.add]. split; [|done].
  rewrite Z.mul_0_r, Z.add_0_r, (Z.add_comm (d / 256 * 256)), Z_mod_plus_full. done.
Qed.
