(* ===== verification/Umalloc.v ===== *)
(** * The memory allocator of user programs

    Models [src/os/user/umalloc.c], the allocator of Kernighan and Ritchie: free
    blocks form a circular list in address order, each with a header of a link
    and a size in units of the header's 8 bytes; the header lies in the block
    itself.  The list starts at the static [base], whose size is 0.  Memory is
    bytes; the static [freep] and the end of the heap are fields of the state.

    The system call [sbrk] is the class [Sbrk]. *)

From S2P Require Import Prelude CMem Machine.

Record ustate := mkUstate { u_mem : mem; u_freep : Z; u_brk : Z }.
Definition set_u_mem (m : mem) (s : ustate) : ustate := mkUstate m (u_freep s) (u_brk s).
Definition set_u_freep (p : Z) (s : ustate) : ustate := mkUstate (u_mem s) p (u_brk s).

Abbreviation U := (M ustate).

(** Where the linker puts [base], and [sbrk]. *)
Class Sbrk := { base_addr : Z; sbrk : Z -> U Z }.

(** [sizeof(Header)], and [(char * )-1]. *)
Definition HDR : Z := 8.
Definition SBRK_ERROR : Z := 2^32 - 1.

Definition hdr_ptr (p : Z) : U Z := gets (fun s => load32 (u_mem s) p).
Definition hdr_size (p : Z) : U Z := gets (fun s => load32 (u_mem s) (p + 4)).
Definition set_ptr (p v : Z) : U unit := modify (fun s => set_u_mem (store32 (u_mem s) p v) s).
Definition set_size (p v : Z) : U unit := modify (fun s => set_u_mem (store32 (u_mem s) (p + 4) v) s).
Definition set_freep (p : Z) : U unit := modify (set_u_freep p).

(** [p + n] for a [Header *p] *)
Definition hdr_add (p n : Z) : Z := u32 (p + HDR * n).

Section umalloc.
Context `{SB : Sbrk}.

(** The search of [free] for the place of [bp] in the list. *)
Fixpoint free_find (fuel : nat) (bp p : Z) : U Z :=
  match fuel with
  | O => nofuel
  | S f =>
      next <- hdr_ptr p ;;
      if (bp >? p) && (bp <? next) then ret p else
      if (p >=? next) && ((bp >? p) || (bp <? next)) then ret p else
      free_find f bp next
  end.

(** The list is traversed twice at most; every block has 8 bytes. *)
Definition list_fuel (s : ustate) : nat := Z.to_nat (u_brk s / 4 + 8).

Definition free (ap : Z) : U unit :=
  let bp := hdr_add ap (-1) in
  freep <- gets u_freep ;;
  fuel <- gets list_fuel ;;
  p <- free_find fuel bp freep ;;
  next <- hdr_ptr p ;;
  bsize <- hdr_size bp ;;
  (if hdr_add bp bsize =? next then
     nsize <- hdr_size next ;;
     set_size bp (u32 (bsize + nsize)) ;;
     nnext <- hdr_ptr next ;;
     set_ptr bp nnext
   else set_ptr bp next) ;;
  psize <- hdr_size p ;;
  (if hdr_add p psize =? bp then
     bsize <- hdr_size bp ;;
     set_size p (u32 (psize + bsize)) ;;
     bnext <- hdr_ptr bp ;;
     set_ptr p bnext
   else set_ptr p bp) ;;
  set_freep p.

Definition morecore (nu : Z) : U Z :=
  let nu := if nu <? 4096 then 4096 else nu in
  p <- sbrk (i32 (u32 (nu * HDR))) ;;
  if p =? SBRK_ERROR then ret 0 else
  set_size p nu ;;
  free (hdr_add p 1) ;;
  gets u_freep.

(** [p->s.size >= nunits]: the block is taken, or its end. *)
Definition malloc_take (nunits prevp p : Z) : U Z :=
  size <- hdr_size p ;;
  p <- (if size =? nunits then
          next <- hdr_ptr p ;;
          set_ptr prevp next ;;
          ret p
        else
          set_size p (u32 (size - nunits)) ;;
          let p := hdr_add p (u32 (size - nunits)) in
          set_size p nunits ;;
          ret p) ;;
  set_freep prevp ;;
  ret (hdr_add p 1).

Fixpoint malloc_loop (fuel : nat) (nunits prevp p : Z) : U Z :=
  match fuel with
  | O => nofuel
  | S f =>
      size <- hdr_size p ;;
      if size >=? nunits then malloc_take nunits prevp p else
      freep <- gets u_freep ;;
      if p =? freep then
        p <- morecore nunits ;;
        if p =? 0 then ret 0 else
        next <- hdr_ptr p ;;
        malloc_loop f nunits p next
      else
        next <- hdr_ptr p ;;
        malloc_loop f nunits p next
  end.

Definition units_of (nbytes : Z) : Z := u32 (nbytes + HDR - 1) / HDR + 1.

Definition malloc (nbytes : Z) : U Z :=
  let nunits := units_of nbytes in
  freep <- gets u_freep ;;
  prevp <- (if freep =? 0 then
              set_ptr base_addr base_addr ;;
              set_freep base_addr ;;
              set_size base_addr 0 ;;
              ret base_addr
            else ret freep) ;;
  p <- hdr_ptr prevp ;;
  fuel <- gets list_fuel ;;
  malloc_loop fuel nunits prevp p.
End umalloc.

(** ** The contract of [sbrk]

    A request for more memory is refused with nothing changed, or the new memory
    starts at the old end of the heap and the rest is as it was.  The kernel
    keeps the top page of the address space for itself. *)
Definition grown (s : ustate) (n : Z) (s' : ustate) : Prop :=
  u_freep s' = u_freep s /\ u_brk s' = u_brk s + n /\ u_brk s' < 2^32 - 4096 /\
  forall b, ~ (u_brk s <= b < u_brk s + n) -> load8 (u_mem s') b = load8 (u_mem s) b.

Class SbrkOk (SB : Sbrk) : Prop := {
  base_pos : 0 < base_addr < 2^32 - 4096;
  sbrk_ok : forall n s, 0 < n < 2^31 -> 0 < u_brk s < 2^32 - 4096 ->
    runs (sbrk n s) (fun r s' => r = SBRK_ERROR /\ s' = s \/ r = u_brk s /\ grown s n s');
}.

(** A process whose heap may grow up to [lim]. *)
Definition sbrk_upto (base lim : Z) : Sbrk :=
  {| base_addr := base;
     sbrk n := fun s =>
       if u_brk s + n <? lim then Ok (u_brk s) (mkUstate (u_mem s) (u_freep s) (u_brk s + n))
       else Ok SBRK_ERROR s |}.

Lemma sbrk_upto_ok base lim : 0 < base < 2^32 - 4096 -> lim < 2^32 - 4096 -> SbrkOk (sbrk_upto base lim).
Proof.
  intros Hb Hl. split; [done|]. intros n s Hn Hs. unfold sbrk, sbrk_upto.
  destruct (Z.ltb_spec (u_brk s + n) lim); [right|by left]. split; [done|]. split; [done|].
  split; [done|]. split; [simpl; lia|done].
Qed.
