(* ===== verification/UmallocProof.v ===== *)
(** * The memory allocator of user programs: lemmas

    The circular list as a list of blocks in address order, the invariant that
    relates it to memory, and the specifications of [free], [morecore] and
    [malloc]. *)

From stdpp Require Import sorting.
From S2P Require Import Prelude CMem Machine Umalloc.

(** A block: the address of its header and its size in units. *)
Abbreviation block := (Z * Z)%type.
Abbreviation baddr := (fst : block -> Z).
Abbreviation bsize := (snd : block -> Z).
Definition bend (x : block) : Z := x.1 + 8 * x.2.

(** ** The list in memory *)

(** The blocks are linked in this order, the last one to [z]. *)
Fixpoint seg (m : mem) (l : list block) (z : Z) : Prop :=
  match l with
  | [] => True
  | x :: l' => load32 m x.1 = hd z (baddr <$> l') /\ load32 m (x.1 + 4) = x.2 /\ seg m l' z
  end.

Lemma useg_app m l1 l2 z : seg m (l1 ++ l2) z <-> seg m l1 (hd z (baddr <$> l2)) /\ seg m l2 z.
Proof.
  induction l1 as [|x l1 IH]; simpl; [tauto|]. rewrite IH.
  destruct l1; simpl; tauto.
Qed.

Lemma useg_ext m m' l z :
  (forall x b, x ∈ l -> x.1 <= b < x.1 + 8 -> load8 m' b = load8 m b) -> seg m l z -> seg m' l z.
Proof.
  induction l as [|x l IH]; intros Hx; simpl; [done|]. intros (H1 & H2 & H3).
  assert (H : forall k, 0 <= k < 8 -> load8 m' (x.1 + k) = load8 m (x.1 + k))
    by (intros k Hk; apply (Hx x); [left|lia]).
  split; [|split].
  - rewrite <- H1. apply load32_ext. intros k Hk. apply H. lia.
  - rewrite <- H2. apply load32_ext. intros k Hk. rewrite <- Z.add_assoc. apply H. lia.
  - apply IH; [|done]. intros y b Hy. apply Hx. by right.
Qed.

(** ** Order and coverage *)

(** [x] ends before [y] and does not touch it; a header needs 8 bytes. *)
Definition before (x y : block) : Prop := bend x < y.1 /\ x.1 + 8 <= y.1.

Definition covers (l : list block) (b : Z) : Prop := exists x, x ∈ l /\ x.1 <= b < bend x.
Definition disj (x y : block) : Prop := bend x <= y.1 \/ bend y <= x.1.

(** Blocks of the heap. *)
Definition in_heap (base brk : Z) (x : block) : Prop := base + 8 <= x.1 /\ 1 <= x.2 /\ bend x <= brk.

(** The free list [fl] (without [base]) and the blocks [al] in use. *)
Record heap_ok (base : Z) (s : ustate) (fl al : list block) : Prop := {
  h_seg : seg (u_mem s) ((base, 0) :: fl) base;
  h_sorted : StronglySorted before ((base, 0) :: fl);
  h_free : Forall (in_heap base (u_brk s)) fl;
  h_brk : base + 8 <= u_brk s < 2^32 - 4096;
  h_freep : u_freep s ∈ baddr <$> ((base, 0) :: fl);
  h_used : Forall (in_heap base (u_brk s)) al;
  h_size : forall x, x ∈ al -> load32 (u_mem s) (x.1 + 4) = x.2;
  h_apart : forall x y, x ∈ al -> y ∈ fl -> disj x y;
  h_alone : StronglySorted disj al;
  h_align : forall x, x ∈ fl \/ x ∈ al -> x.1 mod 8 = 0;
  h_end : u_brk s mod 8 = 0;
}.

(** The bytes in use by the program: those of allocated blocks. *)
Definition kept (al : list block) (m m' : mem) : Prop :=
  forall b, covers al b -> load8 m' b = load8 m b.

(** ** Looking at the list *)

Lemma seg_at m l1 x l2 z :
  seg m (l1 ++ x :: l2) z -> load32 m x.1 = hd z (baddr <$> l2) /\ load32 m (x.1 + 4) = x.2.
Proof. rewrite useg_app. simpl. tauto. Qed.

Lemma seg_next m l1 x y l2 z : seg m (l1 ++ x :: y :: l2) z -> load32 m x.1 = y.1.
Proof. intros H. by apply seg_at in H as [H _]. Qed.

Lemma seg_last m l1 x z : seg m (l1 ++ [x]) z -> load32 m x.1 = z.
Proof. intros H. by apply seg_at in H as [H _]. Qed.

Lemma sorted_after l1 x l2 y : StronglySorted before (l1 ++ x :: l2) -> y ∈ l2 -> before x y.
Proof.
  intros H Hy. apply StronglySorted_app_1_r, StronglySorted_cons in H as [H _].
  by rewrite Forall_forall in H; apply H.
Qed.
Lemma sorted_prior l1 x l2 y : StronglySorted before (l1 ++ x :: l2) -> y ∈ l1 -> before y x.
Proof. intros H Hy. eapply StronglySorted_app_1_elem_of; [exact H|done|left]. Qed.

(** ** The search of [free] *)

(** The place of the address [a]: after [x], before [l2]. *)
Definition placed_at (ns : list block) (a p : Z) : Prop :=
  exists l1 x l2, ns = l1 ++ x :: l2 /\ p = x.1 /\ x.1 < a /\ forall y, y ∈ l2 -> a < y.1.

Section find.
Context (base : Z) (s : ustate) (fl : list block) (a : Z).
Let ns := (base, 0) :: fl.
Hypothesis (Hseg : seg (u_mem s) ns base) (Hsort : StronglySorted before ns).
Hypothesis (Hbase : base < a) (Hne : forall y, y ∈ ns -> y.1 <> a).

Lemma free_find_up l2 : forall l1 x fuel,
  ns = l1 ++ x :: l2 -> x.1 < a -> (length l2 < fuel)%nat ->
  runs (free_find fuel a x.1 s) (fun p s' => s' = s /\ placed_at ns a p).
Proof.
  induction l2 as [|y l2 IH]; intros l1 x fuel Hns Hx Hf; (destruct fuel as [|f]; [lia|]); cbn [free_find];
    pose proof Hseg as Hs; rewrite Hns in Hs.
  - apply seg_last in Hs. rewrite (bind_ok _ _ s base s) by (unfold hdr_ptr, gets; by rewrite Hs).
    assert (Hb : base <= x.1).
    { destruct l1 as [|y l1]; [by injection Hns as <- _|]. injection Hns as <- Hfl.
      assert (before (base, 0) x) as [_ ?]; [|simpl in *; lia].
      eapply (sorted_after []); [exact Hsort|]. rewrite Hfl. set_solver. }
    replace (a <? base) with false by lia. rewrite andb_false_r.
    replace (x.1 >=? base) with true by lia. replace (a >? x.1) with true by lia. cbn [andb orb runs ret].
    split; [done|]. exists l1, x, []. split; [done|]. split; [done|]. split; [done|]. set_solver.
  - pose proof (seg_next _ _ _ _ _ _ Hs) as Hn.
    rewrite (bind_ok _ _ s y.1 s) by (unfold hdr_ptr, gets; by rewrite Hn).
    assert (Hxy : before x y) by (eapply sorted_after; [rewrite <- Hns; exact Hsort|left]).
    assert (Hya : y.1 <> a) by (apply Hne; rewrite Hns; set_solver).
    replace (a >? x.1) with true by lia. cbn [andb].
    destruct (Z.ltb_spec a y.1) as [Hlt|Hge].
    + cbn [runs ret]. split; [done|]. exists l1, x, (y :: l2). do 3 (split; [done|]).
      intros z [->|Hz]%elem_of_cons; [done|].
      assert (before y z) as [_ ?]; [|lia].
      eapply (sorted_after (l1 ++ [x])); [|exact Hz]. rewrite <- app_assoc. simpl. by rewrite <- Hns.
    + destruct Hxy as [_ Hxy]. replace (x.1 >=? y.1) with false by lia. cbn [andb].
      apply (IH (l1 ++ [x])); [by rewrite <- app_assoc|lia|simpl in Hf; lia].
Qed.

Lemma free_find_down l2 : forall l1 x fuel,
  ns = l1 ++ x :: l2 -> a < x.1 -> (length l2 + length ns < fuel)%nat ->
  runs (free_find fuel a x.1 s) (fun p s' => s' = s /\ placed_at ns a p).
Proof.
  induction l2 as [|y l2 IH]; intros l1 x fuel Hns Hx Hf; (destruct fuel as [|f]; [lia|]); cbn [free_find];
    pose proof Hseg as Hs; rewrite Hns in Hs.
  - apply seg_last in Hs. rewrite (bind_ok _ _ s base s) by (unfold hdr_ptr, gets; by rewrite Hs).
    replace (a >? x.1) with false by lia. replace (a <? base) with false by lia.
    cbn [andb orb]. rewrite andb_false_r.
    apply (free_find_up fl [] (base, 0) f); [done|done|]. unfold ns in Hf. simpl in Hf. lia.
  - pose proof (seg_next _ _ _ _ _ _ Hs) as Hn.
    rewrite (bind_ok _ _ s y.1 s) by (unfold hdr_ptr, gets; by rewrite Hn).
    assert (Hxy : before x y) by (eapply sorted_after; [rewrite <- Hns; exact Hsort|left]).
    replace (a >? x.1) with false by lia. cbn [andb]. destruct Hxy as [_ Hxy].
    replace (x.1 >=? y.1) with false by lia. cbn [andb].
    apply (IH (l1 ++ [x])); [by rewrite <- app_assoc|lia|rewrite length_cons in Hf; lia].
Qed.

(** The search ends, wherever it starts. *)
Lemma free_find_spec p fuel :
  p ∈ baddr <$> ns -> (2 * length ns < fuel)%nat ->
  runs (free_find fuel a p s) (fun p s' => s' = s /\ placed_at ns a p).
Proof.
  intros (x & -> & Hx)%list_elem_of_fmap Hf. apply list_elem_of_split in Hx as (l1 & l2 & Hns).
  assert (Hl : (length l2 < length ns)%nat) by (rewrite Hns, length_app; simpl; lia).
  destruct (decide (x.1 < a)) as [Hlt|Hge]; [apply (free_find_up l2 l1); try done; lia|].
  apply (free_find_down l2 l1); try done; [|lia].
  assert (x.1 <> a) by (apply Hne; rewrite Hns; set_solver). lia.
Qed.
End find.

(** The list cannot be longer than the heap. *)
Lemma sorted_length brk fl : forall lo,
  StronglySorted before fl -> Forall (fun x => lo <= x.1 /\ bend x <= brk /\ 1 <= x.2) fl -> lo <= brk ->
  8 * Z.of_nat (length fl) <= brk - lo.
Proof.
  induction fl as [|x fl IH]; intros lo Hs Hf Hlo; [simpl; lia|].
  apply StronglySorted_cons in Hs as [Hx Hs]. apply Forall_cons in Hf as [Hfx Hf].
  assert (Hb : x.1 + 8 <= brk) by (unfold bend in Hfx; lia).
  specialize (IH (x.1 + 8) Hs). simpl length.
  assert (8 * Z.of_nat (length fl) <= brk - (x.1 + 8)); [|lia]. apply IH; [|done].
  rewrite Forall_forall in Hx, Hf |- *. intros y Hy. specialize (Hx y Hy). specialize (Hf y Hy).
  unfold before in Hx. lia.
Qed.

Lemma heap_fuel base s fl al :
  heap_ok base s fl al -> 0 < base -> (2 * S (length fl) + 4 < list_fuel s)%nat.
Proof.
  intros [_ Hs Hf Hb _ _ _ _ _ _ _] H0. apply StronglySorted_cons in Hs as [_ Hs].
  assert (8 * Z.of_nat (length fl) <= u_brk s - (base + 8)).
  { apply sorted_length; [done| |lia]. eapply Forall_impl; [exact Hf|]. intros x (A & B & C). lia. }
  unfold list_fuel. zlia.
Qed.

(** ** Linking a block to its successor, merging them when they touch *)

Definition merge_next (x : block) (l : list block) : list block :=
  match l with
  | y :: l' => if bend x =? y.1 then (x.1, x.2 + y.2) :: l' else x :: l
  | [] => [x]
  end.

Definition touches (x y : block) : Prop := bend x <= y.1 /\ x.1 + 8 <= y.1.

Lemma merge_hd x l z : hd z (baddr <$> merge_next x l) = x.1.
Proof. destruct l as [|y l]; [done|]. simpl. by destruct (_ =? _). Qed.

Lemma merge_ne x l z : bend x <> hd z (baddr <$> l) -> merge_next x l = x :: l.
Proof. destruct l as [|y l]; [done|]. simpl. by destruct (Z.eqb_spec (bend x) y.1). Qed.

Lemma merge_from x l y : Forall (touches x) l -> y ∈ merge_next x l -> y.1 = x.1 \/ touches x y /\ y ∈ l.
Proof.
  rewrite Forall_forall. intros Ht. destruct l as [|z l]; simpl; [set_solver|].
  destruct (_ =? _); intros [->|Hy]%elem_of_cons; auto; right; (split; [apply Ht|]); set_solver.
Qed.

Lemma merge_covers x l b :
  0 <= x.2 -> Forall (fun y => 0 <= y.2) l -> covers (merge_next x l) b <-> x.1 <= b < bend x \/ covers l b.
Proof.
  intros Hx Hl. unfold covers. destruct l as [|y l]; simpl.
  { split; [intros (z & Hz & Hb); left; set_solver|intros [Hb|(z & Hz & _)]; [exists x; set_solver|set_solver]]. }
  apply Forall_cons in Hl as [Hy Hl]. destruct (Z.eqb_spec (bend x) y.1) as [E|E].
  - split.
    + intros (z & [->|Hz]%elem_of_cons & Hb); [|right; exists z; set_solver].
      unfold bend in *. simpl in *. destruct (decide (b < y.1)); [left; lia|right; exists y; split; [set_solver|lia]].
    + intros [Hb|(z & [->|Hz]%elem_of_cons & Hb)].
      * exists (x.1, x.2 + y.2). split; [set_solver|]. unfold bend in *. simpl in *. lia.
      * exists (x.1, x.2 + y.2). split; [set_solver|]. unfold bend in *. simpl in *. lia.
      * exists z. set_solver.
  - split.
    + intros (z & [->|Hz]%elem_of_cons & Hb); [by left|right; by exists z].
    + intros [Hb|(z & Hz & Hb)]; [exists x; set_solver|exists z; set_solver].
Qed.

Lemma merge_sorted x l :
  StronglySorted before l -> Forall (touches x) l -> StronglySorted before (merge_next x l).
Proof.
  intros Hs Ht. destruct l as [|y l]; simpl; [repeat constructor|].
  apply StronglySorted_cons in Hs as [Hy Hs]. apply Forall_cons in Ht as [Hty Ht].
  rewrite Forall_forall in Hy, Ht. unfold before, touches in *.
  destruct (Z.eqb_spec (bend x) y.1) as [E|E]; repeat (apply StronglySorted_cons; split); try done.
  - apply Forall_forall. intros z Hz. specialize (Hy z Hz). unfold before, bend in *. simpl in *. lia.
  - apply Forall_cons. split; [unfold before; lia|]. apply Forall_forall. intros z Hz. specialize (Hy z Hz).
    unfold before in *. lia.
  - by apply Forall_forall.
Qed.

Lemma merge_heap base brk x l :
  in_heap base brk x -> Forall (in_heap base brk) l -> Forall (in_heap base brk) (merge_next x l).
Proof.
  intros Hx Hl. destruct l as [|y l]; simpl; [by constructor|].
  destruct (Z.eqb_spec (bend x) y.1) as [E|E]; [|by constructor].
  apply Forall_cons in Hl as [Hy Hl]. constructor; [|done]. unfold in_heap, bend in *. simpl in *. lia.
Qed.

(** What [free] does twice: with the block and its successor, then with the
    predecessor and the block. *)
Definition link (p q : Z) : U unit :=
  psize <- hdr_size p ;;
  if hdr_add p psize =? q then
    qsize <- hdr_size q ;;
    set_size p (u32 (psize + qsize)) ;;
    qnext <- hdr_ptr q ;;
    set_ptr p qnext
  else set_ptr p q.

Lemma free_eq `{SB : Sbrk} ap p s :
  free_find (list_fuel s) (hdr_add ap (-1)) (u_freep s) s = Ok p s ->
  free ap s = (next <- hdr_ptr p ;; link (hdr_add ap (-1)) next ;; link p (hdr_add ap (-1)) ;; set_freep p) s.
Proof.
  intros Hf. unfold free, link, bind. cbn. rewrite Hf. cbn. destruct (_ =? _); cbn; by destruct (_ =? _).
Qed.

Lemma link_spec s x l z :
  seg (u_mem s) l z -> load32 (u_mem s) (x.1 + 4) = x.2 -> Forall (touches x) l ->
  0 <= x.1 -> 0 <= x.2 -> bend x < 2^32 -> (l = [] -> bend x <> z) -> 0 <= z < 2^32 ->
  Forall (fun y => 0 <= y.2 /\ 0 <= y.1 /\ bend y < 2^32) l ->
  runs (link x.1 (hd z (baddr <$> l)) s) (fun _ s' => exists m, s' = set_u_mem m s /\ seg m (merge_next x l) z /\
    forall b, ~ (x.1 <= b < x.1 + 8) -> load8 m b = load8 (u_mem s) b).
Proof.
  intros Hseg Hx Ht H0 H2 He Hz Hzr Hl. unfold link. set (m0 := u_mem s) in *.
  assert (Hst : forall v k b, 0 <= k <= 4 -> ~ (x.1 <= b < x.1 + 8) -> forall m, load8 (store32 m (x.1 + k) v) b = load8 m b)
    by (intros; apply load8_store32_out; lia).
  rewrite (bind_ok _ _ s x.2 s) by (unfold hdr_size, gets; fold m0; by rewrite Hx).
  assert (Ha : hdr_add x.1 x.2 = bend x) by (unfold hdr_add, u32, HDR, bend in *; apply Z.mod_small; lia).
  rewrite Ha. destruct l as [|y l].
  - cbn [fmap list_fmap hd merge_next]. destruct (Z.eqb_spec (bend x) z); [by apply Hz in e|].
    cbn [runs set_ptr modify]. exists (store32 m0 x.1 z). split; [done|]. split.
    + split; [|split; [|done]]; [rewrite load32_store32_eq; apply Z.mod_small; done|].
      by rewrite load32_store32_ne by lia.
    + intros b Hb. apply load8_store32_out. lia.
  - cbn [fmap list_fmap hd merge_next]. apply Forall_cons in Hl as [(Hy2 & Hy1 & Hye) Hl]. simpl in Hseg.
    destruct Hseg as (S1 & S2 & S3). pose proof Ht as Htl. apply Forall_cons in Ht as [Hty Ht].
    destruct (Z.eqb_spec (bend x) y.1) as [E|E].
    + rewrite (bind_ok _ _ s y.2 s) by (unfold hdr_size, gets; fold m0; by rewrite S2).
      set (m1 := store32 m0 (x.1 + 4) (u32 (x.2 + y.2))).
      rewrite (bind_ok _ _ s tt (set_u_mem m1 s)) by done.
      assert (Hn : load32 m1 y.1 = hd z (baddr <$> l)).
      { rewrite <- S1. apply load32_store32_ne. unfold touches in Hty. lia. }
      rewrite (bind_ok _ _ _ (load32 m1 y.1) (set_u_mem m1 s)) by done.
      cbn [runs set_ptr modify set_u_mem u_mem]. exists (store32 m1 x.1 (load32 m1 y.1)). split; [done|].
      assert (Hout : forall b, ~ (x.1 <= b < x.1 + 8) -> load8 (store32 m1 x.1 (load32 m1 y.1)) b = load8 m0 b).
      { intros b Hb. rewrite load8_store32_out by lia. apply load8_store32_out. lia. }
      split; [|done]. simpl. split; [|split].
      * rewrite load32_store32_eq, Hn, <- S1. apply Z.mod_small, load32_range.
      * rewrite load32_store32_ne by lia. unfold m1. rewrite load32_store32_eq. unfold u32, bend in *.
        rewrite Z.mod_mod by lia. apply Z.mod_small. lia.
      * apply (useg_ext m0); [|done]. intros w b Hw Hb. apply Hout.
        rewrite Forall_forall in Ht. specialize (Ht w Hw). unfold touches in *. lia.
    + cbn [runs set_ptr modify]. exists (store32 m0 x.1 y.1). split; [done|].
      assert (Hout : forall b, ~ (x.1 <= b < x.1 + 8) -> load8 (store32 m0 x.1 y.1) b = load8 m0 b)
        by (intros b Hb; apply load8_store32_out; lia).
      split; [|done]. split; [|split].
      * rewrite load32_store32_eq. simpl. apply Z.mod_small. unfold bend in *. lia.
      * by rewrite load32_store32_ne by lia.
      * apply (useg_ext m0); [|by simpl]. intros w b Hw Hb. apply Hout.
        rewrite Forall_forall in Htl. specialize (Htl w Hw). unfold touches in *. lia.
Qed.

(** ** [free] *)

(** The list after the block [b] has been put between [x] and [l2]. *)
Section insert.
Context (base brk : Z) (fl l1 l2 : list block) (x b : block).
Hypothesis (Hns : (base, 0) :: fl = l1 ++ x :: l2).
Hypothesis (Hsort : StronglySorted before ((base, 0) :: fl)) (Hfl : Forall (in_heap base brk) fl).
Hypothesis (Hb : in_heap base brk b) (Hd : forall y, y ∈ fl -> disj b y).
Hypothesis (Hx : x.1 < b.1) (Hl2 : forall y, y ∈ l2 -> b.1 < y.1).

Lemma node_cases y : y ∈ l1 ++ x :: l2 -> y = (base, 0) \/ y ∈ fl.
Proof. clear -Hns. rewrite <- Hns. set_solver. Qed.
Lemma in_fl y : y ∈ l2 -> y ∈ fl.
Proof. clear -Hns. destruct l1 as [|z l]; simpl in Hns; injection Hns as _ ->; set_solver. Qed.

Lemma next_touch : Forall (touches b) l2.
Proof. clear Hx Hsort.
  apply Forall_forall. intros y Hy. specialize (Hl2 y Hy). apply in_fl in Hy.
  rewrite Forall_forall in Hfl. specialize (Hfl y Hy). specialize (Hd y Hy).
  unfold disj, in_heap, touches, bend in *. lia.
Qed.
Lemma prev_touch : touches x b.
Proof. clear Hl2 Hsort.
  destruct (node_cases x) as [->|Hy]; [set_solver| |].
  - unfold in_heap, touches, bend in *. simpl in *. lia.
  - rewrite Forall_forall in Hfl. specialize (Hfl x Hy). specialize (Hd x Hy).
    unfold disj, in_heap, touches, bend in *. lia.
Qed.
Lemma next_sorted : StronglySorted before l2.
Proof. clear -Hns Hsort. rewrite Hns in Hsort. by apply StronglySorted_app_1_r, StronglySorted_cons in Hsort as [_ Hs]. Qed.
Lemma prev_touch_all : Forall (touches x) (merge_next b l2).
Proof.
  apply Forall_forall. intros y Hy. pose proof prev_touch as Ht.
  apply merge_from in Hy; [|apply next_touch]. unfold touches in *. destruct Hb. unfold bend in *. lia.
Qed.

Definition inserted : list block := l1 ++ merge_next x (merge_next b l2).

Lemma inserted_sorted : StronglySorted before inserted.
Proof.
  pose proof prev_touch_all as Ht. apply StronglySorted_app. split; [|split].
  - intros y z Hy Hz. pose proof Hsort as Hs. rewrite Hns in Hs. pose proof (sorted_prior _ _ _ _ Hs Hy) as Hyx.
    apply merge_from in Hz; [|done]. unfold before, touches, in_heap, bend in *.
    destruct Hz as [->|[Hz _]]; [lia|]. destruct (node_cases x) as [->|Hxf]; [set_solver|simpl in *; lia|].
    rewrite Forall_forall in Hfl. specialize (Hfl x Hxf). unfold in_heap, bend in *. lia.
  - rewrite Hns in Hsort. by apply StronglySorted_app_1_l in Hsort.
  - apply merge_sorted; [|done]. apply merge_sorted; [apply next_sorted|apply next_touch].
Qed.

Lemma inserted_head : exists fl', inserted = (base, 0) :: fl' /\ Forall (in_heap base brk) fl'.
Proof.
  assert (Hm : Forall (in_heap base brk) (merge_next b l2)).
  { apply merge_heap; [done|]. rewrite Forall_forall in Hfl |- *. intros y Hy. by apply Hfl, in_fl. }
  unfold inserted. destruct l1 as [|z l]; simpl in Hns |- *; injection Hns as <- Hfl'.
  - exists (merge_next b l2). split; [|done]. apply (merge_ne _ _ base). rewrite merge_hd.
    unfold in_heap, bend in *. simpl in *. lia.
  - eexists. split; [done|]. rewrite Hfl' in Hfl. apply Forall_app in Hfl as [F1 F2].
    apply Forall_cons in F2 as [Fx _]. apply Forall_app. split; [done|]. by apply merge_heap.
Qed.

Lemma inserted_covers c fl' : inserted = (base, 0) :: fl' ->
  covers fl' c <-> covers fl c \/ b.1 <= c < bend b.
Proof.
  assert (Hbase : forall l, covers ((base, 0) :: l) c <-> covers l c).
  { intros l. unfold covers. split; intros (y & Hy & Hc); exists y; [|set_solver].
    apply elem_of_cons in Hy as [->|Hy]; [unfold bend in Hc; simpl in Hc; lia|done]. }
  intros Hi. rewrite <- (Hbase fl'), <- (Hbase fl), <- Hi, Hns. unfold inserted.
  assert (Happ : forall k k', covers (k ++ k') c <-> covers k c \/ covers k' c).
  { intros k k'. unfold covers. split.
    - intros (y & [Hy|Hy]%elem_of_app & Hc); [left|right]; by exists y.
    - intros [(y & Hy & Hc)|(y & Hy & Hc)]; exists y; set_solver. }
  assert (Hpos : forall y, y ∈ (base, 0) :: fl -> 0 <= y.2).
  { intros y [->|Hy]%elem_of_cons; [done|]. rewrite Forall_forall in Hfl. specialize (Hfl y Hy). unfold in_heap in Hfl. lia. }
  assert (Hl2p : Forall (fun y => 0 <= y.2) l2).
  { apply Forall_forall. intros y Hy. apply Hpos. rewrite Hns. set_solver. }
  assert (Hmp : Forall (fun y => 0 <= y.2) (merge_next b l2)).
  { destruct Hb as (_ & Hb2 & _). destruct l2 as [|y l]; simpl; [repeat constructor; lia|].
    apply Forall_cons in Hl2p as [Hy Hl]. destruct (_ =? _); repeat constructor; simpl; try lia; done. }
  rewrite !Happ, merge_covers by (try done; apply Hpos; rewrite Hns; set_solver).
  rewrite merge_covers by (try done; destruct Hb; lia).
  assert (Hxl : covers (x :: l2) c <-> x.1 <= c < bend x \/ covers l2 c).
  { unfold covers. split.
    - intros (y & [->|Hy]%elem_of_cons & Hc); [by left|right; by exists y].
    - intros [Hc|(y & Hy & Hc)]; [exists x|exists y]; set_solver. }
  rewrite Hxl. tauto.
Qed.
End insert.

Lemma merge_self x l : Forall (fun y => 0 <= y.2) l -> exists y, y ∈ merge_next x l /\ x.2 <= y.2.
Proof.
  intros Hl. destruct l as [|y l]; simpl; [exists x; set_solver|]. apply Forall_cons in Hl as [Hy _].
  destruct (_ =? _); [exists (x.1, x.2 + y.2)|exists x]; (split; [set_solver|simpl; lia]).
Qed.
Lemma merge_grow x l k : 0 <= x.2 -> (exists y, y ∈ l /\ k <= y.2) -> exists y, y ∈ merge_next x l /\ k <= y.2.
Proof.
  intros Hx (y & Hy & Hk). destruct l as [|z l]; [set_solver|]. simpl.
  destruct (_ =? _); [|exists y; set_solver].
  apply elem_of_cons in Hy as [->|Hy]; [exists (x.1, x.2 + z.2); split; [set_solver|simpl; lia]|exists y; set_solver].
Qed.

Lemma inserted_addr ns l1 l2 x b y :
  ns = l1 ++ x :: l2 -> y ∈ inserted l1 l2 x b -> y.1 = b.1 \/ y.1 ∈ baddr <$> ns.
Proof.
  assert (Hm : forall x l, y ∈ merge_next x l -> y.1 = x.1 \/ y ∈ l).
  { intros x' [|z l]; simpl; [set_solver|]. destruct (_ =? _); intros [->|Hy]%elem_of_cons; auto. right. by right. }
  intros -> [Hy|[Hy|[Hy|Hy]%Hm]%Hm]%elem_of_app; [right|right|by left|right].
  - apply list_elem_of_fmap. exists y. set_solver.
  - apply list_elem_of_fmap. exists x. set_solver.
  - apply list_elem_of_fmap. exists y. set_solver.
Qed.

(** What [free] of block [b] does to the heap. *)
Record freed (base : Z) (s : ustate) (fl al : list block) (b : block) (s' : ustate) (fl' : list block) : Prop := {
  fr_ok : heap_ok base s' fl' al;
  fr_covers : forall c, covers fl' c <-> covers fl c \/ b.1 <= c < bend b;
  fr_kept : kept al (u_mem s) (u_mem s');
  fr_brk : u_brk s' = u_brk s;
  fr_fits : exists y, y ∈ fl' /\ b.2 <= y.2;
  fr_len : (length fl' <= S (length fl))%nat;
}.

Lemma merge_length x l : (length (merge_next x l) <= S (length l))%nat.
Proof. destruct l as [|y l]; simpl; [lia|]. destruct (_ =? _); simpl; lia. Qed.


Section free.
Context `{SB : Sbrk} (base : Z) (s : ustate) (fl al1 al2 : list block) (b : block).
Hypothesis (Hbase : 0 < base) (Hok : heap_ok base s fl (al1 ++ b :: al2)).
Let al := al1 ++ al2.

Lemma used_elem y : y ∈ al -> y ∈ al1 ++ b :: al2.
Proof. unfold al. set_solver. Qed.
Lemma used_disj y : y ∈ al -> disj y b.
Proof.
  intros Hy. pose proof (h_alone _ _ _ _ Hok) as Hs. apply StronglySorted_app in Hs as (H1 & _ & H2).
  apply StronglySorted_cons in H2 as [H2 _]. rewrite Forall_forall in H2.
  unfold al in Hy. apply elem_of_app in Hy as [Hy|Hy]; [apply H1; set_solver|].
  specialize (H2 y Hy). unfold disj in *. lia.
Qed.

(** Stores that stay in free headers keep what is in use. *)
Lemma free_frame m l1 x l2 :
  (base, 0) :: fl = l1 ++ x :: l2 ->
  (forall c, ~ (x.1 <= c < x.1 + 8) -> ~ (b.1 <= c < b.1 + 8) -> load8 m c = load8 (u_mem s) c) ->
  kept al (u_mem s) m.
Proof.
  intros Hns Hm c (y & Hy & Hc). pose proof (used_disj y Hy) as Hd. apply used_elem in Hy.
  pose proof (h_used _ _ _ _ Hok) as Hu. rewrite Forall_forall in Hu. pose proof (Hu y Hy) as Huy.
  pose proof (Hu b ltac:(set_solver)) as Hub. unfold in_heap, disj, bend in *. apply Hm; [|lia].
  destruct (node_cases base fl l1 l2 x Hns x) as [->|Hx]; [set_solver|simpl; lia|].
  pose proof (h_apart _ _ _ _ Hok y x Hy Hx) as Ha. pose proof (h_free _ _ _ _ Hok) as Hf.
  rewrite Forall_forall in Hf. specialize (Hf x Hx). unfold in_heap, disj, bend in *. lia.
Qed.

Lemma free_ok fl' l1 x l2 m :
  (base, 0) :: fl = l1 ++ x :: l2 -> x.1 < b.1 -> (forall y, y ∈ l2 -> b.1 < y.1) ->
  inserted l1 l2 x b = (base, 0) :: fl' -> Forall (in_heap base (u_brk s)) fl' ->
  seg m (inserted l1 l2 x b) base -> kept al (u_mem s) m ->
  freed base s fl al b (set_u_freep x.1 (set_u_mem m s)) fl'.
Proof.
  intros Hns Hx Hl2 Hins Hfl' Hseg Hk. pose proof Hok as [A1 A2 A3 A4 A5 A6 A7 A8 A9 A10 A11].
  assert (Hb : in_heap base (u_brk s) b) by (rewrite Forall_forall in A6; apply A6; set_solver).
  assert (Hd : forall y, y ∈ fl -> disj b y) by (intros y Hy; apply A8; set_solver).
  assert (Hcov : forall c, covers fl' c <-> covers fl c \/ b.1 <= c < bend b)
    by (intros c; by apply (inserted_covers base (u_brk s) fl l1 l2 x b)).
  split; try done; [split; try done| |].
  - by rewrite <- Hins.
  - rewrite <- Hins. by apply (inserted_sorted base (u_brk s) fl).
  - rewrite <- Hins. unfold inserted. rewrite fmap_app. apply elem_of_app. right. cbn [u_freep set_u_freep].
    destruct (merge_next x _) as [|y l] eqn:E; [destruct (merge_next b l2); simpl in E; [done|by destruct (_ =? _)]|].
    pose proof (merge_hd x (merge_next b l2) 0) as Hh. rewrite E in Hh. simpl in Hh |- *. rewrite Hh. left.
  - rewrite Forall_forall in A6 |- *. intros y Hy. by apply A6, used_elem.
  - intros y Hy. cbn [u_mem set_u_freep set_u_mem]. rewrite <- (A7 y) by (by apply used_elem).
    apply load32_ext. intros k Hk'. apply Hk. exists y. split; [done|].
    apply used_elem in Hy. rewrite Forall_forall in A6. specialize (A6 y Hy). unfold in_heap, bend in *. lia.
  - intros y z Hy Hz. pose proof (used_disj y Hy) as Hyb.
    rewrite Forall_forall in A6, Hfl'. pose proof (A6 y (used_elem y Hy)) as Hyh. specialize (Hfl' z Hz).
    destruct (decide (disj y z)) as [|Hnd]; [done|exfalso].
    (* a common byte is free or in [b] *)
    assert (Hc : exists c, y.1 <= c < bend y /\ z.1 <= c < bend z).
    { exists (Z.max y.1 z.1). unfold disj, in_heap, bend in *. lia. }
    destruct Hc as (c & Hcy & Hcz). destruct (proj1 (Hcov c)) as [(w & Hw & Hcw)|Hcb]; [by exists z| |].
    + pose proof (A8 y w (used_elem y Hy) Hw). unfold disj in *. lia.
    + unfold disj in Hyb. lia.
  - pose proof A9 as Hs. apply StronglySorted_app in Hs as (H1 & H2 & H3).
    apply StronglySorted_cons in H3 as [_ H3]. apply StronglySorted_app. split; [|done]. intros; apply H1; set_solver.
  - intros y [Hy|Hy]; [|apply A10; right; by apply used_elem]. rewrite Forall_forall in Hfl'. specialize (Hfl' y Hy).
    destruct (inserted_addr _ l1 l2 x b y Hns) as [Hby|Hin]; [rewrite Hins; by right|rewrite Hby; apply A10; set_solver|].
    apply list_elem_of_fmap in Hin as (z & Hz & [->|Hin]%elem_of_cons); [unfold in_heap in Hfl'; simpl in *; lia|].
    rewrite Hz. apply A10. by left.
  - assert (Hpos : forall y, y ∈ (base, 0) :: fl -> 0 <= y.2).
    { intros y [->|Hy]%elem_of_cons; [done|]. rewrite Forall_forall in A3. specialize (A3 y Hy). unfold in_heap in A3. lia. }
    destruct (merge_grow x (merge_next b l2) b.2) as (y & Hy & Hys).
    { apply Hpos. rewrite Hns. set_solver. }
    { apply merge_self. apply Forall_forall. intros y Hy. apply Hpos. rewrite Hns. set_solver. }
    exists y. split; [|done]. assert (Hy' : y ∈ inserted l1 l2 x b) by (unfold inserted; set_solver).
    rewrite Hins in Hy'. apply elem_of_cons in Hy' as [->|]; [|done]. unfold in_heap in Hb. simpl in Hys. lia.
  - assert (Hl : S (length fl) = (length l1 + S (length l2))%nat) by (change (S (length fl)) with (length ((base, 0) :: fl)); by rewrite Hns, length_app).
    assert (Hl' : S (length fl') = length (inserted l1 l2 x b)) by (by rewrite Hins).
    unfold inserted in Hl'. rewrite length_app in Hl'. pose proof (merge_length b l2).
    pose proof (merge_length x (merge_next b l2)). lia.
Qed.

Lemma free_spec : runs (free (b.1 + 8) s) (fun _ s' => exists fl', freed base s fl al b s' fl').
Proof.
  pose proof Hok as [A1 A2 A3 A4 A5 A6 A7 A8 A9 A10 A11].
  assert (Hb : in_heap base (u_brk s) b) by (rewrite Forall_forall in A6; apply A6; set_solver).
  assert (Hd : forall y, y ∈ fl -> disj b y) by (intros y Hy; apply A8; set_solver).
  assert (Hbp : hdr_add (b.1 + 8) (-1) = b.1).
  { unfold hdr_add, u32, HDR. rewrite Z.mod_small; unfold in_heap, bend in *; lia. }
  pose proof (heap_fuel base s fl _ Hok Hbase) as Hfuel.
  assert (Hfind : runs (free_find (list_fuel s) b.1 (u_freep s) s)
    (fun p s' => s' = s /\ placed_at ((base, 0) :: fl) b.1 p)).
  { apply free_find_spec; try done; [unfold in_heap in Hb; lia| |simpl; lia].
    intros y [->|Hy]%elem_of_cons; [unfold in_heap in Hb; simpl; lia|]. specialize (Hd y Hy).
    rewrite Forall_forall in A3. specialize (A3 y Hy). unfold disj, in_heap, bend in *. lia. }
  apply runs_ok in Hfind as (p & s' & Hf & -> & l1 & x & l2 & Hns & -> & Hx & Hl2).
  rewrite <- Hbp in Hf. rewrite (free_eq _ _ _ Hf), Hbp. pose proof A1 as Hseg. rewrite Hns in Hseg.
  destruct (seg_at _ _ _ _ _ Hseg) as [Hxp Hxs].
  rewrite (bind_ok _ _ s _ s (eq_refl : hdr_ptr x.1 s = Ok (load32 (u_mem s) x.1) s)), Hxp.
  pose proof (next_touch base (u_brk s) fl l1 l2 x b Hns A3 Hb Hd Hl2) as Ht.
  pose proof (prev_touch base (u_brk s) fl l1 l2 x b Hns A3 Hb Hd Hx) as Htx.
  pose proof (prev_touch_all base (u_brk s) fl l1 l2 x b Hns A3 Hb Hd Hx Hl2) as Hta.
  apply useg_app in Hseg as [Hs1 [_ [_ Hs2]]].
  assert (Hheap : forall l, Forall (in_heap base (u_brk s)) l -> Forall (fun y => 0 <= y.2 /\ 0 <= y.1 /\ bend y < 2^32) l).
  { intros l Hl. eapply Forall_impl; [exact Hl|]. intros y. unfold in_heap, bend. lia. }
  assert (Hl2h : Forall (in_heap base (u_brk s)) l2).
  { rewrite Forall_forall in A3 |- *. intros y Hy. by apply A3, (in_fl base fl l1 l2 x Hns). }
  destruct (inserted_head base (u_brk s) fl l1 l2 x b Hns A3 Hb) as (fl' & Hins & Hfl'); try done.
  assert (Hx0 : 0 <= x.1 /\ 0 <= x.2 /\ bend x < 2^32).
  { destruct (node_cases base fl l1 l2 x Hns x) as [->|Hxf]; [set_solver|unfold bend; simpl; lia|].
    rewrite Forall_forall in A3. specialize (A3 x Hxf). unfold in_heap, bend in *. lia. }
  apply runs_bind. eapply runs_mono; [apply (link_spec s b l2 base); try done; try (unfold in_heap, bend in *; lia)|].
  { apply A7. set_solver. }
  { auto. }
  intros [] s1 (m1 & -> & Hsm1 & Hm1). apply runs_bind.
  rewrite <- (merge_hd b l2 base) at 1.
  eapply runs_mono; [apply (link_spec (set_u_mem m1 s) x (merge_next b l2) base); try done; try lia|].
  - cbn [u_mem set_u_mem]. rewrite <- Hxs. apply load32_ext. intros k Hk. apply Hm1. unfold touches in Htx. lia.
  - destruct l2; simpl; [done|]. by destruct (_ =? _).
  - apply Hheap. by apply merge_heap.
  - cbn [u_mem set_u_mem]. intros [] s2 (m2 & -> & Hsm2 & Hm2). cbn [runs set_freep modify]. exists fl'.
    assert (Hout : forall c, ~ (x.1 <= c < x.1 + 8) -> ~ (b.1 <= c < b.1 + 8) -> load8 m2 c = load8 (u_mem s) c).
    { intros c H1 H2. by rewrite Hm2, Hm1. }
    replace (set_u_mem m2 (set_u_mem m1 s)) with (set_u_mem m2 s) by done.
    apply (free_ok fl' l1 x l2 m2); try done; [|by apply (free_frame m2 l1 x l2)].
    unfold inserted. apply useg_app. rewrite merge_hd. split; [|done].
    apply (useg_ext (u_mem s)); [|done]. intros y c Hy Hc. pose proof A2 as Hs. rewrite Hns in Hs.
    pose proof (sorted_prior _ _ _ _ Hs Hy). unfold before, touches in *. apply Hout; lia.
Qed.
End free.

(** ** [morecore] *)

Section more.
Context `{SB : Sbrk, !SbrkOk SB}.
Abbreviation base := base_addr.

(** A new block at the end of the heap. *)
Lemma heap_grow s fl al n s1 m :
  heap_ok base s fl al -> grown s (8 * n) s1 -> 1 <= n < 2^32 ->
  m = store32 (u_mem s1) (u_brk s + 4) n ->
  heap_ok base (set_u_mem m s1) fl ((u_brk s, n) :: al) /\ kept al (u_mem s) m.
Proof.
  intros [A1 A2 A3 A4 A5 A6 A7 A8 A9 A10 A11] (G1 & G2 & G3 & G4) Hn ->. pose proof base_pos as Hbp.
  set (m := store32 _ _ _).
  assert (Hm : forall c, c < u_brk s -> load8 m c = load8 (u_mem s) c).
  { intros c Hc. unfold m. rewrite load8_store32_out by lia. apply G4. lia. }
  assert (Hkept : kept al (u_mem s) m).
  { intros c (y & Hy & Hc). apply Hm. rewrite Forall_forall in A6. specialize (A6 y Hy). unfold in_heap in A6. lia. }
  assert (Hin : forall l, Forall (in_heap base (u_brk s)) l -> Forall (in_heap base (u_brk s1)) l).
  { intros l Hl. eapply Forall_impl; [exact Hl|]. intros y. unfold in_heap. lia. }
  rewrite Forall_forall in A3, A6. split; [|done]. split; cbn [u_mem u_brk u_freep set_u_mem].
  - apply (useg_ext (u_mem s)); [|done]. intros y c [->|Hy]%elem_of_cons Hc; apply Hm; simpl in *; [lia|].
    specialize (A3 y Hy). unfold in_heap, bend in A3. lia.
  - done.
  - apply Hin. by apply Forall_forall.
  - lia.
  - by rewrite G1.
  - constructor; [unfold in_heap, bend; simpl; lia|]. apply Hin. by apply Forall_forall.
  - intros y [->|Hy]%elem_of_cons.
    + simpl. unfold m. rewrite load32_store32_eq. apply Z.mod_small. lia.
    + rewrite <- (A7 y Hy). apply load32_ext. intros k Hk. apply Hkept. exists y. split; [done|].
      specialize (A6 y Hy). unfold in_heap, bend in *. lia.
  - intros y z [->|Hy]%elem_of_cons Hz; [|by apply A8]. right. specialize (A3 z Hz). unfold in_heap in A3. simpl. lia.
  - apply StronglySorted_cons. split; [|done]. apply Forall_forall. intros y Hy. right.
    specialize (A6 y Hy). unfold in_heap in A6. simpl. lia.
  - intros y [Hy|[->|Hy]%elem_of_cons]; [apply A10; by left|done|apply A10; by right].
  - rewrite G2. zlia.
Qed.

Record more (s : ustate) (fl al : list block) (nu : Z) (s' : ustate) (fl' : list block) : Prop := {
  mo_ok : heap_ok base s' fl' al;
  mo_brk : u_brk s + 8 * nu <= u_brk s';
  mo_covers : forall c, covers fl' c <-> covers fl c \/ u_brk s <= c < u_brk s';
  mo_kept : kept al (u_mem s) (u_mem s');
  mo_fits : exists y, y ∈ fl' /\ nu <= y.2;
  mo_len : (length fl' <= S (length fl))%nat;
}.

(** [sbrk] has no [n] bytes to give. *)
Definition refused (n : Z) (s : ustate) : Prop := sbrk n s = Ok SBRK_ERROR s.

Lemma morecore_spec s fl al nu :
  heap_ok base s fl al -> 1 <= nu < 2^28 ->
  runs (morecore nu s) (fun r s' => r = 0 /\ s' = s /\ refused (8 * Z.max 4096 nu) s \/
    r = u_freep s' /\ r <> 0 /\ exists fl', more s fl al nu s' fl').
Proof.
  intros Hok Hnu. pose proof Hok as [_ _ _ Hbrk _ _ _ _ _ _ _]. pose proof base_pos as Hbp. unfold morecore. cbv zeta.
  set (n := if nu <? 4096 then 4096 else nu). assert (Hn : 1 <= n < 2^28 /\ nu <= n) by (unfold n; destruct (Z.ltb_spec nu 4096); lia).
  assert (Hi : i32 (u32 (n * HDR)) = 8 * n).
  { unfold u32, HDR. rewrite Z.mod_small by lia. unfold i32. cbv zeta. rewrite Z.mod_small by lia.
    destruct (Z.ltb_spec (n * 8) (2^31)); lia. }
  assert (Hmax : n = Z.max 4096 nu) by (unfold n; destruct (Z.ltb_spec nu 4096); lia).
  rewrite Hi. apply runs_bind.
  destruct (proj1 (runs_ok _ _) (sbrk_ok (8 * n) s ltac:(lia) ltac:(lia))) as (r0 & s0 & Esb & Hsb).
  rewrite Esb. cbn [runs]. revert r0 s0 Esb Hsb.
  intros r s1 Esb [[-> ->]|[-> Hg]]; [left; split; [done|]; split; [done|]; unfold refused; by rewrite <- Hmax|]. pose proof Hg as (G1 & G2 & G3 & G4).
  destruct (Z.eqb_spec (u_brk s) SBRK_ERROR) as [E|_]; [unfold SBRK_ERROR in E; lia|].
  set (m := store32 (u_mem s1) (u_brk s + 4) n).
  rewrite (bind_ok _ _ s1 tt (set_u_mem m s1)) by done.
  destruct (heap_grow s fl al n s1 m Hok Hg ltac:(lia) eq_refl) as [Hok1 Hk1].
  assert (Ha : hdr_add (u_brk s) 1 = (u_brk s, n).1 + 8) by (unfold hdr_add, u32, HDR; simpl; rewrite Z.mod_small; lia).
  rewrite Ha. apply runs_bind.
  eapply runs_mono; [apply (free_spec base (set_u_mem m s1) fl [] al (u_brk s, n)); [lia|done]|].
  intros [] s2 (fl' & [F1 F2 F3 F4 F5 F6]). cbn [runs gets]. right. split; [done|].
  cbn [u_brk set_u_mem] in *. cbn [app] in *. split.
  - pose proof (h_freep _ _ _ _ F1) as Hf. apply list_elem_of_fmap in Hf as (y & -> & [->|Hy]%elem_of_cons); [simpl; lia|].
    pose proof (h_free _ _ _ _ F1) as Hh. rewrite Forall_forall in Hh. specialize (Hh y Hy). unfold in_heap in Hh. lia.
  - exists fl'. split; try done.
    + lia.
    + intros c. rewrite F2, F4, G2. unfold bend. simpl. done.
    + intros c Hc. rewrite F3 by done. by apply Hk1.
    + destruct F5 as (y & Hy & Hs). exists y. split; [done|]. simpl in Hs. lia.
Qed.
End more.

(** ** Taking a block, or its end *)

(** The result of an allocation of [n] units at header [h]. *)
Record took (base : Z) (s : ustate) (fl al : list block) (n h : Z) (s' : ustate) (fl' : list block) : Prop := {
  to_ok : heap_ok base s' fl' ((h, n) :: al);
  to_covers : forall c, covers fl c <-> covers fl' c \/ h <= c < h + 8 * n;
  to_apart : forall c, covers fl' c -> ~ (h <= c < h + 8 * n);
  to_kept : kept al (u_mem s) (u_mem s');
  to_brk : u_brk s' = u_brk s;
}.

(** A block shrinks, or goes. *)
Lemma sorted_shrink l1 x x' l2 :
  x'.1 = x.1 -> bend x' <= bend x -> StronglySorted before (l1 ++ x :: l2) -> StronglySorted before (l1 ++ x' :: l2).
Proof.
  intros E Hb. rewrite !StronglySorted_app, !StronglySorted_cons, !Forall_forall. intros (H1 & H2 & H3 & H4).
  split; [|split; [done|split; [|done]]].
  - intros y z Hy [->|Hz]%elem_of_cons; [|by apply H1; [|right]]. specialize (H1 y x Hy ltac:(left)).
    unfold before in *. lia.
  - intros z Hz. specialize (H3 z Hz). unfold before in *. lia.
Qed.
Lemma sorted_remove l1 x l2 : StronglySorted before (l1 ++ x :: l2) -> StronglySorted before (l1 ++ l2).
Proof.
  rewrite !StronglySorted_app, !StronglySorted_cons. intros (H1 & H2 & _ & H4).
  split; [|done]. intros y z Hy Hz. apply H1; set_solver.
Qed.
Lemma covers_app l l' c : covers (l ++ l') c <-> covers l c \/ covers l' c.
Proof.
  unfold covers. split.
  - intros (y & [Hy|Hy]%elem_of_app & Hc); [left|right]; by exists y.
  - intros [(y & Hy & Hc)|(y & Hy & Hc)]; exists y; set_solver.
Qed.
Lemma covers_cons x l c : covers (x :: l) c <-> x.1 <= c < bend x \/ covers l c.
Proof.
  rewrite (covers_app [x] l). unfold covers at 1. split; (intros [H|H]; [left|by right]).
  - destruct H as (y & ->%list_elem_of_singleton & Hc). done.
  - exists x. set_solver.
Qed.

Section take.
Context (base : Z) (s : ustate) (fl al : list block) (n : Z) (l1 l2 : list block) (x : block).
Hypothesis (Hok : heap_ok base s fl al) (Hfl : fl = l1 ++ x :: l2) (Hn : 1 <= n <= x.2).
(** The end of [x] is taken; [r] is what is left of it. *)
Let h := x.1 + 8 * (x.2 - n).
Let r := if x.2 =? n then [] else [(x.1, x.2 - n)].

Lemma rest_cases : x.2 = n /\ r = [] /\ h = x.1 \/ n < x.2 /\ r = [(x.1, x.2 - n)].
Proof. unfold r, h. destruct (Z.eqb_spec x.2 n); [left|right]; (split; [lia|]); [split; [done|lia]|done]. Qed.

Lemma x_heap : in_heap base (u_brk s) x.
Proof. pose proof (h_free _ _ _ _ Hok) as Hf. rewrite Forall_forall in Hf. apply Hf. rewrite Hfl. set_solver. Qed.

Lemma take_elem y : y ∈ l1 ++ r ++ l2 -> y = (x.1, x.2 - n) /\ n < x.2 \/ (y ∈ fl /\ (before y x \/ before x y)).
Proof.
  pose proof (h_sorted _ _ _ _ Hok) as Hs. apply StronglySorted_cons in Hs as [_ Hs]. rewrite Hfl in Hs |- *.
  intros [Hy|[Hy|Hy]%elem_of_app]%elem_of_app.
  - right. split; [set_solver|left]. by eapply sorted_prior.
  - left. destruct rest_cases as [(_ & -> & _)|[H ->]]; [set_solver|]. apply list_elem_of_singleton in Hy. done.
  - right. split; [set_solver|right]. by eapply sorted_after.
Qed.

Lemma take_covers c : covers fl c <-> covers (l1 ++ r ++ l2) c \/ h <= c < h + 8 * n.
Proof.
  rewrite Hfl, !covers_app, covers_cons.
  assert (Hr : x.1 <= c < bend x <-> covers r c \/ h <= c < h + 8 * n); [|tauto].
  unfold bend, h. destruct rest_cases as [(E & -> & _)|[E ->]].
  - rewrite <- E. replace (x.2 - x.2) with 0 by lia. split; [intros; right; lia|].
    intros [(y & Hy & _)|H]; [set_solver|lia].
  - rewrite covers_cons. unfold bend. simpl. split.
    + intros. destruct (decide (c < x.1 + 8 * (x.2 - n))); [left; left; lia|right; lia].
    + intros [[H|(y & Hy & _)]|H]; [lia|set_solver|lia].
Qed.

Lemma take_apart y : y ∈ l1 ++ r ++ l2 -> disj y (h, n).
Proof.
  pose proof x_heap as Hx. intros [[-> _]|[Hy [Hb|Hb]]]%take_elem; unfold disj, before, bend, h, in_heap in *; simpl in *; lia.
Qed.

Lemma take_sorted : StronglySorted before ((base, 0) :: l1 ++ r ++ l2).
Proof.
  pose proof (h_sorted _ _ _ _ Hok) as Hs. rewrite Hfl in Hs. destruct rest_cases as [(_ & -> & _)|[H ->]]; cbn [app].
  - by apply (sorted_remove ((base, 0) :: l1) x).
  - apply (sorted_shrink ((base, 0) :: l1) x); [done| |done]. unfold bend. simpl. lia.
Qed.

Lemma take_heap : Forall (in_heap base (u_brk s)) (l1 ++ r ++ l2).
Proof.
  pose proof x_heap as Hx. pose proof (h_free _ _ _ _ Hok) as Hf. rewrite Forall_forall in Hf |- *.
  intros y [[-> Hlt]|[Hy _]]%take_elem; [|by apply Hf]. unfold in_heap, bend in *. simpl. lia.
Qed.

(** The list and the header are in place: the rest of the invariant holds. *)
Lemma take_ok m q :
  q ∈ baddr <$> ((base, 0) :: l1 ++ r ++ l2) -> seg m ((base, 0) :: l1 ++ r ++ l2) base ->
  load32 m (h + 4) = n -> kept al (u_mem s) m ->
  took base s fl al n h (set_u_freep q (set_u_mem m s)) (l1 ++ r ++ l2).
Proof.
  intros Hq Hseg Hh Hk. pose proof Hok as [A1 A2 A3 A4 A5 A6 A7 A8 A9 A10 A11]. pose proof x_heap as Hx.
  assert (Hfx : x ∈ fl) by (rewrite Hfl; set_solver).
  split; [split; try done| | |done|done].
  - apply take_sorted.
  - apply take_heap.
  - constructor; [|done]. unfold in_heap, bend, h in *. cbn [fst snd u_brk set_u_freep set_u_mem]. lia.
  - intros y [->|Hy]%elem_of_cons; [done|]. cbn [u_mem set_u_freep set_u_mem]. rewrite <- (A7 y Hy).
    apply load32_ext. intros k Hk'. apply Hk. exists y. split; [done|].
    rewrite Forall_forall in A6. specialize (A6 y Hy). unfold in_heap, bend in *. lia.
  - intros y z [->|Hy]%elem_of_cons Hz.
    + apply take_apart in Hz. unfold disj in *. lia.
    + apply take_elem in Hz as [[-> _]|[Hz _]]; [|by apply A8].
      specialize (A8 y x Hy Hfx). unfold disj, bend in *. simpl. lia.
  - apply StronglySorted_cons. split; [|done]. apply Forall_forall. intros y Hy.
    specialize (A8 y x Hy Hfx). unfold disj, bend, h in *. simpl. lia.
  - intros y [[[-> _]|[Hy _]]%take_elem|[->|Hy]%elem_of_cons]; [apply (A10 x); by left|apply A10; by left| |apply A10; by right].
    pose proof (A10 x ltac:(by left)). unfold h. cbn [fst]. zlia.
  - apply take_covers.
  - intros c (y & Hy & Hc). apply take_apart in Hy. unfold disj, bend in *. simpl in Hy. lia.
Qed.
End take.

(** Stores to free memory, or to [base], keep what is in use. *)
Lemma kept_free base s fl al m :
  heap_ok base s fl al ->
  (forall c, ~ covers fl c -> ~ (base <= c < base + 8) -> load8 m c = load8 (u_mem s) c) -> kept al (u_mem s) m.
Proof.
  intros [_ _ _ _ _ A6 _ A8 _ _ _] Hm c (y & Hy & Hc). apply Hm.
  - intros (z & Hz & Hcz). specialize (A8 y z Hy Hz). unfold disj in A8. lia.
  - rewrite Forall_forall in A6. specialize (A6 y Hy). unfold in_heap in A6. lia.
Qed.

Lemma header_free base s fl al l1 y l2 c :
  heap_ok base s fl al -> (base, 0) :: fl = l1 ++ y :: l2 -> ~ covers fl c -> ~ (base <= c < base + 8) ->
  ~ (y.1 <= c < y.1 + 8).
Proof.
  intros Hok Hns Hc Hb Hy. destruct (node_cases base fl l1 l2 y Hns y) as [->|Hf]; [set_solver|by apply Hb|].
  apply Hc. exists y. split; [done|]. pose proof (h_free _ _ _ _ Hok) as Hh. rewrite Forall_forall in Hh.
  specialize (Hh y Hf). unfold in_heap, bend in *. lia.
Qed.

Section malloc_take.
Context (base : Z) (s : ustate) (fl al : list block) (n : Z) (lq l2 : list block) (q x : block).
Hypothesis (Hok : heap_ok base s fl al) (Hns : (base, 0) :: fl = lq ++ q :: x :: l2) (Hn : 1 <= n <= x.2).
Hypothesis Hbase : 0 < base.

Lemma take_list : exists l1, (base, 0) :: l1 = lq ++ [q] /\ fl = l1 ++ x :: l2.
Proof. clear -Hns.
  destruct lq as [|y l]; simpl in Hns; injection Hns as <- ->.
  - by exists [].
  - exists (l ++ [q]). split; [done|]. by rewrite <- app_assoc.
Qed.

Lemma take_next : before q x.
Proof. clear -Hok Hns.
  pose proof (h_sorted _ _ _ _ Hok) as Hs. rewrite Hns in Hs. eapply sorted_after; [exact Hs|]. left.
Qed.

(** The whole block. *)
Lemma take_whole : x.2 = n ->
  runs (malloc_take n q.1 x.1 s) (fun p s' => exists h fl', p = h + 8 /\ took base s fl al n h s' fl').
Proof.
  intros E. destruct take_list as (l1 & El & Hfl). pose proof take_next as [_ Hqx].
  pose proof (h_seg _ _ _ _ Hok) as Hs. rewrite Hns in Hs.
  destruct (seg_at (u_mem s) (lq ++ [q]) x l2 base) as [Hp Hz]; [by rewrite <- app_assoc|].
  unfold malloc_take. rewrite (bind_ok _ _ s x.2 s) by (unfold hdr_size, gets; by rewrite Hz).
  rewrite E, Z.eqb_refl. apply runs_bind.
  rewrite (bind_ok _ _ s (hd base (baddr <$> l2)) s) by (unfold hdr_ptr, gets; by rewrite Hp).
  set (m := store32 (u_mem s) q.1 (hd base (baddr <$> l2))).
  pose proof (x_heap base s fl al n l1 l2 x Hok Hfl) as Hx. pose proof (h_brk _ _ _ _ Hok) as Hbrk.
  cbn [runs bind rbind set_ptr modify set_freep ret]. exists x.1, (l1 ++ l2).
  split. { unfold hdr_add, u32, HDR. rewrite Z.mod_small; unfold in_heap, bend in *; lia. }
  assert (Hm : forall c, ~ (q.1 <= c < q.1 + 4) -> load8 m c = load8 (u_mem s) c)
    by (intros c Hc; apply load8_store32_out; lia).
  pose proof (take_ok base s fl al n l1 l2 x Hok Hfl Hn m q.1) as HT.
  rewrite E, Z.eqb_refl in HT. replace (x.1 + 8 * (n - n)) with x.1 in HT by lia. apply HT.
  - rewrite app_comm_cons, El, <- app_assoc, fmap_app. simpl. set_solver.
  - rewrite app_comm_cons, El, <- app_assoc. cbn [app]. apply useg_app in Hs as [S1 (S2 & S3 & S4 & S5 & S6)].
    pose proof (h_sorted _ _ _ _ Hok) as Hsort. rewrite Hns in Hsort. apply useg_app. split; [|split; [|split]].
    + apply (useg_ext (u_mem s)); [|done]. intros y c Hy Hc. apply Hm.
      pose proof (sorted_prior _ _ _ _ Hsort Hy) as Hyq. unfold before in Hyq. lia.
    + unfold m. rewrite load32_store32_eq, <- Hp. apply Z.mod_small, load32_range.
    + rewrite <- S3. apply load32_ext. intros k Hk. apply Hm. lia.
    + apply (useg_ext (u_mem s)); [|done]. intros y c Hy Hc. apply Hm.
      assert (before q y) as [_ ?] by (eapply sorted_after; [exact Hsort|by right]). lia.
  - rewrite <- E, <- Hz. apply load32_ext. intros k Hk. apply Hm. lia.
  - apply (kept_free base s fl); [done|]. intros c Hc Hb. apply Hm.
    pose proof (header_free base s fl al lq q (x :: l2) c Hok Hns Hc Hb). lia.
Qed.

(** Its end. *)
Lemma take_end : n < x.2 ->
  runs (malloc_take n q.1 x.1 s) (fun p s' => exists h fl', p = h + 8 /\ took base s fl al n h s' fl').
Proof.
  intros E. destruct take_list as (l1 & El & Hfl). pose proof take_next as [_ Hqx].
  pose proof (h_seg _ _ _ _ Hok) as Hs. rewrite Hns in Hs.
  destruct (seg_at (u_mem s) (lq ++ [q]) x l2 base) as [Hp Hz]; [by rewrite <- app_assoc|].
  pose proof (x_heap base s fl al n l1 l2 x Hok Hfl) as Hx. pose proof (h_brk _ _ _ _ Hok) as Hbrk.
  unfold malloc_take. rewrite (bind_ok _ _ s x.2 s) by (unfold hdr_size, gets; by rewrite Hz).
  replace (x.2 =? n) with false by lia. apply runs_bind.
  assert (Hu : u32 (x.2 - n) = x.2 - n) by (unfold u32, in_heap, bend in *; apply Z.mod_small; lia). rewrite Hu.
  set (h := x.1 + 8 * (x.2 - n)).
  assert (Ha : hdr_add x.1 (x.2 - n) = h) by (unfold hdr_add, HDR, u32, h, in_heap, bend in *; apply Z.mod_small; lia).
  cbv zeta. rewrite Ha. set (m1 := store32 (u_mem s) (x.1 + 4) (x.2 - n)). set (m := store32 m1 (h + 4) n).
  cbn [runs bind rbind set_size modify set_freep ret]. exists h, (l1 ++ [(x.1, x.2 - n)] ++ l2).
  split. { unfold hdr_add, u32, HDR, h. rewrite Z.mod_small; unfold in_heap, bend in *; lia. }
  assert (Hm : forall c, ~ (x.1 + 4 <= c < x.1 + 8) -> ~ (h + 4 <= c < h + 8) -> load8 m c = load8 (u_mem s) c).
  { intros c H1 H2. unfold m, m1. rewrite !load8_store32_out by lia. done. }
  pose proof (take_ok base s fl al n l1 l2 x Hok Hfl Hn m q.1) as HT.
  replace (x.2 =? n) with false in HT by lia. cbv iota in HT. fold h in HT. apply HT.
  - rewrite app_comm_cons, El, <- app_assoc, fmap_app. simpl. set_solver.
  - rewrite app_comm_cons, El. pose proof (h_sorted _ _ _ _ Hok) as Hsort. rewrite Hns in Hsort.
    replace (lq ++ q :: x :: l2) with ((lq ++ [q]) ++ x :: l2) in Hs, Hsort by (by rewrite <- app_assoc).
    apply useg_app in Hs as [S1 (S2 & S3 & S4)]. apply useg_app. split; [|split; [|split]].
    + apply (useg_ext (u_mem s)); [|done]. intros y c Hy Hc.
      pose proof (sorted_prior _ _ _ _ Hsort Hy) as Hyq. unfold before in Hyq. apply Hm; unfold h; lia.
    + simpl. rewrite <- S2. apply load32_ext. intros k Hk. apply Hm; unfold h; lia.
    + simpl. unfold m. rewrite load32_store32_ne by (unfold h; lia). unfold m1. rewrite load32_store32_eq.
      unfold in_heap, bend in *. apply Z.mod_small. lia.
    + apply (useg_ext (u_mem s)); [|done]. intros y c Hy Hc.
      assert (before x y) as [? ?] by (eapply sorted_after; [exact Hsort|done]). unfold bend in *. apply Hm; unfold h; lia.
  - unfold m. rewrite load32_store32_eq. unfold in_heap, bend in *. apply Z.mod_small. lia.
  - apply (kept_free base s fl); [done|]. intros c Hc Hb.
    assert (~ (x.1 <= c < bend x)) by (intros Hcx; apply Hc; exists x; split; [rewrite Hfl; set_solver|done]).
    apply Hm; unfold h, bend in *; lia.
Qed.

Lemma malloc_take_spec :
  runs (malloc_take n q.1 x.1 s) (fun p s' => exists h fl', p = h + 8 /\ took base s fl al n h s' fl').
Proof. destruct (decide (x.2 = n)); [by apply take_whole|apply take_end; lia]. Qed.
End malloc_take.

(** ** The search of [malloc] *)

Section malloc_loop.
Context `{SB : Sbrk} (base : Z) (s : ustate) (fl al : list block) (n : Z) (Q : Z -> ustate -> Prop).
Let ns := (base, 0) :: fl.
Hypothesis (Hok : heap_ok base s fl al) (Hn : 1 <= n).

(** Every block that is large enough may be taken. *)
Hypothesis Htake : forall l1 q x l2, ns = l1 ++ q :: x :: l2 -> n <= x.2 -> runs (malloc_take n q.1 x.1 s) Q.

Definition ask (k : nat) : U Z :=
  p <- morecore n ;; if p =? 0 then ret 0 else next <- hdr_ptr p ;; malloc_loop k n p next.

Lemma loop_step k prev l1 x l2 :
  ns = l1 ++ x :: l2 ->
  malloc_loop (S k) n prev x.1 s =
    if x.2 >=? n then malloc_take n prev x.1 s
    else if x.1 =? u_freep s then ask k s else malloc_loop k n x.1 (hd base (baddr <$> l2)) s.
Proof. clear Htake.
  intros Hns. pose proof (h_seg _ _ _ _ Hok) as Hs. fold ns in Hs. rewrite Hns in Hs.
  destruct (seg_at _ _ _ _ _ Hs) as [Hp Hz]. cbn [malloc_loop].
  rewrite (bind_ok _ _ s x.2 s) by (unfold hdr_size, gets; by rewrite Hz).
  destruct (x.2 >=? n); [done|]. rewrite (bind_ok _ _ s (u_freep s) s) by done.
  destruct (x.1 =? u_freep s); [done|].
  by rewrite (bind_ok _ _ s (hd base (baddr <$> l2)) s) by (unfold hdr_ptr, gets; by rewrite Hp).
Qed.

(** To the end of the list, then on from [base]. *)
Lemma scan_rest l2 : forall l1 y k,
  ns = l1 ++ y :: l2 -> (forall x, x ∈ l2 -> x.1 <> u_freep s) ->
  (forall z, (forall x, x ∈ l2 -> x.2 < n) -> runs (malloc_loop k n z base s) Q) ->
  runs (malloc_loop (length l2 + k) n y.1 (hd base (baddr <$> l2)) s) Q.
Proof.
  induction l2 as [|x l2 IH]; intros l1 y k Hns Hf Hk; [apply Hk; set_solver|].
  cbn [length plus fmap list_fmap hd]. rewrite (loop_step _ _ (l1 ++ [y]) x l2) by (by rewrite <- app_assoc).
  destruct (Z.geb_spec x.2 n) as [Hge|Hlt]; [by apply (Htake l1 y x l2)|].
  replace (x.1 =? u_freep s) with false by (symmetry; apply Z.eqb_neq, Hf; left).
  apply (IH (l1 ++ [y]) x); [by rewrite <- app_assoc|intros z Hz; apply Hf; by right|].
  intros z Hz. apply Hk. intros w [->|Hw]%elem_of_cons; [lia|auto].
Qed.

(** Up to the block [freep] points at. *)
Lemma scan_to la : forall l1 y f lb k,
  ns = l1 ++ y :: la ++ f :: lb -> u_freep s = f.1 -> (forall x, x ∈ la -> x.1 <> u_freep s) ->
  ((forall x, x ∈ la -> x.2 < n) -> f.2 < n -> runs (ask k s) Q) ->
  runs (malloc_loop (S (length la) + k) n y.1 (hd f.1 (baddr <$> la)) s) Q.
Proof.
  induction la as [|x la IH]; intros l1 y f lb k Hns Hf Hno Hk; cbn [length plus fmap list_fmap hd].
  - rewrite (loop_step _ _ (l1 ++ [y]) f lb) by (by rewrite <- app_assoc).
    destruct (Z.geb_spec f.2 n) as [Hge|Hlt]; [by apply (Htake l1 y f lb)|].
    rewrite Hf, Z.eqb_refl. apply Hk; [set_solver|done].
  - rewrite (loop_step _ _ (l1 ++ [y]) x (la ++ f :: lb)) by (by rewrite <- app_assoc).
    destruct (Z.geb_spec x.2 n) as [Hge|Hlt]; [by apply (Htake l1 y x (la ++ f :: lb))|].
    replace (x.1 =? u_freep s) with false by (symmetry; apply Z.eqb_neq, Hno; left).
    replace (hd base (baddr <$> la ++ f :: lb)) with (hd f.1 (baddr <$> la)) by (by destruct la).
    apply (IH (l1 ++ [y]) x f lb); [by rewrite <- app_assoc|done|intros z Hz; apply Hno; by right|].
    intros Hz Hfn. apply Hk; [|done]. intros w [->|Hw]%elem_of_cons; [lia|auto].
Qed.

Lemma sorted_addr l1 x l2 y : ns = l1 ++ x :: l2 -> y ∈ l1 ++ l2 -> y.1 <> x.1.
Proof. clear Htake.
  intros Hns. pose proof (h_sorted _ _ _ _ Hok) as Hs. fold ns in Hs. rewrite Hns in Hs.
  intros [Hy|Hy]%elem_of_app.
  - pose proof (sorted_prior _ _ _ _ Hs Hy) as H. unfold before in H. lia.
  - pose proof (sorted_after _ _ _ _ Hs Hy) as H. unfold before in H. lia.
Qed.

(** One round: a block is taken, or more memory is asked for, since none was
    large enough. *)
Lemma malloc_round k :
  ((forall x, x ∈ fl -> x.2 < n) -> runs (ask k s) Q) ->
  runs (malloc_loop (S (length fl) + k) n (u_freep s) (load32 (u_mem s) (u_freep s)) s) Q.
Proof.
  intros Hk. pose proof (h_freep _ _ _ _ Hok) as Hf. apply list_elem_of_fmap in Hf as (f & Hf & Hin).
  apply list_elem_of_split in Hin as (la & lb & Hns). fold ns in Hns.
  pose proof (h_seg _ _ _ _ Hok) as Hs. fold ns in Hs. rewrite Hns in Hs.
  destruct (seg_at _ _ _ _ _ Hs) as [Hp Hz]. rewrite Hf, Hp. clear Hs.
  assert (Hne : forall y, y ∈ la ++ lb -> y.1 <> u_freep s) by (rewrite Hf; intros y; by apply sorted_addr).
  destruct la as [|y la].
  - unfold ns in Hns. simpl in Hns. injection Hns as <- <-.
    replace (S (length fl) + k)%nat with (length fl + S k)%nat by lia.
    apply (scan_rest fl [] (base, 0)); [done|set_solver|]. intros z Hsmall.
    pose proof (loop_step k z [] (base, 0) fl eq_refl) as Hst. cbn [fst snd] in Hst. rewrite Hst.
    replace (0 >=? n) with false by lia. simpl in Hf. rewrite Hf, Z.eqb_refl. by apply Hk.
  - pose proof Hns as Hns'. unfold ns in Hns'. simpl in Hns'. injection Hns' as <- Hfl.
    replace (S (length fl) + k)%nat with (length lb + S (S (length la) + k))%nat
      by (rewrite Hfl, length_app; simpl; lia).
    apply (scan_rest lb ((base, 0) :: la) f); [done|intros; apply Hne; set_solver|]. intros z Hsmall.
    pose proof (loop_step (S (length la) + k) z [] (base, 0) fl eq_refl) as Hst. cbn [fst snd] in Hst. rewrite Hst.
    replace (0 >=? n) with false by lia.
    replace (base =? u_freep s) with false by (symmetry; apply Z.eqb_neq, (Hne (base, 0)); set_solver).
    replace (hd base (baddr <$> fl)) with (hd f.1 (baddr <$> la)) by (rewrite Hfl; by destruct la).
    apply (scan_to la [] (base, 0) f lb); [done|done|intros; apply Hne; set_solver|].
    intros Hla Hfn. apply Hk. rewrite Hfl. intros x [Hx|[->|Hx]%elem_of_cons]%elem_of_app; auto.
Qed.
End malloc_loop.
