(* ===== verification/UmallocSpec.v ===== *)
(** * The memory allocator of user programs: results *)

From stdpp Require Import sorting.
From S2P Require Import Prelude CMem Machine Umalloc UmallocProof.

Section results.
Context `{SB : Sbrk, !SbrkOk SB}.

(** A heap that has not been used, or one the invariant describes. *)
Definition heap (s : ustate) (fl al : list block) : Prop :=
  u_freep s = 0 /\ fl = [] /\ al = [] /\ base_addr + 8 <= u_brk s < 2^32 - 4096 /\
    u_brk s mod 8 = 0 \/
  heap_ok base_addr s fl al.

Lemma heap_freep s fl al : heap_ok base_addr s fl al -> u_freep s <> 0.
Proof.
  intros Hok. pose proof base_pos as Hb. pose proof (h_freep _ _ _ _ Hok) as Hf.
  apply list_elem_of_fmap in Hf as (y & -> & [->|Hy]%elem_of_cons); [simpl; lia|].
  pose proof (h_free _ _ _ _ Hok) as Hh. rewrite Forall_forall in Hh. specialize (Hh y Hy).
  unfold in_heap in Hh. lia.
Qed.

(** The first call: [base] points to itself. *)
Definition heap_start (s : ustate) : ustate :=
  set_u_mem (store32 (store32 (u_mem s) base_addr base_addr) (base_addr + 4) 0) (set_u_freep base_addr s).

Lemma heap_start_ok s :
  base_addr + 8 <= u_brk s < 2^32 - 4096 -> u_brk s mod 8 = 0 -> heap_ok base_addr (heap_start s) [] [].
Proof.
  intros Hb He. pose proof base_pos as Hbp.
  split; cbn [u_mem u_freep u_brk heap_start set_u_mem set_u_freep seg fst snd fmap list_fmap hd];
    try done; try (intros; set_solver).
  - split; [|split; [|done]]; [rewrite load32_store32_ne by lia|]; rewrite load32_store32_eq; [|done].
    apply Z.mod_small. lia.
  - repeat constructor.
  - constructor.
Qed.

Lemma malloc_eq s fl al nbytes :
  heap s fl al -> exists s0, heap_ok base_addr s0 fl al /\ u_brk s0 = u_brk s /\ kept al (u_mem s) (u_mem s0) /\
    malloc nbytes s = malloc_loop (list_fuel s0) (units_of nbytes) (u_freep s0) (load32 (u_mem s0) (u_freep s0)) s0.
Proof.
  intros [(Hf & -> & -> & Hb & He)|Hok].
  - exists (heap_start s). split; [by apply heap_start_ok|]. split; [done|].
    split; [intros c (y & Hy & _); set_solver|].
    unfold malloc. cbv zeta. rewrite (bind_ok _ _ s 0 s) by (unfold gets; by rewrite Hf). done.
  - exists s. split; [done|]. split; [done|]. split; [done|]. pose proof (heap_freep s fl al Hok) as Hf.
    unfold malloc. cbv zeta. rewrite (bind_ok _ _ s (u_freep s) s) by done.
    destruct (Z.eqb_spec (u_freep s) 0); [done|]. done.
Qed.

(** The new block is [n] units at [p - 8]; the memory it came from was free. *)
Definition allocated (s : ustate) (fl al : list block) (n p : Z) (s' : ustate) : Prop :=
  exists fl', heap s' fl' ((p - 8, n) :: al) /\ kept al (u_mem s) (u_mem s') /\ u_brk s <= u_brk s' /\
    (forall c, covers fl c \/ u_brk s <= c < u_brk s' <-> covers fl' c \/ p - 8 <= c < p - 8 + 8 * n) /\
    forall c, covers fl' c -> ~ (p - 8 <= c < p - 8 + 8 * n).

Lemma took_allocated s fl al n h s' fl' :
  took base_addr s fl al n h s' fl' -> allocated s fl al n (h + 8) s'.
Proof.
  intros [T1 T2 T3 T4 T5]. exists fl'. replace (h + 8 - 8) with h by lia.
  split; [by right|]. split; [done|]. split; [lia|]. split; [|done].
  intros c. rewrite T2, T5. split; [intros [Hc|Hc]; [done|lia]|by left].
Qed.

Lemma more_allocated s fl al n s1 fl1 h s' fl' :
  more s fl al n s1 fl1 -> 1 <= n -> took base_addr s1 fl1 al n h s' fl' -> allocated s fl al n (h + 8) s'.
Proof.
  intros [M1 M2 M3 M4 M5 M6] Hn [T1 T2 T3 T4 T5]. exists fl'. replace (h + 8 - 8) with h by lia.
  split; [by right|]. split; [intros c Hc; by rewrite T4, M4|]. split; [lia|]. split; [|done].
  intros c. rewrite <- T2, M3. rewrite T5. tauto.
Qed.

Lemma malloc_spec s fl al nbytes :
  heap s fl al -> 1 <= units_of nbytes < 2^28 ->
  runs (malloc nbytes s) (fun p s' =>
    p = 0 /\ heap s' fl al /\ kept al (u_mem s) (u_mem s') /\ u_brk s' = u_brk s /\
      (forall x, x ∈ fl -> x.2 < units_of nbytes) /\ refused (8 * Z.max 4096 (units_of nbytes)) s' \/
    p <> 0 /\ allocated s fl al (units_of nbytes) p s').
Proof.
  intros Hh Hn. destruct (malloc_eq s fl al nbytes Hh) as (s0 & Hok & Hbrk & Hk0 & ->).
  set (n := units_of nbytes) in *. pose proof base_pos as Hbp.
  assert (Hpos : forall h s1 fl1 al1, heap s1 fl1 ((h + 8 - 8, n) :: al1) -> h + 8 <> 0).
  { intros h s1 fl1 al1 [(_ & _ & ? & _)|Ho]; [done|]. pose proof (h_used _ _ _ _ Ho) as Hu.
    apply Forall_cons in Hu as [Hu _]. unfold in_heap in Hu. simpl in Hu. lia. }
  assert (Hback : forall p s', allocated s0 fl al n p s' -> allocated s fl al n p s').
  { intros p s' (fl' & A1 & A2 & A3 & A4 & A5). exists fl'. rewrite <- Hbrk. split; [done|].
    split; [intros c Hc; by rewrite A2, Hk0|done]. }
  pose proof (heap_fuel _ _ _ _ Hok ltac:(lia)) as Hfuel.
  replace (list_fuel s0) with (S (length fl) + (list_fuel s0 - S (length fl)))%nat by lia.
  set (k := (list_fuel s0 - S (length fl))%nat).
  apply (malloc_round base_addr s0 fl al n _ Hok); [lia| |].
  { intros l1 q x l2 Hns Hx. eapply runs_mono; [apply (malloc_take_spec base_addr s0 fl al n l1 l2 q x); try done; lia|].
    intros p s' (h & fl' & -> & HT). right. apply took_allocated, Hback in HT as HA.
    destruct HA as (fl2 & A1 & A2). split; [by eapply Hpos|by exists fl2]. }
  intros Hsmall. unfold ask. apply runs_bind. eapply runs_mono; [by apply morecore_spec|].
  intros r s1 [(-> & -> & Href)|(-> & Hr & fl1 & HM)].
  - cbn. left. split; [done|]. split; [by right|]. done.
  - destruct (Z.eqb_spec (u_freep s1) 0); [done|]. pose proof HM as [M1 M2 M3 M4 M5 M6].
    rewrite (bind_ok _ _ s1 (load32 (u_mem s1) (u_freep s1)) s1) by done.
    replace k with (S (length fl1) + (k - S (length fl1)))%nat by (unfold k; lia).
    apply (malloc_round base_addr s1 fl1 al n _ M1); [lia| |].
    + intros l1 q x l2 Hns Hx. eapply runs_mono; [apply (malloc_take_spec base_addr s1 fl1 al n l1 l2 q x); try done; lia|].
      intros p s' (h & fl' & -> & HT). right.
      pose proof (Hback _ _ (more_allocated s0 fl al n s1 fl1 h s' fl' HM (proj1 Hn) HT)) as (fl2 & A1 & A2).
      split; [by eapply Hpos|by exists fl2].
    + intros Hno. exfalso. destruct M5 as (y & Hy & Hys). specialize (Hno y Hy). lia.
Qed.

(** C19: [malloc] returns a pointer, aligned to 8 bytes, to [nbytes] bytes of the
    heap that belong to no block in use and to no free block; blocks in use keep
    their content, the free list is again in address order with no two free
    blocks touching, and no memory is lost: what was free, and what [sbrk]
    added, is free or in the new block.  It returns 0 only when no free block is
    large enough and [sbrk] refuses the request for the block, or for 4096 units
    if that is more; no block has changed then.  The first call, with the list
    not yet made, behaves the same.  This is for requests up to [2^31 - 16]
    bytes; see [malloc_wraps] for the others. *)
Theorem malloc_correct (s : ustate) (fl al : list block) (nbytes : Z) :
  heap s fl al -> 0 <= nbytes <= 2^31 - 16 ->
  runs (malloc nbytes s) (fun p s' =>
    p = 0 /\ heap s' fl al /\ kept al (u_mem s) (u_mem s') /\ u_brk s' = u_brk s /\
      (forall x, x ∈ fl -> 8 * x.2 < nbytes + 16) /\
      refused (8 * Z.max 4096 ((nbytes + 7) / 8 + 1)) s' \/
    p <> 0 /\ p mod 8 = 0 /\ exists n fl', nbytes + 8 <= 8 * n /\ heap s' fl' ((p - 8, n) :: al) /\
      kept al (u_mem s) (u_mem s') /\
      (forall c, p <= c < p + nbytes -> base_addr + 8 <= c < u_brk s' /\ ~ covers al c /\ ~ covers fl' c) /\
      (forall c, covers fl c \/ u_brk s <= c < u_brk s' <-> covers fl' c \/ p - 8 <= c < p - 8 + 8 * n)).
Proof.
  intros Hh Hn. assert (Hu : units_of nbytes = (nbytes + 7) / 8 + 1).
  { unfold units_of, u32, HDR. rewrite Z.mod_small by lia. f_equal. f_equal. lia. }
  eapply runs_mono; [apply (malloc_spec s fl al nbytes Hh); rewrite Hu; zlia|].
  intros p s' [(-> & H1 & H2 & H3 & H4 & H5)|(Hp & fl' & A1 & A2 & A3 & A4 & A5)]; [left|right].
  - do 4 (split; [done|]). split; [|by rewrite <- Hu]. intros x Hx. specialize (H4 x Hx). rewrite Hu in H4. zlia.
  - assert (Hsz : nbytes + 8 <= 8 * units_of nbytes) by (rewrite Hu; zlia).
    pose proof A1 as [(_ & _ & ? & _)|Hok]; [done|]. split; [done|].
    split. { pose proof (h_align _ _ _ _ Hok (p - 8, units_of nbytes)) as Ha. cbn [fst] in Ha.
             specialize (Ha ltac:(right; left)). zlia. }
    exists (units_of nbytes), fl'. do 3 (split; [done|]). split; [|done]. intros c Hc.
    pose proof (h_used _ _ _ _ Hok) as Hus. apply Forall_cons in Hus as [Hus _].
    pose proof (h_alone _ _ _ _ Hok) as Hal. apply StronglySorted_cons in Hal as [Hal _].
    unfold in_heap, bend in Hus. cbn [fst snd] in Hus. split; [lia|]. split.
    + intros (y & Hy & Hcy). rewrite Forall_forall in Hal. specialize (Hal y Hy).
      unfold disj, bend in *. cbn [fst snd] in Hal. lia.
    + intros Hcov. apply (A5 c Hcov). lia.
Qed.

(** C20: [free] of a block in use returns exactly its bytes to the free list,
    merging it with the free blocks it touches: the list is again in address
    order with no two free blocks touching.  Every other block in use keeps its
    content, and the search for the block's place ends wherever [freep] is. *)
Theorem free_correct (s : ustate) (fl al1 al2 : list block) (p n : Z) :
  heap s fl (al1 ++ (p - 8, n) :: al2) ->
  runs (free p s) (fun _ s' => exists fl', heap s' fl' (al1 ++ al2) /\ u_brk s' = u_brk s /\
    kept (al1 ++ al2) (u_mem s) (u_mem s') /\
    StronglySorted before fl' /\
    (forall c, covers fl' c <-> covers fl c \/ p - 8 <= c < p - 8 + 8 * n)).
Proof.
  intros [(_ & _ & H & _)|Hok]; [by destruct al1|]. assert (Hb : 0 < base_addr) by apply base_pos.
  pose proof (free_spec base_addr s fl al1 al2 (p - 8, n) Hb Hok) as Hf. cbn [fst] in Hf.
  replace (p - 8 + 8) with p in Hf by lia. eapply runs_mono; [exact Hf|].
  intros [] s' (fl' & [F1 F2 F3 F4 F5 F6]). exists fl'. split; [by right|]. do 2 (split; [done|]). split; [|exact F2].
  pose proof (h_sorted _ _ _ _ F1) as Hs. by apply StronglySorted_cons in Hs as [_ Hs].
Qed.

(** The unit count is computed in 32 bits: a request for almost 4 GB wraps to
    one unit, and a program that has a free block is given a header with no
    room behind it. *)
Lemma malloc_wraps (s : ustate) (fl al : list block) (nbytes : Z) :
  heap s fl al -> fl <> [] -> 2^32 - 7 <= nbytes < 2^32 ->
  runs (malloc nbytes s) (fun p s' => p <> 0 /\ exists fl', heap s' fl' ((p - 8, 1) :: al)).
Proof.
  intros Hh Hne Hn. assert (Hu : units_of nbytes = 1).
  { unfold units_of, u32, HDR. replace (nbytes + 8 - 1) with (nbytes + 7 - 2^32 + 1 * 2^32) by lia.
    rewrite Z_mod_plus_full, Z.mod_small by lia. rewrite Z.div_small by lia. done. }
  eapply runs_mono; [apply (malloc_spec s fl al nbytes Hh); rewrite Hu; lia|].
  rewrite Hu. intros p s' [(-> & _ & _ & _ & Hsmall & _)|(Hp & fl' & A1 & _)]; [exfalso|by split; [|exists fl']].
  destruct fl as [|x fl]; [done|]. specialize (Hsmall x ltac:(left)).
  destruct Hh as [(_ & ? & _)|Hok]; [done|]. pose proof (h_free _ _ _ _ Hok) as Hf.
  apply Forall_cons in Hf as [Hf _]. unfold in_heap in Hf. lia.
Qed.
End results.

(** ** Witnesses

    A fresh process: the program at 16, its heap from 4096 on. *)
Definition demo_sbrk : Sbrk := sbrk_upto 16 1000000.
Lemma demo_sbrk_ok : SbrkOk demo_sbrk.
Proof. by apply sbrk_upto_ok. Qed.
Definition demo_user : ustate := mkUstate ∅ 0 4096.

Lemma demo_user_heap : @heap demo_sbrk demo_user [] [].
Proof. left. repeat split; reflexivity || discriminate. Qed.

Lemma malloc_correct_witness :
  runs (@malloc demo_sbrk 100 demo_user) (fun p s' => p = 36760 /\ u_brk s' = 36864) /\
  runs (@malloc demo_sbrk 100 demo_user) (fun p s' =>
    p = 0 /\ @heap demo_sbrk s' [] [] /\ kept [] (u_mem demo_user) (u_mem s') /\ u_brk s' = u_brk demo_user /\
      (forall x, x ∈ ([] : list block) -> 8 * x.2 < 100 + 16) /\
      @refused demo_sbrk (8 * Z.max 4096 ((100 + 7) / 8 + 1)) s' \/
    p <> 0 /\ p mod 8 = 0 /\ exists n fl', 100 + 8 <= 8 * n /\ @heap demo_sbrk s' fl' ((p - 8, n) :: []) /\
      kept [] (u_mem demo_user) (u_mem s') /\
      (forall c, p <= c < p + 100 -> @base_addr demo_sbrk + 8 <= c < u_brk s' /\ ~ covers [] c /\ ~ covers fl' c) /\
      (forall c, covers [] c \/ u_brk demo_user <= c < u_brk s' <-> covers fl' c \/ p - 8 <= c < p - 8 + 8 * n)).
Proof.
  split; [vm_compute; split; reflexivity|].
  apply (@malloc_correct demo_sbrk demo_sbrk_ok demo_user [] [] 100).
  - exact demo_user_heap.
  - split; discriminate.
Defined.

(** The heap after one allocation of 100 bytes. *)
Lemma demo_one : exists s fl, @heap demo_sbrk s fl [(36760 - 8, 14)].
Proof.
  pose proof (@malloc_spec demo_sbrk demo_sbrk_ok demo_user [] [] 100 demo_user_heap ltac:(split; reflexivity || discriminate)) as H.
  assert (Hv : runs (@malloc demo_sbrk 100 demo_user) (fun p s' => p = 36760)) by (vm_compute; reflexivity).
  destruct (proj1 (runs_ok _ _) (runs_and _ _ _ H Hv)) as (p & s & _ & Hp & ->). clear H Hv.
  destruct Hp as [(Hz & _)|(_ & fl & Hh & _)]; [discriminate Hz|]. by exists s, fl.
Qed.

Lemma free_correct_witness : exists s fl,
  runs (free 36760 s) (fun _ s' => exists fl', @heap demo_sbrk s' fl' ([] ++ []) /\ u_brk s' = u_brk s /\
    kept ([] ++ []) (u_mem s) (u_mem s') /\ StronglySorted before fl' /\
    (forall c, covers fl' c <-> covers fl c \/ 36760 - 8 <= c < 36760 - 8 + 8 * 14)).
Proof.
  destruct demo_one as (s & fl & Hh). exists s, fl.
  apply (@free_correct demo_sbrk demo_sbrk_ok s fl [] [] 36760 14). exact Hh.
Defined.
