(* ===== verification/Div64.v ===== *)
(** * 64-bit division in software

    Models [src/os/user/div64.c], which the compiler calls for division of
    64-bit integers on the 32-bit machine, and shows it to be division. *)

From S2P Require Import Prelude Machine.

(** A 64-bit word read as a [long long]. *)
Definition i64 (x : Z) : Z := let y := x mod 2^64 in if y <? 2^63 then y else y - 2^64.

(** [for(int i = 63; i >= 0; i--)] with [S k] for [i = k]: quotient and
    remainder. *)
Fixpoint udivmod64_loop (k : nat) (n d q r : Z) : Z * Z :=
  match k with
  | O => (q, r)
  | S k' =>
      let i := Z.of_nat k' in
      let r := Z.lor (u64 (Z.shiftl r 1)) (Z.land (Z.shiftr n i) 1) in
      if r >=? d then udivmod64_loop k' n d (Z.lor q (u64 (Z.shiftl 1 i))) (u64 (r - d))
      else udivmod64_loop k' n d q r
  end.

(** The quotient, and the remainder stored through [rem]. *)
Definition udivmod64 (n d : Z) : Z * Z :=
  if d =? 0 then (0, 0) else udivmod64_loop 64 n d 0 0.

Definition udivdi3 (n d : Z) : Z := (udivmod64 n d).1.
Definition umoddi3 (n d : Z) : Z := (udivmod64 n d).2.

Definition uabs64 (x : Z) : Z :=
  if x <? 0 then u64 (u64 (- (x + 1)) + 1) else u64 x.

(** The source negates the quotient as a [long long].  When that is [-2^63], as
    in [-2^63 / 1], negation is undefined in C; the model wraps around, as the
    instructions of the machine do. *)
Definition divdi3 (n d : Z) : Z :=
  let neg := xorb (n <? 0) (d <? 0) in
  let q := (udivmod64 (uabs64 n) (uabs64 d)).1 in
  if neg then i64 (- i64 q) else i64 q.

Definition moddi3 (n d : Z) : Z :=
  let r := (udivmod64 (uabs64 n) (uabs64 d)).2 in
  if n <? 0 then i64 (- i64 r) else i64 r.

(** ** The loop computes quotient and remainder *)

Lemma low_bit n : Z.land n 1 = n mod 2.
Proof. change 1 with (Z.ones 1). by rewrite Z.land_ones by lia. Qed.

Lemma double_or_bit r b : 0 <= r < 2^63 -> 0 <= b < 2 ->
  Z.lor (u64 (Z.shiftl r 1)) b = 2 * r + b.
Proof.
  intros Hr Hb. rewrite Z.shiftl_mul_pow2 by lia. change (2^1) with 2.
  unfold u64. rewrite Z.mod_small by lia.
  assert (Hl : Z.land (r * 2) b = 0).
  { apply Z.bits_inj'. intros i Hi. rewrite Z.land_spec, Z.bits_0.
    destruct (Z.eq_dec i 0) as [->|].
    - rewrite Z.mul_comm. by rewrite Z.testbit_even_0.
    - assert (b = 0 \/ b = 1) as [-> | ->] by lia; [by rewrite Z.bits_0, andb_false_r|].
      rewrite (Z.bits_above_log2 1 i), andb_false_r by (simpl; lia). done. }
  pose proof (Z.add_lor_land (r * 2) b). lia.
Qed.

(** A bit above the ones set already. *)
Lemma or_bit q k : 0 <= k < 64 -> q mod 2^(k+1) = 0 -> 0 <= q ->
  Z.lor q (u64 (Z.shiftl 1 k)) = q + 2^k.
Proof.
  intros Hk Hq Hq0. rewrite Z.shiftl_1_l. unfold u64.
  rewrite Z.mod_small by (split; [lia|apply Z.pow_lt_mono_r; lia]).
  assert (Hl : Z.land q (2^k) = 0).
  { apply Z.bits_inj'. intros i Hi. rewrite Z.land_spec, Z.bits_0, Z.pow2_bits_eqb by lia.
    destruct (Z.eqb_spec k i) as [<-|]; [|by rewrite andb_false_r].
    rewrite <- (Z.mod_pow2_bits_low q (k + 1) k) by lia. by rewrite Hq, Z.bits_0. }
  pose proof (Z.add_lor_land q (2^k)). lia.
Qed.

(** With the top bits of [n] above [k] divided: [q] and [r] are their quotient,
    shifted back, and their remainder. *)
Lemma udivmod64_loop_spec k n d q r :
  0 <= n < 2^64 -> 0 < d < 2^64 -> (k <= 64)%nat ->
  q = 2^(Z.of_nat k) * (n / 2^(Z.of_nat k) / d) -> r = (n / 2^(Z.of_nat k)) mod d ->
  udivmod64_loop k n d q r = (n / d, n mod d).
Proof.
  intros Hn Hd. revert q r. induction k as [|k IH]; intros q r Hk Hq Hr.
  { simpl. change (2 ^ Z.of_nat 0) with 1 in *. rewrite Z.div_1_r in *. subst. f_equal. lia. }
  cbn [udivmod64_loop]. rewrite Nat2Z.inj_succ in Hq, Hr.
  set (i := Z.of_nat k) in *. assert (Hi : 0 <= i < 64) by lia.
  assert (Hp : 0 < 2^i) by (apply Z.pow_pos_nonneg; lia).
  rewrite Z.pow_succ_r in Hq, Hr by lia.
  rewrite (Z.mul_comm 2 (2^i)) in Hq, Hr. rewrite <- Z.div_div in Hq, Hr by lia.
  set (m := n / 2^i) in *.
  assert (Hm : 0 <= m < 2^(64 - i)).
  { split; [apply Z.div_pos; lia|]. apply Z.div_lt_upper_bound; [lia|].
    rewrite <- Z.pow_add_r by lia. replace (i + (64 - i)) with 64 by lia. lia. }
  assert (Hm2 : 0 <= m / 2 < 2^63).
  { split; [apply Z.div_pos; lia|]. apply Z.div_lt_upper_bound; [lia|].
    eapply Z.lt_le_trans; [apply Hm|]. change (2 * 2^63) with (2^64). apply Z.pow_le_mono_r; lia. }
  assert (Hr2 : 0 <= r < d) by (subst r; apply Z.mod_pos_bound; lia).
  assert (Hr3 : r < 2^63).
  { destruct (Z_lt_le_dec (m / 2) d); [subst r; rewrite Z.mod_small; lia|lia]. }
  rewrite Z.shiftr_div_pow2 by lia. fold m. rewrite low_bit, double_or_bit
    by (try lia; apply Z.mod_pos_bound; lia).
  assert (Em : m = d * (2 * (m / 2 / d)) + (2 * r + m mod 2)).
  { subst r. pose proof (Z.div_mod (m / 2) d ltac:(lia)). pose proof (Z.div_mod m 2 ltac:(lia)). lia. }
  pose proof (Z.mod_pos_bound m 2 ltac:(lia)) as Hb.
  assert (Hq0 : 0 <= m / 2 / d) by (apply Z.div_pos; lia).
  destruct (2 * r + m mod 2 >=? d) eqn:Hc.
  - assert (Hc' : d <= 2 * r + m mod 2) by lia.
    apply IH; [lia| |].
    + rewrite Hq, or_bit; [|lia| |lia].
      * rewrite <- (Z.div_unique_pos m d (2 * (m / 2 / d) + 1) (2 * r + m mod 2 - d)) by lia. lia.
      * rewrite Z.pow_add_r by lia. change (2^1) with 2. rewrite Z.mul_comm. apply Z.mod_mul. lia.
    + unfold u64. rewrite Z.mod_small by lia.
      apply (Z.mod_unique_pos m d (2 * (m / 2 / d) + 1)); lia.
  - assert (Hc' : 2 * r + m mod 2 < d) by lia.
    apply IH; [lia| |].
    + rewrite Hq. rewrite <- (Z.div_unique_pos m d (2 * (m / 2 / d)) (2 * r + m mod 2)) by lia. lia.
    + apply (Z.mod_unique_pos m d (2 * (m / 2 / d))); lia.
Qed.

Lemma udivmod64_spec n d :
  0 <= n < 2^64 -> 0 < d < 2^64 -> udivmod64 n d = (n / d, n mod d).
Proof.
  intros Hn Hd. unfold udivmod64. destruct (Z.eqb_spec d 0); [lia|].
  assert (Hz : n / 2^(Z.of_nat 64) = 0) by (apply Z.div_small; exact Hn).
  apply udivmod64_loop_spec; try done; rewrite Hz; [by rewrite Z.div_0_l, Z.mul_0_r by lia|].
  by rewrite Z.mod_0_l by lia.
Qed.

(** ** Signed division *)

Lemma uabs64_abs x : -2^63 <= x < 2^63 -> uabs64 x = Z.abs x.
Proof.
  intros Hx. unfold uabs64, u64. destruct (Z.ltb_spec x 0).
  - rewrite (Z.mod_small (- (x + 1))) by lia. rewrite Z.mod_small by lia. lia.
  - rewrite Z.mod_small by lia. lia.
Qed.

Lemma i64_eq x y : -2^63 <= y < 2^63 -> (x - y) mod 2^64 = 0 -> i64 x = y.
Proof.
  intros Hy Hm. unfold i64.
  assert (Hx : x mod 2^64 = y mod 2^64).
  { apply Z.mod_divide in Hm as [k Hk]; [|done]. replace x with (y + k * 2^64) by lia.
    apply Z.mod_add. done. }
  rewrite Hx. destruct (Z_lt_le_dec y 0).
  - assert (Hm' : y mod 2^64 = y + 2^64) by (symmetry; apply (Z.mod_unique_pos y (2^64) (-1)); lia).
    rewrite Hm'. destruct (Z.ltb_spec (y + 2^64) (2^63)); lia.
  - rewrite Z.mod_small by lia. destruct (Z.ltb_spec y (2^63)); lia.
Qed.

Lemma i64_small x : -2^63 <= x < 2^63 -> i64 x = x.
Proof. intros Hx. apply i64_eq; [done|]. by rewrite Z.sub_diag. Qed.

(** Negating the 64-bit word of a magnitude up to [2^63]. *)
Lemma i64_neg q : 0 <= q <= 2^63 -> i64 (- i64 q) = - q.
Proof.
  intros Hq. apply i64_eq; [lia|]. destruct (Z.eq_dec q (2^63)) as [->|]; [done|].
  rewrite i64_small by lia. by rewrite Z.sub_diag.
Qed.

(** [__udivdi3] and [__umoddi3] are division and remainder of 64-bit
    unsigned integers, for every divisor other than 0; dividing by 0 gives 0
    in both.  No intermediate value is lost to overflow, although the partial
    remainder is shifted left in 64 bits. *)
Lemma unsigned_division_correct (n d : Z) :
  0 <= n < 2^64 -> 0 <= d < 2^64 ->
  udivdi3 n d = (if d =? 0 then 0 else n / d) /\
  umoddi3 n d = (if d =? 0 then 0 else n mod d).
Proof.
  intros Hn Hd. unfold udivdi3, umoddi3. destruct (Z.eqb_spec d 0) as [->|]; [done|].
  by rewrite udivmod64_spec by lia.
Qed.

(** C37: [__divdi3] and [__moddi3] divide signed 64-bit integers rounding
    towards zero, the remainder taking the sign of the dividend; the one
    quotient that does not fit, [-2^63 / -1], wraps to [-2^63]. *)
Theorem signed_division_correct (n d : Z) :
  -2^63 <= n < 2^63 -> -2^63 <= d < 2^63 -> d <> 0 ->
  divdi3 n d = i64 (Z.quot n d) /\ moddi3 n d = Z.rem n d /\
  (n <> -2^63 \/ d <> -1 -> divdi3 n d = Z.quot n d).
Proof.
  intros Hn Hd Hd0. unfold divdi3, moddi3. rewrite !uabs64_abs by lia.
  rewrite udivmod64_spec by lia. cbn [fst snd].
  assert (Hq : 0 <= Z.abs n / Z.abs d <= 2^63).
  { split; [apply Z.div_pos; lia|].
    transitivity (Z.abs n); [|lia]. apply Z.div_le_upper_bound; [lia|]. nia. }
  assert (Hr : 0 <= Z.abs n mod Z.abs d < 2^63)
    by (pose proof (Z.mod_pos_bound (Z.abs n) (Z.abs d)); lia).
  assert (Hqa : Z.abs n / Z.abs d = Z.abs (Z.quot n d)) by (by rewrite <- Z.quot_abs, Z.quot_div_nonneg by lia).
  assert (Hra : Z.abs n mod Z.abs d = Z.abs (Z.rem n d)) by (by rewrite <- Z.rem_abs, Z.rem_mod_nonneg by lia).
  assert (Hdiv : (if xorb (n <? 0) (d <? 0) then i64 (- i64 (Z.abs n / Z.abs d))
                  else i64 (Z.abs n / Z.abs d)) = i64 (Z.quot n d)).
  { destruct (xorb (n <? 0) (d <? 0)) eqn:Hs.
    - assert (Hneg : Z.quot n d <= 0).
      { destruct (Z.ltb_spec n 0), (Z.ltb_spec d 0); simpl in Hs; try discriminate.
        - pose proof (Z.quot_opp_l n d Hd0). pose proof (Z.quot_pos (- n) d). lia.
        - pose proof (Z.quot_opp_r n d Hd0). pose proof (Z.quot_pos n (- d)). lia. }
      rewrite i64_neg by done. rewrite i64_small by lia. lia.
    - assert (Hpos : 0 <= Z.quot n d).
      { destruct (Z.ltb_spec n 0), (Z.ltb_spec d 0); simpl in Hs; try discriminate.
        - rewrite <- Z.quot_opp_opp by done. apply Z.quot_pos; lia.
        - apply Z.quot_pos; lia. }
      by rewrite Hqa, Z.abs_eq. }
  split; [exact Hdiv|]. split.
  - destruct (Z.ltb_spec n 0).
    + rewrite i64_neg by lia. rewrite Hra. pose proof (Z.rem_sign_nz n d Hd0).
      destruct (Z.eq_dec (Z.rem n d) 0) as [->|Hz]; [done|].
      assert (Z.rem n d < 0); [|lia]. pose proof (Z.rem_nonpos n d Hd0 ltac:(lia)). lia.
    + rewrite i64_small by lia. rewrite Hra. pose proof (Z.rem_nonneg n d Hd0 ltac:(lia)). lia.
  - intros Hover. rewrite Hdiv. apply i64_small.
    assert (Hle : Z.abs (Z.quot n d) <= 2^63) by lia.
    destruct (Z.eq_dec (Z.quot n d) (2^63)) as [E|]; [|lia]. exfalso.
    pose proof (Z.quot_rem' n d). pose proof (Z.rem_bound_abs n d Hd0).
    assert (Z.abs n = 2^63 /\ Z.abs d = 1) as [H1 H2].
    { assert (Hb : Z.abs d * 2^63 <= Z.abs n).
      { pose proof (Z.mul_div_le (Z.abs n) (Z.abs d) ltac:(lia)).
        rewrite Hqa, E in *. change (Z.abs (2^63)) with (2^63) in *. lia. }
      nia. }
    assert (Hnm : n = -2^63) by lia. subst n. assert (d = 1 \/ d = -1) as [-> | ->] by lia; [|lia].
    by rewrite Z.quot_1_r in E.
Qed.


Lemma signed_division_correct_witness :
  divdi3 (-7) 2 = i64 (-3) /\ moddi3 (-7) 2 = -1 /\ (-7 <> -2^63 \/ 2 <> -1 -> divdi3 (-7) 2 = -3).
Proof. apply (signed_division_correct (-7) 2); lia. Defined.
