(* ===== verification/Grep.v ===== *)
(** * grep

    Models the matcher of [src/os/user/grep.c] on strings in memory and shows
    that it decides the pattern language its comment describes. *)

From S2P Require Import Prelude CMem Machine.

Definition ch_caret : Z := 94.
Definition ch_dollar : Z := 36.
Definition ch_star : Z := 42.
Definition ch_dot : Z := 46.

(** The calls nest at most [2 * strlen(re) + strlen(text) + 2] deep; [None] is
    a bound too small. *)
Fixpoint matchhere (fuel : nat) (m : mem) (re text : Z) : option bool :=
  match fuel with
  | O => None
  | S f =>
      if load8 m re =? 0 then Some true
      else if load8 m (re + 1) =? ch_star then matchstar f m (load8 m re) (re + 2) text
      else if (load8 m re =? ch_dollar) && (load8 m (re + 1) =? 0)
      then Some (load8 m text =? 0)
      else if negb (load8 m text =? 0) &&
              ((load8 m re =? ch_dot) || (load8 m re =? load8 m text))
      then matchhere f m (re + 1) (text + 1)
      else Some false
  end
with matchstar (fuel : nat) (m : mem) (c re text : Z) : option bool :=
  match fuel with
  | O => None
  | S f =>
      match matchhere f m re text with
      | None => None
      | Some true => Some true
      | Some false =>
          if negb (load8 m text =? 0) && ((load8 m text =? c) || (c =? ch_dot))
          then matchstar f m c re (text + 1)
          else Some false
      end
  end.

(** [do{ ... }while( *text++ != 0)] of [match], [n] rounds at most. *)
Fixpoint match_loop (n fuel : nat) (m : mem) (re text : Z) : option bool :=
  match n with
  | O => None
  | S n' =>
      match matchhere fuel m re text with
      | None => None
      | Some true => Some true
      | Some false =>
          if load8 m text =? 0 then Some false else match_loop n' fuel m re (text + 1)
      end
  end.
Definition match_ (fuel : nat) (m : mem) (re text : Z) : option bool :=
  if load8 m re =? ch_caret then matchhere fuel m (re + 1) text
  else match_loop fuel fuel m re text.

(** ** The pattern language *)

(** The pattern character [c] stands for [x]. *)
Definition hit (c x : Z) : Prop := c = ch_dot \/ c = x.

(** The pattern [r] matches a prefix of [t]. *)
Fixpoint matches (r t : list Z) : Prop :=
  match r with
  | [] => True
  | c :: r' =>
      let one := exists x t', t = x :: t' /\ hit c x /\ matches r' t' in
      match r' with
      | [] => if c =? ch_dollar then t = [] else one
      | s :: r'' =>
          if s =? ch_star then exists t1 t2, t = t1 ++ t2 /\ Forall (hit c) t1 /\ matches r'' t2
          else one
      end
  end.
(** A pattern matches anywhere, or at the start after a caret. *)
Definition accepts (r t : list Z) : Prop :=
  match r with
  | c :: r' => if c =? ch_caret then matches r' t else exists t1 t2, t = t1 ++ t2 /\ matches r t2
  | [] => True
  end.

(** The nul-terminated string [l] is at address [a]. *)
Fixpoint str_at (m : mem) (a : Z) (l : list Z) : Prop :=
  match l with
  | [] => load8 m a = 0
  | c :: l' => load8 m a = c /\ c <> 0 /\ str_at m (a + 1) l'
  end.

Lemma star_unfold c r t :
  (exists t1 t2, t = t1 ++ t2 /\ Forall (hit c) t1 /\ matches r t2) <->
  matches r t \/ exists x t', t = x :: t' /\ hit c x /\
    exists t1 t2, t' = t1 ++ t2 /\ Forall (hit c) t1 /\ matches r t2.
Proof.
  split.
  - intros ([|x t1] & t2 & -> & Ht & Hm); [by left|right]. apply Forall_cons in Ht as [Hx Ht].
    exists x, (t1 ++ t2). split; [done|]. split; [done|]. by exists t1, t2.
  - intros [Hm|(x & t' & -> & Hx & t1 & t2 & -> & Ht & Hm)].
    + exists [], t. split; [done|]. split; [constructor|done].
    + exists (x :: t1), t2. split; [done|]. split; [by constructor|done].
Qed.

(** [b] answers the question [P]. *)
Definition answers (o : option bool) (P : Prop) : Prop :=
  exists b, o = Some b /\ (b = true <-> P).

Lemma answers_iff o P Q : answers o P -> (P <-> Q) -> answers o Q.
Proof. intros (b & -> & Hb) H. exists b. split; [done|]. by rewrite Hb. Qed.

(** The next character is there and is one [c] stands for. *)
Lemma hit_test m a t c :
  str_at m a t ->
  (negb (load8 m a =? 0) && ((c =? ch_dot) || (c =? load8 m a)) = true /\
   exists x t', t = x :: t' /\ hit c x /\ str_at m (a + 1) t') \/
  (negb (load8 m a =? 0) && ((c =? ch_dot) || (c =? load8 m a)) = false /\
   ~ exists x t', t = x :: t' /\ hit c x).
Proof.
  intros Ht. destruct t as [|x t]; simpl in Ht.
  - right. rewrite Ht. split; [done|]. by intros (x & t' & ? & _).
  - destruct Ht as (Hx & Hx0 & Ht). rewrite Hx.
    destruct (Z.eqb_spec x 0); [done|]. simpl. unfold hit.
    destruct (Z.eqb_spec c ch_dot), (Z.eqb_spec c x); simpl;
      first [left; split; [done|]; exists x, t; by auto
            |right; split; [done|]; intros (y & t' & [= <- <-] & [?|?]); done].
Qed.

Lemma matcher_spec fuel : forall m,
  (forall re text r t, str_at m re r -> str_at m text t ->
     (2 * length r + length t < fuel)%nat -> answers (matchhere fuel m re text) (matches r t)) /\
  (forall c re text r t, str_at m re r -> str_at m text t ->
     (2 * length r + length t + 1 < fuel)%nat ->
     answers (matchstar fuel m c re text)
       (exists t1 t2, t = t1 ++ t2 /\ Forall (hit c) t1 /\ matches r t2)).
Proof.
  induction fuel as [|fuel IH]; intros m; [split; intros; lia|].
  destruct (IH m) as [IHh IHs]. split.
  - intros re text r t Hr Ht Hf. cbn [matchhere]. destruct r as [|c r].
    { simpl in Hr. rewrite Hr. by exists true. }
    destruct Hr as (Hc & Hc0 & Hr). rewrite Hc. destruct (Z.eqb_spec c 0); [done|].
    assert (Hone : answers (if negb (load8 m text =? 0) && ((c =? ch_dot) || (c =? load8 m text))
        then matchhere fuel m (re + 1) (text + 1) else Some false)
        (exists x t', t = x :: t' /\ hit c x /\ matches r t')).
    { destruct (hit_test m text t c Ht) as [(-> & x & t' & -> & Hx & Ht')|[-> Hno]].
      - eapply answers_iff; [apply (IHh (re + 1) (text + 1) r t'); simpl in *; try done; lia|].
        split; [intros H; by exists x, t'|]. by intros (y & t2 & [= <- <-] & _ & H).
      - exists false. split; [done|]. split; [done|]. intros (x & t' & H1 & H2 & _).
        destruct Hno. by exists x, t'. }
    destruct r as [|s r]; simpl in Hr.
    + rewrite Hr. change (0 =? ch_star) with false. rewrite andb_true_r. simpl.
      destruct (c =? ch_dollar); [|exact Hone].
      exists (load8 m text =? 0). split; [done|]. destruct t as [|x t]; simpl in Ht.
      * by rewrite Ht.
      * destruct Ht as (-> & Hx & _). by destruct (Z.eqb_spec x 0).
    + destruct Hr as (Hs & Hs0 & Hr). rewrite Hs. cbn [matches].
      destruct (s =? ch_star).
      * replace (re + 2) with (re + 1 + 1) by lia. apply IHs; simpl in *; try done; lia.
      * destruct (Z.eqb_spec s 0); [done|]. rewrite andb_false_r. exact Hone.
  - intros c re text r t Hr Ht Hf. cbn [matchstar].
    destruct (IHh re text r t Hr Ht ltac:(lia)) as (b & -> & Hb). destruct b.
    { exists true. split; [done|]. split; [intros _|done]. apply star_unfold. left. by apply Hb. }
    assert (Hno : ~ matches r t) by (intros H; by apply Hb in H).
    replace ((load8 m text =? c) || (c =? ch_dot)) with ((c =? ch_dot) || (c =? load8 m text))
      by (by rewrite orb_comm, (Z.eqb_sym c (load8 m text))).
    destruct (hit_test m text t c Ht) as [(-> & x & t' & -> & Hx & Ht')|[-> Hno']].
    + eapply answers_iff; [apply (IHs c re (text + 1) r t'); simpl in *; try done; lia|].
      rewrite (star_unfold c r (x :: t')). split; [intros H; right; by exists x, t'|].
      by intros [H|(y & t2 & [= <- <-] & _ & H)].
    + exists false. split; [done|]. split; [done|]. intros H. apply star_unfold in H as [H|H]; [done|].
      destruct H as (x & t' & H1 & H2 & _). destruct Hno'. by exists x, t'.
Qed.

Lemma match_loop_spec n fuel m re text r t :
  str_at m re r -> str_at m text t -> (2 * length r + length t < fuel)%nat -> (length t < n)%nat ->
  answers (match_loop n fuel m re text) (exists t1 t2, t = t1 ++ t2 /\ matches r t2).
Proof.
  revert text t. induction n as [|n IH]; intros text t Hr Ht Hf Hn; [lia|]. cbn [match_loop].
  destruct (proj1 (matcher_spec fuel m) re text r t Hr Ht Hf) as (b & -> & Hb). destruct b.
  { exists true. split; [done|]. split; [intros _|done]. exists [], t. split; [done|]. by apply Hb. }
  assert (Hno : ~ matches r t) by (intros H; by apply Hb in H).
  destruct t as [|x t]; simpl in Ht.
  - rewrite Ht. exists false. split; [done|]. split; [done|]. intros ([|? ?] & t2 & He & Hm); [|done].
    simpl in He. by subst.
  - destruct Ht as (-> & Hx & Ht). destruct (Z.eqb_spec x 0); [done|].
    eapply answers_iff; [apply (IH (text + 1) t); simpl in *; try done; lia|]. split.
    + intros (t1 & t2 & -> & Hm). by exists (x :: t1), t2.
    + intros ([|y t1] & t2 & He & Hm); simpl in He; [by subst|]. injection He as <- ->. by exists t1, t2.
Qed.

(** [match] decides the pattern language: for a pattern and a text in
    memory it returns 1 exactly when the pattern, read with [.], [*], [^] and
    [$] as operators, matches the text; its calls nest no deeper than twice
    the pattern plus the text. *)
Lemma match_spec (fuel : nat) (m : mem) (re text : Z) (r t : list Z) :
  str_at m re r -> str_at m text t -> (2 * length r + length t < fuel)%nat ->
  exists b, match_ fuel m re text = Some b /\ (b = true <-> accepts r t).
Proof.
  intros Hr Ht Hf. unfold match_. destruct r as [|c r].
  - simpl in Hr. rewrite Hr. change (0 =? ch_caret) with false.
    eapply (answers_iff _ (exists t1 t2, t = t1 ++ t2 /\ matches [] t2));
      [apply match_loop_spec; try done; lia|]. split; [done|]. intros _. by exists [], t.
  - pose proof Hr as (Hc & Hc0 & Hr'). rewrite Hc. cbn [accepts]. destruct (c =? ch_caret).
    + apply matcher_spec; [done|done|simpl in Hf; lia].
    + apply match_loop_spec; [done|done|done|simpl in Hf; lia].
Qed.
