(* ===== verification/GrepRead.v ===== *)
(** * grep: reading lines

    Models [grep] of [src/os/user/grep.c], which reads a file in pieces of any
    size into a buffer of 1024 bytes, matches the complete lines in it and keeps
    the rest for the next round; and shows that the pieces do not matter: the
    output is the lines of the whole input that match. *)

From S2P Require Import Prelude CMem Machine Printf Grep.

(** The buffer [buf] is in memory; [g_in] is what is left of the file, [g_out]
    what has been written to standard output. *)
Record gst := mkGst { g_mem : mem; g_in : list Z; g_reads : Z; g_out : list Z }.
Definition set_g_mem (m : mem) (s : gst) : gst := mkGst m (g_in s) (g_reads s) (g_out s).

(** How much the k-th [read] returns at most; negative for an error. *)
Class Reader := read_upto : Z -> Z.

Definition GBUF : Z := 1024.
Definition ch_nl : Z := 10.

Section grep.
Context `{R : Reader}.

Definition g_read (p k : Z) : M gst Z :=
  fun s =>
    let u := read_upto (g_reads s) in
    if u <? 0 then Ok (-1) (mkGst (g_mem s) (g_in s) (g_reads s + 1) (g_out s)) else
    let bs := take (Z.to_nat (Z.min k (Z.max 1 u))) (g_in s) in
    Ok (Z.of_nat (length bs))
       (mkGst (write_bytes (g_mem s) p bs) (drop (length bs) (g_in s)) (g_reads s + 1) (g_out s)).
Definition g_write (p n : Z) : M gst unit :=
  modify (fun s => mkGst (g_mem s) (g_in s) (g_reads s) (g_out s ++ read_bytes (Z.to_nat n) (g_mem s) p)).
Definition g_store (a v : Z) : M gst unit := modify (fun s => set_g_mem (store8 (g_mem s) a v) s).

(** [while((q = strchr(p, '\n')) != 0)]: where the next line starts. *)
Fixpoint grep_lines (n fuel : nat) (pattern p : Z) : M gst Z :=
  match n with
  | O => nofuel
  | S n' =>
      m <- gets g_mem ;;
      match strchr fuel m p ch_nl with
      | None => nofuel
      | Some q =>
          if q =? 0 then ret p else
          g_store q 0 ;;
          m <- gets g_mem ;;
          match match_ fuel m pattern p with
          | None => nofuel
          | Some b =>
              (if (b : bool) then g_store q ch_nl ;; g_write p (q + 1 - p) else ret tt) ;;
              grep_lines n' fuel pattern (q + 1)
          end
      end
  end.

(** [m] bytes of an incomplete line are in the buffer. *)
Fixpoint grep_loop (n fuel : nat) (pattern buf m : Z) : M gst unit :=
  match n with
  | O => nofuel
  | S n' =>
      k <- g_read (buf + m) (GBUF - m - 1) ;;
      if k >? 0 then
        let m := m + k in
        g_store (buf + m) 0 ;;
        p <- grep_lines (Z.to_nat GBUF) fuel pattern buf ;;
        let m' := if m >? 0 then m - (p - buf) else m in
        (if m >? 0 then modify (fun s => set_g_mem (ulib_memmove (g_mem s) buf p m') s) else ret tt) ;;
        grep_loop n' fuel pattern buf m'
      else ret tt
  end.

(** [fuel] bounds the matcher and [strchr]; every read but the last returns
    something. *)
Definition grep (fuel : nat) (pattern buf : Z) : M gst unit :=
  fun s => grep_loop (S (length (g_in s))) fuel pattern buf 0 s.

(** The files of the command line: a name, and the content if it can be
    opened.  The exit status. *)
Fixpoint grep_files (fuel : nat) (pattern buf : Z) (files : list (list Z * option (list Z))) : M gst Z :=
  match files with
  | [] => ret 0
  | (name, None) :: _ =>
      modify (fun s => mkGst (g_mem s) (g_in s) (g_reads s)
        (g_out s ++ cstr "grep: cannot open " ++ name ++ [ch_nl])) ;;
      ret 1
  | (_, Some inp) :: files =>
      modify (fun s => mkGst (g_mem s) inp (g_reads s) (g_out s)) ;;
      grep fuel pattern buf ;;
      grep_files fuel pattern buf files
  end.
(** [argv[1]] is the pattern, if there is one. *)
Definition grep_main (fuel : nat) (argv1 : option Z) (buf : Z) (files : list (list Z * option (list Z))) : M gst Z :=
  match argv1, files with
  | None, _ => ret 1
  | Some pattern, [] => grep fuel pattern buf ;; ret 0
  | Some pattern, _ => grep_files fuel pattern buf files
  end.
End grep.

(** ** Lines *)

(** The complete lines of a text, and what follows the last newline. *)
Fixpoint cut (l : list Z) : list (list Z) * list Z :=
  match l with
  | [] => ([], [])
  | c :: l' =>
      if c =? ch_nl then ([] :: (cut l').1, (cut l').2)
      else match (cut l').1 with
           | x :: ls => ((c :: x) :: ls, (cut l').2)
           | [] => ([], c :: (cut l').2)
           end
  end.

(** The lines that match, each with its newline. *)
Inductive selected (r : list Z) : list (list Z) -> list Z -> Prop :=
| sel_nil : selected r [] []
| sel_yes x ls o : accepts r x -> selected r ls o -> selected r (x :: ls) (x ++ ch_nl :: o)
| sel_no x ls o : ~ accepts r x -> selected r ls o -> selected r (x :: ls) o.

Lemma selected_app r l1 o1 l2 o2 :
  selected r l1 o1 -> selected r l2 o2 -> selected r (l1 ++ l2) (o1 ++ o2).
Proof.
  induction 1 as [|x ls o Hx _ IH|x ls o Hx _ IH]; intros H2; [done| |].
  - rewrite <- app_assoc. simpl. by constructor; [|apply IH].
  - simpl. by constructor; [|apply IH].
Qed.

Lemma cut_line x l : ch_nl ∉ x -> cut (x ++ ch_nl :: l) = (x :: (cut l).1, (cut l).2).
Proof.
  induction x as [|c x IH]; intros Hx; [done|]. simpl.
  destruct (Z.eqb_spec c ch_nl); [set_solver|]. by rewrite IH by set_solver.
Qed.
Lemma cut_none x : ch_nl ∉ x -> cut x = ([], x).
Proof.
  induction x as [|c x IH]; intros Hx; [done|]. simpl.
  destruct (Z.eqb_spec c ch_nl); [set_solver|]. by rewrite IH by set_solver.
Qed.
Lemma first_nl l : ch_nl ∉ l \/ exists x l', l = x ++ ch_nl :: l' /\ ch_nl ∉ x.
Proof.
  induction l as [|c l IH]; [left; set_solver|]. destruct (decide (c = ch_nl)) as [->|Hc].
  - right. exists [], l. split; [done|set_solver].
  - destruct IH as [IH|(x & l' & -> & Hx)]; [left; set_solver|]. right. exists (c :: x), l'. split; [done|set_solver].
Qed.
Lemma cut_app a b : cut (a ++ b) = ((cut a).1 ++ (cut ((cut a).2 ++ b)).1, (cut ((cut a).2 ++ b)).2).
Proof.
  remember (length a) as n eqn:Hn. revert a Hn. induction n as [n IH] using lt_wf_ind. intros a ->.
  destruct (first_nl a) as [H|(x & l & -> & Hx)]; [rewrite (cut_none a H); cbn [fst snd app]; by destruct (cut (a ++ b))|].
  rewrite <- app_assoc. cbn [app]. rewrite !cut_line by done. cbn [fst snd].
  rewrite (IH (length l)) by (solve [rewrite length_app; simpl; lia | done]). done.
Qed.
Lemma cut_tail a : (ch_nl ∉ (cut a).2) /\ exists b, a = b ++ (cut a).2.
Proof.
  remember (length a) as n eqn:Hn. revert a Hn. induction n as [n IH] using lt_wf_ind. intros a ->.
  destruct (first_nl a) as [H|(x & l & -> & Hx)]; [rewrite (cut_none a H); split; [done|by exists []]|].
  rewrite cut_line by done. cbn [snd].
  destruct (IH (length l) ltac:(rewrite length_app; simpl; lia) l eq_refl) as [H1 [b Hb]].
  split; [done|]. exists (x ++ ch_nl :: b). rewrite <- app_assoc. simpl. by rewrite <- Hb.
Qed.

(** ** Strings in the buffer *)

Lemma str_at_iff m l : forall a, str_at m a l <->
  (forall i c, l !! i = Some c -> load8 m (a + Z.of_nat i) = c /\ c <> 0) /\ load8 m (a + Z.of_nat (length l)) = 0.
Proof.
  induction l as [|x l IH]; intros a; simpl.
  - rewrite Z.add_0_r. split; [done|]. tauto.
  - rewrite IH. split.
    + intros (Hx & Hx0 & Hl & Hz). split; [|by replace (a + Z.of_nat (S (length l))) with (a + 1 + Z.of_nat (length l)) by lia].
      intros [|i] c Hc; [injection Hc as <-; by rewrite Z.add_0_r|].
      replace (a + Z.of_nat (S i)) with (a + 1 + Z.of_nat i) by lia. by apply Hl.
    + intros [Hl Hz]. destruct (Hl 0%nat x eq_refl) as [Hx Hx0]. rewrite Z.add_0_r in Hx. split; [done|]. split; [done|].
      split; [|by replace (a + 1 + Z.of_nat (length l)) with (a + Z.of_nat (S (length l))) by lia].
      intros i c Hc. replace (a + 1 + Z.of_nat i) with (a + Z.of_nat (S i)) by lia. by apply Hl.
Qed.

Lemma str_at_ext m m' a l :
  (forall b, a <= b <= a + Z.of_nat (length l) -> load8 m' b = load8 m b) -> str_at m a l -> str_at m' a l.
Proof.
  rewrite !str_at_iff. intros He [Hl Hz]. split; [|by rewrite He by lia].
  intros i c Hc. pose proof (lookup_lt_Some _ _ _ Hc). rewrite He by lia. by apply Hl.
Qed.

Lemma str_at_nonzero m a l : str_at m a l -> 0 ∉ l.
Proof.
  rewrite str_at_iff. intros [Hl _] Hin. apply list_elem_of_lookup in Hin as [i Hi]. by destruct (Hl i 0 Hi).
Qed.

Lemma strchr_none m c l : forall fuel a, str_at m a l -> c ∉ l -> (length l < fuel)%nat -> strchr fuel m a c = Some 0.
Proof.
  induction l as [|x l IH]; intros [|f] a Ha Hc Hf; simpl in *; try lia; [by rewrite Ha|].
  destruct Ha as (-> & Hx & Ha). destruct (Z.eqb_spec x 0); [done|]. destruct (Z.eqb_spec x c); [set_solver|].
  apply IH; [done|set_solver|lia].
Qed.
Lemma strchr_first m c x l : forall fuel a,
  str_at m a (x ++ c :: l) -> c ∉ x -> (length x < fuel)%nat -> strchr fuel m a c = Some (a + Z.of_nat (length x)).
Proof.
  induction x as [|y x IH]; intros [|f] a Ha Hc Hf; simpl in *; try lia.
  - destruct Ha as (-> & Hx & _). destruct (Z.eqb_spec c 0); [done|]. by rewrite Z.eqb_refl, Z.add_0_r.
  - destruct Ha as (-> & Hy & Ha). destruct (Z.eqb_spec y 0); [done|]. destruct (Z.eqb_spec y c); [set_solver|].
    rewrite (IH f (a + 1)); [f_equal; lia|done|set_solver|lia].
Qed.

(** Cutting a string at a newline. *)
Lemma str_at_cut m a x l :
  str_at m a (x ++ ch_nl :: l) ->
  let q := a + Z.of_nat (length x) in
  str_at (store8 m q 0) a x /\ str_at (store8 m q 0) (q + 1) l /\ str_at (store8 (store8 m q 0) q ch_nl) (q + 1) l /\
  read_bytes (S (length x)) (store8 (store8 m q 0) q ch_nl) a = x ++ [ch_nl].
Proof.
  intros Hs q. apply str_at_iff in Hs as [Hl Hz]. rewrite length_app in Hz. simpl in Hz.
  assert (Hx : forall i c, x !! i = Some c -> load8 m (a + Z.of_nat i) = c /\ c <> 0)
    by (intros i c Hc; apply Hl; by apply lookup_app_l_Some).
  assert (Hl' : str_at m (q + 1) l).
  { apply str_at_iff. split; [|by replace (q + 1 + Z.of_nat (length l)) with (a + Z.of_nat (length x + S (length l))) by lia].
    intros i c Hc. replace (q + 1 + Z.of_nat i) with (a + Z.of_nat (length x + S i)) by lia. apply Hl.
    rewrite lookup_app_r by lia. by replace (length x + S i - length x)%nat with (S i) by lia. }
  split; [|split; [|split]].
  - apply str_at_iff. split; [|fold q; by rewrite load8_store8_eq]. intros i c Hc.
    pose proof (lookup_lt_Some _ _ _ Hc). rewrite load8_store8_ne by lia. by apply Hx.
  - eapply str_at_ext; [|exact Hl']. intros b Hb. apply load8_store8_ne. lia.
  - eapply str_at_ext; [|exact Hl']. intros b Hb. rewrite !load8_store8_ne by lia. done.
  - apply list_eq. intros i. destruct (decide (i < S (length x))%nat) as [Hi|Hi].
    + rewrite read_bytes_lookup by done. destruct (decide (i = length x)) as [->|Hne].
      * fold q. rewrite load8_store8_eq, lookup_app_r, Nat.sub_diag by lia. done.
      * rewrite !load8_store8_ne by lia. destruct (lookup_lt_is_Some_2 x i ltac:(lia)) as [c Hc].
        rewrite lookup_app_l by lia. rewrite Hc. f_equal. by apply Hx.
    + rewrite !lookup_ge_None_2; [done|rewrite length_app; simpl; lia|rewrite read_bytes_length; lia].
Qed.

Lemma write_bytes_load m a bs i c :
  Forall (fun b => 0 <= b < 256) bs -> bs !! i = Some c -> load8 (write_bytes m a bs) (a + Z.of_nat i) = c.
Proof.
  intros Hb Hi. pose proof (lookup_lt_Some _ _ _ Hi) as Hl. pose proof (write_bytes_read m a bs Hb) as Hr.
  rewrite <- Hr in Hi. rewrite read_bytes_lookup in Hi by done. by injection Hi.
Qed.

Lemma take_then_drop {A} (n : nat) (l : list A) : take n l ++ drop (length (take n l)) l = l.
Proof.
  rewrite length_take. destruct (Nat.min_spec n (length l)) as [[? ->]|[? ->]]; [apply take_drop|].
  rewrite take_ge, drop_ge by lia. apply app_nil_r.
Qed.

(** ** The loops *)

Section loops.
Context `{Rd : Reader} (re buf : Z) (r : list Z) (fuel : nat).
Hypothesis (Hbuf : 0 < buf) (Hre : re + Z.of_nat (length r) < buf \/ buf + GBUF <= re).
Hypothesis (Hfuel : (2 * length r + Z.to_nat GBUF < fuel)%nat).

(** Outside the buffer nothing changes. *)
Definition in_buf (m m' : mem) : Prop := forall b, ~ (buf <= b < buf + GBUF) -> load8 m' b = load8 m b.

Lemma pattern_kept m m' : in_buf m m' -> str_at m re r -> str_at m' re r.
Proof. intros Hb. apply str_at_ext. intros b Hr. apply Hb. lia. Qed.

Lemma grep_lines_spec n : forall l p s,
  (length l < n)%nat -> str_at (g_mem s) p l -> str_at (g_mem s) re r ->
  buf <= p -> p + Z.of_nat (length l) < buf + GBUF ->
  runs (grep_lines n fuel re p s) (fun p' s' => exists m' o,
    s' = mkGst m' (g_in s) (g_reads s) (g_out s ++ o) /\ selected r (cut l).1 o /\
    p' = p + Z.of_nat (length l) - Z.of_nat (length (cut l).2) /\ str_at m' p' (cut l).2 /\ in_buf (g_mem s) m').
Proof.
  induction n as [|n IH]; intros l p s Hn Hl Hr Hp Hend; [lia|]. cbn [grep_lines].
  assert (Hlen : (length l < Z.to_nat GBUF)%nat) by lia.
  rewrite (bind_ok _ _ s (g_mem s) s) by done. destruct (first_nl l) as [Hno|(x & l' & -> & Hx)].
  - rewrite (strchr_none _ _ l) by (done || lia). rewrite (cut_none l Hno). cbn.
    exists (g_mem s), []. split; [rewrite app_nil_r; by destruct s|]. split; [constructor|].
    replace (p + Z.of_nat (length l) - Z.of_nat (length l)) with p by lia. done.
  - rewrite length_app in Hlen, Hn, Hend. simpl in Hlen, Hn, Hend.
    rewrite (strchr_first _ _ x l') by (done || lia). set (q := p + Z.of_nat (length x)).
    destruct (Z.eqb_spec q 0); [lia|]. rewrite (bind_ok _ _ s tt (set_g_mem (store8 (g_mem s) q 0) s)) by done.
    rewrite (bind_ok _ _ _ (store8 (g_mem s) q 0) (set_g_mem (store8 (g_mem s) q 0) s)) by done.
    destruct (str_at_cut (g_mem s) p x l' Hl) as (Hx1 & Hl1 & Hl2 & Hrd). fold q in Hx1, Hl1, Hl2, Hrd.
    assert (Hq : forall v m, in_buf m (store8 m q v)) by (intros v m b Hb; apply load8_store8_ne; lia).
    destruct (match_spec fuel (store8 (g_mem s) q 0) re p r x) as (b & -> & Hb); [by eapply pattern_kept|done|lia|].
    rewrite cut_line by done. cbn [fst snd].
    assert (Hgo : forall m1 o1, str_at m1 (q + 1) l' -> in_buf (g_mem s) m1 ->
      (forall o, selected r (cut l').1 o -> selected r (x :: (cut l').1) (o1 ++ o)) ->
      runs (grep_lines n fuel re (q + 1) (mkGst m1 (g_in s) (g_reads s) (g_out s ++ o1))) (fun p' s' => exists m' o,
        s' = mkGst m' (g_in s) (g_reads s) (g_out s ++ o) /\ selected r (x :: (cut l').1) o /\
        p' = p + Z.of_nat (length (x ++ ch_nl :: l')) - Z.of_nat (length (cut l').2) /\
        str_at m' p' (cut l').2 /\ in_buf (g_mem s) m')).
    { intros m1 o1 Hm1 Hin Hsel. eapply runs_mono; [apply (IH l' (q + 1)); cbn [g_mem]; try done; try lia; by eapply pattern_kept|].
      cbn [g_mem g_in g_reads g_out]. intros p' s' (m' & o & -> & Ho & -> & Hs & Hi). exists m', (o1 ++ o).
      rewrite <- app_assoc. split; [done|]. split; [auto|]. split; [rewrite length_app; simpl; lia|].
      split; [done|]. intros c Hc. by rewrite Hi, Hin. }
    apply runs_bind. destruct b; cbn [runs ret].
    + rewrite (bind_ok _ _ _ tt (set_g_mem (store8 (store8 (g_mem s) q 0) q ch_nl) s)) by done.
      unfold g_write, modify. cbn [runs set_g_mem g_mem g_in g_reads g_out].
      replace (Z.to_nat (q + 1 - p)) with (S (length x)) by lia. rewrite Hrd. apply Hgo; [done| |].
      * intros c Hc. by rewrite !Hq.
      * intros o Ho. rewrite <- app_assoc. constructor; [by apply Hb|done].
    + replace (set_g_mem (store8 (g_mem s) q 0) s) with (mkGst (store8 (g_mem s) q 0) (g_in s) (g_reads s) (g_out s ++ []))
        by (by rewrite app_nil_r).
      apply Hgo; [done|apply Hq|]. intros o Ho. constructor; [intros Ha; by apply Hb in Ha|done].
Qed.

(** The bytes [l] are at [a]. *)
Definition holds (m : mem) (a : Z) (l : list Z) : Prop :=
  forall i c, l !! i = Some c -> load8 m (a + Z.of_nat i) = c.

(** The buffer after a read, terminated. *)
Lemma filled m pend bs :
  holds m buf pend -> Forall (fun c => 0 < c < 256) (pend ++ bs) ->
  let a := buf + Z.of_nat (length pend) in
  str_at (store8 (write_bytes m a bs) (a + Z.of_nat (length bs)) 0) buf (pend ++ bs).
Proof. clear -buf.
  intros Hp Hc a. rewrite Forall_forall in Hc. apply str_at_iff. rewrite length_app.
  replace (buf + Z.of_nat (length pend + length bs)) with (a + Z.of_nat (length bs)) by lia.
  rewrite load8_store8_eq. split; [|done]. intros i c Hi.
  pose proof (Hc c (list_elem_of_lookup_2 _ _ _ Hi)) as Hr. split; [|lia].
  pose proof (lookup_lt_Some _ _ _ Hi) as Hlt. rewrite length_app in Hlt. rewrite load8_store8_ne by lia.
  apply lookup_app_Some in Hi as [Hi|[Hge Hi]].
  - rewrite write_bytes_out by (apply lookup_lt_Some in Hi; lia). by apply Hp.
  - replace (buf + Z.of_nat i) with (a + Z.of_nat (i - length pend)) by lia. apply write_bytes_load; [|done].
    apply Forall_forall. intros b Hb. pose proof (Hc b ltac:(set_solver)). lia.
Qed.

Lemma moved m p t :
  str_at m p t -> holds (ulib_memmove m buf p (Z.of_nat (length t))) buf t.
Proof. clear.
  intros [Ht _]%str_at_iff i c Hi. pose proof (lookup_lt_Some _ _ _ Hi). rewrite ulib_memmove_load by lia.
  rewrite decide_True by lia. replace (buf + Z.of_nat i - buf + p) with (p + Z.of_nat i) by lia. by apply Ht.
Qed.

(** Nothing is left to select when a read returns nothing. *)
Lemma no_more pend inp :
  ch_nl ∉ pend -> inp = [] \/ Z.of_nat (length pend) = GBUF - 1 ->
  (forall x, x ∈ (cut (pend ++ inp)).1 -> Z.of_nat (length x) < GBUF - 1) -> (cut (pend ++ inp)).1 = [].
Proof. clear.
  intros Hp [->|Hl] Hx; [by rewrite app_nil_r, cut_none|].
  destruct (first_nl inp) as [Hn|(x & l & -> & Hnx)]; [rewrite cut_none; [done|set_solver]|].
  rewrite app_assoc in Hx |- *. rewrite cut_line in Hx |- * by set_solver.
  specialize (Hx (pend ++ x) ltac:(left)). rewrite length_app in Hx. lia.
Qed.

Lemma grep_loop_spec n : forall pend s,
  (forall i, 0 <= read_upto i) -> (length (g_in s) < n)%nat -> holds (g_mem s) buf pend -> ch_nl ∉ pend ->
  Z.of_nat (length pend) < GBUF -> Forall (fun c => 0 < c < 256) (pend ++ g_in s) ->
  (forall x, x ∈ (cut (pend ++ g_in s)).1 -> Z.of_nat (length x) < GBUF - 1) -> str_at (g_mem s) re r ->
  runs (grep_loop n fuel re buf (Z.of_nat (length pend)) s) (fun _ s' => exists o,
    g_out s' = g_out s ++ o /\ selected r (cut (pend ++ g_in s)).1 o).
Proof.
  induction n as [|n IH]; intros pend s Hrd Hn Hp Hnl Hlp Hc Hx Hr; [lia|]. cbn [grep_loop].
  apply runs_bind. unfold g_read at 1. cbv zeta. specialize (Hrd (g_reads s)) as Hu.
  replace (read_upto (g_reads s) <? 0) with false by lia. cbn [runs].
  set (bs := take _ (g_in s)). set (k := Z.of_nat (length bs)).
  set (a := buf + Z.of_nat (length pend)). set (inp := drop (length bs) (g_in s)).
  assert (Hin : g_in s = bs ++ inp) by (symmetry; apply take_then_drop).
  assert (Hk : k <= GBUF - Z.of_nat (length pend) - 1) by (unfold k, bs; rewrite length_take; lia).
  destruct (Z.gtb_spec k 0) as [Hpos|Hzero].
  2: { cbn [runs ret g_out]. exists []. split; [by rewrite app_nil_r|].
       rewrite (no_more pend (g_in s)); [constructor|done| |done].
       unfold k, bs in Hzero. rewrite length_take in Hzero.
       destruct (g_in s); [by left|right]. simpl in Hzero. lia. }
  rewrite Hin in Hc, Hx. rewrite app_assoc in Hc, Hx.
  pose proof (proj1 (proj1 (Forall_app _ _ _) Hc)) as Hcl.
  pose proof (filled (g_mem s) pend bs Hp Hcl) as Hstr. cbv zeta in Hstr. fold a k in Hstr.
  replace (buf + (Z.of_nat (length pend) + k)) with (a + k) by lia.
  set (m2 := store8 (write_bytes (g_mem s) a bs) (a + k) 0) in Hstr.
  set (s2 := mkGst m2 inp (g_reads s + 1) (g_out s)). rewrite (bind_ok _ _ _ tt s2) by done.
  assert (Hm2 : in_buf (g_mem s) m2).
  { intros b Hb. unfold m2. rewrite load8_store8_ne by lia. apply write_bytes_out. lia. }
  set (l := pend ++ bs) in *. assert (Hll : Z.of_nat (length l) = Z.of_nat (length pend) + k) by (unfold l; rewrite length_app; lia).
  apply runs_bind. eapply runs_mono; [apply (grep_lines_spec (Z.to_nat GBUF) l buf s2); try done; try lia; by apply (pattern_kept (g_mem s))|].
  intros p' s3 (m3 & o & -> & Ho & -> & Htl & Hin3). cbn [s2 g_in g_reads g_out g_mem] in *.
  destruct (cut_tail l) as [Hnt [b Hb]]. rewrite cut_app in Hx. cbn [fst] in Hx.
  set (t := (cut l).2) in *. assert (Hlt : length l = (length b + length t)%nat) by (rewrite Hb at 1; by rewrite length_app).
  replace (Z.of_nat (length pend) + k >? 0) with true by lia.
  replace (Z.of_nat (length pend) + k - (buf + Z.of_nat (length l) - Z.of_nat (length t) - buf)) with (Z.of_nat (length t)) by lia.
  set (m4 := ulib_memmove m3 buf (buf + Z.of_nat (length l) - Z.of_nat (length t)) (Z.of_nat (length t))).
  rewrite (bind_ok _ _ _ tt (mkGst m4 inp (g_reads s + 1) (g_out s ++ o))) by done.
  rewrite Hb in Hc. rewrite <- app_assoc in Hc. apply Forall_app in Hc as [_ Hc].
  eapply runs_mono; [apply (IH t); cbn [g_mem g_in]; try done|].
  - apply (f_equal length) in Hin. rewrite length_app in Hin. unfold k in Hpos. lia.
  - by apply moved.
  - lia.
  - intros x Hxx. apply Hx. set_solver.
  - eapply pattern_kept; [|exact Hr]. intros c Hcb. unfold m4. rewrite ulib_memmove_load by lia.
    rewrite decide_False by lia. by rewrite Hin3, Hm2.
  - intros _ s4 (o2 & Ho2 & Hs2). cbn [g_out g_in] in *. exists (o ++ o2).
    rewrite Ho2, <- app_assoc. split; [done|]. rewrite Hin, app_assoc. fold l. rewrite cut_app. cbn [fst].
    by apply selected_app.
Qed.
End loops.

Section results.
Context `{Rd : Reader}.

(** C24: [grep] writes exactly the lines of its input that the pattern matches,
    in order and each with its newline, in whatever pieces [read] returns the
    input; it ends.  This holds of input without NUL bytes whose lines are shorter
    than 1023 characters, when no [read] fails; what follows the last newline is
    not a line and is not matched ([grep_long_line] shows what a longer line
    does). *)
Theorem grep_correct (fuel : nat) (re buf : Z) (r : list Z) (s : gst) :
  0 < buf -> re + Z.of_nat (length r) < buf \/ buf + GBUF <= re -> str_at (g_mem s) re r ->
  (2 * length r + Z.to_nat GBUF < fuel)%nat -> (forall i, 0 <= read_upto i) ->
  Forall (fun c => 0 < c < 256) (g_in s) ->
  (forall x, x ∈ (cut (g_in s)).1 -> Z.of_nat (length x) < GBUF - 1) ->
  runs (grep fuel re buf s) (fun _ s' => exists o, g_out s' = g_out s ++ o /\ selected r (cut (g_in s)).1 o).
Proof.
  intros Hb Hre Hr Hf Hrd Hc Hx. unfold grep.
  apply (grep_loop_spec re buf r fuel Hb Hre Hf (S (length (g_in s))) [] s); try done; try lia.
  set_solver.
Qed.
End results.

(** ** Witness, and a line that does not fit *)

Definition demo_reader : Reader := fun i => if Z.even i then 3 else 4.
Definition demo_grep (inp : list Z) : gst := mkGst (write_bytes ∅ 100 [98; 0]) inp 0 [].
(** "ab\nc\nb" *)
Definition demo_text : list Z := [97; 98; 10; 99; 10; 98].

Lemma grep_correct_witness :
  runs (@grep demo_reader (Z.to_nat 1100) 100 1000 (demo_grep demo_text)) (fun _ s' => g_out s' = [97; 98; 10]) /\
  runs (@grep demo_reader (Z.to_nat 1100) 100 1000 (demo_grep demo_text)) (fun _ s' => exists o,
    g_out s' = g_out (demo_grep demo_text) ++ o /\ selected [98] (cut (g_in (demo_grep demo_text))).1 o).
Proof.
  split; [vm_compute; reflexivity|].
  apply (@grep_correct demo_reader (Z.to_nat 1100) 100 1000 [98] (demo_grep demo_text)).
  - reflexivity.
  - left. reflexivity.
  - vm_compute. split; [reflexivity|]. split; [discriminate|reflexivity].
  - apply Nat.ltb_lt. vm_compute. reflexivity.
  - intros i. unfold read_upto, demo_reader. destruct (Z.even i); discriminate.
  - repeat constructor.
  - intros x Hx. change (x ∈ [[97; 98]; [99]]) in Hx. apply elem_of_cons in Hx as [->|Hx]; [reflexivity|].
    apply list_elem_of_singleton in Hx as ->. reflexivity.
Defined.

(** After a line of 1023 characters the rest of the input is not searched: the
    buffer is full, so [read] is asked for nothing and returns 0. *)
Definition whole_reader : Reader := fun _ => 4096.
Lemma grep_long_line :
  let inp := replicate (Z.to_nat 1023) 97 ++ [10; 98; 10] in
  runs (@grep whole_reader (Z.to_nat 1100) 100 1000 (demo_grep inp)) (fun _ s' => g_out s' = []) /\
  [98] ∈ (cut inp).1.
Proof.
  cbv zeta. split; [vm_compute; reflexivity|]. change 10 with ch_nl at 1. rewrite cut_line.
  - right. left.
  - intros Hin. apply elem_of_replicate in Hin as [Hin _]. discriminate Hin.
Qed.
