(* ===== verification/UserPrintf.v ===== *)
(** * printf for user programs

    Models [src/os/user/printf.c], for any state with a place for output, and
    shows that [vprintf] writes what a relational description of formats says. *)

From S2P Require Import Prelude CMem Machine Printf.

(** ** Output *)

(** What [write] does to the state of a program: descriptors collect bytes. *)
Class Output (T : Type) := {
  emit : Z -> list Z -> T -> T;
  emit_nil : forall fd s, emit fd [] s = s;
  emit_app : forall fd a b s, emit fd b (emit fd a s) = emit fd (a ++ b) s;
}.

(** Arguments with the type they were passed at. *)
Inductive uarg := UInt (z : Z) | UPtr (z : Z) | UStr (l : list Z) | UNull.

Definition udigit (i : Z) : Z := nth (Z.to_nat i) (cstr "0123456789ABCDEF") 0.
(** [char buf[16]] of [printint] *)
Definition NUMBUF : nat := 16.

Section printf.
Context {T : Type} `{OT : Output T}.

Definition putc (fd c : Z) : M T unit := modify (emit fd [c mod 256]).
Fixpoint putcs (fd : Z) (cs : list Z) : M T unit :=
  match cs with [] => ret tt | c :: cs' => putc fd c ;; putcs fd cs' end.

(** [do buf[i++] = digits[x % base]; while((x /= base) != 0)] with room for so
    many characters: the characters in the order of the buffer. *)
Fixpoint fill_digits (room : nat) (x base : Z) : option (list Z) :=
  match room with
  | O => None
  | S n =>
      if x / base =? 0 then Some [udigit (x mod base)]
      else (fun l => udigit (x mod base) :: l) <$> fill_digits n (x / base) base
  end.

(** [-xx] wraps for the smallest integer. *)
Definition printint (fd xx base : Z) (sgn : bool) : M T unit :=
  let neg := sgn && (xx <? 0) in
  let x := u32 (if neg then - xx else xx) in
  match fill_digits NUMBUF x base with
  | None => undefined "buf"
  | Some buf =>
      let buf := if neg then buf ++ [45] else buf in
      if (NUMBUF <? length buf)%nat then undefined "buf" else putcs fd (rev buf)
  end.

(** [for(i = 0; i < (sizeof(uint32) * 2); i++, x <<= 4)] *)
Fixpoint printptr_digits (n : nat) (fd x : Z) : M T unit :=
  match n with
  | O => ret tt
  | S n' => putc fd (udigit (Z.shiftr x 28)) ;; printptr_digits n' fd (u32 (Z.shiftl x 4))
  end.
Definition printptr (fd x : Z) : M T unit :=
  putc fd 48 ;; putc fd 120 ;; printptr_digits 8 fd x.

(** [for(; *s; s++) putc(fd, *s)] *)
Fixpoint put_str (fd : Z) (l : list Z) : M T unit :=
  match l with
  | [] => ret tt
  | c :: l' => if c =? 0 then ret tt else putc fd c ;; put_str fd l'
  end.

Definition va_int (ap : list uarg) : M T (Z * list uarg) :=
  match ap with UInt z :: ap => ret (z, ap) | _ => undefined "va_arg" end.
Definition va_ptr (ap : list uarg) : M T (Z * list uarg) :=
  match ap with UPtr z :: ap => ret (z, ap) | _ => undefined "va_arg" end.
Definition va_str (ap : list uarg) : M T (list Z * list uarg) :=
  match ap with
  | UStr l :: ap => ret (l, ap)
  | UNull :: ap => ret (cstr "(null)", ap)
  | _ => undefined "va_arg"
  end.

(** The loop of [vprintf] at index [i]; [state] is 0, or the percent sign after
    one was read. *)
Fixpoint vprintf_loop (fuel : nat) (fd : Z) (fmt : list Z) (i : nat) (state : Z) (ap : list uarg) : M T unit :=
  match fuel with
  | O => nofuel
  | S f =>
      if nth i fmt 0 =? 0 then ret tt else
      let c0 := Z.land (nth i fmt 0) 0xff in
      if state =? 0 then
        if c0 =? ch_pct then vprintf_loop f fd fmt (i + 1) ch_pct ap
        else putc fd c0 ;; vprintf_loop f fd fmt (i + 1) 0 ap
      else if state =? ch_pct then
        let c1 := if c0 =? 0 then 0 else Z.land (nth (i + 1) fmt 0) 0xff in
        let c2 := if c1 =? 0 then 0 else Z.land (nth (i + 2) fmt 0) 0xff in
        let num base sgn k :=
          a <- va_int ap ;; printint fd (i32 a.1) base sgn ;; vprintf_loop f fd fmt (i + k) 0 a.2 in
        if c0 =? ch_d then num 10 true 1%nat
        else if (c0 =? ch_l) && (c1 =? ch_d) then num 10 true 2%nat
        else if (c0 =? ch_l) && (c1 =? ch_l) && (c2 =? ch_d) then num 10 true 3%nat
        else if c0 =? ch_u then num 10 false 1%nat
        else if (c0 =? ch_l) && (c1 =? ch_u) then num 10 false 2%nat
        else if (c0 =? ch_l) && (c1 =? ch_l) && (c2 =? ch_u) then num 10 false 3%nat
        else if c0 =? ch_x then num 16 false 1%nat
        else if (c0 =? ch_l) && (c1 =? ch_x) then num 16 false 2%nat
        else if (c0 =? ch_l) && (c1 =? ch_l) && (c2 =? ch_x) then num 16 false 3%nat
        else if c0 =? ch_p then
          a <- va_ptr ap ;; printptr fd (u32 a.1) ;; vprintf_loop f fd fmt (i + 1) 0 a.2
        else if c0 =? ch_c then
          a <- va_int ap ;; putc fd a.1 ;; vprintf_loop f fd fmt (i + 1) 0 a.2
        else if c0 =? ch_s then
          a <- va_str ap ;; put_str fd a.1 ;; vprintf_loop f fd fmt (i + 1) 0 a.2
        else if c0 =? ch_pct then putc fd ch_pct ;; vprintf_loop f fd fmt (i + 1) 0 ap
        else putc fd ch_pct ;; putc fd c0 ;; vprintf_loop f fd fmt (i + 1) 0 ap
      else vprintf_loop f fd fmt (i + 1) state ap
  end.

Definition vprintf (fd : Z) (fmt : list Z) (ap : list uarg) : M T unit :=
  vprintf_loop (S (length fmt)) fd fmt 0 0 ap.
Definition fprintf (fd : Z) (fmt : list Z) (ap : list uarg) : M T unit := vprintf fd fmt ap.
Definition uprintf (fmt : list Z) (ap : list uarg) : M T unit := vprintf 1 fmt ap.
End printf.

(** ** What a format means *)

(** [ds] is the numeral of [x]: no leading zeros, upper-case digits. *)
Inductive numeral (base : Z) : Z -> list Z -> Prop :=
| num_digit d : 0 <= d < base -> numeral base d [udigit d]
| num_more x d ds : 0 < x -> 0 <= d < base -> numeral base x ds -> numeral base (x * base + d) (ds ++ [udigit d]).

Inductive uconv := UcInt (base : Z) (sgn : bool) | UcPtr | UcChar | UcStr.

(** The text of one argument. *)
Inductive shows : uconv -> uarg -> list Z -> Prop :=
| sh_neg base z ds : i32 z < 0 -> numeral base (- i32 z) ds -> shows (UcInt base true) (UInt z) (45 :: ds)
| sh_pos base z ds : 0 <= i32 z -> numeral base (i32 z) ds -> shows (UcInt base true) (UInt z) ds
| sh_unsigned base z ds : numeral base (u32 z) ds -> shows (UcInt base false) (UInt z) ds
| sh_ptr z : shows UcPtr (UPtr z)
    (48 :: 120 :: ((fun i => udigit (u32 z / 16 ^ i mod 16)) <$> [7; 6; 5; 4; 3; 2; 1; 0]))
| sh_char z : shows UcChar (UInt z) [z mod 256]
| sh_str l : Forall (fun c => 0 < c < 256) l -> shows UcStr (UStr l) l
| sh_null : shows UcStr UNull (cstr "(null)").

Definition uconversions : list (list Z * uconv) :=
  [(cstr "d", UcInt 10 true); (cstr "ld", UcInt 10 true); (cstr "lld", UcInt 10 true);
   (cstr "u", UcInt 10 false); (cstr "lu", UcInt 10 false); (cstr "llu", UcInt 10 false);
   (cstr "x", UcInt 16 false); (cstr "lx", UcInt 16 false); (cstr "llx", UcInt 16 false);
   (cstr "p", UcPtr); (cstr "c", UcChar); (cstr "s", UcStr)].

(** A format with its arguments, and the text it stands for.  What is not a
    conversion is copied with its percent sign; a percent sign at the end is
    dropped; arguments left over are ignored. *)
Inductive rendered : list Z -> list uarg -> list Z -> Prop :=
| rd_nil ap : rendered [] ap []
| rd_char c r ap cs : 0 < c < 256 -> c <> ch_pct -> rendered r ap cs -> rendered (c :: r) ap (c :: cs)
| rd_conv k u r a ap t cs :
    (k, u) ∈ uconversions -> shows u a t -> rendered r ap cs -> rendered (ch_pct :: k ++ r) (a :: ap) (t ++ cs)
| rd_pct r ap cs : rendered r ap cs -> rendered (ch_pct :: ch_pct :: r) ap (ch_pct :: cs)
| rd_other c r ap cs :
    0 < c < 256 -> c <> ch_pct -> (forall k u, (k, u) ∈ uconversions -> ~ k `prefix_of` (c :: r)) ->
    rendered r ap cs -> rendered (ch_pct :: c :: r) ap (ch_pct :: c :: cs)
| rd_end ap : rendered [ch_pct] ap [].

(** ** Proofs *)

Lemma int_range z : -2^31 <= i32 z < 2^31.
Proof. unfold i32. pose proof (Z.mod_pos_bound z (2^32)). case_match; lia. Qed.
Lemma int_bits z : u32 (i32 z) = u32 z.
Proof. unfold i32, u32. case_match; zlia. Qed.

Lemma fill_digits_numeral base x ds : 2 <= base -> numeral base x ds ->
  forall room, x < base ^ Z.of_nat room -> (0 < room)%nat -> fill_digits room x base = Some (rev ds) /\ (length ds <= room)%nat.
Proof.
  intros Hb. induction 1 as [d Hd|x d ds Hx Hd Hn IH]; intros room Hr Hp.
  - destruct room as [|room]; [lia|]. simpl. rewrite Z.div_small, Z.mod_small by lia. split; [done|lia].
  - destruct room as [|room]; [lia|]. cbn [fill_digits].
    replace ((x * base + d) / base) with x by (apply (Z.div_unique_pos _ _ _ d); lia).
    replace ((x * base + d) mod base) with d by (apply (Z.mod_unique_pos _ _ x); lia).
    destruct (Z.eqb_spec x 0); [lia|].
    rewrite Nat2Z.inj_succ, Z.pow_succ_r in Hr by lia. assert (x < base ^ Z.of_nat room) by nia.
    destruct room as [|room]; [change (base ^ Z.of_nat 0) with 1 in *; lia|].
    destruct (IH (S room)) as [-> Hl]; [done|lia|]. rewrite rev_app_distr, length_app. split; [done|simpl; lia].
Qed.

Lemma numeral_exists base x : 2 <= base -> 0 <= x -> exists ds, numeral base x ds.
Proof.
  intros Hb. revert x. apply (Zlt_0_ind (fun x => exists ds, numeral base x ds)). intros x IH Hx.
  destruct (Z.lt_ge_cases x base) as [Hlt|Hge]; [exists [udigit x]; constructor; lia|].
  destruct (IH (x / base)) as [ds Hd]; [split; [apply Z.div_pos; lia|apply Z.div_lt; lia]|].
  exists (ds ++ [udigit (x mod base)]). rewrite (Z.div_mod x base) at 1 by lia. rewrite Z.mul_comm.
  constructor; [apply Z.div_str_pos; lia|apply Z.mod_pos_bound; lia|done].
Qed.

Lemma digit_byte d : 0 <= d < 16 -> udigit d mod 256 = udigit d.
Proof.
  intros Hd. assert (Hall : forallb (fun i => udigit i mod 256 =? udigit i) (seqZ 0 16) = true) by reflexivity.
  rewrite forallb_forall in Hall. apply Z.eqb_eq, Hall, list_elem_of_In, elem_of_seqZ. lia.
Qed.
Lemma numeral_bytes base x ds : base <= 16 -> numeral base x ds -> (fun c => c mod 256) <$> ds = ds.
Proof.
  intros Hb. induction 1 as [d Hd|x d ds Hx Hd Hn IH].
  - simpl. by rewrite digit_byte by lia.
  - rewrite fmap_app, IH. simpl. by rewrite digit_byte by lia.
Qed.

(** Membership in the table. *)
Ltac listed := repeat first [apply list_elem_of_here | apply list_elem_of_further].

Section proof.
Context {T : Type} `{OT : Output T} (fd : Z).
Implicit Types s : T.

Lemma putcs_eq cs s : putcs fd cs s = Ok tt (emit fd ((fun c => c mod 256) <$> cs) s).
Proof.
  revert s. induction cs as [|c cs IH]; intros s; simpl; [by rewrite emit_nil|].
  rewrite (bind_ok _ _ _ tt (emit fd [c mod 256] s)) by done. rewrite IH, emit_app. done.
Qed.

Lemma printint_eq neg sgn xx base ds s :
  base = 10 \/ base = 16 -> neg = sgn && (xx <? 0) -> -2^31 <= xx < 2^32 ->
  numeral base (u32 (if neg then - xx else xx)) ds ->
  printint fd xx base sgn s = Ok tt (emit fd ((if neg then [45] else []) ++ ds) s).
Proof.
  intros Hb -> Hx Hn. unfold printint. set (neg := sgn && (xx <? 0)) in *. cbv zeta.
  set (x := u32 _) in *. assert (Hx32 : 0 <= x < 2^32) by (unfold x, u32; apply Z.mod_pos_bound; done).
  assert (Hp : x < base ^ Z.of_nat 10) by (eapply Z.lt_le_trans; [apply Hx32|by destruct Hb as [-> | ->]]).
  destruct (fill_digits_numeral base x ds ltac:(lia) Hn 10) as [_ Hl]; [done|lia|].
  destruct (fill_digits_numeral base x ds ltac:(lia) Hn NUMBUF) as [-> _]; [|unfold NUMBUF; lia|].
  { eapply Z.lt_le_trans; [apply Hx32|by destruct Hb as [-> | ->]]. }
  pose proof (numeral_bytes base x ds ltac:(lia) Hn) as Hbs.
  replace (NUMBUF <? _)%nat with false
    by (symmetry; apply Nat.ltb_ge; unfold NUMBUF; destruct neg; rewrite ?length_app, length_rev; simpl; lia).
  rewrite putcs_eq. destruct neg; [rewrite rev_app_distr|]; rewrite rev_involutive; [|by rewrite Hbs].
  by rewrite fmap_app, Hbs.
Qed.

Lemma printptr_eq x s : 0 <= x < 2^32 ->
  printptr fd x s = Ok tt (emit fd (48 :: 120 :: ((fun i => udigit (x / 16 ^ i mod 16)) <$> [7; 6; 5; 4; 3; 2; 1; 0])) s).
Proof.
  intros Hx. unfold printptr. rewrite (bind_ok _ _ _ tt (emit fd [48] s)) by done.
  rewrite (bind_ok _ _ _ tt (emit fd [120] (emit fd [48] s))) by done. rewrite emit_app. simpl app.
  set (s0 := emit fd [48; 120] s).
  assert (Hloop : forall n s, (n <= 8)%nat -> printptr_digits n fd (u32 (x * 16 ^ (8 - Z.of_nat n))) s =
    Ok tt (emit fd ((fun i => udigit (x / 16 ^ Z.of_nat i mod 16)) <$> rev (seq 0 n)) s)).
  { induction n as [|n IH]; intros s1 Hn; [simpl; by rewrite emit_nil|]. cbn [printptr_digits].
    replace (Z.shiftr (u32 (x * 16 ^ (8 - Z.of_nat (S n)))) 28) with (x / 16 ^ Z.of_nat n mod 16).
    2: { rewrite Z.shiftr_div_pow2 by lia. unfold u32. do 8 (destruct n as [|n]; [simpl; zlia|]). lia. }
    replace (u32 (Z.shiftl (u32 (x * 16 ^ (8 - Z.of_nat (S n)))) 4)) with (u32 (x * 16 ^ (8 - Z.of_nat n))).
    2: { rewrite Z.shiftl_mul_pow2 by lia. unfold u32. rewrite Z.mul_mod_idemp_l by lia.
         replace (8 - Z.of_nat n) with (8 - Z.of_nat (S n) + 1) by lia. rewrite Z.pow_add_r by lia. f_equal. lia. }
    rewrite (bind_ok _ _ _ tt (emit fd [udigit (x / 16 ^ Z.of_nat n mod 16)] s1)).
    2: { unfold putc, modify. by rewrite digit_byte by (apply Z.mod_pos_bound; done). }
    rewrite IH by lia. rewrite emit_app, seq_S, rev_app_distr. done. }
  specialize (Hloop 8%nat s0 ltac:(lia)). change (16 ^ (8 - Z.of_nat 8)) with 1 in Hloop.
  rewrite Z.mul_1_r in Hloop. unfold u32 in Hloop. rewrite Z.mod_small in Hloop by lia. rewrite Hloop.
  unfold s0. by rewrite emit_app.
Qed.

Lemma put_str_eq l s : Forall (fun c => 0 < c < 256) l -> put_str fd l s = Ok tt (emit fd l s).
Proof.
  intros Hl. revert s. induction Hl as [|c l Hc _ IH]; intros s; simpl; [by rewrite emit_nil|].
  destruct (Z.eqb_spec c 0); [lia|]. rewrite (bind_ok _ _ _ tt (emit fd [c] s)).
  - rewrite IH, emit_app. done.
  - unfold putc, modify. by rewrite Z.mod_small by lia.
Qed.

(** The conversions of an argument, at the call. *)
Lemma shows_int base sgn a t :
  base = 10 \/ base = 16 -> shows (UcInt base sgn) a t ->
  exists z, a = UInt z /\ forall s, printint fd (i32 z) base sgn s = Ok tt (emit fd t s).
Proof.
  intros Hb Hs. pose proof int_range as Hr. inversion Hs as [? z ds Hz Hn|? z ds Hz Hn|? z ds Hn| | | |]; subst;
    exists z; (split; [done|]); intros s; specialize (Hr z).
  - rewrite (printint_eq true true (i32 z) base ds); [done|done| |lia|].
    + by rewrite (proj2 (Z.ltb_lt _ _) Hz).
    + unfold u32. by rewrite Z.mod_small by lia.
  - rewrite (printint_eq false true (i32 z) base t); [done|done| |lia|].
    + by rewrite (proj2 (Z.ltb_ge _ _) Hz).
    + unfold u32. by rewrite Z.mod_small by lia.
  - rewrite (printint_eq false false (i32 z) base t); [done|done|done|lia|]. by rewrite int_bits.
Qed.

Lemma byte_land c : 0 <= c < 256 -> Z.land c 0xff = c.
Proof. intros Hc. change 0xff with (Z.ones 8). rewrite Z.land_ones by lia. apply Z.mod_small. lia. Qed.

Lemma conversions_bytes k u : (k, u) ∈ uconversions -> Forall (fun c => 0 < c < 256) k.
Proof.
  assert (Hall : Forall (fun x => forallb (fun c => (0 <? c) && (c <? 256)) x.1 = true) uconversions)
    by (repeat constructor). rewrite Forall_forall in Hall. intros Hk. specialize (Hall _ Hk). simpl in Hall.
  rewrite forallb_forall in Hall. apply Forall_forall. intros c Hc. specialize (Hall c). rewrite <- list_elem_of_In in Hall.
  specialize (Hall Hc). lia.
Qed.
Lemma conversions_length k u : (k, u) ∈ uconversions -> (0 < length k)%nat.
Proof.
  assert (Hall : Forall (fun x => (0 < length x.1)%nat) uconversions) by (repeat constructor).
  rewrite Forall_forall in Hall. intros Hk. by apply Hall in Hk.
Qed.
Lemma rendered_bytes r ap cs : rendered r ap cs -> Forall (fun c => 0 < c < 256) r.
Proof.
  assert (Hp : 0 < ch_pct < 256) by done.
  induction 1; repeat constructor; try done; try lia. apply Forall_app. split; [by eapply conversions_bytes|done].
Qed.

Lemma nth_at (pre r : list Z) j : nth (length pre + j) (pre ++ r) 0 = nth j r 0.
Proof. apply app_nth2_plus. Qed.

(** Decide the tests of the code on known characters. *)
Ltac known_tests :=
  repeat match goal with |- context [if ?b then _ else _] =>
    let v := eval vm_compute in b in
    match v with true => change b with true | false => change b with false end; cbv iota end.

Lemma loop_conv k u a t r f pre ap s :
  (k, u) ∈ uconversions -> shows u a t ->
  vprintf_loop (S f) fd (pre ++ k ++ r) (length pre) ch_pct (a :: ap) s =
  vprintf_loop f fd (pre ++ k ++ r) (length pre + length k) 0 ap (emit fd t s).
Proof.
  intros Hk Hs. cbn [vprintf_loop].
  pose proof (nth_at pre (k ++ r) 0) as E0. rewrite Nat.add_0_r in E0. rewrite E0, !nth_at. clear E0.
  assert (Hint : forall base sgn i, base = 10 \/ base = 16 -> u = UcInt base sgn ->
    (x <- va_int (a :: ap) ;; printint fd (i32 x.1) base sgn ;; vprintf_loop f fd (pre ++ k ++ r) i 0 x.2) s =
    vprintf_loop f fd (pre ++ k ++ r) i 0 ap (emit fd t s)).
  { intros base sgn i Hb ->. destruct (shows_int base sgn a t Hb Hs) as (z & -> & Hz).
    rewrite (bind_ok _ _ s (z, ap) s) by done. by rewrite (bind_ok _ _ s tt (emit fd t s)) by apply Hz. }
  unfold uconversions in Hk. rewrite !elem_of_cons in Hk.
  repeat (destruct Hk as [Hk|Hk]; [injection Hk as -> ->; cbv zeta; known_tests;
    match goal with |- context [length (cstr ?x)] =>
      let v := eval vm_compute in (length (cstr x)) in change (length (cstr x)) with v end;
    try match goal with |- context [printint fd _ ?b ?sg] => by apply (Hint b sg); [auto|] end|]); clear Hint.
  - inversion Hs as [| | |z| | |]; subst. rewrite (bind_ok _ _ s (z, ap) s) by done.
    rewrite (bind_ok _ _ s tt _ (printptr_eq (u32 z) s (Z.mod_pos_bound z (2^32) eq_refl))). done.
  - inversion Hs as [| | | |z| |]; subst. rewrite (bind_ok _ _ s (z, ap) s) by done.
    by rewrite (bind_ok _ _ s tt (emit fd [z mod 256] s)) by done.
  - inversion Hs as [| | | | |l Hl|]; subst.
    + rewrite (bind_ok _ _ s (t, ap) s) by done. by rewrite (bind_ok _ _ s tt (emit fd t s)) by (by apply put_str_eq).
    + rewrite (bind_ok _ _ s (cstr "(null)", ap) s) by done.
      rewrite (bind_ok _ _ s tt (emit fd (cstr "(null)") s)); [done|]. apply put_str_eq. repeat constructor.
  - set_solver.
Qed.

Lemma loop_other c r f pre ap s :
  Forall (fun c => 0 < c < 256) (c :: r) -> c <> ch_pct ->
  (forall k u, (k, u) ∈ uconversions -> ~ k `prefix_of` (c :: r)) ->
  vprintf_loop (S f) fd (pre ++ c :: r) (length pre) ch_pct ap s =
  vprintf_loop f fd (pre ++ c :: r) (length pre + 1) 0 ap (emit fd [ch_pct; c] s).
Proof.
  intros Hb Hc Hno. cbn [vprintf_loop].
  pose proof (nth_at pre (c :: r) 0) as E0. rewrite Nat.add_0_r in E0. rewrite E0, !nth_at. clear E0. cbn [nth].
  apply Forall_cons in Hb as [Hcb Hr]. rewrite (byte_land c) by lia. cbv zeta.
  replace (c =? 0) with false by lia. change (ch_pct =? 0) with false. rewrite Z.eqb_refl. cbv iota.
  assert (Hn : forall j, Z.land (nth j r 0) 255 = nth j r 0).
  { intros j. apply byte_land. destruct (nth_in_or_default j r 0) as [Hin|Hd]; [|rewrite Hd; lia].
    rewrite Forall_forall in Hr. apply list_elem_of_In, Hr in Hin. lia. }
  assert (H1 : forall a u, ([a], u) ∈ uconversions -> (c =? a) = false).
  { intros a u Ha. destruct (Z.eqb_spec c a) as [->|]; [|done]. destruct (Hno _ _ Ha). by exists r. }
  assert (H2 : forall a u, ([ch_l; a], u) ∈ uconversions ->
    (c =? ch_l) && (Z.land (nth 0 r 0) 255 =? a) = false).
  { intros a u Ha. rewrite Hn. destruct (Z.eqb_spec c ch_l) as [->|]; [|done]. simpl.
    apply Z.eqb_neq. intros <-. destruct r as [|x r].
    { apply conversions_bytes in Ha. rewrite !Forall_cons in Ha. simpl in Ha. lia. } apply (Hno _ _ Ha). by exists r. }
  assert (H3 : forall a u, ([ch_l; ch_l; a], u) ∈ uconversions ->
    (c =? ch_l) && (Z.land (nth 0 r 0) 255 =? ch_l) &&
    ((if Z.land (nth 0 r 0) 255 =? 0 then 0 else Z.land (nth 1 r 0) 255) =? a) = false).
  { intros a u Ha. rewrite !Hn. destruct (Z.eqb_spec c ch_l) as [->|]; [|done]. simpl andb.
    destruct (Z.eqb_spec (nth 0 r 0) ch_l) as [E|]; [|done]. rewrite E. simpl andb.
    apply Z.eqb_neq. intros Ea. destruct r as [|x [|y r]]; [done| |].
    - simpl in Ea. subst a. apply conversions_bytes in Ha. rewrite !Forall_cons in Ha. lia.
    - simpl in E, Ea. subst. apply (Hno _ _ Ha). by exists r. }
  rewrite (H1 ch_d (UcInt 10 true)), (H2 ch_d (UcInt 10 true)), (H3 ch_d (UcInt 10 true)),
    (H1 ch_u (UcInt 10 false)), (H2 ch_u (UcInt 10 false)), (H3 ch_u (UcInt 10 false)),
    (H1 ch_x (UcInt 16 false)), (H2 ch_x (UcInt 16 false)), (H3 ch_x (UcInt 16 false)),
    (H1 ch_p UcPtr), (H1 ch_c UcChar), (H1 ch_s UcStr) by listed.
  replace (c =? ch_pct) with false by (symmetry; by apply Z.eqb_neq).
  rewrite (bind_ok _ _ s tt (emit fd [ch_pct] s)) by done.
  rewrite (bind_ok _ _ _ tt (emit fd [c] (emit fd [ch_pct] s))); [by rewrite emit_app|].
  unfold putc, modify. by rewrite Z.mod_small by lia.
Qed.

Lemma vprintf_loop_spec r ap cs :
  rendered r ap cs -> forall pre fuel s, (length r < fuel)%nat ->
  vprintf_loop fuel fd (pre ++ r) (length pre) 0 ap s = Ok tt (emit fd cs s).
Proof.
  assert (Hhead : forall c r f pre ap s, 0 < c < 256 -> c <> ch_pct ->
    vprintf_loop (S f) fd (pre ++ c :: r) (length pre) 0 ap s =
    vprintf_loop f fd (pre ++ c :: r) (length pre + 1) 0 ap (emit fd [c] s)).
  { intros c r' f pre ap' s Hc Hne. cbn [vprintf_loop].
    pose proof (nth_at pre (c :: r') 0) as E0. rewrite Nat.add_0_r in E0. rewrite E0. cbn [nth]. cbv zeta.
    rewrite byte_land by lia. destruct (Z.eqb_spec c 0); [lia|]. destruct (Z.eqb_spec c ch_pct); [done|].
    change (0 =? 0) with true. cbv iota. rewrite (bind_ok _ _ s tt (emit fd [c] s)); [done|].
    unfold putc, modify. by rewrite Z.mod_small by lia. }
  assert (Hpct : forall r f pre ap s,
    vprintf_loop (S f) fd (pre ++ ch_pct :: r) (length pre) 0 ap s =
    vprintf_loop f fd ((pre ++ [ch_pct]) ++ r) (length (pre ++ [ch_pct])) ch_pct ap s).
  { intros r' f pre ap' s. cbn [vprintf_loop].
    pose proof (nth_at pre (ch_pct :: r') 0) as E0. rewrite Nat.add_0_r in E0. rewrite E0.
    rewrite <- app_assoc, length_app. done. }
  assert (Hshift : forall (k r' pre : list Z), pre ++ k ++ r' = (pre ++ k) ++ r' /\ (length pre + length k = length (pre ++ k))%nat)
    by (intros k r' pre; by rewrite app_assoc, length_app).
  induction 1 as [ap|c r ap cs Hc Hne Hr IH|k u r a ap t cs Hk Hs Hr IH|r ap cs Hr IH|c r ap cs Hc Hne Hno Hr IH|ap];
    intros pre fuel s Hf.
  - destruct fuel as [|f]; [simpl in Hf; lia|]. cbn [vprintf_loop].
    pose proof (nth_at pre [] 0) as E0. rewrite Nat.add_0_r in E0. rewrite E0. cbn. by rewrite emit_nil.
  - destruct fuel as [|f]; [simpl in Hf; lia|]. rewrite Hhead by done.
    destruct (Hshift [c] r pre) as [E1 E2]. simpl in E1. simpl length in E2. rewrite E1, E2, IH by (simpl in Hf; lia).
    by rewrite emit_app.
  - pose proof (conversions_length k u Hk).
    destruct fuel as [|[|f]]; [simpl in Hf; lia|simpl in Hf; lia|].
    rewrite Hpct. rewrite (loop_conv k u a t) by done. destruct (Hshift k r (pre ++ [ch_pct])) as [-> ->].
    rewrite IH by (simpl in Hf; rewrite length_app in Hf; lia). by rewrite emit_app.
  - destruct fuel as [|[|f]]; [simpl in Hf; lia|simpl in Hf; lia|]. rewrite Hpct.
    cbn [vprintf_loop]. set (p := pre ++ [ch_pct]).
    pose proof (nth_at p (ch_pct :: r) 0) as E0. rewrite Nat.add_0_r in E0. rewrite E0. cbn [nth]. cbv zeta. known_tests.
    rewrite (bind_ok _ _ s tt (emit fd [ch_pct] s)) by done.
    destruct (Hshift [ch_pct] r p) as [E1 E2]. simpl in E1. simpl length in E2. rewrite E1, E2, IH by (simpl in Hf; lia).
    by rewrite emit_app.
  - destruct fuel as [|[|f]]; [simpl in Hf; lia|simpl in Hf; lia|]. rewrite Hpct.
    rewrite loop_other; [|constructor; [done|by eapply rendered_bytes]|done|done]. set (p := pre ++ [ch_pct]).
    destruct (Hshift [c] r p) as [E1 E2]. simpl in E1. simpl length in E2. rewrite E1, E2, IH by (simpl in Hf; lia).
    by rewrite emit_app.
  - destruct fuel as [|[|f]]; [simpl in Hf; lia|simpl in Hf; lia|]. rewrite Hpct. set (p := pre ++ [ch_pct]).
    cbn [vprintf_loop]. pose proof (nth_at p [] 0) as E0. rewrite Nat.add_0_r in E0. rewrite E0. cbn. by rewrite emit_nil.
Qed.

Lemma vprintf_spec fmt ap cs s : rendered fmt ap cs -> vprintf fd fmt ap s = Ok tt (emit fd cs s).
Proof. intros Hr. apply (vprintf_loop_spec fmt ap cs Hr []). lia. Qed.
End proof.

(** ** Result *)

(** A program that only writes: what each descriptor has received. *)
#[export] Instance writes_output : Output (gmap Z (list Z)).
Proof.
  refine {| emit fd l w := match l with [] => w | _ => <[fd := default [] (w !! fd) ++ l]> w end |}.
  - done.
  - intros fd a b w. destruct a as [|x a]; [done|]. destruct b as [|y b]; [by rewrite app_nil_r|].
    cbn [app]. rewrite lookup_insert_eq, insert_insert_eq. simpl. by rewrite <- app_assoc.
Defined.

(** C25: [vprintf] with arguments of the types its format asks for writes exactly
    the rendered text to the descriptor, whatever the program's state: numerals
    without leading zeros in the width of an [int], eight digits for a pointer,
    the null string marked; its digit buffer is never overrun and it ends. *)
Theorem vprintf_correct {T : Type} `{OT : Output T} (fd : Z) (fmt : list Z) (ap : list uarg) (cs : list Z) (s : T) :
  rendered fmt ap cs -> vprintf fd fmt ap s = Ok tt (emit fd cs s).
Proof. apply vprintf_spec. Qed.

Lemma vprintf_correct_witness :
  vprintf 2 (cstr "%d:%s%") [UInt (-12); UNull] (∅ : gmap Z (list Z)) = Ok tt (emit 2 (cstr "-12:(null)") ∅).
Proof.
  apply (vprintf_correct 2 (cstr "%d:%s%") [UInt (-12); UNull] (cstr "-12:(null)") ∅).
  apply (rd_conv (cstr "d") (UcInt 10 true) (cstr ":%s%") (UInt (-12)) [UNull] (cstr "-12") (cstr ":(null)")).
  - apply list_elem_of_here.
  - apply (sh_neg 10 (-12) (cstr "12")); [reflexivity|].
    apply (num_more 10 1 2 (cstr "1")); [reflexivity|split; [discriminate|reflexivity]|].
    apply (num_digit 10 1). split; [discriminate|reflexivity].
  - apply rd_char; [split; reflexivity|discriminate|].
    apply (rd_conv (cstr "s") UcStr (cstr "%") UNull [] (cstr "(null)") []).
    + do 11 apply list_elem_of_further. apply list_elem_of_here.
    + apply sh_null.
    + apply rd_end.
Defined.
