(* ===== verification/UserProgs.v ===== *)
(** * cat, wc and echo

    Models [src/os/user/cat.c], [wc.c] and [echo.c] over a file read in pieces
    of any size and descriptors that may accept only part of a write, and shows
    that [cat] copies, [wc] counts and [echo] joins. *)

From S2P Require Import Prelude CMem Machine Printf UserPrintf GrepRead.

(** Messages and counts go through [printf], whose writes are all accepted.

    What is left of the input, how often [read] and [write] were called, and
    what each descriptor received. *)
Record ust := mkUst { us_in : list Z; us_reads : Z; us_writes : Z; us_fds : gmap Z (list Z) }.
Definition set_us_in (l : list Z) (s : ust) : ust := mkUst l (us_reads s) (us_writes s) (us_fds s).

#[export] Instance ust_output : Output ust.
Proof.
  refine {| emit fd l s := mkUst (us_in s) (us_reads s) (us_writes s) (emit fd l (us_fds s)) |}.
  - intros fd []. by rewrite emit_nil.
  - intros fd a b s. cbn [us_in us_reads us_writes us_fds]. f_equal. apply emit_app.
Defined.

(** How much the k-th [write] accepts at most; negative for an error. *)
Class Writer := write_upto : Z -> Z.

Section progs.
Context `{R : Reader} `{W : Writer}.

(** [read(fd, buf, n)]: the bytes read, if it does not fail. *)
Definition u_read (n : Z) : M ust (option (list Z)) :=
  fun s =>
    let u := read_upto (us_reads s) in
    if u <? 0 then Ok None (mkUst (us_in s) (us_reads s + 1) (us_writes s) (us_fds s)) else
    let bs := take (Z.to_nat (Z.min n (Z.max 1 u))) (us_in s) in
    Ok (Some bs) (mkUst (drop (length bs) (us_in s)) (us_reads s + 1) (us_writes s) (us_fds s)).
(** [write(fd, buf, n)] with the [n] bytes in [buf] *)
Definition u_write (fd : Z) (bs : list Z) : M ust Z :=
  fun s =>
    let u := write_upto (us_writes s) in
    if u <? 0 then Ok (-1) (mkUst (us_in s) (us_reads s) (us_writes s + 1) (us_fds s)) else
    let bs' := take (Z.to_nat u) bs in
    Ok (Z.of_nat (length bs')) (mkUst (us_in s) (us_reads s) (us_writes s + 1) (emit fd bs' (us_fds s))).

Definition UBUF : Z := 512.

(** ** cat.c *)

(** The exit status, if the program exits. *)
Fixpoint cat_loop (n : nat) : M ust (option Z) :=
  match n with
  | O => nofuel
  | S n' =>
      r <- u_read UBUF ;;
      match r with
      | None => fprintf 2 (cstr "cat: read error" ++ [10]) [] ;; ret (Some 1)
      | Some [] => ret None
      | Some bs =>
          k <- u_write 1 bs ;;
          if negb (k =? Z.of_nat (length bs))
          then fprintf 2 (cstr "cat: write error" ++ [10]) [] ;; ret (Some 1)
          else cat_loop n'
      end
  end.
(** Every round but the last reads something. *)
Definition cat : M ust (option Z) := fun s => cat_loop (S (length (us_in s))) s.

(** The files of the command line: a name, and the content if it can be
    opened. *)
Fixpoint cat_files (files : list (list Z * option (list Z))) : M ust Z :=
  match files with
  | [] => ret 0
  | (name, None) :: _ => fprintf 2 (cstr "cat: cannot open %s" ++ [10]) [UStr name] ;; ret 1
  | (_, Some inp) :: files =>
      modify (set_us_in inp) ;;
      e <- cat ;;
      match e with Some k => ret k | None => cat_files files end
  end.
Definition cat_main (files : list (list Z * option (list Z))) : M ust Z :=
  match files with
  | [] => e <- cat ;; ret (default 0 e)
  | _ => cat_files files
  end.

(** ** wc.c *)

Record wcs := mkWcs { wc_l : Z; wc_w : Z; wc_c : Z; wc_inword : bool }.

(** [strchr(" \r\t\n\v", c) != 0] *)
Definition is_blank (c : Z) : bool := existsb (Z.eqb c) [32; 13; 9; 10; 11].

Definition wc_char (a : wcs) (b : Z) : wcs :=
  let c := i32 (wc_c a + 1) in
  let l := if b =? 10 then i32 (wc_l a + 1) else wc_l a in
  if is_blank b then mkWcs l (wc_w a) c false
  else if negb (wc_inword a) then mkWcs l (i32 (wc_w a + 1)) c true
  else mkWcs l (wc_w a) c (wc_inword a).

Fixpoint wc_loop (n : nat) (a : wcs) : M ust (option wcs) :=
  match n with
  | O => nofuel
  | S n' =>
      r <- u_read UBUF ;;
      match r with
      | None => ret None
      | Some [] => ret (Some a)
      | Some bs => wc_loop n' (foldl wc_char a bs)
      end
  end.
Definition wc (name : list Z) : M ust (option Z) :=
  fun s => (r <- wc_loop (S (length (us_in s))) (mkWcs 0 0 0 false) ;;
    match r with
    | None => uprintf (cstr "wc: read error" ++ [10]) [] ;; ret (Some 1)
    | Some a =>
        uprintf (cstr "%d %d %d %s" ++ [10]) [UInt (wc_l a); UInt (wc_w a); UInt (wc_c a); UStr name] ;;
        ret None
    end) s.

Fixpoint wc_files (files : list (list Z * option (list Z))) : M ust Z :=
  match files with
  | [] => ret 0
  | (name, None) :: _ => uprintf (cstr "wc: cannot open %s" ++ [10]) [UStr name] ;; ret 1
  | (name, Some inp) :: files =>
      modify (set_us_in inp) ;;
      e <- wc name ;;
      match e with Some k => ret k | None => wc_files files end
  end.
Definition wc_main (files : list (list Z * option (list Z))) : M ust Z :=
  match files with
  | [] => e <- wc [] ;; ret (default 0 e)
  | _ => wc_files files
  end.

(** ** echo.c *)

(** [argv[1]], [argv[2]], ...; results of [write] are not looked at. *)
Fixpoint echo_args (args : list (list Z)) : M ust unit :=
  match args with
  | [] => ret tt
  | a :: args' =>
      u_write 1 a ;;
      u_write 1 (match args' with [] => [10] | _ => [32] end) ;;
      echo_args args'
  end.
Definition echo_main (args : list (list Z)) : M ust Z := echo_args args ;; ret 0.
End progs.

(** ** Properties *)

(** The character at [i] starts a word. *)
Definition blank_at (l : list Z) (i : nat) : bool := is_blank (nth i l 0).
Definition starts_word (l : list Z) (i : nat) : bool :=
  negb (blank_at l i) && match i with O => true | S j => blank_at l j end.
Definition word_count (l : list Z) : Z := Z.of_nat (length (List.filter (starts_word l) (seq 0 (length l)))).
Definition line_count (l : list Z) : Z := Z.of_nat (length (List.filter (Z.eqb 10) l)).

Lemma filter_len {A} (f : A -> bool) l : (length (List.filter f l) <= length l)%nat.
Proof. apply List.filter_length_le. Qed.

Lemma wc_chars l :
  Z.of_nat (length l) < 2^31 ->
  foldl wc_char (mkWcs 0 0 0 false) l =
    mkWcs (line_count l) (word_count l) (Z.of_nat (length l))
      (match length l with O => false | S j => negb (blank_at l j) end).
Proof.
  induction l as [|b l IH] using rev_ind; intros Hl; [done|]. rewrite length_app in Hl. simpl in Hl.
  rewrite foldl_app, IH by lia. cbn [foldl]. unfold wc_char. cbn [wc_l wc_w wc_c wc_inword].
  assert (Hsmall : forall z, 0 <= z <= Z.of_nat (length l) -> i32 (z + 1) = z + 1).
  { intros z Hz. unfold i32. cbv zeta. rewrite Z.mod_small by lia. destruct (Z.ltb_spec (z + 1) (2^31)); lia. }
  assert (Hlines : (if b =? 10 then i32 (line_count l + 1) else line_count l) = line_count (l ++ [b])).
  { unfold line_count. rewrite List.filter_app, length_app. cbn [List.filter]. rewrite Z.eqb_sym.
    destruct (10 =? b); simpl; [|by rewrite Nat.add_0_r]. pose proof (filter_len (Z.eqb 10) l). rewrite Hsmall; lia. }
  rewrite Hlines, Hsmall by lia. rewrite length_app. simpl length. rewrite Nat.add_1_r.
  assert (Hnth : forall i, (i < length l)%nat -> blank_at (l ++ [b]) i = blank_at l i).
  { intros i Hi. unfold blank_at. by rewrite app_nth1. }
  assert (Hlast : blank_at (l ++ [b]) (length l) = is_blank b) by (unfold blank_at; by rewrite nth_middle).
  assert (Hw : word_count (l ++ [b]) = word_count l + (if starts_word (l ++ [b]) (length l) then 1 else 0)).
  { unfold word_count. rewrite length_app. simpl length. rewrite Nat.add_1_r, seq_S, List.filter_app, length_app. simpl.
    rewrite (List.filter_ext_in (starts_word (l ++ [b])) (starts_word l)); [destruct (starts_word _ _); simpl; lia|].
    intros i Hi%in_seq. unfold starts_word. rewrite Hnth by lia. destruct i; [done|]. by rewrite Hnth by lia. }
  assert (Hwl : 0 <= word_count l <= Z.of_nat (length l)).
  { unfold word_count. pose proof (filter_len (starts_word l) (seq 0 (length l))). rewrite length_seq in *. lia. }
  rewrite Hw. unfold starts_word. rewrite Hlast. rewrite Nat2Z.inj_succ, <- Z.add_1_r.
  destruct (is_blank b); simpl; [by rewrite Z.add_0_r|].
  destruct (length l) as [|j] eqn:El; simpl.
  - by rewrite Hsmall by lia.
  - rewrite Hnth by lia. destruct (blank_at l j); simpl; [by rewrite Hsmall by lia|by rewrite Z.add_0_r].
Qed.

Section results.
Context `{R : Reader} `{W : Writer}.
Hypothesis Hreads : forall i, 0 <= read_upto i.

(** One read that does not fail. *)
Lemma u_read_ok s : exists bs rest, us_in s = bs ++ rest /\ (bs = [] -> us_in s = []) /\
  u_read UBUF s = Ok (Some bs) (mkUst rest (us_reads s + 1) (us_writes s) (us_fds s)) /\ Z.of_nat (length bs) <= UBUF.
Proof.
  unfold u_read. cbv zeta. specialize (Hreads (us_reads s)). replace (read_upto (us_reads s) <? 0) with false by lia.
  set (bs := take _ (us_in s)). exists bs, (drop (length bs) (us_in s)). split; [symmetry; apply take_then_drop|].
  split; [|split; [done|unfold bs, UBUF; rewrite length_take; lia]].
  intros Hb. apply (f_equal length) in Hb. unfold bs in Hb. rewrite length_take in Hb. simpl in Hb.
  apply length_zero_iff_nil. unfold UBUF in Hb. lia.
Qed.

Lemma cat_loop_spec n s :
  (forall i, UBUF <= write_upto i) -> (length (us_in s) < n)%nat ->
  runs (cat_loop n s) (fun e s' => e = None /\ us_in s' = [] /\ us_fds s' = emit 1 (us_in s) (us_fds s)).
Proof.
  intros Hw. revert s. induction n as [|n IH]; intros s Hn; [lia|]. cbn [cat_loop].
  destruct (u_read_ok s) as (bs & rest & Hin & Hb & Hrd & Hl). rewrite (bind_ok _ _ _ _ _ Hrd).
  destruct bs as [|b bs']; [rewrite (Hb eq_refl) in *; simpl in Hin; subst rest; by rewrite emit_nil|].
  set (bs := b :: bs') in *. assert (Hlb : (0 < length bs)%nat) by (simpl; lia). clearbody bs.
  set (s1 := mkUst rest (us_reads s + 1) (us_writes s) (us_fds s)).
  specialize (Hw (us_writes s)) as Hu.
  rewrite (bind_ok _ _ s1 (Z.of_nat (length bs)) (mkUst rest (us_reads s + 1) (us_writes s + 1) (emit 1 bs (us_fds s)))).
  2: { unfold u_write. cbv zeta. cbn [s1 us_writes us_in us_reads us_fds]. replace (write_upto (us_writes s) <? 0) with false by (unfold UBUF in *; lia).
       by rewrite take_ge by lia. }
  rewrite Z.eqb_refl. cbn [negb].
  eapply runs_mono; [apply IH; cbn [us_in]; rewrite Hin, length_app in Hn; lia|].
  cbn [us_in us_fds]. intros e s' (He & Hi & Hf). rewrite Hin. by rewrite Hf, emit_app.
Qed.

(** [cat] copies its input to standard output, in whatever pieces it is read. *)
Lemma cat_correct s :
  (forall i, UBUF <= write_upto i) ->
  runs (cat s) (fun e s' => e = None /\ us_in s' = [] /\ us_fds s' = emit 1 (us_in s) (us_fds s)).
Proof. intros Hw. apply cat_loop_spec; [done|lia]. Qed.

Lemma wc_loop_spec n a s :
  (length (us_in s) < n)%nat ->
  runs (wc_loop n a s) (fun r s' => r = Some (foldl wc_char a (us_in s)) /\ us_in s' = [] /\ us_fds s' = us_fds s).
Proof.
  revert a s. induction n as [|n IH]; intros a s Hn; [lia|]. cbn [wc_loop].
  destruct (u_read_ok s) as (bs & rest & Hin & Hb & Hrd & _). rewrite (bind_ok _ _ _ _ _ Hrd).
  destruct bs as [|b bs']; [rewrite (Hb eq_refl) in *; simpl in Hin; by subst rest|].
  eapply runs_mono; [apply IH; cbn [us_in]; rewrite Hin, length_app in Hn; simpl in Hn; lia|].
  cbn [us_in us_fds]. intros r s' (-> & Hi & Hf). by rewrite Hin, foldl_app.
Qed.

(** [wc] prints the number of lines, words and characters of its input, in
    whatever pieces it is read. *)
Lemma wc_correct name s :
  Z.of_nat (length (us_in s)) < 2^31 -> Forall (fun c => 0 < c < 256) name ->
  runs (wc name s) (fun e s' => e = None /\ exists text,
    rendered (cstr "%d %d %d %s" ++ [10])
      [UInt (line_count (us_in s)); UInt (word_count (us_in s)); UInt (Z.of_nat (length (us_in s))); UStr name] text /\
    us_fds s' = emit 1 text (us_fds s)).
Proof.
  intros Hl Hname. unfold wc. apply runs_bind. eapply runs_mono; [apply wc_loop_spec; lia|].
  intros r s' (-> & _ & Hf). rewrite wc_chars by done. cbn [wc_l wc_w wc_c].
  set (l := line_count _). set (w := word_count _). set (c := Z.of_nat _).
  assert (Hint : forall z, exists t, shows (UcInt 10 true) (UInt z) t).
  { intros z. pose proof (int_range z). destruct (Z.lt_ge_cases (i32 z) 0) as [Hz|Hz].
    - destruct (numeral_exists 10 (- i32 z)) as [ds Hd]; [lia|lia|]. exists (45 :: ds). by constructor.
    - destruct (numeral_exists 10 (i32 z)) as [ds Hd]; [lia|lia|]. exists ds. by constructor. }
  destruct (Hint l) as [tl Htl], (Hint w) as [tw Htw], (Hint c) as [tc Htc].
  assert (Hr : rendered (cstr "%d %d %d %s" ++ [10]) [UInt l; UInt w; UInt c; UStr name]
    (tl ++ 32 :: tw ++ 32 :: tc ++ 32 :: name ++ [10])).
  { repeat first [apply (rd_conv (cstr "d") (UcInt 10 true)); [listed|assumption|] | apply rd_char; [lia|done|]].
    apply (rd_conv (cstr "s") UcStr); [listed|by constructor|]. apply rd_char; [lia|done|constructor]. }
  apply runs_bind. unfold uprintf. rewrite (vprintf_spec 1 _ _ _ s' Hr). cbn [runs]. split; [done|].
  eexists. split; [exact Hr|]. cbn. by rewrite Hf.
Qed.

(** [echo] joins its arguments with blanks and ends the line; without
    arguments it writes nothing. *)
Definition echo_text (args : list (list Z)) : list Z :=
  match args with [] => [] | a :: args' => a ++ mjoin ((fun b => 32 :: b) <$> args') ++ [10] end.

Lemma u_write_all fd bs s :
  Z.of_nat (length bs) <= write_upto (us_writes s) ->
  u_write fd bs s = Ok (Z.of_nat (length bs)) (mkUst (us_in s) (us_reads s) (us_writes s + 1) (emit fd bs (us_fds s))).
Proof.
  intros Hl. unfold u_write. cbv zeta. replace (write_upto (us_writes s) <? 0) with false by lia.
  by rewrite take_ge by lia.
Qed.

Lemma echo_correct args s :
  (forall a i, a ∈ args -> Z.of_nat (length a) <= write_upto i) -> (forall i, 1 <= write_upto i) ->
  runs (echo_main args s) (fun e s' => e = 0 /\ us_fds s' = emit 1 (echo_text args) (us_fds s)).
Proof.
  intros Ha H1. unfold echo_main. apply runs_bind.
  assert (H : runs (echo_args args s) (fun _ s' => us_fds s' = emit 1 (echo_text args) (us_fds s))); [|by eapply runs_mono; [apply H|]].
  revert s Ha. induction args as [|a args IH]; intros s Ha; [cbn [echo_args echo_text runs ret]; by rewrite emit_nil|].
  cbn [echo_args]. rewrite (bind_ok _ _ _ _ _ (u_write_all 1 a s ltac:(apply Ha; left))).
  set (sep := match args with [] => [10] | _ => [32] end).
  set (s1 := mkUst _ _ _ _). assert (Hsep : length sep = 1%nat) by (unfold sep; by destruct args).
  rewrite (bind_ok _ _ _ _ _ (u_write_all 1 sep s1 ltac:(rewrite Hsep; apply H1))).
  eapply runs_mono; [apply IH; intros b i Hb; apply Ha; by right|]. unfold s1.
  cbn [us_fds us_in us_reads us_writes]. intros _ s' ->. rewrite !emit_app. f_equal. unfold sep, echo_text.
  destruct args as [|b args]; [by rewrite app_nil_r|]. cbn. by rewrite <- !app_assoc.
Qed.
End results.
