(* ===== verification/Shell.v ===== *)
(** * The shell's parser

    Models the parser of [src/os/user/sh.c]: tokens of the command line in
    memory, the recursive-descent functions, and [nulterminate].  A pointer
    into the line is its address; a parsing function is a state transformer on
    the position [*ps].  The command structures, which [malloc] provides (the
    source does not expect it to fail), are values of an inductive type.

    [ShellSpec.v] gives the tokens and the grammar of command lines, and shows
    that the parser decides that grammar. *)

From S2P Require Import Prelude CMem Machine.

Definition MAXARGS : Z := 10.

(** [struct cmd]: [argv] and [eargv] up to the null pointer. *)
Inductive cmd :=
| EXEC (argv eargv : list Z)
| REDIR (c : cmd) (file efile mode fd : Z)
| PIPE (left right : cmd)
| LIST (left right : cmd)
| BACK (c : cmd).

(** The constructors; [argv] and [eargv] of a new [execcmd] are all zero. *)
Definition execcmd : cmd := EXEC [] [].
Definition redircmd (subcmd : cmd) (file efile mode fd : Z) : cmd := REDIR subcmd file efile mode fd.
Definition pipecmd (left right : cmd) : cmd := PIPE left right.
Definition listcmd (left right : cmd) : cmd := LIST left right.
Definition backcmd (subcmd : cmd) : cmd := BACK subcmd.

Definition O_RDONLY : Z := 0x000.
Definition O_WRONLY : Z := 0x001.
Definition O_CREATE : Z := 0x200.
Definition O_TRUNC : Z := 0x400.

(** " \t\r\n\v" and "<|>&;()" *)
Definition whitespace : list Z := [32; 9; 13; 10; 11].
Definition symbols : list Z := [60; 124; 62; 38; 59; 40; 41].
Definition mem_of (c : Z) (set : list Z) : bool := bool_decide (c ∈ set).

(** [while(s < es && cond( *s)) s++] *)
Fixpoint skip_while (fuel : nat) (m : mem) (cond : Z -> bool) (s es : Z) : Z :=
  match fuel with
  | O => s
  | S f => if (s <? es) && cond (load8 m s) then skip_while f m cond (s + 1) es else s
  end.
Definition skip (m : mem) (cond : Z -> bool) (s es : Z) : Z :=
  skip_while (Z.to_nat (es - s)) m cond s es.
Definition skip_ws (m : mem) (s es : Z) : Z := skip m (fun c => mem_of c whitespace) s es.
Definition skip_word (m : mem) (s es : Z) : Z :=
  skip m (fun c => negb (mem_of c whitespace) && negb (mem_of c symbols)) s es.

Definition ch_a : Z := 97.
Definition ch_plus : Z := 43.
Definition ch_gt : Z := 62.
Definition ch_lt : Z := 60.

(** The token's kind, and where it starts and ends. *)
Definition gettoken (m : mem) (es : Z) : M Z (Z * Z * Z) :=
  fun ps =>
    let s := skip_ws m ps es in
    let q := s in
    let c := load8 m s in
    let '(r, s) :=
      if c =? 0 then (c, s)
      else if mem_of c [124; 40; 41; 59; 38; 60] then (c, s + 1)
      else if c =? ch_gt then
        (if load8 m (s + 1) =? ch_gt then (ch_plus, s + 1 + 1) else (c, s + 1))
      else (ch_a, skip_word m s es) in
    let eq := s in
    Ok (r, q, eq) (skip_ws m s es).

Definition peek (m : mem) (es : Z) (toks : list Z) : M Z bool :=
  fun ps =>
    let s := skip_ws m ps es in
    Ok (negb (load8 m s =? 0) && mem_of (load8 m s) toks) s.

Section parser.
Context (m : mem) (es : Z).

(** [cmd->argv[argc] = q; cmd->eargv[argc] = eq;] where [cmd] is the [execcmd]
    under the redirections of [ret]. *)
Fixpoint add_arg (q eq : Z) (ret : cmd) : cmd :=
  match ret with
  | EXEC argv eargv => EXEC (argv ++ [q]) (eargv ++ [eq])
  | REDIR c file efile mode fd => REDIR (add_arg q eq c) file efile mode fd
  | c => c
  end.

(** [while(peek(ps, es, "<>"))] *)
Fixpoint parseredirs (fuel : nat) (c : cmd) : M Z cmd :=
  match fuel with
  | O => nofuel
  | S f =>
      b <- peek m es [60; 62] ;;
      if (b : bool) then
        t <- gettoken m es ;;
        w <- gettoken m es ;;
        let '(tok, _, _) := t in
        let '(k, q, eq) := w in
        if negb (k =? ch_a) then panic "missing file for redirection" else
        parseredirs f
          (if tok =? ch_lt then redircmd c q eq O_RDONLY 0
           else if tok =? ch_gt then redircmd c q eq (Z.lor (Z.lor O_WRONLY O_CREATE) O_TRUNC) 1
           else if tok =? ch_plus then redircmd c q eq (Z.lor O_WRONLY O_CREATE) 1
           else c)
      else ret c
  end.

(** [while(!peek(ps, es, "|)&;"))] of [parseexec] *)
Fixpoint parseargs (fuel : nat) (c : cmd) (argc : Z) : M Z cmd :=
  match fuel with
  | O => nofuel
  | S f =>
      b <- peek m es [124; 41; 38; 59] ;;
      if (b : bool) then ret c else
      t <- gettoken m es ;;
      let '(tok, q, eq) := t in
      if tok =? 0 then ret c else
      if negb (tok =? ch_a) then panic "syntax" else
      let c := add_arg q eq c in
      let argc := argc + 1 in
      if argc >=? MAXARGS then panic "too many args" else
      c <- parseredirs f c ;;
      parseargs f c argc
  end.

(** [while(peek(ps, es, "&"))] of [parseline] *)
Fixpoint parseback (fuel : nat) (c : cmd) : M Z cmd :=
  match fuel with
  | O => nofuel
  | S f =>
      b <- peek m es [38] ;;
      if (b : bool) then gettoken m es ;; parseback f (backcmd c) else ret c
  end.

(** The bodies of the parsing functions, over the functions they call. *)
Definition parseline_body (fuel : nat) (parsepipe parseline : M Z cmd) : M Z cmd :=
  c <- parsepipe ;;
  c <- parseback fuel c ;;
  b <- peek m es [59] ;;
  if (b : bool) then gettoken m es ;; r <- parseline ;; ret (listcmd c r) else ret c.

Definition parsepipe_body (parseexec parsepipe : M Z cmd) : M Z cmd :=
  c <- parseexec ;;
  b <- peek m es [124] ;;
  if (b : bool) then gettoken m es ;; r <- parsepipe ;; ret (pipecmd c r) else ret c.

Definition parseexec_body (fuel : nat) (parseblock : M Z cmd) : M Z cmd :=
  b <- peek m es [40] ;;
  if (b : bool) then parseblock else
  c <- parseredirs fuel execcmd ;;
  parseargs fuel c 0.

Definition parseblock_body (fuel : nat) (parseline : M Z cmd) : M Z cmd :=
  b <- peek m es [40] ;;
  if negb b then panic "parseblock" else
  gettoken m es ;;
  c <- parseline ;;
  b <- peek m es [41] ;;
  if negb b then panic "syntax - missing )" else
  gettoken m es ;;
  parseredirs fuel c.

Fixpoint parseline (fuel : nat) : M Z cmd :=
  match fuel with
  | O => nofuel
  | S f => parseline_body f (fun s => parsepipe f s) (fun s => parseline f s)
  end
with parsepipe (fuel : nat) : M Z cmd :=
  match fuel with
  | O => nofuel
  | S f => parsepipe_body (fun s => parseexec f s) (fun s => parsepipe f s)
  end
with parseexec (fuel : nat) : M Z cmd :=
  match fuel with
  | O => nofuel
  | S f => parseexec_body f (fun s => parseblock f s)
  end
with parseblock (fuel : nat) : M Z cmd :=
  match fuel with
  | O => nofuel
  | S f => parseblock_body f (fun s => parseline f s)
  end.
End parser.

(** NUL-terminate all the counted strings. *)
Fixpoint nulterminate (m : mem) (c : cmd) : mem :=
  match c with
  | EXEC argv eargv => foldl (fun m a => store8 m a.2 0) m (zip argv eargv)
  | REDIR c file efile mode fd => store8 (nulterminate m c) efile 0
  | PIPE l r | LIST l r => nulterminate (nulterminate m l) r
  | BACK c => nulterminate m c
  end.

(** The command and the memory it points into; [fuel] bounds the length of the
    line.  The parsing functions nest at most four deep for each token, and
    there are no more tokens than characters. *)
Definition parsecmd (fuel : nat) (m : mem) (s : Z) : res Z (cmd * mem) :=
  match strlen fuel m s with
  | None => Stop (Undefined "strlen")
  | Some n =>
      let es := s + n in
      (c <- parseline m es (Z.to_nat (4 * n + 4)) ;;
       peek m es [] ;;
       s' <- gets id ;;
       if negb (s' =? es) then panic "syntax" else ret (c, nulterminate m c)) s
  end.
