(* ===== verification/ShellSpec.v ===== *)
(** * The shell's parser decides the grammar of command lines

    The tokens of a line and the grammar over tokens, both as inductive
    definitions, and the proof that [parsecmd] of [Shell.v] returns the command
    the grammar gives the line, and panics exactly when there is none. *)

From S2P Require Import Prelude CMem Machine Shell.

(** ** Tokens *)

(** A word with its first address and the one after its last; a symbol; the
    two-character symbol for appending. *)
Inductive token :=
| Word (q e : Z)
| Sym (c : Z)
| Append.

Definition is_space (c : Z) : Prop := c ∈ whitespace.
Definition is_symbol (c : Z) : Prop := c ∈ symbols.
Definition word_char (c : Z) : Prop := c <> 0 /\ ~ is_space c /\ ~ is_symbol c.

Section line.
Context (m : mem) (es : Z).

(** A maximal run of word characters. *)
Definition is_word (q e : Z) : Prop :=
  q < e <= es /\ (forall a, q <= a < e -> word_char (load8 m a)) /\
  (e = es \/ is_space (load8 m e) \/ is_symbol (load8 m e)).

(** [scan s ts]: the line from [s] on is the tokens [ts]. *)
Inductive scan : Z -> list token -> Prop :=
| scan_end : scan es []
| scan_space s ts :
    s < es -> is_space (load8 m s) -> scan (s + 1) ts -> scan s ts
| scan_word q e ts :
    is_word q e -> scan e ts -> scan q (Word q e :: ts)
| scan_append s ts :
    s + 1 < es -> load8 m s = ch_gt -> load8 m (s + 1) = ch_gt ->
    scan (s + 1 + 1) ts -> scan s (Append :: ts)
| scan_sym s ts :
    s < es -> is_symbol (load8 m s) ->
    ~ (load8 m s = ch_gt /\ load8 m (s + 1) = ch_gt) ->
    scan (s + 1) ts -> scan s (Sym (load8 m s) :: ts).
End line.

(** ** The grammar *)

(** Redirections [ts] put around the command [c]. *)
Inductive redirs : cmd -> list token -> cmd -> Prop :=
| redirs_nil c : redirs c [] c
| redirs_in c q e ts c' :
    redirs (REDIR c q e O_RDONLY 0) ts c' -> redirs c (Sym ch_lt :: Word q e :: ts) c'
| redirs_out c q e ts c' :
    redirs (REDIR c q e (Z.lor (Z.lor O_WRONLY O_CREATE) O_TRUNC) 1) ts c' ->
    redirs c (Sym ch_gt :: Word q e :: ts) c'
| redirs_append c q e ts c' :
    redirs (REDIR c q e (Z.lor O_WRONLY O_CREATE) 1) ts c' ->
    redirs c (Append :: Word q e :: ts) c'.

(** Arguments, each followed by redirections; [n] arguments precede. *)
Inductive arguments : cmd -> Z -> list token -> cmd -> Prop :=
| arguments_nil c n : arguments c n [] c
| arguments_cons c n q e t1 c1 t2 c' :
    n + 1 < MAXARGS -> redirs (add_arg q e c) t1 c1 -> arguments c1 (n + 1) t2 c' ->
    arguments c n (Word q e :: t1 ++ t2) c'.

Definition amp : token := Sym 38.
Definition semi : token := Sym 59.
Definition bar : token := Sym 124.
Definition lpar : token := Sym 40.
Definition rpar : token := Sym 41.

Inductive line : list token -> cmd -> Prop :=
| line_one t c k : pipeline t c -> line (t ++ replicate k amp) (Nat.iter k BACK c)
| line_seq t1 c k t2 r :
    pipeline t1 c -> line t2 r ->
    line (t1 ++ replicate k amp ++ semi :: t2) (LIST (Nat.iter k BACK c) r)
with pipeline : list token -> cmd -> Prop :=
| pipeline_one t c : simple t c -> pipeline t c
| pipeline_bar t1 c t2 r : simple t1 c -> pipeline t2 r -> pipeline (t1 ++ bar :: t2) (PIPE c r)
with simple : list token -> cmd -> Prop :=
| simple_exec t1 c1 t2 c :
    redirs (EXEC [] []) t1 c1 -> arguments c1 0 t2 c -> simple (t1 ++ t2) c
| simple_block t1 c1 t2 c :
    line t1 c1 -> redirs c1 t2 c -> simple (lpar :: t1 ++ rpar :: t2) c.

Scheme line_mut := Induction for line Sort Prop
with pipeline_mut := Induction for pipeline Sort Prop
with simple_mut := Induction for simple Sort Prop.
Combined Scheme grammar_ind from line_mut, pipeline_mut, simple_mut.

(** ** Lexing *)

Lemma mem_of_true c set : mem_of c set = true <-> c ∈ set.
Proof. apply bool_decide_eq_true. Qed.
Lemma mem_of_false c set : mem_of c set = false <-> c ∉ set.
Proof. apply bool_decide_eq_false. Qed.

Lemma skip_while_unique fuel m cond s es r :
  s <= r <= es -> (Z.to_nat (es - s) <= fuel)%nat ->
  (forall a, s <= a < r -> cond (load8 m a) = true) ->
  r = es \/ cond (load8 m r) = false -> skip_while fuel m cond s es = r.
Proof.
  revert s. induction fuel as [|f IH]; intros s Hr Hf Ha Hs; simpl.
  { lia. }
  destruct (decide (s = r)) as [->|Hne].
  - destruct (Z.ltb_spec r es); [|done]. destruct Hs as [-> | ->]; [lia|done].
  - destruct (Z.ltb_spec s es); [|lia]. rewrite Ha by lia. simpl.
    apply IH; [lia|lia|intros a H1; apply Ha; lia|done].
Qed.

Lemma skip_while_range fuel m cond s es :
  s <= es -> (Z.to_nat (es - s) <= fuel)%nat ->
  let r := skip_while fuel m cond s es in
  s <= r <= es /\ (forall a, s <= a < r -> cond (load8 m a) = true) /\
  (r = es \/ cond (load8 m r) = false).
Proof.
  revert s. induction fuel as [|f IH]; intros s Hr Hf; simpl; [split; [|split]; lia|].
  destruct (Z.ltb_spec s es); simpl; [|split; [|split]; lia].
  destruct (cond (load8 m s)) eqn:E; [|split; [lia|split; [lia|by right]]].
  destruct (IH (s + 1)) as (H1 & H2 & H3); [lia|lia|]. split; [lia|]. split; [|done].
  intros a Ha. destruct (decide (a = s)) as [->|]; [done|apply H2; lia].
Qed.

(** Every character is 0, a space, a symbol, or part of a word. *)
Lemma symbol_cases c : is_symbol c ->
  c <> 0 /\ ~ is_space c /\ (c = ch_gt \/ mem_of c [124; 40; 41; 59; 38; 60] = true /\ c <> ch_gt).
Proof.
  unfold is_symbol, is_space, symbols, whitespace. rewrite mem_of_true, !elem_of_cons.
  intros H. split; [set_solver|]. split; [set_solver|].
  destruct (decide (c = ch_gt)); [by left|right]. unfold ch_gt in *. set_solver.
Qed.

Lemma space_not_0 c : is_space c -> c <> 0.
Proof. unfold is_space, whitespace. set_solver. Qed.

Section lexing.
Context (m : mem) (es : Z).
Hypothesis Hnul : load8 m es = 0.

Lemma scan_le s ts : scan m es s ts -> s <= es.
Proof. unfold is_word. induction 1 as [| | ? ? ? [? _]| |]; lia. Qed.

Lemma skip_ws_space s : s < es -> is_space (load8 m s) -> skip_ws m s es = skip_ws m (s + 1) es.
Proof.
  intros Hs Hw. unfold skip_ws, skip. replace (Z.to_nat (es - s)) with (S (Z.to_nat (es - (s + 1)))) by lia.
  simpl. apply mem_of_true in Hw. rewrite Hw. by destruct (Z.ltb_spec s es); [|lia].
Qed.
Lemma skip_ws_stop s : s <= es -> ~ is_space (load8 m s) -> skip_ws m s es = s.
Proof.
  intros Hs Hw. apply skip_while_unique; [lia|lia|lia|]. right. by apply mem_of_false.
Qed.
Lemma skip_word_eq q e : is_word m es q e -> skip_word m q es = e.
Proof.
  intros (He & Ha & Hn). apply skip_while_unique; [lia|lia| |].
  - intros a H. destruct (Ha a H) as (_ & H1 & H2). apply mem_of_false in H1, H2. by rewrite H1, H2.
  - destruct Hn as [->|Hn]; [by left|right].
    destruct Hn as [Hn|Hn]; apply mem_of_true in Hn; rewrite Hn; [done|apply andb_false_r].
Qed.

(** Leading spaces do not matter. *)
Lemma scan_skip s ts : scan m es s ts ->
  scan m es (skip_ws m s es) ts /\ ~ is_space (load8 m (skip_ws m s es)).
Proof.
  induction 1 as [|s ts Hs Hw _ IH|q e ts Hq Hs IH|s ts Hs H1 H2 Hr _|s ts Hs Hc Hg Hr _].
  - rewrite skip_ws_stop; rewrite ?Hnul; [split; [constructor|]|lia|]; by intros ?%space_not_0.
  - by rewrite skip_ws_space.
  - destruct Hq as (He & Ha & Hn) eqn:E. destruct (Ha q) as (_ & H & _); [lia|].
    rewrite skip_ws_stop by (done || lia). split; [by constructor|done].
  - assert (~ is_space (load8 m s)) by (rewrite H1; unfold is_space, ch_gt, whitespace; set_solver).
    rewrite skip_ws_stop by (done || lia). split; [by constructor|done].
  - destruct (symbol_cases _ Hc) as (_ & H & _).
    rewrite skip_ws_stop by (done || lia). split; [by constructor|done].
Qed.

Lemma scan_at_end ts : scan m es es ts -> ts = [].
Proof. intros H. inversion H as [|? ? Hs|q e ? (? & _)|? ? Hs|? ? Hs]; lia || done. Qed.

(** What [gettoken] returns for the first token. *)
Definition kind (t : token) : Z :=
  match t with Word _ _ => ch_a | Sym c => c | Append => ch_plus end.

Lemma gettoken_spec s ts : scan m es s ts ->
  match ts with
  | [] => gettoken m es s = Ok (0, es, es) es
  | t :: ts' => exists q e s', gettoken m es s = Ok (kind t, q, e) s' /\ scan m es s' ts' /\
      match t with Word q' e' => q = q' /\ e = e' | _ => True end
  end.
Proof.
  intros H. apply scan_skip in H as [H Hw]. unfold gettoken. set (s1 := skip_ws m s es) in *.
  destruct H as [|s1 ts Hs Hsp|q e ts Hq Hs|s1 ts Hs H1 H2 Hr|s1 ts Hs Hc Hg Hr]; [| done | | |].
  - rewrite Hnul. simpl. by rewrite skip_ws_stop by (done || lia).
  - pose proof Hq as (He & Ha & _). destruct (Ha q) as (H0 & _ & Hy); [lia|].
    destruct (Z.eqb_spec (load8 m q) 0); [done|]. unfold is_symbol, symbols in Hy.
    replace (mem_of _ _) with false by (symmetry; apply mem_of_false; set_solver).
    destruct (Z.eqb_spec (load8 m q) ch_gt) as [Hg|]; [unfold ch_gt in Hg; set_solver|].
    rewrite (skip_word_eq q e Hq). apply scan_skip in Hs as [Hs _]. eauto 10.
  - rewrite H1, H2. apply scan_skip in Hr as [Hr _]. eauto 10.
  - apply scan_skip in Hr as [Hr _]. destruct (symbol_cases _ Hc) as (H0 & _ & [Hk|[Hk Hk']]).
    + rewrite Hk. change (ch_gt =? 0) with false. change (mem_of ch_gt _) with false. rewrite Z.eqb_refl.
      destruct (Z.eqb_spec (load8 m (s1 + 1)) ch_gt); [by destruct Hg|]. eauto 10.
    + destruct (Z.eqb_spec (load8 m s1) 0); [done|]. rewrite Hk. eauto 10.
Qed.

(** What [peek] sees of the first token. *)
Definition peeked (toks : list Z) (ts : list token) : bool :=
  match ts with
  | Sym c :: _ => mem_of c toks
  | Append :: _ => mem_of ch_gt toks
  | _ => false
  end.

Lemma peek_spec toks s ts : toks ⊆ symbols -> scan m es s ts ->
  exists s', peek m es toks s = Ok (peeked toks ts) s' /\ scan m es s' ts /\ (ts = [] -> s' = es).
Proof.
  intros Ht H. apply scan_skip in H as [H Hw]. exists (skip_ws m s es). split; [|split; [done|]].
  - unfold peek. set (s1 := skip_ws m s es) in *. f_equal.
    destruct H as [|s1 ts Hs Hsp|q e ts Hq Hs|s1 ts Hs H1 H2 Hr|s1 ts Hs Hc Hg Hr]; [| done | | |]; simpl.
    + by rewrite Hnul.
    + pose proof Hq as (He & Ha & _). destruct (Ha q) as (H0 & _ & Hy); [lia|].
      apply andb_false_iff; right. apply mem_of_false. unfold is_symbol in Hy. set_solver.
    + by rewrite H1.
    + destruct (symbol_cases _ Hc) as (H0 & _). by destruct (Z.eqb_spec (load8 m s1) 0).
  - intros ->. inversion H; [congruence|contradiction].
Qed.

Lemma word_at s :
  s < es -> load8 m s <> 0 -> load8 m s ∉ whitespace -> load8 m s ∉ symbols ->
  (forall a, s <= a < es -> load8 m a <> 0) -> exists e, is_word m es s e.
Proof.
  intros Hs H0 Hw Hy Hz. exists (skip_word m s es). unfold is_word, skip_word, skip.
  destruct (skip_while_range (Z.to_nat (es - s)) m
    (fun c => negb (mem_of c whitespace) && negb (mem_of c symbols)) s es) as (Hr & Ha & He); [lia|lia|].
  set (e := skip_while _ _ _ _ _) in *.
  rewrite andb_false_iff, !negb_false_iff, !mem_of_true in He.
  setoid_rewrite andb_true_iff in Ha. setoid_rewrite negb_true_iff in Ha. setoid_rewrite mem_of_false in Ha.
  split; [|split; [|done]].
  - destruct (decide (e = s)) as [Heq|]; [|lia]. rewrite Heq in He.
    destruct He as [|[|]]; [lia|done|done].
  - intros a Hra. split; [apply Hz; lia|by apply Ha].
Qed.

(** A line without zero bytes has tokens. *)
Lemma scan_total s : (forall a, s <= a < es -> load8 m a <> 0) -> s <= es ->
  exists ts, scan m es s ts /\ Z.of_nat (length ts) <= es - s.
Proof.
  intros Hz Hs. remember (Z.to_nat (es - s)) as n eqn:Hn. revert s Hz Hs Hn.
  induction n as [n IH] using lt_wf_ind. intros s Hz Hs ->.
  destruct (decide (s = es)) as [->|Hne]; [exists []; split; [constructor|simpl; lia]|].
  assert (Hrec : forall s', s < s' <= es -> exists ts, scan m es s' ts /\ Z.of_nat (length ts) <= es - s')
    by (intros s' Hs'; eapply IH; [|intros; apply Hz; lia|lia|reflexivity]; lia).
  destruct (decide (load8 m s ∈ whitespace)) as [Hw|Hw].
  { destruct (Hrec (s + 1)) as (ts & H & Hl); [lia|]. exists ts. split; [by apply scan_space; [lia| |]|lia]. }
  destruct (decide (load8 m s ∈ symbols)) as [Hy|Hy].
  - destruct (decide (load8 m s = ch_gt /\ load8 m (s + 1) = ch_gt)) as [[H1 H2]|Hg].
    + assert (Hn1 : s + 1 <> es) by (intros Heq; rewrite Heq, Hnul in H2; done).
      destruct (Hrec (s + 1 + 1)) as (ts & H & Hl); [lia|]. exists (Append :: ts).
      split; [by constructor; [lia| | |]|simpl; lia].
    + destruct (Hrec (s + 1)) as (ts & H & Hl); [lia|]. exists (Sym (load8 m s) :: ts).
      split; [by constructor; [lia| | |]|simpl; lia].
  - destruct (word_at s) as [e He]; [lia|by apply Hz; lia|done|done|intros; apply Hz; lia|].
    pose proof He as (? & _). destruct (Hrec e) as (ts & H1 & Hl); [lia|].
    exists (Word s e :: ts). split; [by constructor|simpl; lia].
Qed.
End lexing.

(** ** Soundness: what the parser returns is derived by the grammar *)

Definition panics (w : stop) : Prop := exists msg, w = Panicked msg.
Definition never {A : Type} (_ : A) : Prop := False.

Section parsing.
Context (m : mem) (es : Z).
Hypothesis Hnul : load8 m es = 0.

(** Partial parse: some first tokens of the line form [G], the rest remain. *)
Definition parsed (G : list token -> cmd -> Prop) (ts : list token) (c : cmd) (s' : Z) : Prop :=
  exists t1 t2, ts = t1 ++ t2 /\ G t1 c /\ scan m es s' t2.

Lemma wp_peek {A} E toks (f : bool -> M Z A) s ts Q :
  scan m es s ts -> toks ⊆ symbols ->
  (forall s', scan m es s' ts -> wp E never (f (peeked toks ts) s') Q) ->
  wp E never (bind (peek m es toks) f s) Q.
Proof.
  intros Hs Ht HQ. destruct (peek_spec m es Hnul toks s ts Ht Hs) as (s' & Hp & Hs' & _).
  rewrite (bind_ok _ _ _ _ _ Hp). auto.
Qed.

Lemma wp_gettoken {A} E (f : Z * Z * Z -> M Z A) s t ts Q :
  scan m es s (t :: ts) ->
  (forall s' q e, scan m es s' ts -> (forall q' e', t = Word q' e' -> q = q' /\ e = e') ->
     wp E never (f (kind t, q, e) s') Q) ->
  wp E never (bind (gettoken m es) f s) Q.
Proof.
  intros Hs HQ. destruct (gettoken_spec m es Hnul s _ Hs) as (q & e & s' & Hp & Hs' & Ht).
  rewrite (bind_ok _ _ _ _ _ Hp). apply HQ; [done|]. by intros q' e' ->.
Qed.

Lemma wp_gettoken_end {A} E (f : Z * Z * Z -> M Z A) s Q :
  scan m es s [] -> wp E never (f (0, es, es) es) Q ->
  wp E never (bind (gettoken m es) f s) Q.
Proof.
  intros Hs HQ. pose proof (gettoken_spec m es Hnul s _ Hs) as Hp. simpl in Hp.
  by rewrite (bind_ok _ _ _ _ _ Hp).
Qed.

(** The symbols of the line are symbols. *)
Lemma scan_symbols s ts : scan m es s ts -> Forall (fun t => forall c, t = Sym c -> is_symbol c) ts.
Proof. induction 1; try constructor; try done; by intros ? [= <-]. Qed.

Lemma kind_sym t : (forall c, t = Sym c -> is_symbol c) ->
  (exists q e, t = Word q e) \/ kind t <> ch_a /\ kind t <> 0.
Proof.
  intros H. destruct t as [q e|c|]; [eauto| |by right].
  right. simpl. destruct (symbol_cases c (H c eq_refl)) as (H0 & _). split; [|done].
  specialize (H c eq_refl). intros ->. unfold is_symbol, symbols, ch_a in H. set_solver.
Qed.

Lemma parseredirs_sound fuel c s ts :
  scan m es s ts -> (length ts < fuel)%nat ->
  wp panics never (parseredirs m es fuel c s) (parsed (fun t => redirs c t) ts).
Proof.
  revert c s ts. induction fuel as [|f IH]; intros c s ts Hs Hf; [lia|].
  cbn [parseredirs]. apply wp_peek with ts; [done|set_solver|]. intros s1 Hs1.
  destruct (peeked _ ts) eqn:Ep.
  2: { exists [], ts. split; [done|]. by split; [constructor|]. }
  destruct ts as [|t ts]; [done|]. apply wp_gettoken with t ts; [done|]. intros s2 q e Hs2 _.
  destruct ts as [|w ts].
  { apply wp_gettoken_end; [done|]. by eexists. }
  apply wp_gettoken with w ts; [done|]. intros s3 q1 e1 Hs3 Hw.
  destruct (Z.eqb_spec (kind w) ch_a) as [Hk|]; [|by eexists]. simpl.
  assert (exists q' e', w = Word q' e') as (q' & e' & ->).
  { pose proof (scan_symbols _ _ Hs2) as [Hy _]%Forall_cons.
    destruct (kind_sym w Hy) as [(q' & e' & ->)|[]]; [eauto|done]. }
  destruct (Hw q' e' eq_refl) as [-> ->]. clear Hw Hk.
  eapply wp_mono; [apply IH; [done|simpl in *; lia]|].
  intros c' s' (t1 & t2 & -> & Hr & Ht2). exists (t :: Word q' e' :: t1), t2.
  split; [done|]. split; [|done]. destruct t as [|c0|]; [done| |by constructor].
  apply mem_of_true in Ep. unfold kind in *. destruct (decide (c0 = ch_lt)) as [->|].
  { by constructor. }
  destruct (decide (c0 = ch_gt)) as [->|]; [by constructor|]. unfold ch_lt, ch_gt in *. set_solver.
Qed.

Lemma parseargs_sound fuel c n s ts :
  scan m es s ts -> (length ts < fuel)%nat ->
  wp panics never (parseargs m es fuel c n s) (parsed (fun t => arguments c n t) ts).
Proof.
  revert c n s ts. induction fuel as [|f IH]; intros c n s ts Hs Hf; [lia|].
  cbn [parseargs]. apply wp_peek with ts; [done|set_solver|]. intros s1 Hs1.
  destruct (peeked _ ts) eqn:Ep.
  { exists [], ts. split; [done|]. by split; [constructor|]. }
  destruct ts as [|t ts].
  { apply wp_gettoken_end; [done|]. exists [], []. split; [done|]. split; constructor. }
  apply wp_gettoken with t ts; [done|]. intros s2 q e Hs2 Hw.
  pose proof (scan_symbols _ _ Hs1) as [Hy _]%Forall_cons.
  destruct (kind_sym t Hy) as [(q' & e' & ->)|[H1 H2]].
  2: { destruct (Z.eqb_spec (kind t) 0); [done|]. destruct (Z.eqb_spec (kind t) ch_a); [done|]. by eexists. }
  destruct (Hw q' e' eq_refl) as [-> ->]. simpl.
  destruct (Z.geb_spec (n + 1) MAXARGS); [by eexists|]. apply wp_bind.
  eapply wp_mono; [apply parseredirs_sound; [done|simpl in Hf; lia]|].
  intros c1 s3 (t1 & t2 & -> & Hr & Hs3).
  eapply wp_mono; [apply IH; [done|rewrite length_cons, length_app in Hf; lia]|].
  intros c2 s4 (t3 & t4 & -> & Ha & Hs4). exists (Word q' e' :: t1 ++ t3), t4.
  split; [by rewrite <-app_comm_cons, app_assoc|]. split; [by econstructor|done].
Qed.

Lemma peeked_one c ts : c <> ch_gt -> peeked [c] ts = true -> exists ts', ts = Sym c :: ts'.
Proof.
  intros Hc. destruct ts as [|[| c'|] ts]; simpl; try done.
  - rewrite mem_of_true, list_elem_of_singleton. intros ->. eauto.
  - rewrite mem_of_true, list_elem_of_singleton. congruence.
Qed.

Lemma parseback_sound fuel c s ts :
  scan m es s ts -> (length ts < fuel)%nat ->
  wp panics never (parseback m es fuel c s) (fun c' s' => exists k t2,
    ts = replicate k amp ++ t2 /\ c' = Nat.iter k BACK c /\ scan m es s' t2).
Proof.
  revert c s ts. induction fuel as [|f IH]; intros c s ts Hs Hf; [lia|].
  cbn [parseback]. apply wp_peek with ts; [done|set_solver|]. intros s1 Hs1.
  destruct (peeked _ ts) eqn:Ep; [|by exists 0%nat, ts].
  apply peeked_one in Ep as [ts' ->]; [|done].
  eapply wp_gettoken; [done|]. intros s2 q e Hs2 _.
  eapply wp_mono; [apply IH; [done|simpl in Hf; lia]|].
  intros c' s' (k & t2 & -> & -> & Ht2). exists (S k), t2.
  split; [done|]. split; [|done]. unfold backcmd. by rewrite Nat.iter_succ_r.
Qed.

(** Four nested calls for each token that is left. *)
Lemma parser_sound fuel :
  (forall s ts, scan m es s ts -> (4 * length ts + 4 <= fuel)%nat ->
     wp panics never (parseline m es fuel s) (parsed line ts)) /\
  (forall s ts, scan m es s ts -> (4 * length ts + 3 <= fuel)%nat ->
     wp panics never (parsepipe m es fuel s) (parsed pipeline ts)) /\
  (forall s ts, scan m es s ts -> (4 * length ts + 2 <= fuel)%nat ->
     wp panics never (parseexec m es fuel s) (parsed simple ts)) /\
  (forall s ts, scan m es s ts -> (4 * length ts + 1 <= fuel)%nat ->
     wp panics never (parseblock m es fuel s) (parsed simple ts)).
Proof.
  induction fuel as [|f (IHl & IHp & IHe & IHb)]; [repeat split; intros; lia|].
  split; [|split; [|split]]; intros s ts Hs Hf.
  - cbn [parseline]. unfold parseline_body. apply wp_bind. eapply wp_mono; [apply IHp; [done|lia]|].
    intros c s1 (t1 & t2 & -> & Hp & Hs1). rewrite length_app in Hf. apply wp_bind.
    eapply wp_mono; [apply parseback_sound; [done|lia]|].
    intros c' s2 (k & t3 & -> & -> & Hs2). rewrite length_app in Hf.
    apply wp_peek with t3; [done|set_solver|]. intros s3 Hs3.
    destruct (peeked _ t3) eqn:Ep.
    + apply peeked_one in Ep as [t4 ->]; [|done]. eapply wp_gettoken; [done|]. intros s4 q e Hs4 _.
      apply wp_bind. eapply wp_mono; [apply IHl; [done|simpl in Hf; lia]|].
      intros r s5 (t5 & t6 & -> & Hl & Hs5). exists (t1 ++ replicate k amp ++ semi :: t5), t6.
      split; [by rewrite <-!app_assoc|]. split; [by constructor|done].
    + exists (t1 ++ replicate k amp), t3. split; [by rewrite app_assoc|]. split; [by constructor|done].
  - cbn [parsepipe]. unfold parsepipe_body. apply wp_bind. eapply wp_mono; [apply IHe; [done|lia]|].
    intros c s1 (t1 & t2 & -> & Hp & Hs1). rewrite length_app in Hf.
    apply wp_peek with t2; [done|set_solver|]. intros s3 Hs3. destruct (peeked _ t2) eqn:Ep.
    + apply peeked_one in Ep as [t4 ->]; [|done]. eapply wp_gettoken; [done|]. intros s4 q e Hs4 _.
      apply wp_bind. eapply wp_mono; [apply IHp; [done|simpl in Hf; lia]|].
      intros r s5 (t5 & t6 & -> & Hl & Hs5). exists (t1 ++ bar :: t5), t6.
      split; [by rewrite <-app_assoc|]. split; [by constructor|done].
    + exists t1, t2. split; [done|]. split; [by constructor|done].
  - cbn [parseexec]. unfold parseexec_body. apply wp_peek with ts; [done|set_solver|]. intros s1 Hs1.
    destruct (peeked _ ts) eqn:Ep.
    + apply IHb; [done|lia].
    + apply wp_bind. eapply wp_mono; [apply parseredirs_sound; [done|lia]|].
      intros c s2 (t1 & t2 & -> & Hr & Hs2). rewrite length_app in Hf.
      eapply wp_mono; [apply parseargs_sound; [done|lia]|].
      intros c' s3 (t3 & t4 & -> & Ha & Hs3). exists (t1 ++ t3), t4.
      split; [by rewrite app_assoc|]. split; [by econstructor|done].
  - cbn [parseblock]. unfold parseblock_body. apply wp_peek with ts; [done|set_solver|]. intros s1 Hs1.
    destruct (peeked _ ts) eqn:Ep; [|by eexists].
    apply peeked_one in Ep as [t4 ->]; [|done]. eapply wp_gettoken; [done|]. intros s4 q e Hs4 _.
    apply wp_bind. eapply wp_mono; [apply IHl; [done|simpl in Hf; lia]|].
    intros c s5 (t5 & t6 & -> & Hl & Hs5). simpl in Hf. rewrite length_app in Hf.
    apply wp_peek with t6; [done|set_solver|]. intros s6 Hs6.
    destruct (peeked _ t6) eqn:Ep; [|by eexists].
    apply peeked_one in Ep as [t7 ->]; [|done]. eapply wp_gettoken; [done|]. intros s7 q' e' Hs7 _.
    eapply wp_mono; [apply parseredirs_sound; [done|simpl in Hf; lia]|].
    intros c' s8 (t8 & t9 & -> & Hr & Hs8). exists (lpar :: t5 ++ rpar :: t8), t9.
    split; [by rewrite <-app_comm_cons, <-app_assoc|]. split; [by econstructor|done].
Qed.

(** ** Completeness: what the grammar derives is returned *)

(** The line ends here, or goes on with one of the symbols [toks]. *)
Definition ends (toks : list Z) (ts : list token) : Prop := ts = [] \/ peeked toks ts = true.

Lemma ends_peek toks toks' ts : ends toks ts -> toks ## toks' -> peeked toks' ts = false.
Proof.
  intros [->|H] Hd; [done|]. destruct ts as [|[|c|] ts]; simpl in *; try done;
    apply mem_of_true in H; apply mem_of_false; set_solver.
Qed.
Lemma ends_mono toks toks' ts : ends toks ts -> toks ⊆ toks' -> ends toks' ts.
Proof.
  intros [->|H] Hd; [by left|right]. destruct ts as [|[|c|] ts]; simpl in *; try done;
    apply mem_of_true in H; apply mem_of_true; set_solver.
Qed.

(** The parser returns [c] and leaves the tokens [t2]. *)
Definition returns (c : cmd) (t2 : list token) (c' : cmd) (s' : Z) : Prop := c' = c /\ scan m es s' t2.

Lemma parseredirs_complete c t1 c' : redirs c t1 c' -> forall fuel s t2,
  scan m es s (t1 ++ t2) -> peeked [60; 62] t2 = false -> (length t1 < fuel)%nat ->
  wp never never (parseredirs m es fuel c s) (returns c' t2).
Proof.
  induction 1 as [c|c q e ts c' _ IH|c q e ts c' _ IH|c q e ts c' _ IH];
    intros [|f] s t2 Hs Hp Hf; try (simpl in Hf; lia); cbn [parseredirs].
  { apply wp_peek with t2; [done|set_solver|]. intros s1 Hs1. by rewrite Hp. }
  all: eapply wp_peek; [done|set_solver|]; intros s1 Hs1; simpl;
    eapply wp_gettoken; [done|]; intros s2 q1 e1 Hs2 _;
    eapply wp_gettoken; [done|]; intros s3 q2 e2 Hs3 Hw; destruct (Hw q e eq_refl) as [-> ->];
    apply IH; [done|done|simpl in Hf; lia].
Qed.

Lemma arguments_head c n t c' ts toks : arguments c n t c' -> peeked toks ts = false ->
  peeked toks (t ++ ts) = false.
Proof. by destruct 1. Qed.
Lemma redirs_head c t c' ts : redirs c t c' -> peeked [40] ts = false -> peeked [40] (t ++ ts) = false.
Proof. by destruct 1. Qed.

Lemma parseargs_complete c n t1 c' : arguments c n t1 c' -> forall fuel s t2,
  scan m es s (t1 ++ t2) -> ends [124; 41; 38; 59] t2 -> (length t1 < fuel)%nat ->
  wp never never (parseargs m es fuel c n s) (returns c' t2).
Proof.
  induction 1 as [c n|c n q e t1 c1 t3 c' Hn Hr Ha IH]; intros [|f] s t2 Hs Hp Hf;
    try (simpl in Hf; lia); cbn [parseargs].
  - apply wp_peek with t2; [done|set_solver|]. intros s1 Hs1. destruct Hp as [->|Hp]; [|by rewrite Hp].
    cbn [peeked]. apply wp_gettoken_end; [done|]. split; [done|constructor].
  - rewrite <-app_comm_cons, <-app_assoc in Hs. simpl in Hf. rewrite length_app in Hf.
    eapply wp_peek; [done|set_solver|]. intros s1 Hs1. simpl.
    eapply wp_gettoken; [done|]. intros s2 q2 e2 Hs2 Hw. destruct (Hw q e eq_refl) as [-> ->]. simpl.
    destruct (Z.geb_spec (n + 1) MAXARGS); [lia|]. apply wp_bind.
    eapply wp_mono; [eapply parseredirs_complete; [done|done| |lia]|].
    + eapply arguments_head; [done|]. eapply ends_peek; [done|set_solver].
    + intros c2 s3 [-> Hs3]. apply IH; [done|done|lia].
Qed.

Lemma parseback_complete k fuel c s t2 :
  scan m es s (replicate k amp ++ t2) -> peeked [38] t2 = false -> (k < fuel)%nat ->
  wp never never (parseback m es fuel c s) (returns (Nat.iter k BACK c) t2).
Proof.
  revert fuel c s. induction k as [|k IH]; intros [|f] c s Hs Hp Hf; try lia; cbn [parseback].
  - apply wp_peek with t2; [done|set_solver|]. intros s1 Hs1. by rewrite Hp.
  - rewrite Nat.iter_succ_r. simpl in Hs. eapply wp_peek; [done|set_solver|]. intros s1 Hs1. simpl.
    eapply wp_gettoken; [done|]. intros s2 q e Hs2 _.
    apply IH; [done|done|lia].
Qed.

Lemma parser_complete :
  (forall t1 c, line t1 c -> forall fuel s t2, scan m es s (t1 ++ t2) -> ends [41] t2 ->
     (4 * length t1 + 4 <= fuel)%nat ->
     wp never never (parseline m es fuel s) (returns c t2)) /\
  (forall t1 c, pipeline t1 c -> forall fuel s t2, scan m es s (t1 ++ t2) -> ends [41; 38; 59] t2 ->
     (4 * length t1 + 3 <= fuel)%nat ->
     wp never never (parsepipe m es fuel s) (returns c t2)) /\
  (forall t1 c, simple t1 c -> forall fuel s t2, scan m es s (t1 ++ t2) -> ends [124; 41; 38; 59] t2 ->
     (4 * length t1 + 2 <= fuel)%nat ->
     wp never never (parseexec m es fuel s) (returns c t2)).
Proof.
  apply grammar_ind.
  - intros t c k _ IH [|f] s t2 Hs He Hf; [lia|]. cbn [parseline]. unfold parseline_body. apply wp_bind.
    rewrite <-app_assoc in Hs. rewrite length_app, length_replicate in Hf.
    eapply wp_mono; [apply IH; [done| |lia]|].
    { destruct k; [eapply ends_mono; [exact He|set_solver]|by right]. }
    intros c1 s1 [-> Hs1]. apply wp_bind.
    eapply wp_mono; [apply parseback_complete; [done|eapply ends_peek; [exact He|set_solver]|lia]|].
    intros c1 s2 [-> Hs2]. eapply wp_peek; [done|set_solver|]. intros s3 Hs3.
    rewrite (ends_peek _ [59] _ He) by set_solver. done.
  - intros t1 c k t3 r _ IH _ IHl [|f] s t2 Hs He Hf; [lia|]. cbn [parseline]. unfold parseline_body. apply wp_bind.
    rewrite <-!app_assoc, <-app_comm_cons in Hs.
    rewrite !length_app, length_replicate, length_cons in Hf.
    eapply wp_mono; [apply IH; [done|by destruct k; right|lia]|].
    intros c1 s1 [-> Hs1]. apply wp_bind.
    eapply wp_mono; [apply parseback_complete; [done|done|lia]|].
    intros c1 s2 [-> Hs2]. eapply wp_peek; [done|set_solver|]. intros s3 Hs3. simpl.
    eapply wp_gettoken; [done|]. intros s4 q e Hs4 _. apply wp_bind.
    eapply wp_mono; [apply IHl; [done|done|lia]|]. by intros c2 s5 [-> Hs5].
  - intros t c _ IH [|f] s t2 Hs He Hf; [lia|]. cbn [parsepipe]. unfold parsepipe_body. apply wp_bind.
    eapply wp_mono; [apply IH; [done|eapply ends_mono; [exact He|set_solver]|lia]|].
    intros c1 s1 [-> Hs1]. eapply wp_peek; [done|set_solver|]. intros s3 Hs3.
    rewrite (ends_peek _ [124] _ He) by set_solver. done.
  - intros t1 c t3 r _ IH _ IHp [|f] s t2 Hs He Hf; [lia|]. cbn [parsepipe]. unfold parsepipe_body. apply wp_bind.
    rewrite <-app_assoc, <-app_comm_cons in Hs. rewrite length_app, length_cons in Hf.
    eapply wp_mono; [apply IH; [done|by right|lia]|].
    intros c1 s1 [-> Hs1]. eapply wp_peek; [done|set_solver|]. intros s3 Hs3. simpl.
    eapply wp_gettoken; [done|]. intros s4 q e Hs4 _. apply wp_bind.
    eapply wp_mono; [apply IHp; [done|done|lia]|]. by intros c2 s5 [-> Hs5].
  - intros t1 c1 t3 c Hr Ha [|f] s t2 Hs He Hf; [lia|]. cbn [parseexec]. unfold parseexec_body.
    rewrite <-app_assoc in Hs. rewrite length_app in Hf.
    eapply wp_peek; [done|set_solver|]. intros s1 Hs1.
    assert (Hp : forall toks, toks ## [124; 41; 38; 59] -> peeked toks (t3 ++ t2) = false).
    { intros toks Hd. eapply arguments_head; [done|]. eapply ends_peek; [exact He|set_solver]. }
    rewrite (redirs_head _ _ _ _ Hr) by (apply Hp; set_solver). apply wp_bind.
    eapply wp_mono; [eapply parseredirs_complete; [done|done|apply Hp; set_solver|lia]|].
    intros c2 s2 [-> Hs2]. eapply parseargs_complete; [done|done|done|lia].
  - intros t1 c1 t3 c _ IH Hr [|f] s t2 Hs He Hf; [lia|]. cbn [parseexec]. unfold parseexec_body.
    rewrite <-app_comm_cons, <-app_assoc, <-app_comm_cons in Hs.
    rewrite length_cons, length_app, length_cons in Hf.
    eapply wp_peek; [done|set_solver|]. intros s1 Hs1. simpl. destruct f as [|f]; [lia|]. cbn [parseblock]. unfold parseblock_body.
    eapply wp_peek; [done|set_solver|]. intros s2 Hs2. simpl.
    eapply wp_gettoken; [done|]. intros s3 q e Hs3 _. apply wp_bind.
    eapply wp_mono; [apply IH; [done|by right|lia]|]. intros c2 s4 [-> Hs4].
    eapply wp_peek; [done|set_solver|]. intros s5 Hs5. simpl.
    eapply wp_gettoken; [done|]. intros s6 q' e' Hs6 _.
    eapply parseredirs_complete; [done|done|eapply ends_peek; [exact He|set_solver]|lia].
Qed.
End parsing.

(** ** The words of a command *)

(** Every word of the command satisfies [P], and every [argv] leaves room for
    the null pointer at its end. *)
Fixpoint cmd_ok (P : Z -> Z -> Prop) (c : cmd) : Prop :=
  match c with
  | EXEC argv eargv => Forall2 P argv eargv /\ Z.of_nat (length argv) < MAXARGS
  | REDIR c file efile _ _ => cmd_ok P c /\ P file efile
  | PIPE l r | LIST l r => cmd_ok P l /\ cmd_ok P r
  | BACK c => cmd_ok P c
  end.

(** [n] arguments so far in the [execcmd] under redirections. *)
Fixpoint spine (n : Z) (c : cmd) : Prop :=
  match c with
  | EXEC argv _ => Z.of_nat (length argv) = n
  | REDIR c _ _ _ _ => spine n c
  | _ => False
  end.

Lemma cmd_ok_mono (P Q : Z -> Z -> Prop) c :
  cmd_ok P c -> (forall q e, P q e -> Q q e) -> cmd_ok Q c.
Proof.
  intros H HPQ. induction c as [argv eargv|c IH f e md fd|l IHl r IHr|l IHl r IHr|c IH]; simpl in *.
  - destruct H as [H ?]. split; [|done]. eapply Forall2_impl; eauto.
  - destruct H. eauto.
  - destruct H. eauto.
  - destruct H. eauto.
  - eauto.
Qed.

Lemma cmd_ok_iter P k c : cmd_ok P c -> cmd_ok P (Nat.iter k BACK c).
Proof. intros H. by induction k. Qed.

Lemma add_arg_ok P q e n c : cmd_ok P c -> spine n c -> n + 1 < MAXARGS -> P q e ->
  cmd_ok P (add_arg q e c) /\ spine (n + 1) (add_arg q e c).
Proof.
  intros H Hs Hn Hp. induction c as [argv eargv|c IH f e1 md fd| | |]; simpl in *; try done.
  - destruct H as [H _]. rewrite !length_app. simpl. split; [split|]; [|lia|lia].
    apply Forall2_app; [done|by constructor].
  - destruct H as [H ?]. destruct (IH H Hs). auto.
Qed.

Section words.
Context (P : Z -> Z -> Prop).
Definition words_in (t : list token) : Prop := forall q e, Word q e ∈ t -> P q e.

Lemma words_in_app t1 t2 : words_in (t1 ++ t2) <-> words_in t1 /\ words_in t2.
Proof. unfold words_in. setoid_rewrite elem_of_app. naive_solver. Qed.
Lemma words_in_cons t ts : words_in (t :: ts) -> (forall q e, t = Word q e -> P q e) /\ words_in ts.
Proof. unfold words_in. setoid_rewrite elem_of_cons. naive_solver. Qed.

Lemma redirs_ok c t c' : redirs c t c' -> words_in t -> cmd_ok P c -> cmd_ok P c'.
Proof.
  induction 1 as [c|c q e ts c' _ IH|c q e ts c' _ IH|c q e ts c' _ IH]; intros Hw Hc; [done|..].
  all: apply words_in_cons in Hw as [_ [Hq Hw]%words_in_cons]; apply IH; [done|split; auto].
Qed.
Lemma redirs_spine c t c' n : redirs c t c' -> spine n c -> spine n c'.
Proof. induction 1; auto. Qed.

Lemma arguments_ok c n t c' :
  arguments c n t c' -> words_in t -> cmd_ok P c -> spine n c -> cmd_ok P c'.
Proof.
  induction 1 as [|c n q e t1 c1 t2 c' Hn Hr Ha IH]; intros Hw Hc Hs; [done|].
  apply words_in_cons in Hw as [Hq [Hw1 Hw2]%words_in_app].
  destruct (add_arg_ok P q e n c Hc Hs Hn) as [H1 H2]; [auto|].
  apply IH; [done|by eapply redirs_ok|by eapply redirs_spine].
Qed.

Lemma grammar_ok :
  (forall t c, line t c -> words_in t -> cmd_ok P c) /\
  (forall t c, pipeline t c -> words_in t -> cmd_ok P c) /\
  (forall t c, simple t c -> words_in t -> cmd_ok P c).
Proof.
  apply grammar_ind.
  - intros t c k _ IH [Hw _]%words_in_app. apply cmd_ok_iter; auto.
  - intros t1 c k t2 r _ IH _ IHl [H1 [_ [_ H2]%words_in_cons]%words_in_app]%words_in_app.
    split; [apply cmd_ok_iter|]; auto.
  - auto.
  - intros t1 c t2 r _ IH _ IHp [H1 [_ H2]%words_in_cons]%words_in_app. split; auto.
  - intros t1 c1 t2 c Hr Ha [H1 H2]%words_in_app.
    assert (Hc : cmd_ok P (EXEC [] [])) by (split; [constructor|done]).
    eapply arguments_ok; [done|done|by eapply redirs_ok|by eapply redirs_spine].
  - intros t1 c1 t2 c _ IH Hr [_ [H1 [_ H2]%words_in_cons]%words_in_app]%words_in_cons.
    eapply redirs_ok; [done|done|auto].
Qed.
End words.

Lemma scan_words m es s ts : scan m es s ts -> words_in (fun q e => s <= q /\ is_word m es q e) ts.
Proof.
  unfold words_in. induction 1 as [|s ts Hs Hw _ IH|q e ts Hq Hs IH|s ts Hs H1 H2 Hr IH|s ts Hs Hc Hg Hr IH];
    intros q' e' Hin; rewrite ?elem_of_cons in Hin.
  - by apply elem_of_nil in Hin.
  - destruct (IH _ _ Hin). split; [lia|done].
  - pose proof Hq as (? & _). destruct Hin as [[= -> ->]|Hin]; [split; [lia|done]|].
    destruct (IH _ _ Hin). split; [lia|done].
  - destruct Hin as [|Hin]; [done|]. destruct (IH _ _ Hin). split; [lia|done].
  - destruct Hin as [|Hin]; [done|]. destruct (IH _ _ Hin). split; [lia|done].
Qed.

(** [nulterminate] writes zeroes, at the ends of all words and nowhere else. *)
Definition zero_ends (m : mem) (l : list (Z * Z)) : mem := foldl (fun m a => store8 m a.2 0) m l.

Lemma zero_ends_load m l a : load8 (zero_ends m l) a = if decide (a ∈ l.*2) then 0 else load8 m a.
Proof.
  revert m. induction l as [|[q e] l IH]; intros m; simpl; [done|]. rewrite IH, load8_store8.
  destruct (decide (a ∈ l.*2)); destruct (decide (a = e)) as [->|];
    repeat case_decide; try done; set_solver.
Qed.

Lemma nulterminate_zero c m a : load8 m a = 0 -> load8 (nulterminate m c) a = 0.
Proof.
  revert m. induction c as [argv eargv|c IH f e md fd|l IHl r IHr|l IHl r IHr|c IH]; intros m H; simpl; auto.
  - fold (zero_ends m (zip argv eargv)). rewrite zero_ends_load. by case_decide.
  - rewrite load8_store8. case_decide; auto.
Qed.

Lemma nulterminate_frame P c m a : cmd_ok P c -> (forall q, ~ P q a) ->
  load8 (nulterminate m c) a = load8 m a.
Proof.
  intros Hc Ha. revert m. induction c as [argv eargv|c IH f e md fd|l IHl r IHr|l IHl r IHr|c IH];
    intros m; simpl in *.
  - destruct Hc as [Hc _]. fold (zero_ends m (zip argv eargv)). rewrite zero_ends_load.
    destruct (decide _) as [Hin|]; [|done]. exfalso.
    apply list_elem_of_fmap in Hin as ([q e] & -> & Hin). simpl in *.
    apply list_elem_of_lookup in Hin as [i [Hq He]%lookup_zip_Some].
    apply (Ha q). eapply Forall2_lookup_lr; eauto.
  - destruct Hc as [Hc Hp]. rewrite load8_store8_ne; [auto|]. intros ->. by apply (Ha f).
  - destruct Hc. rewrite IHr; auto.
  - destruct Hc. rewrite IHr; auto.
  - auto.
Qed.

Lemma nulterminate_ends P c m : cmd_ok P c ->
  cmd_ok (fun q e => P q e /\ load8 (nulterminate m c) e = 0) c.
Proof.
  revert m. induction c as [argv eargv|c IH f e md fd|l IHl r IHr|l IHl r IHr|c IH]; intros m Hc; simpl in *.
  - destruct Hc as [Hc ?]. split; [|done]. fold (zero_ends m (zip argv eargv)).
    apply Forall2_same_length_lookup. split; [by eapply Forall2_length|]. intros i q e Hq He.
    split; [by eapply Forall2_lookup_lr|]. rewrite zero_ends_load, decide_True; [done|].
    apply list_elem_of_fmap. exists (q, e). split; [done|]. apply list_elem_of_lookup. exists i.
    by apply lookup_zip_Some.
  - destruct Hc as [Hc ?]. split; [|by rewrite load8_store8_eq].
    eapply cmd_ok_mono; [by apply (IH m)|]. intros q e1 [H1 H2]. split; [done|].
    rewrite load8_store8. by case_decide.
  - destruct Hc as [Hl Hr]. split; [|by apply IHr]. eapply cmd_ok_mono; [by apply (IHl m)|].
    intros q e [H1 H2]. split; [done|]. by apply nulterminate_zero.
  - destruct Hc as [Hl Hr]. split; [|by apply IHr]. eapply cmd_ok_mono; [by apply (IHl m)|].
    intros q e [H1 H2]. split; [done|]. by apply nulterminate_zero.
  - by apply IH.
Qed.

(** In the memory [parsecmd] leaves, [q] is a string with the characters the
    line had from [q] to [e]. *)
Definition string_of_word (fuel : nat) (m m' : mem) (q e : Z) : Prop :=
  strlen fuel m' q = Some (e - q) /\ forall a, q <= a < e -> load8 m' a = load8 m a.

Lemma words_terminated fuel m es s c :
  cmd_ok (fun q e => s <= q /\ is_word m es q e) c -> es - s < Z.of_nat fuel -> load8 m es = 0 ->
  cmd_ok (fun q e => s <= q /\ e <= es /\ string_of_word fuel m (nulterminate m c) q e) c.
Proof.
  intros Hc Hf Hz. eapply cmd_ok_mono; [apply (nulterminate_ends _ _ m Hc)|].
  intros q e [[Hq (He & Hw & _)] H0]. split; [done|]. split; [lia|].
  assert (Hsame : forall a, q <= a < e -> load8 (nulterminate m c) a = load8 m a).
  { intros a Ha. eapply nulterminate_frame; [done|]. intros q' (_ & _ & _ & Hend).
    destruct (Hw a Ha) as (? & ? & ?). destruct Hend as [->|[|]]; congruence. }
  split; [|done]. apply strlen_loop_some. split; [lia|].
  split; [by replace (q + (e - q)) with e by lia|].
  intros j Hj. rewrite Hsame by lia. apply Hw. lia.
Qed.

Lemma parsecmd_spec (fuel : nat) (m : mem) (s n : Z) :
  strlen fuel m s = Some n ->
  exists ts, scan m (s + n) s ts /\
  match parsecmd fuel m s with
  | Ok (c, m') _ =>
      line ts c /\ (forall c', line ts c' -> c' = c) /\
      cmd_ok (fun q e => s <= q /\ e <= s + n /\ string_of_word fuel m m' q e) c /\
      forall a, ~ (s <= a <= s + n) -> load8 m' a = load8 m a
  | Stop (Panicked _) => forall c, ~ line ts c
  | _ => False
  end.
Proof.
  intros Hl. pose proof Hl as (Hn & Hnul & Hz)%strlen_loop_some.
  destruct (scan_total m (s + n) Hnul s) as (ts & Hs & Hlen); [|lia|].
  { intros a Ha. replace a with (s + (a - s)) by lia. apply Hz. lia. }
  exists ts. split; [done|]. unfold parsecmd. rewrite Hl. unfold bind at 1.
  pose proof (proj1 (parser_sound m (s + n) Hnul (Z.to_nat (4 * n + 4))) s ts Hs) as Hsound.
  assert (Hcomp : forall c, line ts c -> wp never never
    (parseline m (s + n) (Z.to_nat (4 * n + 4)) s) (returns m (s + n) c [])).
  { intros c Hc. apply (proj1 (parser_complete m (s + n) Hnul) ts c Hc); [|by left|lia].
    by rewrite app_nil_r. }
  destruct (parseline _ _ _ s) as [c s1|w|s1 k]; cbn [wp rbind] in *.
  2: { destruct Hsound as [msg ->]; [lia|]. intros c Hc. by apply (Hcomp c). }
  2: { destruct Hsound as [[] _]; lia. }
  destruct Hsound as (t1 & t2 & Heq & Hc & Hs1); [lia|].
  destruct (peek_spec m (s + n) Hnul [] s1 t2) as (s2 & Hp & Hs2 & Hend); [set_solver|done|].
  rewrite (bind_ok _ _ _ _ _ Hp). unfold bind, gets, rbind, id.
  destruct (Z.eqb_spec s2 (s + n)) as [->|Hne]; simpl.
  - apply scan_at_end in Hs2 as ->. rewrite app_nil_r in Heq. subst t1. split; [done|].
    split; [intros c' Hc'; by destruct (Hcomp c' Hc')|].
    pose proof (proj1 (grammar_ok _) _ _ Hc (scan_words _ _ _ _ Hs)) as Hok.
    split; [apply words_terminated; [done|lia|done]|].
    intros a Ha. eapply nulterminate_frame; [done|]. intros q (? & ? & _). lia.
  - intros c' Hc'. destruct (Hcomp c' Hc') as [-> Hs1'].
    destruct (peek_spec m (s + n) Hnul [] s1 []) as (s3 & Hp' & _ & Hend'); [set_solver|done|].
    rewrite Hp in Hp'. injection Hp' as _ ->. auto.
Qed.

(** C22: [parsecmd] decides the grammar of command lines.  For a line in memory,
    with [ts] its tokens, it returns the one command the grammar derives from
    [ts], and panics exactly when it derives none; it always stops.  In the
    memory it leaves, each argument and each file name of the command is a
    terminated string with the characters of its word, although the words are
    cut out of the line in place; every [argv] leaves room for its null
    pointer; and nothing outside the line is written. *)
Theorem parsecmd_correct (fuel : nat) (m : mem) (s n : Z) :
  strlen fuel m s = Some n ->
  exists ts, scan m (s + n) s ts /\
  match parsecmd fuel m s with
  | Ok (c, m') _ =>
      line ts c /\ (forall c', line ts c' -> c' = c) /\
      cmd_ok (fun q e => s <= q /\ e <= s + n /\ string_of_word fuel m m' q e) c /\
      forall a, ~ (s <= a <= s + n) -> load8 m' a = load8 m a
  | Stop (Panicked _) => forall c, ~ line ts c
  | _ => False
  end.
Proof. apply parsecmd_spec. Qed.

(** "(ls >f ; a b) | wc &" *)
Definition example_line : mem :=
  write_bytes ∅ 4096
    [40; 108; 115; 32; 62; 102; 32; 59; 32; 97; 32; 98; 41; 32; 124; 32; 119; 99; 32; 38; 10].
Definition example_cmd : cmd :=
  BACK (PIPE (LIST (REDIR (EXEC [4097] [4099]) 4101 4102 0x601 1) (EXEC [4105; 4107] [4106; 4108]))
             (EXEC [4112] [4114])).

Lemma parsecmd_correct_witness :
  parsecmd 100 example_line 4096 = Ok (example_cmd, nulterminate example_line example_cmd) 4117 /\
  exists ts, scan example_line (4096 + 21) 4096 ts /\
  match parsecmd 100 example_line 4096 with
  | Ok (c, m') _ =>
      line ts c /\ (forall c', line ts c' -> c' = c) /\
      cmd_ok (fun q e => 4096 <= q /\ e <= 4096 + 21 /\ string_of_word 100 example_line m' q e) c /\
      forall a, ~ (4096 <= a <= 4096 + 21) -> load8 m' a = load8 example_line a
  | Stop (Panicked _) => forall c, ~ line ts c
  | _ => False
  end.
Proof.
  split; [vm_compute; reflexivity|].
  apply (parsecmd_correct 100 example_line 4096 21). vm_compute. reflexivity.
Defined.
