(* ===== verification/ShellRun.v ===== *)
(** * Running commands

    Models the rest of [src/os/user/sh.c]: [runcmd], the command loop, and the
    line reader [gets] of [ulib.c].  A process of the shell is its memory and
    its table of open descriptors.  The kernel's answers are the class [Os]; what
    a process does that others can see, the program it starts, its forks, waits,
    messages and exit, is recorded in order.  A child shares neither memory nor
    descriptor table with its parent, so what it does is computed where it is
    forked and recorded under the fork, [EFork], as the child's own record.
    When each of these things happens, and what a [wait] waits for, is the
    business of the interleaving semantics in [ShellConc]. *)

From S2P Require Import Prelude CMem Machine Shell.

(** What a descriptor refers to. *)
Inductive fobj :=
| FFile (path : list Z) (mode : Z)
| FPipeR (id : Z)
| FPipeW (id : Z)
| FInherited (n : Z).
#[export] Instance fobj_eq_dec : EqDecision fobj.
Proof. solve_decision. Defined.
Abbreviation fdtab := (gmap Z fobj).

Inductive event :=
| ERun (argv : list (list Z)) (fds : fdtab)   (** [exec] succeeded *)
| EEnd (argv : list (list Z)) (fds : fdtab)   (** the program has exited *)
| EFork (child : list event)                  (** and what the child does *)
| EMessage (fmt : string) (arg : list Z)      (** [fprintf(2, ...)] *)
| EPrompt
| EChdir (path : list Z)
| EWait
| EExit (status : Z).

Record ush := mkUsh {
  sh_mem : mem;
  sh_fds : fdtab;
  sh_pipes : Z;   (** pipes made so far *)
  sh_calls : Z;   (** calls of [fork], [pipe] and [read] so far *)
  sh_log : list event;
}.
Definition set_sh_mem (m : mem) (s : ush) : ush :=
  mkUsh m (sh_fds s) (sh_pipes s) (sh_calls s) (sh_log s).
Definition set_sh_fds (f : fdtab) (s : ush) : ush :=
  mkUsh (sh_mem s) f (sh_pipes s) (sh_calls s) (sh_log s).
Definition logged_ev (e : event) (s : ush) : ush :=
  mkUsh (sh_mem s) (sh_fds s) (sh_pipes s) (sh_calls s) (sh_log s ++ [e]).
Definition called (s : ush) : ush :=
  mkUsh (sh_mem s) (sh_fds s) (sh_pipes s) (sh_calls s + 1) (sh_log s).

(** The kernel's answers: by the argument, or by the number of the call. *)
Class Os := {
  os_open : list Z -> Z -> bool;
  os_exec : list (list Z) -> bool;
  os_chdir : list Z -> bool;
  os_fork : Z -> bool;
  os_pipe : Z -> bool;
  os_read : Z -> option Z;
}.

(** A computation of a process; [None]: it has exited. *)
Definition P (A : Type) : Type := ush -> option A * ush.
Definition pret {A} (a : A) : P A := fun s => (Some a, s).
Definition pbind {A B} (m : P A) (f : A -> P B) : P B :=
  fun s => match m s with (Some a, s') => f a s' | (None, s') => (None, s') end.
Declare Scope proc_scope.
Delimit Scope proc_scope with P.
Bind Scope proc_scope with P.
Notation "x <- m ;; k" := (pbind m (fun x => k))
  (at level 100, m at next level, right associativity) : proc_scope.
Notation "m ;; k" := (pbind m (fun _ => k))
  (at level 100, right associativity) : proc_scope.
Open Scope proc_scope.

Definition pgets {A} (f : ush -> A) : P A := fun s => (Some (f s), s).
Definition pmodify (f : ush -> ush) : P unit := fun s => (Some tt, f s).
Definition emit (e : event) : P unit := pmodify (logged_ev e).

(** A C string of at most a page, the kernel's bound. *)
Definition str_at (m : mem) (a : Z) : list Z := cstrn (Z.to_nat 4096) m a.

(** ** System calls *)

(** The lowest descriptor that is not open. *)
Definition fd_alloc (T : fdtab) : option Z :=
  head (filter (fun n => T !! n = None) (seqZ 0 NOFILE)).

Definition exit {A} (status : Z) : P A := fun s => (None, logged_ev (EExit status) s).
Definition close (fd : Z) : P unit := pmodify (fun s => set_sh_fds (delete fd (sh_fds s)) s).
Definition wait : P unit := emit EWait.
Definition message (fmt : string) (arg : list Z) : P unit := emit (EMessage fmt arg).

(** A new descriptor for an open file. *)
Definition install (o : fobj) : P Z :=
  fun s => match fd_alloc (sh_fds s) with
           | Some fd => (Some fd, set_sh_fds (<[fd := o]> (sh_fds s)) s)
           | None => (Some (-1), s)
           end.

Section shell.
Context `{OS : Os}.

Definition open (path : list Z) (mode : Z) : P Z :=
  if os_open path mode then install (FFile path mode) else pret (-1).
Definition dup (fd : Z) : P Z :=
  T <- pgets sh_fds ;;
  match T !! fd with
  | Some o => install o
  | None => pret (-1)
  end.

(** The two ends, or [None] where [pipe] returns -1. *)
Definition pipe : P (option (Z * Z)) :=
  n <- pgets sh_calls ;;
  pmodify called ;;
  if os_pipe n then
    T <- pgets sh_fds ;;
    i <- pgets sh_pipes ;;
    r <- install (FPipeR i) ;;
    if r <? 0 then pret None else
    w <- install (FPipeW i) ;;
    if w <? 0 then pmodify (set_sh_fds T) ;; pret None else
    pmodify (fun s => mkUsh (sh_mem s) (sh_fds s) (i + 1) (sh_calls s) (sh_log s)) ;;
    pret (Some (r, w))
  else pret None.

(** On success the process is the program's, until that exits. *)
Definition exec (argv : list (list Z)) : P unit :=
  if os_exec argv then
    fun s => (None, logged_ev (EEnd argv (sh_fds s)) (logged_ev (ERun argv (sh_fds s)) s))
  else pret tt.

(** ** [sh.c] *)

Definition nl : string := String (Ascii.ascii_of_nat 10) EmptyString.
Definition panic {A} (msg : string) : P A := message (msg ++ nl) [] ;; exit 1.

(** [if(fork1() == 0) child;]  The child has a record of its own; the numbers
    of pipes and calls only name them. *)
Definition fork1 (child : P unit) : P unit :=
  n <- pgets sh_calls ;;
  pmodify called ;;
  if os_fork n then
    fun s => let s' := (child (mkUsh (sh_mem s) (sh_fds s) (sh_pipes s) (sh_calls s) [])).2 in
             (Some tt, mkUsh (sh_mem s) (sh_fds s) (sh_pipes s') (sh_calls s')
                         (sh_log s ++ [EFork (sh_log s')]))
  else panic "fork".

(** [cmd] is never null: the parser returns a command or does not return. *)
Fixpoint runcmd (c : cmd) : P unit :=
  match c with
  | EXEC argv _ =>
      m <- pgets sh_mem ;;
      match argv with
      | [] => exit 1
      | a :: _ =>
          exec (str_at m <$> argv) ;;
          message ("exec %s failed" ++ nl) (str_at m a) ;;
          exit 0
      end
  | REDIR c file _ mode fd =>
      m <- pgets sh_mem ;;
      close fd ;;
      r <- open (str_at m file) mode ;;
      if r <? 0 then message ("open %s failed" ++ nl) (str_at m file) ;; exit 1 else
      runcmd c ;;
      exit 0
  | LIST l r =>
      fork1 (runcmd l) ;;
      wait ;;
      runcmd r ;;
      exit 0
  | PIPE l r =>
      p <- pipe ;;
      match p with
      | None => panic "pipe"
      | Some (p0, p1) =>
          fork1 (close 1 ;; dup p1 ;; close p0 ;; close p1 ;; runcmd l) ;;
          fork1 (close 0 ;; dup p0 ;; close p0 ;; close p1 ;; runcmd r) ;;
          close p0 ;;
          close p1 ;;
          wait ;;
          wait ;;
          exit 0
      end
  | BACK c =>
      fork1 (runcmd c) ;;
      exit 0
  end.

(** [read(0, &c, 1)] *)
Definition read_byte : P (option Z) :=
  n <- pgets sh_calls ;;
  pmodify called ;;
  pret (os_read n).

(** [n] is [max - 1 - i]; the index after the last character read. *)
Fixpoint gets_loop (n : nat) (buf i : Z) : P Z :=
  match n with
  | O => pret i
  | S n' =>
      cc <- read_byte ;;
      match cc with
      | None => pret i
      | Some c =>
          pmodify (fun s => set_sh_mem (store8 (sh_mem s) (buf + i) c) s) ;;
          if (c =? 10) || (c =? 13) then pret (i + 1) else gets_loop n' buf (i + 1)
      end
  end.
Definition gets (buf max : Z) : P unit :=
  i <- gets_loop (Z.to_nat (max - 1)) buf 0 ;;
  pmodify (fun s => set_sh_mem (store8 (sh_mem s) (buf + i) 0) s).

Definition getcmd (buf nbuf : Z) : P Z :=
  emit EPrompt ;;
  pmodify (fun s => set_sh_mem (memset (sh_mem s) buf 0 nbuf) s) ;;
  gets buf nbuf ;;
  m <- pgets sh_mem ;;
  pret (if load8 m buf =? 0 then -1 else 0).

Definition O_RDWR : Z := 0x002.
Definition console : list Z := [99; 111; 110; 115; 111; 108; 101].
(** [while((fd = open("console", O_RDWR)) >= 0)]; there are [NOFILE]
    descriptors. *)
Fixpoint open_console (n : nat) : P unit :=
  match n with
  | O => pret tt
  | S n' =>
      fd <- open console O_RDWR ;;
      if fd <? 0 then pret tt else
      if fd >=? 3 then close fd else open_console n'
  end.

(** [while ( *cmd == ' ' || *cmd == '\t') cmd++;] in a buffer of [n] bytes *)
Fixpoint skip_blanks (n : nat) (m : mem) (cmd : Z) : Z :=
  match n with
  | O => cmd
  | S n' => if mem_of (load8 m cmd) [32; 9] then skip_blanks n' m (cmd + 1) else cmd
  end.

Definition sh_nbuf : Z := 100.

(** [runcmd(parsecmd(cmd))] *)
Definition sh_child (m : mem) (cmd : Z) : P unit :=
  match parsecmd (Z.to_nat sh_nbuf) m cmd with
  | Ok (c, m') _ => pmodify (set_sh_mem m') ;; runcmd c
  | Stop (Panicked msg) => panic msg
  | _ => pret tt
  end.

(** One command line. *)
Definition sh_line (buf : Z) : P unit :=
  m <- pgets sh_mem ;;
  let cmd := skip_blanks (Z.to_nat sh_nbuf) m buf in
  if load8 m cmd =? 10 then pret tt else
  if (load8 m cmd =? 99) && (load8 m (cmd + 1) =? 100) && (load8 m (cmd + 2) =? 32) then
    match strlen (Z.to_nat sh_nbuf) m cmd with
    | None => pret tt
    | Some n =>
        pmodify (set_sh_mem (store8 m (cmd + n - 1) 0)) ;;
        m <- pgets sh_mem ;;
        emit (EChdir (str_at m (cmd + 3))) ;;
        if os_chdir (str_at m (cmd + 3)) then pret tt
        else message ("cannot cd %s" ++ nl) (str_at m (cmd + 3))
    end
  else
    fork1 (sh_child m cmd) ;;
    wait.

(** [fuel] bounds the number of lines read. *)
Fixpoint sh_loop (fuel : nat) (buf : Z) : P unit :=
  match fuel with
  | O => pret tt
  | S f =>
      r <- getcmd buf sh_nbuf ;;
      if r <? 0 then exit 0 else
      sh_line buf ;;
      sh_loop f buf
  end.
Definition sh_main (fuel : nat) (buf : Z) : P unit :=
  open_console (Z.to_nat (NOFILE + 1)) ;;
  sh_loop fuel buf.
End shell.
