(* ===== verification/ShellConc.v ===== *)
(** * Processes of the shell side by side

    [ShellRun] computes what each process of a command line does; here the
    processes run beside each other.  A process is what it has yet to do and its
    children; any process of the tree may take the next step, and [wait] returns
    only when a child has exited (or there is none to wait for).

    What a command should do is a [plan]: programs, one after the other, side by
    side or in the background.  [follows] relates the states of the process tree
    to those of the plan, and every step of either is matched by the other. *)

From S2P Require Import Prelude CMem Machine Shell ShellRun.

(** A program with its arguments and descriptors. *)
Definition job : Type := list (list Z) * fdtab.
Inductive label := Started (j : job) | Ended (j : job).

(** ** Process trees *)

(** A child is waitable until its parent's [wait] has returned it. *)
Inductive proc := Proc (todo : list event) (kids : list (bool * proc)).
Definition todo (p : proc) : list event := let 'Proc es _ := p in es.

Definition quiet (e : event) : Prop :=
  match e with ERun _ _ | EEnd _ _ | EFork _ | EWait => False | _ => True end.

(** One waitable child that has exited is marked. *)
Inductive reap : list (bool * proc) -> list (bool * proc) -> Prop :=
| reap_here g ks : reap ((true, Proc [] g) :: ks) ((false, Proc [] g) :: ks)
| reap_later k ks ks' : reap ks ks' -> reap (k :: ks) (k :: ks').

Inductive step : proc -> option label -> proc -> Prop :=
| step_start argv T es ks :
    step (Proc (ERun argv T :: es) ks) (Some (Started (argv, T))) (Proc es ks)
| step_end argv T es ks :
    step (Proc (EEnd argv T :: es) ks) (Some (Ended (argv, T))) (Proc es ks)
| step_quiet e es ks : quiet e -> step (Proc (e :: es) ks) None (Proc es ks)
| step_fork c es ks : step (Proc (EFork c :: es) ks) None (Proc es (ks ++ [(true, Proc c [])]))
| step_wait es ks ks' : reap ks ks' -> step (Proc (EWait :: es) ks) None (Proc es ks')
| step_wait_none es ks :
    Forall (fun k => k.1 = false) ks -> step (Proc (EWait :: es) ks) None (Proc es ks)
| step_kids es ks l ks' : kids_step ks l ks' -> step (Proc es ks) l (Proc es ks')
with kids_step : list (bool * proc) -> option label -> list (bool * proc) -> Prop :=
| kids_here b p l p' ks : step p l p' -> kids_step ((b, p) :: ks) l ((b, p') :: ks)
| kids_later k ks l ks' : kids_step ks l ks' -> kids_step (k :: ks) l (k :: ks').
Scheme step_mut := Induction for step Sort Prop
  with kids_step_mut := Induction for kids_step Sort Prop.

(** A run, with the programs started and ended on the way. *)
Inductive run : proc -> list label -> proc -> Prop :=
| run_nil p : run p [] p
| run_cons p l p1 t p2 : step p l p1 -> run p1 t p2 -> run p (option_list l ++ t) p2.
Definition stuck (p : proc) : Prop := forall l p', ~ step p l p'.

(** ** Plans *)

Inductive plan :=
| PRun (j : job)
| PRunning (j : job)
| PDone
| PSeq (a b : plan)   (** [b] when the foreground part of [a] is over *)
| PPar (a b : plan)
| PBg (a : plan).     (** nobody waits for [a] *)

(** Nothing is left to wait for; nothing is left to do. *)
Fixpoint fgdone (a : plan) : bool :=
  match a with
  | PRun _ | PRunning _ => false
  | PDone | PBg _ => true
  | PSeq a b | PPar a b => fgdone a && fgdone b
  end.
Fixpoint pdone (a : plan) : bool :=
  match a with
  | PRun _ | PRunning _ => false
  | PDone => true
  | PBg a => pdone a
  | PSeq a b | PPar a b => pdone a && pdone b
  end.

Inductive pstep : plan -> label -> plan -> Prop :=
| pstep_start j : pstep (PRun j) (Started j) (PRunning j)
| pstep_end j : pstep (PRunning j) (Ended j) PDone
| pstep_seq_l a l a' b : pstep a l a' -> pstep (PSeq a b) l (PSeq a' b)
| pstep_seq_r a l b b' : fgdone a = true -> pstep b l b' -> pstep (PSeq a b) l (PSeq a b')
| pstep_par_l a l a' b : pstep a l a' -> pstep (PPar a b) l (PPar a' b)
| pstep_par_r a l b b' : pstep b l b' -> pstep (PPar a b) l (PPar a b')
| pstep_bg a l a' : pstep a l a' -> pstep (PBg a) l (PBg a').
Inductive prun : plan -> list label -> plan -> Prop :=
| prun_nil a : prun a [] a
| prun_cons a l b t c : pstep a l b -> prun b t c -> prun a (l :: t) c.

(** The programs still to start. *)
Fixpoint jobs_of (a : plan) : list job :=
  match a with
  | PRun j => [j]
  | PRunning _ | PDone => []
  | PSeq a b | PPar a b => jobs_of a ++ jobs_of b
  | PBg a => jobs_of a
  end.
Definition started (t : list label) : list job :=
  omap (fun l => match l with Started j => Some j | Ended _ => None end) t.
Create HintDb shell.
#[export] Hint Constructors reap step kids_step run pstep prun : shell.

Lemma pdone_fgdone a : pdone a = true -> fgdone a = true.
Proof. induction a; simpl; rewrite ?andb_true_iff; tauto. Qed.

(** An unfinished plan can go on. *)
Lemma plan_progress a : pdone a = false -> exists l a', pstep a l a'.
Proof.
  induction a as [j|j| |a IHa b IHb|a IHa b IHb|a IHa]; simpl; intros H; [by eauto with shell..|done| | |].
  - destruct (pdone a) eqn:Ha; [|destruct (IHa eq_refl) as (? & ? & ?); eauto with shell].
    destruct (IHb H) as (? & ? & ?). eauto using pdone_fgdone with shell.
  - destruct (pdone a) eqn:Ha; [destruct (IHb H) as (? & ? & ?)|destruct (IHa eq_refl) as (? & ? & ?)]; eauto with shell.
  - destruct (IHa H) as (? & ? & ?); eauto with shell.
Qed.

Lemma pstep_jobs a l a' : pstep a l a' -> jobs_of a ≡ₚ started [l] ++ jobs_of a'.
Proof. induction 1; cbn in *; try done; rewrite IHpstep; destruct l; cbn; by rewrite ?Permutation_middle. Qed.
Lemma pdone_jobs a : pdone a = true -> jobs_of a = [].
Proof.
  induction a; simpl; try done; rewrite ?andb_true_iff; try tauto;
    intros [H1 H2]; by rewrite IHa1, IHa2.
Qed.
(** A run of a plan to its end starts each of its programs once. *)
Lemma prun_jobs a t b : prun a t b -> jobs_of a ≡ₚ started t ++ jobs_of b.
Proof.
  induction 1 as [|a l b t c Hs Hr IH]; [done|].
  rewrite (pstep_jobs _ _ _ Hs), IH. cbn. by destruct l.
Qed.

(** ** Every run is finite *)

Fixpoint ev_size (e : event) : nat :=
  match e with EFork c => S (S (list_sum (ev_size <$> c))) | _ => 1 end.
Definition evs_size (es : list event) : nat := list_sum (ev_size <$> es).
Fixpoint psize (p : proc) : nat :=
  let 'Proc es ks := p in evs_size es + list_sum ((fun k => psize k.2) <$> ks).
Definition kids_size (ks : list (bool * proc)) : nat := list_sum ((fun k => psize k.2) <$> ks).

Lemma psize_eq es ks : psize (Proc es ks) = (evs_size es + kids_size ks)%nat.
Proof. done. Qed.
Lemma evs_size_cons e es : evs_size (e :: es) = (ev_size e + evs_size es)%nat.
Proof. done. Qed.
Lemma kids_size_cons k ks : kids_size (k :: ks) = (psize k.2 + kids_size ks)%nat.
Proof. done. Qed.
Lemma kids_size_snoc ks k : kids_size (ks ++ [k]) = (kids_size ks + psize k.2)%nat.
Proof. induction ks as [|k' ks IH]; cbn [app]; rewrite !kids_size_cons; [cbn; lia|]. rewrite IH. lia. Qed.
Lemma reap_size ks ks' : reap ks ks' -> kids_size ks' = kids_size ks.
Proof. induction 1; rewrite !kids_size_cons; [done|]. by rewrite IHreap. Qed.
Lemma ev_size_pos e : (0 < ev_size e)%nat.
Proof. destruct e; cbn; lia. Qed.
Lemma step_size p l p' : step p l p' -> (psize p' < psize p)%nat.
Proof.
  apply (step_mut (fun p _ p' _ => psize p' < psize p)%nat (fun ks _ ks' _ => kids_size ks' < kids_size ks)%nat);
    intros; rewrite ?psize_eq, ?evs_size_cons, ?kids_size_cons, ?kids_size_snoc, ?psize_eq in *.
  all: try (match goal with |- context [ev_size ?e] => pose proof (ev_size_pos e) end; lia).
  - cbn [ev_size snd]. change (list_sum _) with (evs_size c). rewrite psize_eq. cbn. lia.
  - erewrite reap_size by done. cbn. lia.
  - lia.
  - cbn. lia.
  - lia.
Qed.
(** No tree runs forever. *)
Lemma step_wf p : Acc (fun p' p => exists l, step p l p') p.
Proof.
  induction p as [p IH] using (well_founded_induction (well_founded_ltof _ psize)).
  constructor. intros p' [l Hs]. apply IH. by eapply step_size.
Qed.

(** ** Following a plan *)

Definition b2n (b : bool) : nat := if b then 1 else 0.

(** Only exited children have been waited for. *)
Definition exited (b : bool) (k : proc) : Prop := b = false -> todo k = [].

(** The process carries out the plan.  A list forks its left part, waits for
    it, and goes on as its right part; a pipe forks both and waits for both; a
    background command is forked and left. *)
Inductive follows : proc -> plan -> Prop :=
| f_quiet es : Forall quiet es -> follows (Proc es []) PDone
| f_run argv T : follows (Proc [ERun argv T; EEnd argv T] []) (PRun (argv, T))
| f_running argv T : follows (Proc [EEnd argv T] []) (PRunning (argv, T))
| f_list0 l r a b :
    follows (Proc l []) a -> follows (Proc r []) b ->
    follows (Proc (EFork l :: EWait :: r) []) (PSeq a b)
| f_list1 k r a b :
    follows k a -> follows (Proc r []) b -> follows (Proc (EWait :: r) [(true, k)]) (PSeq a b)
| f_list2 g es ks a b :
    follows (Proc [] g) a -> follows (Proc es ks) b ->
    follows (Proc es ((false, Proc [] g) :: ks)) (PSeq a b)
| f_pipe0 l r st a b :
    follows (Proc l []) a -> follows (Proc r []) b ->
    follows (Proc [EFork l; EFork r; EWait; EWait; EExit st] []) (PPar a b)
| f_pipe1 k r st a b :
    follows k a -> follows (Proc r []) b ->
    follows (Proc [EFork r; EWait; EWait; EExit st] [(true, k)]) (PPar a b)
| f_pipe2 x y k1 k2 es a b :
    follows k1 a -> follows k2 b -> exited x k1 -> exited y k2 -> Forall quiet es ->
    follows (Proc (replicate (b2n x + b2n y) EWait ++ es) [(x, k1); (y, k2)]) (PPar a b)
| f_back0 l es a :
    follows (Proc l []) a -> Forall quiet es -> follows (Proc (EFork l :: es) []) (PBg a)
| f_back1 k es a :
    follows k a -> Forall quiet es -> follows (Proc es [(true, k)]) (PBg a).
#[export] Hint Constructors follows : shell.

(** A process that has exited has nothing in the foreground left to do. *)
Lemma follows_exited p a : follows p a -> todo p = [] -> fgdone a = true.
Proof.
  induction 1 as [| | | |k r a b H1 IH1 H2 IH2|g es ks a b H1 IH1 H2 IH2| | |x y k1 k2 es a b H1 IH1 H2 IH2 E1 E2 Hq| |];
    cbn in *; try done; intros Ht; subst.
  - by rewrite IH1, IH2.
  - apply app_eq_nil in Ht as [Hr _]. destruct x, y; try done. by rewrite IH1, IH2 by auto.
Qed.

Lemma quiet_inv (e : event) es : Forall quiet (e :: es) -> quiet e /\ Forall quiet es.
Proof. apply Forall_cons. Qed.

(** A process that has exited stays so: only its descendants move. *)
Lemma exited_step p l p' : step p l p' -> todo p = [] -> todo p' = [].
Proof. by destruct 1. Qed.

(** *** The tree does what the plan allows *)
Definition matched (l : option label) (a : plan) (p' : proc) : Prop :=
  match l with
  | None => follows p' a
  | Some l => exists a', pstep a l a' /\ follows p' a'
  end.
Lemma matched_lift (C : plan -> plan) (K : proc -> proc) l a p' :
  matched l a p' -> (forall l a', pstep a l a' -> pstep (C a) l (C a')) ->
  (forall q a', follows q a' -> q = p' -> follows (K q) (C a')) -> matched l (C a) (K p').
Proof. destruct l as [l|]; cbn; [intros (a' & ? & ?)|intros ?]; eauto. Qed.

Ltac inv_kids := repeat match goal with
  | H : kids_step [] _ _ |- _ => inversion H; clear H
  | H : kids_step (_ :: _) _ _ |- _ => inversion H; clear H; subst
  | H : reap [] _ |- _ => inversion H; clear H
  | H : reap (_ :: _) _ |- _ => inversion H; clear H; subst
  | H : Forall _ (_ :: _) |- _ => apply Forall_cons in H as [? ?]
  end.

(** A process with an exited first child: that child's descendants move, or
    the process does as if the child were not there. *)
Lemma prefix_step es g ks l p' :
  step (Proc es ((false, Proc [] g) :: ks)) l p' ->
  (exists g', p' = Proc es ((false, Proc [] g') :: ks) /\ step (Proc [] g) l (Proc [] g')) \/
  (exists es' ks', p' = Proc es' ((false, Proc [] g) :: ks') /\ step (Proc es ks) l (Proc es' ks')).
Proof.
  intros Hs. inversion Hs; subst; inv_kids; [right; eauto 6 with shell..| |right; eauto 6 with shell].
  left. match goal with H : step (Proc [] g) _ ?q |- _ => pose proof (exited_step _ _ _ H eq_refl); destruct q end.
  cbn in *. subst. eauto.
Qed.

Lemma exited_follows b k l k' : exited b k -> step k l k' -> exited b k'.
Proof. intros H Hs Hb. eapply exited_step; eauto. Qed.

(** The waits of a pipe. *)
Lemma pipe_step x y k1 k2 es l p' a b :
  follows k1 a -> follows k2 b -> exited x k1 -> exited y k2 -> Forall quiet es ->
  (forall l p', step k1 l p' -> matched l a p') -> (forall l p', step k2 l p' -> matched l b p') ->
  step (Proc (replicate (b2n x + b2n y) EWait ++ es) [(x, k1); (y, k2)]) l p' -> matched l (PPar a b) p'.
Proof.
  intros H1 H2 E1 E2 Hq IH1 IH2 Hs.
  assert (Hk : (exists ks, p' = Proc (replicate (b2n x + b2n y) EWait ++ es) ks /\ kids_step [(x, k1); (y, k2)] l ks) \/
    l = None /\ exists x' y' es', p' = Proc (replicate (b2n x' + b2n y') EWait ++ es') [(x', k1); (y', k2)] /\
      exited x' k1 /\ exited y' k2 /\ Forall quiet es').
  { destruct x, y; cbn in *; inversion Hs; subst; try (left; by eauto); inv_kids; try done; right; split; try done.
    all: first [by exists true, false, es|by exists false, true, es|by exists false, false, es|idtac].
    eexists false, false, _. eauto. }
  destruct Hk as [(ks & -> & Hk)|(-> & x' & y' & es' & -> & E1' & E2' & Hq')]; [|by constructor].
  inv_kids; match goal with H : step ?k _ ?q |- _ => rename H into Hst; rename q into k' end.
  - apply (matched_lift (fun a => PPar a b) (fun q => Proc _ [(x, q); (y, k2)]) l a k'); eauto with shell.
    intros q a' Hf ->. constructor; eauto using exited_follows.
  - apply (matched_lift (PPar a) (fun q => Proc _ [(x, k1); (y, q)]) l b k'); eauto with shell.
    intros q a' Hf ->. constructor; eauto using exited_follows.
Qed.

Lemma follows_step p a : follows p a -> forall l p', step p l p' -> matched l a p'.
Proof.
  induction 1 as [es Hq|argv T|argv T|x r a b H1 IH1 H2 IH2|k r a b H1 IH1 H2 IH2|g es ks a b H1 IH1 H2 IH2
    |x r st a b H1 IH1 H2 IH2|k r st a b H1 IH1 H2 IH2|x y k1 k2 es a b H1 IH1 H2 IH2 E1 E2 Hq
    |x es a H1 IH1 Hq|k es a H1 IH1 Hq]; intros l p' Hs.
  9: { eauto using pipe_step. }
  6: { apply prefix_step in Hs as [(g' & -> & Hs)|(es' & ks' & -> & Hs)].
    - apply (matched_lift (fun a => PSeq a b) (fun q => Proc es ((false, q) :: ks)) l a (Proc [] g')); eauto with shell.
      intros q a' Hf ->. by constructor.
    - apply (matched_lift (PSeq a) (fun q => let 'Proc es ks := q in Proc es ((false, Proc [] g) :: ks)) l b (Proc es' ks'));
        eauto using follows_exited with shell.
      intros q a' Hf ->. by constructor. }
  all: inversion Hs; subst; inv_kids; try done; cbn [matched]; eauto with shell.
  - apply (matched_lift (fun a => PSeq a b) (fun q => Proc _ [(true, q)]) l a p'); eauto with shell.
  - by apply (f_pipe2 true true _ _ [EExit st]); repeat constructor.
  - apply (matched_lift (fun a => PPar a b) (fun q => Proc _ [(true, q)]) l a p'); eauto with shell.
  - apply (matched_lift PBg (fun q => Proc es [(true, q)]) l a p'); eauto with shell.
Qed.

(** *** The tree can do what the plan allows *)

Inductive silent : proc -> proc -> Prop :=
| silent_refl p : silent p p
| silent_step p p1 p2 : step p None p1 -> silent p1 p2 -> silent p p2.
#[export] Hint Constructors silent : shell.
Lemma silent_trans p q r : silent p q -> silent q r -> silent p r.
Proof. induction 1; eauto with shell. Qed.
Lemma silent_one p q : step p None q -> silent p q.
Proof. eauto with shell. Qed.

(** A weak step: silent ones and then [l]. *)
Definition weak (p : proc) (l : label) (q : proc) : Prop := exists p1, silent p p1 /\ step p1 (Some l) q.
Lemma silent_weak p q l r : silent p q -> weak q l r -> weak p l r.
Proof. intros H (q1 & ? & ?). exists q1. eauto using silent_trans. Qed.

(** Children move whatever their parent does. *)
Lemma silent_kid es ks1 b p p' ks2 :
  silent p p' -> silent (Proc es (ks1 ++ (b, p) :: ks2)) (Proc es (ks1 ++ (b, p') :: ks2)).
Proof.
  induction 1; [constructor|]. econstructor; [|done]. apply step_kids. clear IHsilent. induction ks1; cbn; eauto with shell.
Qed.
Lemma weak_kid es ks1 b p l p' ks2 :
  weak p l p' -> weak (Proc es (ks1 ++ (b, p) :: ks2)) l (Proc es (ks1 ++ (b, p') :: ks2)).
Proof.
  intros (q & Hq & Hs). eexists. split; [by apply silent_kid|]. apply step_kids.
  induction ks1; cbn; eauto with shell.
Qed.

(** A process moves as if its waited-for first child were not there. *)
Lemma step_prefix es ks l es' ks' k :
  step (Proc es ks) l (Proc es' ks') -> step (Proc es ((false, k) :: ks)) l (Proc es' ((false, k) :: ks')).
Proof.
  intros Hs. inversion Hs; subst; eauto with shell.
Qed.
Lemma silent_prefix es ks es' ks' k :
  silent (Proc es ks) (Proc es' ks') -> silent (Proc es ((false, k) :: ks)) (Proc es' ((false, k) :: ks')).
Proof.
  remember (Proc es ks) as p eqn:Ep. remember (Proc es' ks') as p' eqn:Ep'. intros H. revert es ks Ep.
  induction H as [|p [es1 ks1] p2 Hs H IH]; intros es ks ->; [simplify_eq; constructor|].
  econstructor; [by apply step_prefix|by apply IH].
Qed.

(** What a process that follows [a] can do: exit, when the foreground of [a]
    is over, and each step of [a]. *)
Definition finishes (p : proc) (a : plan) : Prop :=
  fgdone a = true -> exists g, silent p (Proc [] g) /\ follows (Proc [] g) a.
Definition performs (p : proc) (a : plan) : Prop :=
  forall l a', pstep a l a' -> exists p', weak p l p' /\ follows p' a'.
Lemma able_silent p q a : silent p q -> finishes q a /\ performs q a -> finishes p a /\ performs p a.
Proof.
  intros H [Hf Hp]. split.
  - intros Hd. destruct (Hf Hd) as (g & ? & ?). eauto using silent_trans.
  - intros l a' Hs. destruct (Hp l a' Hs) as (p' & ? & ?). eauto using silent_weak.
Qed.

Lemma quiet_silent es ks : Forall quiet es -> silent (Proc es ks) (Proc [] ks).
Proof. induction 1; eauto with shell. Qed.

Lemma silent_exited p q : silent p q -> todo p = [] -> todo q = [].
Proof. induction 1; eauto using exited_step. Qed.
Lemma weak_exited b p l q : weak p l q -> exited b p -> exited b q.
Proof. intros (p1 & H & Hs) He Hb. eauto using silent_exited, exited_step. Qed.
Lemma weak_prefix es ks l q k :
  weak (Proc es ks) l q -> weak (Proc es ((false, k) :: ks)) l (Proc (todo q) ((false, k) :: (let 'Proc _ ks' := q in ks'))).
Proof.
  destruct q as [es' ks']. intros ([es1 ks1] & H & Hs). eexists. split; [by apply silent_prefix|by apply step_prefix].
Qed.

(** Once its left part has exited, a list goes on as its right part. *)
Lemma list_right es ks g a b :
  follows (Proc [] g) a -> finishes (Proc es ks) b -> performs (Proc es ks) b ->
  finishes (Proc es ((false, Proc [] g) :: ks)) (PSeq a b) /\
  (forall l b', pstep b l b' ->
    exists p', weak (Proc es ((false, Proc [] g) :: ks)) l p' /\ follows p' (PSeq a b')).
Proof.
  intros Ha Hf Hp. split.
  - intros [_ Hb]%andb_true_iff. destruct (Hf Hb) as (g' & H1 & H2). eexists. split; [by apply silent_prefix|].
    by constructor.
  - intros l b' Hs. destruct (Hp l b' Hs) as ([es' ks'] & H1 & H2). eexists. split; [by apply weak_prefix|].
    by constructor.
Qed.
Lemma list_able k r a b :
  finishes k a /\ performs k a -> finishes (Proc r []) b /\ performs (Proc r []) b -> follows (Proc r []) b ->
  finishes (Proc (EWait :: r) [(true, k)]) (PSeq a b) /\ performs (Proc (EWait :: r) [(true, k)]) (PSeq a b).
Proof.
  intros [Fa Pa] [Fb Pb] Hb.
  assert (Hw : fgdone a = true -> exists g, follows (Proc [] g) a /\
    silent (Proc (EWait :: r) [(true, k)]) (Proc r [(false, Proc [] g)])).
  { intros Hd. destruct (Fa Hd) as (g & H1 & H2). exists g. split; [done|].
    eapply silent_trans; [by apply (silent_kid _ [])|]. apply silent_one. eauto with shell. }
  split.
  - intros Hd. destruct (andb_true_iff (fgdone a) (fgdone b)) as [Hab _]. destruct (Hab Hd) as [Hda _].
    destruct (Hw Hda) as (g & H1 & H2). destruct (proj1 (list_right r [] g a b H1 Fb Pb) Hd) as (g' & H3 & H4).
    exists g'. split; [by eapply silent_trans|done].
  - intros l c Hs. inversion Hs; subst.
    + edestruct Pa as (k' & S1 & G1); [done|]. eexists. split; [by apply (weak_kid _ [])|]. by constructor.
    + destruct (Hw ltac:(done)) as (g & S1 & G1). edestruct (proj2 (list_right r [] g a b S1 Fb Pb)) as (p' & S2 & G2); [done|].
      exists p'. split; [by eapply silent_weak|done].
Qed.

(** A pipe waits for both sides, in either order. *)
Lemma pipe_waits x y g1 g2 es :
  Forall quiet es ->
  silent (Proc (replicate (b2n x + b2n y) EWait ++ es) [(x, Proc [] g1); (y, Proc [] g2)])
    (Proc [] [(false, Proc [] g1); (false, Proc [] g2)]).
Proof.
  intros Hq. apply silent_trans with (Proc es [(false, Proc [] g1); (false, Proc [] g2)]); [|by apply quiet_silent].
  destruct x, y; cbn; eauto 8 with shell.
Qed.
Lemma pipe_able x y k1 k2 es a b :
  follows k1 a -> follows k2 b -> exited x k1 -> exited y k2 -> Forall quiet es ->
  finishes k1 a /\ performs k1 a -> finishes k2 b /\ performs k2 b ->
  let p := Proc (replicate (b2n x + b2n y) EWait ++ es) [(x, k1); (y, k2)] in
  finishes p (PPar a b) /\ performs p (PPar a b).
Proof.
  intros H1 H2 E1 E2 Hq [Fa Pa] [Fb Pb] p. split.
  - intros [Ha Hb]%andb_true_iff. destruct (Fa Ha) as (g1 & S1 & G1), (Fb Hb) as (g2 & S2 & G2).
    eexists. split; [|by apply (f_pipe2 false false (Proc [] g1) (Proc [] g2) [])].
    eapply silent_trans; [by apply (silent_kid _ [])|]. eapply silent_trans; [by apply (silent_kid _ [(x, _)] y k2)|].
    by apply pipe_waits.
  - intros l c Hs. inversion Hs; subst.
    + edestruct Pa as (k' & S1 & G1); [done|]. eexists. split; [by apply (weak_kid _ [])|].
      constructor; eauto using weak_exited.
    + edestruct Pb as (k' & S1 & G1); [done|]. eexists. split; [by apply (weak_kid _ [(x, k1)])|].
      constructor; eauto using weak_exited.
Qed.

Lemma back_able k es a :
  follows k a -> performs k a -> Forall quiet es ->
  finishes (Proc es [(true, k)]) (PBg a) /\ performs (Proc es [(true, k)]) (PBg a).
Proof.
  intros Hk Pa Hq. split.
  - intros _. eexists. split; [by apply quiet_silent|]. by constructor.
  - intros l c Hs. inversion Hs; subst. edestruct Pa as (k' & S1 & G1); [done|]. eexists.
    split; [by apply (weak_kid _ [])|]. by constructor.
Qed.

Lemma follows_able p a : follows p a -> finishes p a /\ performs p a.
Proof.
  induction 1 as [es Hq|argv T|argv T|x r a b H1 IH1 H2 IH2|k r a b H1 IH1 H2 IH2|g es ks a b H1 [F1 P1] H2 [F2 P2]
    |x r st a b H1 IH1 H2 IH2|k r st a b H1 IH1 H2 IH2|x y k1 k2 es a b H1 IH1 H2 IH2 E1 E2 Hq
    |x es a H1 [F1 P1] Hq|k es a H1 [F1 P1] Hq].
  - split; [|by intros l a' Hs; inversion Hs]. intros _. exists []. eauto using quiet_silent with shell.
  - split; [done|]. intros l a' Hs. inversion Hs; subst. eexists. split; [|constructor]. eexists. eauto with shell.
  - split; [done|]. intros l a' Hs. inversion Hs; subst. eexists. split; [|by apply f_quiet]. eexists. eauto with shell.
  - eapply able_silent; [by apply silent_one, step_fork|]. by apply list_able.
  - by apply list_able.
  - destruct (list_right es ks g a b H1 F2 P2) as [Hf Hr]. split; [done|]. intros l c Hs. inversion Hs; subst; [|by apply Hr].
    edestruct P1 as ([t g'] & Hw & Hg); [done|]. pose proof (weak_exited false _ _ _ Hw (fun _ => eq_refl) eq_refl) as Ht.
    cbn in Ht. subst t. eexists. split; [by apply (weak_kid _ [])|]. by constructor.
  - eapply able_silent; [eapply silent_step; [apply step_fork|apply silent_one, step_fork]|].
    by apply (pipe_able true true _ _ [EExit st]); try done; repeat constructor.
  - eapply able_silent; [apply silent_one, step_fork|].
    by apply (pipe_able true true _ _ [EExit st]); try done; repeat constructor.
  - by apply pipe_able.
  - eapply able_silent; [apply silent_one, step_fork|]. by apply back_able.
  - by apply back_able.
Qed.

(** ** Runs *)

(** Every run of the tree is one of the plan. *)
Lemma run_follows p t q : run p t q -> forall a, follows p a -> exists b, prun a t b /\ follows q b.
Proof.
  induction 1 as [|p l p1 t p2 Hs Hr IH]; intros a Ha; [eauto with shell|].
  pose proof (follows_step _ _ Ha _ _ Hs) as Hm. destruct l as [l|]; [|by apply IH].
  destruct Hm as (a' & H1 & H2). destruct (IH _ H2) as (b & H3 & H4). exists b. split; [|done].
  by eapply prun_cons.
Qed.
(** Every run of the plan is one of the tree. *)
Lemma silent_run p q t r : silent p q -> run q t r -> run p t r.
Proof. induction 1; [done|]. intros Hr. apply (run_cons _ None p1 t r); auto. Qed.
Lemma follows_run a t b : prun a t b -> forall p, follows p a -> exists q, run p t q /\ follows q b.
Proof.
  induction 1 as [|a l a1 t b Hs Hr IH]; intros p Hp; [eauto with shell|].
  destruct (proj2 (follows_able _ _ Hp) _ _ Hs) as (p' & (p1 & H1 & H2) & H3).
  destruct (IH _ H3) as (q & H4 & H5). exists q. split; [|done]. eapply silent_run; [done|].
  by apply (run_cons p1 (Some l) p' t q).
Qed.
(** A tree stops only when every process has exited and the plan is done. *)
Lemma follows_stuck p a : follows p a -> stuck p -> todo p = [] /\ pdone a = true.
Proof.
  intros Hp Hs. destruct (follows_able _ _ Hp) as [Hf Hd].
  assert (Hn : forall q, silent p q -> q = p) by (intros q Hq; destruct Hq as [|p p1 p2 H]; [done|]; by apply Hs in H).
  assert (Ha : pdone a = true).
  { destruct (pdone a) eqn:E; [done|]. destruct (plan_progress _ E) as (l & a' & H).
    destruct (Hd _ _ H) as (p' & (p1 & ->%Hn & H2) & _). by apply Hs in H2. }
  destruct (Hf (pdone_fgdone _ Ha)) as (g & H1%Hn & _). by subst.
Qed.

(** A process that does [es], alone with its children, carries out [a]: it and
    they start and end programs in the orders that [a] allows, and in all of
    these; when it has exited, the foreground of [a] is over; no run goes on
    forever, and one that cannot go on has started each program of [a] once. *)
Definition carries_out (es : list event) (a : plan) : Prop :=
  (forall t q, run (Proc es []) t q -> exists b, prun a t b /\ (todo q = [] -> fgdone b = true) /\
    (stuck q -> todo q = [] /\ pdone b = true /\ started t ≡ₚ jobs_of a)) /\
  (forall t b, prun a t b -> exists q, run (Proc es []) t q) /\
  Acc (fun p' p => exists l, step p l p') (Proc es []).

Lemma prun_seq a c t x : prun (PSeq a c) t x -> c = PDone -> exists b, prun a t b /\ x = PSeq b PDone.
Proof.
  remember (PSeq a c) as y eqn:Ey. intros H. revert a Ey.
  induction H as [y|y l y1 t x Hs Hr IH]; intros a -> ->; [eauto with shell|].
  inversion Hs as [| |? ? a1 ? Ha| ? ? ? ? _ Hb| | |]; subst; [|by inversion Hb].
  destruct (IH a1 eq_refl eq_refl) as (b & H1 & ->). eauto with shell.
Qed.
Lemma seq_prun a t b : prun a t b -> prun (PSeq a PDone) t (PSeq b PDone).
Proof. induction 1; eauto with shell. Qed.

(** A parent that forks the process and waits for it. *)
Lemma fork_wait_carries_out es a : follows (Proc es []) a -> carries_out [EFork es; EWait] a.
Proof.
  intros Ha. assert (Hs : follows (Proc [EFork es; EWait] []) (PSeq a PDone)) by auto with shell.
  split; [|split; [|apply step_wf]].
  - intros t q Hr. destruct (run_follows _ _ _ Hr _ Hs) as (x & Hx & Hq).
    destruct (prun_seq _ _ _ _ Hx eq_refl) as (b & Hb & ->). exists b. split; [done|]. split.
    + intros Ht. apply (follows_exited _ _ Hq) in Ht. cbn in Ht. by rewrite andb_true_r in Ht.
    + intros Hst. destruct (follows_stuck _ _ Hq Hst) as [Ht Hd]. cbn in Hd. rewrite andb_true_r in Hd.
      split; [done|]. split; [done|]. by rewrite (prun_jobs _ _ _ Hb), (pdone_jobs _ Hd), app_nil_r.
  - intros t b Hb. destruct (follows_run _ _ _ (seq_prun _ _ _ Hb) _ Hs) as (q & Hq & _). eauto.
Qed.
