(* ===== verification/ShellRunSpec.v ===== *)
(** * Running commands: results

    Which programs a command line starts, in which orders, and what their
    descriptors refer to. *)

From S2P Require Import Prelude CMem Machine Shell ShellSpec ShellRun ShellConc.

(** ** What a command means

    The plan of the programs it starts, with their arguments and descriptors;
    [T] is the descriptor table of the shell, [i] the number of pipes made so
    far.  A word of the command line is the characters from [q] to [e]. *)
Definition word (m : mem) (q e : Z) : list Z := load8 m <$> seqZ q (e - q).

Section meaning.
Context `{OS : Os} (m : mem).
Fixpoint meaning (c : cmd) (T : fdtab) (i : Z) : plan * Z :=
  match c with
  | EXEC argv eargv =>
      let args := zip_with (word m) argv eargv in
      (if negb (bool_decide (argv = [])) && os_exec args then PRun (args, T) else PDone, i)
  | REDIR c file efile mode fd =>
      if os_open (word m file efile) mode then meaning c (<[fd := FFile (word m file efile) mode]> T) i
      else (PDone, i)
  | LIST l r =>
      let a := meaning l T i in
      let b := meaning r T a.2 in
      (PSeq a.1 b.1, b.2)
  | PIPE l r =>
      let a := meaning l (<[1 := FPipeW i]> T) (i + 1) in
      let b := meaning r (<[0 := FPipeR i]> T) a.2 in
      (PPar a.1 b.1, b.2)
  | BACK c => let a := meaning c T i in (PBg a.1, a.2)
  end.
End meaning.

(** Descriptors 0, 1 and 2 are open and no others. *)
Definition std (T : fdtab) : Prop := dom T = {[0; 1; 2]}.

(** Redirections are of the standard input and output. *)
Fixpoint std_redirs (c : cmd) : Prop :=
  match c with
  | EXEC _ _ => True
  | REDIR c _ _ _ fd => (fd = 0 \/ fd = 1) /\ std_redirs c
  | PIPE l r | LIST l r => std_redirs l /\ std_redirs r
  | BACK c => std_redirs c
  end.

(** The grammar only has such redirections. *)
Lemma redirs_std c t c' : redirs c t c' -> std_redirs c -> std_redirs c'.
Proof. induction 1; simpl in *; auto. Qed.
Lemma add_arg_std q e c : std_redirs c -> std_redirs (add_arg q e c).
Proof. induction c; simpl; tauto. Qed.
Lemma arguments_std c n t c' : arguments c n t c' -> std_redirs c -> std_redirs c'.
Proof. induction 1; [done|]. eauto using redirs_std, add_arg_std. Qed.
Lemma back_std k c : std_redirs c -> std_redirs (Nat.iter k BACK c).
Proof. intros H. by induction k. Qed.
Lemma grammar_std :
  (forall t c, line t c -> std_redirs c) /\ (forall t c, pipeline t c -> std_redirs c) /\
  (forall t c, simple t c -> std_redirs c).
Proof. apply grammar_ind; intros; simpl; eauto using redirs_std, arguments_std, back_std. by eapply arguments_std, redirs_std. Qed.

(** ** Descriptor tables *)

Lemma std_lookup T n : std T -> T !! n = None <-> ~ (0 <= n <= 2).
Proof. intros HT. rewrite <- not_elem_of_dom, HT. set_unfold. lia. Qed.

Lemma filter_none {A} (Q : A -> Prop) `{forall x, Decision (Q x)} (l : list A) :
  (forall x, x ∈ l -> ~ Q x) -> filter Q l = [].
Proof.
  induction l as [|x l IH]; intros Hl; [done|]. rewrite filter_cons_False by (apply Hl; left).
  apply IH. intros y Hy. apply Hl. by right.
Qed.

Lemma fd_alloc_first T n :
  0 <= n < NOFILE -> T !! n = None -> (forall k, 0 <= k < n -> T !! k <> None) -> fd_alloc T = Some n.
Proof.
  intros Hn H0 Hk. unfold fd_alloc. replace NOFILE with (n + (1 + (NOFILE - n - 1))) by lia.
  rewrite seqZ_app, filter_app by lia. replace (filter _ (seqZ 0 n)) with (@nil Z).
  - rewrite seqZ_app, filter_app by lia. change (seqZ (0 + n) 1) with [0 + n]. rewrite Z.add_0_l.
    by rewrite filter_cons_True.
  - symmetry. apply filter_none. intros k Hk'. apply elem_of_seqZ in Hk'. apply Hk. lia.
Qed.

Ltac fdmap := apply map_eq; let j := fresh "j" in intros j;
  repeat (first [rewrite lookup_insert | rewrite lookup_delete]; repeat case_decide; subst); try done; try lia.

Lemma close_reopen T fd : std T -> 0 <= fd <= 2 -> fd_alloc (delete fd T) = Some fd.
Proof.
  intros HT Hfd. apply fd_alloc_first; [unfold NOFILE; lia|apply lookup_delete_eq|].
  intros k Hk. rewrite lookup_delete_ne, std_lookup by (done || lia). lia.
Qed.

(** The table with both ends of a pipe. *)
Definition piped (i : Z) (T : fdtab) : fdtab := <[4 := FPipeW i]> (<[3 := FPipeR i]> T).

Lemma piped_alloc i T : std T -> fd_alloc T = Some 3 /\ fd_alloc (<[3 := FPipeR i]> T) = Some 4.
Proof.
  intros HT. split; apply fd_alloc_first; try (unfold NOFILE; lia).
  - apply std_lookup; [done|lia].
  - intros k Hk. rewrite std_lookup by done. lia.
  - rewrite lookup_insert_ne by done. apply std_lookup; [done|lia].
  - intros k Hk. rewrite lookup_insert. case_decide; [done|]. rewrite std_lookup by done. lia.
Qed.
Lemma piped_reopen i T fd : std T -> 0 <= fd <= 2 -> fd_alloc (delete fd (piped i T)) = Some fd.
Proof.
  intros HT Hfd. apply fd_alloc_first; [unfold NOFILE; lia|apply lookup_delete_eq|].
  intros k Hk. unfold piped. rewrite lookup_delete_ne, !lookup_insert_ne, std_lookup by (done || lia). lia.
Qed.
Lemma piped_close i T fd o : std T -> 0 <= fd <= 2 ->
  delete 4 (delete 3 (<[fd := o]> (delete fd (piped i T)))) = <[fd := o]> T.
Proof.
  intros HT Hfd. pose proof (proj2 (std_lookup T 3 HT) ltac:(lia)) as H3.
  pose proof (proj2 (std_lookup T 4 HT) ltac:(lia)) as H4. unfold piped. fdmap.
Qed.
Lemma piped_done i T : std T -> delete 4 (delete 3 (piped i T)) = T.
Proof.
  intros HT. pose proof (proj2 (std_lookup T 3 HT) ltac:(lia)) as H3.
  pose proof (proj2 (std_lookup T 4 HT) ltac:(lia)) as H4. unfold piped. fdmap.
Qed.
Lemma std_insert T fd o : std T -> 0 <= fd <= 2 -> std (<[fd := o]> T).
Proof. intros HT Hfd. unfold std in *. rewrite dom_insert_L, HT. set_unfold. lia. Qed.

(** ** Running *)

Section run.
Context `{OS : Os} (m m' : mem).
Hypothesis (Hfork : forall n, os_fork n = true) (Hpipe : forall n, os_pipe n = true).

(** The record of a process goes on with [es], which follows the plan [a]. *)
Definition records (s s' : ush) (a : plan) (i : Z) : Prop :=
  exists es, sh_log s' = sh_log s ++ es /\ follows (Proc es []) a /\ sh_pipes s' = i.
(** The child of a fork does. *)
Definition fresh_log (s : ush) : ush := mkUsh (sh_mem s) (sh_fds s) (sh_pipes s) (sh_calls s) [].
Definition child_does (s : ush) (child : P unit) (a : plan) (i : Z) : Prop :=
  records (fresh_log s) (child (fresh_log s)).2 a i.

(** The parent, after a fork whose child follows [a]. *)
Definition forked (s : ush) (a : plan) (i : Z) (s' : ush) : Prop :=
  sh_mem s' = sh_mem s /\ sh_fds s' = sh_fds s /\ sh_pipes s' = i /\
  exists es, sh_log s' = sh_log s ++ [EFork es] /\ follows (Proc es []) a.

Lemma fork1_spec s child a i :
  child_does (called s) child a i -> exists s', fork1 child s = (Some tt, s') /\ forked s a i s'.
Proof.
  intros (es & H1 & H2 & H3). eexists. unfold fork1, pbind, pgets, pmodify. cbn. rewrite Hfork. split; [done|].
  split; [done|]. split; [done|]. split; [done|]. exists es. split; [|done]. cbn in H1. by rewrite <- H1.
Qed.

Lemma pbind_some {A B} (p : P A) (f : A -> P B) s a s' : p s = (Some a, s') -> pbind p f s = f a s'.
Proof. intros H. unfold pbind. by rewrite H. Qed.

Definition runs_plan (c : cmd) : Prop := forall s, std (sh_fds s) -> sh_mem s = m' ->
  exists s', runcmd c s = (None, s') /\
    records s s' (meaning m c (sh_fds s) (sh_pipes s)).1 (meaning m c (sh_fds s) (sh_pipes s)).2.

Lemma runs_child c s : runs_plan c -> std (sh_fds s) -> sh_mem s = m' ->
  child_does s (runcmd c) (meaning m c (sh_fds s) (sh_pipes s)).1 (meaning m c (sh_fds s) (sh_pipes s)).2.
Proof. intros Hc HT Hm. destruct (Hc (fresh_log s) HT Hm) as (s' & H1 & H2). unfold child_does. by rewrite H1. Qed.

(** Messages and an exit. *)
Lemma records_quiet s es : Forall quiet es ->
  records s (mkUsh (sh_mem s) (sh_fds s) (sh_pipes s) (sh_calls s) (sh_log s ++ es)) PDone (sh_pipes s).
Proof. intros H. exists es. split; [done|]. split; [by constructor|done]. Qed.
Lemma records_quiet2 s (T : fdtab) e1 e2 i : quiet e1 -> quiet e2 -> i = sh_pipes s ->
  records s (logged_ev e2 (logged_ev e1 (set_sh_fds T s))) PDone i.
Proof.
  intros H1 H2 ->. exists [e1; e2]. cbn. rewrite <- app_assoc. split; [done|]. split; [|done].
  repeat constructor; done.
Qed.

Lemma run_exec argv eargv : Forall2 (fun q e => str_at m' q = word m q e) argv eargv -> runs_plan (EXEC argv eargv).
Proof.
  intros Hok s HT Hm. cbn [runcmd]. unfold pbind, pgets. cbn. rewrite Hm.
  assert (Hargs : str_at m' <$> argv = zip_with (word m) argv eargv).
  { clear -Hok. induction Hok as [|q e l l' H _ IH]; [done|]. cbn. by rewrite H, IH. }
  destruct argv as [|a argv]; [eexists; split; [done|]; by apply (records_quiet s [EExit 1]); repeat constructor|].
  rewrite bool_decide_false by done. cbn [negb andb]. unfold exec. rewrite Hargs. destruct (os_exec _).
  - eexists. split; [done|]. eexists [_; _]. cbn. rewrite <- app_assoc. split; [done|]. split; [constructor|done].
  - eexists. split; [done|]. by apply (records_quiet2 s (sh_fds s)).
Qed.

Lemma run_redir c file efile mode fd :
  runs_plan c -> fd = 0 \/ fd = 1 -> str_at m' file = word m file efile -> runs_plan (REDIR c file efile mode fd).
Proof.
  intros IH Hfd Hw s HT Hm. cbn [runcmd meaning]. unfold pbind at 1, pgets. cbv iota beta. rewrite Hm.
  rewrite (pbind_some _ _ s tt (set_sh_fds (delete fd (sh_fds s)) s)) by done.
  rewrite <- Hw. unfold open. destruct (os_open (str_at m' file) mode) eqn:Ho.
  - rewrite (pbind_some _ _ _ fd (set_sh_fds (<[fd := FFile (str_at m' file) mode]> (sh_fds s)) s)).
    2: { unfold install. cbn. rewrite close_reopen by (done || lia). cbn. by rewrite insert_delete_eq. }
    replace (fd <? 0) with false by lia.
    destruct (IH (set_sh_fds (<[fd := FFile (str_at m' file) mode]> (sh_fds s)) s)) as (s' & H1 & H2); try done.
    { apply std_insert; [done|lia]. }
    exists s'. unfold pbind. by rewrite H1.
  - eexists. split; [done|]. by apply records_quiet2.
Qed.

Lemma run_list l r : runs_plan l -> runs_plan r -> runs_plan (LIST l r).
Proof.
  intros IHl IHr s HT Hm. cbn [runcmd meaning]. cbv zeta.
  destruct (fork1_spec s _ _ _ (runs_child l (called s) IHl HT Hm)) as (s1 & E1 & A1 & A2 & A3 & el & A4 & A5).
  cbn [called sh_fds sh_pipes] in *. rewrite (pbind_some _ _ _ _ _ E1).
  rewrite (pbind_some _ _ _ tt (logged_ev EWait s1)) by done.
  destruct (IHr (logged_ev EWait s1)) as (s2 & E2 & er & B1 & B2 & B3); [by cbn; rewrite A2|by cbn; rewrite A1|].
  exists s2. unfold pbind. rewrite E2. split; [done|]. cbn [logged_ev sh_fds sh_pipes sh_log] in *.
  rewrite A2, A3 in B2, B3. exists (EFork el :: EWait :: er). rewrite B1, A4, <- !app_assoc.
  split; [done|]. split; [by constructor|done].
Qed.

Lemma run_back c : runs_plan c -> runs_plan (BACK c).
Proof.
  intros IH s HT Hm. cbn [runcmd meaning]. cbv zeta.
  destruct (fork1_spec s _ _ _ (runs_child c (called s) IH HT Hm)) as (s1 & E1 & A1 & A2 & A3 & el & A4 & A5).
  cbn [called sh_fds sh_pipes] in *. rewrite (pbind_some _ _ _ _ _ E1). eexists. split; [done|].
  exists [EFork el; EExit 0]. cbn. rewrite A4, <- app_assoc. split; [done|]. split; [|done].
  constructor; [done|by repeat constructor].
Qed.

(** [close(fd); dup(p); close(p[0]); close(p[1]);] *)
Lemma child_redirect (k : P unit) i T fd p o s :
  sh_fds s = piped i T -> std T -> 0 <= fd <= 2 -> p = 3 \/ p = 4 -> piped i T !! p = Some o ->
  (close fd ;; dup p ;; close 3 ;; close 4 ;; k) s = k (set_sh_fds (<[fd := o]> T) s).
Proof.
  intros Hs HT Hfd Hp Ho.
  rewrite (pbind_some _ _ s tt (set_sh_fds (delete fd (piped i T)) s)) by (unfold close, pmodify; by rewrite Hs).
  rewrite (pbind_some _ _ _ fd (set_sh_fds (<[fd := o]> (delete fd (piped i T))) s)).
  - rewrite (pbind_some _ _ _ tt (set_sh_fds (delete 3 (<[fd := o]> (delete fd (piped i T)))) s)) by done.
    rewrite (pbind_some _ _ _ tt (set_sh_fds (delete 4 (delete 3 (<[fd := o]> (delete fd (piped i T))))) s)) by done.
    by rewrite piped_close.
  - unfold dup, pbind, pgets. cbn [set_sh_fds sh_fds]. rewrite lookup_delete_ne, Ho by lia.
    unfold install. cbn [set_sh_fds sh_fds]. by rewrite piped_reopen.
Qed.

Lemma redirected_child c i T fd p o s :
  sh_fds s = piped i T -> std T -> 0 <= fd <= 2 -> p = 3 \/ p = 4 -> piped i T !! p = Some o ->
  sh_mem s = m' -> runs_plan c ->
  child_does s (close fd ;; dup p ;; close 3 ;; close 4 ;; runcmd c)
    (meaning m c (<[fd := o]> T) (sh_pipes s)).1 (meaning m c (<[fd := o]> T) (sh_pipes s)).2.
Proof.
  intros Hs HT Hfd Hp Ho Hm Hc. unfold child_does. rewrite (child_redirect _ i T fd p o (fresh_log s)) by done.
  destruct (Hc (set_sh_fds (<[fd := o]> T) (fresh_log s))) as (s' & E & H2); [by apply std_insert|done|].
  by rewrite E.
Qed.

Lemma pipe_spec s : std (sh_fds s) ->
  pipe s = (Some (Some (3, 4)),
    mkUsh (sh_mem s) (piped (sh_pipes s) (sh_fds s)) (sh_pipes s + 1) (sh_calls s + 1) (sh_log s)).
Proof.
  intros HT. destruct (piped_alloc (sh_pipes s) (sh_fds s) HT) as [H3 H4].
  unfold pipe, pbind, pgets, pmodify. cbn. rewrite Hpipe. unfold install. cbn. rewrite H3. cbn. by rewrite H4.
Qed.

Lemma run_pipe l r : runs_plan l -> runs_plan r -> runs_plan (PIPE l r).
Proof.
  intros IHl IHr s HT Hm. set (T := sh_fds s) in *. set (i := sh_pipes s). cbn [runcmd meaning]. fold T i. cbv zeta.
  rewrite (pbind_some _ _ _ _ _ (pipe_spec s HT)). fold T i. set (s1 := mkUsh _ _ _ _ _).
  pose proof (redirected_child l i T 1 4 (FPipeW i) (called s1) eq_refl HT ltac:(lia) ltac:(auto)
    (lookup_insert_eq _ _ _) Hm IHl) as Hl.
  destruct (fork1_spec s1 _ _ _ Hl) as (s2 & E2 & A1 & A2 & A3 & el & A4 & A5). rewrite (pbind_some _ _ _ _ _ E2).
  assert (H3 : piped i T !! 3 = Some (FPipeR i)) by (unfold piped; by rewrite lookup_insert_ne, lookup_insert_eq).
  pose proof (redirected_child r i T 0 3 (FPipeR i) (called s2) A2 HT ltac:(lia) ltac:(auto) H3
    ltac:(cbn; rewrite A1; exact Hm) IHr) as Hr.
  destruct (fork1_spec s2 _ _ _ Hr) as (s3 & E3 & B1 & B2 & B3 & er & B4 & B5). rewrite (pbind_some _ _ _ _ _ E3).
  eexists. split; [done|]. exists [EFork el; EFork er; EWait; EWait; EExit 0].
  change (sh_pipes (called s2)) with (sh_pipes s2) in B3, B5. rewrite A3 in B3, B5.
  cbn [logged_ev set_sh_fds sh_log sh_pipes]. rewrite B4, A4, <- !app_assoc. split; [done|]. split; [by constructor|done].
Qed.

Lemma runcmd_spec c :
  std_redirs c -> cmd_ok (fun q e => str_at m' q = word m q e) c -> runs_plan c.
Proof.
  induction c; intros Hr Hok; simpl in *.
  - apply run_exec. apply Hok.
  - apply run_redir; tauto.
  - apply run_pipe; tauto.
  - apply run_list; tauto.
  - apply run_back; tauto.
Qed.

(** No descriptor leaks into a program. *)
Lemma meaning_std c : forall T i, std_redirs c -> std T -> Forall (fun j => std j.2) (jobs_of (meaning m c T i).1).
Proof. clear Hfork Hpipe.
  induction c as [argv eargv|c IH file efile mode fd|l IHl r IHr|l IHl r IHr|c IH]; intros T i Hr HT; cbn [meaning].
  - cbv zeta. destruct (_ && _); repeat constructor; done.
  - destruct (os_open _ _); [|constructor]. destruct Hr as [Hfd Hr]. apply IH; [done|]. apply std_insert; [done|lia].
  - destruct Hr. cbv zeta. apply Forall_app. split; [apply IHl|apply IHr]; try done; apply std_insert; (done || lia).
  - destruct Hr. cbv zeta. apply Forall_app. split; [by apply IHl|by apply IHr].
  - by apply IH.
Qed.
End run.

(** ** A command line *)

Lemma cstrn_upto m k : forall n q,
  (k < n)%nat -> load8 m (q + Z.of_nat k) = 0 -> (forall j, 0 <= j < Z.of_nat k -> load8 m (q + j) <> 0) ->
  cstrn n m q = load8 m <$> seqZ q (Z.of_nat k).
Proof.
  induction k as [|k IH]; intros [|n] q Hn H0 Hj; try lia; cbn [cstrn].
  - rewrite Z.add_0_r in H0. by rewrite H0.
  - pose proof (Hj 0 ltac:(lia)) as Hq. rewrite Z.add_0_r in Hq.
    destruct (Z.eqb_spec (load8 m q) 0); [done|].
    rewrite (IH n (q + 1)); [|lia|by replace (q + 1 + Z.of_nat k) with (q + Z.of_nat (S k)) by lia|].
    + rewrite (seqZ_cons q (Z.of_nat (S k))) by lia. cbn [fmap list_fmap]. f_equal. f_equal. f_equal; lia.
    + intros j Hj'. replace (q + 1 + j) with (q + (j + 1)) by lia. apply Hj. lia.
Qed.

Lemma word_string fuel m m' q e :
  (fuel <= Z.to_nat 4096)%nat -> string_of_word fuel m m' q e -> str_at m' q = word m q e.
Proof.
  intros Hf [Hs Hw]. apply strlen_loop_some in Hs as (Hr & H0 & Hne). unfold str_at.
  rewrite (cstrn_upto m' (Z.to_nat (e - q))); rewrite ?Z2Nat.id by lia; try lia; try done.
  unfold word. apply list_fmap_ext. intros i x Hx%list_elem_of_lookup_2. apply elem_of_seqZ in Hx. apply Hw. lia.
Qed.

Section results.
Context `{OS : Os}.

(** C23: a command line, after blanks and unless it is empty or a [cd], makes
    the shell fork one process and wait for it, and the processes that this one
    forks carry out what the grammar's reading of the line means, if every
    [fork] and [pipe] succeeds.  However the processes are interleaved, the
    right part of a list starts only when the left part's programs have ended
    but for those in the background, both sides of a pipe run side by side, the
    shell goes on when the foreground programs have ended; every such order can
    happen, no run goes on forever, and each program is started once, with the
    words of its part of the line as arguments, its standard input and output
    where the redirections and pipes around it put them, and no other
    descriptor, so no program holds an end of a pipe that is not its own.  A
    line that the grammar does not derive starts nothing.  The shell's own
    memory and descriptors are unchanged. *)
Theorem sh_line_correct (s : ush) (buf n : Z) :
  (forall n, os_fork n = true) -> (forall n, os_pipe n = true) -> std (sh_fds s) ->
  let m := sh_mem s in let cmd := skip_blanks (Z.to_nat sh_nbuf) m buf in
  strlen (Z.to_nat sh_nbuf) m cmd = Some n -> load8 m cmd <> 10 ->
  ~ (load8 m cmd = 99 /\ load8 m (cmd + 1) = 100 /\ load8 m (cmd + 2) = 32) ->
  exists ts es pl s', scan m (cmd + n) cmd ts /\ sh_line buf s = (Some tt, s') /\
    sh_mem s' = m /\ sh_fds s' = sh_fds s /\
    sh_log s' = sh_log s ++ [EFork es; EWait] /\ carries_out [EFork es; EWait] pl /\
    ((exists c, line ts c /\ pl = (meaning m c (sh_fds s) (sh_pipes s)).1 /\
        Forall (fun j => std j.2) (jobs_of pl)) \/
     (forall c, ~ line ts c) /\ pl = PDone).
Proof.
  intros Hfork Hpipe HT m cmd Hlen Hnl Hcd.
  destruct (parsecmd_spec (Z.to_nat sh_nbuf) m cmd n Hlen) as (ts & Hts & Hp).
  unfold sh_line. unfold pbind at 1, pgets. cbv iota beta zeta. fold m cmd.
  destruct (Z.eqb_spec (load8 m cmd) 10); [done|].
  assert (Hno : (load8 m cmd =? 99) && (load8 m (cmd + 1) =? 100) && (load8 m (cmd + 2) =? 32) = false).
  { destruct (Z.eqb_spec (load8 m cmd) 99), (Z.eqb_spec (load8 m (cmd + 1)) 100), (Z.eqb_spec (load8 m (cmd + 2)) 32); tauto. }
  rewrite Hno.
  assert (Hdo : exists pl i, child_does (called s) (sh_child m cmd) pl i /\
    ((exists c, line ts c /\ pl = (meaning m c (sh_fds s) (sh_pipes s)).1 /\ Forall (fun j => std j.2) (jobs_of pl)) \/
     (forall c, ~ line ts c) /\ pl = PDone)).
  { unfold sh_child, child_does. destruct (parsecmd _ m cmd) as [[c m'] p|[msg|msg|]|p k]; [|..|done]; try done.
    - destruct Hp as (Hl & _ & Hok & _). pose proof (proj1 grammar_std _ _ Hl) as Hstd.
      eexists (meaning m c (sh_fds s) (sh_pipes s)).1, _.
      split; [|left; exists c; split; [done|]; split; [done|]; by apply meaning_std].
      assert (Hw : cmd_ok (fun q e => str_at m' q = word m q e) c).
      { eapply cmd_ok_mono; [exact Hok|]. intros q e (_ & _ & Hs). eapply word_string; [|exact Hs]. unfold sh_nbuf. lia. }
      destruct (runcmd_spec m m' Hfork Hpipe c Hstd Hw (set_sh_mem m' (fresh_log (called s))) HT eq_refl) as (s' & E & H1).
      unfold pbind, pmodify. rewrite E. exact H1.
    - exists PDone, (sh_pipes s). split; [|by right]. by apply (records_quiet2 (fresh_log (called s)) (sh_fds s)). }
  destruct Hdo as (pl & i & Hc & Hpl). destruct (fork1_spec Hfork s _ pl i Hc) as (s1 & E1 & A1 & A2 & A3 & es & A4 & A5).
  exists ts, es, pl, (logged_ev EWait s1). split; [done|]. split; [by rewrite (pbind_some _ _ _ _ _ E1)|].
  split; [done|]. split; [done|]. split; [cbn; by rewrite A4, <- app_assoc|]. split; [by apply fork_wait_carries_out|done].
Qed.
End results.

(** ** Witness

    The line "a <f | b x", read into a buffer at 1000. *)
Definition demo_os : Os :=
  {| os_open _ _ := true; os_exec _ := true; os_chdir _ := true; os_fork _ := true; os_pipe _ := true;
     os_read _ := None |}.
Definition demo_line : list Z := [97; 32; 60; 102; 32; 124; 32; 98; 32; 120; 10].
Definition demo_fds : fdtab := <[0 := FInherited 0]> (<[1 := FInherited 1]> (<[2 := FInherited 2]> ∅)).
Definition demo_sh : ush := mkUsh (write_bytes ∅ 1000 demo_line) demo_fds 0 0 [].

Lemma sh_line_correct_witness :
  (exists es, sh_log (@sh_line demo_os 1000 demo_sh).2 = [EFork es; EWait]) /\
  exists ts es pl s', scan (sh_mem demo_sh) (1000 + 11) 1000 ts /\ @sh_line demo_os 1000 demo_sh = (Some tt, s') /\
    sh_mem s' = sh_mem demo_sh /\ sh_fds s' = sh_fds demo_sh /\
    sh_log s' = sh_log demo_sh ++ [EFork es; EWait] /\ carries_out [EFork es; EWait] pl /\
    ((exists c, line ts c /\ pl = (@meaning demo_os (sh_mem demo_sh) c (sh_fds demo_sh) (sh_pipes demo_sh)).1 /\
        Forall (fun j => std j.2) (jobs_of pl)) \/
     (forall c, ~ line ts c) /\ pl = PDone).
Proof.
  split; [eexists; vm_compute; reflexivity|].
  apply (@sh_line_correct demo_os demo_sh 1000 11).
  - intros n. reflexivity.
  - intros n. reflexivity.
  - vm_compute. reflexivity.
  - vm_compute. reflexivity.
  - vm_compute. discriminate.
  - vm_compute. intros (H & _). discriminate H.
Defined.
